(* ===== verification/_CoqProject ===== *)
-Q . S2P
Prelude.v
Codec.v
Strs.v
Addr.v
F32.v
VideoQos.v
Version.v
Vfs.v
Fs.v
Transfer.v
Jobs.v
Receive.v
Send.v
FsSafety.v
FsWalk.v
Secret.v
Options.v
Ip.v
Servers.v
Password.v
PasswordSafety.v
Secure.v
SecureSafety.v
HostPort.v
Rendezvous.v
RendezvousSafety.v
Peers.v
Permissions.v
Throttle.v
Sessions.v
Services.v
Cm.v
CmSafety.v
CmClients.v
Conn.v
LoginConfig.v
Login.v
LoginSafety.v
ConnSafety.v
Session.v
Dispatch.v
DispatchSafety.v
Remote.v
RemoteSafety.v
Download.v
Terminal.v
TerminalSafety.v
Input.v
InputSafety.v
Cursor.v
CursorSafety.v
Codecs.v
CodecsSafety.v
Displays.v
Video.v
VideoSafety.v
VideoLive.v
Viewer.v
ViewerSafety.v
ViewerRate.v
