(* ===== verification/Prelude.v ===== *)
(** * LUODA remote desktop

    A model in Rocq of the logic of the program under [src/]: a remote desktop
    whose host ("server") lets a controlling peer ("client") see its screen, use
    its input devices, exchange files, open tunnels and terminals.  The model
    follows the Rust code function by function; a theorem is about the code's own
    operations, their errors and their order.

    ** The program and its parts

    A host registers with a rendezvous server; a client finds it there, opens a
    stream of framed messages to it, proves that it knows a password or is let in
    by the user, and then sends messages that the host serves as far as the
    permissions of the session go.  Services of the host (video, audio, cursor,
    clipboard) push data to the connections subscribed to them.  A second process
    of the host, the connection manager, runs as the logged-in user: it shows the
    connections and touches the user's files.  Settings, passwords and remembered
    peers are files of the user.

    The files of the development, each over the ones above it, and the source
    each of them models:

    - [Prelude], [Strs], [F32], [Vfs], [Ip]: results, machine integers, strings,
      single-precision floats, a file system, the text of IP addresses: what the
      standard library of Rust gives the program;
    - the wire: [Codec] ([hbb_common/bytes_codec.rs]), [Addr] ([AddrMangle] of
      [hbb_common/lib.rs]), [HostPort] ([hbb_common/lib.rs], [socket_client.rs]),
      [Version] ([hbb_common/lib.rs], [src/common.rs]), [Secure] (the encryption of
      [tcp.rs] and [websocket.rs] and the handshakes that agree on its key);
      [SecureSafety];
    - finding each other: [Rendezvous] ([src/rendezvous_mediator.rs],
      [rendezvous_transport.rs]); [RendezvousSafety];
    - files: [Fs] and [Transfer] ([hbb_common/fs.rs]), [Cm]
      ([src/ui_cm_interface.rs], the file half, and the connection's side of it);
      their theorems are in [Jobs], [Receive], [Send], [FsSafety], [FsWalk],
      [CmSafety];
    - settings and secrets ([hbb_common/config.rs], [password_security.rs]):
      [Secret], [Options], [Servers], [Password], [Peers]; [PasswordSafety];
    - the host's side of a session ([src/server/connection.rs]): [Permissions],
      [Throttle] (the table of wrong attempts, which the attempts of several
      connections read and write in between one another), [Sessions] (the module [raii]), [Conn] (the connection and its
      options), [Login] ([on_message] until the session is granted, and the loop
      of [start]), [Dispatch] ([on_message] afterwards); [Services]
      ([src/server/service.rs], [src/server.rs]), [VideoQos]
      ([src/server/video_qos.rs]); theorems in [LoginSafety], [ConnSafety],
      [DispatchSafety];
    - the terminals of the host ([src/server/terminal_service.rs]): [Terminal];
      [TerminalSafety];
    - the input of the host ([src/server/input_service.rs]): [Input] (the keys,
      buttons and movements a peer sends and the keys held down for it), and its
      mouse cursor: [Cursor] (the services that show it to the peers); [InputSafety],
      [CursorSafety];
    - the pictures of the host: [Codecs] ([libs/scrap/src/common/codec.rs], which
      codec the encoders are opened with and how), [Displays]
      ([src/server/display_service.rs]) and [Video]
      ([src/server/video_service.rs], the loop that captures, encodes and waits);
      [CodecsSafety], [VideoSafety], [VideoLive];
    - the client's side: [LoginConfig] ([src/client.rs]), which [Session] puts
      against the host, and [Remote] (the file jobs of [src/client/io_loop.rs];
      [RemoteSafety]), which [Download] joins to [Dispatch]; [Viewer] (the pictures, in
      [io_loop.rs] and the threads of [src/client.rs]; [ViewerSafety], which joins it to
      [Video], and [ViewerRate]);
    - the window of the connection manager: [CmClients]
      ([src/ui_cm_interface.rs], the other half).

    ** How the code is modelled

    A struct is a [Record] with the source's field names where they are free, an
    enum an [Inductive]; a [HashMap] is a [gmap], a [Vec] a list.  [Result] is
    [result], with the text of the errors that reach a peer.  A method with
    [&mut self] returns the new value.  Where many calls thread state and errors
    there is a small monad: [Transfer] over a job, the file system and the
    messages sent, where an error keeps the changes made before it and a panic is
    an outcome of its own; [Conn.M] over the world of a connection; [Dispatch.D]
    over a connection and its desk; [Remote.Rm] over the client's loop; [Input.I]
    over the state of the keyboard.  What leaves the modelled part (to a peer, a
    device, another process) is appended to a log.  A failure keeps what was done
    before it (directories made, a process started).  Asynchronous code runs from
    one suspension that matters to the next: the tasks of a loop are steps
    ([Throttle.gate_step], [Login.step], [Dispatch.desk_step], [CmClients.task_step],
    [Rendezvous.udp_step],
    [Remote.remote_step], [Terminal.term_step], [Input.input_step],
    [Cursor.cursor_step], [Displays.display_step], [Video.video_step],
    [Viewer.viewer_step]) and theorems hold for every sequence of them.  Integers have their width and wrap as release
    builds do ([wrap], [swrap]); clocks and random numbers are arguments.

    The build is the Linux desktop with the Flutter interface and without
    [unix-file-copy-paste]; a check that differs on Windows and matters to what a
    peer can do is modelled with [cfg!(windows)] as an argument ([Fs], [Cm]).

    What is not under [src/] is a parameter with documented laws as hypotheses,
    each shown to hold somewhere: [Secret.Crypto] and [CryptoLaws] (base64,
    SHA-256, the secret box), [Password.Json], [Cm.Proto] (protobuf), [Conn.Totp],
    [Peers.F64]; the answers of devices and of the system are the fields of
    [Conn.Env], [Dispatch.DeskEnv], [LoginConfig.ClientEnv], [Input.InputEnv],
    [Codecs.CodecEnv], [Video.VideoEnv], [Viewer.ViewerEnv],
    [Secret.Machine] and
    the environment of [Rendezvous]; signatures and boxes are parameters of
    [Secure]; compression, the file of a digest, the setting of times and the
    lengths of reads are parameters of [Transfer] and of what stands on it.

    ** What the theorems show

    - Files: a transfer delivers exactly the sent files, whatever the sizes of the
      reads ([transfer_end_to_end]) and ends ([send_job_complete]); no name a peer
      sends leaves the destination ([validated_path_confined]); a block is written
      only where it belongs ([write_rejects]); a listing is exact and ends even
      with links that form a loop ([listing_exact], [directory_walks_end]);
      a download of an authorised two-way session reaches its end across both sides, each file asked for,
      confirmed and delivered ([download_completes]); the removal of a directory
      of the user's own machine ends and removes what can be removed
      ([removal_completes]); the client's loop
      keeps every field within its machine type ([remote_typed_steps]);
      reading through the connection manager is the same as reading directly
      ([reads_through_cm]), and every file command is answered
      ([file_commands_answered]).
    - Who gets in: [authorization_justified] lists every way a connection becomes
      authorised; [throttle_limits] bounds the guesses, in any interleaving from a
      network, and from an address as long as its attempts do not overlap
      ([overlapping_attempts_uncounted]); [password_login_succeeds] and
      [remembered_password_logs_in] show that the honest client gets in.
    - What a session may do: [privileged_actions_permitted],
      [permission_precedence], [session_subscriptions], [session_options_follow],
      [one_way_keeps_files], [download_served].
    - Registries: [registries_reflect], [window_reflects_connections] (also with tasks
      of connections that panic),
      [subscriptions_refine], [snapshot_first].
    - Terminals: everything an open terminal writes reaches the peer in order and
      everything typed reaches the terminal, whatever becomes of other terminals
      ([terminal_stream]); a reconnecting peer finds its terminal with the end of its
      history ([terminal_reconnects], [history_is_recent]) and the redraw it triggers
      ends ([redraw_ends]); a shell that was started is collected, but in two cases
      of failure ([shells_accounted]).
    - Keys, under X11: whatever the peer sends of known keys and wherever it stops, the
      keys the host pressed for it are released ([no_key_stays_down]), and a key is
      typed under the caps lock of the peer ([typed_under_peer_caps]).
    - The cursor: a peer that is served knows the image and the place of the
      cursor it is shown ([cursor_shown]).
    - Pictures: what a peer that stays is sent can be decoded, a key frame before
      the frames that build on it and in a format it declared, unless it comes when
      the last subscriber has just left, which the loop does not see
      ([peers_can_decode], [replacement_gets_delta]), a picture arrives within a bounded number of turns
      ([picture_arrives]); the client shows what the host encoded for it, frame for
      frame ([pictures_end_to_end]), and asks for no more than it may
      ([demands_bounded]); the codec negotiated is one every peer can decode
      ([format_negotiated]), and the peers know the displays, again but for one that
      replaces the last subscriber ([displays_told], [replacement_untold]).
    - Settings: round trips through their files ([settings_persisted],
      [peer_config_roundtrip], [encrypt_roundtrip], [permanent_password_lasts],
      [password_file_hashed], [trusted_device_remembered],
      [one_time_password_survives]) and the choice of a server
      ([rendezvous_server_sane]).
    - The channel: [handshake_agrees], [channel_integrity],
      [secure_stream_roundtrip]; registration: [registration_completes],
      [peer_needs_confirmed_key], [udp_silence_ends], [udp_state_bounded].
    - The wire and the controller: framing ([codec_stream_roundtrip],
      [codec_chunking_irrelevant], [codec_total_and_bounded]), addresses
      ([mangle_roundtrip], [endpoint_roundtrip]), video quality ([qos_run_safe],
      [fps_respects_users], [congestion_caps_fps], [rtt_window_is_scan]).

    Lemmas that end a section named "what goes wrong" state where the code does
    not do what it means to; each is a concrete run.

    ** Bounds

    A download needs one round per block, one per file and one more; a silent
    server is given up within 34 seconds ([udp_silence_ends]).
    Recursion that is not structural takes fuel: the depth of the tree for the
    walks of [Fs] (enough by [directory_walks_end]), the bytes left for the
    decoder ([codec_total_and_bounded]), seven polls for a redraw ([redraw_ends]),
    a bounded number of steps for a picture ([picture_arrives]), the length of the string for
    replacements and digits, forty links for the resolution of a path, as Linux
    has it.  The trimming of a terminal's buffer needs none: [Terminal.trim] is [None]
    exactly when the loop of the code never ends ([trim_spins]).

    ** Not modelled

    User interfaces and their bindings, generated code, what the client's loop does
    with sound and messages for the interface, the devices that keys are typed on (the tables of
    key codes, [uinput], the portals of Wayland), the libraries that capture
    and encode, audio, the clipboard of the systems,
    sockets and TLS, HTTP services and plugins, code of Windows, macOS and the
    phones.  They are I/O against libraries that are not in the repository; the
    manifest names each with its files. *)

From stdpp Require Export base tactics list option numbers strings gmap fin_maps.
From Stdlib Require Export ZArith Lia.

#[export] Set Default Goal Selector "!".

(** ** Fallible computations *)

(** [Result<A, E>] of the source; the [?] operator is stdpp's bind. *)
Inductive result (E A : Type) : Type :=
| Ok (a : A)
| Err (e : E).
Arguments Ok {E A} a.
Arguments Err {E A} e.

#[global] Instance result_ret {E} : MRet (result E) := λ A a, Ok a.
#[global] Instance result_bind {E} : MBind (result E) :=
  λ A B f m, match m with Ok a => f a | Err e => Err e end.
#[global] Instance result_fmap {E} : FMap (result E) :=
  λ A B f m, match m with Ok a => Ok (f a) | Err e => Err e end.

Definition is_ok {E A} (r : result E A) : bool :=
  match r with Ok _ => true | Err _ => false end.

(** [Result::ok]. *)
Definition ok_of {E A} (r : result E A) : option A :=
  match r with Ok a => Some a | Err _ => None end.

(** [Option::ok_or]. *)
Definition ok_or {E A} (o : option A) (e : E) : result E A :=
  match o with Some a => Ok a | None => Err e end.

Lemma bind_ok {E A B} (m : result E A) (f : A → result E B) b :
  m ≫= f = Ok b ↔ ∃ a, m = Ok a ∧ f a = Ok b.
Proof. destruct m; simpl; naive_solver. Qed.

Lemma bind_err {E A B} (m : result E A) (f : A → result E B) e :
  m ≫= f = Err e ↔ m = Err e ∨ ∃ a, m = Ok a ∧ f a = Err e.
Proof. destruct m; simpl; naive_solver. Qed.

#[global] Instance result_eq_dec {E A} `{EqDecision E, EqDecision A} :
  EqDecision (result E A).
Proof. solve_decision. Defined.

(** ** Machine integers

    An unsigned [w]-bit value is a [Z] in [0, 2^w); a signed one is a [Z] in
    [-2^(w-1), 2^(w-1)).  [wrap] and [swrap] are the casts [as uN] and [as iN]
    and the release-mode arithmetic. *)

Definition wrap (w z : Z) : Z := z mod 2 ^ w.
Definition swrap (w z : Z) : Z := (z + 2 ^ (w - 1)) mod 2 ^ w - 2 ^ (w - 1).

Definition uint (w z : Z) : Prop := (0 <= z < 2 ^ w)%Z.
Definition sint (w z : Z) : Prop := (- 2 ^ (w - 1) <= z < 2 ^ (w - 1))%Z.

Lemma wrap_small w z : uint w z → wrap w z = z.
Proof. intros H. apply Z.mod_small, H. Qed.

Lemma wrap_uint w z : (0 <= w)%Z → uint w (wrap w z).
Proof. intros H. apply Z.mod_pos_bound. apply Z.pow_pos_nonneg; lia. Qed.

Lemma swrap_small w z : (0 < w)%Z → sint w z → swrap w z = z.
Proof.
  unfold swrap, sint. intros Hw [H1 H2].
  assert (2 ^ w = 2 * 2 ^ (w - 1))%Z as E.
  { rewrite <- Z.pow_succ_r by lia. f_equal. lia. }
  rewrite Z.mod_small; lia.
Qed.

Lemma swrap_sint w z : (0 < w)%Z → sint w (swrap w z).
Proof.
  unfold swrap, sint. intros Hw.
  assert (2 ^ w = 2 * 2 ^ (w - 1))%Z as E.
  { rewrite <- Z.pow_succ_r by lia. f_equal. lia. }
  pose proof (Z.mod_pos_bound (z + 2 ^ (w - 1)) (2 ^ w)
                (Z.pow_pos_nonneg 2 w ltac:(lia) ltac:(lia))). lia.
Qed.

(** [Instant::elapsed] in milliseconds and microseconds; times are in nanoseconds. *)
Definition elapsed_ms (now t : Z) : Z := (Z.max 0 (now - t) / 10 ^ 6)%Z.
Definition elapsed_us (now t : Z) : Z := (Z.max 0 (now - t) / 10 ^ 3)%Z.

(** Saturating float-to-integer and clamp helpers of the standard library. *)
Definition Zclamp (lo hi x : Z) : Z := Z.max lo (Z.min hi x).

(** ** Little-endian byte strings

    A byte is a [Z] in [0, 256). *)

Definition is_byte (b : Z) : Prop := (0 <= b < 256)%Z.

Fixpoint le_bytes (n : nat) (z : Z) : list Z :=
  match n with
  | O => []
  | S n => z mod 256 :: le_bytes n (z / 256)
  end%Z.

Fixpoint le_val (l : list Z) : Z :=
  match l with
  | [] => 0
  | b :: l => b + 256 * le_val l
  end%Z.

Lemma le_bytes_length n z : length (le_bytes n z) = n.
Proof. revert z; induction n; intros z; simpl; auto. Qed.

Lemma le_bytes_is_byte n z : Forall is_byte (le_bytes n z).
Proof.
  revert z; induction n; intros z; simpl; constructor; auto.
  apply Z.mod_pos_bound; lia.
Qed.

Lemma le_val_nonneg l : Forall is_byte l → (0 <= le_val l)%Z.
Proof. induction 1 as [|b l Hb _ IH]; simpl; unfold is_byte in *; lia. Qed.

Lemma le_val_bound l : Forall is_byte l → (le_val l < 256 ^ Z.of_nat (length l))%Z.
Proof.
  induction 1 as [|b l Hb _ IH]; [simpl; lia|].
  cbn [le_val length]. rewrite Nat2Z.inj_succ, Z.pow_succ_r by lia.
  unfold is_byte in *; lia.
Qed.

(** The two conversions are inverse, up to the width. *)
Lemma le_val_bytes n z : (0 <= z < 256 ^ Z.of_nat n)%Z → le_val (le_bytes n z) = z.
Proof.
  revert z; induction n as [|n IH]; intros z Hz; [simpl in *; lia|].
  rewrite Nat2Z.inj_succ, Z.pow_succ_r in Hz by lia.
  cbn [le_bytes le_val]. rewrite IH.
  - pose proof (Z.div_mod z 256); lia.
  - split; [apply Z.div_pos; lia|]. apply Z.div_lt_upper_bound; lia.
Qed.

Lemma le_bytes_val l : Forall is_byte l → le_bytes (length l) (le_val l) = l.
Proof.
  induction 1 as [|b l Hb Hl IH]; simpl; [done|]. unfold is_byte in *.
  rewrite (Z.mul_comm 256), Z.mod_add, Z.mod_small, Z.div_add, Z.div_small by lia.
  by rewrite Z.add_0_l, IH.
Qed.

Lemma le_val_app a b :
  le_val (a ++ b) = (le_val a + 256 ^ Z.of_nat (length a) * le_val b)%Z.
Proof.
  induction a as [|x a IH]; [simpl; lia|].
  cbn [app le_val length]. rewrite IH, Nat2Z.inj_succ, Z.pow_succ_r by lia. lia.
Qed.

Lemma le_val_zeros n : le_val (replicate n 0%Z) = 0%Z.
Proof. induction n; simpl; lia. Qed.

(** ** Bit-field arithmetic *)

Lemma lor_disjoint a b n :
  (0 <= n)%Z → (0 <= b < 2 ^ n)%Z → Z.lor (a * 2 ^ n) b = (a * 2 ^ n + b)%Z.
Proof.
  intros Hn Hb. rewrite <- Z.shiftl_mul_pow2 by done.
  assert (Z.land (Z.shiftl a n) b = 0%Z) as E.
  { apply Z.bits_inj'. intros i Hi. rewrite Z.land_spec, Z.bits_0.
    destruct (Z.ltb_spec i n) as [Hlt|Hge].
    - by rewrite Z.shiftl_spec_low.
    - destruct (decide (b = 0%Z)) as [->|Hb0]; [by rewrite Z.bits_0, andb_false_r|].
      rewrite (Z.bits_above_log2 b); [by rewrite andb_false_r|lia|].
      apply Z.log2_lt_pow2; [lia|].
      eapply Z.lt_le_trans; [apply Hb|]. apply Z.pow_le_mono_r; lia. }
  rewrite Z.add_nocarry_lxor by done. by rewrite Z.lxor_lor.
Qed.

(** ** Tactics *)

(** Split every [if]/[match] of the goal and discharge what arithmetic can. *)
Ltac crush_arith := repeat case_match; simplify_eq; try lia.

Create HintDb luoda.
Create Rewrite HintDb luoda_len.
#[export] Hint Resolve le_bytes_length le_bytes_is_byte wrap_uint swrap_sint : luoda.
#[export] Hint Rewrite @length_app @length_drop @length_take le_bytes_length : luoda_len.

(** ** Record update

    [c <| f := v |>] is the record [c] with its field [f] set to [v]. A record
    type gives its eta expansion as an instance of [Settable]; the setter of a
    field is found from it. *)

Class Settable (R : Type) := eta : R → R.
Class Setter {R T : Type} (proj : R → T) := upd : (T → T) → R → R.
Arguments upd {R T} proj {_} _ _.

Ltac solve_setter :=
  match goal with
  | |- @Setter ?R ?T ?proj =>
      let f := fresh in let r := fresh in
      unfold Setter; intros f r;
      let e := eval hnf in (eta r) in
      let e := eval pattern (proj r) in e in
      match e with ?g _ => let t := eval cbv beta in (g (f (proj r))) in exact t end
  end.
#[export] Hint Extern 1 (Setter _) => solve_setter : typeclass_instances.

Notation "c <| f := v |>" := (upd f (λ _, v) c)
  (at level 12, f at next level, v at level 200, left associativity,
   format "c  <| f  :=  v |>").
