(* ===== verification/Codec.v ===== *)
(** * The packet codec of the TCP stream

    [libs/hbb_common/src/bytes_codec.rs]: length-prefixed frames, whose header
    is one to four bytes with its own size in the two low bits.  [decode] and
    [encode] are the [Decoder]/[Encoder] methods; [drain] and [feed_chunks]
    state how the reader of the framed transport drives [decode]: as long as it
    yields frames, then again when more bytes have been appended. *)

From S2P Require Import Prelude.

Local Open Scope Z_scope.

(** ** The code *)

Inductive DecodeState := Head | Data (n : Z).

Record BytesCodec := mkCodec {
  state : DecodeState;
  raw : bool;
  max_packet_length : Z;
}.

Inductive io_error := InvalidData | InvalidInput.

#[global] Instance DecodeState_eq_dec : EqDecision DecodeState.
Proof. solve_decision. Defined.
#[global] Instance io_error_eq_dec : EqDecision io_error.
Proof. solve_decision. Defined.

(** [BytesCodec::new] *)
Definition new : BytesCodec := mkCodec Head false (64 * 1024 * 1024).

Definition set_raw (c : BytesCodec) : BytesCodec :=
  mkCodec (state c) true (max_packet_length c).

Definition set_max_packet_length (n : Z) (c : BytesCodec) : BytesCodec :=
  mkCodec (state c) (raw c) n.

Definition with_state (s : DecodeState) (c : BytesCodec) : BytesCodec :=
  mkCodec s (raw c) (max_packet_length c).

Definition len (l : list Z) : Z := Z.of_nat (length l).
Definition byte_at (src : list Z) (i : nat) : Z := src !!! i.

(** The header length the first byte announces. *)
Definition head_len (b0 : Z) : nat := Z.to_nat (Z.land b0 3 + 1).

(** [decode_head]: the payload length and the buffer left after [advance];
    on [Ok None] and on an error the buffer is untouched. *)
Definition decode_head (c : BytesCodec) (src : list Z)
    : result io_error (option Z) * list Z :=
  if bool_decide (src = []) then (Ok None, src) else
  let hl := head_len (byte_at src 0) in
  if (length src <? hl)%nat then (Ok None, src) else
  let n := byte_at src 0 in
  let n := if (1 <? hl)%nat then Z.lor n (Z.shiftl (byte_at src 1) 8) else n in
  let n := if (2 <? hl)%nat then Z.lor n (Z.shiftl (byte_at src 2) 16) else n in
  let n := if (3 <? hl)%nat then Z.lor n (Z.shiftl (byte_at src 3) 24) else n in
  let n := Z.shiftr n 2 in
  if max_packet_length c <? n then (Err InvalidData, src)
  else (Ok (Some n), drop hl src).

(** [decode_data]: [split_to(n)] when the buffer holds [n] bytes. *)
Definition decode_data (n : Z) (src : list Z) : option (list Z) * list Z :=
  if len src <? n then (None, src)
  else (Some (take (Z.to_nat n) src), drop (Z.to_nat n) src).

(** The tail of [decode], once the payload length is known. *)
Definition decode_body (n : Z) (c : BytesCodec) (src : list Z)
    : result io_error (option (list Z)) * BytesCodec * list Z :=
  match decode_data n src with
  | (Some data, src) => (Ok (Some data), with_state Head c, src)
  | (None, src) => (Ok None, c, src)
  end.

Definition decode (c : BytesCodec) (src : list Z)
    : result io_error (option (list Z)) * BytesCodec * list Z :=
  if raw c then
    if bool_decide (src = []) then (Ok None, c, src) else (Ok (Some src), c, [])
  else
    match state c with
    | Head =>
        match decode_head c src with
        | (Err e, src) => (Err e, c, src)
        | (Ok None, src) => (Ok None, c, src)
        | (Ok (Some n), src) => decode_body n (with_state (Data n) c) src
        end
    | Data n => decode_body n c src
    end.

(** The header [encode] writes for a payload of [n] bytes; the casts truncate
    as [as u8], [as u16] and [as u32] do. *)
Definition encode_header (n : Z) : option (list Z) :=
  if n <=? 0x3F then Some (le_bytes 1 (wrap 8 (Z.shiftl n 2)))
  else if n <=? 0x3FFF then
    Some (le_bytes 2 (Z.lor (wrap 16 (Z.shiftl n 2)) 0x1))
  else if n <=? 0x3FFFFF then
    let h := Z.lor (wrap 32 (Z.shiftl n 2)) 0x2 in
    Some (le_bytes 2 (wrap 16 (Z.land h 0xFFFF)) ++ le_bytes 1 (wrap 8 (Z.shiftr h 16)))
  else if n <=? 0x3FFFFFFF then
    Some (le_bytes 4 (Z.lor (wrap 32 (Z.shiftl n 2)) 0x3))
  else None.

(** [encode]: appends to [buf]; nothing is written on an error. *)
Definition encode (c : BytesCodec) (data buf : list Z)
    : result io_error () * list Z :=
  if raw c then (Ok (), buf ++ data)
  else match encode_header (len data) with
       | Some h => (Ok (), buf ++ h ++ data)
       | None => (Err InvalidInput, buf)
       end.

(** ** The transport's read loop *)

(** One [drain]: decode until no frame is left; [fuel] is bounded in
    [drain_enough]. *)
Fixpoint drain (fuel : nat) (c : BytesCodec) (src : list Z)
    : option (result io_error (list (list Z)) * BytesCodec * list Z) :=
  match fuel with
  | O => None
  | S fuel =>
      match decode c src with
      | (Err e, c, src) => Some (Err e, c, src)
      | (Ok None, c, src) => Some (Ok [], c, src)
      | (Ok (Some f), c, src) =>
          match drain fuel c src with
          | Some (Ok fs, c, src) => Some (Ok (f :: fs), c, src)
          | r => r
          end
      end
  end.

(** A number of steps that always suffices. *)
Definition drain_fuel (c : BytesCodec) (src : list Z) : nat :=
  2 * length src + match state c with Head => 1 | Data _ => 2 end.

(** Feed the bytes chunk by chunk, collecting the frames. *)
Fixpoint feed_chunks (c : BytesCodec) (src : list Z) (chunks : list (list Z))
    : option (result io_error (list (list Z)) * BytesCodec * list Z) :=
  match chunks with
  | [] => Some (Ok [], c, src)
  | ch :: chunks =>
      match drain (drain_fuel c (src ++ ch)) c (src ++ ch) with
      | Some (Ok fs, c, src) =>
          match feed_chunks c src chunks with
          | Some (Ok fs', c, src) => Some (Ok (fs ++ fs'), c, src)
          | r => r
          end
      | r => r
      end
  end.

(** The stream a sender produces for a list of messages. *)
Fixpoint encode_all (c : BytesCodec) (msgs : list (list Z)) (buf : list Z)
    : result io_error () * list Z :=
  match msgs with
  | [] => (Ok (), buf)
  | m :: msgs =>
      match encode c m buf with
      | (Ok _, buf) => encode_all c msgs buf
      | r => r
      end
  end.

(** ** Headers *)

Lemma lor_shift a b n :
  0 <= n → 0 <= a < 2 ^ n → Z.lor a (Z.shiftl b n) = a + 2 ^ n * b.
Proof.
  intros Hn Ha. rewrite Z.lor_comm, Z.shiftl_mul_pow2, lor_disjoint by done. lia.
Qed.

(** The value [decode_head] assembles is the little-endian value of the header. *)
Lemma head_value_le h rest :
  Forall is_byte h → (1 <= length h <= 4)%nat →
  let src := h ++ rest in
  let hl := length h in
  let n := byte_at src 0 in
  let n := if (1 <? hl)%nat then Z.lor n (Z.shiftl (byte_at src 1) 8) else n in
  let n := if (2 <? hl)%nat then Z.lor n (Z.shiftl (byte_at src 2) 16) else n in
  let n := if (3 <? hl)%nat then Z.lor n (Z.shiftl (byte_at src 3) 24) else n in
  n = le_val h.
Proof.
  intros Hb Hl. unfold byte_at.
  destruct h as [|a [|b [|c [|d [|]]]]]; simpl in Hl; try lia;
    repeat match goal with H : Forall is_byte (_ :: _) |- _ => inversion_clear H end;
    unfold is_byte in *; simpl;
    rewrite ?(lor_shift a b 8) by lia; rewrite ?(lor_shift _ c 16) by lia;
    rewrite ?(lor_shift _ d 24) by lia; lia.
Qed.

Lemma encode_header_spec n h :
  0 <= n → encode_header n = Some h →
  ∃ k, (k < 4)%nat ∧ length h = S k ∧ Forall is_byte h ∧ le_val h = 4 * n + Z.of_nat k
       ∧ n <= 0x3FFFFFFF.
Proof.
  intros Hn. unfold encode_header.
  destruct (Z.leb_spec n 0x3F) as [H1|H1];
    [|destruct (Z.leb_spec n 0x3FFF) as [H2|H2];
      [|destruct (Z.leb_spec n 0x3FFFFF) as [H3|H3];
        [|destruct (Z.leb_spec n 0x3FFFFFFF) as [H4|H4]]]]; intros Hh;
    [| | | |done]; apply (inj Some) in Hh as <-;
    rewrite ?(Z.shiftl_mul_pow2 n), ?(wrap_small _ (n * 2 ^ 2)), ?lor_disjoint
      by (unfold uint; lia).
  - exists 0%nat. split_and!; auto using le_bytes_is_byte, le_bytes_length; try lia.
    rewrite le_val_bytes; lia.
  - exists 1%nat. split_and!; auto using le_bytes_is_byte, le_bytes_length; try lia.
    rewrite le_val_bytes; lia.
  - exists 2%nat. split_and!; auto using le_bytes_length; try lia.
    { apply Forall_app; split; apply le_bytes_is_byte. }
    rewrite le_val_app. change 0xFFFF with (Z.ones 16).
    rewrite Z.land_ones, Z.shiftr_div_pow2 by lia.
    pose proof (Z.div_mod (n * 2 ^ 2 + 2) (2 ^ 16) ltac:(lia)).
    pose proof (Z.mod_pos_bound (n * 2 ^ 2 + 2) (2 ^ 16) ltac:(lia)).
    assert (0 <= (n * 2 ^ 2 + 2) / 2 ^ 16 < 256).
    { split; [apply Z.div_pos; lia|apply Z.div_lt_upper_bound; lia]. }
    rewrite (wrap_small 16), (wrap_small 8) by (unfold uint; lia).
    rewrite le_bytes_length, !le_val_bytes by lia. lia.
  - exists 3%nat. split_and!; auto using le_bytes_is_byte, le_bytes_length; try lia.
    rewrite le_val_bytes; lia.
Qed.

Lemma head_len_of_value h k n :
  Forall is_byte h → length h = S k → (k < 4)%nat → le_val h = 4 * n + Z.of_nat k →
  head_len (byte_at (h) 0) = S k.
Proof.
  intros Hb Hl Hk Hv. destruct h as [|a h]; [done|]. unfold head_len, byte_at.
  cbn [lookup_total list_lookup_total]. inversion_clear Hb. cbn [le_val] in Hv.
  change 3 with (Z.ones 2). rewrite Z.land_ones by lia.
  assert (a mod 2 ^ 2 = Z.of_nat k) as ->; [|lia].
  replace a with (Z.of_nat k + (n - 64 * le_val h) * 2 ^ 2) by lia.
  rewrite Z.mod_add by lia. apply Z.mod_small; lia.
Qed.

Lemma byte_at_app h rest i : (i < length h)%nat → byte_at (h ++ rest) i = byte_at h i.
Proof. intros. unfold byte_at. by rewrite lookup_total_app_l. Qed.

(** Decoding a written header: the announced length, and exactly the header is
    consumed. *)
Lemma decode_head_encoded c n h rest :
  0 <= n → encode_header n = Some h →
  decode_head c (h ++ rest) =
    if max_packet_length c <? n then (Err InvalidData, h ++ rest) else (Ok (Some n), rest).
Proof.
  intros Hn Hh. destruct (encode_header_spec _ _ Hn Hh) as (k & Hk & Hl & Hb & Hv & _).
  unfold decode_head. rewrite bool_decide_eq_false_2 by (destruct h; done).
  assert (head_len (byte_at (h ++ rest) 0) = S k) as EH.
  { rewrite byte_at_app by lia. by apply (head_len_of_value h k n). }
  cbv zeta. rewrite EH.
  destruct (Nat.ltb_spec (length (h ++ rest)) (S k)) as [Hs|_].
  { rewrite length_app in Hs; lia. }
  pose proof (head_value_le h rest Hb ltac:(lia)) as E. cbv zeta in E.
  rewrite Hl, Hv in E. rewrite E. clear E.
  rewrite Z.shiftr_div_pow2 by lia.
  replace ((4 * n + Z.of_nat k) / 2 ^ 2) with n
    by (symmetry; rewrite Z.mul_comm, Z.div_add_l, Z.div_small by lia; lia).
  by rewrite <- Hl, drop_app_length.
Qed.

(** ** One step of the decoder *)

(** The state a well-behaved decoder can be in: a pending payload was checked
    against the limit. *)
Definition codec_ok (c : BytesCodec) : Prop :=
  match state c with Head => True | Data n => 0 <= n <= max_packet_length c end.

Lemma codec_ok_head c : codec_ok (with_state Head c).
Proof. done. Qed.

Lemma decode_data_spec n src :
  0 <= n →
  decode_data n src =
    if decide (len src < n) then (None, src)
    else (Some (take (Z.to_nat n) src), drop (Z.to_nat n) src).
Proof.
  intros Hn. unfold decode_data. destruct (Z.ltb_spec (len src) n); by case_decide; try lia.
Qed.

(** [decode_head] only ever looks at the header, so it commutes with the
    arrival of more bytes. *)
Lemma decode_head_app c src x :
  match decode_head c src with
  | (Err e, s) => decode_head c (src ++ x) = (Err e, src ++ x) ∧ s = src
  | (Ok None, s) => s = src
  | (Ok (Some n), s) => decode_head c (src ++ x) = (Ok (Some n), s ++ x)
                        ∧ n <= max_packet_length c ∧ (length s < length src)%nat
  end.
Proof.
  unfold decode_head. destruct src as [|a src]; [done|].
  rewrite !bool_decide_eq_false_2 by done.
  set (hl := head_len (byte_at (a :: src) 0)).
  change (byte_at ((a :: src) ++ x) 0) with a. change (byte_at (a :: src) 0) with a in *.
  fold hl. cbv zeta.
  assert (1 <= hl)%nat by (unfold hl, head_len; pose proof (Z.land_nonneg a 3); lia).
  destruct (Nat.ltb_spec (length (a :: src)) hl) as [|Hlen]; [done|].
  destruct (Nat.ltb_spec (length ((a :: src) ++ x)) hl) as [Hs|_].
  { rewrite length_app in Hs; lia. }
  assert (∀ i, (i <? hl)%nat = true → byte_at ((a :: src) ++ x) i = byte_at (a :: src) i) as E.
  { intros i Hi%Nat.ltb_lt. apply byte_at_app. lia. }
  destruct (1 <? hl)%nat eqn:E1, (2 <? hl)%nat eqn:E2, (3 <? hl)%nat eqn:E3;
    rewrite ?(E 1%nat), ?(E 2%nat), ?(E 3%nat) by done.
  all: match goal with |- context[max_packet_length ?c <? ?m] =>
         destruct (Z.ltb_spec (max_packet_length c) m); [done|] end.
  all: rewrite drop_app_le by lia.
  all: split_and!; [done|lia|rewrite length_drop; simpl in *; lia].
Qed.

Lemma decode_head_nonneg c src n s :
  Forall is_byte src → decode_head c src = (Ok (Some n), s) → 0 <= n.
Proof.
  intros Hb. unfold decode_head. case_bool_decide as Hne; [done|].
  assert (∀ i, 0 <= byte_at src i) as Hp.
  { intros i. unfold byte_at. destruct (src !! i) as [b|] eqn:E.
    - rewrite (list_lookup_total_correct _ _ _ E).
      eapply Forall_lookup_1 in E; [|exact Hb]. unfold is_byte in E; lia.
    - rewrite list_lookup_total_alt, E. done. }
  repeat case_match; intros [= <- <-]; apply Z.shiftr_nonneg;
    rewrite ?Z.lor_nonneg, ?Z.shiftl_nonneg; auto.
Qed.

Lemma decode_body_app n c src x :
  0 <= n →
  match decode_body n c src with
  | (Err _, _, _) => False
  | (Ok None, c', s) => c' = c ∧ s = src ∧ len src < n
  | (Ok (Some f), c', s) =>
      decode_body n c (src ++ x) = (Ok (Some f), c', s ++ x)
      ∧ c' = with_state Head c ∧ src = f ++ s ∧ len f = n
  end.
Proof.
  intros Hn. unfold decode_body. rewrite !decode_data_spec by done.
  case_decide as Hl; [done|]. unfold len in *.
  rewrite decide_False by (rewrite length_app; lia). split_and!.
  - rewrite take_app_le, drop_app_le by lia. done.
  - done.
  - by rewrite take_drop.
  - rewrite length_take. lia.
Qed.

(** A completed step is unaffected by bytes that arrive later; a step that has
    to wait leaves a decoder that resumes exactly there. *)
Lemma decode_app c src x :
  raw c = false → codec_ok c → Forall is_byte src →
  match decode c src with
  | (Err e, _, _) => decode c (src ++ x) = (Err e, c, src ++ x)
  | (Ok (Some f), c', s) =>
      decode c (src ++ x) = (Ok (Some f), c', s ++ x)
      ∧ raw c' = false ∧ codec_ok c' ∧ Forall is_byte s ∧ len f <= max_packet_length c
      ∧ max_packet_length c' = max_packet_length c
      ∧ (drain_fuel c' s < drain_fuel c src)%nat
  | (Ok None, c', s) =>
      decode c (src ++ x) = decode c' (s ++ x)
      ∧ raw c' = false ∧ codec_ok c' ∧ Forall is_byte s
      ∧ max_packet_length c' = max_packet_length c
  end.
Proof.
  intros Hr Hok Hb. unfold decode. rewrite Hr. unfold codec_ok in Hok. unfold drain_fuel.
  destruct (state c) as [|n] eqn:Es.
  - pose proof (decode_head_app c src x) as Hh. pose proof (decode_head_nonneg c src) as Hnn.
    destruct (decode_head c src) as [[[n|]|e] s] eqn:E.
    + destruct Hh as (-> & Hmax & Hlt). specialize (Hnn _ _ Hb eq_refl).
      assert (Forall is_byte s) as Hbs.
      { revert E. unfold decode_head. repeat case_match; intros [= _ <-];
          try done; by apply Forall_drop. }
      pose proof (decode_body_app n (with_state (Data n) c) s x Hnn) as Hbd.
      destruct (decode_body n (with_state (Data n) c) s) as [[[[f|]|e] c'] s'].
      * destruct Hbd as (-> & -> & -> & <-). apply Forall_app in Hbs as [_ ?].
        rewrite length_app in Hlt. simpl. rewrite Hr.
        split_and!; auto using codec_ok_head; lia.
      * destruct Hbd as (-> & -> & _). simpl. rewrite Hr. split_and!; auto; by split.
      * done.
    + subst s. rewrite Hr, Es. unfold codec_ok. rewrite Es. split_and!; auto.
    + by destruct Hh as [-> ->].
  - pose proof (decode_body_app n c src x ltac:(lia)) as Hbd.
    destruct (decode_body n c src) as [[[[f|]|e] c'] s'].
    + destruct Hbd as (-> & -> & -> & <-). apply Forall_app in Hb as [_ ?].
      simpl. rewrite length_app. split_and!; auto using codec_ok_head; lia.
    + destruct Hbd as (-> & -> & _). rewrite Hr, Es. unfold codec_ok. rewrite Es. auto.
    + done.
Qed.

(** The properties a session of decoding keeps. *)
Record decoding (c : BytesCodec) (src : list Z) : Prop := {
  dec_framed : raw c = false;
  dec_ok : codec_ok c;
  dec_bytes : Forall is_byte src;
}.

Lemma decode_nil_none c : raw c = false → state c = Head → decode c [] = (Ok None, c, []).
Proof. intros Hr Hs. unfold decode. by rewrite Hr, Hs. Qed.

Lemma drain_mono n m c src r : (n <= m)%nat → drain n c src = Some r → drain m c src = Some r.
Proof.
  revert m c src r. induction n as [|n IH]; intros m c src r Hle; [done|].
  destruct m as [|m]; [lia|]. simpl.
  destruct (decode c src) as [[[[f|]|e] c'] s]; [|done|done].
  destruct (drain n c' s) as [[[r' c''] s']|] eqn:E; [|done].
  by rewrite (IH m _ _ _ ltac:(lia) E).
Qed.

(** Enough fuel always gives a result. *)
Lemma drain_enough n c src :
  decoding c src → (drain_fuel c src <= n)%nat → is_Some (drain n c src).
Proof.
  revert c src. induction n as [|n IH]; intros c src [Hr Hok Hb] Hf.
  { unfold drain_fuel in Hf. destruct (state c); lia. }
  simpl. pose proof (decode_app c src [] Hr Hok Hb) as Hd.
  destruct (decode c src) as [[[[f|]|e] c'] s]; [|done|done].
  destruct Hd as (_ & ? & ? & ? & _ & _ & Hlt).
  destruct (IH c' s) as [[[[fs|e] c''] s'] ->]; [done|lia|done|done].
Qed.

(** Running [drain] on bytes that arrive later resumes where it stopped. *)
Lemma drain_resume n c src x fs c1 s1 :
  decoding c src → Forall is_byte x → drain n c src = Some (Ok fs, c1, s1) →
  decoding c1 s1 ∧ max_packet_length c1 = max_packet_length c
  ∧ ∀ m r, drain m c1 (s1 ++ x) = Some r →
      drain (n + m) c (src ++ x) =
        Some (match r with (Ok fs', c2, s2) => (Ok (fs ++ fs'), c2, s2) | r => r end).
Proof.
  intros Hdec Hx. revert c src fs Hdec.
  induction n as [|n IH]; intros c src fs [Hr Hok Hb]; [done|]. simpl.
  pose proof (decode_app c src x Hr Hok Hb) as Hd.
  destruct (decode c src) as [[[[f|]|e] c'] s] eqn:Ed; [| |done].
  - destruct Hd as (-> & ? & ? & ? & _ & Hm & _).
    destruct (drain n c' s) as [[[[fs0|e] c2] s2]|] eqn:En; [|done|done].
    intros [= <- -> ->]. destruct (IH c' s fs0 ltac:(done) En) as (? & Hm2 & Hres).
    split_and!; [done|congruence|]. intros m r Hr'. rewrite (Hres _ _ Hr').
    by destruct r as [[[|] ?] ?].
  - destruct Hd as (Eq & ? & ? & ? & Hm). intros [= <- -> ->].
    split_and!; [done|done|]. intros m r Hm'. rewrite Eq.
    destruct m as [|m]; [done|]. simpl in Hm'.
    rewrite Nat.add_succ_r. destruct (decode c1 (s1 ++ x)) as [[[[f|]|e] c2] s2].
    + destruct (drain m c2 s2) as [r'|] eqn:E2; [|done].
      rewrite (drain_mono m (S (n + m)) _ _ _ ltac:(lia) E2).
      by destruct r' as [[[|] ?] ?]; injection Hm' as <-.
    + by injection Hm' as <-.
    + by injection Hm' as <-.
Qed.

Lemma drain_error_app n c src x e c1 s1 :
  decoding c src → drain n c src = Some (Err e, c1, s1) →
  ∃ c2 s2, drain n c (src ++ x) = Some (Err e, c2, s2).
Proof.
  intros Hdec. revert c src Hdec. induction n as [|n IH]; intros c src [Hr Hok Hb]; [done|].
  simpl. pose proof (decode_app c src x Hr Hok Hb) as Hd.
  destruct (decode c src) as [[[[f|]|e'] c'] s]; [|done|].
  - destruct Hd as (-> & ? & ? & ? & _).
    destruct (drain n c' s) as [[[[fs|e'] c2] s2]|] eqn:En; [done| |done].
    intros [= -> -> ->]. destruct (IH c' s ltac:(done) En) as (? & ? & ->). eauto.
  - rewrite Hd. intros [= -> -> ->]. eauto.
Qed.

(** The whole stream at once. *)
Definition run (c : BytesCodec) (src : list Z) := drain (drain_fuel c src) c src.

Lemma run_drain n c src r : decoding c src → drain n c src = Some r → run c src = Some r.
Proof.
  intros Hd Hn. unfold run.
  destruct (drain_enough (drain_fuel c src) c src Hd ltac:(lia)) as [r' Hr'].
  pose proof (drain_mono _ (drain_fuel c src + n)%nat c src r' (Nat.le_add_r _ _) Hr').
  pose proof (drain_mono n (drain_fuel c src + n)%nat c src r ltac:(lia) Hn). congruence.
Qed.

Lemma feed_chunks_run c src chunks :
  decoding c src → Forall (Forall is_byte) chunks → run c src = Some (Ok [], c, src) →
  match run c (src ++ concat chunks) with
  | Some (Ok fs, c', s) => feed_chunks c src chunks = Some (Ok fs, c', s)
  | Some (Err e, _, _) => ∃ c' s, feed_chunks c src chunks = Some (Err e, c', s)
  | None => False
  end.
Proof.
  intros Hd Hch. revert c src Hd. induction Hch as [|x chunks Hx Hch IH]; intros c src Hd H0.
  { cbn [concat feed_chunks]. by rewrite app_nil_r, H0. }
  cbn [concat feed_chunks]. rewrite app_assoc. set (src1 := src ++ x).
  assert (decoding c src1) as Hd1.
  { destruct Hd. split; auto. by apply Forall_app. }
  fold (run c src1).
  destruct (drain_enough (drain_fuel c src1) c src1 Hd1 ltac:(lia)) as [[[[fs|e] c1] s1] E1].
  - change (run c src1 = Some (Ok fs, c1, s1)) in E1. rewrite E1.
    assert (Forall is_byte (concat chunks)) as Hc by (by apply Forall_concat).
    destruct (drain_resume _ _ _ (concat chunks) _ _ _ Hd1 Hc E1) as (Hd2 & _ & Hres).
    destruct (drain_resume _ _ _ [] _ _ _ Hd1 ltac:(done) E1) as (_ & _ & Hres0).
    assert (run c1 s1 = Some (Ok [], c1, s1)) as E2.
    { destruct (drain_enough (drain_fuel c1 s1) c1 s1 Hd2 ltac:(lia)) as [r Hr].
      pose proof (Hres0 (drain_fuel c1 s1) r) as H2. rewrite !app_nil_r in H2.
      specialize (H2 Hr). apply run_drain in H2; [|done]. rewrite E1 in H2.
      destruct r as [[[fs'|e] c2] s2]; [|done].
      injection H2 as H2 -> ->. replace fs' with (@nil (list Z)) in Hr; [done|].
      apply (f_equal length) in H2. rewrite length_app in H2. destruct fs'; simpl in *; [done|lia]. }
    specialize (IH c1 s1 Hd2 E2).
    destruct (run c1 (s1 ++ concat chunks)) as [r|] eqn:E3; [|done].
    pose proof (Hres _ _ E3) as E4. apply run_drain in E4.
    2: { destruct Hd1. split; auto. by apply Forall_app. }
    rewrite E4. destruct r as [[[fs'|e] c2] s2].
    + by rewrite IH.
    + destruct IH as (? & ? & ->). eauto.
  - change (run c src1 = Some (Err e, c1, s1)) in E1. rewrite E1.
    destruct (drain_error_app _ _ _ (concat chunks) _ _ _ Hd1 E1) as (c2 & s2 & E4).
    apply run_drain in E4.
    { rewrite E4. eauto. }
    destruct Hd1. split; auto. apply Forall_app; split; [done|by apply Forall_concat].
Qed.

Lemma drain_bounded n c src fs c' s :
  decoding c src → drain n c src = Some (Ok fs, c', s) →
  Forall (λ f, len f <= max_packet_length c) fs
  ∧ max_packet_length c' = max_packet_length c ∧ decoding c' s.
Proof.
  revert c src fs. induction n as [|n IH]; intros c src fs [Hr Hok Hb]; [done|]. simpl.
  pose proof (decode_app c src [] Hr Hok Hb) as Hd.
  destruct (decode c src) as [[[[f|]|e] c1] s1]; [| |done].
  - destruct Hd as (_ & ? & ? & ? & ? & Hm & _).
    destruct (drain n c1 s1) as [[[[fs0|e] c2] s2]|] eqn:En; [|done|done].
    intros [= <- -> ->]. destruct (IH c1 s1 fs0 ltac:(done) En) as (? & ? & ?).
    rewrite Hm in *. split_and!; auto.
  - destruct Hd as (_ & ? & ? & ? & Hm). intros [= <- -> ->]. split_and!; auto. by split.
Qed.

Lemma decode_error_kind c src e c' s : decode c src = (Err e, c', s) → e = InvalidData.
Proof. unfold decode, decode_body, decode_head. repeat case_match; naive_solver. Qed.

Lemma drain_error_kind n c src e c' s :
  drain n c src = Some (Err e, c', s) → e = InvalidData.
Proof.
  revert c src. induction n as [|n IH]; intros c src; [done|]. simpl.
  destruct (decode c src) as [[[[f|]|e'] c1] s1] eqn:Ed; [|done|].
  - destruct (drain n c1 s1) as [[[[fs|e'] c2] s2]|] eqn:En; [done| |done].
    intros [= -> -> ->]. eauto.
  - intros [= -> -> ->]. by eapply decode_error_kind.
Qed.

Lemma encode_framed c m buf :
  raw c = false →
  encode c m buf = match encode_header (len m) with
                   | Some h => (Ok (), buf ++ h ++ m)
                   | None => (Err InvalidInput, buf)
                   end.
Proof. intros Hr. unfold encode. by rewrite Hr. Qed.

Lemma decode_encoded c m h rest :
  raw c = false → state c = Head → encode_header (len m) = Some h →
  len m <= max_packet_length c →
  decode c (h ++ m ++ rest) = (Ok (Some m), c, rest).
Proof.
  intros Hr Hs Hh Hm. unfold decode. rewrite Hr, Hs.
  rewrite (decode_head_encoded c (len m) h) by (auto; unfold len; lia).
  destruct (Z.ltb_spec (max_packet_length c) (len m)); [lia|].
  unfold decode_body. rewrite decode_data_spec by (unfold len; lia).
  unfold len. rewrite Nat2Z.id, decide_False by (rewrite length_app; lia).
  rewrite take_app_length, drop_app_length. destruct c; simpl in *. by subst.
Qed.

Lemma encode_all_run c msgs buf stream :
  raw c = false → state c = Head → Forall (λ m, len m <= max_packet_length c) msgs →
  encode_all c msgs buf = (Ok (), stream) →
  ∃ tl, stream = buf ++ tl ∧ (Forall (Forall is_byte) msgs → Forall is_byte tl)
        ∧ ∃ n, drain n c tl = Some (Ok msgs, c, []).
Proof.
  intros Hr Hs Hmax. revert buf. induction Hmax as [|m msgs Hm Hmax IH]; intros buf; simpl.
  { intros [= <-]. exists []. rewrite app_nil_r. split_and!; auto.
    exists 1%nat. simpl. by rewrite decode_nil_none. }
  rewrite encode_framed by done. destruct (encode_header (len m)) as [h|] eqn:Eh; [|done].
  intros (tl & -> & Hb & n & Hn)%IH. exists (h ++ m ++ tl). rewrite <- !app_assoc.
  split_and!; [done| |].
  - intros [Hbm Hbs]%Forall_cons.
    destruct (encode_header_spec (len m) h) as (? & _ & _ & Hbh & _);
      [unfold len; lia|done|].
    repeat (apply Forall_app; split); auto.
  - exists (S n). simpl. by rewrite (decode_encoded c m h tl), Hn.
Qed.

(** ** Properties *)

Section framed.
Context (c : BytesCodec).
Hypothesis Hraw : raw c = false.
Hypothesis Hhead : state c = Head.

Lemma fresh_decoding src : Forall is_byte src → decoding c src.
Proof. split; auto. unfold codec_ok. by rewrite Hhead. Qed.

Lemma fresh_run : run c [] = Some (Ok [], c, []).
Proof.
  unfold run, drain_fuel. rewrite Hhead. simpl. by rewrite decode_nil_none.
Qed.

(** Feeding the encoded messages, in any chunks, decodes them. *)
Lemma feed_encoded msgs stream chunks :
  Forall (Forall is_byte) msgs →
  Forall (λ m, len m <= max_packet_length c) msgs →
  encode_all c msgs [] = (Ok (), stream) →
  concat chunks = stream →
  feed_chunks c [] chunks = Some (Ok msgs, c, []).
Proof.
  intros Hb Hmax Henc Hch.
  destruct (encode_all_run c msgs [] stream) as (tl & E & Hbt & n & Hn); auto.
  simpl in E. subst tl. specialize (Hbt Hb).
  assert (Forall (Forall is_byte) chunks) as Hbc.
  { apply Forall_forall. intros ch Hin. apply Forall_forall. intros b Hb'.
    rewrite Forall_forall in Hbt. apply Hbt. subst stream.
    apply list_elem_of_In, in_concat. setoid_rewrite <- list_elem_of_In. eauto. }
  pose proof (feed_chunks_run c [] chunks (fresh_decoding [] ltac:(done)) Hbc fresh_run) as H.
  simpl in H. rewrite Hch, (run_drain n _ _ _ (fresh_decoding _ Hbt) Hn) in H. done.
Qed.

(** C33: what a sender encodes is what the receiver decodes.  Let no message be longer
    than the receiver takes, its [max_packet_length] (64 MiB when new; the encoder alone
    takes up to 0x3FFFFFFF bytes).  Then whatever way the network splits the encoded
    stream into chunks, feeding them to a fresh decoder that is not raw yields exactly
    the messages that were sent, in order, and leaves the decoder in its initial state
    with an empty buffer. *)
Theorem codec_stream_roundtrip msgs stream chunks :
  Forall (Forall is_byte) msgs →
  Forall (λ m, len m <= max_packet_length c) msgs →
  encode_all c msgs [] = (Ok (), stream) →
  concat chunks = stream →
  feed_chunks c [] chunks = Some (Ok msgs, c, []).
Proof. apply feed_encoded. Qed.

(** Chunking is irrelevant for every byte stream, including malformed and
    hostile ones.  Feeding the chunks one by one yields the same frames, the
    same final decoder and the same leftover bytes as decoding the
    concatenation at once, and fails with an error exactly when that does. *)
Lemma codec_chunking_irrelevant chunks :
  Forall (Forall is_byte) chunks →
  match run c (concat chunks) with
  | Some (Ok fs, c', s) => feed_chunks c [] chunks = Some (Ok fs, c', s)
  | Some (Err e, _, _) => ∃ c' s, feed_chunks c [] chunks = Some (Err e, c', s)
  | None => False
  end.
Proof.
  intros Hb. apply (feed_chunks_run c [] chunks); auto using fresh_run.
  by apply fresh_decoding.
Qed.

(** The denial-of-service bound.  Decoding any bytes terminates within
    [drain_fuel] steps, and when it succeeds no frame it delivers, and no
    frame it is still waiting for, is longer than [max_packet_length]. *)
Lemma codec_total_and_bounded src :
  Forall is_byte src →
  ∃ r, run c src = Some r ∧
    match r with
    | (Ok fs, c', s) =>
        Forall (λ f, len f <= max_packet_length c) fs
        ∧ (∀ n, state c' = Data n → 0 <= n <= max_packet_length c)
    | (Err e, _, _) => e = InvalidData
    end.
Proof.
  intros Hb. pose proof (fresh_decoding _ Hb) as Hd.
  destruct (drain_enough (drain_fuel c src) c src Hd ltac:(lia)) as [[[[fs|e] c'] s] Hr];
    eexists; (split; [exact Hr|]).
  - destruct (drain_bounded _ _ _ _ _ _ Hd Hr) as (? & Hm & [_ Hok _]).
    split; [done|]. intros n Hn. unfold codec_ok in Hok. rewrite Hn in Hok. by rewrite <- Hm.
  - by eapply drain_error_kind.
Qed.
End framed.

(** [encode] fails exactly on payloads above 0x3FFFFFFF bytes, writing
    nothing; otherwise it appends a header of the smallest of the four sizes
    followed by the payload. *)
Lemma encode_result c m buf :
  raw c = false →
  (0x3FFFFFFF < len m ∧ encode c m buf = (Err InvalidInput, buf))
  ∨ ∃ h, len m <= 0x3FFFFFFF ∧ encode c m buf = (Ok (), buf ++ h ++ m)
      ∧ Forall is_byte h ∧ (1 <= length h <= 4)%nat
      ∧ len m < 2 ^ (8 * len h - 2)
      ∧ (∀ k, (1 <= k < length h)%nat → 2 ^ (8 * Z.of_nat k - 2) <= len m).
Proof.
  intros Hr. rewrite encode_framed by done. set (n := len m).
  assert (0 <= n) as Hn by (unfold n, len; lia).
  destruct (encode_header n) as [h|] eqn:Eh.
  - right. exists h. destruct (encode_header_spec n h Hn Eh) as (k & Hk & Hl & Hb & Hv & Hmax).
    split_and!; auto; [lia|lia| |]; revert Eh; unfold encode_header;
      repeat case_match; intros E; try done; apply (inj Some) in E; subst h.
    1-4: unfold len; simpl; lia.
    all: intros [|[|[|[|]]]] Hk'; rewrite ?length_app, ?le_bytes_length in Hk'; simpl in *; lia.
  - left. revert Eh. unfold encode_header. repeat case_match; try done. intros _. split; [lia|done].
Qed.

(** ** Witnesses *)

Lemma codec_stream_roundtrip_witness :
  encode_all new [[1; 2; 3]; []; [7]] [] = (Ok (), [12; 1; 2; 3; 0; 4; 7])
  ∧ feed_chunks new [] [[12; 1]; []; [2; 3; 0; 4]; [7]] = Some (Ok [[1; 2; 3]; []; [7]], new, []).
Proof.
  split; [reflexivity|].
  apply (codec_stream_roundtrip new eq_refl eq_refl _ [12; 1; 2; 3; 0; 4; 7]);
    [repeat constructor|repeat constructor|reflexivity|reflexivity]; vm_compute; congruence.
Defined.

Lemma codec_chunking_irrelevant_witness :
  ∃ c' s, feed_chunks (set_max_packet_length 2 new) [] [[4]; [9; 12; 1]; [2]] = Some (Err InvalidData, c', s).
Proof.
  pose proof (codec_chunking_irrelevant (set_max_packet_length 2 new) eq_refl eq_refl
                [[4]; [9; 12; 1]; [2]]) as H.
  apply H. repeat constructor; vm_compute; congruence.
Defined.

Lemma codec_total_and_bounded_witness :
  ∃ r, run new [255; 255; 255; 255; 0] = Some r ∧
    match r with
    | (Ok fs, c', s) => Forall (λ f, len f <= max_packet_length new) fs
        ∧ (∀ n, state c' = Data n → 0 <= n <= max_packet_length new)
    | (Err e, _, _) => e = InvalidData
    end.
Proof.
  apply (codec_total_and_bounded new eq_refl eq_refl).
  repeat constructor; vm_compute; congruence.
Defined.

Lemma encode_result_witness :
  (0x3FFFFFFF < len [5] ∧ encode new [5] [] = (Err InvalidInput, []))
  ∨ ∃ h, len [5] <= 0x3FFFFFFF ∧ encode new [5] [] = (Ok (), [] ++ h ++ [5])
      ∧ Forall is_byte h ∧ (1 <= length h <= 4)%nat
      ∧ len [5] < 2 ^ (8 * len h - 2)
      ∧ (∀ k, (1 <= k < length h)%nat → 2 ^ (8 * Z.of_nat k - 2) <= len [5]).
Proof. apply (encode_result new [5] []). reflexivity. Defined.
