(* ===== verification/Strs.v ===== *)
(** * Strings

    The [str] operations of the standard library the components use, on
    [string] read as the UTF-8 bytes of the Rust string: splitting on an ASCII
    separator, prefixes, trimming, and parsing and printing of decimal
    integers, with the lemmas that relate them. *)

From S2P Require Import Prelude.
From Stdlib Require Import Ascii String.

Local Open Scope string_scope.

Definition str_len (s : string) : nat := String.length s.
Definition is_empty (s : string) : bool := match s with "" => true | _ => false end.

(** [s.contains(c)] for an ASCII [c]. *)
Fixpoint contains_char (c : ascii) (s : string) : bool :=
  match s with
  | "" => false
  | String a s => Ascii.eqb a c || contains_char c s
  end.

(** [s.split(c)]: never empty, with empty pieces kept. *)
Fixpoint split_on (c : ascii) (s : string) : list string :=
  match s with
  | "" => [""]
  | String a s =>
      if Ascii.eqb a c then "" :: split_on c s
      else match split_on c s with
           | [] => [String a ""]
           | p :: ps => String a p :: ps
           end
  end.

Definition starts_with (p s : string) : bool := String.prefix p s.

(** [s.strip_prefix(p)]. *)
Fixpoint strip_prefix (p s : string) : option string :=
  match p, s with
  | "", _ => Some s
  | String a p, String b s => if Ascii.eqb a b then strip_prefix p s else None
  | String _ _, "" => None
  end.

Fixpoint rev_string (s : string) : string :=
  match s with "" => "" | String a s => rev_string s ++ String a "" end.

Definition ends_with (p s : string) : bool :=
  starts_with (rev_string p) (rev_string s).

(** [s.contains(p)]. *)
Fixpoint contains_str (p s : string) : bool :=
  starts_with p s || match s with "" => false | String _ s => contains_str p s end.

(** The ASCII part of [char::is_whitespace]. *)
Definition is_space (a : ascii) : bool :=
  let n := nat_of_ascii a in
  bool_decide (n = 32%nat) || (bool_decide (9 <= n)%nat && bool_decide (n <= 13)%nat).

Fixpoint trim_start (s : string) : string :=
  match s with
  | "" => ""
  | String a s' => if is_space a then trim_start s' else s
  end.
Definition trim (s : string) : string :=
  rev_string (trim_start (rev_string (trim_start s))).

(** [to_ascii_lowercase] on one byte and on a string. *)
Definition lower_char (a : ascii) : ascii :=
  let n := nat_of_ascii a in
  if bool_decide (65 <= n)%nat && bool_decide (n <= 90)%nat then ascii_of_nat (n + 32) else a.
Fixpoint to_lower (s : string) : string :=
  match s with "" => "" | String a s => String (lower_char a) (to_lower s) end.

(** ** Decimal integers *)

Definition digit_val (a : ascii) : option Z :=
  let n := Z.of_nat (nat_of_ascii a) in
  if bool_decide (48 <= n <= 57)%Z then Some (n - 48)%Z else None.

(** Digits, most significant first, onto an accumulator. *)
Fixpoint parse_digits (acc : Z) (s : string) : option Z :=
  match s with
  | "" => Some acc
  | String a s => d ← digit_val a; parse_digits (10 * acc + d)%Z s
  end.

Definition parse_nonempty (s : string) : option Z :=
  if is_empty s then None else parse_digits 0 s.

(** [s.parse::<iN>()] and [s.parse::<uN>()], for the range [lo, hi]: an
    optional sign ([-] only for signed types), at least one digit, in range. *)
Definition parse_range (signed : bool) (lo hi : Z) (s : string) : option Z :=
  v ← (match s with
       | String "+" s => parse_nonempty s
       | String "-" s => if signed then Z.opp <$> parse_nonempty s else None
       | _ => parse_nonempty s
       end);
  if bool_decide (lo <= v <= hi)%Z then Some v else None.

Definition parse_i64 := parse_range true (- 2 ^ 63) (2 ^ 63 - 1).
Definition parse_i32 := parse_range true (- 2 ^ 31) (2 ^ 31 - 1).
Definition parse_u64 := parse_range false 0 (2 ^ 64 - 1).
Definition parse_u16 := parse_range false 0 (2 ^ 16 - 1).

Definition digit_char (d : Z) : ascii := ascii_of_nat (Z.to_nat (48 + d)).

(** Decimal printing of a non-negative number; [fuel] bounds the digits. *)
Fixpoint show_digits (fuel : nat) (n : Z) (acc : string) : string :=
  match fuel with
  | O => acc
  | S fuel =>
      let acc := String (digit_char (n mod 10)) acc in
      if (n <? 10)%Z then acc else show_digits fuel (n / 10) acc
  end.

(** [n.to_string()]. *)
Definition show_Z (n : Z) : string :=
  if (n <? 0)%Z then String "-" (show_digits (S (Z.to_nat (Z.log2 (- n)))) (- n) "")
  else show_digits (S (Z.to_nat (Z.log2 n))) n "".

(** ** Lemmas *)

#[local] Arguments String.append _ _ : simpl nomatch.

Lemma string_app_nil_r s : s ++ "" = s.
Proof. induction s as [|a s IH]; simpl; [done|]. by rewrite IH. Qed.

Lemma string_app_assoc a b c : a ++ b ++ c = (a ++ b) ++ c.
Proof. induction a as [|x a IH]; simpl; [done|]. by rewrite IH. Qed.

Lemma contains_char_app c a b :
  contains_char c (a ++ b) = contains_char c a || contains_char c b.
Proof. induction a as [|x a IH]; simpl; [done|]. by rewrite IH, orb_assoc. Qed.

Lemma split_on_ne c s : split_on c s ≠ [].
Proof. induction s as [|a s IH]; simpl; [done|]. by repeat case_match. Qed.

Lemma split_on_none c s : contains_char c s = false → split_on c s = [s].
Proof.
  induction s as [|a s IH]; simpl; [done|]. intros [-> Hs]%orb_false_iff.
  by rewrite IH.
Qed.

Lemma split_on_app c a b :
  contains_char c a = false → split_on c (a ++ String c b) = a :: split_on c b.
Proof.
  induction a as [|x a IH]; simpl; [by rewrite Ascii.eqb_refl|].
  intros [-> Ha]%orb_false_iff. by rewrite IH.
Qed.

(** Every piece is free of the separator. *)
Lemma split_on_pieces c s : Forall (λ p, contains_char c p = false) (split_on c s).
Proof.
  induction s as [|a s IH]; simpl; [by constructor|].
  destruct (Ascii.eqb a c) eqn:E; [by constructor|].
  destruct (split_on c s) as [|p ps].
  { constructor; [|done]. simpl. by rewrite E. }
  inversion_clear IH. constructor; [|done]. simpl. by rewrite E.
Qed.

Lemma strip_prefix_app p s : strip_prefix p (p ++ s) = Some s.
Proof. induction p as [|a p IH]; simpl; [done|]. by rewrite Ascii.eqb_refl. Qed.

Lemma strip_prefix_Some p s r : strip_prefix p s = Some r → s = p ++ r.
Proof.
  revert s. induction p as [|a p IH]; intros s; simpl; [naive_solver|].
  destruct s as [|b s]; [done|]. destruct (Ascii.eqb_spec a b); [|done].
  subst. intros ?%IH. by subst.
Qed.

Lemma starts_with_spec p s : starts_with p s = true ↔ ∃ r, s = p ++ r.
Proof.
  unfold starts_with. revert s. induction p as [|a p IH]; intros s.
  { split; [intros _; by exists s|intros _; by destruct s]. }
  destruct s as [|b s]; [naive_solver|]. cbn [String.prefix].
  destruct (ascii_dec a b) as [->|Hne]; [rewrite IH|]; naive_solver.
Qed.

Lemma str_len_app a b : str_len (a ++ b) = (str_len a + str_len b)%nat.
Proof. unfold str_len. induction a; simpl; auto. Qed.

Lemma digit_char_val d : (0 <= d < 10)%Z → digit_val (digit_char d) = Some d.
Proof.
  intros Hd. unfold digit_val, digit_char.
  rewrite nat_ascii_embedding by lia. rewrite Z2Nat.id by lia.
  rewrite bool_decide_eq_true_2 by lia. f_equal; lia.
Qed.

Lemma parse_digits_app acc a b :
  parse_digits acc (a ++ b) = (acc' ← parse_digits acc a; parse_digits acc' b).
Proof.
  revert acc. induction a as [|x a IH]; intros acc; simpl; [done|].
  destruct (digit_val x); simpl; auto.
Qed.

Lemma show_digits_acc fuel n s : show_digits fuel n s = show_digits fuel n "" ++ s.
Proof.
  revert n s. induction fuel as [|fuel IH]; intros n s; simpl; [done|].
  destruct (n <? 10)%Z; [done|].
  rewrite (IH _ (String _ s)), (IH _ (String _ "")). by rewrite <- string_app_assoc.
Qed.

Lemma parse_show_digits fuel n :
  (0 < fuel)%nat → (0 <= n < 10 ^ Z.of_nat fuel)%Z →
  parse_digits 0 (show_digits fuel n "") = Some n.
Proof.
  revert n. induction fuel as [|fuel IH]; intros n Hf Hn; [lia|]. cbn [show_digits].
  destruct (Z.ltb_spec n 10).
  { cbn [parse_digits]. rewrite digit_char_val by (rewrite Z.mod_small; lia). simpl.
    f_equal. rewrite Z.mod_small; lia. }
  rewrite show_digits_acc, parse_digits_app. rewrite Nat2Z.inj_succ, Z.pow_succ_r in Hn by lia.
  pose proof (Z.mod_pos_bound n 10 ltac:(lia)). pose proof (Z.div_mod n 10 ltac:(lia)).
  assert (1 <= n / 10 < 10 ^ Z.of_nat fuel)%Z.
  { split; [apply Z.div_le_lower_bound; lia|apply Z.div_lt_upper_bound; lia]. }
  rewrite IH; [|destruct fuel; [simpl in *; lia|lia]|lia].
  cbn -[Z.mul Z.add Z.modulo]. rewrite digit_char_val by lia. simpl. f_equal. lia.
Qed.

Lemma show_fuel n : (0 <= n)%Z → (n < 10 ^ Z.of_nat (S (Z.to_nat (Z.log2 n))))%Z.
Proof.
  intros Hn. destruct (decide (n = 0%Z)) as [->|]; [done|].
  rewrite Nat2Z.inj_succ, Z2Nat.id by apply Z.log2_nonneg.
  pose proof (Z.log2_spec n ltac:(lia)) as [_ H].
  eapply Z.lt_le_trans; [exact H|]. apply Z.pow_le_mono_l. lia.
Qed.

Lemma show_digits_head fuel n s :
  (0 < fuel)%nat → (0 <= n)%Z →
  ∃ d r, show_digits fuel n s = String (digit_char d) r ∧ (0 <= d < 10)%Z.
Proof.
  revert n s. induction fuel as [|fuel IH]; intros n s Hf Hn; [lia|]. simpl.
  pose proof (Z.mod_pos_bound n 10 ltac:(lia)).
  destruct (n <? 10)%Z; [eauto|]. destruct fuel as [|fuel]; [simpl; eauto|].
  apply IH; [lia|]. apply Z.div_pos; lia.
Qed.

Lemma digit_char_neq d c :
  (0 <= d < 10)%Z → digit_val c = None → Ascii.eqb (digit_char d) c = false.
Proof.
  intros Hd Hc. apply Ascii.eqb_neq. intros <-. by rewrite digit_char_val in Hc.
Qed.

Lemma show_digits_no_char c fuel n s :
  digit_val c = None → (0 <= n)%Z →
  contains_char c (show_digits fuel n s) = contains_char c s.
Proof.
  intros Hc. revert n s. induction fuel as [|fuel IH]; intros n s Hn; [done|].
  cbn [show_digits]. pose proof (Z.mod_pos_bound n 10 ltac:(lia)).
  destruct (n <? 10)%Z; [|rewrite IH by (apply Z.div_pos; lia)];
    cbn [contains_char]; by rewrite digit_char_neq.
Qed.

(** A printed non-negative number reads back as itself and contains no
    separator. *)
Lemma parse_show_Z signed lo hi n :
  (0 <= n)%Z → (lo <= n <= hi)%Z → parse_range signed lo hi (show_Z n) = Some n.
Proof.
  intros Hn Hr. unfold show_Z. destruct (Z.ltb_spec n 0); [lia|].
  set (s := show_digits _ n "").
  assert (parse_nonempty s = Some n) as Hp.
  { unfold parse_nonempty.
    destruct (show_digits_head (S (Z.to_nat (Z.log2 n))) n "" ltac:(lia) Hn) as (d & r & E & _).
    assert (is_empty s = false) as -> by (unfold s; by rewrite E).
    apply parse_show_digits; [lia|]. split; [done|]. by apply show_fuel. }
  unfold parse_range.
  destruct (show_digits_head (S (Z.to_nat (Z.log2 n))) n "" ltac:(lia) Hn) as (d & r & E & Hd).
  assert (∀ c, digit_val c = None → Ascii.eqb (digit_char d) c = false) as Hne
    by (intros; by apply digit_char_neq).
  assert (match s with
    | String "+" s0 => parse_nonempty s0
    | String "-" s0 => if signed then Z.opp <$> parse_nonempty s0 else None
    | _ => parse_nonempty s end = Some n) as ->.
  { revert Hp. unfold s. rewrite E. clear -Hne.
    pose proof (Hne "+"%char eq_refl) as H1. pose proof (Hne "-"%char eq_refl) as H2.
    destruct (digit_char d) as [[] [] [] [] [] [] [] []]; try done. }
  simpl. by rewrite bool_decide_eq_true_2.
Qed.

Lemma show_Z_no_char c n :
  digit_val c = None → (0 <= n)%Z → contains_char c (show_Z n) = false.
Proof.
  intros Hc Hn. unfold show_Z. destruct (Z.ltb_spec n 0); [lia|].
  by rewrite show_digits_no_char.
Qed.

Lemma rev_string_app a b : rev_string (a ++ b) = rev_string b ++ rev_string a.
Proof.
  induction a as [|x a IH]; [by rewrite string_app_nil_r|].
  change (rev_string (String x (a ++ b)) = rev_string b ++ rev_string (String x a)).
  cbn [rev_string]. by rewrite IH, string_app_assoc.
Qed.

Lemma list_ascii_app a b :
  list_ascii_of_string (a ++ b) = (list_ascii_of_string a ++ list_ascii_of_string b)%list.
Proof.
  induction a as [|x a IH]; [done|].
  change (list_ascii_of_string (String x (a ++ b))
          = (list_ascii_of_string (String x a) ++ list_ascii_of_string b)%list).
  cbn [list_ascii_of_string app]. by rewrite IH.
Qed.

Lemma rev_string_involutive s : rev_string (rev_string s) = s.
Proof.
  induction s as [|x s IH]; [done|]. cbn [rev_string]. rewrite rev_string_app, IH. done.
Qed.

#[export] Hint Resolve show_Z_no_char split_on_none : luoda.
