(* ===== verification/Addr.v ===== *)
(** * Mangled socket addresses

    [libs/hbb_common/src/lib.rs], [AddrMangle]: the encoding of a socket address
    that hides it from routers that rewrite addresses in packets.  It is what
    the rendezvous protocol carries wherever a peer's address is sent.
    Arithmetic on [u128] is that of the release profile (wrapping). *)

From S2P Require Import Prelude.

Local Open Scope Z_scope.

(** ** Socket addresses

    [std::net::SocketAddr]; an address is its octets in network order.  The flow
    label and scope of an IPv6 address are not kept: [encode] does not read
    them and [SocketAddr::new] sets them to zero. *)

Inductive SocketAddr :=
| SAddrV4 (ip : list Z) (port : Z)
| SAddrV6 (ip : list Z) (port : Z).

#[global] Instance SocketAddr_eq_dec : EqDecision SocketAddr.
Proof. solve_decision. Defined.

Definition addr_ok (a : SocketAddr) : Prop :=
  match a with
  | SAddrV4 ip p => length ip = 4%nat ∧ Forall is_byte ip ∧ uint 16 p
  | SAddrV6 ip p => length ip = 16%nat ∧ Forall is_byte ip ∧ uint 16 p
  end.

(** [Ipv6Addr::is_loopback] and [Ipv6Addr::to_ipv4]. *)
Definition v6_is_loopback (ip : list Z) : bool :=
  bool_decide (ip = replicate 15 0 ++ [1]).
Definition to_ipv4 (ip : list Z) : option (list Z) :=
  if bool_decide (take 12 ip = replicate 12 0)
     || bool_decide (take 12 ip = replicate 10 0 ++ [255; 255])
  then Some (drop 12 ip) else None.

Definition try_into_v4 (addr : SocketAddr) : SocketAddr :=
  match addr with
  | SAddrV6 ip port =>
      if v6_is_loopback ip then addr
      else match to_ipv4 ip with Some v4 => SAddrV4 v4 port | None => addr end
  | SAddrV4 _ _ => addr
  end.

(** Zero bytes at the front of a list. *)
Fixpoint count_zeros (l : list Z) : nat :=
  match l with 0 :: l => S (count_zeros l) | _ => O end.

(** [AddrMangle::encode]; [tm] is the clock in microseconds, as a [u32]. *)
Definition mangle_encode (tm : Z) (addr : SocketAddr) : list Z :=
  match try_into_v4 addr with
  | SAddrV4 ip4 port =>
      let ip := le_val ip4 in
      let v := wrap 128 (Z.lor (Z.lor (Z.shiftl (ip + tm) 49) (Z.shiftl tm 17))
                     (port + Z.land tm 0xFFFF)) in
      let bytes := le_bytes 16 v in
      let n_padding := count_zeros (rev bytes) in
      take (16 - n_padding) bytes
  | SAddrV6 ip6 port => ip6 ++ le_bytes 2 port
  end.

(** [Config::get_any_listen_addr]. *)
Definition get_any_listen_addr (is_ipv4 : bool) : SocketAddr :=
  if is_ipv4 then SAddrV4 (replicate 4 0) 0 else SAddrV6 (replicate 16 0) 0.

(** [AddrMangle::decode] *)
Definition mangle_decode (bytes : list Z) : SocketAddr :=
  if (16 <? length bytes)%nat then
    if bool_decide (length bytes ≠ 18%nat) then get_any_listen_addr false
    else SAddrV6 (take 16 bytes) (le_val (drop 16 bytes))
  else
    let padded := bytes ++ replicate (16 - length bytes) 0 in
    let number := le_val padded in
    let tm := Z.land (Z.shiftr number 17) (2 ^ 32 - 1) in
    let ip := le_bytes 4 (wrap 32 (wrap 128 (Z.shiftr number 49 - tm))) in
    let port := wrap 128 (Z.land number 0xFFFFFF - Z.land tm 0xFFFF) in
    SAddrV4 ip (wrap 16 port).

(** ** Lemmas *)

Lemma strip_zeros_value l :
  le_val (take (length l - count_zeros (rev l)) l
          ++ replicate (count_zeros (rev l)) 0) = le_val l.
Proof.
  assert (∀ r, r = replicate (count_zeros r) 0 ++ drop (count_zeros r) r) as Hr.
  { induction r as [|x r IH]; [done|]. destruct x; try done. simpl. by f_equal. }
  assert (∀ r, (count_zeros r <= length r)%nat) as Hc.
  { induction r as [|x r IH]; [simpl; lia|]. destruct x; simpl; lia. }
  specialize (Hr (rev l)). specialize (Hc (rev l)). rewrite length_rev in Hc.
  set (k := count_zeros (rev l)) in *.
  assert (l = rev (drop k (rev l)) ++ replicate k 0) as El.
  { apply (f_equal (@rev Z)) in Hr. rewrite rev_involutive, rev_app_distr in Hr.
    rewrite Hr at 1. f_equal. rewrite rev_alt. apply reverse_replicate. }
  assert (take (length l - k) l = rev (drop k (rev l))) as ->; [|by rewrite <- El].
  assert (length (rev (drop k (rev l))) = (length l - k)%nat) as <-.
  { by rewrite length_rev, length_drop, length_rev. }
  rewrite El at 2. apply take_app_length.
Qed.

Lemma strip_zeros_length l : (length (take (length l - count_zeros (rev l)) l) + count_zeros (rev l))%nat = length l.
Proof.
  assert (∀ r, (count_zeros r <= length r)%nat) as Hc.
  { induction r as [|x r IH]; [simpl; lia|]. destruct x; simpl; lia. }
  specialize (Hc (rev l)). rewrite length_rev in Hc. rewrite length_take. lia.
Qed.

Lemma le_bytes_zero k : le_bytes k 0 = replicate k 0.
Proof. induction k as [|k IH]; [done|]. cbn [le_bytes replicate]. by f_equal. Qed.

Lemma le_bytes_pad j k n :
  0 <= n < 256 ^ Z.of_nat j → le_bytes (j + k) n = le_bytes j n ++ replicate k 0.
Proof.
  revert n; induction j as [|j IH]; intros n Hn.
  - replace n with 0 by (simpl in Hn; lia). apply le_bytes_zero.
  - rewrite Nat2Z.inj_succ, Z.pow_succ_r in Hn by lia. cbn [Nat.add le_bytes app].
    rewrite IH; [done|]. split; [apply Z.div_pos; lia|apply Z.div_lt_upper_bound; lia].
Qed.

Definition mangle_low (tm port : Z) : Z := port + Z.land tm 0xFFFF.

Lemma land_mask16 x : Z.land x 0xFFFF = x mod 2 ^ 16.
Proof. change 0xFFFF with (Z.ones 16). by rewrite Z.land_ones. Qed.

(** The three bit fields of the mangled number. *)
Lemma mangle_value ip tm port :
  uint 32 ip → uint 32 tm → uint 16 port →
  wrap 128 (Z.lor (Z.lor (Z.shiftl (ip + tm) 49) (Z.shiftl tm 17)) (port + Z.land tm 0xFFFF))
  = ((ip + tm) * 2 ^ 32 + tm) * 2 ^ 17 + mangle_low tm port
  ∧ 0 <= mangle_low tm port < 2 ^ 17.
Proof.
  unfold uint, mangle_low. intros Hip Htm Hp. rewrite land_mask16.
  pose proof (Z.mod_pos_bound tm (2 ^ 16) ltac:(lia)).
  rewrite !Z.shiftl_mul_pow2 by lia.
  rewrite (lor_disjoint _ (tm * 2 ^ 17) 49) by lia.
  replace ((ip + tm) * 2 ^ 49 + tm * 2 ^ 17) with (((ip + tm) * 2 ^ 32 + tm) * 2 ^ 17) by lia.
  rewrite lor_disjoint by lia. split; [|lia]. apply wrap_small. unfold uint. lia.
Qed.

Lemma unmangle_fields a tm low :
  0 <= a → uint 32 tm → 0 <= low < 2 ^ 17 →
  let n := (a * 2 ^ 32 + tm) * 2 ^ 17 + low in
  Z.shiftr n 49 = a ∧ Z.land (Z.shiftr n 17) (2 ^ 32 - 1) = tm
  ∧ Z.land n 0xFFFFFF = (tm mod 2 ^ 7) * 2 ^ 17 + low.
Proof.
  intros Ha Htm Hlow n. unfold uint in Htm. rewrite !Z.shiftr_div_pow2 by lia.
  change (2 ^ 32 - 1) with (Z.ones 32). change 0xFFFFFF with (Z.ones 24).
  rewrite !Z.land_ones by lia. unfold n. split_and!.
  - change (2 ^ 49) with (2 ^ 17 * 2 ^ 32). rewrite <- Z.div_div by lia.
    rewrite Z.div_add_l, (Z.div_small low), Z.add_0_r, Z.div_add_l, Z.div_small by lia. lia.
  - rewrite Z.div_add_l, (Z.div_small low), Z.add_0_r by lia.
    rewrite Z.add_comm, Z.mod_add by lia. by apply Z.mod_small.
  - pose proof (Z.div_mod tm (2 ^ 7) ltac:(lia)).
    pose proof (Z.mod_pos_bound tm (2 ^ 7) ltac:(lia)).
    symmetry. apply (Z.mod_unique _ _ (a * 2 ^ 25 + tm / 2 ^ 7)); lia.
Qed.

(** The port survives although [decode] reads seven bits too many: those bits
    are multiples of 2^17 and vanish in the cast to [u16]. *)
Lemma unmangle_port tm port :
  uint 32 tm → uint 16 port →
  wrap 16 (wrap 128 ((tm mod 2 ^ 7) * 2 ^ 17 + mangle_low tm port - Z.land tm 0xFFFF)) = port.
Proof.
  unfold uint, mangle_low. intros Htm Hp.
  replace ((tm mod 2 ^ 7) * 2 ^ 17 + (port + Z.land tm 0xFFFF) - Z.land tm 0xFFFF)
    with (port + (tm mod 2 ^ 7 * 2) * 2 ^ 16) by lia.
  pose proof (Z.mod_pos_bound tm (2 ^ 7) ltac:(lia)).
  rewrite (wrap_small 128) by (unfold uint; lia).
  unfold wrap. rewrite Z.mod_add by lia. by apply Z.mod_small.
Qed.

Lemma mangle_v4 tm ip4 port :
  length ip4 = 4%nat → Forall is_byte ip4 → uint 16 port → uint 32 tm →
  mangle_decode (mangle_encode tm (SAddrV4 ip4 port)) = SAddrV4 ip4 port.
Proof.
  intros Hl Hb Hp Htm. unfold mangle_encode. cbn [try_into_v4].
  assert (uint 32 (le_val ip4)) as Hip.
  { pose proof (le_val_nonneg _ Hb). pose proof (le_val_bound _ Hb) as Hub.
    rewrite Hl in Hub. by split. }
  destruct (mangle_value _ _ _ Hip Htm Hp) as [Ev Hlow].
  cbv zeta. rewrite Ev. set (n := _ + mangle_low tm port) in *.
  assert (0 <= n < 256 ^ Z.of_nat 16) as Hn by (unfold n, uint in *; lia).
  set (bs := le_bytes 16 n). replace 16%nat with (length bs) at 1 by apply le_bytes_length.
  unfold mangle_decode.
  pose proof (strip_zeros_length bs) as Hlen. pose proof (strip_zeros_value bs) as Hval.
  set (out := take (length bs - count_zeros (rev bs)) bs) in *.
  replace (length bs) with 16%nat in Hlen by (symmetry; apply le_bytes_length).
  destruct (Nat.ltb_spec 16 (length out)); [lia|].
  replace (16 - length out)%nat with (count_zeros (rev bs)) by lia.
  rewrite Hval. unfold bs. rewrite le_val_bytes by done.
  destruct (unmangle_fields (le_val ip4 + tm) tm (mangle_low tm port)) as (E1 & E2 & E3);
    [unfold uint in *; lia|done|done|].
  fold n in E1, E2, E3. rewrite E1, E2, E3, unmangle_port by done.
  replace (le_val ip4 + tm - tm) with (le_val ip4) by lia.
  rewrite (wrap_small 128), (wrap_small 32) by (unfold uint in *; lia).
  by rewrite <- Hl, le_bytes_val.
Qed.

Lemma try_into_v4_ok a : addr_ok a → addr_ok (try_into_v4 a).
Proof.
  destruct a as [|ip p]; simpl; [done|]. intros (Hl & Hb & Hp).
  destruct (v6_is_loopback ip); [done|]. unfold to_ipv4.
  destruct (_ || _); [|done]. simpl. rewrite length_drop.
  split_and!; [lia|by apply Forall_drop|done].
Qed.

Lemma try_into_v4_idem a : try_into_v4 (try_into_v4 a) = try_into_v4 a.
Proof.
  destruct a as [|ip p]; simpl; [done|].
  destruct (v6_is_loopback ip) eqn:E1; [simpl; by rewrite E1|].
  destruct (to_ipv4 ip) eqn:E2; [done|]. simpl. by rewrite E1, E2.
Qed.

Lemma mangle_encode_norm tm a : mangle_encode tm (try_into_v4 a) = mangle_encode tm a.
Proof. unfold mangle_encode. by rewrite try_into_v4_idem. Qed.

(** ** Properties *)

(** Every address survives mangling.  For any well-formed address and any
    clock value, decoding the mangled bytes gives back the address (an
    IPv4-mapped IPv6 address comes back as the IPv4 address it denotes). *)
Lemma mangle_roundtrip tm a :
  addr_ok a → uint 32 tm → mangle_decode (mangle_encode tm a) = try_into_v4 a.
Proof.
  intros Ha Htm. rewrite <- mangle_encode_norm. apply try_into_v4_ok in Ha.
  destruct (try_into_v4 a) as [ip p|ip p] eqn:E.
  - destruct Ha as (? & ? & ?). by apply mangle_v4.
  - assert (try_into_v4 (SAddrV6 ip p) = SAddrV6 ip p) as E'
      by (rewrite <- E; apply try_into_v4_idem).
    unfold mangle_encode. rewrite E'. destruct Ha as (Hl & Hb & Hp). unfold mangle_decode.
    rewrite length_app, le_bytes_length, Hl. simpl (16 <? 16 + 2)%nat. cbn match.
    rewrite bool_decide_false by (simpl; lia).
    rewrite take_app_length', drop_app_length', le_val_bytes by (done || apply Hp). done.
Qed.

(** The two address families never collide on the wire and the encoding is
    short: an IPv4 address takes at most eleven bytes, an IPv6 one exactly
    eighteen, and every byte string whatsoever decodes to a well-formed
    address (a hostile one cannot make [decode] read out of bounds). *)
Lemma mangle_wire_format tm a bytes :
  addr_ok a → uint 32 tm → Forall is_byte bytes →
  match try_into_v4 a with
  | SAddrV4 _ _ => (length (mangle_encode tm a) <= 11)%nat
  | SAddrV6 _ _ => length (mangle_encode tm a) = 18%nat
  end ∧ addr_ok (mangle_decode bytes).
Proof.
  intros Ha Htm Hbytes. split.
  - rewrite <- (mangle_encode_norm tm a). apply try_into_v4_ok in Ha.
    destruct (try_into_v4 a) as [ip p|ip p] eqn:E.
    + destruct Ha as (Hl & Hb & Hp). unfold mangle_encode; cbn [try_into_v4].
      assert (uint 32 (le_val ip)) as Hip.
      { pose proof (le_val_nonneg _ Hb). pose proof (le_val_bound _ Hb) as Hub.
        rewrite Hl in Hub. by split. }
      destruct (mangle_value _ _ _ Hip Htm Hp) as [-> Hlow].
      set (n := _ + mangle_low tm p) in *.
      assert (0 <= n < 256 ^ Z.of_nat 11) as Hn by (unfold n, uint in *; lia).
      cbv zeta. replace (le_bytes 16 n) with (le_bytes 11 n ++ replicate 5 0).
      * rewrite rev_app_distr. simpl (rev (replicate 5 0)). simpl ([_; _; _; _; _] ++ _).
        cbn [count_zeros]. rewrite length_take. lia.
      * symmetry. by apply (le_bytes_pad 11 5).
    + assert (try_into_v4 (SAddrV6 ip p) = SAddrV6 ip p) as E'
        by (rewrite <- E; apply try_into_v4_idem).
      unfold mangle_encode. rewrite E'. destruct Ha as (Hl & _).
      by rewrite length_app, le_bytes_length, Hl.
  - unfold mangle_decode. destruct (Nat.ltb_spec 16 (length bytes)).
    + case_bool_decide as H18.
      * simpl. split_and!; [done|repeat constructor; unfold is_byte; lia|unfold uint; lia].
      * simpl. split_and!; [rewrite length_take; lia|by apply Forall_take|].
        assert (Forall is_byte (drop 16 bytes)) as Hd by by apply Forall_drop.
        pose proof (le_val_nonneg _ Hd). pose proof (le_val_bound _ Hd) as Hub.
        rewrite length_drop, H18 in Hub. split; [done|]. simpl in Hub. lia.
    + cbn [addr_ok]. split_and!; [by rewrite le_bytes_length|apply le_bytes_is_byte|].
      apply wrap_uint. lia.
Qed.

(** ** Witnesses *)

Lemma mangle_roundtrip_witness :
  mangle_decode (mangle_encode 1234567890 (SAddrV4 [192; 168; 1; 77] 21116))
  = SAddrV4 [192; 168; 1; 77] 21116.
Proof.
  apply (mangle_roundtrip 1234567890 (SAddrV4 [192; 168; 1; 77] 21116)).
  - cbn. split_and!; [reflexivity|repeat constructor; vm_compute; congruence|].
    split; vm_compute; congruence.
  - split; vm_compute; congruence.
Defined.

Lemma mangle_wire_format_witness :
  length (mangle_encode 5 (SAddrV6 (replicate 16 9) 80)) = 18%nat
  ∧ addr_ok (mangle_decode [255; 255; 255]).
Proof.
  apply (mangle_wire_format 5 (SAddrV6 (replicate 16 9) 80) [255; 255; 255]).
  - cbn. split_and!; [reflexivity|repeat constructor; vm_compute; congruence|].
    split; vm_compute; congruence.
  - split; vm_compute; congruence.
  - repeat constructor; vm_compute; congruence.
Defined.
