(* ===== verification/F32.v ===== *)
(** * Single-precision floating point

    The [f32] arithmetic the quality-of-service controller uses, on the
    executable IEEE 754 model of the standard library ([SpecFloat]) at precision
    24 and maximal exponent 128: every operation is correctly rounded to nearest
    even, as the hardware's is.  The lemmas are the order facts needed to
    reason about [clamp]. *)

From S2P Require Import Prelude.
From Stdlib Require Import Floats.SpecFloat.

Local Open Scope Z_scope.

Definition f32 := spec_float.
Definition f32_mul : f32 → f32 → f32 := SFmul 24 128.
Definition f32_div : f32 → f32 → f32 := SFdiv 24 128.
Definition f32_add : f32 → f32 → f32 := SFadd 24 128.
Definition f32_sub : f32 → f32 → f32 := SFsub 24 128.
Definition f32_lt : f32 → f32 → bool := SFltb.
Definition f32_le : f32 → f32 → bool := SFleb.

#[global] Instance f32_eq_dec : EqDecision f32.
Proof. solve_decision. Defined.

(** [z as f32]. *)
Definition f32_of_Z (z : Z) : f32 := binary_normalize 24 128 z 0 false.

(** The literal nearest to [n / d]: correct rounding of the division. *)
Definition f32_lit (n d : Z) : f32 := f32_div (f32_of_Z n) (f32_of_Z d).

Definition f32_is_nan (x : f32) : bool := match x with S754_nan => true | _ => false end.

(** [f32::max] and [f32::min] ignore a NaN operand. *)
Definition f32_max (x y : f32) : f32 :=
  if f32_is_nan x then y else if f32_is_nan y then x else if f32_lt x y then y else x.
Definition f32_min (x y : f32) : f32 :=
  if f32_is_nan x then y else if f32_is_nan y then x else if f32_lt y x then y else x.

(** [f32::clamp] panics ([None]) unless [lo <= hi]. *)
Definition f32_clamp (v lo hi : f32) : option f32 :=
  if f32_le lo hi then
    let v := if f32_lt v lo then lo else v in
    Some (if f32_lt hi v then hi else v)
  else None.

(** [x as u32]: truncation, saturating, NaN to zero. *)
Definition f32_to_u32 (x : f32) : Z :=
  match x with
  | S754_finite false m e => Zclamp 0 (2 ^ 32 - 1) (Z.shiftl (Zpos m) e)
  | S754_infinity false => 2 ^ 32 - 1
  | _ => 0
  end.

(** [x.ceil() as u32] *)
Definition f32_ceil_to_u32 (x : f32) : Z :=
  match x with
  | S754_finite false m e => Zclamp 0 (2 ^ 32 - 1) (- Z.shiftl (- Zpos m) e)
  | S754_infinity false => 2 ^ 32 - 1
  | _ => 0
  end.

(** [x.round() as u32]: to the nearest integer, halves away from zero. *)
Definition f32_round_to_u32 (x : f32) : Z :=
  match x with
  | S754_finite false m e =>
      Zclamp 0 (2 ^ 32 - 1)
        (if 0 <=? e then Z.shiftl (Zpos m) e else (2 * Zpos m + 2 ^ (- e)) / (2 * 2 ^ (- e)))
  | S754_infinity false => 2 ^ 32 - 1
  | _ => 0
  end.

(** [Duration::from_secs_f32], in nanoseconds, rounded to nearest even; negative
    and non-finite arguments panic. *)
Definition duration_from_secs_f32 (x : f32) : option Z :=
  match x with
  | S754_zero _ => Some 0
  | S754_finite false m e =>
      let n := Zpos m * 10 ^ 9 in
      if 0 <=? e then Some (Z.shiftl n e) else
      let d := 2 ^ (- e) in
      let q := n / d in
      match 2 * (n mod d) ?= d with
      | Lt => Some q
      | Gt => Some (q + 1)
      | Eq => Some (if Z.even q then q else q + 1)
      end
  | _ => None
  end.

(** ** The order *)

Lemma f32_le_nan x y : f32_le x y = true → f32_is_nan x = false ∧ f32_is_nan y = false.
Proof. by destruct x, y. Qed.

Lemma f32_lt_nan x y : f32_lt x y = true → f32_is_nan x = false ∧ f32_is_nan y = false.
Proof. by destruct x, y. Qed.

(** Comparisons of finite numbers of the same sign are lexicographic. *)
Ltac f32_cases :=
  repeat match goal with
  | s : bool |- _ => destruct s
  | H : context [?a ?= ?b] |- _ => destruct (Z.compare_spec a b)
  | |- context [?a ?= ?b] => destruct (Z.compare_spec a b)
  | H : context [Pos.compare ?a ?b] |- _ => destruct (Pos.compare_spec a b)
  | |- context [Pos.compare ?a ?b] => destruct (Pos.compare_spec a b)
  end; subst; try done; try lia.

Ltac f32_order :=
  unfold f32_le, f32_lt, SFleb, SFltb, SFcompare;
  change (Pos.compare_cont Eq) with Pos.compare.

Lemma f32_le_refl x : f32_is_nan x = false → f32_le x x = true.
Proof. f32_order. destruct x; f32_cases. Qed.

Lemma f32_lt_le x y : f32_lt x y = true → f32_le x y = true.
Proof. f32_order. destruct x, y; f32_cases. Qed.

Lemma f32_not_lt x y :
  f32_is_nan x = false → f32_is_nan y = false → f32_lt x y = false → f32_le y x = true.
Proof. f32_order. destruct x, y; f32_cases. Qed.

Lemma f32_le_trans x y z : f32_le x y = true → f32_le y z = true → f32_le x z = true.
Proof. f32_order. destruct x, y, z; f32_cases. Qed.

Lemma f32_le_not_lt x y : f32_le x y = true → f32_lt y x = false.
Proof. f32_order. destruct x, y; f32_cases. Qed.

Lemma f32_clamp_spec v lo hi :
  f32_is_nan v = false → f32_le lo hi = true →
  ∃ r, f32_clamp v lo hi = Some r ∧ f32_le lo r = true ∧ f32_le r hi = true.
Proof.
  intros Hv Hle. pose proof (f32_le_nan _ _ Hle) as [Hlo Hhi]. unfold f32_clamp.
  rewrite Hle. eexists; split; [done|]. destruct (f32_lt v lo) eqn:E1.
  - rewrite (f32_le_not_lt _ _ Hle). auto using f32_le_refl.
  - apply f32_not_lt in E1; [|done..].
    destruct (f32_lt hi v) eqn:E2; [auto using f32_le_refl|].
    split; [done|]. by apply f32_not_lt.
Qed.

Lemma f32_max_ge x y :
  f32_is_nan y = false → f32_is_nan (f32_max x y) = false ∧ f32_le y (f32_max x y) = true.
Proof.
  intros Hy. unfold f32_max. destruct (f32_is_nan x) eqn:Hx.
  - auto using f32_le_refl.
  - rewrite Hy. destruct (f32_lt x y) eqn:E; [auto using f32_le_refl|].
    split; [done|]. by apply f32_not_lt.
Qed.

(** ** Products of non-NaN numbers *)

Lemma shr_1_nonneg r : 0 <= shr_m r → 0 <= shr_m (shr_1 r).
Proof. destruct r as [[|[]|[]] [] []]; simpl; lia. Qed.

Lemma iter_shr_nonneg p r : 0 <= shr_m r → 0 <= shr_m (iter_pos shr_1 p r).
Proof.
  revert r; induction p as [p IH|p IH|]; intros r Hr; simpl; auto using shr_1_nonneg.
Qed.

Lemma shr_fexp_nonneg prec emax m e l :
  0 <= m → 0 <= shr_m (fst (shr_fexp prec emax m e l)).
Proof.
  intros Hm. unfold shr_fexp, shr.
  assert (0 <= shr_m (shr_record_of_loc m l)) by (by destruct l as [|[]]).
  destruct (_ - e); simpl; auto using iter_shr_nonneg.
Qed.

Lemma binary_round_aux_nan prec emax s m e l :
  0 <= m → f32_is_nan (binary_round_aux prec emax s m e l) = false.
Proof.
  intros Hm. unfold binary_round_aux.
  pose proof (shr_fexp_nonneg prec emax m e l Hm) as H1.
  destruct (shr_fexp prec emax m e l) as [r1 e1]. cbn [fst] in H1.
  set (m2 := round_nearest_even _ _).
  assert (0 <= m2) as Hm2.
  { unfold m2, round_nearest_even. repeat case_match; lia. }
  pose proof (shr_fexp_nonneg prec emax m2 e1 loc_Exact Hm2) as H2.
  destruct (shr_fexp prec emax m2 e1 loc_Exact) as [r2 e2]. cbn [fst] in H2.
  destruct (shr_m r2); [done|by case_match|lia].
Qed.

(** A product with a finite non-zero number is not a NaN. *)
Lemma f32_mul_nan x s m e :
  f32_is_nan x = false → f32_is_nan (f32_mul x (S754_finite s m e)) = false.
Proof. destruct x; try done. intros _. by apply binary_round_aux_nan. Qed.
