(* ===== verification/VideoQos.v ===== *)
(** * Video quality of service

    [src/server/video_qos.rs]: the controller that picks the frame rate and the
    bitrate ratio of the video service from the users' settings and the measured
    network delay.  One definition per method; the clock ([Instant::now], in
    nanoseconds), the wall clock ([get_time]) and the [enable-abr] option are
    arguments, and a panic of [f32::clamp] is [None].  The iteration order of
    the two [HashMap]s is a parameter. *)

From S2P Require Import Prelude F32.
From Stdlib Require Import Floats.SpecFloat.

Local Open Scope Z_scope.

(** ** Constants *)

Definition FPS : Z := 30.
Definition MIN_FPS : Z := 1.
Definition MAX_FPS : Z := 120.
Definition INIT_FPS : Z := 30.
Definition BR_MAX : f32 := f32_of_Z 40.
Definition BR_MIN : f32 := f32_lit 2 10.
Definition BR_MIN_HIGH_RESOLUTION : f32 := f32_lit 1 10.
Definition MAX_BR_MULTIPLE : f32 := f32_lit 3 2.
Definition HISTORY_DELAY_LEN : nat := 8.
Definition ADJUST_RATIO_INTERVAL : Z := 2.
Definition DYNAMIC_SCREEN_THRESHOLD : Z := 2.
Definition DELAY_THRESHOLD_150MS : Z := 150.
Definition BR_BEST : f32 := f32_lit 3 2.
Definition BR_BALANCED : f32 := f32_lit 8 10.
Definition BR_SPEED : f32 := f32_lit 1 2.
Definition WINDOW_SAMPLES : nat := 60.
Definition MIN_SAMPLES : nat := 10.
Definition ALPHA : f32 := f32_lit 1 2.

(** [libs/scrap/src/common/codec.rs] *)
Inductive Quality := Best | Balanced | Low | Custom (v : f32).

#[global] Instance Quality_eq_dec : EqDecision Quality.
Proof. solve_decision. Defined.

Definition quality_ratio (q : Quality) : f32 :=
  match q with
  | Best => BR_BEST
  | Balanced => BR_BALANCED
  | Low => BR_SPEED
  | Custom v => v
  end.

(** Minimum and maximum of an iterator of integers. *)
Definition iter_min (l : list Z) : option Z :=
  foldr (λ x acc, Some (match acc with Some y => Z.min x y | None => x end)) None l.
Definition iter_max (l : list Z) : option Z :=
  foldr (λ x acc, Some (match acc with Some y => Z.max x y | None => x end)) None l.

(** ** Round-trip time estimation *)

Record RttCalculator := {
  min_rtt : option Z;
  window_min_rtt : option Z;
  smoothed_rtt : option Z;
  samples : list Z;
}.

Definition rtt_default : RttCalculator := Build_RttCalculator None None None [].

(** [RttCalculator::update] *)
Definition rtt_update (c : RttCalculator) (delay : Z) : RttCalculator :=
  let min_rtt' :=
    match min_rtt c with
    | Some m => if delay <? m then Some delay else Some m
    | None => Some delay
    end in
  let '(samples1, window1) :=
    if (WINDOW_SAMPLES <=? length (samples c))%nat then
      match samples c with
      | old :: rest =>
          (rest, if bool_decide (Some old = window_min_rtt c) then iter_min rest
                 else window_min_rtt c)
      | [] => ([], window_min_rtt c)
      end
    else (samples c, window_min_rtt c) in
  let samples' := samples1 ++ [delay] in
  let window' :=
    match window1 with
    | Some wm => if delay <? wm then Some delay else Some wm
    | None => Some delay
    end in
  let smoothed' :=
    if (WINDOW_SAMPLES <=? length samples')%nat then
      match min_rtt', window' with
      | Some mn, Some wm =>
          Some (f32_to_u32 (f32_add (f32_mul (f32_sub (f32_of_Z 1) ALPHA) (f32_of_Z mn))
                                    (f32_mul ALPHA (f32_of_Z wm))))
      | _, _ => smoothed_rtt c
      end
    else smoothed_rtt c in
  Build_RttCalculator min_rtt' window' smoothed' samples'.

(** [RttCalculator::get_rtt] *)
Definition get_rtt (c : RttCalculator) : option Z :=
  match smoothed_rtt c with
  | Some rtt => Some rtt
  | None => if (MIN_SAMPLES <=? length (samples c))%nat then min_rtt c else None
  end.

(** ** Users and displays *)

Record UserDelay := {
  response_delayed : bool;
  delay_history : list Z;
  delay_fps : option Z;
  rtt_calculator : RttCalculator;
  quick_increase_fps_count : Z;
  increase_fps_count : Z;
}.

Definition user_delay_default : UserDelay := Build_UserDelay false [] None rtt_default 0 0.

(** [UserDelay::add_delay] *)
Definition add_delay (d : UserDelay) (delay : Z) : UserDelay :=
  let history :=
    if (HISTORY_DELAY_LEN <? length (delay_history d))%nat then drop 1 (delay_history d)
    else delay_history d in
  {| response_delayed := response_delayed d;
     delay_history := history ++ [delay];
     delay_fps := delay_fps d;
     rtt_calculator := rtt_update (rtt_calculator d) delay;
     quick_increase_fps_count := quick_increase_fps_count d;
     increase_fps_count := increase_fps_count d |}.

(** [UserDelay::avg_delay]; the sum is the wrapping [u32] sum. *)
Definition avg_delay (d : UserDelay) : Z :=
  let len := Z.of_nat (length (delay_history d)) in
  if 0 <? len then
    let avg := wrap 32 (foldr Z.add 0 (delay_history d)) / wrap 32 len in
    match get_rtt (rtt_calculator d) with
    | Some rtt => if rtt <? avg then avg - rtt else avg
    | None => avg
    end
  else DELAY_THRESHOLD_150MS.

Record UserData := {
  auto_adjust_fps : option Z;
  custom_fps : option Z;
  quality : option (Z * Quality);
  delay : UserDelay;
  user_recording : bool;
}.

Definition user_default : UserData := Build_UserData None None None user_delay_default false.

Definition with_delay (u : UserData) (d : UserDelay) : UserData :=
  Build_UserData (auto_adjust_fps u) (custom_fps u) (quality u) d (user_recording u).

Record DisplayData := {
  send_counter : Z;
  support_changing_quality : bool;
}.

Definition display_default : DisplayData := Build_DisplayData 0 false.

Record VideoQoS := {
  q_fps : Z;
  q_ratio : f32;
  users : gmap Z UserData;
  displays : gmap string DisplayData;
  bitrate_store : Z;
  adjust_ratio_instant : Z;
  abr_config : bool;
  new_user_instant : Z;
}.

(** [VideoQoS::default] at time [now]. *)
Definition qos_default (now : Z) : VideoQoS :=
  {| q_fps := FPS; q_ratio := BR_BALANCED; users := ∅; displays := ∅; bitrate_store := 0;
     adjust_ratio_instant := now; abr_config := true; new_user_instant := now |}.

Definition set_fps (v : Z) (q : VideoQoS) : VideoQoS :=
  Build_VideoQoS v (q_ratio q) (users q) (displays q) (bitrate_store q)
    (adjust_ratio_instant q) (abr_config q) (new_user_instant q).
Definition set_ratio (v : f32) (q : VideoQoS) : VideoQoS :=
  Build_VideoQoS (q_fps q) v (users q) (displays q) (bitrate_store q)
    (adjust_ratio_instant q) (abr_config q) (new_user_instant q).
Definition set_users (v : gmap Z UserData) (q : VideoQoS) : VideoQoS :=
  Build_VideoQoS (q_fps q) (q_ratio q) v (displays q) (bitrate_store q)
    (adjust_ratio_instant q) (abr_config q) (new_user_instant q).
Definition set_displays (v : gmap string DisplayData) (q : VideoQoS) : VideoQoS :=
  Build_VideoQoS (q_fps q) (q_ratio q) (users q) v (bitrate_store q)
    (adjust_ratio_instant q) (abr_config q) (new_user_instant q).

(** [Instant::elapsed().as_secs()] *)
Definition elapsed_secs (now since : Z) : Z := Z.max 0 (now - since) / 10 ^ 9.

(** ** Queries *)

Definition fps (q : VideoQoS) : Z :=
  if (MIN_FPS <=? q_fps q) && (q_fps q <=? MAX_FPS) then q_fps q else FPS.

(** [spf], in nanoseconds. *)
Definition spf (q : VideoQoS) : option Z :=
  duration_from_secs_f32 (f32_div (f32_of_Z 1) (f32_of_Z (fps q))).

Definition store_bitrate (b : Z) (q : VideoQoS) : VideoQoS :=
  Build_VideoQoS (q_fps q) (q_ratio q) (users q) (displays q) b
    (adjust_ratio_instant q) (abr_config q) (new_user_instant q).

Definition bitrate (q : VideoQoS) : Z := bitrate_store q.

(** [ratio] resets an out-of-range ratio before returning it. *)
Definition ratio (q : VideoQoS) : f32 * VideoQoS :=
  let q' :=
    if f32_lt (q_ratio q) BR_MIN_HIGH_RESOLUTION || f32_lt BR_MAX (q_ratio q)
    then set_ratio BR_BALANCED q else q in
  (q_ratio q', q').

Definition set_support_changing_quality (name : string) (support : bool) (q : VideoQoS) :=
  match displays q !! name with
  | Some d => set_displays (<[name := Build_DisplayData (send_counter d) support]> (displays q)) q
  | None => q
  end.

Section qos.
(** [HashMap::iter], in the order of the table. *)
Context (user_iter : gmap Z UserData → list (Z * UserData)).
Context (display_iter : gmap string DisplayData → list (string * DisplayData)).
(** [cfg!(target_os = "linux")] *)
Context (linux : bool).

Definition record (q : VideoQoS) : bool := existsb (λ u, user_recording u.2) (user_iter (users q)).

Definition in_vbr_state (q : VideoQoS) : bool :=
  abr_config q && forallb (λ e, support_changing_quality e.2) (display_iter (displays q)).

(** ** Sessions *)

Definition on_connection_open (id : Z) (enable_abr : string) (now : Z) (q : VideoQoS) : VideoQoS :=
  {| q_fps := q_fps q; q_ratio := q_ratio q;
     users := <[id := user_default]> (users q);
     displays := displays q; bitrate_store := bitrate_store q;
     adjust_ratio_instant := adjust_ratio_instant q;
     abr_config := negb (bool_decide (enable_abr = "N"%string));
     new_user_instant := now |}.

Definition on_connection_close (id : Z) (now : Z) (q : VideoQoS) : VideoQoS :=
  let q := set_users (delete id (users q)) q in
  if bool_decide (users q = ∅) then qos_default now else q.

Definition user_custom_fps (id v : Z) (q : VideoQoS) : VideoQoS :=
  if (v <? MIN_FPS) || (MAX_FPS <? v) then q else
  match users q !! id with
  | Some u =>
      set_users (<[id := Build_UserData (auto_adjust_fps u) (Some v) (quality u) (delay u)
                           (user_recording u)]> (users q)) q
  | None => q
  end.

Definition user_auto_adjust_fps (id v : Z) (q : VideoQoS) : VideoQoS :=
  if (v <? MIN_FPS) || (MAX_FPS <? v) then q else
  match users q !! id with
  | Some u =>
      set_users (<[id := Build_UserData (Some v) (custom_fps u) (quality u) (delay u)
                           (user_recording u)]> (users q)) q
  | None => q
  end.

(** The ratio of a custom quality: [((q >> 8 & 0xFFF) * 2) as f32 / 100.0]. *)
Definition custom_ratio (field : Z) : option f32 :=
  f32_clamp (f32_div (f32_of_Z (field * 2)) (f32_of_Z 100)) BR_MIN BR_MAX.

(** [convert_quality]; [ImageQuality] is [Low = 2], [Balanced = 3], [Best = 4]. *)
Definition convert_quality (q : Z) : option Quality :=
  if q =? 3 then Some Balanced
  else if q =? 2 then Some Low
  else if q =? 4 then Some Best
  else Custom <$> custom_ratio (Z.land (Z.shiftr q 8) 0xFFF).

(** [latest_quality]: [max_by] keeps the last of equal maxima. *)
Definition latest_quality (q : VideoQoS) : Quality :=
  let qs := omap (λ u, quality u.2) (user_iter (users q)) in
  match qs with
  | [] => Balanced
  | x :: l => (foldl (λ best y, if best.1 >? y.1 then best else y) x l).2
  end.

Definition user_image_quality (id image_quality time : Z) (q : VideoQoS) : option VideoQoS :=
  c ← convert_quality image_quality;
  Some match users q !! id with
  | Some u =>
      let q := set_users (<[id := Build_UserData (auto_adjust_fps u) (custom_fps u)
                                    (Some (time, c)) (delay u) (user_recording u)]> (users q)) q in
      set_ratio (quality_ratio (latest_quality q)) q
  | None => q
  end.

Definition user_record (id : Z) (v : bool) (q : VideoQoS) : VideoQoS :=
  match users q !! id with
  | Some u =>
      set_users (<[id := Build_UserData (auto_adjust_fps u) (custom_fps u) (quality u) (delay u) v]>
                   (users q)) q
  | None => q
  end.

(** ** Adjustment *)

Definition user_fps (u : UserData) : Z :=
  let fps := default FPS (custom_fps u) in
  match auto_adjust_fps u with
  | Some a => if (fps =? 0) || (a <? fps) then a else fps
  | None => fps
  end.

Definition highest_fps (q : VideoQoS) : Z :=
  let fps := default FPS (iter_min (List.filter (λ f, MIN_FPS <=? f)
               (map (λ u, user_fps u.2) (user_iter (users q))))) in
  Zclamp MIN_FPS MAX_FPS fps.

Definition adjust_fps (now : Z) (q : VideoQoS) : VideoQoS :=
  let highest := highest_fps q in
  let fps := default INIT_FPS (iter_min
               (map (λ u, default INIT_FPS (delay_fps (delay u.2))) (user_iter (users q)))) in
  let fps := if existsb (λ u, response_delayed (delay u.2)) (user_iter (users q)) then
               if MIN_FPS + 1 <? fps then MIN_FPS + 1 else fps
             else fps in
  let fps := if elapsed_secs now (new_user_instant q) <? 1 then
               if INIT_FPS <? fps then INIT_FPS else fps
             else fps in
  set_fps (Zclamp MIN_FPS highest fps) q.

(** The three intermediate values of [adjust_ratio]. *)
Definition ratio_min (target : Quality) (current : f32) (rate : Z) : f32 :=
  let ratio_1mbps :=
    if 0 <? rate then
      Some (f32_max (f32_div (f32_mul current (f32_of_Z 1000)) (f32_of_Z rate))
              BR_MIN_HIGH_RESOLUTION)
    else None in
  let lower min := match ratio_1mbps with
                   | Some r => if f32_lt r min then r else min
                   | None => min
                   end in
  match target with
  | Best => f32_max (lower (f32_div BR_BEST (f32_lit 5 2))) BR_MIN
  | Balanced =>
      f32_max (lower (f32_min (f32_div BR_BALANCED (f32_of_Z 2)) (f32_lit 4 10)))
        BR_MIN_HIGH_RESOLUTION
  | Low | Custom _ => BR_MIN_HIGH_RESOLUTION
  end.

Definition ratio_step (max_delay : Z) (dynamic_screen : bool) (current : f32) : f32 :=
  if max_delay <? 50 then if dynamic_screen then f32_mul current (f32_lit 115 100) else current
  else if max_delay <? 100 then if dynamic_screen then f32_mul current (f32_lit 11 10) else current
  else if max_delay <? DELAY_THRESHOLD_150MS then
    if dynamic_screen then f32_mul current (f32_lit 105 100) else current
  else if max_delay <? 200 then f32_mul current (f32_lit 95 100)
  else if max_delay <? 300 then f32_mul current (f32_lit 9 10)
  else if max_delay <? 500 then f32_mul current (f32_lit 85 100)
  else f32_mul current (f32_lit 8 10).

Definition limit_increase (v current : f32) (rate : Z) : f32 :=
  if 0 <? rate then
    let step := f32_div (f32_mul (f32_of_Z (wrap 32 (rate + 300))) current) (f32_of_Z rate) in
    if f32_lt step v && f32_lt current step && f32_le BR_SPEED current then step else v
  else v.

Definition adjust_ratio (dynamic_screen : bool) (now : Z) (q : VideoQoS) : option VideoQoS :=
  if negb (in_vbr_state q) then Some q else
  match iter_max (map (λ u, avg_delay (delay u.2)) (user_iter (users q))) with
  | None => Some q
  | Some max_delay =>
      let target := latest_quality q in
      let min := ratio_min target (q_ratio q) (bitrate q) in
      let max := f32_mul (quality_ratio target) MAX_BR_MULTIPLE in
      let v := limit_increase (ratio_step max_delay dynamic_screen (q_ratio q))
                 (q_ratio q) (bitrate q) in
      r ← f32_clamp v min max;
      Some {| q_fps := q_fps q; q_ratio := r; users := users q; displays := displays q;
              bitrate_store := bitrate_store q; adjust_ratio_instant := now;
              abr_config := abr_config q; new_user_instant := new_user_instant q |}
  end.

(** The bounds the target quality sets: (minimum, normal) frame rate. *)
Definition quality_fps (target_ratio : f32) : Z * Z :=
  if f32_le BR_BEST target_ratio then (8, 16)
  else if f32_le BR_BALANCED target_ratio then (10, 20)
  else (12, 24).

(** The frame rate that one delay report asks for, and the user's new state:
    the body of [user_network_delay] under [if let Some(user)]. *)
Definition delay_fps_update (min_fps normal_fps highest cur : Z) (d0 : UserDelay) (report : Z)
    : UserDelay :=
  let dividend_ms := DELAY_THRESHOLD_150MS * min_fps in
  let old_avg := avg_delay d0 in
  let d := add_delay d0 (Z.max report 10) in
  let avg := Z.max (avg_delay d) 10 in
  let quick := quick_increase_fps_count d in
  let '(fps, quick) :=
    if avg <? 50 then
      let quick := quick + 1 in
      if 3 <=? quick then (Z.max min_fps (cur + 5), 0)
      else (Z.max min_fps (cur + (if cur <? normal_fps then 1 else 0)), quick)
    else if avg <? 100 then
      let step := if avg <? old_avg then if cur <? normal_fps then 1 else 0 else 0 in
      (Z.max min_fps (cur + step), quick)
    else if avg <? DELAY_THRESHOLD_150MS then (Z.max min_fps cur, quick)
    else
      let devide_fps := f32_ceil_to_u32 (f32_div (f32_of_Z cur)
                          (f32_div (f32_of_Z avg) (f32_of_Z DELAY_THRESHOLD_150MS))) in
      if avg <? 200 then (Z.max min_fps devide_fps, quick)
      else if avg <? 300 then (Z.min min_fps devide_fps, quick)
      else if avg <? 600 then (dividend_ms / avg, quick)
      else (Z.min (dividend_ms / avg) devide_fps, quick) in
  let incr := if avg <? DELAY_THRESHOLD_150MS then increase_fps_count d + 1 else 0 in
  let '(fps, incr) := if 3 <=? incr then (fps + 1, 0) else (fps, incr) in
  let quick := if 50 <? avg then 0 else quick in
  {| response_delayed := response_delayed d; delay_history := delay_history d;
     delay_fps := Some (Zclamp MIN_FPS highest fps); rtt_calculator := rtt_calculator d;
     quick_increase_fps_count := quick; increase_fps_count := incr |}.

Definition user_network_delay (id report now : Z) (q : VideoQoS) : option VideoQoS :=
  let highest := highest_fps q in
  let '(min_fps, normal_fps) := quality_fps (quality_ratio (latest_quality q)) in
  match users q !! id with
  | Some u =>
      let d := delay_fps_update min_fps normal_fps highest (q_fps q) (delay u) report in
      let first := bool_decide (delay_fps (delay u) = None) in
      let q := adjust_fps now (set_users (<[id := with_delay u d]> (users q)) q) in
      if first && negb linux then adjust_ratio false now q else Some q
  | None => Some (adjust_fps now q)
  end.

Definition user_delay_response_elapsed (id elapsed now : Z) (q : VideoQoS) : VideoQoS :=
  match users q !! id with
  | Some u =>
      let delayed := 2000 <? elapsed in
      let d := {| response_delayed := delayed; delay_history := delay_history (delay u);
                  delay_fps := delay_fps (delay u);
                  rtt_calculator := rtt_calculator (delay u);
                  quick_increase_fps_count := quick_increase_fps_count (delay u);
                  increase_fps_count := increase_fps_count (delay u) |} in
      if delayed then
        adjust_fps now (set_users (<[id := with_delay u (add_delay d (wrap 32 elapsed))]> (users q)) q)
      else set_users (<[id := with_delay u d]> (users q)) q
  | None => q
  end.

(** ** Displays *)

Definition new_display (name : string) (q : VideoQoS) : VideoQoS :=
  set_displays (<[name := display_default]> (displays q)) q.

Definition remove_display (name : string) (q : VideoQoS) : VideoQoS :=
  set_displays (delete name (displays q)) q.

Definition update_display_data (name : string) (sent : Z) (now : Z) (q : VideoQoS)
    : option VideoQoS :=
  let q := match displays q !! name with
           | Some d => set_displays (<[name := Build_DisplayData (wrap 64 (send_counter d + sent))
                                         (support_changing_quality d)]> (displays q)) q
           | None => q
           end in
  let q := adjust_fps now q in
  if in_vbr_state q then
    if ADJUST_RATIO_INTERVAL <=? elapsed_secs now (adjust_ratio_instant q) then
      let dynamic_screen := existsb
        (λ d, ADJUST_RATIO_INTERVAL * DYNAMIC_SCREEN_THRESHOLD <=? send_counter d.2)
        (display_iter (displays q)) in
      let q := set_displays ((λ d, Build_DisplayData 0 (support_changing_quality d)) <$> displays q) q in
      adjust_ratio dynamic_screen now q
    else Some q
  else Some (set_ratio (quality_ratio (latest_quality q)) q).

(** ** Events *)

(** The calls other parts of the server make, each with what it reads from the
    environment. *)
Inductive Event :=
| OnConnectionOpen (id : Z) (enable_abr : string) (now : Z)
| OnConnectionClose (id now : Z)
| UserCustomFps (id v : Z)
| UserAutoAdjustFps (id v : Z)
| UserImageQuality (id image_quality time : Z)
| UserRecord (id : Z) (v : bool)
| UserNetworkDelay (id report now : Z)
| UserDelayResponseElapsed (id elapsed now : Z)
| NewDisplay (name : string)
| RemoveDisplay (name : string)
| SetSupportChangingQuality (name : string) (support : bool)
| UpdateDisplayData (name : string) (sent now : Z)
| StoreBitrate (b : Z)
| ReadRatio.

Definition qos_step (e : Event) (q : VideoQoS) : option VideoQoS :=
  match e with
  | OnConnectionOpen id abr now => Some (on_connection_open id abr now q)
  | OnConnectionClose id now => Some (on_connection_close id now q)
  | UserCustomFps id v => Some (user_custom_fps id v q)
  | UserAutoAdjustFps id v => Some (user_auto_adjust_fps id v q)
  | UserImageQuality id v time => user_image_quality id v time q
  | UserRecord id v => Some (user_record id v q)
  | UserNetworkDelay id d now => user_network_delay id d now q
  | UserDelayResponseElapsed id d now => Some (user_delay_response_elapsed id d now q)
  | NewDisplay n => Some (new_display n q)
  | RemoveDisplay n => Some (remove_display n q)
  | SetSupportChangingQuality n b => Some (set_support_changing_quality n b q)
  | UpdateDisplayData n k now => update_display_data n k now q
  | StoreBitrate b => Some (store_bitrate b q)
  | ReadRatio => Some (snd (ratio q))
  end.

Fixpoint qos_run (es : list Event) (q : VideoQoS) : option VideoQoS :=
  match es with
  | [] => Some q
  | e :: es => q' ← qos_step e q; qos_run es q'
  end.
End qos.

(** ** The invariant *)

Definition fps_ok (v : Z) : Prop := MIN_FPS <= v <= MAX_FPS.
Definition opt_fps_ok (o : option Z) : Prop := match o with Some v => fps_ok v | None => True end.

Definition f32_between (lo hi x : f32) : Prop := f32_le lo x = true ∧ f32_le x hi = true.

(** Ratios stay between the lowest minimum and 1.5 times the largest target. *)
Definition BR_CEILING : f32 := f32_of_Z 60.
Definition ratio_ok (r : f32) : Prop := f32_between BR_MIN_HIGH_RESOLUTION BR_CEILING r.

Definition quality_ok (c : Quality) : Prop :=
  match c with Custom v => ∃ k, 0 <= k < 4096 ∧ custom_ratio k = Some v | _ => True end.

(** The incremental bookkeeping of the estimator is that of its window. *)
Definition rtt_ok (c : RttCalculator) : Prop :=
  (length (samples c) <= WINDOW_SAMPLES)%nat ∧ window_min_rtt c = iter_min (samples c).

Definition delay_ok (d : UserDelay) : Prop :=
  (length (delay_history d) <= S HISTORY_DELAY_LEN)%nat ∧ opt_fps_ok (delay_fps d)
  ∧ rtt_ok (rtt_calculator d).

Definition user_ok (u : UserData) : Prop :=
  opt_fps_ok (auto_adjust_fps u) ∧ opt_fps_ok (custom_fps u)
  ∧ match quality u with Some (_, c) => quality_ok c | None => True end
  ∧ delay_ok (delay u).

Definition qos_ok (q : VideoQoS) : Prop :=
  fps_ok (q_fps q) ∧ ratio_ok (q_ratio q) ∧ map_Forall (λ _, user_ok) (users q).

(** ** Lemmas: minima *)

Lemma iter_min_app l x :
  iter_min (l ++ [x]) = Some (match iter_min l with Some m => Z.min m x | None => x end).
Proof.
  induction l as [|y l IH]; [done|]. simpl in *. rewrite IH. f_equal.
  destruct (iter_min l); simpl; lia.
Qed.

Lemma iter_min_Some l m : iter_min l = Some m → In m l ∧ ∀ x, In x l → m <= x.
Proof.
  revert m. induction l as [|y l IH]; [done|]. intros m Hm. simpl in Hm.
  destruct (iter_min l) as [m'|] eqn:E.
  - destruct (IH m' eq_refl) as [Hin Hle]. simplify_eq. split.
    + simpl. destruct (Z.min_spec y m') as [[_ ->]|[_ ->]]; auto.
    + intros x [->|Hx]; [lia|]. specialize (Hle x Hx). lia.
  - simplify_eq. destruct l as [|z l]; [|by destruct (iter_min l); simpl in E].
    split; [by left|]. intros x [->|[]]. lia.
Qed.

Lemma iter_min_cons_Some x l : ∃ m, iter_min (x :: l) = Some m.
Proof. simpl. eauto. Qed.

(** ** Lemmas: the estimator *)

Lemma rtt_update_window c d :
  rtt_ok c →
  let keep := if (WINDOW_SAMPLES <=? length (samples c))%nat then drop 1 (samples c) else samples c in
  samples (rtt_update c d) = keep ++ [d]
  ∧ window_min_rtt (rtt_update c d) = iter_min (keep ++ [d]).
Proof.
  intros [Hlen Hw] keep. unfold rtt_update. rewrite Hw.
  assert (∀ o, match o with Some wm => if d <? wm then Some d else Some wm | None => Some d end
           = Some (match o with Some m => Z.min m d | None => d end)) as Hinc.
  { intros [wm|]; [|done]. destruct (Z.ltb_spec d wm); f_equal; lia. }
  unfold keep. destruct (WINDOW_SAMPLES <=? length (samples c))%nat eqn:EL.
  - destruct (samples c) as [|old rest] eqn:Es; [done|].
    change (drop 1 (old :: rest)) with rest. split; [done|]. cbn [window_min_rtt].
    rewrite Hinc, iter_min_app. case_bool_decide as Hold; [done|]. do 2 f_equal.
    cbn [iter_min foldr] in Hold |- *. fold (iter_min rest) in Hold |- *.
    destruct (iter_min rest) as [m|]; [|done].
    f_equal. destruct (Z.min_spec old m) as [[_ E]|[_ E]]; [|done]. by rewrite E in Hold.
  - split; [done|]. cbn [window_min_rtt]. by rewrite Hinc, iter_min_app.
Qed.

Lemma rtt_update_ok c d : rtt_ok c → rtt_ok (rtt_update c d).
Proof.
  intros Hc. pose proof (rtt_update_window c d Hc) as [Es Ew]. split; [|by rewrite Es].
  rewrite Es, length_app. destruct Hc as [Hlen _]. cbn [length].
  destruct (Nat.leb_spec WINDOW_SAMPLES (length (samples c))); rewrite ?length_drop;
    unfold WINDOW_SAMPLES in *; lia.
Qed.

Lemma add_delay_ok d v : delay_ok d → delay_ok (add_delay d v).
Proof.
  intros (Hl & Hf & Hr). split_and!; [|done|by apply rtt_update_ok].
  cbn [add_delay delay_history]. rewrite length_app. cbn [length].
  destruct (Nat.ltb_spec HISTORY_DELAY_LEN (length (delay_history d))); rewrite ?length_drop; lia.
Qed.

(** ** Lemmas: the ratio *)

Lemma f32_max_lub x y z :
  f32_le x z = true → f32_le y z = true → f32_le (f32_max x y) z = true.
Proof. intros Hx Hy. unfold f32_max. by repeat case_match. Qed.

Definition custom_check (k : Z) : bool :=
  match custom_ratio k with
  | Some v =>
      f32_le BR_MIN_HIGH_RESOLUTION (f32_mul v MAX_BR_MULTIPLE)
      && f32_le (f32_mul v MAX_BR_MULTIPLE) BR_CEILING
      && f32_le BR_MIN_HIGH_RESOLUTION v && f32_le v BR_CEILING
  | None => false
  end.

(** The 4096 custom qualities a client can ask for, checked one by one. *)
Lemma custom_checks k : 0 <= k < 4096 → custom_check k = true.
Proof.
  intros Hk. assert (forallb custom_check (map Z.of_nat (seq 0 4096)) = true) as H
    by (vm_compute; reflexivity).
  rewrite forallb_forall in H. apply H, in_map_iff. exists (Z.to_nat k).
  split; [lia|]. apply in_seq. lia.
Qed.

Lemma convert_quality_ok z : ∃ c, convert_quality z = Some c ∧ quality_ok c.
Proof.
  unfold convert_quality. repeat case_match; try (by eexists).
  set (k := Z.land _ _). assert (0 <= k < 4096) as Hk.
  { unfold k. change 0xFFF with (Z.ones 12). rewrite Z.land_ones by lia.
    by apply Z.mod_pos_bound. }
  pose proof (custom_checks k Hk) as Hc. unfold custom_check in Hc.
  destruct (custom_ratio k) as [v|] eqn:E; [|done]. exists (Custom v). split; [done|].
  by exists k.
Qed.

Lemma quality_bounds c :
  quality_ok c →
  f32_between BR_MIN_HIGH_RESOLUTION BR_CEILING (f32_mul (quality_ratio c) MAX_BR_MULTIPLE)
  ∧ ratio_ok (quality_ratio c).
Proof.
  destruct c as [| | |v]; [by vm_compute..|]. intros (k & Hk & E).
  pose proof (custom_checks k Hk) as Hc. unfold custom_check in Hc. rewrite E in Hc.
  apply andb_prop in Hc as [[[? ?]%andb_prop ?]%andb_prop ?]. by repeat split.
Qed.

Lemma ratio_min_le c cur rate :
  quality_ok c →
  f32_le BR_MIN_HIGH_RESOLUTION (ratio_min c cur rate) = true
  ∧ f32_le (ratio_min c cur rate) (f32_mul (quality_ratio c) MAX_BR_MULTIPLE) = true.
Proof.
  intros Hc. pose proof (quality_bounds c Hc) as [[Hlo _] _].
  unfold ratio_min. cbv zeta. set (o := if 0 <? rate then _ else _).
  assert (∀ m, f32_is_nan m = false →
    f32_le (match o with Some r => if f32_lt r m then r else m | None => m end) m = true) as Hl.
  { intros m Hm. destruct o as [r|]; [|by apply f32_le_refl].
    destruct (f32_lt r m) eqn:E; [by apply f32_lt_le|by apply f32_le_refl]. }
  destruct c as [| | |v]; cbn [quality_ratio] in *.
  - split.
    + apply (f32_le_trans _ BR_MIN); [by vm_compute|]. by apply f32_max_ge.
    + apply f32_max_lub; [|by vm_compute]. eapply f32_le_trans; [by apply Hl|]. by vm_compute.
  - split; [by apply f32_max_ge|]. apply f32_max_lub; [|by vm_compute].
    eapply f32_le_trans; [by apply Hl|]. by vm_compute.
  - by vm_compute.
  - by split.
Qed.

Lemma ratio_step_nan max_delay dyn cur :
  f32_is_nan cur = false → f32_is_nan (ratio_step max_delay dyn cur) = false.
Proof.
  intros Hc. unfold ratio_step. repeat case_match; try done;
  match goal with |- context [f32_lit ?a ?b] =>
    let v := eval vm_compute in (f32_lit a b) in change (f32_lit a b) with v end;
  by apply f32_mul_nan.
Qed.

Lemma limit_increase_nan v cur rate :
  f32_is_nan v = false → f32_is_nan (limit_increase v cur rate) = false.
Proof.
  intros Hv. unfold limit_increase. destruct (0 <? rate); [|done]. cbv zeta.
  destruct (_ && _) eqn:E; [|done].
  apply andb_prop in E as [[E _]%andb_prop _]. by destruct (f32_lt_nan _ _ E).
Qed.

(** ** Lemmas: the controller *)

Section qos_facts.
Context (user_iter : gmap Z UserData → list (Z * UserData)).
Context (display_iter : gmap string DisplayData → list (string * DisplayData)).
Context (linux : bool).
(** The table yields each of its entries once, in some order. *)
Hypothesis user_iter_perm : ∀ m, user_iter m ≡ₚ map_to_list m.

#[local] Abbreviation latest_quality := (latest_quality user_iter).
#[local] Abbreviation highest_fps := (highest_fps user_iter).
#[local] Abbreviation adjust_fps := (adjust_fps user_iter).
#[local] Abbreviation adjust_ratio := (adjust_ratio user_iter display_iter).

Lemma user_iter_In m p : In p (user_iter m) ↔ m !! p.1 = Some p.2.
Proof.
  destruct p as [i u]. rewrite <- elem_of_map_to_list, user_iter_perm. symmetry. apply list_elem_of_In.
Qed.

Lemma user_iter_ok q p : qos_ok q → In p (user_iter (users q)) → user_ok p.2.
Proof. intros (_ & _ & Hu) Hp%user_iter_In. by apply (Hu p.1). Qed.

Lemma latest_quality_ok q : qos_ok q → quality_ok (latest_quality q).
Proof.
  intros Hq. unfold VideoQos.latest_quality. set (qs := omap _ _).
  assert (Forall (λ x : Z * Quality, quality_ok x.2) qs) as Hall.
  { apply Forall_forall. intros [t c] Hx. apply list_elem_of_omap in Hx as (p & Hp & Hc).
    apply list_elem_of_In in Hp. destruct (user_iter_ok q p Hq Hp) as (_ & _ & H & _).
    simpl in Hc. rewrite Hc in H. done. }
  destruct Hall as [|x l Hx Hl]; [done|].
  revert x Hx. induction Hl as [|y l Hy Hl IH]; intros x Hx; [done|].
  simpl. apply IH. by case_match.
Qed.

Lemma zclamp_fps hi x : fps_ok hi → fps_ok (Zclamp MIN_FPS hi x) ∧ Zclamp MIN_FPS hi x <= hi.
Proof. unfold fps_ok, Zclamp, MIN_FPS, MAX_FPS. lia. Qed.

Lemma highest_fps_ok q : fps_ok (highest_fps q).
Proof. apply zclamp_fps. unfold fps_ok, MIN_FPS, MAX_FPS. lia. Qed.

Lemma user_fps_ok u : user_ok u → fps_ok (user_fps u).
Proof.
  intros (Ha & Hc & _). unfold user_fps, opt_fps_ok, fps_ok, FPS, MIN_FPS, MAX_FPS in *.
  destruct (auto_adjust_fps u), (custom_fps u); simpl; repeat case_match; lia.
Qed.

(** No user's frame rate limit is exceeded by [highest_fps]. *)
Lemma highest_fps_cap q i u :
  qos_ok q → users q !! i = Some u → highest_fps q <= user_fps u.
Proof.
  intros Hq Hu. assert (user_ok u) as Huok by by apply (proj2 (proj2 Hq) i).
  pose proof (user_fps_ok u Huok) as [Hlo Hhi]. unfold VideoQos.highest_fps.
  set (l := List.filter _ _).
  assert (In (user_fps u) l) as Hin.
  { apply filter_In. split; [|by apply Z.leb_le].
    apply in_map_iff. exists (i, u). by rewrite user_iter_In. }
  destruct l as [|x l0]; [done|].
  destruct (iter_min_cons_Some x l0) as [m Em]. rewrite Em. change (default _ (Some m)) with m.
  apply iter_min_Some in Em as [_ Hm]. specialize (Hm _ Hin).
  unfold Zclamp, MIN_FPS, MAX_FPS in *. lia.
Qed.

(** What [adjust_fps] guarantees of the frame rate it sets. *)
Lemma adjust_fps_spec now q :
  qos_ok q →
  qos_ok (adjust_fps now q)
  ∧ ∀ i u, users q !! i = Some u →
      q_fps (adjust_fps now q) <= user_fps u
      ∧ q_fps (adjust_fps now q) <= Z.max MIN_FPS (default INIT_FPS (delay_fps (delay u)))
      ∧ (response_delayed (delay u) = true → q_fps (adjust_fps now q) <= 2).
Proof.
  intros Hq. pose proof (highest_fps_ok q) as Hh. split.
  { destruct Hq as (? & ? & ?). split_and!; [by apply zclamp_fps|done|done]. }
  intros i u Hu. pose proof (highest_fps_cap q i u Hq Hu) as Hcap.
  unfold VideoQos.adjust_fps. cbn [q_fps set_fps]. set (l := map _ _).
  assert (In (default INIT_FPS (delay_fps (delay u))) l) as Hin.
  { apply in_map_iff. exists (i, u). by rewrite user_iter_In. }
  assert (response_delayed (delay u) = true →
          existsb (λ u, response_delayed (delay u.2)) (user_iter (users q)) = true) as Hdel.
  { intros Hr. apply existsb_exists. exists (i, u). by rewrite user_iter_In. }
  destruct l as [|x l0]; [done|].
  destruct (iter_min_cons_Some x l0) as [m Em]. rewrite Em. change (default _ (Some m)) with m.
  apply iter_min_Some in Em as [_ Hm]. specialize (Hm _ Hin).
  unfold fps_ok, Zclamp, MIN_FPS, MAX_FPS, INIT_FPS in *.
  split_and!; [| |intros Hr; rewrite (Hdel Hr)]; repeat case_match; lia.
Qed.

Lemma adjust_ratio_spec dyn now q :
  qos_ok q →
  ∃ q', adjust_ratio dyn now q = Some q' ∧ qos_ok q' ∧ q_fps q' = q_fps q ∧ users q' = users q.
Proof.
  intros Hq. unfold VideoQos.adjust_ratio. destruct (negb _); [by eauto|].
  destruct (iter_max _) as [md|]; [|by eauto].
  pose proof (latest_quality_ok q Hq) as Hc. destruct Hq as (Hf & [Hlo Hhi] & Hu).
  destruct (ratio_min_le _ (q_ratio q) (bitrate q) Hc) as [Hm1 Hm2].
  destruct (f32_le_nan _ _ Hhi) as [Hn _].
  set (v := limit_increase _ _ _).
  assert (f32_is_nan v = false) as Hv by by apply limit_increase_nan, ratio_step_nan.
  destruct (f32_clamp_spec v _ _ Hv Hm2) as (r & Er & Hr1 & Hr2).
  rewrite Er. eexists; split; [done|]. split_and!; try done. split_and!; [done| |done].
  split; [by eapply f32_le_trans|]. eapply f32_le_trans; [done|].
  by destruct (quality_bounds _ Hc) as [[_ ?] _].
Qed.

(** Replacing or adding a well-formed user keeps the invariant. *)
Lemma qos_ok_insert q i u : qos_ok q → user_ok u → qos_ok (set_users (<[i := u]> (users q)) q).
Proof. intros (? & ? & ?) ?. split_and!; [done|done|]. by apply map_Forall_insert_2. Qed.

Lemma qos_ok_lookup q i u : qos_ok q → users q !! i = Some u → user_ok u.
Proof. intros (_ & _ & Hu). apply Hu. Qed.

Lemma delay_fps_update_ok min_fps normal hi cur d r :
  fps_ok hi → delay_ok d → delay_ok (delay_fps_update min_fps normal hi cur d r).
Proof.
  intros Hhi Hd. pose proof (add_delay_ok d (Z.max r 10) Hd) as (Hl & _ & Hr).
  unfold delay_fps_update. cbv zeta.
  match goal with |- context [let '(_, _) := ?e in _] => destruct e as [f quick] end.
  match goal with |- context [let '(_, _) := ?e in _] => destruct e as [f' incr] end.
  split_and!; [done| |done]. by apply zclamp_fps.
Qed.

Lemma user_network_delay_spec i r now q :
  qos_ok q →
  ∃ q', user_network_delay user_iter display_iter linux i r now q = Some q' ∧ qos_ok q'
    ∧ let mn := quality_fps (quality_ratio (latest_quality q)) in
      let users' := match users q !! i with
                    | Some u => <[i := with_delay u (delay_fps_update mn.1 mn.2 (highest_fps q)
                                         (q_fps q) (delay u) r)]> (users q)
                    | None => users q
                    end in
      users q' = users' ∧ q_fps q' = q_fps (adjust_fps now (set_users users' q)).
Proof.
  intros Hq. unfold user_network_delay. destruct (quality_fps _) as [mn nm].
  destruct (users q !! i) as [u|] eqn:Hu.
  - pose proof (qos_ok_lookup q i u Hq Hu) as (Ha & Hc & Hql & Hd).
    set (d := delay_fps_update _ _ _ _ _ _).
    assert (delay_ok d) as Hd' by by apply delay_fps_update_ok; [apply highest_fps_ok|].
    assert (qos_ok (set_users (<[i:=with_delay u d]> (users q)) q)) as Hq'
      by by apply qos_ok_insert.
    destruct (adjust_fps_spec now _ Hq') as [Ha' _].
    destruct (_ && _); [|by eauto].
    destruct (adjust_ratio_spec false now _ Ha') as (q' & E & ? & ? & Hus). by eauto.
  - destruct (adjust_fps_spec now _ Hq) as [Ha' _]. eexists; split_and!; try done; by destruct q.
Qed.

Lemma user_delay_response_elapsed_ok i el now q :
  qos_ok q → qos_ok (user_delay_response_elapsed user_iter i el now q).
Proof.
  intros Hq. unfold user_delay_response_elapsed. destruct (users q !! i) as [u|] eqn:Hu; [|done].
  pose proof (qos_ok_lookup q i u Hq Hu) as (Ha & Hc & Hql & Hd).
  destruct (2000 <? el); [|by apply qos_ok_insert].
  apply adjust_fps_spec, qos_ok_insert; [done|]. split_and!; try done.
  cbn [with_delay delay]. by apply (add_delay_ok (Build_UserDelay _ _ _ _ _ _)).
Qed.

Lemma update_display_data_ok n k now q :
  qos_ok q →
  ∃ q', update_display_data user_iter display_iter n k now q = Some q' ∧ qos_ok q'
        ∧ users q' = users q ∧ q_fps q' = q_fps (adjust_fps now q).
Proof.
  intros Hq. unfold update_display_data. cbv zeta.
  set (q1 := match displays q !! n with Some d => _ | None => q end).
  assert (qos_ok q1 ∧ users q1 = users q ∧ q_fps (adjust_fps now q1) = q_fps (adjust_fps now q))
    as (Hq1 & Hus & Hf) by (unfold q1; by case_match).
  destruct (adjust_fps_spec now q1 Hq1) as [Ha _]. rewrite <- Hus, <- Hf.
  destruct (in_vbr_state _ _).
  - case_match; [|by eauto].
    set (q2 := set_displays _ _). assert (qos_ok q2) as Hq2 by done.
    match goal with |- context [adjust_ratio ?b] =>
      destruct (adjust_ratio_spec b now q2 Hq2) as (q' & E & ? & ? & ?) end. eauto.
  - eexists; split_and!; [done| |done|done].
    destruct Ha as (? & ? & ?). split_and!; [done| |done].
    by apply quality_bounds, latest_quality_ok.
Qed.

Lemma ratio_snd_ok q : qos_ok q → qos_ok (ratio q).2.
Proof. intros (? & ? & ?). unfold ratio. by case_match. Qed.

Lemma qos_default_ok now : qos_ok (qos_default now).
Proof. split_and!; [done|by vm_compute|by apply map_Forall_empty]. Qed.

Lemma user_default_ok : user_ok user_default.
Proof. by repeat split; try apply Nat.le_0_l. Qed.

Lemma qos_step_ok e q :
  qos_ok q → ∃ q', qos_step user_iter display_iter linux e q = Some q' ∧ qos_ok q'.
Proof.
  intros Hq. pose proof (proj1 Hq) as Hf.
  destruct e as [i ab now|i now|i v|i v|i v t|i v|i r now|i el now|n|n|n b|n k now|b|];
    cbn [qos_step].
  - eexists; split; [done|]. destruct Hq as (? & ? & ?). split_and!; [done..|].
    apply map_Forall_insert_2; [apply user_default_ok|done].
  - eexists; split; [done|]. unfold on_connection_close.
    case_bool_decide; [apply qos_default_ok|]. destruct Hq as (? & ? & ?). split_and!; [done..|]. by apply map_Forall_delete.
  - eexists; split; [done|]. unfold user_custom_fps. case_match eqn:E; [done|].
    case_match eqn:Hu; [|done]. apply qos_ok_insert; [done|].
    apply (qos_ok_lookup q) in Hu as (? & ? & ? & ?); [|done]. split_and!; try done.
    unfold opt_fps_ok, fps_ok. simpl. lia.
  - eexists; split; [done|]. unfold user_auto_adjust_fps. case_match eqn:E; [done|].
    case_match eqn:Hu; [|done]. apply qos_ok_insert; [done|].
    apply (qos_ok_lookup q) in Hu as (? & ? & ? & ?); [|done]. split_and!; try done.
    unfold opt_fps_ok, fps_ok. simpl. lia.
  - unfold user_image_quality. destruct (convert_quality_ok v) as (c & -> & Hc).
    simpl. eexists; split; [done|]. case_match eqn:Hu; [|done].
    apply (qos_ok_lookup q) in Hu as (? & ? & ? & ?); [|done].
    set (q1 := set_users _ q). assert (qos_ok q1) as Hq1 by by apply qos_ok_insert.
    pose proof (latest_quality_ok q1 Hq1). destruct Hq1 as (? & ? & ?).
    split_and!; [done| |done]. by apply quality_bounds.
  - eexists; split; [done|]. unfold user_record. case_match eqn:Hu; [|done].
    apply qos_ok_insert; [done|]. by apply (qos_ok_lookup q) in Hu.
  - destruct (user_network_delay_spec i r now q Hq) as (q' & E & ? & _). eauto.
  - eauto using user_delay_response_elapsed_ok.
  - by eexists.
  - by eexists.
  - eexists; split; [done|]. unfold set_support_changing_quality. by case_match.
  - destruct (update_display_data_ok n k now q Hq) as (q' & E & ? & _). eauto.
  - by eexists.
  - eexists; split; [done|]. by apply ratio_snd_ok.
Qed.

Lemma qos_run_ok es q :
  qos_ok q → ∃ q', qos_run user_iter display_iter linux es q = Some q' ∧ qos_ok q'.
Proof.
  revert q. induction es as [|e es IH]; intros q Hq; [by eauto|].
  destruct (qos_step_ok e q Hq) as (q1 & E & Hq1). simpl. rewrite E. simpl. by apply IH.
Qed.

(** The 120 frame intervals. *)
Lemma spf_bounds q :
  fps_ok (q_fps q) → ∃ ns, spf q = Some ns ∧ 8333333 <= ns <= 10 ^ 9.
Proof.
  intros Hf. assert (forallb (λ k, match duration_from_secs_f32 (f32_div (f32_of_Z 1) (f32_of_Z k)) with
                           | Some ns => (8333333 <=? ns) && (ns <=? 10 ^ 9) | None => false end)
            (map Z.of_nat (seq 1 120)) = true) as H by (vm_compute; reflexivity).
  rewrite forallb_forall in H. unfold fps_ok, MIN_FPS, MAX_FPS in Hf.
  specialize (H (q_fps q)).
  assert (In (q_fps q) (map Z.of_nat (seq 1 120))) as Hin.
  { apply in_map_iff. exists (Z.to_nat (q_fps q)). split; [lia|]. apply in_seq. lia. }
  specialize (H Hin). unfold spf, fps, MIN_FPS, MAX_FPS.
  destruct (Z.leb_spec 1 (q_fps q)); [|lia]. destruct (Z.leb_spec (q_fps q) 120); [|lia].
  cbn [andb]. destruct (duration_from_secs_f32 _) as [ns|]; [|done].
  exists ns. split; [done|]. lia.
Qed.

(** What a congested user's own frame rate becomes. *)
Lemma delay_fps_update_congested min_fps normal hi cur d r :
  fps_ok hi → 8 <= min_fps <= 12 →
  let avg := Z.max (avg_delay (add_delay d (Z.max r 10))) 10 in
  200 <= avg →
  ∃ f, delay_fps (delay_fps_update min_fps normal hi cur d r) = Some f
    ∧ f <= min_fps ∧ (300 <= avg → f <= Z.max 1 (150 * min_fps / avg)).
Proof.
  intros Hhi Hm avg Hav. unfold delay_fps_update. fold avg. cbv zeta.
  replace (avg <? 50) with false by lia. replace (avg <? 100) with false by lia.
  unfold DELAY_THRESHOLD_150MS in *.
  replace (avg <? 150) with false by lia. replace (avg <? 200) with false by lia.
  set (dv := f32_ceil_to_u32 _).
  assert (300 <= avg → 150 * min_fps / avg <= min_fps) as Hq.
  { intros. apply Z.div_le_upper_bound; nia. }
  destruct (Z.ltb_spec avg 300); [|destruct (Z.ltb_spec avg 600)]; (eexists; split; [reflexivity|]);
    unfold Zclamp, fps_ok, MIN_FPS, MAX_FPS in *; lia.
Qed.

Lemma quality_fps_range r : 8 <= (quality_fps r).1 <= 12.
Proof. unfold quality_fps. repeat case_match; simpl; lia. Qed.

(** ** Properties *)

(** C34: the controller never panics and never leaves its ranges.  Whatever the
    clients report, in whatever order, every call returns (the [clamp] of the
    ratio has its bounds in order, so it does not panic), the frame rate stays
    in 1..120, hence the frame interval is defined and between 8.3 ms and one
    second, the ratio stays in [0.1, 60], and the per-user histories are bounded
    by 9 delays and 60 round-trip samples. *)
Theorem qos_run_safe es now :
  ∃ q, qos_run user_iter display_iter linux es (qos_default now) = Some q
    ∧ 1 <= q_fps q <= 120
    ∧ (∃ ns, spf q = Some ns ∧ 8333333 <= ns <= 10 ^ 9)
    ∧ f32_between BR_MIN_HIGH_RESOLUTION BR_CEILING (q_ratio q)
    ∧ f32_between BR_MIN_HIGH_RESOLUTION BR_MAX (ratio q).1
    ∧ map_Forall (λ _ u, (length (delay_history (delay u)) <= 9)%nat
                         ∧ (length (samples (rtt_calculator (delay u))) <= 60)%nat) (users q).
Proof.
  destruct (qos_run_ok es (qos_default now) (qos_default_ok now)) as (q & E & Hq).
  exists q. split; [done|]. destruct Hq as (Hf & Hr & Hu). split_and!.
  - apply Hf.
  - apply Hf.
  - by apply spf_bounds.
  - apply Hr.
  - destruct Hr as [Hlo Hhi]. unfold ratio. destruct (f32_le_nan _ _ Hhi) as [Hn _].
    destruct (_ || _) eqn:Eo; [by vm_compute|]. apply orb_false_iff in Eo as [_ Eo].
    split; [done|]. by apply f32_not_lt.
  - intros i u (_ & _ & _ & ? & _ & ? & _)%Hu. done.
Qed.

(** The frame rate respects every user.  After any delay report or
    display update the controller's frame rate is at most the limit each
    connected user asked for, at most the rate each user's own connection
    supports, and at most 2 while any user has an unanswered delay probe. *)
Lemma fps_respects_users e q q' :
  qos_ok q →
  (∃ i r now, e = UserNetworkDelay i r now) ∨ (∃ n k now, e = UpdateDisplayData n k now) →
  qos_step user_iter display_iter linux e q = Some q' →
  ∀ i u, users q' !! i = Some u →
    q_fps q' <= user_fps u
    ∧ q_fps q' <= Z.max 1 (default 30 (delay_fps (delay u)))
    ∧ (response_delayed (delay u) = true → q_fps q' <= 2).
Proof.
  intros Hq [(i & r & now & ->)|(n & k & now & ->)] E j u Hu; cbn [qos_step] in E.
  - destruct (user_network_delay_spec i r now q Hq) as (q1 & E1 & Hq1 & Hus & Hf).
    rewrite E in E1. apply (inj Some) in E1 as <-. rewrite Hf. rewrite <- Hus.
    assert (qos_ok (set_users (users q') q)) as Hq2.
    { destruct Hq as (? & ? & ?), Hq1 as (? & ? & ?). done. }
    by apply (proj2 (adjust_fps_spec now _ Hq2) j).
  - destruct (update_display_data_ok n k now q Hq) as (q1 & E1 & Hq1 & Hus & Hf).
    rewrite E in E1. apply (inj Some) in E1 as <-. rewrite Hf. rewrite Hus in Hu.
    by apply (proj2 (adjust_fps_spec now _ Hq) j).
Qed.

(** Congestion lowers the frame rate.  When the average of a user's recent
    delays (less the round-trip time) reaches 200 ms, the report that brings it
    there leaves the controller at no more than the minimum rate of the current
    quality (8, 10 or 12), and from 300 ms on at no more than that minimum
    scaled down by the delay. *)
Lemma congestion_caps_fps i r now q u :
  qos_ok q → users q !! i = Some u →
  let avg := Z.max (avg_delay (add_delay (delay u) (Z.max r 10))) 10 in
  let min_fps := (quality_fps (quality_ratio (latest_quality q))).1 in
  200 <= avg →
  ∃ q', user_network_delay user_iter display_iter linux i r now q = Some q'
    ∧ q_fps q' <= min_fps ∧ (300 <= avg → q_fps q' <= Z.max 1 (150 * min_fps / avg)).
Proof.
  intros Hq Hu avg min_fps Hav.
  destruct (user_network_delay_spec i r now q Hq) as (q' & E & Hq' & Hus & Hf).
  rewrite Hu in Hus, Hf. exists q'. split; [done|].
  destruct (delay_fps_update_congested min_fps
              (quality_fps (quality_ratio (latest_quality q))).2 (highest_fps q) (q_fps q)
              (delay u) r (highest_fps_ok q) (quality_fps_range _) Hav) as (f & Ef & Hf1 & Hf2).
  assert (q_fps q' <= Z.max 1 f) as Hle.
  { rewrite Hf, <- Hus. set (q2 := set_users (users q') q).
    assert (qos_ok q2) as Hq2 by (destruct Hq as (? & ? & ?), Hq' as (? & ? & ?); done).
    assert (users q2 !! i = Some (with_delay u (delay_fps_update min_fps
              (quality_fps (quality_ratio (latest_quality q))).2 (highest_fps q) (q_fps q)
              (delay u) r))) as Hl.
    { cbn [q2 users set_users]. rewrite Hus. by simplify_map_eq. }
    pose proof (proj2 (adjust_fps_spec now q2 Hq2) _ _ Hl) as (_ & H & _).
    cbn [delay with_delay] in H. rewrite Ef in H. done. }
  pose proof (quality_fps_range (quality_ratio (latest_quality q))). fold min_fps in H.
  split; [lia|]. intros Hav'. specialize (Hf2 Hav').
  etrans; [exact Hle|]. apply Z.max_lub; [apply Z.le_max_l|exact Hf2].
Qed.

End qos_facts.

(** The incremental estimator computes what a full scan would.  After any
    sequence of delay samples the window holds the last sixty of them, the
    window minimum is their minimum and the historical minimum is the minimum
    of all samples ever seen. *)
Lemma rtt_window_is_scan ds :
  let c := foldl rtt_update rtt_default ds in
  samples c = drop (length ds - 60) ds
  ∧ window_min_rtt c = iter_min (drop (length ds - 60) ds)
  ∧ min_rtt c = iter_min ds.
Proof.
  induction ds as [|d ds IH] using rev_ind; [done|].
  rewrite foldl_app. cbn [foldl]. set (c := foldl rtt_update rtt_default ds) in *.
  destruct IH as (Hs & Hw & Hm).
  assert (rtt_ok c) as Hc.
  { split; [|by rewrite Hs]. rewrite Hs, length_drop. unfold WINDOW_SAMPLES. lia. }
  destruct (rtt_update_window c d Hc) as [Es Ew].
  assert ((if (WINDOW_SAMPLES <=? length (samples c))%nat then drop 1 (samples c) else samples c)
          ++ [d] = drop (length (ds ++ [d]) - 60) (ds ++ [d])) as E.
  { rewrite Hs, length_drop, length_app. cbn [length]. unfold WINDOW_SAMPLES.
    rewrite drop_app_le by lia. f_equal.
    destruct (Nat.leb_spec 60 (length ds - (length ds - 60))).
    - rewrite drop_drop. f_equal. lia.
    - f_equal. lia. }
  rewrite <- E. split_and!; [done|done|]. rewrite iter_min_app, <- Hm.
  unfold rtt_update.
  match goal with |- context [let '(_, _) := ?e in _] => destruct e as [s1 w1] end.
  cbn [min_rtt]. destruct (min_rtt c) as [m|]; [|done].
  destruct (Z.ltb_spec d m); f_equal; lia.
Qed.

(** ** The cap is not the ceiling

    [adjust_ratio] may climb to 1.5 times the target, but [ratio] treats
    anything above [BR_MAX] as invalid and falls back to the balanced ratio: a
    user who asked for the best custom quality on a fast link gets, on the next
    read, a ratio fifty times lower. *)

Definition overshoot_events : list Event :=
  [NewDisplay "v"; SetSupportChangingQuality "v" true; OnConnectionOpen 1 "" 0;
   UserImageQuality 1 (2000 * 256) 5; StoreBitrate 4000; UserNetworkDelay 1 20 100;
   UpdateDisplayData "v" 10 3000000000].

Lemma ratio_overshoot_collapses :
  ∃ q, qos_run map_to_list map_to_list false overshoot_events (qos_default 0) = Some q
    ∧ latest_quality map_to_list q = Custom BR_MAX
    ∧ f32_lt BR_MAX (q_ratio q) = true ∧ (ratio q).1 = BR_BALANCED.
Proof. eexists. split; [vm_compute; reflexivity|]. by vm_compute. Qed.

(** ** Witnesses *)

Definition sample_qos : VideoQoS :=
  default (qos_default 0)
    (qos_run map_to_list map_to_list false
       [OnConnectionOpen 1 "" 0; UserCustomFps 1 24] (qos_default 0)).

Lemma map_to_list_order (m : gmap Z UserData) : map_to_list m ≡ₚ map_to_list m.
Proof. done. Qed.

Lemma sample_qos_ok : qos_ok sample_qos.
Proof.
  destruct (qos_run_ok map_to_list map_to_list false map_to_list_order
              [OnConnectionOpen 1 "" 0; UserCustomFps 1 24] (qos_default 0) (qos_default_ok 0))
    as (q & E & Hq).
  unfold sample_qos. by rewrite E.
Qed.

Lemma qos_run_safe_witness :
  ∃ q, qos_run map_to_list map_to_list false overshoot_events (qos_default 0) = Some q
    ∧ 1 <= q_fps q <= 120.
Proof.
  destruct (qos_run_safe map_to_list map_to_list false map_to_list_order overshoot_events 0)
    as (q & E & Hf & _). eauto.
Defined.

Lemma fps_respects_users_witness :
  ∃ q' u, qos_step map_to_list map_to_list false (UserNetworkDelay 1 20 5000000000) sample_qos
            = Some q'
    ∧ users q' !! 1 = Some u ∧ q_fps q' <= user_fps u ∧ q_fps q' = 24.
Proof.
  eexists _, _. split; [vm_compute; reflexivity|]. split; [vm_compute; reflexivity|].
  split; [|vm_compute; reflexivity].
  eapply (fps_respects_users map_to_list map_to_list false map_to_list_order
           (UserNetworkDelay 1 20 5000000000) sample_qos _ sample_qos_ok) with (i := 1).
  - left. by eexists _, _, _.
  - vm_compute. reflexivity.
  - vm_compute. reflexivity.
Defined.

Lemma congestion_caps_fps_witness :
  ∃ q', user_network_delay map_to_list map_to_list false 1 450 5000000000 sample_qos = Some q'
    ∧ q_fps q' <= 10.
Proof.
  destruct (congestion_caps_fps map_to_list map_to_list false map_to_list_order
              1 450 5000000000 sample_qos
              (default user_default (users sample_qos !! 1)) sample_qos_ok)
    as (q' & E & H & _); [vm_compute; reflexivity|vm_compute; congruence|].
  exists q'. split; [exact E|]. etrans; [exact H|]. vm_compute. congruence.
Defined.
