(* ===== verification/Version.v ===== *)
(** * Version numbers and peer capabilities

    [get_version_number] of [libs/hbb_common/src/lib.rs] and the capability
    checks of [src/common.rs] built on it.  Arithmetic is [i64], wrapping. *)

From S2P Require Import Prelude Strs.
From Stdlib Require Import Ascii String.

Local Open Scope string_scope.
Local Open Scope Z_scope.
#[local] Abbreviation length := Datatypes.length.
#[local] Arguments String.append _ _ : simpl nomatch.

Definition i64 (z : Z) : Z := swrap 64 z.

(** The loop over the dotted parts: the number so far and the last part. *)
Definition version_step (acc : Z * Z) (x : string) : Z * Z :=
  let last := default 0 (parse_i64 x) in
  (i64 (i64 (acc.1 * 1000) + last), last).

Definition get_version_number (v : string) : Z :=
  match split_on "-" v with
  | [] => 0
  | main :: rest =>
      let '(n, last) := foldl version_step (0, 0) (split_on "." main) in
      let n := i64 (n - last) in
      let n := i64 (n + i64 (last * 10)) in
      match rest with
      | patch :: _ => i64 (n + default 0 (parse_i64 patch))
      | [] => n
      end
  end.

(** ** Capabilities *)

Definition MIN_VER_MULTI_UI_SESSION : string := "1.2.4".
Definition MIN_VERSION_RELATIVE_MOUSE_MODE : string := "1.4.5".

Definition at_least (min : string) (ver : Z) : bool := get_version_number min <=? ver.

Definition is_support_multi_ui_session_num (ver : Z) : bool := at_least MIN_VER_MULTI_UI_SESSION ver.
Definition is_support_multi_ui_session (ver : string) : bool :=
  is_support_multi_ui_session_num (get_version_number ver).
Definition is_support_file_copy_paste_num (ver : Z) : bool := at_least "1.3.8" ver.
Definition is_support_file_copy_paste (ver : string) : bool :=
  is_support_file_copy_paste_num (get_version_number ver).
Definition is_support_remote_print (ver : string) : bool := at_least "1.3.9" (get_version_number ver).
Definition is_support_file_paste_if_macos (ver : string) : bool :=
  at_least "1.3.9" (get_version_number ver).
Definition is_support_screenshot_num (ver : Z) : bool := at_least "1.4.0" ver.
(** As the source has it, through the multi-session check. *)
Definition is_support_screenshot (ver : string) : bool :=
  is_support_multi_ui_session_num (get_version_number ver).
Definition is_support_file_transfer_resume_num (ver : Z) : bool := at_least "1.4.2" ver.
Definition is_support_file_transfer_resume (ver : string) : bool :=
  is_support_file_transfer_resume_num (get_version_number ver).
Definition is_support_relative_mouse_mode_num (ver : Z) : bool :=
  at_least MIN_VERSION_RELATIVE_MOUSE_MODE ver.
Definition is_support_relative_mouse_mode (ver : string) : bool :=
  is_support_relative_mouse_mode_num (get_version_number ver).
(** [libs/hbb_common/src/fs.rs] *)
Definition can_enable_overwrite_detection (version : Z) : bool := at_least "1.1.10" version.

Inductive KeyboardMode := Legacy | Map | Translate | Auto.

Definition PLATFORM_ANDROID : string := "Android".

(** [to_lowercase] on a platform name, whose letters are ASCII. *)
Definition is_keyboard_mode_supported (mode : KeyboardMode) (ver : Z) (platform : string) : bool :=
  match mode with
  | Legacy => true
  | Map => if String.eqb (to_lower platform) (to_lower PLATFORM_ANDROID) then false
           else at_least "1.2.0" ver
  | Translate | Auto => at_least "1.2.0" ver
  end.

Definition get_supported_keyboard_modes (ver : Z) (platform : string) : list KeyboardMode :=
  List.filter (λ m, is_keyboard_mode_supported m ver platform) [Legacy; Map; Translate; Auto].

(** [str2color] *)
Definition color_hash (bytes : list Z) : Z :=
  foldl (λ hash b, wrap 32 (b + wrap 32 (wrap 32 (Z.shiftl hash 5) - hash))) 0 bytes.
Definition str2color (bytes : list Z) (alpha : Z) : Z :=
  let hash := color_hash bytes mod 16777216 in
  Z.lor (wrap 32 (Z.shiftl alpha 24)) (Z.land hash 0xFF7FFF).

(** ** Lemmas *)

(** A released version: three numbers and an optional patch. *)
Definition show_version (a b c : Z) (patch : option Z) : string :=
  (show_Z a ++ "." ++ show_Z b ++ "." ++ show_Z c
   ++ match patch with Some p => "-" ++ show_Z p | None => "" end)%string.

Definition version_value (a b c p : Z) : Z := ((a * 1000 + b) * 1000 + c * 10) + p.

Lemma i64_small z : 0 <= z < 2 ^ 62 → i64 z = z.
Proof. intros H. apply swrap_small; [lia|]. unfold sint. lia. Qed.

Lemma parse_i64_show n : 0 <= n < 2 ^ 40 → parse_i64 (show_Z n) = Some n.
Proof. intros H. apply parse_show_Z; lia. Qed.

Lemma split_dots a b c :
  0 <= a → 0 <= b → 0 <= c →
  split_on "." (show_Z a ++ "." ++ show_Z b ++ "." ++ show_Z c)%string = [show_Z a; show_Z b; show_Z c].
Proof.
  intros. cbn [String.append]. rewrite !split_on_app by (by apply show_Z_no_char).
  by rewrite split_on_none by (by apply show_Z_no_char).
Qed.

Lemma split_dash a b c patch :
  0 <= a → 0 <= b → 0 <= c → 0 <= default 0 patch →
  split_on "-" (show_version a b c patch) =
  (show_Z a ++ "." ++ show_Z b ++ "." ++ show_Z c)%string
  :: match patch with Some p => [show_Z p] | None => [] end.
Proof.
  intros Ha Hb Hc Hp. unfold show_version.
  assert (contains_char "-" (show_Z a ++ "." ++ show_Z b ++ "." ++ show_Z c) = false) as Hm.
  { rewrite !contains_char_app. by rewrite !show_Z_no_char by done. }
  destruct patch as [p|]; simpl in Hp |- *.
  - replace (show_Z a ++ _)%string with
      ((show_Z a ++ "." ++ show_Z b ++ "." ++ show_Z c) ++ String "-" (show_Z p))%string.
    + rewrite split_on_app by done. by rewrite split_on_none by (by apply show_Z_no_char).
    + by rewrite <- !string_app_assoc.
  - rewrite string_app_nil_r. by rewrite split_on_none.
Qed.

(** Drop the wraps from the inside out. *)
Ltac i64_eval :=
  repeat match goal with
  | |- context [i64 ?x] =>
      lazymatch x with context [i64 _] => fail | _ => rewrite (i64_small x) by lia end
  end.

Lemma version_number_value a b c patch :
  0 <= a < 2 ^ 20 → 0 <= b < 2 ^ 20 → 0 <= c < 2 ^ 20 → 0 <= default 0 patch < 2 ^ 20 →
  get_version_number (show_version a b c patch) = version_value a b c (default 0 patch).
Proof.
  intros Ha Hb Hc Hp. unfold get_version_number. rewrite split_dash by lia.
  rewrite split_dots by lia. cbn [foldl version_step fst snd]. unfold version_step. cbn [fst snd].
  rewrite !parse_i64_show by lia. cbn [default from_option id].
  unfold version_value. destruct patch as [p|]; cbn [from_option id] in Hp |- *.
  - rewrite parse_i64_show by lia. cbn [from_option id]. i64_eval. lia.
  - i64_eval. lia.
Qed.

(** ** Properties *)

(** Version numbers order versions.  For released versions (second part
    below 1000, third below 100, patch below 10) comparing the numbers
    [get_version_number] computes is comparing the versions part by part, a
    missing patch counting as 0; so every "at least version" check is exact. *)
Lemma version_order a b c p a' b' c' p' :
  0 <= a < 2 ^ 20 → 0 <= b < 1000 → 0 <= c < 100 → 0 <= default 0 p < 10 →
  0 <= a' < 2 ^ 20 → 0 <= b' < 1000 → 0 <= c' < 100 → 0 <= default 0 p' < 10 →
  get_version_number (show_version a b c p) <= get_version_number (show_version a' b' c' p')
  ↔ a < a' ∨ a = a' ∧ (b < b' ∨ b = b' ∧ (c < c' ∨ c = c' ∧ default 0 p <= default 0 p')).
Proof.
  intros. rewrite !version_number_value by lia. unfold version_value.
  set (q := default 0 p) in *. set (q' := default 0 p') in *. clearbody q q'. lia.
Qed.

(** The bounds are sharp: a third part of 100 reads as the next minor version. *)
Lemma version_carry : get_version_number "1.2.100" = get_version_number "1.3.0".
Proof. reflexivity. Qed.

(** The documented example 1.2.3 is 1002030. *)
Lemma version_example :
  get_version_number "1.1.10" = 1001100 ∧ get_version_number "1.2.3" = 1002030.
Proof. split; reflexivity. Qed.

(** A peer from before screenshots were added is taken to support them. *)
Lemma screenshot_check_too_weak :
  is_support_screenshot "1.3.9" = true
  ∧ is_support_screenshot_num (get_version_number "1.3.9") = false.
Proof. split; reflexivity. Qed.

(** ** Witnesses *)

Lemma version_order_witness :
  get_version_number "1.3.9" <= get_version_number "1.4.0-2".
Proof.
  apply (version_order 1 3 9 None 1 4 0 (Some 2)); simpl; lia.
Defined.
