(* ===== verification/Vfs.v ===== *)
(** * A file system

    The part of [std::fs] and [std::path] the file transfer uses, on Unix: path
    components and joining, name resolution that follows symbolic links (at most
    forty, as Linux does), and the operations on directories and open files.
    A path is a string, a location the list of names from the root; a file's
    contents live in an inode, so that a handle stays valid when its path is
    renamed.  Permissions and devices that fail are outside the model. *)

From S2P Require Import Prelude Strs.
From Stdlib Require Import Ascii String.

Local Open Scope string_scope.
#[local] Abbreviation length := Datatypes.length.

#[local] Arguments String.append _ _ : simpl nomatch.

(** ** Paths *)

Inductive Component := RootDir | CurDir | ParentDir | Normal (s : string).

#[global] Instance Component_eq_dec : EqDecision Component.
Proof. solve_decision. Defined.

Definition part_component (s : string) : list Component :=
  if is_empty s || bool_decide (s = ".") then []
  else if bool_decide (s = "..") then [ParentDir] else [Normal s].

(** [Path::components]: repeated separators and inner dots vanish. *)
Definition components (p : string) : list Component :=
  if starts_with "/" p then RootDir :: mjoin (map part_component (split_on "/" p))
  else match split_on "/" p with
       | s :: rest =>
           (if bool_decide (s = ".") then [CurDir] else part_component s)
           ++ mjoin (map part_component rest)
       | [] => []
       end.

(** [Path::join]: an absolute second path replaces the first. *)
Definition path_join (base name : string) : string :=
  if starts_with "/" name then name
  else if is_empty base || ends_with "/" base then base ++ name
  else base ++ "/" ++ name.

(** [Path::file_name] *)
Definition path_file_name (p : string) : option string :=
  match last (components p) with Some (Normal s) => Some s | _ => None end.

(** [Path::parent], as components. *)
Definition parent_components (cs : list Component) : option (list Component) :=
  match last cs with
  | None | Some RootDir => None
  | Some _ => Some (removelast cs)
  end.

(** ** The tree *)

Inductive errno :=
| ENOENT | ENOTDIR | EISDIR | EEXIST | ELOOP | ENOTEMPTY | EINVAL | EBADF.

#[global] Instance errno_eq_dec : EqDecision errno.
Proof. solve_decision. Defined.

#[global] Instance list_string_countable : Countable (list string) := _.

Notation loc := (list string).

(** Modification times are nanoseconds since the epoch. *)
Inductive Node :=
| NFile (ino : nat)
| NDir (mtime : Z)
| NLink (target : string) (mtime : Z).

#[global] Instance Node_eq_dec : EqDecision Node.
Proof. solve_decision. Defined.

Record Inode := { i_data : list Z; i_mtime : Z }.

Record vfs := {
  tree : gmap loc Node;
  inodes : gmap nat Inode;
  next_ino : nat;
  clock : Z;
}.

Definition set_tree (t : gmap loc Node) (v : vfs) : vfs :=
  Build_vfs t (inodes v) (next_ino v) (clock v).
Definition set_inodes (i : gmap nat Inode) (v : vfs) : vfs :=
  Build_vfs (tree v) i (next_ino v) (clock v).

Definition node_at (v : vfs) (l : loc) : option Node :=
  match l with [] => Some (NDir 0%Z) | _ => tree v !! l end.

Definition is_link (n : option Node) : bool :=
  match n with Some (NLink _ _) => true | _ => false end.
Definition is_dir_node (n : option Node) : bool :=
  match n with Some (NDir _) => true | _ => false end.

(** Resolution from the directory [cur], following links; the last name need
    not exist. *)
Fixpoint resolve (links : nat) (v : vfs) : loc → list Component → result errno loc :=
  fix walk (cur : loc) (cs : list Component) {struct cs} : result errno loc :=
    match cs with
    | [] => Ok cur
    | RootDir :: cs => walk [] cs
    | CurDir :: cs => walk cur cs
    | ParentDir :: cs => walk (removelast cur) cs
    | Normal s :: cs =>
        let p := cur ++ [s] in
        match node_at v p with
        | Some (NLink t _) =>
            match links with
            | O => Err ELOOP
            | S links => resolve links v cur (components t ++ cs)%list
            end
        | Some (NDir _) => walk p cs
        | Some (NFile _) => match cs with [] => Ok p | _ => Err ENOTDIR end
        | None => match cs with [] => Ok p | _ => Err ENOENT end
        end
    end%list.

Definition MAX_LINKS : nat := 40.

(** Relative paths start at the root: the working directory of the process. *)
Definition resolve_cs (v : vfs) (cs : list Component) : result errno loc :=
  match cs with [] => Err ENOENT | _ => resolve MAX_LINKS v [] cs end.

Definition stat_cs (v : vfs) (cs : list Component) : result errno (loc * Node) :=
  l ← resolve_cs v cs;
  match node_at v l with Some n => Ok (l, n) | None => Err ENOENT end.

(** [symlink_metadata] on components: the last name is not followed. *)
Definition lstat_cs (v : vfs) (cs : list Component) : result errno (loc * Node) :=
  match last cs with
  | Some (Normal s) =>
      up ← resolve MAX_LINKS v [] (removelast cs);
      match node_at v up with
      | Some (NDir _) =>
          match node_at v (up ++ [s])%list with
          | Some n => Ok ((up ++ [s])%list, n)
          | None => Err ENOENT
          end
      | Some _ => Err ENOTDIR
      | None => Err ENOENT
      end
  | _ => stat_cs v cs
  end.

(** A trailing separator asks for a directory. *)
Definition stat (v : vfs) (p : string) : result errno (loc * Node) :=
  ln ← stat_cs v (components p);
  if ends_with "/" p && negb (is_dir_node (Some ln.2)) then Err ENOTDIR else Ok ln.

Definition lstat (v : vfs) (p : string) : result errno (loc * Node) := lstat_cs v (components p).

Definition path_exists (v : vfs) (p : string) : bool := is_ok (stat v p).
Definition path_is_dir (v : vfs) (p : string) : bool :=
  match stat v p with Ok (_, NDir _) => true | _ => false end.
Definition path_is_file (v : vfs) (p : string) : bool :=
  match stat v p with Ok (_, NFile _) => true | _ => false end.

Definition node_len (v : vfs) (n : Node) : Z :=
  match n with
  | NFile i => match inodes v !! i with Some d => Z.of_nat (length (i_data d)) | None => 0%Z end
  | NDir _ => 0%Z
  | NLink t _ => Z.of_nat (str_len t)
  end.

Definition node_mtime (v : vfs) (n : Node) : Z :=
  match n with
  | NFile i => match inodes v !! i with Some d => i_mtime d | None => 0%Z end
  | NDir m | NLink _ m => m
  end.

(** ** Directories *)

Definition mkdir_cs (v : vfs) (cs : list Component) : result errno vfs :=
  match lstat_cs v cs with
  | Ok _ => Err EEXIST
  | Err ENOENT =>
      match last cs with
      | Some (Normal s) =>
          up ← resolve MAX_LINKS v [] (removelast cs);
          if is_dir_node (node_at v up)
          then Ok (set_tree (<[(up ++ [s])%list := NDir (clock v)]> (tree v)) v)
          else Err ENOENT
      | _ => Err ENOENT
      end
  | Err e => Err e
  end.

Definition is_dir_cs (v : vfs) (cs : list Component) : bool :=
  match stat_cs v cs with Ok (_, NDir _) => true | _ => false end.

(** [create_dir_all]; the components come reversed, so that the parent of the
    path is the tail.  The directories made before a failure stay. *)
Fixpoint create_dir_all_rev (v : vfs) (rcs : list Component) : result errno unit * vfs :=
  match rcs with
  | [] => (Ok tt, v)
  | c :: up =>
      let cs := rev rcs in
      match mkdir_cs v cs with
      | Ok v' => (Ok tt, v')
      | Err ENOENT =>
          match create_dir_all_rev v up with
          | (Ok _, v1) =>
              match mkdir_cs v1 cs with
              | Ok v2 => (Ok tt, v2)
              | Err e => (if is_dir_cs v1 cs then Ok tt else Err e, v1)
              end
          | (Err e, v1) => (Err e, v1)
          end
      | Err e => (if is_dir_cs v cs then Ok tt else Err e, v)
      end
  end.

Definition create_dir_all (v : vfs) (cs : list Component) : result errno unit * vfs :=
  create_dir_all_rev v (rev cs).

(** [remove_file]: unlink, which does not follow a final link. *)
Definition remove_file_at (v : vfs) (p : string) : result errno vfs :=
  ln ← lstat v p;
  match ln with
  | (l, NDir _) => Err EISDIR
  | (l, _) => if ends_with "/" p then Err ENOTDIR else Ok (set_tree (delete l (tree v)) v)
  end.

Definition has_child (v : vfs) (l : loc) : bool :=
  existsb (λ k, bool_decide (removelast k = l ∧ k ≠ [])) (map fst (map_to_list (tree v))).

(** [remove_dir]: only an empty directory. *)
Definition remove_dir_at (v : vfs) (p : string) : result errno vfs :=
  ln ← lstat v p;
  match ln with
  | ([], NDir _) => Err EINVAL
  | (l, NDir _) => if has_child v l then Err ENOTEMPTY else Ok (set_tree (delete l (tree v)) v)
  | _ => Err ENOTDIR
  end.

(** The location a rename creates: its parent must be a directory. *)
Definition dest_cs (v : vfs) (cs : list Component) : result errno loc :=
  match last cs with
  | Some (Normal s) =>
      up ← resolve MAX_LINKS v [] (removelast cs);
      match node_at v up with
      | Some (NDir _) => Ok (up ++ [s])%list
      | Some _ => Err ENOTDIR
      | None => Err ENOENT
      end
  | _ => Err EINVAL
  end.

(** Move everything at or below [a] to [b]. *)
Definition move_tree (a b : loc) (t : gmap loc Node) : gmap loc Node :=
  list_to_map (map (λ kn, (if bool_decide (take (length a) kn.1 = a)
                           then (b ++ drop (length a) kn.1)%list else kn.1, kn.2))
                   (map_to_list (delete b t))).

(** [rename] on components; [slash] is a trailing separator on the target. *)
Definition rename_cs (v : vfs) (from to : list Component) (slash : bool) : result errno vfs :=
  src ← lstat_cs v from;
  dst ← dest_cs v to;
  let '(a, n) := src in
  if bool_decide (a = dst) then Ok v else
  match n with
  | NDir _ =>
      if bool_decide (take (length a) dst = a) then Err EINVAL else
      match node_at v dst with
      | Some (NDir _) => if has_child v dst then Err ENOTEMPTY
                         else Ok (set_tree (move_tree a dst (tree v)) v)
      | Some _ => Err ENOTDIR
      | None => Ok (set_tree (move_tree a dst (tree v)) v)
      end
  | _ =>
      if slash then Err ENOTDIR else
      match node_at v dst with
      | Some (NDir _) => Err EISDIR
      | _ => Ok (set_tree (<[dst := n]> (delete a (tree v))) v)
      end
  end.

Definition rename (v : vfs) (from to : string) : result errno vfs :=
  rename_cs v (components from) (components to) (ends_with "/" to).

(** ** Open files *)

(** [h_ino] is [None] for a directory, whose reads fail. *)
Record handle := { h_ino : option nat; h_pos : nat; h_write : bool }.

(** [File::create]: truncates an existing file, follows links. *)
Definition file_create (v : vfs) (p : string) : result errno (handle * vfs) :=
  if ends_with "/" p then Err EISDIR else
  l ← resolve_cs v (components p);
  match node_at v l with
  | Some (NFile i) =>
      Ok ({| h_ino := Some i; h_pos := 0; h_write := true |},
          set_inodes (<[i := Build_Inode [] (clock v)]> (inodes v)) v)
  | Some _ => Err EISDIR
  | None =>
      let i := next_ino v in
      Ok ({| h_ino := Some i; h_pos := 0; h_write := true |},
          {| tree := <[l := NFile i]> (tree v);
             inodes := <[i := Build_Inode [] (clock v)]> (inodes v);
             next_ino := S i; clock := clock v |})
  end.

(** [OpenOptions::new().create(true).write(true).open]: no truncation. *)
Definition file_open_write (v : vfs) (p : string) : result errno (handle * vfs) :=
  if ends_with "/" p then Err EISDIR else
  l ← resolve_cs v (components p);
  match node_at v l with
  | Some (NFile i) => Ok ({| h_ino := Some i; h_pos := 0; h_write := true |}, v)
  | Some _ => Err EISDIR
  | None => file_create v p
  end.

(** [File::open] *)
Definition file_open (v : vfs) (p : string) : result errno handle :=
  ln ← stat v p;
  match ln.2 with
  | NFile i => Ok {| h_ino := Some i; h_pos := 0; h_write := false |}
  | _ => Ok {| h_ino := None; h_pos := 0; h_write := false |}
  end.

(** [data] with [buf] written at [pos], zero-filled up to [pos]. *)
Definition write_at (pos : nat) (buf data : list Z) : list Z :=
  (take pos data ++ replicate (pos - length data) 0%Z ++ buf ++ drop (pos + length buf) data)%list.

Definition file_write_all (v : vfs) (h : handle) (buf : list Z) : result errno (handle * vfs) :=
  match h_ino h with
  | Some i =>
      if h_write h then
        match inodes v !! i with
        | Some d =>
            Ok ({| h_ino := Some i; h_pos := h_pos h + length buf; h_write := true |},
                if bool_decide (buf = []) then v else
                set_inodes (<[i := Build_Inode (write_at (h_pos h) buf (i_data d)) (clock v)]> (inodes v)) v)
        | None => Err EBADF
        end
      else if bool_decide (buf = []) then Ok (h, v) else Err EBADF
  | None => Err EBADF
  end.

(** [read]: at most [n] bytes from the position; [n] is positive. *)
Definition file_read (v : vfs) (h : handle) (n : nat) : result errno (list Z * handle) :=
  match h_ino h with
  | Some i =>
      if h_write h then Err EBADF else
      match inodes v !! i with
      | Some d =>
          let out := take n (drop (h_pos h) (i_data d)) in
          Ok (out, {| h_ino := Some i; h_pos := h_pos h + length out; h_write := false |})
      | None => Err EBADF
      end
  | None => Err EISDIR
  end.

Definition file_seek (h : handle) (pos : nat) : handle :=
  {| h_ino := h_ino h; h_pos := pos; h_write := h_write h |}.

(** [std::fs::write] and [std::fs::read] *)
Definition write_path (v : vfs) (p : string) (buf : list Z) : result errno vfs :=
  hv ← file_create v p;
  hv' ← file_write_all hv.2 hv.1 buf;
  Ok hv'.2.

Definition read_path (v : vfs) (p : string) : result errno (list Z) :=
  ln ← stat v p;
  match ln.2 with
  | NFile i => match inodes v !! i with Some d => Ok (i_data d) | None => Err EBADF end
  | _ => Err EISDIR
  end.

(** ** Lemmas: components *)

Lemma split_on_sep c a b : (split_on c (a ++ String c b) = split_on c a ++ split_on c b)%list.
Proof.
  induction a as [|x a IH]; simpl; [by rewrite Ascii.eqb_refl|].
  destruct (Ascii.eqb x c); simpl; rewrite IH; [done|].
  pose proof (split_on_ne c a). by destruct (split_on c a).
Qed.

(** Appending without a separator extends the last piece. *)
Lemma split_on_suffix c a suf :
  contains_char c suf = false →
  split_on c (a ++ suf) = (removelast (split_on c a) ++ [(default "" (last (split_on c a)) ++ suf)%string])%list.
Proof.
  intros Hs. induction a as [|x a IH]; [simpl; by apply split_on_none|].
  pose proof (split_on_ne c a) as Hne. simpl. rewrite IH.
  destruct (Ascii.eqb x c).
  - destruct (split_on c a) as [|p ps]; [done|]. simpl. by destruct ps.
  - destruct (split_on c a) as [|p [|q ps]]; done.
Qed.

(** The components of a path: what its beginning says, then its names. *)
Definition comp_head (p : string) : list Component :=
  if starts_with "/" p then [RootDir]
  else match split_on "/" p with
       | s :: _ => if bool_decide (s = ".") then [CurDir] else []
       | [] => []
       end.
Definition comp_body (p : string) : list Component :=
  mjoin (map part_component (split_on "/" p)).

Lemma components_split p : components p = (comp_head p ++ comp_body p)%list.
Proof.
  unfold components, comp_head, comp_body. destruct (starts_with "/" p); [done|].
  destruct (split_on "/" p) as [|s rest]; [done|]. simpl.
  case_bool_decide as E; [by subst|done].
Qed.

Lemma starts_with_app1 c s t :
  s ≠ "" → starts_with (String c "") (s ++ t) = starts_with (String c "") s.
Proof.
  destruct s as [|z s]; [done|]. intros _. unfold starts_with. cbn [String.append String.prefix].
  case_match; [|done]. by destruct s, t.
Qed.

Lemma split_slash_join base name :
  starts_with "/" name = false → base ≠ "" →
  ∃ parts, comp_body base = mjoin (map part_component parts)
    ∧ head parts = head (split_on "/" base)
    ∧ split_on "/" (path_join base name) = (parts ++ split_on "/" name)%list
    ∧ starts_with "/" (path_join base name) = starts_with "/" base
    ∧ parts ≠ [].
Proof.
  intros Hn Hb. unfold path_join. rewrite Hn. destruct base as [|x base]; [done|].
  simpl (is_empty _). rewrite orb_false_l. destruct (ends_with "/" (String x base)) eqn:E.
  - unfold ends_with in E. apply starts_with_spec in E as [r Er].
    assert (String x base = rev_string r ++ "/") as Eb.
    { assert (∀ a b, rev_string (a ++ b) = rev_string b ++ rev_string a) as Hra.
      { intros a b. induction a as [|y a IH]; simpl; [by rewrite string_app_nil_r|].
        by rewrite IH, string_app_assoc. }
      assert (∀ a, rev_string (rev_string a) = a) as Hri.
      { induction a as [|y a IH]; simpl; [done|]. by rewrite Hra, IH. }
      rewrite <- (Hri (String x base)), Er. by rewrite Hra. }
    exists (split_on "/" (rev_string r)). unfold comp_body. rewrite Eb.
    replace ((rev_string r ++ "/") ++ name) with (rev_string r ++ String "/" name)
      by by rewrite <- string_app_assoc.
    change (rev_string r ++ "/") with (rev_string r ++ String "/" "").
    rewrite !split_on_sep. split_and!.
    + rewrite map_app. simpl. rewrite !join_app. simpl. by rewrite !app_nil_r.
    + pose proof (split_on_ne "/" (rev_string r)). by destruct (split_on "/" (rev_string r)).
    + done.
    + destruct (rev_string r) as [|z t]; [by destruct name|].
      by rewrite !starts_with_app1.
    + apply split_on_ne.
  - exists (split_on "/" (String x base)).
    change (String x base ++ "/" ++ name) with (String x base ++ String "/" name).
    rewrite split_on_sep. split_and!; try done.
    + by rewrite starts_with_app1.
    + apply split_on_ne.
Qed.

Lemma components_join base name :
  starts_with "/" name = false → base ≠ "" →
  components (path_join base name) = (components base ++ comp_body name)%list.
Proof.
  intros Hn Hb. destruct (split_slash_join base name Hn Hb) as (parts & Eb & Eh & Es & Er & Hne).
  rewrite !components_split, <- app_assoc. f_equal.
  - unfold comp_head. rewrite Er, Es. destruct (starts_with "/" base); [done|].
    destruct parts as [|p parts]; [done|]. simpl in *. by destruct (split_on "/" base); simplify_eq/=.
  - rewrite Eb. unfold comp_body. rewrite Es. by rewrite map_app, join_app.
Qed.

Local Open Scope list_scope.

(** ** Lemmas: plain paths

    A plain path is absolute and made of ordinary names. *)

Definition name_ok (s : string) : Prop :=
  is_empty s = false ∧ s ≠ "." ∧ s ≠ ".." ∧ contains_char "/" s = false ∧ contains_char "000" s = false.

Definition render (l : loc) : string := foldr (λ s acc, String "/" (s ++ acc)%string) "" l.

Lemma part_component_ok s : name_ok s → part_component s = [Normal s].
Proof.
  intros (H1 & H2 & H3 & _). unfold part_component. rewrite H1.
  by rewrite !bool_decide_false.
Qed.

Lemma split_render_tail s l :
  name_ok s → Forall name_ok l → split_on "/" (s ++ render l)%string = s :: l.
Proof.
  intros Hs Hl. revert s Hs. induction Hl as [|x l Hx Hl IH]; intros s (_ & _ & _ & Hs & _); simpl.
  - rewrite string_app_nil_r. by apply split_on_none.
  - rewrite split_on_app by done. by rewrite IH.
Qed.

Lemma components_render s l :
  Forall name_ok (s :: l) → components (render (s :: l)) = RootDir :: map Normal (s :: l).
Proof.
  intros H. inversion H as [|? ? Hs Hl]; subst. unfold components.
  replace (starts_with "/" (render (s :: l))) with true
    by (symmetry; by apply starts_with_spec; exists (s ++ render l)%string).
  f_equal. cbn [render foldr]. fold (render l). simpl split_on.
  rewrite split_render_tail by done. cbn [map mjoin list_join].
  change (part_component "") with (@nil Component). simpl.
  rewrite part_component_ok by done. simpl. f_equal. clear -Hl.
  induction Hl as [|x l Hx Hl IH]; [done|]. simpl. rewrite part_component_ok by done. simpl. by f_equal.
Qed.

Lemma render_app l1 l2 : render (l1 ++ l2) = (render l1 ++ render l2)%string.
Proof.
  induction l1 as [|x l1 IH]; [done|]. simpl. rewrite IH. f_equal. by rewrite string_app_assoc.
Qed.

Lemma render_suffix l s suf : (render (l ++ [s]) ++ suf)%string = render (l ++ [(s ++ suf)%string]).
Proof.
  rewrite !render_app, <- string_app_assoc. f_equal. cbn [render foldr String.append].
  by rewrite !string_app_nil_r.
Qed.

Lemma ends_with_last c s x :
  ends_with (String c "") (s ++ String x "")%string = Ascii.eqb c x.
Proof.
  unfold ends_with. rewrite rev_string_app. unfold starts_with.
  cbn [rev_string String.append String.prefix].
  destruct (ascii_dec c x) as [->|Hne].
  - rewrite Ascii.eqb_refl. by destruct (rev_string s).
  - symmetry. by apply Ascii.eqb_neq.
Qed.

Lemma string_snoc s : s = "" ∨ ∃ s' x, s = (s' ++ String x "")%string.
Proof.
  induction s as [|a s IH]; [by left|]. right. destruct IH as [->|(s' & x & ->)].
  - by exists "", a.
  - by exists (String a s'), x.
Qed.

Lemma render_no_slash_end l s : name_ok s → ends_with "/" (render (l ++ [s])) = false.
Proof.
  intros (H1 & _ & _ & Hs & _). rewrite render_app. cbn [render foldr]. rewrite string_app_nil_r.
  destruct (string_snoc s) as [->|(s' & x & ->)]; [done|].
  change (String "/" (s' ++ String x "")) with (String "/" s' ++ String x "")%string.
  rewrite string_app_assoc, ends_with_last.
  rewrite contains_char_app in Hs. apply orb_false_iff in Hs as [_ Hs]. simpl in Hs.
  rewrite orb_false_r in Hs. apply Ascii.eqb_neq. intros <-. by rewrite Ascii.eqb_refl in Hs.
Qed.

(** ** Lemmas: resolution without links *)

(** Every prefix of [par] is a directory. *)
Definition dirs (v : vfs) (par : loc) : Prop :=
  ∀ k, (k <= length par)%nat → is_dir_node (node_at v (take k par)) = true.

Lemma dirs_nil v : dirs v [].
Proof. intros [|k] Hk; [done|simpl in Hk; lia]. Qed.

Lemma resolve_dirs links v pre par cs :
  dirs v (pre ++ par) →
  resolve links v pre (map Normal par ++ cs) = resolve links v (pre ++ par) cs.
Proof.
  revert pre. induction par as [|s par IH]; intros pre Hd; [by rewrite app_nil_r|].
  replace (pre ++ s :: par) with ((pre ++ [s]) ++ par) in * by (by rewrite <- app_assoc).
  rewrite <- (IH (pre ++ [s])) by done.
  specialize (Hd (length (pre ++ [s]))). rewrite take_app_length in Hd.
  rewrite (length_app (pre ++ [s])) in Hd. specialize (Hd ltac:(lia)).
  destruct links; simpl; by destruct (node_at v (pre ++ [s])) as [[]|].
Qed.

Lemma resolve_step links v cur s :
  is_link (node_at v (cur ++ [s])) = false →
  resolve links v cur [Normal s] = Ok (cur ++ [s]).
Proof. intros Hl. destruct links; simpl; by destruct (node_at v _) as [[]|]. Qed.

Lemma resolve_root links v cur cs : resolve links v cur (RootDir :: cs) = resolve links v [] cs.
Proof. by destruct links. Qed.

Lemma resolve_plain links v par s :
  dirs v par → is_link (node_at v (par ++ [s])) = false →
  resolve links v [] (RootDir :: map Normal (par ++ [s])) = Ok (par ++ [s]).
Proof.
  intros Hd Hl. rewrite resolve_root, map_app.
  rewrite (resolve_dirs links v [] par) by done. by apply resolve_step.
Qed.

Lemma resolve_plain_dir links v par :
  dirs v par → resolve links v [] (RootDir :: map Normal par) = Ok par.
Proof.
  intros Hd. rewrite resolve_root, <- (app_nil_r (map Normal par)).
  rewrite (resolve_dirs links v [] par) by done. by destruct links.
Qed.

Lemma dirs_last v par : dirs v par → is_dir_node (node_at v par) = true.
Proof. intros Hd. specialize (Hd (length par) ltac:(lia)). by rewrite take_ge in Hd by lia. Qed.

Lemma plain_snoc par s :
  RootDir :: map Normal (par ++ [s]) = (RootDir :: map Normal par) ++ [Normal s].
Proof. by rewrite map_app. Qed.

Section plain.
Context (v : vfs) (par : loc) (s : string).
Hypothesis Hok : Forall name_ok (par ++ [s]).
Hypothesis Hdirs : dirs v par.

Lemma components_plain : components (render (par ++ [s])) = RootDir :: map Normal (par ++ [s]).
Proof. destruct par as [|x l]; by apply components_render. Qed.

Lemma lstat_plain :
  lstat v (render (par ++ [s])) =
  match node_at v (par ++ [s]) with Some n => Ok ((par ++ [s]), n) | None => Err ENOENT end.
Proof.
  unfold lstat, lstat_cs. rewrite components_plain.
  rewrite plain_snoc, last_snoc, removelast_last.
  rewrite resolve_plain_dir by done. simpl.
  pose proof (dirs_last _ _ Hdirs). by destruct (node_at v par) as [[]|].
Qed.

Hypothesis Hnl : is_link (node_at v (par ++ [s])) = false.

Lemma resolve_cs_plain : resolve_cs v (components (render (par ++ [s]))) = Ok (par ++ [s]).
Proof. rewrite components_plain. unfold resolve_cs. by rewrite resolve_plain. Qed.

Lemma stat_plain :
  stat v (render (par ++ [s])) =
  match node_at v (par ++ [s]) with Some n => Ok ((par ++ [s]), n) | None => Err ENOENT end.
Proof.
  unfold stat, stat_cs. rewrite resolve_cs_plain. simpl.
  destruct (node_at v _); [|done]. simpl.
  rewrite render_no_slash_end; [done|]. apply Forall_app in Hok as [_ H]. by inversion H.
Qed.
End plain.

(** ** Lemmas: operations on files of a known directory *)

Definition is_file_or_none (n : option Node) : bool :=
  match n with None | Some (NFile _) => true | _ => false end.

Lemma file_or_none_no_link n : is_file_or_none n = true → is_link n = false.
Proof. by destruct n as [[]|]. Qed.

Lemma node_at_snoc v par s : node_at v (par ++ [s]) = tree v !! (par ++ [s]).
Proof. by destruct par. Qed.

Lemma take_not_snoc k (par : loc) s : take k par ≠ par ++ [s].
Proof.
  intros E. apply (f_equal Datatypes.length) in E. rewrite length_take, length_app in E.
  simpl in E. lia.
Qed.

(** A change at one name of [par] leaves the directories above. *)
Lemma dirs_frame v v' par :
  dirs v par → (∀ k, node_at v' (take k par) = node_at v (take k par)) → dirs v' par.
Proof. intros Hd Hf k Hk. rewrite Hf. by apply Hd. Qed.

Section ops.
Context (v : vfs) (par : loc).
Hypothesis Hdirs : dirs v par.

Lemma file_create_new s :
  Forall name_ok (par ++ [s]) → node_at v (par ++ [s]) = None →
  file_create v (render (par ++ [s])) =
  Ok ({| h_ino := Some (next_ino v); h_pos := 0; h_write := true |},
      {| tree := <[par ++ [s] := NFile (next_ino v)]> (tree v);
         inodes := <[next_ino v := Build_Inode [] (clock v)]> (inodes v);
         next_ino := S (next_ino v); clock := clock v |}).
Proof.
  intros Hok Hn. unfold file_create.
  rewrite render_no_slash_end by (apply Forall_app in Hok as [_ H]; by inversion H).
  rewrite resolve_cs_plain by (by rewrite ?Hn). simpl. by rewrite Hn.
Qed.

Lemma file_create_trunc s i :
  Forall name_ok (par ++ [s]) → node_at v (par ++ [s]) = Some (NFile i) →
  file_create v (render (par ++ [s])) =
  Ok ({| h_ino := Some i; h_pos := 0; h_write := true |},
      set_inodes (<[i := Build_Inode [] (clock v)]> (inodes v)) v).
Proof.
  intros Hok Hn. unfold file_create.
  rewrite render_no_slash_end by (apply Forall_app in Hok as [_ H]; by inversion H).
  rewrite resolve_cs_plain by (by rewrite ?Hn). simpl. by rewrite Hn.
Qed.

Lemma remove_file_some s i :
  Forall name_ok (par ++ [s]) → node_at v (par ++ [s]) = Some (NFile i) →
  remove_file_at v (render (par ++ [s])) = Ok (set_tree (delete (par ++ [s]) (tree v)) v).
Proof.
  intros Hok Hn. unfold remove_file_at. rewrite lstat_plain, Hn by done. simpl.
  rewrite render_no_slash_end; [done|]. apply Forall_app in Hok as [_ H]. by inversion H.
Qed.

Lemma remove_file_none s :
  Forall name_ok (par ++ [s]) → node_at v (par ++ [s]) = None →
  remove_file_at v (render (par ++ [s])) = Err ENOENT.
Proof. intros Hok Hn. unfold remove_file_at. by rewrite lstat_plain, Hn by done. Qed.

Lemma dest_cs_plain s :
  Forall name_ok (par ++ [s]) → dest_cs v (components (render (par ++ [s]))) = Ok (par ++ [s]).
Proof.
  intros Hok. unfold dest_cs. rewrite (components_plain v) by done.
  rewrite plain_snoc, last_snoc, removelast_last, resolve_plain_dir by done. simpl.
  pose proof (dirs_last _ _ Hdirs). by destruct (node_at v par) as [[]|].
Qed.

Lemma rename_some a c i :
  Forall name_ok (par ++ [a]) → Forall name_ok (par ++ [c]) → a ≠ c →
  node_at v (par ++ [a]) = Some (NFile i) → is_file_or_none (node_at v (par ++ [c])) = true →
  rename v (render (par ++ [a])) (render (par ++ [c])) =
  Ok (set_tree (<[par ++ [c] := NFile i]> (delete (par ++ [a]) (tree v))) v).
Proof.
  intros Ha Hc Hne En Ec. unfold rename, rename_cs.
  pose proof (lstat_plain v par a Ha Hdirs) as Hl. unfold lstat in Hl. rewrite Hl, En. simpl.
  rewrite dest_cs_plain by done. simpl.
  rewrite bool_decide_false by (intros E; by apply (inj (par ++.)) in E; simplify_eq).
  rewrite render_no_slash_end by (apply Forall_app in Hc as [_ H]; by inversion H).
  by destruct (node_at v (par ++ [c])) as [[]|].
Qed.

Lemma rename_none a c :
  Forall name_ok (par ++ [a]) → node_at v (par ++ [a]) = None →
  rename v (render (par ++ [a])) (render (par ++ [c])) = Err ENOENT.
Proof.
  intros Ha En. unfold rename, rename_cs.
  pose proof (lstat_plain v par a Ha Hdirs) as Hl. unfold lstat in Hl. by rewrite Hl, En.
Qed.

(** A directory that exists needs no creation. *)
Lemma create_dir_all_exists :
  create_dir_all v (RootDir :: map Normal par) = (Ok tt, v).
Proof.
  unfold create_dir_all. destruct (rev (RootDir :: map Normal par)) as [|c up] eqn:E; [done|].
  cbn [create_dir_all_rev]. rewrite <- E, rev_involutive.
  assert (stat_cs v (RootDir :: map Normal par) =
          match node_at v par with Some n => Ok (par, n) | None => Err ENOENT end) as Hs.
  { unfold stat_cs, resolve_cs. by rewrite resolve_plain_dir. }
  assert (mkdir_cs v (RootDir :: map Normal par) = Err EEXIST) as ->.
  { unfold mkdir_cs. pose proof (dirs_last _ _ Hdirs) as Hd.
    assert (is_ok (lstat_cs v (RootDir :: map Normal par)) = true) as Hl.
    { clear E Hs c up. destruct par as [|s l _] using rev_ind.
      - by vm_compute.
      - unfold lstat_cs. rewrite plain_snoc, last_snoc, removelast_last.
        rewrite resolve_plain_dir.
        + simpl. assert (dirs v l) as Hdl.
          { intros k Hk. specialize (Hdirs k). rewrite length_app, take_app_le in Hdirs by done.
            apply Hdirs. lia. }
          pose proof (dirs_last _ _ Hdl). destruct (node_at v l) as [[]|]; try done.
          by destruct (node_at v (l ++ [s])).
        + intros k Hk. specialize (Hdirs k). rewrite length_app, take_app_le in Hdirs by done.
          apply Hdirs. lia. }
    by destruct (lstat_cs v _) as [?|[]]. }
  unfold is_dir_cs. rewrite Hs. pose proof (dirs_last _ _ Hdirs).
  by destruct (node_at v par) as [[]|].
Qed.
End ops.
