(* ===== verification/Fs.v ===== *)
(** * File names, listings and small file operations

    [libs/hbb_common/src/fs.rs], all but the transfer job (which is in
    [Transfer]): validation of the names a peer sends, directory listings, the
    remove/create/rename commands and the decision whether an incoming file
    needs the user's confirmation.  Built for Unix; [windows] is
    [cfg!(windows)] where the source has a check that differs.  The order in
    which the system lists a directory and the JSON of a [FileDigest] are
    parameters. *)

From S2P Require Import Prelude Strs Version Vfs.
From Stdlib Require Import Ascii String.

Local Open Scope string_scope.
#[local] Abbreviation length := Datatypes.length.
#[local] Arguments String.append _ _ : simpl nomatch.

(** ** Data *)

(** Errors: [bail!] messages and errors of the system. *)
Inductive error := Msg (s : string) | Io (e : errno).

#[global] Instance error_eq_dec : EqDecision error.
Proof. solve_decision. Defined.

Definition io {A} (r : result errno A) : result error A :=
  match r with Ok a => Ok a | Err e => Err (Io e) end.

Inductive FileType := FDir | FDirLink | FDirDrive | FFile | FFileLink.

#[global] Instance FileType_eq_dec : EqDecision FileType.
Proof. solve_decision. Defined.

Record FileEntry := {
  fe_type : FileType;
  fe_name : string;
  fe_hidden : bool;
  fe_size : Z;
  fe_mtime : Z;
}.

Record FileDirectory := { fd_id : Z; fd_path : string; fd_entries : list FileEntry }.

(** The size and time of a file, as the [.digest] file keeps them. *)
Record FileDigest := { dg_size : Z; dg_modified : Z }.

Record FileTransferDigest := {
  td_id : Z;
  td_file_num : Z;
  td_last_modified : Z;
  td_file_size : Z;
  td_is_upload : bool;
  td_is_identical : bool;
  td_transferred_size : Z;
  td_is_resume : bool;
}.

Record FileTransferBlock := {
  blk_id : Z;
  blk_file_num : Z;
  blk_data : list Z;
  blk_compressed : bool;
}.

Inductive ConfirmUnion := Skip (b : bool) | OffsetBlk (offset : Z).

Record FileTransferSendConfirmRequest := {
  cr_id : Z;
  cr_file_num : Z;
  cr_union : option ConfirmUnion;
}.

(** [validate_file_name_no_traversal] *)
Definition name_pieces (windows : bool) (name : string) : list string :=
  if windows then mjoin (map (split_on "\") (split_on "/" name)) else split_on "/" name.

Definition is_ascii_alphabetic (a : ascii) : bool :=
  let n := nat_of_ascii (lower_char a) in bool_decide (97 <= n <= 122)%nat.

Definition starts_with_drive (name : string) : bool :=
  match name with
  | String a (String ":" _) => is_ascii_alphabetic a
  | _ => false
  end.

Definition validate_file_name_no_traversal (windows : bool) (name : string) : result error unit :=
  if contains_char "000" name then Err (Msg "file name contains null bytes")
  else if existsb (String.eqb "..")
            (List.filter (λ s, negb (is_empty s)) (name_pieces windows name))
  then Err (Msg "path traversal detected in file name")
  else if windows && starts_with_drive name then Err (Msg "absolute path detected in file name")
  else if starts_with "/" name || (windows && starts_with "\" name)
  then Err (Msg "absolute path detected in file name")
  else Ok tt.

Fixpoint validate_each {A} (f : A → result error unit) (l : list A) : result error unit :=
  match l with
  | [] => Ok tt
  | x :: l => f x ≫= λ _, validate_each f l
  end.

Definition validate_transfer_file_names (windows : bool) (files : list FileEntry) : result error unit :=
  if bool_decide (length files = 1%nat) && existsb (λ f, is_empty (fe_name f)) (take 1 files)
  then Ok tt
  else validate_each (λ f,
         if is_empty (fe_name f) then Err (Msg "empty file name in multi-file transfer")
         else validate_file_name_no_traversal windows (fe_name f)) files.

Definition validate_fs_path_argument (path arg_name : string) : result error unit :=
  if is_empty path then Err (Msg (arg_name ++ " cannot be empty"))
  else if contains_char "000" path then Err (Msg (arg_name ++ " contains null bytes"))
  else Ok tt.

(** [validate_no_symlink_components]: [current] grows by one name at a time. *)
Fixpoint check_components (v : vfs) (current : string) (cs : list Component) : result error unit :=
  match cs with
  | [] => Ok tt
  | Normal seg :: cs =>
      let current := path_join current seg in
      match lstat v current with
      | Ok (_, n) =>
          if is_link (Some n) then Err (Msg "symlink path component is not allowed")
          else check_components v current cs
      | Err ENOENT => check_components v current cs
      | Err e => Err (Msg "failed to validate path component")
      end
  | CurDir :: cs => check_components v current cs
  | (RootDir | ParentDir) :: _ => Err (Msg "invalid file name component")
  end.

Definition validate_no_symlink_components (v : vfs) (base name : string) : result error unit :=
  if is_empty name then Ok tt else check_components v base (components name).

(** [TransferJob::join] *)
Definition join (p name : string) : string := if is_empty name then p else path_join p name.

Definition join_validated_path (v : vfs) (base name : string) : result error string :=
  validate_file_name_no_traversal false name ≫= λ _,
  validate_no_symlink_components v base name ≫= λ _,
  Ok (join base name).

(** ** Extensions *)

Fixpoint rfind_ext (s : string) : option string :=
  match s with
  | "" => None
  | String a s' =>
      match rfind_ext s' with
      | Some e => Some e
      | None => if Ascii.eqb a "." then Some s' else None
      end
  end.

Definition get_ext (name : string) : string := default "" (rfind_ext name).

Definition is_compressed_file (name : string) : bool :=
  existsb (String.eqb (get_ext name)) ["xz"; "gz"; "zip"; "7z"; "rar"; "bz2"; "tgz"; "png"; "jpg"].

(** ** Listings *)

(** [duration_since(UNIX_EPOCH).as_secs()], zero before the epoch. *)
Definition mtime_secs (ns : Z) : Z := if (0 <=? ns)%Z then (ns / 10 ^ 9)%Z else 0%Z.

Section listing.
(** The order in which the system yields a directory's names. *)
Context (dir_order : list string → list string).

Definition child_names (v : vfs) (l : loc) : list string :=
  dir_order (omap (λ kn, if bool_decide (removelast kn.1 = l) then last kn.1 else None)
                  (map_to_list (tree v))).

(** An entry of a directory.  Names of the model are UTF-8: the code also skips others. *)
Definition read_entry (v : vfs) (path : string) (include_hidden : bool) (name : string)
    : option FileEntry :=
  let p := path_join path name in
  if is_empty name then None else
  match lstat v p with
  | Err _ => None
  | Ok (_, meta) =>
      let is_hidden := starts_with "." name in
      if is_hidden && negb include_hidden then None else
      let '(ty, size) :=
        if path_is_dir v p then (if is_link (Some meta) then (FDirLink, 0%Z) else (FDir, 0%Z))
        else if is_link (Some meta) then (FFileLink, 0%Z)
        else (FFile, node_len v meta) in
      Some {| fe_type := ty; fe_name := name; fe_hidden := is_hidden; fe_size := size;
              fe_mtime := mtime_secs (node_mtime v meta) |}
  end.

Definition read_dir (v : vfs) (path : string) (include_hidden : bool) : result error FileDirectory :=
  ln ← io (stat v path);
  match ln with
  | (l, NDir _) =>
      Ok {| fd_id := 0; fd_path := path;
            fd_entries := omap (read_entry v path include_hidden) (child_names v l) |}
  | _ => Err (Io ENOTDIR)
  end.

Definition with_name (f : FileEntry) (name : string) : FileEntry :=
  {| fe_type := fe_type f; fe_name := name; fe_hidden := fe_hidden f; fe_size := fe_size f;
     fe_mtime := fe_mtime f |}.

(** [read_dir_recursive]; [fuel] bounds the depth. *)
Fixpoint read_dir_recursive (fuel : nat) (v : vfs) (path prefix : string) (include_hidden : bool)
    : result error (list FileEntry) :=
  match fuel with
  | O => Err (Msg "fuel")
  | S fuel =>
      if path_is_dir v path then
        fd ← read_dir v path include_hidden;
        Ok (mjoin (map (λ e,
              match fe_type e with
              | FFile => [with_name e (path_join prefix (fe_name e))]
              | FDir => match read_dir_recursive fuel v (path_join path (fe_name e))
                                (path_join prefix (fe_name e)) include_hidden with
                        | Ok l => l
                        | Err _ => []
                        end
              | _ => []
              end) (fd_entries fd)))
      else if path_is_file v path then
        let '(size, t) := match stat v path with
                          | Ok (_, n) => (node_len v n, mtime_secs (node_mtime v n))
                          | Err _ => (0%Z, 0%Z)
                          end in
        Ok [{| fe_type := FFile; fe_name := ""; fe_hidden := false; fe_size := size; fe_mtime := t |}]
      else Err (Msg "Not exists")
  end.

(** No name of the tree is deeper than this. *)
Definition tree_depth (v : vfs) : nat :=
  S (foldr Nat.max O (map (λ kn, length kn.1) (map_to_list (tree v)))).

Definition get_recursive_files (v : vfs) (path : string) (include_hidden : bool) :=
  read_dir_recursive (tree_depth v) v path "" include_hidden.

Fixpoint read_empty_dirs_recursive (fuel : nat) (v : vfs) (path prefix : string)
    (include_hidden : bool) : result error (list FileDirectory) :=
  match fuel with
  | O => Err (Msg "fuel")
  | S fuel =>
      if path_is_dir v path then
        fd ← read_dir v path include_hidden;
        match fd_entries fd with
        | [] => Ok [fd]
        | es =>
            Ok (mjoin (map (λ e,
                  match fe_type e with
                  | FDir => match read_empty_dirs_recursive fuel v (path_join path (fe_name e))
                                    (path_join prefix (fe_name e)) include_hidden with
                            | Ok l => l
                            | Err _ => []
                            end
                  | _ => []
                  end) es))
        end
      else if path_is_file v path then Ok []
      else Err (Msg "Not exists")
  end.

Definition get_empty_dirs_recursive (v : vfs) (path : string) (include_hidden : bool) :=
  read_empty_dirs_recursive (tree_depth v) v path "" include_hidden.

(** An error that the source drops with [.ok()]. *)
Definition ok_or_same {E} (r : result E vfs) (v : vfs) : vfs :=
  match r with Ok v' => v' | Err _ => v end.

(** [remove_all_empty_dir]: directories left empty and links go, files stay. *)
Fixpoint remove_all_empty_dir (fuel : nat) (v : vfs) (path : string) : result error unit * vfs :=
  match fuel with
  | O => (Err (Msg "fuel"), v)
  | S fuel =>
      match read_dir v path true with
      | Err e => (Err e, v)
      | Ok fd =>
          let v1 := foldl (λ v e,
            let p := path_join path (fe_name e) in
            match fe_type e with
            | FDir => snd (remove_all_empty_dir fuel v p)
            | FDirLink | FFileLink => ok_or_same (remove_file_at v p) v
            | _ => v
            end) v (fd_entries fd) in
          (Ok tt, ok_or_same (remove_dir_at v1 path) v1)
      end
  end.
End listing.

Definition is_file_exists (v : vfs) (p : string) : bool := path_exists v p.

(** ** Commands *)

Definition remove_file (v : vfs) (file : string) : result error vfs :=
  validate_fs_path_argument file "file path" ≫= λ _, io (remove_file_at v file).

(** Also the file system it leaves. *)
Definition create_dir (v : vfs) (dir : string) : result error unit * vfs :=
  match validate_fs_path_argument dir "directory path" with
  | Err e => (Err e, v)
  | Ok _ => let '(res, v) := create_dir_all v (components dir) in (io res, v)
  end.

Definition rename_file (windows : bool) (v : vfs) (path new_name : string) : result error vfs :=
  validate_fs_path_argument path "path" ≫= λ _,
  if is_empty new_name then Err (Msg "new file name cannot be empty") else
  validate_file_name_no_traversal windows new_name ≫= λ _,
  if path_exists v path then
    match parent_components (components path) with
    | None => Err (Msg "Parent directoy of path not exists")
    | Some dir => io (rename_cs v (components path) (dir ++ comp_body new_name)
                        (ends_with "/" new_name))
    end
  else Err (Msg "path not exists").

Fixpoint replace_char (a b : ascii) (s : string) : string :=
  match s with
  | "" => ""
  | String c s => String (if Ascii.eqb c a then b else c) (replace_char a b s)
  end.

Definition transform_windows_path (entries : list FileEntry) : list FileEntry :=
  map (λ e, with_name e (replace_char "\" "/" (fe_name e))) entries.

(** ** Confirmation of an incoming file *)

Inductive DigestCheckResult :=
| IsSame
| NeedConfirm (d : FileTransferDigest)
| NoSuchFile.

Section confirmation.
(** [read_to_string] and [serde_json::from_str::<FileDigest>]. *)
Context (digest_of_json : list Z → option FileDigest).

(** The digest and the partial file of an interrupted transfer, when they are
    those of the offered file and something was received. *)
Definition resumable (v : vfs) (is_resume : bool) (file_path : string) (d : FileTransferDigest)
    : option Z :=
  let digest_file := file_path ++ ".digest" in
  let download_file := file_path ++ ".download" in
  if is_resume && path_exists v digest_file && path_exists v download_file then
    match read_path v digest_file with
    | Ok content =>
        match digest_of_json content with
        | Some local =>
            if (dg_modified local =? td_last_modified d)%Z && (dg_size local =? td_file_size d)%Z then
              match stat v download_file with
              | Ok (_, n) => if (0 <? node_len v n)%Z then Some (node_len v n) else None
              | Err _ => None
              end
            else None
        | None => None
        end
    | Err _ => None
    end
  else None.

Definition is_write_need_confirmation (v : vfs) (is_resume : bool) (file_path : string)
    (d : FileTransferDigest) : result error DigestCheckResult :=
  match resumable v is_resume file_path d with
  | Some transferred =>
      Ok (NeedConfirm {| td_id := td_id d; td_file_num := td_file_num d;
                         td_last_modified := td_last_modified d; td_file_size := td_file_size d;
                         td_is_upload := false; td_is_identical := true;
                         td_transferred_size := transferred; td_is_resume := false |})
  | None =>
      if path_exists v file_path && path_is_file v file_path then
        ln ← io (stat v file_path);
        let mt := node_mtime v ln.2 in
        if (mt <? 0)%Z then Err (Msg "second time provided was later than self") else
        let is_identical :=
          (td_last_modified d * 10 ^ 9 =? mt)%Z && (td_file_size d =? node_len v ln.2)%Z in
        Ok (NeedConfirm {| td_id := td_id d; td_file_num := td_file_num d;
                           td_last_modified := mtime_secs mt; td_file_size := node_len v ln.2;
                           td_is_upload := false; td_is_identical := is_identical;
                           td_transferred_size := 0; td_is_resume := false |})
      else Ok NoSuchFile
  end.
End confirmation.
