(* ===== verification/Transfer.v ===== *)
(** * File transfer jobs

    [TransferJob] of [libs/hbb_common/src/fs.rs] and the loop that drives the
    sending jobs.  A job runs in a small state-and-error monad over the job, the
    file system and the messages sent; an error keeps the changes made before
    it, as the source does.  A panic is its own outcome.  [compress],
    [decompress], the JSON of a digest, [filetime::set_file_mtime] and the
    length of a partial read are parameters. *)

From S2P Require Import Prelude Strs Version Vfs Fs.
From Stdlib Require Import Ascii String.

Local Open Scope string_scope.
Local Open Scope Z_scope.
#[local] Abbreviation length := Datatypes.length.
#[local] Arguments String.append _ _ : simpl nomatch.

(** ** Data *)

Inductive JobType := Generic | Printer.

#[global] Instance JobType_eq_dec : EqDecision JobType.
Proof. solve_decision. Defined.

Definition JobType_from_i32 (value : Z) : JobType := if value =? 1 then Printer else Generic.
Definition JobType_into_i32 (t : JobType) : Z := match t with Generic => 0 | Printer => 1 end.

(** A memory source is the bytes of its cursor, read and written from the front. *)
Inductive DataSource := FilePath (p : string) | MemoryCursor (data : list Z).

Inductive DataStream := FileStream (h : handle) | BufStream (data : list Z) (pos : nat).

Record TransferJob := {
  id : Z;
  type : JobType;
  remote : string;
  data_source : DataSource;
  show_hidden : bool;
  is_remote : bool;
  is_last_job : bool;
  is_resume : bool;
  file_num : Z;
  files : list FileEntry;
  conn_id : Z;
  data_stream : option DataStream;
  total_size : Z;
  finished_size : Z;
  transferred : Z;
  enable_overwrite_detection : bool;
  file_confirmed : bool;
  file_skipped : bool;
  file_is_waiting : bool;
  default_overwrite_strategy : option bool;
  digest : FileDigest;
}.

#[global] Instance eta_TransferJob : Settable TransferJob := λ j,
  Build_TransferJob (id j) (type j) (remote j) (data_source j) (show_hidden j) (is_remote j)
    (is_last_job j) (is_resume j) (file_num j) (files j) (conn_id j) (data_stream j)
    (total_size j) (finished_size j) (transferred j) (enable_overwrite_detection j)
    (file_confirmed j) (file_skipped j) (file_is_waiting j) (default_overwrite_strategy j)
    (digest j).

Inductive FileMessage :=
| MsgError (id : Z) (err : error) (file_num : Z)
| MsgErrorText (id : Z) (err : string) (file_num : Z)
| MsgDir (id : Z) (path : string) (entries : list FileEntry)
| MsgBlock (b : FileTransferBlock)
| MsgDone (id file_num : Z)
| MsgDigest (d : FileTransferDigest)
| MsgSendConfirm (r : FileTransferSendConfirmRequest)
| MsgReceive (id : Z) (path : string) (files : list FileEntry) (file_num total_size : Z)
| MsgSend (id : Z) (path : string) (include_hidden : bool) (file_num : Z) (t : JobType).

(** Message constructors. *)
Definition new_error := MsgError.
Definition new_dir := MsgDir.
Definition new_block := MsgBlock.
Definition new_send_confirm := MsgSendConfirm.
Definition new_receive (id : Z) (path : string) (file_num : Z) (files : list FileEntry) (total : Z) :=
  MsgReceive id path files file_num total.
Definition new_send (id : Z) (t : JobType) (path : string) (file_num : Z) (include_hidden : bool) :=
  MsgSend id path include_hidden file_num t.
Definition new_done := MsgDone.

(** [as usize] and [as u64] of an [i32]: sign extension, then reinterpretation. *)
Definition to_usize (z : Z) : Z := wrap 64 z.
Definition u64 (z : Z) : Z := wrap 64 z.
(** [+= 1] on an [i32]. *)
Definition i32_succ (z : Z) : Z := swrap 32 (z + 1).

(** Field updates. *)
Definition upd (j : TransferJob) (fn : Z) (fs : list FileEntry) (ds : option DataStream)
    (fin tr : Z) (conf skip wait : bool) : TransferJob :=
  {| id := id j; type := type j; remote := remote j; data_source := data_source j;
     show_hidden := show_hidden j; is_remote := is_remote j; is_last_job := is_last_job j;
     is_resume := is_resume j; file_num := fn; files := fs; conn_id := conn_id j;
     data_stream := ds; total_size := total_size j; finished_size := fin; transferred := tr;
     enable_overwrite_detection := enable_overwrite_detection j; file_confirmed := conf;
     file_skipped := skip; file_is_waiting := wait;
     default_overwrite_strategy := default_overwrite_strategy j; digest := digest j |}.

Definition set_file_num (n : Z) (j : TransferJob) :=
  upd j n (files j) (data_stream j) (finished_size j) (transferred j) (file_confirmed j)
    (file_skipped j) (file_is_waiting j).
Definition set_stream (s : option DataStream) (j : TransferJob) :=
  upd j (file_num j) (files j) s (finished_size j) (transferred j) (file_confirmed j)
    (file_skipped j) (file_is_waiting j).
Definition set_confirmed_waiting (c w : bool) (j : TransferJob) :=
  upd j (file_num j) (files j) (data_stream j) (finished_size j) (transferred j) c
    (file_skipped j) w.
Definition add_sizes (fin tr : Z) (j : TransferJob) :=
  upd j (file_num j) (files j) (data_stream j) (u64 (finished_size j + fin))
    (u64 (transferred j + tr)) (file_confirmed j) (file_skipped j) (file_is_waiting j).

(** [set_file_confirmed], [set_file_is_waiting], [set_digest],
    [set_overwrite_strategy] *)
Definition set_file_confirmed (c : bool) (j : TransferJob) : TransferJob :=
  upd j (file_num j) (files j) (data_stream j) (finished_size j) (transferred j) c false
    (file_is_waiting j).
Definition set_file_is_waiting (w : bool) (j : TransferJob) : TransferJob :=
  set_confirmed_waiting (file_confirmed j) w j.
Definition set_digest (size modified : Z) (j : TransferJob) : TransferJob :=
  {| id := id j; type := type j; remote := remote j; data_source := data_source j;
     show_hidden := show_hidden j; is_remote := is_remote j; is_last_job := is_last_job j;
     is_resume := is_resume j; file_num := file_num j; files := files j; conn_id := conn_id j;
     data_stream := data_stream j; total_size := total_size j; finished_size := finished_size j;
     transferred := transferred j; enable_overwrite_detection := enable_overwrite_detection j;
     file_confirmed := file_confirmed j; file_skipped := file_skipped j;
     file_is_waiting := file_is_waiting j;
     default_overwrite_strategy := default_overwrite_strategy j;
     digest := {| dg_size := size; dg_modified := modified |} |}.
Definition set_overwrite_strategy (s : option bool) (j : TransferJob) : TransferJob :=
  {| id := id j; type := type j; remote := remote j; data_source := data_source j;
     show_hidden := show_hidden j; is_remote := is_remote j; is_last_job := is_last_job j;
     is_resume := is_resume j; file_num := file_num j; files := files j; conn_id := conn_id j;
     data_stream := data_stream j; total_size := total_size j; finished_size := finished_size j;
     transferred := transferred j; enable_overwrite_detection := enable_overwrite_detection j;
     file_confirmed := file_confirmed j; file_skipped := file_skipped j;
     file_is_waiting := file_is_waiting j; default_overwrite_strategy := s; digest := digest j |}.

(** [set_file_skipped]: drop the stream, go to the next file. *)
Definition set_file_skipped (j : TransferJob) : TransferJob :=
  upd j (i32_succ (file_num j)) (files j) None (finished_size j) (transferred j) false true false.

Definition job_skipped (j : TransferJob) : bool :=
  file_skipped j && (length (files j) =? 1)%nat.
Definition job_completed (j : TransferJob) : bool :=
  negb (enable_overwrite_detection j) || (negb (file_confirmed j) && negb (file_is_waiting j)).
Definition job_error (j : TransferJob) : option string :=
  if job_skipped j then Some "skipped"%string else None.

(** Sizes add up in [u64]. *)
Definition sum_sizes (l : list FileEntry) : Z := u64 (foldr Z.add 0 (map fe_size l)).

(** A job with the fields its constructors set. *)
Definition mk_job (i : Z) (t : JobType) (remote : string) (src : DataSource) (file_num : Z)
    (hidden is_remote overwrite : bool) (fs : list FileEntry) (total : Z) : TransferJob :=
  {| id := i; type := t; remote := remote; data_source := src; show_hidden := hidden;
     is_remote := is_remote; is_last_job := false; is_resume := false; file_num := file_num;
     files := fs; conn_id := 0; data_stream := None; total_size := total; finished_size := 0;
     transferred := 0; enable_overwrite_detection := overwrite; file_confirmed := false;
     file_skipped := false; file_is_waiting := false; default_overwrite_strategy := None;
     digest := {| dg_size := 0; dg_modified := 0 |} |}.

Definition new_write (i : Z) (t : JobType) (remote : string) (src : DataSource) (file_num : Z)
    (hidden is_remote overwrite : bool) : TransferJob :=
  mk_job i t remote src file_num hidden is_remote overwrite [] 0.

(** [set_files], [with_files] *)
Definition set_files (v : vfs) (fs : list FileEntry) (j : TransferJob) : result error TransferJob :=
  validate_transfer_file_names false fs ≫= λ _,
  match data_source j with
  | FilePath base => validate_each (λ f, validate_no_symlink_components v base (fe_name f)) fs
  | MemoryCursor _ => Ok tt
  end ≫= λ _,
  Ok {| id := id j; type := type j; remote := remote j; data_source := data_source j;
     show_hidden := show_hidden j; is_remote := is_remote j; is_last_job := is_last_job j;
     is_resume := is_resume j; file_num := file_num j; files := fs; conn_id := conn_id j;
     data_stream := data_stream j; total_size := sum_sizes fs; finished_size := finished_size j;
     transferred := transferred j; enable_overwrite_detection := enable_overwrite_detection j;
     file_confirmed := file_confirmed j; file_skipped := file_skipped j;
     file_is_waiting := file_is_waiting j;
     default_overwrite_strategy := default_overwrite_strategy j; digest := digest j |}.

(** [set_finished_size_on_resume] *)
Definition set_finished_size_on_resume (j : TransferJob) : TransferJob :=
  if is_resume j && (0 <? file_num j) then
    upd j (file_num j) (files j) (data_stream j)
      (sum_sizes (take (Z.to_nat (file_num j)) (files j))) (transferred j)
      (file_confirmed j) (file_skipped j) (file_is_waiting j)
  else j.

(** [gen_meta] *)
Record TransferJobMeta := {
  jm_id : Z; jm_remote : string; jm_to : string; jm_show_hidden : bool; jm_file_num : Z;
  jm_is_remote : bool;
}.
Definition to_meta (s : DataSource) : string :=
  match s with FilePath p => p | MemoryCursor _ => ""%string end.
Definition gen_meta (j : TransferJob) : TransferJobMeta :=
  {| jm_id := id j; jm_remote := remote j; jm_to := to_meta (data_source j);
     jm_show_hidden := show_hidden j; jm_file_num := file_num j; jm_is_remote := is_remote j |}.

(** ** The job's monad *)

Inductive outcome (A : Type) :=
| Ret (a : A)
| Fail (e : error)
| Panic.
Arguments Ret {A} a.
Arguments Fail {A} e.
Arguments Panic {A}.

Record world := { w_job : TransferJob; w_fs : vfs; w_sent : list FileMessage }.

Definition J (A : Type) : Type := world → outcome A * world.

#[global] Instance J_ret : MRet J := λ A a w, (Ret a, w).
#[global] Instance J_bind : MBind J := λ A B f m w,
  match m w with
  | (Ret a, w) => f a w
  | (Fail e, w) => (Fail e, w)
  | (Panic, w) => (Panic, w)
  end.

Definition fail {A} (e : error) : J A := λ w, (Fail e, w).
Definition panic {A} : J A := λ w, (Panic, w).
Definition get_job : J TransferJob := λ w, (Ret (w_job w), w).
Definition get_fs : J vfs := λ w, (Ret (w_fs w), w).
Definition put_fs (v : vfs) : J unit := λ w, (Ret tt, Build_world (w_job w) v (w_sent w)).
Definition modify_job (f : TransferJob → TransferJob) : J unit :=
  λ w, (Ret tt, Build_world (f (w_job w)) (w_fs w) (w_sent w)).
Definition send (m : FileMessage) : J unit :=
  λ w, (Ret tt, Build_world (w_job w) (w_fs w) (w_sent w ++ [m])).
Definition lift {A} (r : result error A) : J A :=
  λ w, match r with Ok a => (Ret a, w) | Err e => (Fail e, w) end.
(** [.ok()] on a file system change. *)
Definition try_fs (r : vfs → result errno vfs) : J unit :=
  λ w, (Ret tt, Build_world (w_job w) (ok_or_same (r (w_fs w)) (w_fs w)) (w_sent w)).
(** [?] on a file system change. *)
Definition do_fs (r : vfs → result errno vfs) : J unit :=
  λ w, match r (w_fs w) with
       | Ok v => (Ret tt, Build_world (w_job w) v (w_sent w))
       | Err e => (Fail (Io e), w)
       end.

Definition download_path (p : string) : string := (p ++ ".download")%string.
Definition digest_path (p : string) : string := (p ++ ".digest")%string.

Section job.
Context (compress decompress : list Z → list Z).
Context (json_of_digest : FileDigest → list Z).
Context (set_file_mtime : vfs → string → Z → vfs).
(** How many of the [n > 0] available bytes one [read] returns. *)
Context (short : nat → nat).
Context (dir_order : list string → list string).

(** [new_read] *)
Definition new_read (v : vfs) (i : Z) (t : JobType) (remote : string) (src : DataSource)
    (file_num : Z) (hidden is_remote overwrite : bool) : result error TransferJob :=
  match src with
  | FilePath p =>
      fs ← get_recursive_files dir_order v p hidden;
      Ok (mk_job i t remote src file_num hidden is_remote overwrite fs (sum_sizes fs))
  | MemoryCursor c =>
      Ok (mk_job i t remote src file_num hidden is_remote overwrite [] (Z.of_nat (length c)))
  end.

(** [get_buf_data] *)
Definition get_buf_data (j : TransferJob) : option (list Z) :=
  match data_stream j with Some (BufStream d _) => Some d | _ => None end.

(** The current file's entry: [file_num as usize], in range. *)
Definition entry_at (j : TransferJob) (n : Z) : option FileEntry :=
  if to_usize n <? Z.of_nat (length (files j)) then files j !! Z.to_nat (to_usize n) else None.

Definition resolve_entry_path (v : vfs) (t : JobType) (base name : string) : option string :=
  match t with
  | Generic => ok_of (join_validated_path v base name)
  | Printer => Some (join base name)
  end.

(** [modify_time]: publish the current file. *)
Definition modify_time : J unit :=
  j ← get_job; v ← get_fs;
  match type j, data_source j with
  | Printer, _ | _, MemoryCursor _ => mret tt
  | Generic, FilePath p =>
      match entry_at j (file_num j) with
      | None => mret tt
      | Some entry =>
          match resolve_entry_path v (type j) p (fe_name entry) with
          | None => mret tt
          | Some path =>
              try_fs (λ v, remove_file_at v (digest_path path)) ≫= λ _,
              try_fs (λ v, rename v (download_path path) path) ≫= λ _,
              v ← get_fs;
              put_fs (set_file_mtime v path (fe_mtime entry))
          end
      end
  end.

(** [remove_download_file] *)
Definition remove_download_file : J unit :=
  j ← get_job; v ← get_fs;
  match type j, data_source j with
  | Printer, _ | _, MemoryCursor _ => mret tt
  | Generic, FilePath p =>
      match entry_at j (file_num j) with
      | None => mret tt
      | Some entry =>
          match resolve_entry_path v (type j) p (fe_name entry) with
          | None => mret tt
          | Some path =>
              try_fs (λ v, remove_file_at v (download_path path)) ≫= λ _,
              try_fs (λ v, remove_file_at v (digest_path path))
          end
      end
  end.

(** [DataStream::write_all] on the job's stream. *)
Definition write_stream (none : string) (buf : list Z) : J unit :=
  j ← get_job; v ← get_fs;
  match data_stream j with
  | None => fail (Msg none)
  | Some (FileStream h) =>
      hv ← lift (io (file_write_all v h buf));
      put_fs hv.2 ≫= λ _, modify_job (set_stream (Some (FileStream hv.1)))
  | Some (BufStream d pos) =>
      modify_job (set_stream (Some (BufStream (write_at pos buf d) (pos + length buf))))
  end.

(** The part of [write] that opens the file a block belongs to. *)
Definition open_for_write (p : string) (block : FileTransferBlock) : J unit :=
  modify_time ≫= λ _,
  modify_job (set_file_num (blk_file_num block)) ≫= λ _,
  j ← get_job; v ← get_fs;
  match files j !! Z.to_nat (to_usize (blk_file_num block)) with
  | None => panic
  | Some entry =>
      match type j with
      | Printer =>
          hv ← lift (io (file_create v p));
          put_fs hv.2 ≫= λ _, modify_job (set_stream (Some (FileStream hv.1)))
      | Generic =>
          path ← lift (join_validated_path v p (fe_name entry));
          match parent_components (components path) with
          | Some pp => v ← get_fs; put_fs (create_dir_all v pp).2
          | None => mret tt
          end ≫= λ _,
          v ← get_fs;
          (if path_exists v (digest_path path)
           then do_fs (λ v, remove_file_at v (digest_path path)) else mret tt) ≫= λ _,
          v ← get_fs;
          hv ← lift (io (file_create v (download_path path)));
          put_fs hv.2 ≫= λ _, modify_job (set_stream (Some (FileStream hv.1))) ≫= λ _,
          try_fs (λ v, write_path v (digest_path path) (json_of_digest (digest j)))
      end
  end.

(** [write] *)
Definition write (block : FileTransferBlock) : J unit :=
  j ← get_job;
  if negb (blk_id block =? id j) then fail (Msg "Wrong id") else
  match data_source j with
  | FilePath p =>
      let fn := to_usize (blk_file_num block) in
      if Z.of_nat (length (files j)) <=? fn then fail (Msg "Wrong file number")
      else if negb (fn =? to_usize (file_num j)) || bool_decide (data_stream j = None)
      then open_for_write p block
      else mret tt
  | MemoryCursor c =>
      match data_stream j with
      | None => modify_job (set_stream (Some (BufStream c 0)))
      | Some _ => mret tt
      end
  end ≫= λ _,
  if blk_compressed block then
    let tmp := decompress (blk_data block) in
    write_stream "data stream is None" tmp ≫= λ _,
    modify_job (add_sizes (Z.of_nat (length tmp)) (Z.of_nat (length (blk_data block))))
  else
    write_stream "file is None" (blk_data block) ≫= λ _,
    modify_job (add_sizes (Z.of_nat (length (blk_data block))) (Z.of_nat (length (blk_data block)))).

(** ** Reading *)

(** Give up on the current file: go to the next one. *)
Definition next_file (j : TransferJob) : TransferJob :=
  upd j (i32_succ (file_num j)) (files j) None (finished_size j) (transferred j) false
    (file_skipped j) false.

(** [open_data_stream]: [true] when the job is done. *)
Definition open_data_stream : J bool :=
  j ← get_job; v ← get_fs;
  match data_source j with
  | FilePath p =>
      match entry_at j (file_num j) with
      | None => modify_job (set_stream None) ≫= λ _, mret true
      | Some entry =>
          match data_stream j with
          | Some _ => mret false
          | None =>
              match file_open v (join p (fe_name entry)) with
              | Ok h =>
                  modify_job (λ j, set_confirmed_waiting false false
                                     (set_stream (Some (FileStream h)) j)) ≫= λ _, mret false
              | Err e => modify_job next_file ≫= λ _, fail (Io e)
              end
          end
      end
  | MemoryCursor c =>
      match data_stream j with
      | Some _ => mret false
      | None =>
          (* the cursor is swapped with an empty one *)
          modify_job (λ j,
            {| id := id j; type := type j; remote := remote j; data_source := MemoryCursor [];
               show_hidden := show_hidden j; is_remote := is_remote j;
               is_last_job := is_last_job j; is_resume := is_resume j; file_num := file_num j;
               files := files j; conn_id := conn_id j; data_stream := Some (BufStream c 0);
               total_size := total_size j; finished_size := finished_size j;
               transferred := transferred j;
               enable_overwrite_detection := enable_overwrite_detection j;
               file_confirmed := file_confirmed j; file_skipped := file_skipped j;
               file_is_waiting := file_is_waiting j;
               default_overwrite_strategy := default_overwrite_strategy j;
               digest := digest j |}) ≫= λ _, mret false
      end
  end.

(** [get_current_digest]: time and length of the open file. *)
Definition get_current_digest : J (Z * Z) :=
  j ← get_job; v ← get_fs;
  match data_stream j with
  | None => fail (Msg "file is None")
  | Some (BufStream _ _) => fail (Msg "No digest for buf stream")
  | Some (FileStream h) =>
      match h_ino h ≫= λ i, inodes v !! i with
      | Some d =>
          if i_mtime d <? 0 then fail (Msg "second time provided was later than self")
          else mret (i_mtime d / 10 ^ 9, Z.of_nat (length (i_data d)))
      | None => fail (Io EBADF)
      end
  end.

Definition send_current_digest : J unit :=
  md ← get_current_digest;
  j ← get_job;
  send (MsgDigest {| td_id := id j; td_file_num := file_num j; td_last_modified := md.1;
                     td_file_size := md.2; td_is_upload := false; td_is_identical := false;
                     td_transferred_size := 0; td_is_resume := is_resume j |}).

Definition needs_digest (j : TransferJob) : bool :=
  bool_decide (type j = Generic) && enable_overwrite_detection j
  && negb (file_confirmed j) && negb (file_is_waiting j).

Definition init_data_stream : J unit :=
  done ← open_data_stream;
  if (done : bool) then mret tt else
  j ← get_job;
  if needs_digest j
  then send_current_digest ≫= λ _, modify_job (set_file_is_waiting true)
  else mret tt.

Definition init_data_stream_for_cm : J (option (Z * Z)) :=
  done ← open_data_stream;
  if (done : bool) then mret None else
  j ← get_job;
  if needs_digest j
  then d ← get_current_digest; modify_job (set_file_is_waiting true) ≫= λ _, mret (Some d)
  else mret None.

Definition BUF_SIZE : nat := Z.to_nat (128 * 1024).

(** One [DataStream::read] into [n > 0] bytes of space. *)
Definition stream_read (v : vfs) (s : DataStream) (n : nat) : result errno (list Z * DataStream) :=
  match s with
  | FileStream h =>
      match file_read v h n with
      | Ok (full, _) =>
          match file_read v h (short (length full)) with
          | Ok (out, h') => Ok (out, FileStream h')
          | Err e => Err e
          end
      | Err e => Err e
      end
  | BufStream d pos =>
      let full := take n (drop pos d) in
      let out := take (short (length full)) full in
      Ok (out, BufStream d (pos + length out))
  end.

(** The loop of [read]: fill the buffer, or stop at the end of the stream. *)
Fixpoint read_loop (fuel : nat) (v : vfs) (s : DataStream) (buf : list Z)
    : result errno (list Z * DataStream) :=
  match fuel with
  | O => Ok (buf, s)
  | S fuel =>
      match stream_read v s (BUF_SIZE - length buf) with
      | Err e => Err e
      | Ok (out, s') =>
          let buf' := (buf ++ out)%list in
          if bool_decide (out = []) || (length buf' =? BUF_SIZE)%nat then Ok (buf', s')
          else read_loop fuel v s' buf'
      end
  end.

(** [read] *)
Definition read : J (option FileTransferBlock) :=
  j ← get_job; v ← get_fs;
  if bool_decide (type j = Generic) && enable_overwrite_detection j && negb (file_confirmed j)
  then mret None else
  let fn := file_num j in
  match (match data_source j with
         | FilePath p =>
             match entry_at j fn with
             | None => None
             | Some entry =>
                 Some (if (length (files j) =? 1)%nat && is_empty (fe_name entry)
                       then default ""%string (path_file_name p) else fe_name entry)
             end
         | MemoryCursor _ => Some ""%string
         end) with
  | None => modify_job (set_stream None) ≫= λ _, mret None
  | Some name =>
      match data_stream j with
      | None => fail (Msg "data stream is None")
      | Some s =>
          match read_loop (S BUF_SIZE) v s [] with
          | Err e => modify_job next_file ≫= λ _, fail (Io e)
          | Ok (buf, s') =>
              modify_job (set_stream (Some s')) ≫= λ _,
              let is_file := match data_source j with FilePath _ => true | _ => false end in
              if bool_decide (buf = []) then
                if is_file then
                  modify_job next_file ≫= λ _,
                  mret (Some {| blk_id := id j; blk_file_num := swrap 32 fn; blk_data := [];
                                blk_compressed := false |})
                else modify_job (set_stream None) ≫= λ _, mret None
              else
                let tmp := compress buf in
                let compressed := is_file && negb (is_compressed_file name)
                                  && (length tmp <? length buf)%nat in
                let data := if compressed then tmp else buf in
                modify_job (add_sizes (Z.of_nat (length buf)) (Z.of_nat (length data))) ≫= λ _,
                mret (Some {| blk_id := id j; blk_file_num := swrap 32 fn; blk_data := data;
                              blk_compressed := compressed |})
          end
      end
  end.

(** ** Confirmation *)

(** [set_stream_offset]; [&self.files[file_num]] panics out of range. *)
Definition set_stream_offset (fn : Z) (offset : Z) : J unit :=
  j ← get_job; v ← get_fs;
  match data_source j with
  | MemoryCursor _ => mret tt
  | FilePath p =>
      match entry_at j fn with
      | None => panic
      | Some entry =>
          match resolve_entry_path v (type j) p (fe_name entry) with
          | None => mret tt
          | Some path =>
              let opened :=
                if path_exists v (download_path path) && path_exists v (digest_path path)
                then ok_of (file_open_write v (download_path path))
                else if path_exists v path then (λ h, (h, v)) <$> ok_of (file_open v path)
                else None in
              match opened with
              | None => mret tt
              | Some (h, v') =>
                  put_fs v' ≫= λ _,
                  modify_job (λ j, add_sizes offset offset
                    (set_stream (Some (FileStream (file_seek h (Z.to_nat offset)))) j))
              end
          end
      end
  end.

(** [confirm] *)
Definition confirm (r : FileTransferSendConfirmRequest) : J unit :=
  j ← get_job;
  if negb (file_num j =? cr_file_num r) then mret tt else
  match cr_union r with
  | Some (Skip true) => modify_job set_file_skipped
  | Some (Skip false) => modify_job (set_file_confirmed true)
  | Some (OffsetBlk offset) =>
      modify_job (set_file_confirmed true) ≫= λ _,
      if 0 <? offset then set_stream_offset (cr_file_num r) offset else mret tt
  | None => mret tt
  end.

(** ** Jobs *)

(** Run one job of a list. *)
Definition run_job {A} (m : J A) (j : TransferJob) (v : vfs) (out : list FileMessage)
    : outcome A * TransferJob * vfs * list FileMessage :=
  let '(r, w) := m (Build_world j v out) in (r, w_job w, w_fs w, w_sent w).

Definition get_job_by_id (i : Z) (jobs : list TransferJob) : option TransferJob :=
  List.find (λ j, id j =? i) jobs.

Fixpoint remove_job (i : Z) (jobs : list TransferJob) : list TransferJob :=
  match jobs with
  | [] => []
  | j :: jobs => if id j =? i then jobs else j :: remove_job i jobs
  end.

(** [init_jobs]: an error is reported to the peer; the stream itself is
    assumed to accept what is sent. *)
Fixpoint init_jobs (jobs : list TransferJob) (v : vfs) (out : list FileMessage)
    : list TransferJob * vfs * list FileMessage :=
  match jobs with
  | [] => ([], v, out)
  | j :: jobs =>
      let '(j', v', out') :=
        if is_last_job j then (j, v, out) else
        match run_job init_data_stream j v out with
        | (Fail e, j', v', out') => (j', v', out' ++ [new_error (id j') e (file_num j')])%list
        | (_, j', v', out') => (j', v', out')
        end in
      let '(js, v'', out'') := init_jobs jobs v' out' in
      (j' :: js, v'', out'')
  end.

(** The first job that is not marked as a last one is read, and only it. *)
Fixpoint read_first (jobs : list TransferJob) (v : vfs) (out : list FileMessage)
    : list TransferJob * vfs * list FileMessage * list Z :=
  match jobs with
  | [] => ([], v, out, [])
  | j :: js =>
      if is_last_job j then
        let '(js', v', out', fin) := read_first js v out in (j :: js', v', out', fin)
      else
        match run_job read j v out with
        | (Fail e, j', v', out') =>
            (j' :: js, v', out' ++ [new_error (id j') e (file_num j')], [])%list
        | (Ret (Some b), j', v', out') => (j' :: js, v', out' ++ [new_block b], [])%list
        | (Ret None, j', v', out') =>
            if job_completed j' then
              (j' :: js, v',
               out' ++ [match job_error j' with
                        | Some err => MsgErrorText (id j') err (file_num j')
                        | None => new_done (id j') (file_num j')
                        end], [id j'])%list
            else (j' :: js, v', out', [])
        | (Panic, j', v', out') => (j' :: js, v', out', [])
        end
  end.

Definition handle_read_jobs (jobs : list TransferJob) (v : vfs)
    : list TransferJob * vfs * list FileMessage :=
  let '(jobs, v, out) := init_jobs jobs v [] in
  let '(jobs, v, out, finished) := read_first jobs v out in
  (foldl (λ js i, remove_job i js) jobs finished, v, out).
End job.
