(* ===== verification/Jobs.v ===== *)
(** * What the operations of a job preserve

    A job is changed in few ways ([stable]): its stream is replaced, its sizes grow,
    it goes to another file, it is confirmed or skipped.  A predicate that these keep
    is kept by every operation of [Transfer]: [write], [read], [confirm],
    [modify_time], [remove_download_file] and the driver [handle_read_jobs].  The
    machine types of the fields are such a predicate ([job_typed]). *)

From S2P Require Import Prelude Strs Vfs Fs Transfer.
From Stdlib Require Import Ascii String.

Local Open Scope list_scope.
#[local] Abbreviation length := Datatypes.length.

(** [fn]: the file numbers the operation may set. *)
Record writable (P : TransferJob → Prop) (fn : Z → Prop) : Prop := {
  st_stream : ∀ s j, P j → P (set_stream s j);
  st_sizes : ∀ a b j, P j → P (add_sizes a b j);
  st_num : ∀ n j, fn n → P j → P (set_file_num n j)
}.
Record stable (P : TransferJob → Prop) (fn : Z → Prop) : Prop := {
  st_writable : writable P fn;
  st_next : ∀ j, P j → P (next_file j);
  st_skipped : ∀ j, P j → P (set_file_skipped j);
  st_confirmed : ∀ j, P j → P (set_file_confirmed true j);
  st_waiting : ∀ c w j, P j → P (set_confirmed_waiting c w j);
  st_source : ∀ d s j, P j → P (j <| data_source := d |> <| data_stream := s |>)
}.

Definition jkeeps {A} (P : TransferJob → Prop) (m : J A) : Prop := ∀ w, P (w_job w) → P (w_job (m w).2).

Section Keeps.
Context (P : TransferJob → Prop).
#[local] Abbreviation K := (jkeeps P).

Lemma jkeeps_bind {A B} (m : J A) (f : A → J B) : K m → (∀ a, K (f a)) → K (m ≫= f).
Proof.
  intros Hm Hf w Hw. unfold mbind, J_bind. specialize (Hm w Hw).
  destruct (m w) as [[a|e|] w1]; [by apply Hf|done..].
Qed.

(** A read of the job, of which the predicate holds. *)
Lemma jkeeps_get {A} (f : TransferJob → J A) : (∀ j, P j → K (f j)) → K (get_job ≫= f).
Proof. intros H w Hw. by apply (H (w_job w) Hw w). Qed.

Lemma jkeeps_still {A} (m : J A) : (∀ w, w_job (m w).2 = w_job w) → K m.
Proof. intros H w Hw. by rewrite H. Qed.

Lemma jkeeps_modify f : (∀ j, P j → P (f j)) → K (modify_job f).
Proof. intros H w Hw. by apply H. Qed.

Lemma jkeeps_lift {A} (r : result error A) : K (lift r).
Proof. apply jkeeps_still. intros w. by destruct r. Qed.

Lemma jkeeps_do_fs r : K (do_fs r).
Proof. apply jkeeps_still. intros w. unfold do_fs. by destruct (r (w_fs w)). Qed.
End Keeps.

(** Steps through a program, one construct at a time. *)
Ltac jkeep :=
  repeat (match goal with
  | |- jkeeps _ (get_job ≫= _) => apply jkeeps_get; intros ? ?
  | |- jkeeps _ (_ ≫= _) => apply jkeeps_bind; [|intros ?]
  | |- jkeeps _ (modify_job _) => apply jkeeps_modify; intros ? ?
  | |- jkeeps _ (lift _) => apply jkeeps_lift
  | |- jkeeps _ (do_fs _) => apply jkeeps_do_fs
  | |- jkeeps _ (mret _) => apply jkeeps_still; intros ?; reflexivity
  | |- jkeeps _ (fail _) => apply jkeeps_still; intros ?; reflexivity
  | |- jkeeps _ panic => apply jkeeps_still; intros ?; reflexivity
  | |- jkeeps _ get_fs => apply jkeeps_still; intros ?; reflexivity
  | |- jkeeps _ (put_fs _) => apply jkeeps_still; intros ?; reflexivity
  | |- jkeeps _ (try_fs _) => apply jkeeps_still; intros ?; reflexivity
  | |- jkeeps _ (Transfer.send _) => apply jkeeps_still; intros ?; reflexivity
  | |- jkeeps _ (if _ then _ else _) => case_match
  | |- jkeeps _ (match ?x with _ => _ end) => destruct x
  | |- jkeeps _ (let _ := _ in _) => cbv zeta
  end).

Section Operations.
Context (compress decompress : list Z → list Z) (json_of_digest : FileDigest → list Z).
Context (set_file_mtime : vfs → string → Z → vfs) (short : nat → nat).
Context (P : TransferJob → Prop) (fn : Z → Prop) (HW : writable P fn).
#[local] Abbreviation K := (jkeeps P).

Lemma keeps_modify_time : K (modify_time set_file_mtime).
Proof. unfold modify_time. jkeep. Qed.

Lemma keeps_remove_download_file : K remove_download_file.
Proof. unfold remove_download_file. jkeep. Qed.

Lemma keeps_write_stream none buf : K (write_stream none buf).
Proof. unfold write_stream. jkeep; by apply HW. Qed.

Lemma keeps_open_for_write p b : fn (blk_file_num b) → K (open_for_write json_of_digest set_file_mtime p b).
Proof.
  intros Hb. unfold open_for_write. apply jkeeps_bind; [apply keeps_modify_time|intros _].
  apply jkeeps_bind; [apply jkeeps_modify; intros j Hj; by apply HW|intros _]. jkeep; by apply HW.
Qed.

Lemma keeps_write b : fn (blk_file_num b) → K (write decompress json_of_digest set_file_mtime b).
Proof.
  intros Hb. unfold write. apply jkeeps_get. intros j Hj. case_match; [jkeep|].
  apply jkeeps_bind.
  - destruct (data_source j); [|jkeep; by apply HW]. jkeep. by apply keeps_open_for_write.
  - intros _. case_match; cbv zeta;
      (apply jkeeps_bind; [apply keeps_write_stream|intros _; apply jkeeps_modify; intros ? ?; by apply HW]).
Qed.

Context (HS : stable P fn).

Lemma keeps_open_data_stream : K open_data_stream.
Proof.
  unfold open_data_stream. jkeep; try by (apply HW || apply HS).
  by apply (st_waiting _ _ HS), (st_stream _ _ HW).
Qed.

Lemma keeps_init_data_stream : K init_data_stream.
Proof.
  unfold init_data_stream, send_current_digest, get_current_digest, set_file_is_waiting.
  apply jkeeps_bind; [apply keeps_open_data_stream|intros done]. jkeep. by apply HS.
Qed.

Lemma keeps_read : K (read compress short).
Proof. unfold read. jkeep; by (apply HW || apply HS). Qed.

Lemma keeps_confirm r : K (confirm r).
Proof. unfold confirm, set_stream_offset. jkeep; try by (apply HW || apply HS). by apply (st_sizes _ _ HW), (st_stream _ _ HW). Qed.

Lemma keeps_run {A} (m : J A) j v out r j' v' out' :
  K m → P j → run_job m j v out = (r, j', v', out') → P j'.
Proof.
  intros Hm Hj. unfold run_job. specialize (Hm (Build_world j v out) Hj).
  destruct (m _) as [r1 w]. intros E. injection E as _ <- _ _. exact Hm.
Qed.

Lemma keeps_init_jobs jobs v out : Forall P jobs → Forall P (init_jobs jobs v out).1.1.
Proof.
  intros H. revert v out. induction H as [|j jobs Hj _ IH]; intros v out; [constructor|]. cbn [init_jobs].
  destruct (if is_last_job j then _ else _) as [[j' v'] out'] eqn:E.
  specialize (IH v' out'). destruct (init_jobs jobs v' out') as [[js v''] out'']. constructor; [|exact IH].
  destruct (is_last_job j); [by simplify_eq|].
  destruct (run_job init_data_stream j v out) as [[[[a|e|] j1] v1] out1] eqn:Er; injection E as <- _ _;
    exact (keeps_run _ _ _ _ _ _ _ _ keeps_init_data_stream Hj Er).
Qed.

Lemma keeps_read_first jobs v out : Forall P jobs → Forall P (read_first compress short jobs v out).1.1.1.
Proof.
  intros H. revert v out. induction H as [|j jobs Hj Hjs IH]; intros v out; [constructor|]. cbn [read_first].
  destruct (is_last_job j).
  - specialize (IH v out). destruct (read_first _ _ jobs v out) as [[[js' v'] out'] fin]. by constructor.
  - destruct (run_job _ j v out) as [[[r j1] v1] out1] eqn:Er.
    pose proof (keeps_run _ _ _ _ _ _ _ _ keeps_read Hj Er). repeat case_match; by constructor.
Qed.

Lemma keeps_remove_job i jobs : Forall P jobs → Forall P (remove_job i jobs).
Proof. induction 1; cbn [remove_job]; [constructor|]. case_match; [done|by constructor]. Qed.

Lemma keeps_handle_read_jobs jobs v : Forall P jobs → Forall P (handle_read_jobs compress short jobs v).1.1.
Proof.
  intros H. unfold handle_read_jobs. pose proof (keeps_init_jobs jobs v [] H) as H1.
  destruct (init_jobs jobs v []) as [[js1 v1] out1]. pose proof (keeps_read_first js1 v1 out1 H1) as H2.
  destruct (read_first _ _ js1 v1 out1) as [[[js2 v2] out2] fin]. cbn [fst snd] in *.
  clear -H2. revert js2 H2. induction fin as [|i fin IH]; intros js H; [done|]. cbn [foldl].
  by apply IH, keeps_remove_job.
Qed.
End Operations.

(** ** Machine types *)

Record job_typed (j : TransferJob) : Prop := {
  ty_id : sint 32 (id j);
  ty_num : sint 32 (file_num j);
  ty_conn : sint 32 (conn_id j);
  ty_total : uint 64 (total_size j);
  ty_finished : uint 64 (finished_size j);
  ty_transferred : uint 64 (transferred j)
}.

Lemma job_typed_stable : stable job_typed (sint 32).
Proof.
  split; [split|..]; intros; match goal with H : job_typed _ |- _ => destruct H end; split; try done;
    try (apply wrap_uint; lia); apply swrap_sint; lia.
Qed.

Lemma not_skipped_writable : writable (λ j, file_skipped j = false) (λ _, True).
Proof. done. Qed.


Lemma mk_job_typed i t remote src fn hidden is_remote od fs total :
  sint 32 i → sint 32 fn → uint 64 total → job_typed (mk_job i t remote src fn hidden is_remote od fs total).
Proof. intros. split; try done; split; simpl; lia. Qed.

Lemma sum_sizes_typed l : uint 64 (sum_sizes l).
Proof. apply wrap_uint. lia. Qed.

(** ** Operations that send nothing *)

Definition jsilent {A} (m : J A) : Prop := ∀ w, w_sent (m w).2 = w_sent w.

Lemma jsilent_bind {A B} (m : J A) (f : A → J B) : jsilent m → (∀ a, jsilent (f a)) → jsilent (m ≫= f).
Proof.
  intros Hm Hf w. unfold mbind, J_bind. specialize (Hm w). destruct (m w) as [[a|e|] w1]; [|done..].
  etransitivity; [apply Hf|done].
Qed.
Lemma jsilent_lift {A} (r : result error A) : jsilent (lift r).
Proof. intros w. by destruct r. Qed.
Lemma jsilent_do_fs r : jsilent (do_fs r).
Proof. intros w. unfold do_fs. by destruct (r (w_fs w)). Qed.

Ltac jquiet :=
  repeat (match goal with
  | |- jsilent (_ ≫= _) => apply jsilent_bind; [|intros ?]
  | |- jsilent (lift _) => apply jsilent_lift
  | |- jsilent (do_fs _) => apply jsilent_do_fs
  | |- jsilent (if _ then _ else _) => case_match
  | |- jsilent (match ?x with _ => _ end) => destruct x
  | |- jsilent (let _ := _ in _) => cbv zeta
  | |- jsilent _ => intros ?; reflexivity
  end).

Lemma write_silent decompress json_of_digest set_file_mtime b :
  jsilent (write decompress json_of_digest set_file_mtime b).
Proof. unfold write, open_for_write, modify_time, write_stream. jquiet. Qed.
