(* ===== verification/Receive.v ===== *)
(** * Receiving files

    The receiving side of [Transfer]: the blocks of a job, written one after
    another, leave exactly the sent files in the destination directory.  The
    lemmas follow a job through [write] and [modify_time]; what lies outside the
    names a file uses (itself, [.download], [.digest]) is untouched. *)

From S2P Require Import Prelude Strs Version Vfs Fs Transfer.
From Stdlib Require Import Ascii String.

Local Open Scope list_scope.
#[local] Abbreviation length := Datatypes.length.
#[local] Arguments String.append _ _ : simpl nomatch.

(** ** Well-formed file systems *)

(** Files own their inodes: no hard links, no dangling numbers. *)
Record wf (v : vfs) : Prop := {
  wf_lt : ∀ l i, node_at v l = Some (NFile i) → (i < next_ino v)%nat;
  wf_inj : ∀ l1 l2 i, node_at v l1 = Some (NFile i) → node_at v l2 = Some (NFile i) → l1 = l2;
  wf_ino : ∀ l i, node_at v l = Some (NFile i) → is_Some (inodes v !! i);
}.

Definition data_of (v : vfs) (i : nat) : option (list Z) := i_data <$> inodes v !! i.

Definition content_at (v : vfs) (l : loc) (d : list Z) : Prop :=
  ∃ i, node_at v l = Some (NFile i) ∧ data_of v i = Some d.

(** [v'] differs from [v] at most at the locations [L] and their files. *)
Record chg (L : list loc) (v v' : vfs) : Prop := {
  chg_wf : wf v';
  chg_node : ∀ l, l ∉ L → node_at v' l = node_at v l;
  chg_data : ∀ l i, l ∉ L → node_at v l = Some (NFile i) → data_of v' i = data_of v i;
}.

Lemma chg_refl L v : wf v → chg L v v.
Proof. by split. Qed.

Lemma chg_trans L v1 v2 v3 : chg L v1 v2 → chg L v2 v3 → chg L v1 v3.
Proof.
  intros [W1 N1 D1] [W2 N2 D2]. split; [done| |].
  - intros l Hl. by rewrite N2, N1.
  - intros l i Hl Hi. rewrite (D2 l i) by (rewrite ?N1; done). by apply (D1 l).
Qed.

Lemma chg_mono L L' v v' : (∀ l, l ∈ L → l ∈ L') → chg L v v' → chg L' v v'.
Proof.
  intros Hs [W N D]. split; [done| |].
  - intros l Hl. apply N. auto.
  - intros l i Hl. apply D. auto.
Qed.

Lemma chg_content L v v' l d : chg L v v' → l ∉ L → content_at v l d → content_at v' l d.
Proof.
  intros [W N D] Hl (i & Hi & Hd). exists i. split; [by rewrite N|]. by rewrite (D l).
Qed.

(** Only names of files change, so directories stay. *)
Lemma chg_dirs L v v' par :
  chg L v v' → (∀ l, l ∈ L → is_file_or_none (node_at v l) = true) → dirs v par → dirs v' par.
Proof.
  intros [W N D] HL Hd k Hk. specialize (Hd k Hk). rewrite N; [done|].
  intros Hin. specialize (HL _ Hin). by destruct (node_at v (take k par)) as [[]|].
Qed.

Lemma node_at_root v : node_at v [] = Some (NDir 0).
Proof. done. Qed.

(** Changing the tree at one location that is not the root. *)
Lemma node_at_insert v l n l' :
  l ≠ [] → node_at (set_tree (<[l := n]> (tree v)) v) l' = if decide (l = l') then Some n else node_at v l'.
Proof.
  intros Hl. destruct l' as [|x l']; [by rewrite decide_False|]. simpl.
  case_decide as E; [subst; by simplify_map_eq|by rewrite lookup_insert_ne].
Qed.

Lemma node_at_delete v l l' :
  l ≠ [] → node_at (set_tree (delete l (tree v)) v) l' = if decide (l = l') then None else node_at v l'.
Proof.
  intros Hl. destruct l' as [|x l']; [by rewrite decide_False|]. simpl.
  case_decide as E; [subst; by simplify_map_eq|by rewrite lookup_delete_ne].
Qed.

Lemma chg_delete L v l : wf v → l ≠ [] → l ∈ L → chg L v (set_tree (delete l (tree v)) v).
Proof.
  intros W Hl HL. split.
  - split; intros *; rewrite ?node_at_delete by done; repeat case_decide; try done; apply W.
  - intros l' Hl'. rewrite node_at_delete by done. case_decide; [by subst|done].
  - done.
Qed.

Lemma chg_move L v a c i :
  wf v → a ≠ [] → c ≠ [] → a ≠ c → a ∈ L → c ∈ L → node_at v a = Some (NFile i) →
  chg L v (set_tree (<[c := NFile i]> (delete a (tree v))) v).
Proof.
  intros W Ha Hc Hac HaL HcL Hi.
  assert (∀ l, node_at (set_tree (<[c := NFile i]> (delete a (tree v))) v) l =
    if decide (c = l) then Some (NFile i) else if decide (a = l) then None else node_at v l) as Hn.
  { intros l. pose proof (node_at_insert (set_tree (delete a (tree v)) v) c (NFile i) l Hc) as E.
    etrans; [exact E|]. case_decide; [done|]. by apply node_at_delete. }
  split.
  - split; intros *; rewrite ?Hn; repeat case_decide; intros; simplify_eq; try done;
      try (by eapply (wf_lt _ W)); try (by eapply (wf_ino _ W)); try (by eapply (wf_inj _ W));
      exfalso; match goal with H : a ≠ _ |- _ => apply H end; by eapply (wf_inj _ W).
  - intros l Hl. rewrite Hn. repeat case_decide; by subst.
  - done.
Qed.

Lemma chg_create L v l :
  wf v → l ≠ [] → l ∈ L → node_at v l = None →
  chg L v {| tree := <[l := NFile (next_ino v)]> (tree v);
             inodes := <[next_ino v := Build_Inode [] (clock v)]> (inodes v);
             next_ino := S (next_ino v); clock := clock v |}.
Proof.
  intros W Hl HL Hn0. set (v' := Build_vfs _ _ _ _).
  assert (∀ l', node_at v' l' = if decide (l = l') then Some (NFile (next_ino v)) else node_at v l') as Hn.
  { intros l'. pose proof (node_at_insert v l (NFile (next_ino v)) l' Hl) as E. by destruct l'. }
  assert (∀ l' i, node_at v l' = Some (NFile i) → i ≠ next_ino v) as Hlt.
  { intros l' i Hi. apply (wf_lt _ W) in Hi. lia. }
  split.
  - split; intros *; rewrite ?Hn; repeat case_decide; intros; simplify_eq; simpl; try done.
    + lia.
    + match goal with H : node_at v _ = _ |- _ => apply (wf_lt _ W) in H end. lia.
    + exfalso. by eapply Hlt.
    + exfalso. by eapply Hlt.
    + by eapply (wf_inj _ W).
    + by simplify_map_eq.
    + rewrite lookup_insert_ne by (symmetry; by eapply Hlt). by eapply (wf_ino _ W).
  - intros l' Hl'. rewrite Hn. case_decide; by subst.
  - intros l' i Hl' Hi. unfold data_of. cbn [inodes v'].
    rewrite lookup_insert_ne; [done|]. symmetry. by eapply Hlt.
Qed.

(** Replacing the contents of one file. *)
Lemma chg_inode L v l i d :
  wf v → l ∈ L → node_at v l = Some (NFile i) → chg L v (set_inodes (<[i := d]> (inodes v)) v).
Proof.
  intros W HL Hi. assert (∀ l', node_at (set_inodes (<[i := d]> (inodes v)) v) l' = node_at v l') as Hn.
  { by intros []. }
  split.
  - split; intros *; rewrite ?Hn; try apply W. intros H. simpl.
    destruct (decide (i = i0)) as [->|]; [by simplify_map_eq|].
    rewrite lookup_insert_ne by done. by eapply (wf_ino _ W).
  - intros l' _. by rewrite Hn.
  - intros l' i' Hl' Hi'. unfold data_of. simpl. rewrite lookup_insert_ne; [done|].
    intros ->. apply Hl'. by rewrite (wf_inj _ W l' l i').
Qed.

(** A change of times only. *)
Definition times_only (v v' : vfs) : Prop :=
  tree v' = tree v ∧ next_ino v' = next_ino v ∧ clock v' = clock v
  ∧ ∀ i, data_of v' i = data_of v i.

Lemma times_only_node v v' l : times_only v v' → node_at v' l = node_at v l.
Proof. intros (E & _). destruct l; [done|]. simpl. by rewrite E. Qed.

Lemma chg_times L v v' : wf v → times_only v v' → chg L v v'.
Proof.
  intros W H. assert (∀ l, node_at v' l = node_at v l) as Hn by by intros l; apply times_only_node.
  destruct H as (Et & En & Ec & Ed). split.
  - split; intros *; rewrite ?Hn, ?En; [apply W|apply W|]. intros Hl%(wf_ino _ W).
    specialize (Ed i). unfold data_of in Ed. by destruct (inodes v' !! i), (inodes v !! i).
  - intros l _. apply Hn.
  - intros l i _ _. apply Ed.
Qed.

(** ** The three names a received file uses *)

Definition dl (leaf : string) : string := (leaf ++ ".download")%string.
Definition dg (leaf : string) : string := (leaf ++ ".digest")%string.
Definition slot (par : loc) (leaf : string) : list loc :=
  [par ++ [leaf]; par ++ [dl leaf]; par ++ [dg leaf]].

Record clean (v : vfs) (par : loc) (leaf : string) : Prop := {
  clean_dirs : dirs v par;
  clean_slot : ∀ l, l ∈ slot par leaf → is_file_or_none (node_at v l) = true;
}.

Definition names_ok (par : loc) (leaf : string) : Prop := Forall name_ok par ∧ name_ok leaf.

Lemma suffix_ne s suf t :
  (str_len t <= 2)%nat → (3 <= str_len suf)%nat → (s ++ suf)%string ≠ t.
Proof. intros Ht Hs <-. rewrite str_len_app in Ht. lia. Qed.

Lemma name_ok_suffix s suf :
  contains_char "/" suf = false → contains_char "000" suf = false → (3 <= str_len suf)%nat →
  name_ok s → name_ok (s ++ suf)%string.
Proof.
  intros H1 H2 H3 (E1 & _ & _ & E2 & E3). repeat split.
  - by destruct s.
  - by apply suffix_ne; [simpl; lia|].
  - by apply suffix_ne; [simpl; lia|].
  - by rewrite contains_char_app, E2.
  - by rewrite contains_char_app, E3.
Qed.

Lemma name_ok_dl s : name_ok s → name_ok (dl s).
Proof. by apply name_ok_suffix; vm_compute; try lia. Qed.
Lemma name_ok_dg s : name_ok s → name_ok (dg s).
Proof. by apply name_ok_suffix; vm_compute; try lia. Qed.

Lemma names_ok_snoc par s : Forall name_ok par → name_ok s → Forall name_ok (par ++ [s]).
Proof. intros. apply Forall_app. split; [done|]. by constructor. Qed.

Lemma append_ne_self s t : t ≠ ""%string → (s ++ t)%string ≠ s.
Proof.
  intros Ht E. apply (f_equal str_len) in E. rewrite str_len_app in E.
  destruct t; [done|]. simpl in E. lia.
Qed.

Lemma append_inj s t u : (s ++ t)%string = (s ++ u)%string → t = u.
Proof. induction s as [|a s IH]; simpl; [done|]. intros. apply IH. congruence. Qed.

Lemma snoc_ne (par : loc) a b : a ≠ b → par ++ [a] ≠ par ++ [b].
Proof. intros H E. by apply (inj (par ++.)) in E; simplify_eq. Qed.

Lemma dl_ne s : dl s ≠ s.
Proof. by apply append_ne_self. Qed.
Lemma dg_ne s : dg s ≠ s.
Proof. by apply append_ne_self. Qed.
Lemma dl_dg s : dl s ≠ dg s.
Proof. by intros E%append_inj. Qed.

Lemma snoc_nonempty (par : loc) s : par ++ [s] ≠ [].
Proof. by destruct par. Qed.

#[local] Hint Resolve snoc_nonempty name_ok_dl name_ok_dg names_ok_snoc : core.

Lemma in_slot_leaf par leaf : par ++ [leaf] ∈ slot par leaf.
Proof. by left. Qed.
Lemma in_slot_dl par leaf : par ++ [dl leaf] ∈ slot par leaf.
Proof. by right; left. Qed.
Lemma in_slot_dg par leaf : par ++ [dg leaf] ∈ slot par leaf.
Proof. by right; right; left. Qed.
#[local] Hint Resolve in_slot_leaf in_slot_dl in_slot_dg : core.

Lemma slot_cases par leaf l :
  l ∈ slot par leaf → l = par ++ [leaf] ∨ l = par ++ [dl leaf] ∨ l = par ++ [dg leaf].
Proof. unfold slot. rewrite !elem_of_cons. intros [->|[->|[->|H]]]; auto. by apply not_elem_of_nil in H. Qed.

(** Nodes of files and absent nodes keep a slot clean. *)
Lemma clean_chg v v' par leaf :
  clean v par leaf → chg (slot par leaf) v v' →
  (∀ l, l ∈ slot par leaf → is_file_or_none (node_at v' l) = true) → clean v' par leaf.
Proof.
  intros [Hd Hs] Hc Hs'. split; [|done]. by eapply chg_dirs.
Qed.

(** What a change elsewhere does to a slot. *)
Lemma clean_other v v' L par leaf :
  clean v par leaf → chg L v v' → (∀ l, l ∈ L → is_file_or_none (node_at v l) = true) →
  (∀ l, l ∈ slot par leaf → l ∉ L) → clean v' par leaf.
Proof.
  intros [Hd Hs] Hc HL Hdis. split; [by eapply chg_dirs|].
  intros l Hl. rewrite (chg_node _ _ _ Hc) by auto. auto.
Qed.

Section receive.
Context (decompress : list Z → list Z) (json_of_digest : FileDigest → list Z).
Context (set_file_mtime : vfs → string → Z → vfs).
(** Setting a modification time changes no name and no contents. *)
Hypothesis mtime_law : ∀ v p t, times_only v (set_file_mtime v p t).

#[local] Abbreviation modify_time := (modify_time set_file_mtime).
#[local] Abbreviation open_for_write := (open_for_write json_of_digest set_file_mtime).
#[local] Abbreviation write := (write decompress json_of_digest set_file_mtime).

(** What publishing does to the file system, before the time is set. *)
Definition publish (v : vfs) (path : string) : vfs :=
  let v := ok_or_same (remove_file_at v (digest_path path)) v in
  ok_or_same (rename v (download_path path) path) v.

Lemma path_dl par leaf : download_path (render (par ++ [leaf])) = render (par ++ [dl leaf]).
Proof. apply render_suffix. Qed.
Lemma path_dg par leaf : digest_path (render (par ++ [leaf])) = render (par ++ [dg leaf]).
Proof. apply render_suffix. Qed.

(** The outcome of publishing. *)
Record published (v v' : vfs) (par : loc) (leaf : string) : Prop := {
  pub_chg : chg (slot par leaf) v v';
  pub_clean : clean v' par leaf;
  pub_dl : node_at v' (par ++ [dl leaf]) = None;
  pub_dg : node_at v' (par ++ [dg leaf]) = None;
  pub_leaf : ∀ d, content_at v (par ++ [dl leaf]) d → content_at v' (par ++ [leaf]) d;
}.

Lemma remove_digest v par leaf :
  names_ok par leaf → wf v → clean v par leaf →
  let v' := ok_or_same (remove_file_at v (render (par ++ [dg leaf]))) v in
  chg (slot par leaf) v v' ∧ clean v' par leaf ∧ node_at v' (par ++ [dg leaf]) = None
  ∧ (∀ l, l ≠ par ++ [dg leaf] → node_at v' l = node_at v l) ∧ inodes v' = inodes v.
Proof.
  intros [Hp Hl] W C. pose proof (clean_slot _ _ _ C _ (in_slot_dg par leaf)) as Hf.
  pose proof (clean_dirs _ _ _ C) as Hd.
  destruct (node_at v (par ++ [dg leaf])) as [[i| |]|] eqn:E; try done; cbv zeta.
  - rewrite (remove_file_some v par Hd _ i) by auto. cbn [ok_or_same].
    assert (∀ l, node_at (set_tree (delete (par ++ [dg leaf]) (tree v)) v) l
            = if decide (par ++ [dg leaf] = l) then None else node_at v l) as Hn
      by (intros l; by apply node_at_delete).
    assert (chg (slot par leaf) v (set_tree (delete (par ++ [dg leaf]) (tree v)) v)) as Hc
      by by apply chg_delete.
    split_and!; [done| | | |done].
    + eapply clean_chg; [done..|]. intros l Hin. rewrite Hn.
      case_decide; [done|]. by apply (clean_slot _ _ _ C).
    + rewrite Hn. by case_decide.
    + intros l Hne. rewrite Hn. by rewrite decide_False.
  - rewrite (remove_file_none v par Hd) by auto. cbn [ok_or_same].
    split_and!; done.
Qed.

Lemma publish_spec v par leaf :
  names_ok par leaf → wf v → clean v par leaf →
  published v (publish v (render (par ++ [leaf]))) par leaf.
Proof.
  intros Hok W C. unfold publish. rewrite path_dl, path_dg.
  destruct (remove_digest v par leaf Hok W C) as (Hc1 & C1 & Hg & Ho & Hi).
  set (v1 := ok_or_same _ v) in *. clearbody v1. destruct Hok as [Hp Hl].
  pose proof (clean_slot _ _ _ C1 _ (in_slot_dl par leaf)) as Hf.
  pose proof (clean_dirs _ _ _ C1) as Hd. pose proof (chg_wf _ _ _ Hc1) as W1.
  assert (par ++ [dl leaf] ≠ par ++ [dg leaf]) as N1 by apply snoc_ne, dl_dg.
  assert (par ++ [dl leaf] ≠ par ++ [leaf]) as N2 by apply snoc_ne, dl_ne.
  assert (par ++ [dg leaf] ≠ par ++ [leaf]) as N3 by apply snoc_ne, dg_ne.
  destruct (node_at v1 (par ++ [dl leaf])) as [[i| |]|] eqn:E; try done.
  - rewrite (rename_some v1 par Hd _ _ i)
      by first [solve [auto using dl_ne]|by apply (clean_slot _ _ _ C1)].
    cbn [ok_or_same]. set (v2 := set_tree _ v1).
    assert (chg (slot par leaf) v1 v2) as Hc2 by by apply chg_move.
    assert (∀ l, node_at v2 l = if decide (par ++ [leaf] = l) then Some (NFile i) else
                 if decide (par ++ [dl leaf] = l) then None else node_at v1 l) as Hn.
    { intros l. etrans; [exact (node_at_insert (set_tree (delete (par ++ [dl leaf]) (tree v1)) v1)
                          _ _ _ (snoc_nonempty _ _))|].
      case_decide; [done|]. by apply node_at_delete. }
    split.
    + by eapply chg_trans.
    + eapply clean_chg; [exact C1|done|]. intros l Hin. rewrite Hn.
      repeat case_decide; try done. by apply (clean_slot _ _ _ C1).
    + rewrite Hn. by rewrite decide_False, decide_True.
    + rewrite Hn. by rewrite !decide_False.
    + intros d (k & Hk & Hdk). exists i. rewrite Hn, decide_True by done. split; [done|].
      rewrite <- Ho, E in Hk by done. simplify_eq. unfold data_of, v2. simpl. by rewrite Hi.
  - rewrite (rename_none v1 par Hd) by auto. cbn [ok_or_same]. split; try done.
    intros d (k & Hk & _). rewrite <- Ho, E in Hk; done.
Qed.

Lemma published_times v v1 v2 par leaf :
  published v v1 par leaf → times_only v1 v2 → published v v2 par leaf.
Proof.
  intros [Hc C H1 H2 H3] Ht.
  assert (∀ l, node_at v2 l = node_at v1 l) as Hn by (intros l; by apply times_only_node).
  assert (chg (slot par leaf) v1 v2) as Hc2 by (apply chg_times; [apply Hc|done]).
  split; rewrite ?Hn; try done.
  - by eapply chg_trans.
  - eapply clean_chg; [done..|]. intros l Hl. rewrite Hn. by apply (clean_slot _ _ _ C).
  - intros d (i & Hi & Hd)%H3. exists i. rewrite Hn. split; [done|].
    destruct Ht as (_ & _ & _ & Ht). by rewrite Ht.
Qed.

(** The entry a job works on, and where it goes. *)
Definition at_entry (j : TransferJob) (p : string) (e : FileEntry) : Prop :=
  type j = Generic ∧ data_source j = FilePath p ∧ entry_at j (file_num j) = Some e.

Lemma modify_time_run j v out p e par leaf :
  at_entry j p e → join_validated_path v p (fe_name e) = Ok (render (par ++ [leaf])) →
  names_ok par leaf → wf v → clean v par leaf →
  ∃ v', modify_time (Build_world j v out) = (Ret tt, Build_world j v' out)
    ∧ published v v' par leaf.
Proof.
  intros (Ht & Hs & He) Hj Hok W C. unfold Transfer.modify_time.
  unfold mbind, J_bind, get_job, get_fs, try_fs, put_fs. cbn [w_job w_fs w_sent].
  rewrite Ht, Hs, He. unfold resolve_entry_path. rewrite Hj. cbn [ok_of w_job w_fs w_sent].
  eexists. split; [reflexivity|]. eapply published_times; [|apply mtime_law].
  by apply publish_spec.
Qed.

(** The state while a file is being received. *)
Record receiving (j : TransferJob) (v : vfs) (par : loc) (leaf : string) (d : list Z) : Prop := {
  rc_clean : clean v par leaf;
  rc_node : ∃ i, node_at v (par ++ [dl leaf]) = Some (NFile i) ∧ data_of v i = Some d
              ∧ data_stream j = Some (FileStream {| h_ino := Some i; h_pos := length d;
                                                    h_write := true |});
}.

Lemma parent_render par leaf :
  names_ok par leaf →
  parent_components (components (render (par ++ [leaf]))) = Some (RootDir :: map Normal par).
Proof.
  intros [Hp Hl]. unfold parent_components.
  assert (components (render (par ++ [leaf])) = RootDir :: map Normal (par ++ [leaf])) as ->.
  { pose proof (names_ok_snoc par leaf Hp Hl). destruct par as [|x l]; by apply components_render. }
  by rewrite plain_snoc, last_snoc, removelast_last.
Qed.

(** [File::create] on the [.download] name. *)
Lemma create_download v par leaf :
  names_ok par leaf → wf v → clean v par leaf →
  ∃ i v', file_create v (render (par ++ [dl leaf]))
            = Ok ({| h_ino := Some i; h_pos := 0; h_write := true |}, v')
    ∧ chg [par ++ [dl leaf]] v v' ∧ node_at v' (par ++ [dl leaf]) = Some (NFile i)
    ∧ data_of v' i = Some [] ∧ (∀ l, l ≠ par ++ [dl leaf] → node_at v' l = node_at v l).
Proof.
  intros [Hp Hl] W C. pose proof (clean_slot _ _ _ C _ (in_slot_dl par leaf)) as Hf.
  pose proof (clean_dirs _ _ _ C) as Hd.
  destruct (node_at v (par ++ [dl leaf])) as [[i| |]|] eqn:E; try done.
  - exists i. eexists. split; [apply file_create_trunc; auto|]. split_and!.
    + by eapply chg_inode; [|left|].
    + rewrite node_at_snoc in E |- *. done.
    + unfold data_of. simpl. by simplify_map_eq.
    + by intros [].
  - exists (next_ino v). eexists. split; [apply file_create_new; auto|]. split_and!.
    + by apply chg_create; [| |left|].
    + rewrite node_at_snoc. simpl. by simplify_map_eq.
    + unfold data_of. simpl. by simplify_map_eq.
    + intros l Hne. destruct l as [|x l]; [done|]. simpl. by rewrite lookup_insert_ne.
Qed.

(** [std::fs::write] of the digest, whose name is free. *)
Lemma write_digest v par leaf buf :
  names_ok par leaf → wf v → clean v par leaf → node_at v (par ++ [dg leaf]) = None →
  ∃ v', write_path v (render (par ++ [dg leaf])) buf = Ok v' ∧ chg [par ++ [dg leaf]] v v'
    ∧ is_file_or_none (node_at v' (par ++ [dg leaf])) = true.
Proof.
  intros [Hp Hl] W C Hn. pose proof (clean_dirs _ _ _ C) as Hd.
  unfold write_path. rewrite (file_create_new v par Hd) by auto. cbn [mbind result_bind fst snd].
  set (v1 := Build_vfs _ _ _ _).
  assert (chg [par ++ [dg leaf]] v v1) as Hc by (apply chg_create; auto; by left).
  assert (node_at v1 (par ++ [dg leaf]) = Some (NFile (next_ino v))) as Hn1.
  { rewrite node_at_snoc. simpl. by simplify_map_eq. }
  unfold file_write_all. cbn [h_ino h_write h_pos].
  replace (inodes v1 !! next_ino v) with (Some (Build_Inode [] (clock v)))
    by (symmetry; simpl; by simplify_map_eq).
  cbn [fst snd mbind result_bind]. eexists. split; [reflexivity|]. case_bool_decide.
  - by rewrite Hn1.
  - split.
    + eapply chg_trans; [done|]. eapply chg_inode; [apply Hc|by left|done].
    + rewrite node_at_snoc in Hn1 |- *. simpl in Hn1 |- *. by rewrite Hn1.
Qed.

Lemma dg_notin_dl par leaf : par ++ [dl leaf] ∉ [par ++ [dg leaf]].
Proof. rewrite list_elem_of_singleton. by apply snoc_ne, dl_dg. Qed.

(** Opening the stream for a file. *)
Lemma open_run j v out p e0 par0 leaf0 block e par leaf :
  at_entry j p e0 → files j !! Z.to_nat (to_usize (blk_file_num block)) = Some e →
  (∀ v, clean v par0 leaf0 → join_validated_path v p (fe_name e0) = Ok (render (par0 ++ [leaf0]))) →
  (∀ v, clean v par leaf → join_validated_path v p (fe_name e) = Ok (render (par ++ [leaf]))) →
  names_ok par0 leaf0 → names_ok par leaf →
  wf v → clean v par0 leaf0 → clean v par leaf →
  (∀ v', published v v' par0 leaf0 → clean v' par leaf) →
  ∃ v1 v2 s, open_for_write p block (Build_world j v out)
      = (Ret tt, Build_world (set_stream s (set_file_num (blk_file_num block) j)) v2 out)
    ∧ published v v1 par0 leaf0 ∧ chg (slot par leaf) v1 v2
    ∧ receiving (set_stream s (set_file_num (blk_file_num block) j)) v2 par leaf []
    ∧ (∀ d, content_at v1 (par ++ [leaf]) d → content_at v2 (par ++ [leaf]) d).
Proof.
  intros He0 He Hj0 Hj Hok0 Hok W C0 C Hkeep.
  destruct (modify_time_run j v out p e0 par0 leaf0) as (v1 & E1 & P1); auto.
  specialize (Hkeep v1 P1). pose proof (chg_wf _ _ _ (pub_chg _ _ _ _ P1)) as W1.
  destruct (remove_digest v1 par leaf Hok W1 Hkeep) as (Hc2 & C2 & Hg2 & Ho2 & Hi2).
  set (v2 := ok_or_same (remove_file_at v1 (render (par ++ [dg leaf]))) v1) in *.
  pose proof (chg_wf _ _ _ Hc2) as W2.
  destruct (create_download v2 par leaf Hok W2 C2) as (i & v3 & E3 & Hc3' & Hn3 & Hd3 & Ho3).
  assert (chg (slot par leaf) v2 v3) as Hc3.
  { eapply chg_mono; [|done]. intros l ->%list_elem_of_singleton. apply in_slot_dl. }
  assert (node_at v3 (par ++ [dg leaf]) = None) as Hg3.
  { rewrite Ho3; [done|]. intros E. symmetry in E. by apply (snoc_ne par _ _ (dl_dg leaf)). }
  pose proof (chg_wf _ _ _ Hc3) as W3.
  assert (clean v3 par leaf) as C3.
  { eapply clean_chg; [exact C2|done|]. intros l Hl.
    destruct (decide (l = par ++ [dl leaf])) as [->|]; [by rewrite Hn3|].
    rewrite Ho3 by done. by apply (clean_slot _ _ _ C2). }
  destruct (write_digest v3 par leaf (json_of_digest (digest j)) Hok W3 C3 Hg3)
    as (v4 & E4 & Hc4 & Hf4).
  assert (chg (slot par leaf) v3 v4) as Hc4'.
  { eapply chg_mono; [|done]. intros l ->%list_elem_of_singleton. apply in_slot_dg. }
  exists v1, v4, (Some (FileStream {| h_ino := Some i; h_pos := 0; h_write := true |})).
  destruct He0 as (Ht0 & Hs0 & Hen0).
  split.
  { unfold Transfer.open_for_write, mbind, J_bind. rewrite E1.
    unfold modify_job, get_job, get_fs. cbn [w_job w_fs w_sent].
    cbn [files type digest set_file_num upd]. rewrite He, Ht0.
    unfold lift. rewrite (Hj v1 Hkeep). rewrite parent_render by done. unfold put_fs at 1.
    cbn [w_job w_fs w_sent]. rewrite create_dir_all_exists by apply Hkeep.
    cbn [snd]. rewrite path_dg, path_dl.
    assert ((if path_exists v1 (render (par ++ [dg leaf]))
             then do_fs (λ v, remove_file_at v (render (par ++ [dg leaf]))) else mret tt)
            (Build_world (set_file_num (blk_file_num block) j) v1 out)
            = (Ret tt, Build_world (set_file_num (blk_file_num block) j) v2 out)) as ->.
    { unfold path_exists. destruct Hok as [Hp Hl].
      pose proof (clean_slot _ _ _ Hkeep _ (in_slot_dg par leaf)) as Hf.
      rewrite stat_plain by (try apply file_or_none_no_link; auto; apply Hkeep).
      unfold v2, do_fs.
      destruct (node_at v1 (par ++ [dg leaf])) as [[k| |]|] eqn:Ek; try done.
      - cbn [is_ok w_fs w_job w_sent].
        rewrite (remove_file_some v1 par (clean_dirs _ _ _ Hkeep) _ k) by auto. done.
      - cbn [is_ok]. rewrite (remove_file_none v1 par (clean_dirs _ _ _ Hkeep)) by auto. done. }
    cbn [w_job w_fs w_sent]. rewrite E3. cbn [io snd fst put_fs w_job w_fs w_sent].
    unfold try_fs; cbn [w_job w_fs w_sent ok_or_same]. rewrite E4. done. }
  split_and!; [done| | |].
  - eapply chg_trans; [done|]. by eapply chg_trans.
  - split.
    + eapply clean_chg; [exact C3|done|]. intros l Hl.
      destruct (decide (l = par ++ [dg leaf])) as [->|]; [done|].
      rewrite (chg_node _ _ _ Hc4) by (by rewrite list_elem_of_singleton).
      by apply (clean_slot _ _ _ C3).
    + exists i. split_and!; [| |done].
      * rewrite (chg_node _ _ _ Hc4); [done|apply dg_notin_dl].
      * rewrite (chg_data _ _ _ Hc4 (par ++ [dl leaf])); [done|apply dg_notin_dl|done].
  - intros d (k & Hk & Hdk). exists k.
    assert (par ++ [leaf] ∉ [par ++ [dg leaf]]) as Hn.
    { rewrite list_elem_of_singleton. intros E. symmetry in E. by apply (snoc_ne par _ _ (dg_ne leaf)). }
    assert (node_at v2 (par ++ [leaf]) = Some (NFile k)) as Hk2.
    { rewrite Ho2; [done|]. intros E. symmetry in E. by apply (snoc_ne par _ _ (dg_ne leaf)). }
    assert (node_at v3 (par ++ [leaf]) = Some (NFile k)) as Hk3.
    { rewrite Ho3; [done|]. intros E. symmetry in E. by apply (snoc_ne par _ _ (dl_ne leaf)). }
    rewrite (chg_node _ _ _ Hc4) by done. split; [done|].
    rewrite (chg_data _ _ _ Hc4 (par ++ [leaf])) by done.
    assert (par ++ [leaf] ∉ [par ++ [dl leaf]]) as Hn'.
    { rewrite list_elem_of_singleton. intros E. symmetry in E. by apply (snoc_ne par _ _ (dl_ne leaf)). }
    rewrite (chg_data _ _ _ Hc3' (par ++ [leaf])) by done.
    unfold data_of. by rewrite Hi2.
Qed.

(** ** Blocks *)

Definition payload (b : FileTransferBlock) : list Z :=
  if blk_compressed b then decompress (blk_data b) else blk_data b.

(** What [write] never changes. *)
Record like (j j' : TransferJob) : Prop := {
  like_id : id j' = id j;
  like_type : type j' = type j;
  like_source : data_source j' = data_source j;
  like_files : files j' = files j;
}.

Lemma like_refl j : like j j.
Proof. done. Qed.

Lemma like_trans a b c : like a b → like b c → like a c.
Proof. intros [] []. split; congruence. Qed.

Lemma write_at_end d buf : write_at (length d) buf d = d ++ buf.
Proof.
  unfold write_at. rewrite take_ge, Nat.sub_diag, drop_ge by lia. by rewrite app_nil_r.
Qed.

(** [write_all] on the open file appends. *)
Lemma write_stream_run j v out par leaf d none buf :
  wf v → receiving j v par leaf d →
  ∃ s v', write_stream none buf (Build_world j v out) = (Ret tt, Build_world (set_stream s j) v' out)
    ∧ chg [par ++ [dl leaf]] v v' ∧ receiving (set_stream s j) v' par leaf (d ++ buf).
Proof.
  intros W [C (i & Hn & Hd & Hs)]. unfold write_stream, mbind, J_bind, get_job, get_fs.
  cbn [w_job w_fs w_sent]. rewrite Hs. unfold file_write_all. cbn [h_ino h_write h_pos].
  unfold data_of in Hd. destruct (inodes v !! i) as [n|] eqn:Ei; [|done].
  simpl in Hd. apply (inj Some) in Hd. rewrite Hd.
  unfold lift. cbn [io fst snd put_fs modify_job w_job w_fs w_sent].
  eexists _, _. split; [reflexivity|]. cbn [w_job w_fs w_sent].
  case_bool_decide as Hb.
  - subst buf. split; [by apply chg_refl|]. split; [done|]. exists i.
    rewrite app_nil_r. split_and!; [done|unfold data_of; by rewrite Ei, <- Hd|].
    cbn. by rewrite Nat.add_0_r.
  - set (v' := set_inodes _ v). assert (chg [par ++ [dl leaf]] v v') as Hc
      by (eapply chg_inode; [done|by left|done]).
    assert (∀ l, node_at v' l = node_at v l) as Hn' by by intros [].
    split; [done|]. split.
    + destruct C as [Hdi Hsl]. split; [intros k; rewrite Hn'; apply Hdi|].
      intros l Hl. rewrite Hn'. by apply Hsl.
    + exists i. rewrite Hn'. split_and!; [done| |].
      * unfold data_of, v'. simpl. simplify_map_eq. simpl. by rewrite write_at_end.
      * cbn. by rewrite length_app.
Qed.

(** A block for the open file. *)
Lemma write_same j v out p par leaf d b :
  wf v → receiving j v par leaf d → data_source j = FilePath p → blk_id b = id j →
  blk_file_num b = file_num j → (to_usize (file_num j) < Z.of_nat (length (files j)))%Z →
  ∃ j' v', write b (Build_world j v out) = (Ret tt, Build_world j' v' out)
    ∧ like j j' ∧ file_num j' = file_num j ∧ chg [par ++ [dl leaf]] v v'
    ∧ receiving j' v' par leaf (d ++ payload b).
Proof.
  intros W R Hsrc Hid Hnum Hlt. unfold Transfer.write.
  change (@mbind J J_bind) with (λ A B f (m : J A), @mbind J J_bind A B f m).
  unfold mbind at 1, J_bind at 1, get_job at 1. cbn [w_job]. cbv beta.
  rewrite Hid, Z.eqb_refl. cbn [negb]. rewrite Hsrc, Hnum.
  replace (Z.of_nat (length (files j)) <=? to_usize (file_num j))%Z with false by lia.
  rewrite Z.eqb_refl. cbn [negb orb].
  assert (data_stream j ≠ None) as Hds by (destruct R as [_ (i & _ & _ & ->)]; done).
  rewrite (bool_decide_false _ Hds). unfold mbind at 1, J_bind at 1, mret, J_ret.
  unfold payload. destruct (blk_compressed b).
  - destruct (write_stream_run j v out par leaf d "data stream is None" (decompress (blk_data b)) W R)
      as (s & v' & E & Hc & R'). unfold mbind, J_bind. rewrite E.
    eexists _, v'. split; [reflexivity|]. split_and!; try done. by destruct R'.
  - destruct (write_stream_run j v out par leaf d "file is None" (blk_data b) W R)
      as (s & v' & E & Hc & R'). unfold mbind, J_bind. rewrite E.
    eexists _, v'. split; [reflexivity|]. split_and!; try done. by destruct R'.
Qed.

(** A block that opens a file: the previous one is published first. *)
Lemma write_open j v out p e0 par0 leaf0 b e par leaf :
  at_entry j p e0 → blk_id b = id j →
  (to_usize (blk_file_num b) < Z.of_nat (length (files j)))%Z →
  (to_usize (blk_file_num b) ≠ to_usize (file_num j) ∨ data_stream j = None) →
  files j !! Z.to_nat (to_usize (blk_file_num b)) = Some e →
  (∀ v, clean v par0 leaf0 → join_validated_path v p (fe_name e0) = Ok (render (par0 ++ [leaf0]))) →
  (∀ v, clean v par leaf → join_validated_path v p (fe_name e) = Ok (render (par ++ [leaf]))) →
  names_ok par0 leaf0 → names_ok par leaf →
  wf v → clean v par0 leaf0 → clean v par leaf →
  (∀ v', published v v' par0 leaf0 → clean v' par leaf) →
  ∃ j' v1 v', write b (Build_world j v out) = (Ret tt, Build_world j' v' out)
    ∧ like j j' ∧ file_num j' = blk_file_num b
    ∧ published v v1 par0 leaf0 ∧ chg (slot par leaf) v1 v'
    ∧ receiving j' v' par leaf (payload b).
Proof.
  intros He0 Hid Hlt Hopen He Hj0 Hj Hok0 Hok W C0 C Hkeep.
  destruct (open_run j v out p e0 par0 leaf0 b e par leaf) as (v1 & v2 & s & E & P1 & Hc2 & R2 & _);
    try done.
  pose proof He0 as (_ & Hsrc & _). unfold Transfer.write.
  unfold mbind at 1, J_bind at 1, get_job at 1. cbn [w_job]. cbv beta.
  rewrite Hid, Z.eqb_refl. cbn [negb]. rewrite Hsrc.
  replace (Z.of_nat (length (files j)) <=? to_usize (blk_file_num b))%Z with false by lia.
  replace (negb _ || _) with true.
  2: { symmetry. apply orb_true_iff. destruct Hopen as [Hne|Hs].
       - left. by apply Z.eqb_neq in Hne as ->.
       - right. by apply bool_decide_eq_true. }
  unfold mbind at 1, J_bind at 1. rewrite E.
  set (j2 := set_stream s _) in *. pose proof (chg_wf _ _ _ Hc2) as W2.
  assert (∀ v' : vfs, chg [par ++ [dl leaf]] v2 v' → chg (slot par leaf) v1 v') as Hchg.
  { intros v' Hc. eapply chg_trans; [done|]. eapply chg_mono; [|done].
    intros l ->%list_elem_of_singleton. apply in_slot_dl. }
  unfold payload. destruct (blk_compressed b).
  - destruct (write_stream_run j2 v2 out par leaf [] "data stream is None" (decompress (blk_data b)) W2 R2)
      as (s' & v' & E' & Hc & R'). unfold mbind, J_bind. rewrite E'.
    eexists _, v1, v'. split; [reflexivity|]. split_and!; try done; [by apply Hchg|by destruct R'].
  - destruct (write_stream_run j2 v2 out par leaf [] "file is None" (blk_data b) W2 R2)
      as (s' & v' & E' & Hc & R'). unfold mbind, J_bind. rewrite E'.
    eexists _, v1, v'. split; [reflexivity|]. split_and!; try done; [by apply Hchg|by destruct R'].
Qed.

(** Blocks one after another. *)
Fixpoint write_all (bs : list FileTransferBlock) : J unit :=
  match bs with
  | [] => mret tt
  | b :: bs => write b ≫= λ _, write_all bs
  end.

Lemma write_all_cons b bs w w' :
  write b w = (Ret tt, w') → write_all (b :: bs) w = write_all bs w'.
Proof. intros E. simpl. unfold mbind, J_bind. by rewrite E. Qed.

Lemma write_all_app bs1 bs2 w w' :
  write_all bs1 w = (Ret tt, w') → write_all (bs1 ++ bs2) w = write_all bs2 w'.
Proof.
  revert w. induction bs1 as [|b bs1 IH]; intros w.
  - simpl. unfold mret, J_ret. by intros [= <-].
  - simpl. unfold mbind, J_bind. destruct (write b w) as [[[]|e|] w1]; [|done..]. apply IH.
Qed.

Definition payloads (bs : list FileTransferBlock) : list Z := mjoin (map payload bs).

(** The rest of an open file. *)
Lemma write_rest bs j v out p par leaf d :
  wf v → receiving j v par leaf d → data_source j = FilePath p →
  (to_usize (file_num j) < Z.of_nat (length (files j)))%Z →
  Forall (λ b, blk_id b = id j ∧ blk_file_num b = file_num j) bs →
  ∃ j' v', write_all bs (Build_world j v out) = (Ret tt, Build_world j' v' out)
    ∧ like j j' ∧ file_num j' = file_num j ∧ chg [par ++ [dl leaf]] v v'
    ∧ receiving j' v' par leaf (d ++ payloads bs).
Proof.
  intros W R Hsrc Hlt Hbs. revert j v d W R Hsrc Hlt Hbs.
  induction bs as [|b bs IH]; intros j v d W R Hsrc Hlt Hbs.
  - exists j, v. unfold payloads. simpl. by rewrite app_nil_r.
  - inversion Hbs as [|? ? [Hid Hnum] Hbs']; subst.
    destruct (write_same j v out p par leaf d b) as (j1 & v1 & E & L1 & N1 & Hc1 & R1); try done.
    destruct (IH j1 v1 (d ++ payload b)) as (j2 & v2 & E2 & L2 & N2 & Hc2 & R2); try done.
    + by apply (chg_wf _ _ _ Hc1).
    + rewrite (like_source _ _ L1). done.
    + rewrite (like_files _ _ L1), N1. done.
    + eapply Forall_impl; [done|]. intros b' [? ?]. rewrite (like_id _ _ L1), N1. done.
    + exists j2, v2. rewrite (write_all_cons _ _ _ _ E). split_and!; try done.
      * by eapply like_trans.
      * by rewrite N2.
      * by eapply chg_trans.
      * unfold payloads in *. simpl. by rewrite (assoc_L (++)).
Qed.

(** ** Several files *)

Record item := {
  it_entry : FileEntry;
  it_par : loc;
  it_leaf : string;
  it_blocks : list FileTransferBlock;
}.

Definition it_slot (it : item) : list loc := slot (it_par it) (it_leaf it).
Definition it_file (it : item) : loc := it_par it ++ [it_leaf it].
Definition it_clean (v : vfs) (it : item) : Prop := clean v (it_par it) (it_leaf it).
Definition it_data (it : item) : list Z := payloads (it_blocks it).

(** A file that is complete, with its auxiliary names gone. *)
Definition it_done (v : vfs) (it : item) : Prop :=
  content_at v (it_file it) (it_data it)
  ∧ node_at v (it_par it ++ [dl (it_leaf it)]) = None
  ∧ node_at v (it_par it ++ [dg (it_leaf it)]) = None.

Definition disjoint_items (items : list item) : Prop :=
  ∀ i k a b, items !! i = Some a → items !! k = Some b → i ≠ k →
    ∀ l, l ∈ it_slot a → l ∉ it_slot b.

Lemma it_clean_other v v' a b :
  it_clean v a → it_clean v b → chg (it_slot b) v v' →
  (∀ l, l ∈ it_slot a → l ∉ it_slot b) → it_clean v' a.
Proof. intros Ha Hb Hc Hd. eapply clean_other; [done..| |done]. apply Hb. Qed.

Lemma it_done_other v v' a b :
  it_done v a → chg (it_slot b) v v' → (∀ l, l ∈ it_slot a → l ∉ it_slot b) → it_done v' a.
Proof.
  intros (H1 & H2 & H3) Hc Hd. split_and!.
  - eapply chg_content; [done| |done]. apply Hd, in_slot_leaf.
  - rewrite (chg_node _ _ _ Hc); [done|]. apply Hd, in_slot_dl.
  - rewrite (chg_node _ _ _ Hc); [done|]. apply Hd, in_slot_dg.
Qed.

Lemma published_done j v v' it :
  receiving j v (it_par it) (it_leaf it) (it_data it) → published v v' (it_par it) (it_leaf it) → it_done v' it.
Proof. intros [_ (i & Hi & Hd & _)] [Hc C H1 H2 H3]. split_and!; [|done|done]. apply H3. by exists i. Qed.

Section items.
Context (p : string) (items : list item).
Hypothesis Hjoin : ∀ it v, it ∈ items → it_clean v it →
  join_validated_path v p (fe_name (it_entry it)) = Ok (render (it_file it)).
Hypothesis Hnames : ∀ it, it ∈ items → names_ok (it_par it) (it_leaf it).
Hypothesis Hdisj : disjoint_items items.
Hypothesis Hcount : (Z.of_nat (length items) < 2 ^ 31)%Z.
Context (jid : Z).
Hypothesis Hblocks : ∀ k it, items !! k = Some it →
  it_blocks it ≠ [] ∧ Forall (λ b, blk_id b = jid ∧ blk_file_num b = Z.of_nat k) (it_blocks it).

Definition all_slots : list loc := mjoin (map it_slot items).

Lemma in_all_slots it l : it ∈ items → l ∈ it_slot it → l ∈ all_slots.
Proof.
  intros Hi Hl. apply list_elem_of_join. exists (it_slot it). split; [done|].
  by apply list_elem_of_fmap_2.
Qed.

(** The names of the files up to the [k]-th. *)
Definition slots_upto (k : nat) : list loc := mjoin (map it_slot (take (S k) items)).

Lemma in_slots_upto k l : l ∈ slots_upto k ↔ ∃ q it, (q <= k)%nat ∧ items !! q = Some it ∧ l ∈ it_slot it.
Proof.
  unfold slots_upto. rewrite list_elem_of_join. split.
  - intros (sl & Hl & Hin). apply list_elem_of_fmap in Hin as (it & -> & Hin).
    apply list_elem_of_lookup_1 in Hin as [q Hq]. apply lookup_take_Some in Hq as [Hq Hlt].
    exists q, it. split_and!; [lia|done|done].
  - intros (q & it & Hq & Hit & Hl). exists (it_slot it). split; [done|]. apply list_elem_of_fmap_2.
    apply (list_elem_of_lookup_2 _ q). apply lookup_take_Some. split; [done|lia].
Qed.

Lemma chg_upto k q it v v' : items !! q = Some it → (q <= k)%nat → chg (it_slot it) v v' → chg (slots_upto k) v v'.
Proof. intros Hq Hk. apply chg_mono. intros l Hl. apply in_slots_upto. by exists q, it. Qed.

Lemma chg_upto_mono k k' v v' : (k <= k')%nat → chg (slots_upto k) v v' → chg (slots_upto k') v v'.
Proof.
  intros Hk. apply chg_mono. intros l (q & it & Hq & Hit & Hl)%in_slots_upto. apply in_slots_upto.
  exists q, it. split; [lia|done].
Qed.

Lemma chg_upto_all k v v' : chg (slots_upto k) v v' → chg all_slots v v'.
Proof.
  apply chg_mono. intros l (q & it & _ & Hit & Hl)%in_slots_upto. eapply in_all_slots; [|done].
  by eapply list_elem_of_lookup_2.
Qed.

(** The job that receives these files. *)
Definition job_for (j : TransferJob) : Prop :=
  id j = jid ∧ type j = Generic ∧ data_source j = FilePath p ∧ files j = map it_entry items.

Record progress (v0 : vfs) (k : nat) (it : item) (j : TransferJob) (v : vfs) : Prop := {
  pr_job : job_for j;
  pr_num : file_num j = Z.of_nat k;
  pr_recv : receiving j v (it_par it) (it_leaf it) (it_data it);
  pr_clean : ∀ it', it' ∈ items → it_clean v it';
  pr_done : ∀ q it', (q < k)%nat → items !! q = Some it' → it_done v it';
  pr_chg : chg (slots_upto k) v0 v;
}.

Lemma usize_index k : (k < length items)%nat → to_usize (Z.of_nat k) = Z.of_nat k.
Proof. intros Hk. apply wrap_small. unfold uint. lia. Qed.

Lemma job_entry j k it :
  job_for j → items !! k = Some it → file_num j = Z.of_nat k → at_entry j p (it_entry it).
Proof.
  intros (_ & Ht & Hs & Hf) Hk Hn. pose proof (lookup_lt_Some _ _ _ Hk) as Hlt.
  split_and!; [done|done|]. unfold entry_at. rewrite Hn, Hf, length_map, usize_index by done.
  replace (Z.of_nat k <? Z.of_nat (length items))%Z with true by lia.
  rewrite Nat2Z.id, list_lookup_fmap, Hk. done.
Qed.

Lemma chg_slot_all it v v' : it ∈ items → chg (it_slot it) v v' → chg all_slots v v'.
Proof. intros Hi. apply chg_mono. intros l. by apply in_all_slots. Qed.

(** What a confirmation or a digest changes in the job does not matter. *)
Lemma progress_same v0 k it j j' v :
  progress v0 k it j v → like j j' → file_num j' = file_num j → data_stream j' = data_stream j →
  progress v0 k it j' v.
Proof.
  intros [(H1 & H2 & H3 & H4) Hn [Hcl Hr] Hc Hd Hg] [] En Es. split; [|congruence| |done|done|done].
  - split_and!; congruence.
  - split; [done|]. by rewrite Es.
Qed.

(** One file: its first block opens it, the others append. *)
Lemma receive_one j v out v0 k it k0 it0 :
  job_for j → items !! k = Some it → items !! k0 = Some it0 → file_num j = Z.of_nat k0 →
  (k0 ≠ k ∨ data_stream j = None) →
  (k0 <= k)%nat → chg (slots_upto k0) v0 v → (∀ it', it' ∈ items → it_clean v it') →
  (∀ v', published v v' (it_par it0) (it_leaf it0) →
     ∀ q it', (q < k)%nat → items !! q = Some it' → it_done v' it') →
  ∃ j' v', write_all (it_blocks it) (Build_world j v out) = (Ret tt, Build_world j' v' out)
    ∧ progress v0 k it j' v'.
Proof.
  intros Hj Hk Hk0 Hn Hopen Hle Hc Hcl Hdone.
  pose proof (lookup_lt_Some _ _ _ Hk) as Hlt. pose proof (lookup_lt_Some _ _ _ Hk0) as Hlt0.
  pose proof (list_elem_of_lookup_2 _ _ _ Hk) as Hin.
  pose proof (list_elem_of_lookup_2 _ _ _ Hk0) as Hin0.
  pose proof Hj as (Hid & Ht & Hs & Hf).
  destruct (Hblocks k it Hk) as [Hne Hb]. destruct (it_blocks it) as [|b bs] eqn:Eb; [done|].
  inversion Hb as [|? ? [Hbi Hbn] Hbs]; subst.
  assert (∀ v', published v v' (it_par it0) (it_leaf it0) →
            ∀ it', it' ∈ items → it_clean v' it') as Hkeep.
  { intros v' P it' [q Hq]%list_elem_of_lookup_1.
    destruct (decide (q = k0)) as [->|Hne'].
    - rewrite Hk0 in Hq. simplify_eq. apply (pub_clean _ _ _ _ P).
    - apply (it_clean_other v v' it' it0); [by apply Hcl; eapply list_elem_of_lookup_2|by apply Hcl|by apply pub_chg|].
      by eapply Hdisj. }
  destruct (write_open j v out p (it_entry it0) (it_par it0) (it_leaf it0) b (it_entry it)
              (it_par it) (it_leaf it)) as (j1 & v1 & v2 & E & L1 & N1 & P1 & Hc2 & R2).
  { by eapply job_entry. }
  { congruence. }
  { rewrite Hbn, usize_index, Hf, length_map by done. lia. }
  { rewrite Hbn, Hn, !usize_index by done. destruct Hopen; [left; lia|by right]. }
  { rewrite Hbn, usize_index, Nat2Z.id, Hf by done. by rewrite list_lookup_fmap, Hk. }
  { intros. by apply Hjoin. }
  { intros. by apply Hjoin. }
  { by apply Hnames. } { by apply Hnames. }
  { apply Hc. } { by apply Hcl. } { by apply Hcl. }
  { intros v' P. by apply (Hkeep v' P). }
  pose proof (pub_chg _ _ _ _ P1) as Hc1. specialize (Hkeep v1 P1).
  assert (∀ a q, items !! q = Some a → q ≠ k → ∀ l, l ∈ it_slot a → l ∉ it_slot it) as Hd2.
  { intros a q Ha Hq. by eapply Hdisj. }
  assert (job_for j1) as Hj1.
  { destruct L1 as [L1 L2 L3 L4]. by rewrite <- L1, <- L2, <- L3, <- L4 in *. }
  destruct (write_rest bs j1 v2 out p (it_par it) (it_leaf it) (payload b)) as
    (j2 & v3 & E2 & L2 & N2 & Hc3 & R3).
  { apply (chg_wf _ _ _ Hc2). } { done. } { apply Hj1. }
  { rewrite N1, Hbn, usize_index by done. destruct Hj1 as (_ & _ & _ & ->). rewrite length_map. lia. }
  { eapply Forall_impl; [exact Hbs|]. intros b' [? ?]. destruct Hj1 as [-> _].
    rewrite N1, Hbn. done. }
  assert (chg (it_slot it) v1 v3) as Hc13.
  { eapply chg_trans; [done|]. eapply chg_mono; [|done].
    intros l ->%list_elem_of_singleton. apply in_slot_dl. }
  exists j2, v3. split; [by rewrite (write_all_cons _ _ _ _ E)|]. split.
  - destruct L2 as [M1 M2 M3 M4], Hj1 as (? & ? & ? & ?). split_and!; congruence.
  - by rewrite N2, N1.
  - unfold it_data. rewrite Eb. by unfold payloads in *.
  - intros it' [q Hq]%list_elem_of_lookup_1. destruct (decide (q = k)) as [->|Hne'].
    + rewrite Hk in Hq. simplify_eq. apply (rc_clean _ _ _ _ _ R3).
    + apply (it_clean_other v1 v3 it' it); [by apply Hkeep; eapply list_elem_of_lookup_2|by apply Hkeep|done|].
      by eapply Hd2.
  - intros q it' Hq Hit'. eapply it_done_other; [by eapply (Hdone v1)|done|].
    eapply Hd2; [done|lia].
  - eapply chg_trans; [by eapply chg_upto_mono|]. eapply chg_trans; [by eapply (chg_upto k k0 it0)|].
    by eapply (chg_upto k k it).
Qed.

(** Before the [k]-th file: nothing has been received, or the file before it. *)
Definition before (v0 : vfs) (k : nat) (j : TransferJob) (v : vfs) : Prop :=
  match k with
  | O => job_for j ∧ file_num j = 0%Z ∧ data_stream j = None ∧ v = v0 ∧ wf v0
         ∧ ∀ it', it' ∈ items → it_clean v it'
  | S k => ∃ it, items !! k = Some it ∧ progress v0 k it j v
  end.

Lemma before_same v0 k j j' v :
  before v0 k j v → like j j' → file_num j' = file_num j → data_stream j' = data_stream j → before v0 k j' v.
Proof.
  destruct k as [|k]; cbn [before].
  - intros ((H1 & H2 & H3 & H4) & Hn & Hs & H) [] En Es. split_and!; try congruence; try apply H.
    split_and!; congruence.
  - intros (it & Hk & P) L En Es. exists it. split; [done|]. by eapply progress_same.
Qed.

Lemma before_job v0 k j v : before v0 k j v → job_for j ∧ (∀ it', it' ∈ items → it_clean v it') ∧ wf v.
Proof.
  destruct k as [|k]; cbn [before].
  - intros (H & _ & _ & -> & W & Hc). done.
  - intros (it & _ & P). split_and!; [apply P|apply P|]. apply (chg_wf _ _ _ (pr_chg _ _ _ _ _ P)).
Qed.

(** A file that is still to come is as it was. *)
Lemma before_untouched v0 k q it j v l :
  before v0 k j v → items !! q = Some it → (k <= q)%nat → l ∈ it_slot it → node_at v l = node_at v0 l.
Proof.
  destruct k as [|k]; cbn [before]; [by intros (_ & _ & _ & -> & _)|].
  intros (it0 & Hk & P) Hq Hle Hl. apply (chg_node _ _ _ (pr_chg _ _ _ _ _ P)).
  intros (q' & it' & Hq' & Hit' & Hl')%in_slots_upto. by apply (Hdisj q q' it it' Hq Hit' ltac:(lia) l Hl).
Qed.

(** The next file. *)
Lemma receive_next j v out v0 k it :
  before v0 k j v → items !! k = Some it →
  ∃ j' v', write_all (it_blocks it) (Build_world j v out) = (Ret tt, Build_world j' v' out)
    ∧ before v0 (S k) j' v'.
Proof.
  intros Hb Hk. destruct k as [|k]; cbn [before] in Hb.
  - destruct Hb as (Hj & Hn & Hs & -> & W & Hcl).
    destruct (receive_one j v0 out v0 0 it 0 it) as (j' & v' & E & P); try done.
    + by right.
    + intros; lia.
    + exists j', v'. split; [done|]. by exists it.
  - destruct Hb as (it0 & Hk0 & P1).
    destruct (receive_one j v out v0 (S k) it k it0) as (j2 & v2 & E2 & P2); try done.
    + apply P1. + apply P1. + left; lia. + lia. + apply P1. + apply P1.
    + intros v' Pub q it' Hq Hit'. destruct (decide (q = k)) as [->|Hne].
      * rewrite Hk0 in Hit'. simplify_eq. eapply published_done; [apply P1|done].
      * eapply it_done_other; [eapply (pr_done _ _ _ _ _ P1); [|done]; lia|by apply pub_chg|].
        by eapply Hdisj.
    + exists j2, v2. split; [done|]. by exists it.
Qed.

(** All files from the [k]-th on. *)
Lemma receive_rest its j v out v0 k :
  before v0 k j v → drop k items = its →
  ∃ j' v', write_all (mjoin (map it_blocks its)) (Build_world j v out) = (Ret tt, Build_world j' v' out)
    ∧ before v0 (k + length its) j' v'.
Proof.
  revert k j v. induction its as [|it its IH]; intros k j v Hb El.
  - exists j, v. by rewrite Nat.add_0_r.
  - assert (items !! k = Some it) as Hk by (by rewrite <- (Nat.add_0_r k), <- lookup_drop, El).
    destruct (receive_next j v out v0 k it Hb Hk) as (j1 & v1 & E1 & Hb1).
    destruct (IH (S k) j1 v1 Hb1) as (j2 & v2 & E2 & Hb2).
    { replace (S k) with (k + 1)%nat by lia. by rewrite <- drop_drop, El. }
    exists j2, v2. cbn [map mjoin list_join length]. rewrite Nat.add_succ_r. split; [|done].
    by rewrite (write_all_app _ _ _ _ E1).
Qed.

(** After the last file, [modify_time] completes them. *)
Lemma receive_finish j v out v0 :
  items ≠ [] → before v0 (length items) j v →
  ∃ v', modify_time (Build_world j v out) = (Ret tt, Build_world j v' out)
    ∧ (∀ it, it ∈ items → it_done v' it) ∧ chg all_slots v0 v'.
Proof.
  intros Hne Hb. assert (∃ k, length items = S k) as [k El] by (destruct items; [done|by eexists]).
  rewrite El in Hb. destruct Hb as (it & Hk & P1).
  pose proof (list_elem_of_lookup_2 _ _ _ Hk) as Hin.
  destruct (modify_time_run j v out p (it_entry it) (it_par it) (it_leaf it)) as (v2 & E2 & P2).
  { eapply job_entry; [apply P1|done|apply P1]. }
  { apply Hjoin; [done|]. by apply P1. }
  { by apply Hnames. } { apply (chg_wf _ _ _ (pr_chg _ _ _ _ _ P1)). } { by apply P1. }
  exists v2. split_and!; [done| |].
  - intros it' [q Hq]%list_elem_of_lookup_1. pose proof (lookup_lt_Some _ _ _ Hq).
    destruct (decide (q = k)) as [->|Hq'].
    + rewrite Hk in Hq. simplify_eq. eapply published_done; [apply P1|done].
    + eapply it_done_other; [eapply (pr_done _ _ _ _ _ P1); [|done]; lia|by apply pub_chg|].
      by eapply Hdisj.
  - eapply chg_trans; [eapply chg_upto_all, P1|]. by apply (chg_slot_all it), pub_chg.
Qed.

(** Everything, then the final [modify_time]. *)
Lemma receive_all j v out :
  job_for j → file_num j = 0%Z → data_stream j = None → wf v → items ≠ [] →
  (∀ it', it' ∈ items → it_clean v it') →
  ∃ j' v', (write_all (mjoin (map it_blocks items)) ≫= λ _, modify_time) (Build_world j v out)
             = (Ret tt, Build_world j' v' out)
    ∧ (∀ it, it ∈ items → it_done v' it)
    ∧ chg all_slots v v'.
Proof.
  intros Hj Hn Hs W Hne Hcl.
  destruct (receive_rest items j v out v 0) as (j1 & v1 & E1 & Hb); [done|by rewrite drop_0|].
  destruct (receive_finish j1 v1 out v Hne Hb) as (v2 & E2 & H).
  exists j1, v2. unfold mbind, J_bind. by rewrite E1.
Qed.
End items.
End receive.

(** ** Destinations

    Where a relative name sent by the peer ends up under the destination: a
    single file whose path is the destination itself, or a name of one or more
    parts below it. *)

Definition relname (l : loc) : string :=
  match l with [] => ""%string | x :: l => (x ++ render l)%string end.

Inductive destination : string → string → loc → string → Prop :=
| dest_single par leaf : destination (render (par ++ [leaf])) "" par leaf
| dest_below b ns leaf :
    b ≠ [] → destination (render b) (relname (ns ++ [leaf])) (b ++ ns) leaf.

Lemma name_ok_no_slash s : name_ok s → starts_with "/" s = false.
Proof.
  intros (H1 & _ & _ & H2 & _). destruct s as [|a s]; [done|]. unfold starts_with.
  cbn [String.prefix contains_char] in *. destruct (ascii_dec "/" a) as [<-|]; [|done].
  by rewrite Ascii.eqb_refl in H2.
Qed.

Lemma path_join_render pre s :
  pre ≠ [] → Forall name_ok pre → starts_with "/" s = false →
  path_join (render pre) s = (render pre ++ String "/" s)%string.
Proof.
  intros Hne Hp Hs. unfold path_join. rewrite Hs.
  destruct pre as [|z pre _] using rev_ind; [done|].
  rewrite render_no_slash_end by (apply Forall_app in Hp as [_ Hp]; by inversion Hp).
  replace (is_empty (render (pre ++ [z]))) with false; [done|].
  by destruct pre.
Qed.

Lemma path_join_render1 pre s :
  pre ≠ [] → Forall name_ok pre → name_ok s →
  path_join (render pre) s = render (pre ++ [s]).
Proof.
  intros Hne Hp Hs. rewrite path_join_render by auto using name_ok_no_slash.
  rewrite render_app. simpl. by rewrite string_app_nil_r.
Qed.

Lemma check_plain v ns pre leaf :
  pre ≠ [] → Forall name_ok (pre ++ ns) → name_ok leaf → dirs v (pre ++ ns) →
  is_link (node_at v (pre ++ ns ++ [leaf])) = false →
  check_components v (render pre) (map Normal (ns ++ [leaf])) = Ok tt.
Proof.
  revert pre. induction ns as [|x ns IH]; intros pre Hne Hok Hleaf Hd Hnl.
  - rewrite app_nil_r in Hok, Hd. simpl in Hnl |- *. rewrite path_join_render1 by done.
    rewrite lstat_plain by auto using names_ok_snoc.
    by destruct (node_at v (pre ++ [leaf])) as [[]|].
  - simpl. assert (name_ok x) as Hx by (by apply Forall_app in Hok as [_ Hok]; inversion Hok).
    assert (Forall name_ok pre) as Hpre by (by apply Forall_app in Hok as [? _]).
    rewrite path_join_render1 by done.
    replace (pre ++ x :: ns) with ((pre ++ [x]) ++ ns) in * by (by rewrite <- app_assoc).
    assert (dirs v pre) as Hdp.
    { intros k Hk. specialize (Hd k). rewrite !length_app in Hd. rewrite <- !app_assoc in Hd.
      rewrite take_app_le in Hd by done. apply Hd. lia. }
    rewrite lstat_plain by auto using names_ok_snoc.
    assert (is_dir_node (node_at v (pre ++ [x])) = true) as Hdx.
    { specialize (Hd (length (pre ++ [x]))). rewrite take_app_length in Hd. apply Hd.
      rewrite (length_app (pre ++ [x])). lia. }
    destruct (node_at v (pre ++ [x])) as [[]|]; try done. simpl.
    apply IH; try done. by rewrite <- app_assoc.
Qed.

Lemma relname_split l : l ≠ [] → Forall name_ok l → split_on "/" (relname l) = l.
Proof. intros Hne Hl. destruct Hl; [done|]. by apply split_render_tail. Qed.

Lemma render_no_nul l : Forall name_ok l → contains_char "000" (render l) = false.
Proof.
  induction 1 as [|x l (_ & _ & _ & _ & Hx) Hl IH]; [done|]. simpl.
  by rewrite contains_char_app, Hx, IH.
Qed.

Lemma relname_valid l :
  l ≠ [] → Forall name_ok l → validate_file_name_no_traversal false (relname l) = Ok tt.
Proof.
  intros Hne Hl. unfold validate_file_name_no_traversal, name_pieces.
  rewrite relname_split by done.
  replace (contains_char "000" (relname l)) with false.
  2: { symmetry. destruct Hl as [|x l (_ & _ & _ & _ & Hx) Hl]; [done|]. simpl.
       by rewrite contains_char_app, Hx, render_no_nul. }
  replace (existsb _ _) with false.
  2: { symmetry. apply not_true_iff_false. rewrite existsb_exists. intros (x & Hx & Heq).
       apply filter_In in Hx as [Hx _]. apply String.eqb_eq in Heq. subst x.
       rewrite Forall_forall in Hl. apply list_elem_of_In, Hl in Hx. by destruct Hx as (_ & _ & ? & _). }
  simpl. rewrite orb_false_r.
  replace (starts_with "/" (relname l)) with false; [done|]. symmetry.
  destruct Hl as [|x l Hx Hl]; [done|]. simpl. pose proof (name_ok_no_slash x Hx) as Hs.
  rewrite starts_with_app1; [done|]. destruct Hx as (Hx & _). by destruct x.
Qed.

Lemma comp_relname l :
  l ≠ [] → Forall name_ok l → components (relname l) = map Normal l.
Proof.
  intros Hne Hl. rewrite components_split. unfold comp_head, comp_body.
  rewrite relname_split by done.
  destruct Hl as [|x l Hx Hl]; [done|].
  replace (starts_with "/" (relname (x :: l))) with false.
  2: { symmetry. simpl. pose proof (name_ok_no_slash x Hx).
       rewrite starts_with_app1; [done|]. destruct Hx as (Hx & _). by destruct x. }
  rewrite bool_decide_false by (destruct Hx as (_ & ? & _); done). simpl.
  rewrite part_component_ok by done. simpl. f_equal. clear -Hl.
  induction Hl as [|y l Hy Hl IH]; [done|]. simpl. rewrite part_component_ok by done. simpl. by f_equal.
Qed.

(** The checks of [join_validated_path] pass for an ordinary destination. *)
Lemma destination_join v p name par leaf :
  destination p name par leaf → names_ok par leaf → clean v par leaf →
  join_validated_path v p name = Ok (render (par ++ [leaf])).
Proof.
  intros Hdst [Hp Hl] C. destruct Hdst as [par leaf|b ns leaf Hb]; [done|].
  assert (Forall name_ok (ns ++ [leaf])) as Hn.
  { apply Forall_app in Hp as [_ Hp]. apply Forall_app. split; [done|by constructor]. }
  assert (ns ++ [leaf] ≠ []) as Hne by by destruct ns.
  unfold join_validated_path. rewrite relname_valid by done. cbn [mbind result_bind].
  unfold validate_no_symlink_components. unfold join.
  assert (is_empty (relname (ns ++ [leaf])) = false) as ->.
  { destruct (ns ++ [leaf]) as [|x l]; [done|]. inversion Hn as [|? ? (Hx & _) _]; subst. by destruct x. }
  rewrite comp_relname by done. rewrite check_plain; try done.
  - cbn [mbind result_bind]. f_equal. rewrite path_join_render.
    + rewrite <- app_assoc, render_app. f_equal.
      destruct (ns ++ [leaf]) as [|x l]; [done|]. done.
    + done.
    + by apply Forall_app in Hp as [? _].
    + destruct (ns ++ [leaf]) as [|x l]; [done|]. inversion Hn as [|? ? Hx _]; subst.
      simpl. pose proof (name_ok_no_slash x Hx). rewrite starts_with_app1; [done|].
      destruct Hx as (Hx & _). by destruct x.
  - apply C.
  - apply file_or_none_no_link. rewrite app_assoc. apply C, in_slot_leaf.
Qed.

(** ** Messages *)

Section messages.
Context (decompress : list Z → list Z) (json_of_digest : FileDigest → list Z).
Context (set_file_mtime : vfs → string → Z → vfs).

(** What the client does with a message for the receiving job: the [Block] and
    [Done] cases of [client/io_loop.rs]. *)
Definition receive_message (m : FileMessage) : J unit :=
  match m with
  | MsgBlock b => write decompress json_of_digest set_file_mtime b
  | MsgDone _ _ => modify_time set_file_mtime
  | _ => mret tt
  end.

Fixpoint receive_messages (ms : list FileMessage) : J unit :=
  match ms with
  | [] => mret tt
  | m :: ms => receive_message m ≫= λ _, receive_messages ms
  end.

Lemma receive_blocks bs ms w w' :
  write_all decompress json_of_digest set_file_mtime bs w = (Ret tt, w') →
  receive_messages (map MsgBlock bs ++ ms) w = receive_messages ms w'.
Proof.
  revert w. induction bs as [|b bs IH]; intros w.
  - simpl. unfold mret, J_ret. by intros [= <-].
  - cbn [map app receive_messages receive_message write_all]. unfold mbind, J_bind.
    destruct (write _ _ _ b w) as [[[]|e|] w1]; [|done..]. apply IH.
Qed.
End messages.
