(* ===== verification/Send.v ===== *)
(** * Sending files

    The sending side of [Transfer]: what [handle_read_jobs] puts on the stream,
    tick after tick, for a job that reads files.  The blocks of each file are its
    contents cut at 128 KiB, closed by an empty block, and the job ends with one
    [Done].  Together with [Receive] this gives the end-to-end theorem. *)

From S2P Require Import Prelude Strs Version Vfs Fs Transfer Receive.
From Stdlib Require Import Ascii String.

Local Open Scope list_scope.
#[local] Abbreviation length := Datatypes.length.
#[local] Arguments String.append _ _ : simpl nomatch.

Section send.
Context (compress : list Z → list Z) (short : nat → nat).
(** A [read] of available bytes returns some of them. *)
Hypothesis short_law : ∀ n, (0 < n)%nat → (0 < short n <= n)%nat.

(** ** Filling the buffer *)

Lemma BUF_SIZE_pos : (0 < BUF_SIZE)%nat.
Proof. unfold BUF_SIZE. lia. Qed.

#[local] Opaque BUF_SIZE.

Lemma file_read_run v i d pos n :
  inodes v !! i = Some d →
  file_read v {| h_ino := Some i; h_pos := pos; h_write := false |} n
  = Ok (take n (drop pos (i_data d)),
        {| h_ino := Some i; h_pos := pos + length (take n (drop pos (i_data d))); h_write := false |}).
Proof. intros E. unfold file_read. simpl. by rewrite E. Qed.

Lemma stream_read_run v i d pos n :
  inodes v !! i = Some d → (0 < n)%nat →
  ∃ m, stream_read short v (FileStream {| h_ino := Some i; h_pos := pos; h_write := false |}) n
       = Ok (take m (drop pos (i_data d)),
             FileStream {| h_ino := Some i; h_pos := pos + m; h_write := false |})
    ∧ (m <= n)%nat ∧ (m <= length (drop pos (i_data d)))%nat
    ∧ (m = 0%nat ↔ drop pos (i_data d) = []).
Proof.
  intros E Hn. unfold stream_read. rewrite (file_read_run v i d pos n E).
  set (rest := drop pos (i_data d)). rewrite length_take.
  rewrite (file_read_run v i d pos _ E). fold rest.
  set (m := length (take (short (n `min` length rest)) rest)).
  exists m. assert (m = short (n `min` length rest) ∨ rest = []) as Hm.
  { destruct rest as [|x r] eqn:Er; [by right|]. left. unfold m. rewrite length_take.
    pose proof (short_law (n `min` length (x :: r))). simpl length in *. lia. }
  destruct Hm as [Hm|Hm].
  - split; [by rewrite <- Hm|]. destruct (decide (rest = [])) as [Hr|Hr].
    + unfold m. rewrite Hr, take_nil. simpl. split_and!; [lia|lia|done].
    + assert (0 < length rest)%nat by (destruct rest; [done|simpl; lia]).
      pose proof (short_law (n `min` length rest) ltac:(lia)). split_and!; [lia|lia|].
      split; [lia|done].
  - unfold m. rewrite Hm, !take_nil. simpl. split_and!; [done|lia|lia|done].
Qed.

(** [read]'s loop returns the next [BUF_SIZE] bytes, or all that is left,
    however short the individual reads are. *)
Lemma read_loop_run v i d fuel pos buf :
  inodes v !! i = Some d → (length buf < BUF_SIZE)%nat →
  (BUF_SIZE - length buf < fuel)%nat →
  let out := take (BUF_SIZE - length buf) (drop pos (i_data d)) in
  read_loop short fuel v (FileStream {| h_ino := Some i; h_pos := pos; h_write := false |}) buf
  = Ok (buf ++ out, FileStream {| h_ino := Some i; h_pos := pos + length out; h_write := false |}).
Proof.
  intros E. revert pos buf. induction fuel as [|fuel IH]; intros pos buf Hb Hf; [lia|]. cbv zeta.
  cbn [read_loop].
  destruct (stream_read_run v i d pos (BUF_SIZE - length buf) E ltac:(lia)) as (m & -> & Hm1 & Hm2 & Hm0).
  set (rest := drop pos (i_data d)) in *.
  assert (length (take m rest) = m) as Hlm by (rewrite length_take; lia).
  destruct (decide (m = 0%nat)) as [->|Hne].
  - rewrite (proj1 Hm0 eq_refl), !take_nil. done.
  - assert (take m rest ≠ []) as Ht.
    { intros Ht. rewrite Ht in Hlm. simpl in Hlm. lia. }
    rewrite (bool_decide_false _ Ht). rewrite length_app, Hlm. cbn [orb].
    destruct (Nat.eqb_spec (length buf + m) BUF_SIZE) as [He|He].
    + replace (BUF_SIZE - length buf)%nat with m by lia. by rewrite Hlm.
    + rewrite IH by (rewrite ?length_app, ?Hlm; lia). rewrite length_app, Hlm.
      assert (take (BUF_SIZE - length buf) rest
              = take m rest ++ take (BUF_SIZE - (length buf + m)) (drop (pos + m) (i_data d))) as ->.
      { replace (drop (pos + m) (i_data d)) with (drop m rest) by (unfold rest; by rewrite drop_drop).
        rewrite take_take_drop. f_equal. lia. }
      rewrite <- app_assoc, length_app, Hlm.
      by rewrite <- Nat.add_assoc.
Qed.

(** ** One tick of the driver *)

#[local] Abbreviation handle_read_jobs := (handle_read_jobs compress short).
#[local] Abbreviation read := (read compress short).

Section job.
(** The files of one job and their contents, as the sender's system has them. *)
Context (v : vfs) (jid : Z) (p : string) (fs : list FileEntry) (contents : list (list Z)).
Hypothesis Hcount : (Z.of_nat (length fs) < 2 ^ 31)%Z.

(** The [k]-th file is next, or being sent; [od]: overwrites are detected. *)
Record sending (od : bool) (j : TransferJob) (k : nat) : Prop := {
  sd_id : id j = jid;
  sd_type : type j = Generic;
  sd_source : data_source j = FilePath p;
  sd_files : files j = fs;
  sd_last : is_last_job j = false;
  sd_overwrite : enable_overwrite_detection j = od;
  sd_skipped : file_skipped j = false;
  sd_num : file_num j = Z.of_nat k;
  sd_le : (k <= length fs)%nat;
}.

Definition readable (e : FileEntry) (d : list Z) : Prop :=
  ∃ i n, file_open v (join p (fe_name e)) = Ok {| h_ino := Some i; h_pos := 0; h_write := false |}
    ∧ inodes v !! i = Some n ∧ i_data n = d.

Definition stream_at (s : option DataStream) (d : list Z) (pos : nat) : Prop :=
  ∃ i n, s = Some (FileStream {| h_ino := Some i; h_pos := pos; h_write := false |})
    ∧ inodes v !! i = Some n ∧ i_data n = d.

(** At position [pos] of the [k]-th file, perhaps not open yet. *)
Definition at_pos (j : TransferJob) (d : list Z) (pos : nat) : Prop :=
  (data_stream j = None ∧ pos = 0%nat) ∨ stream_at (data_stream j) d pos.

Lemma entry_run od j k : sending od j k → entry_at j (file_num j) = fs !! k.
Proof.
  intros S. unfold entry_at. rewrite (sd_num _ _ _ S), (sd_files _ _ _ S).
  pose proof (sd_le _ _ _ S). unfold to_usize. rewrite wrap_small by (unfold uint; lia).
  rewrite Nat2Z.id. destruct (fs !! k) as [e|] eqn:E; [|by case_match].
  apply lookup_lt_Some in E. by replace (Z.of_nat k <? Z.of_nat (length fs))%Z with true by lia.
Qed.

(** The file may be sent: overwrites are not detected, or it is confirmed. *)
Definition cleared (od : bool) (j : TransferJob) : Prop := od = false ∨ file_confirmed j = true.
Definition idle (j : TransferJob) : Prop := file_confirmed j = false ∧ file_is_waiting j = false.

(** A file that is open and may be sent needs no opening. *)
Lemma init_open od j k e d pos out :
  sending od j k → fs !! k = Some e → stream_at (data_stream j) d pos → cleared od j →
  init_data_stream (Build_world j v out) = (Ret tt, Build_world j v out).
Proof.
  intros S He (i & n & Hs & _) Hc. unfold init_data_stream, open_data_stream, mbind, J_bind, get_job, get_fs.
  cbn [w_job w_fs w_sent]. rewrite (sd_source _ _ _ S), (entry_run _ _ _ S), He, Hs. unfold mret, J_ret.
  cbn [w_job]. unfold needs_digest. rewrite (sd_overwrite _ _ _ S).
  destruct Hc as [->|Hc]; [by rewrite andb_false_r|]. rewrite Hc. by rewrite andb_false_r.
Qed.

(** The digest of a file that can be opened. *)
Definition file_digest (k : nat) (e : FileEntry) (md : Z * Z) : FileTransferDigest :=
  {| td_id := jid; td_file_num := Z.of_nat k; td_last_modified := md.1; td_file_size := md.2;
     td_is_upload := false; td_is_identical := false; td_transferred_size := 0; td_is_resume := false |}.

(** Opening when overwrites are detected: the digest is sent, and an answer awaited. *)
Lemma init_check j k e d out :
  sending true j k → fs !! k = Some e → readable e d → data_stream j = None → is_resume j = false →
  (∀ i n, inodes v !! i = Some n → 0 <= i_mtime n)%Z →
  ∃ j' md, init_data_stream (Build_world j v out)
      = (Ret tt, Build_world j' v (out ++ [MsgDigest (file_digest k e md)]))
    ∧ sending true j' k ∧ stream_at (data_stream j') d 0 ∧ is_resume j' = false
    ∧ file_confirmed j' = false ∧ file_is_waiting j' = true.
Proof.
  intros S He (i & n & Ho & Hn & Hd) Hs Hr Ht.
  unfold init_data_stream, open_data_stream, mbind, J_bind, get_job, get_fs. cbn [w_job w_fs w_sent].
  rewrite (sd_source _ _ _ S), (entry_run _ _ _ S), He, Hs, Ho.
  unfold modify_job, mret, J_ret. cbn [w_job w_fs w_sent].
  set (j1 := set_confirmed_waiting false false _).
  assert (sending true j1 k) as S1 by by destruct S.
  assert (file_confirmed j1 = false ∧ file_is_waiting j1 = false ∧ is_resume j1 = false
          ∧ data_stream j1 = Some (FileStream {| h_ino := Some i; h_pos := 0; h_write := false |}))
    as (Hc1 & Hw1 & Hr1 & Hs1) by done.
  unfold needs_digest. rewrite (sd_type _ _ _ S1), (sd_overwrite _ _ _ S1), Hc1, Hw1, bool_decide_true by done.
  unfold send_current_digest, get_current_digest, mbind, J_bind, get_job, get_fs, send.
  cbn [w_job w_fs w_sent andb negb]. rewrite Hs1. cbn [h_ino mbind option_bind]. rewrite Hn.
  replace (i_mtime n <? 0)%Z with false by (symmetry; apply Z.ltb_ge; eauto).
  unfold mret, J_ret. cbn [w_job w_fs w_sent fst snd].
  exists (set_file_is_waiting true j1), (i_mtime n / 10 ^ 9, Z.of_nat (length (i_data n)))%Z. split.
  - unfold file_digest. by rewrite (sd_id _ _ _ S1), (sd_num _ _ _ S1), Hr1.
  - split; [by destruct S|]. split; [by exists i, n|]. done.
Qed.

(** Opening: the stream is at the same position, open. *)
Lemma init_run j k e d pos out :
  sending false j k → fs !! k = Some e → readable e d → at_pos j d pos →
  ∃ j', init_data_stream (Build_world j v out) = (Ret tt, Build_world j' v out)
    ∧ sending false j' k ∧ stream_at (data_stream j') d pos.
Proof.
  intros S He (i & n & Ho & Hn & Hd) Hat.
  assert (∃ j', open_data_stream (Build_world j v out) = (Ret false, Build_world j' v out)
    ∧ sending false j' k ∧ stream_at (data_stream j') d pos) as (j' & E & S' & Hs').
  { unfold open_data_stream, mbind, J_bind, get_job, get_fs. cbn [w_job w_fs w_sent].
    rewrite (sd_source _ _ _ S), (entry_run _ _ _ S), He. destruct Hat as [[Hs ->]|Hs].
    - rewrite Hs, Ho. eexists. split; [reflexivity|]. split; [by destruct S|]. by exists i, n.
    - pose proof Hs as (i' & n' & Hs' & _). rewrite Hs'. exists j. split; [done|]. split; [done|].
      by rewrite Hs' in Hs |- *. }
  exists j'. split; [|done]. unfold init_data_stream, mbind, J_bind. rewrite E.
  unfold get_job, needs_digest. cbn [w_job]. rewrite (sd_overwrite _ _ _ S'), andb_false_r. done.
Qed.

(** The job past its last file: nothing to open. *)
Lemma init_run_end od j out :
  sending od j (length fs) →
  ∃ j', init_data_stream (Build_world j v out) = (Ret tt, Build_world j' v out)
    ∧ sending od j' (length fs) ∧ data_stream j' = None ∧ (idle j → idle j').
Proof.
  intros S. unfold init_data_stream, open_data_stream, mbind, J_bind, get_job, get_fs.
  cbn [w_job w_fs w_sent].
  rewrite (sd_source _ _ _ S), (entry_run _ _ _ S), lookup_ge_None_2 by done.
  eexists. split; [reflexivity|]. split; [by destruct S|done].
Qed.

(** ** Blocks *)

(** The name the compression decision looks at. *)
Definition ext_name (e : FileEntry) : string :=
  if (length fs =? 1)%nat && is_empty (fe_name e) then default "" (path_file_name p)%string
  else fe_name e.

Definition data_block (k : nat) (e : FileEntry) (buf : list Z) : FileTransferBlock :=
  let tmp := compress buf in
  let c := negb (is_compressed_file (ext_name e)) && (length tmp <? length buf)%nat in
  {| blk_id := jid; blk_file_num := Z.of_nat k; blk_data := if c then tmp else buf;
     blk_compressed := c |}.
Definition end_block (k : nat) : FileTransferBlock :=
  {| blk_id := jid; blk_file_num := Z.of_nat k; blk_data := []; blk_compressed := false |}.

Lemma i32_index k : (k <= length fs)%nat → swrap 32 (Z.of_nat k) = Z.of_nat k.
Proof. intros. apply swrap_small; [lia|]. unfold sint. lia. Qed.

(** A read in the middle of a file. *)
Lemma read_run od j k e d pos out :
  sending od j k → fs !! k = Some e → stream_at (data_stream j) d pos → cleared od j →
  let buf := take BUF_SIZE (drop pos d) in
  (buf ≠ [] → ∃ j', read (Build_world j v out) = (Ret (Some (data_block k e buf)), Build_world j' v out)
      ∧ sending od j' k ∧ stream_at (data_stream j') d (pos + length buf) ∧ cleared od j'
      ∧ is_resume j' = is_resume j)
  ∧ (buf = [] → ∃ j', read (Build_world j v out) = (Ret (Some (end_block k)), Build_world j' v out)
      ∧ sending od j' (S k) ∧ data_stream j' = None ∧ idle j' ∧ is_resume j' = is_resume j).
Proof.
  intros S He (i & n & Hs & Hn & Hd) Hc buf.
  assert (read_loop short (Datatypes.S BUF_SIZE) v
            (FileStream {| h_ino := Some i; h_pos := pos; h_write := false |}) []
          = Ok (buf, FileStream {| h_ino := Some i; h_pos := pos + length buf; h_write := false |})) as El.
  { pose proof BUF_SIZE_pos. rewrite (read_loop_run v i n _ _ _ Hn) by (cbn [length]; lia).
    cbn [length]. by rewrite Nat.sub_0_r, Hd. }
  unfold Transfer.read, mbind, J_bind, get_job, get_fs. cbn [w_job w_fs w_sent].
  replace (bool_decide _ && _ && _) with false.
  2: { rewrite (sd_overwrite _ _ _ S). destruct Hc as [->| ->]; by rewrite andb_false_r. }
  rewrite (sd_source _ _ _ S), (entry_run _ _ _ S), He, (sd_files _ _ _ S), (sd_id _ _ _ S), (sd_num _ _ _ S).
  rewrite Hs, El. cbv zeta. rewrite i32_index by apply S. split; intros Hb.
  - rewrite (bool_decide_false _ Hb). unfold modify_job. cbn [w_job w_fs w_sent andb].
    eexists. split; [reflexivity|]. split; [by destruct S|]. split; [by exists i, n|]. split; [by destruct Hc; [left|right]|done].
  - rewrite (bool_decide_true _ Hb). unfold modify_job. cbn [w_job w_fs w_sent andb].
    eexists. split; [reflexivity|]. split; [|done].
    pose proof (lookup_lt_Some _ _ _ He). destruct S. split; try done.
    + cbn. rewrite sd_num0. unfold i32_succ. rewrite swrap_small by (unfold sint; lia). lia.
Qed.

(** ** Ticks *)

Lemma tick_some j j1 j2 b :
  is_last_job j = false → is_last_job j1 = false →
  init_data_stream (Build_world j v []) = (Ret tt, Build_world j1 v []) →
  read (Build_world j1 v []) = (Ret (Some b), Build_world j2 v []) →
  handle_read_jobs [j] v = ([j2], v, [MsgBlock b]).
Proof.
  intros Hl Hl1 E1 E2. unfold Transfer.handle_read_jobs. cbn [init_jobs].
  rewrite Hl. unfold run_job. rewrite E1. cbn [w_job w_fs w_sent init_jobs read_first].
  rewrite Hl1. unfold run_job. by rewrite E2.
Qed.

(** A tick that only asks about the next file. *)
Lemma tick_check j k e d :
  sending true j k → fs !! k = Some e → readable e d → data_stream j = None → is_resume j = false →
  (∀ i n, inodes v !! i = Some n → 0 <= i_mtime n)%Z →
  ∃ j' md, handle_read_jobs [j] v = ([j'], v, [MsgDigest (file_digest k e md)])
    ∧ sending true j' k ∧ stream_at (data_stream j') d 0 ∧ is_resume j' = false
    ∧ file_confirmed j' = false ∧ file_is_waiting j' = true.
Proof.
  intros S He Hr Hs Hres Ht. destruct (init_check j k e d [] S He Hr Hs Hres Ht) as (j1 & md & E & H).
  exists j1, md. split; [|done]. destruct H as (S1 & _ & _ & Hc & Hw).
  unfold Transfer.handle_read_jobs. cbn [init_jobs].
  rewrite (sd_last _ _ _ S). unfold run_job. rewrite E. cbn [w_job w_fs w_sent init_jobs read_first].
  rewrite (sd_last _ _ _ S1). unfold run_job, Transfer.read, mbind, J_bind, get_job, get_fs. cbn [w_job w_fs w_sent].
  rewrite (sd_type _ _ _ S1), (sd_overwrite _ _ _ S1), Hc, bool_decide_true by done. cbn [andb negb].
  unfold mret, J_ret. cbn [w_job w_fs w_sent]. unfold job_completed.
  by rewrite (sd_overwrite _ _ _ S1), Hc, Hw.
Qed.

(** A tick that sends a block of the file that is open. *)
Lemma tick_block od j k e d pos :
  sending od j k → fs !! k = Some e → stream_at (data_stream j) d pos → cleared od j →
  let buf := take BUF_SIZE (drop pos d) in
  (buf ≠ [] → ∃ j', handle_read_jobs [j] v = ([j'], v, [MsgBlock (data_block k e buf)])
      ∧ sending od j' k ∧ stream_at (data_stream j') d (pos + length buf) ∧ cleared od j'
      ∧ is_resume j' = is_resume j)
  ∧ (buf = [] → ∃ j', handle_read_jobs [j] v = ([j'], v, [MsgBlock (end_block k)])
      ∧ sending od j' (S k) ∧ data_stream j' = None ∧ idle j' ∧ is_resume j' = is_resume j).
Proof.
  intros S He Hs Hc buf. pose proof (init_open od j k e d pos [] S He Hs Hc) as E.
  destruct (read_run od j k e d pos [] S He Hs Hc) as [H1 H2].
  split; intros Hb; [destruct (H1 Hb) as (j' & E' & H)|destruct (H2 Hb) as (j' & E' & H)];
    (exists j'; split; [|exact H]; eapply tick_some; [apply S|apply S|exact E|exact E']).
Qed.

Lemma tick_end od j :
  sending od j (length fs) → (od = true → idle j) →
  handle_read_jobs [j] v = ([], v, [MsgDone jid (Z.of_nat (length fs))]).
Proof.
  intros S Hi. destruct (init_run_end od j [] S) as (j1 & E1 & S1 & Hs & Hi1).
  unfold Transfer.handle_read_jobs. cbn [init_jobs].
  rewrite (sd_last _ _ _ S). unfold run_job. rewrite E1. cbn [w_job w_fs w_sent init_jobs read_first].
  rewrite (sd_last _ _ _ S1). unfold run_job.
  assert (idle j1 ∨ od = false) as Hod by (destruct od; auto).
  assert (∀ j2 : TransferJob, j2 = j1 ∨ j2 = set_stream None j1 → job_completed j2 = true) as Hcomp.
  { intros j2 [->| ->]; unfold job_completed; cbn [set_stream upd enable_overwrite_detection file_confirmed file_is_waiting];
      rewrite (sd_overwrite _ _ _ S1); (destruct Hod as [[-> ->]| ->]; [by rewrite orb_true_r|done]). }
  assert (∀ j2 : TransferJob, j2 = j1 ∨ j2 = set_stream None j1 →
            job_error j2 = None ∧ id j2 = jid ∧ file_num j2 = Z.of_nat (length fs)) as Herr.
  { intros j2 [->| ->]; unfold job_error, job_skipped; cbn [set_stream upd file_skipped id file_num];
      rewrite (sd_skipped _ _ _ S1); (split; [done|]); split; apply S1. }
  unfold Transfer.read, mbind, J_bind, get_job, get_fs. cbn [w_job w_fs w_sent].
  destruct (bool_decide _ && _ && _).
  - unfold mret, J_ret. cbn [w_job w_fs w_sent]. rewrite Hcomp by auto.
    destruct (Herr j1 ltac:(auto)) as (-> & -> & ->). cbn [foldl remove_job].
    by rewrite (sd_id _ _ _ S1), Z.eqb_refl.
  - rewrite (sd_source _ _ _ S1), (entry_run _ _ _ S1), lookup_ge_None_2 by done.
    unfold modify_job, mret, J_ret. cbn [w_job w_fs w_sent]. rewrite Hcomp by auto.
    destruct (Herr (set_stream None j1) ltac:(auto)) as (-> & -> & ->). cbn [foldl remove_job].
    change (id (set_stream None j1)) with (id j1). by rewrite (sd_id _ _ _ S1), Z.eqb_refl.
Qed.

(** The messages of repeated ticks, until no job is left. *)
Fixpoint pump (fuel : nat) (jobs : list TransferJob) : list TransferJob * list FileMessage :=
  match fuel with
  | O => (jobs, [])
  | Datatypes.S fuel =>
      match jobs with
      | [] => ([], [])
      | _ =>
          let '(jobs', _, out) := handle_read_jobs jobs v in
          let '(js, o) := pump fuel jobs' in (js, out ++ o)
      end
  end.

Fixpoint chunks (fuel : nat) (d : list Z) : list (list Z) :=
  match fuel, d with
  | O, _ | _, [] => []
  | Datatypes.S fuel, _ => take BUF_SIZE d :: chunks fuel (drop BUF_SIZE d)
  end.

Definition file_blocks (k : nat) (e : FileEntry) (d : list Z) : list FileTransferBlock :=
  map (data_block k e) (chunks (length d) d) ++ [end_block k].

Lemma chunks_join fuel d : (length d <= fuel)%nat → mjoin (chunks fuel d) = d.
Proof.
  pose proof BUF_SIZE_pos. revert d. induction fuel as [|fuel IH]; intros d Hd.
  - destruct d; [done|simpl in Hd; lia].
  - destruct d as [|x d]; [done|]. cbn [chunks mjoin list_join].
    change (take BUF_SIZE (x :: d) ++ mjoin (chunks fuel (drop BUF_SIZE (x :: d))) = x :: d).
    rewrite IH; [apply take_drop|]. rewrite length_drop. simpl in *. lia.
Qed.

Lemma chunks_size fuel d : Forall (λ c, (0 < length c <= BUF_SIZE)%nat) (chunks fuel d).
Proof.
  pose proof BUF_SIZE_pos. revert d. induction fuel as [|fuel IH]; intros d; [constructor|].
  destruct d as [|x d]; [constructor|]. cbn [chunks]. constructor; [|apply IH].
  rewrite length_take. simpl. lia.
Qed.

Lemma pump_step j j' b m :
  handle_read_jobs [j] v = ([j'], v, [b]) →
  pump (Datatypes.S m) [j] = (fst (pump m [j']), b :: snd (pump m [j'])).
Proof. intros E. cbn [pump]. rewrite E. by destruct (pump m [j']). Qed.

(** One file, from any position. *)
Lemma pump_file fuel j k e d pos :
  sending false j k → fs !! k = Some e → readable e d → at_pos j d pos →
  (length (drop pos d) <= fuel)%nat →
  ∃ j', sending false j' (S k) ∧ data_stream j' = None ∧
    let bs := map (data_block k e) (chunks fuel (drop pos d)) ++ [end_block k] in
    ∀ m, pump (length bs + m) [j]
         = (fst (pump m [j']), map MsgBlock bs ++ snd (pump m [j'])).
Proof.
  pose proof BUF_SIZE_pos as HB. revert j pos. induction fuel as [|fuel IH]; intros j pos S He Hr Hat Hf.
  - assert (drop pos d = []) as Hd by (destruct (drop pos d); [done|simpl in Hf; lia]).
    destruct (init_run j k e d pos [] S He Hr Hat) as (j1 & E1 & S1 & Hs1).
    destruct (proj2 (read_run false j1 k e d pos [] S1 He Hs1 (or_introl eq_refl))) as (j2 & E2 & S2 & Hs2 & _).
    { by rewrite Hd, take_nil. }
    exists j2. split; [done|]. split; [done|]. rewrite Hd. cbn [chunks map app length Nat.add]. intros m.
    rewrite (pump_step j j2 (MsgBlock (end_block k)) m); [done|].
    eapply tick_some; [apply S|apply S1|done|done].
  - destruct (init_run j k e d pos [] S He Hr Hat) as (j1 & E1 & S1 & Hs1).
    destruct (decide (drop pos d = [])) as [Hd|Hd].
    + destruct (proj2 (read_run false j1 k e d pos [] S1 He Hs1 (or_introl eq_refl))) as (j2 & E2 & S2 & Hs2 & _).
      { by rewrite Hd, take_nil. }
      exists j2. split; [done|]. split; [done|]. rewrite Hd. cbn [chunks map app length Nat.add]. intros m.
      rewrite (pump_step j j2 (MsgBlock (end_block k)) m); [done|].
      eapply tick_some; [apply S|apply S1|done|done].
    + set (buf := take BUF_SIZE (drop pos d)).
      assert (length buf = (BUF_SIZE `min` length (drop pos d))%nat) as Hlb by apply length_take.
      assert (0 < length (drop pos d))%nat as Hl0 by (destruct (drop pos d); [done|simpl; lia]).
      assert (buf ≠ []) as Hbuf.
      { intros E. rewrite E in Hlb. simpl in Hlb. lia. }
      destruct (proj1 (read_run false j1 k e d pos [] S1 He Hs1 (or_introl eq_refl)) Hbuf) as (j2 & E2 & S2 & Hs2 & _).
      assert (drop (pos + length buf) d = drop BUF_SIZE (drop pos d)) as Hdrop.
      { rewrite drop_drop. destruct (decide (BUF_SIZE <= length (drop pos d))%nat).
        - f_equal. lia.
        - rewrite !drop_ge; [done| |]; rewrite ?length_drop in *; lia. }
      destruct (IH j2 (pos + length buf)%nat S2 He Hr) as (j' & S' & Hs' & Hp).
      { by right. }
      { rewrite Hdrop, length_drop. lia. }
      exists j'. split; [done|]. split; [done|]. rewrite Hdrop in Hp.
      assert (chunks (Datatypes.S fuel) (drop pos d) = buf :: chunks fuel (drop BUF_SIZE (drop pos d))) as ->.
      { unfold buf. by destruct (drop pos d). }
      cbn [map app length Nat.add]. intros m.
      rewrite (pump_step j j2 (MsgBlock (data_block k e buf))).
      * by rewrite Hp.
      * eapply tick_some; [apply S|apply S1|done|done].
Qed.

(** ** The whole job *)

Fixpoint blocks_from (k : nat) (l : list (FileEntry * list Z)) : list FileTransferBlock :=
  match l with
  | [] => []
  | (e, d) :: l => file_blocks k e d ++ blocks_from (S k) l
  end.

Hypothesis Hread : Forall2 readable fs contents.

Lemma zip_lookup k e d :
  zip fs contents !! k = Some (e, d) → fs !! k = Some e ∧ readable e d.
Proof.
  intros H. apply lookup_zip_with_Some in H as (e' & d' & [= <- <-] & He & Hd).
  split; [done|]. by eapply Forall2_lookup_lr.
Qed.

Lemma zip_length : length (zip fs contents) = length fs.
Proof. pose proof (Forall2_length _ _ _ Hread). rewrite length_zip_with. lia. Qed.

Lemma pump_files l k j m :
  drop k (zip fs contents) = l → sending false j k → data_stream j = None →
  pump (length (blocks_from k l) + Datatypes.S m) [j]
  = ([], map MsgBlock (blocks_from k l) ++ [MsgDone jid (Z.of_nat (length fs))]).
Proof.
  revert k j. induction l as [|[e d] l IH]; intros k j El S Hs.
  - assert (k = length fs) as ->.
    { pose proof (sd_le _ _ _ S). apply (f_equal length) in El.
      rewrite length_drop, zip_length in El. simpl in El. lia. }
    cbn [blocks_from length map app Nat.add pump]. rewrite (tick_end false) by done. by destruct m.
  - assert (zip fs contents !! k = Some (e, d)) as Hk.
    { rewrite <- (Nat.add_0_r k), <- lookup_drop, El. done. }
    destruct (zip_lookup _ _ _ Hk) as [He Hr].
    destruct (pump_file (length d) j k e d 0 S He Hr) as (j' & S' & Hs' & Hp).
    { left. done. } { by rewrite drop_0. }
    rewrite drop_0 in Hp. cbn [blocks_from]. fold (file_blocks k e d) in Hp.
    rewrite length_app, <- Nat.add_assoc, Hp, map_app, <- app_assoc.
    rewrite (IH (Datatypes.S k) j'); [done| |done|done].
    replace (Datatypes.S k) with (k + 1)%nat by lia. by rewrite <- drop_drop, El.
Qed.

(** ** From blocks to files *)

Fixpoint mk_items (k : nat) (l : list (FileEntry * list Z)) (ds : list (loc * string)) : list item :=
  match l, ds with
  | (e, d) :: l, (par, leaf) :: ds =>
      {| it_entry := e; it_par := par; it_leaf := leaf; it_blocks := file_blocks k e d |}
      :: mk_items (S k) l ds
  | _, _ => []
  end.

Lemma mk_items_lookup k l ds q it :
  mk_items k l ds !! q = Some it →
  ∃ e d par leaf, l !! q = Some (e, d) ∧ ds !! q = Some (par, leaf)
    ∧ it = {| it_entry := e; it_par := par; it_leaf := leaf; it_blocks := file_blocks (k + q) e d |}.
Proof.
  revert k ds q. induction l as [|[e d] l IH]; intros k ds q; [done|].
  destruct ds as [|[par leaf] ds]; [done|]. destruct q as [|q]; simpl.
  - intros [= <-]. rewrite Nat.add_0_r. by eexists _, _, _, _.
  - intros H%IH. by rewrite Nat.add_succ_r.
Qed.

Lemma mk_items_lookup_2 k l ds q e d par leaf :
  l !! q = Some (e, d) → ds !! q = Some (par, leaf) →
  mk_items k l ds !! q =
  Some {| it_entry := e; it_par := par; it_leaf := leaf; it_blocks := file_blocks (k + q) e d |}.
Proof.
  revert k ds q. induction l as [|[e' d'] l IH]; intros k ds q; [done|].
  destruct ds as [|[par' leaf'] ds]; [done|]. destruct q as [|q]; simpl.
  - intros [= -> ->] [= -> ->]. by rewrite Nat.add_0_r.
  - intros H1 H2. rewrite (IH _ _ _ H1 H2). by rewrite Nat.add_succ_r.
Qed.

Lemma mk_items_entries k l ds :
  length l = length ds → map it_entry (mk_items k l ds) = map fst l.
Proof.
  revert k ds. induction l as [|[e d] l IH]; intros k [|[par leaf] ds] Hl; try done.
  simpl. f_equal. apply IH. by simpl in Hl; lia.
Qed.

Lemma mk_items_blocks k l ds :
  length l = length ds → mjoin (map it_blocks (mk_items k l ds)) = blocks_from k l.
Proof.
  revert k ds. induction l as [|[e d] l IH]; intros k [|[par leaf] ds] Hl; try done.
  cbn [mk_items map it_blocks blocks_from].
  change (file_blocks k e d ++ mjoin (map it_blocks (mk_items (S k) l ds))
          = file_blocks k e d ++ blocks_from (S k) l).
  f_equal. apply IH. by simpl in Hl; lia.
Qed.

Lemma file_blocks_nums k e d :
  Forall (λ b, blk_id b = jid ∧ blk_file_num b = Z.of_nat k) (file_blocks k e d).
Proof.
  unfold file_blocks. apply Forall_app. split; [|by repeat constructor].
  by apply Forall_map, Forall_true.
Qed.

Lemma file_blocks_ne k e d : file_blocks k e d ≠ [].
Proof. unfold file_blocks. by destruct (map _ _). Qed.

Lemma payloads_file_blocks decompress k e d :
  (∀ x, decompress (compress x) = x) → payloads decompress (file_blocks k e d) = d.
Proof.
  intros Hd. unfold payloads, file_blocks. rewrite map_app, join_app. simpl. rewrite app_nil_r.
  trans (mjoin (chunks (length d) d)); [|by apply chunks_join; lia].
  induction (chunks (length d) d) as [|c cs IH]; [done|]. cbn [map].
  change (payload decompress (data_block k e c) ++ mjoin (map (payload decompress) (map (data_block k e) cs))
          = c ++ mjoin cs).
  f_equal; [|done]. unfold payload, data_block. cbn [blk_compressed blk_data].
  destruct (_ && _); [apply Hd|done].
Qed.

(** What the destinations must be: each a place for its entry, whose names are not
    directories or links, and no two share a name. *)
Record places (base : string) (vr : vfs) (dests : list (loc * string)) : Prop := {
  pl_each : Forall2 (λ e pl, destination base (fe_name e) pl.1 pl.2 ∧ names_ok pl.1 pl.2
                             ∧ clean vr pl.1 pl.2) fs dests;
  pl_disjoint : ∀ i k a b, dests !! i = Some a → dests !! k = Some b → i ≠ k →
    ∀ l, l ∈ slot a.1 a.2 → l ∉ slot b.1 b.2
}.

Section places.
Context (base : string) (vr : vfs) (dests : list (loc * string)) (HP : places base vr dests).
#[local] Abbreviation items := (mk_items 0 (zip fs contents) dests).

Lemma places_length : length (zip fs contents) = length dests.
Proof. rewrite zip_length. eapply Forall2_length, HP. Qed.

Lemma items_entries : map it_entry items = fs.
Proof.
  rewrite mk_items_entries by apply places_length. apply fst_zip.
  pose proof (Forall2_length _ _ _ Hread). lia.
Qed.

Lemma items_length : length items = length fs.
Proof. by rewrite <- (length_map it_entry), items_entries. Qed.

Lemma item_facts q it :
  items !! q = Some it →
  ∃ e d par leaf, zip fs contents !! q = Some (e, d) ∧ dests !! q = Some (par, leaf)
    ∧ it_entry it = e ∧ it_par it = par ∧ it_leaf it = leaf ∧ it_blocks it = file_blocks q e d
    ∧ destination base (fe_name e) par leaf ∧ names_ok par leaf ∧ clean vr par leaf.
Proof.
  intros Hq. apply mk_items_lookup in Hq as (e & d & par & leaf & H1 & H2 & ->).
  destruct (zip_lookup _ _ _ H1) as [He _].
  destruct (Forall2_lookup_lr _ _ _ _ _ _ (pl_each _ _ _ HP) He H2) as (H3 & H4 & H5).
  by exists e, d, par, leaf.
Qed.

Lemma items_join it v' :
  it ∈ items → it_clean v' it →
  join_validated_path v' base (fe_name (it_entry it)) = Ok (render (it_file it)).
Proof.
  intros [q Hq]%list_elem_of_lookup_1 Hc.
  destruct (item_facts q it Hq) as (e & d & par & leaf & _ & _ & <- & <- & <- & _ & H1 & H2 & _).
  by apply destination_join.
Qed.

Lemma items_names it : it ∈ items → names_ok (it_par it) (it_leaf it).
Proof.
  intros [q Hq]%list_elem_of_lookup_1.
  by destruct (item_facts q it Hq) as (e & d & par & leaf & _ & _ & <- & <- & <- & _ & H1 & H2 & _).
Qed.

Lemma items_clean it : it ∈ items → it_clean vr it.
Proof.
  intros [q Hq]%list_elem_of_lookup_1.
  by destruct (item_facts q it Hq) as (e & d & par & leaf & _ & _ & <- & <- & <- & _ & H1 & H2 & ?).
Qed.

Lemma items_disjoint : disjoint_items items.
Proof.
  intros i k a b Ha Hb Hik.
  destruct (item_facts i a Ha) as (? & ? & pa & la & _ & H1 & _ & <- & <- & _).
  destruct (item_facts k b Hb) as (? & ? & pb & lb & _ & H2 & _ & <- & <- & _).
  by apply (pl_disjoint _ _ _ HP i k _ _ H1 H2 Hik).
Qed.

Lemma items_blocks k it :
  items !! k = Some it → it_blocks it ≠ [] ∧ Forall (λ b, blk_id b = jid ∧ blk_file_num b = Z.of_nat k) (it_blocks it).
Proof.
  intros Hk. destruct (item_facts k it Hk) as (? & ? & ? & ? & _ & _ & _ & _ & _ & -> & _).
  split; [apply file_blocks_ne|apply file_blocks_nums].
Qed.

(** Items that are complete are the sender's files. *)
Lemma items_done decompress v' :
  (∀ x, decompress (compress x) = x) → (∀ it, it ∈ items → it_done decompress v' it) →
  ∀ k d par leaf, contents !! k = Some d → dests !! k = Some (par, leaf) →
    content_at v' (par ++ [leaf]) d
    ∧ node_at v' (par ++ [dl leaf]) = None ∧ node_at v' (par ++ [dg leaf]) = None.
Proof.
  intros Hcd Hdone k d par leaf Hd Hk.
  assert (∃ e, zip fs contents !! k = Some (e, d)) as [e He].
  { pose proof (lookup_lt_Some _ _ _ Hd) as Hlt. pose proof (Forall2_length _ _ _ Hread) as Hlen.
    destruct (fs !! k) as [e|] eqn:Ee.
    - exists e. apply lookup_zip_with_Some. by exists e, d.
    - apply lookup_ge_None in Ee. lia. }
  pose proof (mk_items_lookup_2 0 _ dests k e d par leaf He Hk) as Hq.
  destruct (Hdone _ (list_elem_of_lookup_2 _ _ _ Hq)) as (H1 & H2 & H3).
  unfold it_data, it_file in H1. cbn [it_par it_leaf it_blocks] in H1, H2, H3.
  rewrite payloads_file_blocks in H1 by done. done.
Qed.

Lemma items_slots v1 v2 : chg (all_slots items) v1 v2 → chg (mjoin (map (λ pl, slot pl.1 pl.2) dests)) v1 v2.
Proof.
  apply chg_mono. intros loc Hin.
  apply list_elem_of_join in Hin as (sl & Hl & Hin). apply list_elem_of_fmap in Hin as (it & -> & Hin).
  apply list_elem_of_lookup_1 in Hin as [q Hq].
  destruct (item_facts q it Hq) as (? & ? & par & leaf & _ & H1 & _ & <- & <- & _).
  apply list_elem_of_join. exists (it_slot it). split; [done|].
  apply list_elem_of_fmap. exists (it_par it, it_leaf it). split; [done|].
  by eapply list_elem_of_lookup_2.
Qed.
End places.

(** ** Properties *)

(** Sending is complete and terminates.  A job over files that can be
    opened, driven by the timer, sends the contents of each file in order, in
    non-empty blocks of at most 128 KiB (before compression) closed by an empty
    block, then exactly one [Done], and is removed; this needs one tick per
    message.  It holds however short the reads of the system are. *)
Lemma send_job_complete j m :
  sending false j 0 → data_stream j = None →
  pump (length (blocks_from 0 (zip fs contents)) + Datatypes.S m) [j]
    = ([], map MsgBlock (blocks_from 0 (zip fs contents)) ++ [MsgDone jid (Z.of_nat (length fs))])
  ∧ ∀ k e d, zip fs contents !! k = Some (e, d) →
      ∃ cs, file_blocks k e d = map (data_block k e) cs ++ [end_block k] ∧ mjoin cs = d
        ∧ Forall (λ c, (0 < length c <= BUF_SIZE)%nat) cs.
Proof.
  intros S Hs. split; [by apply pump_files|]. intros k e d _.
  exists (chunks (length d) d). split_and!; [done|by apply chunks_join; lia|apply chunks_size].
Qed.

(** C1: a transfer reproduces the files.  Let a sending job, without overwrite
    detection, start over readable files (fewer than 2^31), and a receiving job of the
    same id for the same entries be fresh.  Let the place of every file be plain: its
    directory is there and is reached through no link, its three names (the file's own,
    with [.download] and with [.digest]) hold at most files, and the names of different
    files are different.  Let decompression undo compression, the setting of a file's
    time change times only, reads return something of what there is, and the receiver's
    file system be well formed, without hard links.  Then the receiver, handling the
    messages of the sender in order, ends without an error, and every file has the
    sender's contents at its destination (one or many files, of any size, compressed or
    not, empty ones included, in place of one that was there), no [.download] or
    [.digest] file remains, and nothing outside those names has changed. *)
Theorem transfer_end_to_end decompress json_of_digest set_file_mtime js jr vr out base dests m :
  (∀ x, decompress (compress x) = x) →
  (∀ v p t, times_only v (set_file_mtime v p t)) →
  fs ≠ [] → sending false js 0 → data_stream js = None →
  id jr = jid → type jr = Generic → data_source jr = FilePath base → files jr = fs →
  file_num jr = 0%Z → data_stream jr = None → wf vr → places base vr dests →
  ∃ msgs jr' vr',
    pump (length (blocks_from 0 (zip fs contents)) + Datatypes.S m) [js] = ([], msgs)
    ∧ receive_messages decompress json_of_digest set_file_mtime msgs (Build_world jr vr out)
      = (Ret tt, Build_world jr' vr' out)
    ∧ (∀ k d par leaf, contents !! k = Some d → dests !! k = Some (par, leaf) →
         content_at vr' (par ++ [leaf]) d
         ∧ node_at vr' (par ++ [dl leaf]) = None ∧ node_at vr' (par ++ [dg leaf]) = None)
    ∧ chg (mjoin (map (λ pl, slot pl.1 pl.2) dests)) vr vr'.
Proof.
  intros Hcd Hmt Hne S Hs Hid Ht Hsrc Hfs Hnum Hstr W HP.
  set (items := mk_items 0 (zip fs contents) dests).
  destruct (receive_all decompress json_of_digest set_file_mtime Hmt base items)
    with (jid := jid) (j := jr) (v := vr) (out := out) as (jr' & vr' & E & Hdone & Hchg); try done.
  - intros it v' Hin Hc. by apply (items_join base vr dests HP).
  - by apply (items_names base vr dests HP).
  - by apply (items_disjoint base vr dests HP).
  - unfold items. by rewrite (items_length base vr dests HP).
  - by apply (items_blocks base vr dests HP).
  - split_and!; try done. unfold items. by rewrite (items_entries base vr dests HP).
  - intros Hi. pose proof (items_length base vr dests HP) as Hl. fold items in Hl. rewrite Hi in Hl. by destruct fs.
  - by apply (items_clean base vr dests HP).
  - eexists _, jr', vr'. split; [by apply pump_files|]. split_and!.
    + unfold items in E. rewrite mk_items_blocks in E by apply (places_length base vr dests HP).
      unfold mbind, J_bind in E.
      destruct (write_all _ _ _ (blocks_from 0 _) _) as [[[]|e|] w] eqn:Ew; [|done..].
      rewrite (receive_blocks _ _ _ _ _ _ _ Ew). cbn [receive_messages receive_message].
      unfold mbind, J_bind. by rewrite E.
    + by apply (items_done dests decompress).
    + by apply (items_slots base vr dests HP).
Qed.
End job.
End send.

(** ** Witnesses

    Two files, one in a subdirectory, sent to an empty directory tree; the
    system returns one byte per read, and one block compresses. *)

Definition demo_compress (x : list Z) : list Z :=
  if bool_decide (x = [9; 9; 9; 9]%Z) then [1%Z]
  else if bool_decide (x = [1%Z]) then [9; 9; 9; 9]%Z else x.

Lemma demo_compress_law x : demo_compress (demo_compress x) = x.
Proof. unfold demo_compress. repeat case_bool_decide; by subst. Qed.

Definition demo_short (n : nat) : nat := 1.
Lemma demo_short_law n : (0 < n)%nat → (0 < demo_short n <= n)%nat.
Proof. unfold demo_short. lia. Qed.

Definition demo_dirs (t : list (loc * Node)) (i : list (nat * Inode)) (n : nat) : vfs :=
  {| tree := list_to_map t; inodes := list_to_map i; next_ino := n; clock := 5 |}.

Definition demo_sender : vfs :=
  demo_dirs [(["s"], NDir 0); (["s"; "a.txt"], NFile 0); (["s"; "d"], NDir 0); (["s"; "d"; "b"], NFile 1)]
            [(0%nat, Build_Inode [9; 9; 9; 9]%Z 0); (1%nat, Build_Inode [] 0)] 2.
Definition demo_receiver : vfs := demo_dirs [(["r"], NDir 0); (["r"; "d"], NDir 0)] [] 0.

Definition demo_entry (n : string) : FileEntry := Build_FileEntry FFile n false 0 0.
Definition demo_files : list FileEntry := [demo_entry "a.txt"; demo_entry "d/b"].
Definition demo_contents : list (list Z) := [[9; 9; 9; 9]; []]%Z.
Definition demo_job (src : string) : TransferJob :=
  mk_job 7 Generic "" (FilePath src) 0 true false false demo_files 4.
Definition demo_dests : list (loc * string) := [(["r"], "a.txt"); (["r"; "d"], "b")].

Lemma demo_readable : Forall2 (readable demo_sender "/s") demo_files demo_contents.
Proof.
  repeat constructor; eexists _, _; (split; [vm_compute; reflexivity|]);
    (split; [vm_compute; reflexivity|]); reflexivity.
Qed.

Lemma demo_sending : sending 7 "/s" demo_files false (demo_job "/s") 0.
Proof. split; try reflexivity. simpl. lia. Qed.

Lemma demo_wf : wf demo_receiver.
Proof.
  assert (∀ l i, node_at demo_receiver l ≠ Some (NFile i)) as H.
  { intros [|x l] i; [done|]. change (tree demo_receiver !! (x :: l) ≠ Some (NFile i)).
    assert (map_Forall (λ _ n, is_dir_node (Some n) = true) (tree demo_receiver)) as Hm
      by (refine (bool_decide_unpack _ _); vm_compute; exact I).
    intros Hl%Hm. done. }
  split; intros *; intros Hc; by apply H in Hc.
Qed.

Lemma demo_clean par leaf :
  (par, leaf) ∈ demo_dests → clean demo_receiver par leaf.
Proof.
  unfold demo_dests. rewrite !elem_of_cons. intros [E|[E|E]]; [..|by apply not_elem_of_nil in E];
    simplify_eq; (split; [intros [|[|[|k]]] Hk; try reflexivity; simpl in Hk; lia|]);
    intros l [->|[->| ->]]%slot_cases; reflexivity.
Qed.

Lemma demo_names_ok s :
  (negb (is_empty s) && negb (String.eqb s ".") && negb (String.eqb s "..")
   && negb (contains_char "/" s) && negb (contains_char "000" s)) = true → name_ok s.
Proof.
  intros H. repeat (apply andb_prop in H as [H ?]). repeat split;
    repeat match goal with H : negb _ = true |- _ => apply negb_true_iff in H end; try done;
    by apply String.eqb_neq.
Qed.

Lemma demo_destinations :
  Forall2 (λ e pl, destination "/r" (fe_name e) pl.1 pl.2 ∧ names_ok pl.1 pl.2
                   ∧ clean demo_receiver pl.1 pl.2) demo_files demo_dests.
Proof.
  repeat constructor; try (by apply demo_names_ok).
  - apply (dest_below ["r"] [] "a.txt"). done.
  - apply (demo_clean ["r"] "a.txt"). by left.
  - apply (demo_clean ["r"] "a.txt"). by left.
  - apply (dest_below ["r"] ["d"] "b"). done.
  - apply (demo_clean ["r"; "d"] "b"). by right; left.
  - apply (demo_clean ["r"; "d"] "b"). by right; left.
Qed.

Lemma demo_disjoint i k a b :
  demo_dests !! i = Some a → demo_dests !! k = Some b → i ≠ k →
  ∀ l, l ∈ slot a.1 a.2 → l ∉ slot b.1 b.2.
Proof.
  intros Ha Hb Hne l Hl Hl'.
  destruct i as [|[|i]], k as [|[|k]]; try done; simpl in Ha, Hb; simplify_eq;
    apply slot_cases in Hl as [->|[->| ->]]; apply slot_cases in Hl' as [H|[H|H]]; done.
Qed.

Lemma send_job_complete_witness :
  pump demo_compress demo_short demo_sender 5 [demo_job "/s"]
  = ([], map MsgBlock (blocks_from demo_compress 7 "/s" demo_files 0 (zip demo_files demo_contents))
         ++ [MsgDone 7 2]).
Proof.
  refine (proj1 (send_job_complete demo_compress demo_short demo_short_law demo_sender 7 "/s"
            demo_files demo_contents _ demo_readable (demo_job "/s") 1 demo_sending _)).
  - simpl. lia.
  - reflexivity.
Defined.

Lemma transfer_end_to_end_witness :
  ∃ msgs jr' vr',
    pump demo_compress demo_short demo_sender 5 [demo_job "/s"] = ([], msgs)
    ∧ receive_messages demo_compress (λ _, [123%Z]) (λ v _ _, v) msgs
        (Build_world (demo_job "/r") demo_receiver []) = (Ret tt, Build_world jr' vr' [])
    ∧ content_at vr' ["r"; "a.txt"] [9; 9; 9; 9]%Z ∧ content_at vr' ["r"; "d"; "b"] [].
Proof.
  destruct (transfer_end_to_end demo_compress demo_short demo_short_law demo_sender 7 "/s"
              demo_files demo_contents ltac:(simpl; lia) demo_readable
              demo_compress (λ _, [123%Z]) (λ v _ _, v)
              (demo_job "/s") (demo_job "/r") demo_receiver [] "/r" demo_dests 1)
    as (msgs & jr' & vr' & E1 & E2 & H & _);
    try reflexivity.
  - exact demo_compress_law.
  - intros v p t. repeat split; reflexivity.
  - discriminate.
  - exact demo_sending.
  - exact demo_wf.
  - split; [exact demo_destinations|exact demo_disjoint].
  - exists msgs, jr', vr'. split; [exact E1|]. split; [exact E2|]. split.
    + exact (proj1 (H 0%nat [9; 9; 9; 9]%Z ["r"] "a.txt" eq_refl eq_refl)).
    + exact (proj1 (H 1%nat [] ["r"; "d"] "b" eq_refl eq_refl)).
Defined.
