(* ===== verification/FsSafety.v ===== *)
(** * What a peer's file names can reach

    Theorems about [Fs]: validated names stay under the destination directory,
    pruning empty directories keeps every file, and when an incoming file asks
    for confirmation; with the corner cases of [Transfer] that the model
    exposed. *)

From S2P Require Import Prelude Strs Version Vfs Fs Transfer Receive.
From Stdlib Require Import Ascii String.

Local Open Scope list_scope.
#[local] Abbreviation length := Datatypes.length.
#[local] Arguments String.append _ _ : simpl nomatch.

(** ** Names without traversal *)

Definition plain_names (parts : list string) : list string :=
  List.filter (λ s, negb (is_empty s || bool_decide (s = "."%string))) parts.

Lemma part_components parts :
  existsb (String.eqb "..") (List.filter (λ s, negb (is_empty s)) parts) = false →
  mjoin (map part_component parts) = map Normal (plain_names parts).
Proof.
  induction parts as [|s parts IH]; intros H; [done|].
  assert (existsb (String.eqb "..") (List.filter (λ s, negb (is_empty s)) parts) = false
          ∧ (is_empty s = false → s ≠ ".."%string)) as [Hr Hs].
  { cbn [List.filter] in H. destruct (is_empty s); [done|]. cbn [negb existsb] in H.
    apply orb_false_iff in H as [Hs Hr]. split; [done|]. intros _ ->. done. }
  change (part_component s ++ mjoin (map part_component parts) = map Normal (plain_names (s :: parts))).
  rewrite IH by done. unfold plain_names. cbn [List.filter]. unfold part_component.
  destruct (is_empty s); [done|]. case_bool_decide; [done|]. cbn [orb negb].
  by rewrite bool_decide_false by auto.
Qed.

Lemma pieces_no_nul s :
  contains_char "000" s = false → Forall (λ p, contains_char "000" p = false) (split_on "/" s).
Proof.
  induction s as [|a s IH]; simpl; [by repeat constructor|]. intros [Ha Hs]%orb_false_iff.
  specialize (IH Hs). destruct (Ascii.eqb a "/"); [by constructor|].
  destruct IH as [|p ps Hp Hps]; [constructor; [|done]|constructor; [|done]]; simpl; by rewrite Ha.
Qed.

(** What a name that passes validation is made of. *)
Lemma validated_pieces name :
  validate_file_name_no_traversal false name = Ok tt →
  starts_with "/" name = false
  ∧ existsb (String.eqb "..") (List.filter (λ s, negb (is_empty s)) (split_on "/" name)) = false
  ∧ Forall name_ok (plain_names (split_on "/" name)).
Proof.
  unfold validate_file_name_no_traversal, name_pieces.
  destruct (contains_char "000" name) eqn:E0; [done|].
  destruct (existsb _ _) eqn:E1; [done|]. cbn [andb orb]. rewrite orb_false_r.
  destruct (starts_with "/" name) eqn:E2; [done|]. intros _. split_and!; [done|done|].
  apply Forall_forall. intros s Hs. unfold plain_names in Hs.
  apply list_elem_of_In, filter_In in Hs as [Hin Hk]. apply negb_true_iff, orb_false_iff in Hk as [He Hd].
  apply bool_decide_eq_false in Hd. repeat split; [done|done| | |].
  - intros ->. apply not_true_iff_false in E1. apply E1, existsb_exists. exists ".."%string.
    split; [|done]. by apply filter_In.
  - pose proof (split_on_pieces "/" name) as Hp. rewrite Forall_forall in Hp.
    by apply Hp, list_elem_of_In.
  - pose proof (pieces_no_nul name E0) as Hp. rewrite Forall_forall in Hp.
    by apply Hp, list_elem_of_In.
Qed.

(** ** Checked components are followed literally *)

Lemma dirs_snoc v par s :
  dirs v par → is_dir_node (node_at v (par ++ [s])) = true → dirs v (par ++ [s]).
Proof.
  intros Hd Hs k Hk. rewrite length_app in Hk. simpl in Hk.
  destruct (decide (k = S (length par))) as [->|].
  - by rewrite take_ge by (rewrite length_app; simpl; lia).
  - rewrite take_app_le by lia. apply Hd. lia.
Qed.

(** A link-free walk ends where its names say. *)
Lemma resolve_checked links v ns pre x l :
  pre ≠ [] → Forall name_ok pre → Forall name_ok ns → dirs v pre →
  check_components v (render pre) (map Normal ns) = Ok tt →
  resolve links v pre (map Normal ns ++ [Normal x]) = Ok l →
  dirs v (pre ++ ns) ∧ (is_link (node_at v (pre ++ ns ++ [x])) = false → l = pre ++ ns ++ [x]).
Proof.
  revert pre. induction ns as [|s ns IH]; intros pre Hne Hp Hns Hd Hc Hr.
  - rewrite app_nil_r. split; [done|]. intros Hl. simpl in Hr |- *.
    rewrite resolve_step in Hr by done. congruence.
  - inversion Hns as [|? ? Hs Hns']; subst. simpl in Hc. rewrite path_join_render1 in Hc by done.
    rewrite lstat_plain in Hc by (auto using names_ok_snoc).
    destruct (node_at v (pre ++ [s])) as [n|] eqn:En.
    + destruct n as [i|m|t m]; simpl in Hc; [| |done].
      * exfalso. destruct links; simpl in Hr; rewrite En in Hr; by destruct ns.
      * assert (dirs v (pre ++ [s])) as Hd' by (apply dirs_snoc; [done|by rewrite En]).
        destruct (IH (pre ++ [s])) as [H1 H2]; try done.
        { by destruct pre. } { by apply names_ok_snoc. }
        { destruct links; simpl in Hr; by rewrite En in Hr. }
        rewrite <- !app_assoc in H1, H2. done.
    + exfalso. destruct links; simpl in Hr; rewrite En in Hr; by destruct ns.
Qed.

Lemma resolve_checked_all links v ns pre l :
  pre ≠ [] → Forall name_ok pre → Forall name_ok ns → dirs v pre →
  check_components v (render pre) (map Normal ns) = Ok tt →
  resolve links v pre (map Normal ns) = Ok l → l = pre ++ ns.
Proof.
  revert pre. induction ns as [|s ns IH]; intros pre Hne Hp Hns Hd Hc Hr.
  - rewrite app_nil_r. destruct links; simpl in Hr; congruence.
  - inversion Hns as [|? ? Hs Hns']; subst. simpl in Hc. rewrite path_join_render1 in Hc by done.
    rewrite lstat_plain in Hc by (auto using names_ok_snoc).
    destruct (node_at v (pre ++ [s])) as [n|] eqn:En.
    + destruct n as [i|m|t m]; simpl in Hc; [| |done].
      * destruct links; simpl in Hr; rewrite En in Hr; destruct ns; simplify_eq/=; try done.
      * replace (pre ++ s :: ns) with ((pre ++ [s]) ++ ns) by (by rewrite <- app_assoc).
        apply IH; try done; [by destruct pre|by apply names_ok_snoc| |].
        { apply dirs_snoc; [done|by rewrite En]. }
        { destruct links; simpl in Hr; by rewrite En in Hr. }
    + destruct links; simpl in Hr; rewrite En in Hr; destruct ns; simplify_eq/=; try done.
Qed.

Lemma check_app v base cs1 cs2 :
  check_components v base (cs1 ++ cs2) = Ok tt → check_components v base cs1 = Ok tt.
Proof.
  revert base. induction cs1 as [|c cs1 IH]; intros base H; [done|]. simpl in H |- *.
  destruct c; try done; [by apply IH|]. repeat case_match; try done; by apply IH.
Qed.

Lemma check_curdir v base name :
  check_components v base (components name) = Ok tt → starts_with "/" name = false →
  check_components v base (comp_body name) = Ok tt.
Proof.
  intros Hc Hs. rewrite components_split in Hc. unfold comp_head in Hc. rewrite Hs in Hc.
  destruct (split_on "/" name); [done|]. by case_bool_decide.
Qed.

Definition is_suffix (suf : string) : Prop := suf = ".download"%string ∨ suf = ".digest"%string.

Lemma suffix_component s suf :
  is_suffix suf → part_component (s ++ suf)%string = [Normal (s ++ suf)%string].
Proof.
  intros Hs. assert (3 <= str_len suf)%nat as Hl by (destruct Hs as [->| ->]; simpl; lia).
  unfold part_component. rewrite !bool_decide_false by (apply suffix_ne; simpl; lia).
  destruct s; [|done]. by destruct Hs as [->| ->].
Qed.

Lemma suffix_no_slash suf : is_suffix suf → contains_char "/" suf = false.
Proof. by intros [->| ->]. Qed.

Lemma render_ne b : b ≠ [] → render b ≠ ""%string.
Proof. by destruct b. Qed.

Lemma components_base b name :
  b ≠ [] → Forall name_ok b → starts_with "/" name = false →
  components (path_join (render b) name) = RootDir :: map Normal b ++ comp_body name.
Proof.
  intros Hb Hok Hs. rewrite components_join by auto using render_ne.
  destruct b as [|x b]; [done|]. by rewrite components_render.
Qed.

Lemma comp_body_suffix name suf :
  is_suffix suf → validate_file_name_no_traversal false name = Ok tt →
  comp_body (name ++ suf)%string
  = map Normal (plain_names (removelast (split_on "/" name)))
    ++ [Normal (default "" (last (split_on "/" name)) ++ suf)%string]
  ∧ comp_body name
    = map Normal (plain_names (removelast (split_on "/" name)))
      ++ part_component (default ""%string (last (split_on "/" name)))
  ∧ Forall name_ok (plain_names (removelast (split_on "/" name))).
Proof.
  intros Hs Hv. destruct (validated_pieces name Hv) as (_ & Hdd & Hok).
  set (pieces := split_on "/" name) in *.
  assert (pieces = removelast pieces ++ [default ""%string (last pieces)]) as Ep.
  { pose proof (split_on_ne "/" name). fold pieces in H.
    destruct pieces as [|q qs _] using rev_ind; [done|]. by rewrite removelast_last, last_snoc. }
  rewrite Ep in Hdd, Hok. rewrite List.filter_app, existsb_app in Hdd.
  apply orb_false_iff in Hdd as [Hdd _].
  unfold plain_names in Hok. rewrite List.filter_app in Hok. apply Forall_app in Hok as [Hok _].
  split_and!; [| |exact Hok].
  - unfold comp_body. rewrite split_on_suffix by (by apply suffix_no_slash). fold pieces.
    rewrite map_app, join_app, part_components by done. f_equal. simpl.
    by rewrite suffix_component.
  - unfold comp_body. fold pieces. rewrite Ep at 1.
    rewrite map_app, join_app, part_components by done. f_equal. simpl. by rewrite app_nil_r.
Qed.

(** ** Properties *)

(** C12: a peer cannot write outside the destination.  Take any non-empty name a
    peer may send.  If [join_validated_path] accepts it under a destination that
    is a directory reached without links, then the path it returns resolves,
    links followed, to a location below the destination, if it resolves at all;
    and so do the [.download] and [.digest] paths beside it, provided no link
    already sits at those two names. *)
Theorem validated_path_confined v b name path suf l :
  b ≠ [] → Forall name_ok b → dirs v b → is_empty name = false →
  join_validated_path v (render b) name = Ok path →
  (suf = ""%string ∨ is_suffix suf
     ∧ ∀ l' n, lstat v (path ++ suf)%string = Ok (l', n) → is_link (Some n) = false) →
  resolve_cs v (components (path ++ suf)) = Ok l →
  ∃ ns, l = b ++ ns.
Proof.
  intros Hb Hok Hd He Hj Hsuf Hr. unfold join_validated_path in Hj.
  apply bind_ok in Hj as ([] & Hv & Hj). apply bind_ok in Hj as ([] & Hc & Hj).
  unfold join in Hj. rewrite He in Hj. simpl in Hj. assert (path = path_join (render b) name) as -> by congruence. clear Hj.
  unfold validate_no_symlink_components in Hc. rewrite He in Hc.
  destruct (validated_pieces name Hv) as (Hs & Hdd & Hpl).
  apply check_curdir in Hc; [|done].
  destruct Hsuf as [->|[Hsuf Hnl]].
  - rewrite string_app_nil_r, components_base in Hr by done. unfold resolve_cs in Hr.
    rewrite resolve_root, (resolve_dirs MAX_LINKS v [] b) in Hr by done.
    unfold comp_body in Hr, Hc. rewrite part_components in Hr, Hc by done.
    apply resolve_checked_all in Hr; [|done..]. eauto.
  - destruct (comp_body_suffix name suf Hsuf Hv) as (E1 & E2 & Hns).
    rewrite E2 in Hc. apply check_app in Hc. set (ns := plain_names (removelast _)) in *.
    set (x := (default "" (last (split_on "/" name)) ++ suf)%string) in *.
    assert ((path_join (render b) name ++ suf)%string = path_join (render b) (name ++ suf)) as Ej.
    { assert (starts_with "/" (name ++ suf)%string = false) as Hs'.
      { rewrite starts_with_app1; [done|]. by destruct name. }
      rewrite !path_join_render by done. by rewrite <- string_app_assoc. }
    assert (components (path_join (render b) (name ++ suf)) = RootDir :: map Normal (b ++ ns) ++ [Normal x]) as Ec.
    { rewrite components_base; [|done|done|].
      - rewrite E1, map_app. by rewrite <- app_assoc.
      - rewrite starts_with_app1; [done|]. by destruct name. }
    rewrite Ej, Ec in Hr. unfold resolve_cs in Hr.
    rewrite resolve_root, map_app, <- app_assoc, (resolve_dirs MAX_LINKS v [] b) in Hr by done.
    destruct (resolve_checked MAX_LINKS v ns b x l) as [Hdn Hfin]; try done.
    exists (ns ++ [x]). apply Hfin. rewrite app_assoc. rewrite Ej in Hnl.
    unfold lstat, lstat_cs in Hnl. rewrite Ec, app_comm_cons, last_snoc, removelast_last in Hnl.
    rewrite resolve_plain_dir in Hnl by done. simpl in Hnl.
    pose proof (dirs_last _ _ Hdn) as Hdl.
    destruct (node_at v (b ++ ns)) as [[]|]; try done.
    destruct (node_at v ((b ++ ns) ++ [x])) as [n|] eqn:En; [|done]. by eapply Hnl.
Qed.

(** ** Pruning *)

(** [v'] is [v] with links and directories taken away. *)
Record pruned (v v' : vfs) : Prop := {
  pruned_sub : ∀ l n, node_at v' l = Some n → node_at v l = Some n;
  pruned_file : ∀ l i, node_at v l = Some (NFile i) → node_at v' l = Some (NFile i);
  pruned_inodes : inodes v' = inodes v;
}.

Lemma pruned_refl v : pruned v v.
Proof. by split. Qed.

Lemma pruned_trans v1 v2 v3 : pruned v1 v2 → pruned v2 v3 → pruned v1 v3.
Proof. intros [A1 B1 C1] [A2 B2 C2]. split; [auto|auto|congruence]. Qed.

Lemma resolve_mono links v v' cur cs l n :
  pruned v v' → resolve links v' cur cs = Ok l → node_at v' l = Some n →
  resolve links v cur cs = Ok l.
Proof.
  intros P. revert cur cs. induction links as [|links IHl].
  - intros cur cs. revert cur. induction cs as [|c cs IH]; intros cur; [done|].
    destruct c; simpl; try apply IH.
    destruct (node_at v' (cur ++ [s])) as [m|] eqn:E.
    + rewrite (pruned_sub _ _ P _ _ E). destruct m; try done; apply IH.
    + destruct cs; [|done]. intros [= <-] Hn. congruence.
  - intros cur cs. revert cur. induction cs as [|c cs IH]; intros cur; [done|].
    destruct c; simpl; try apply IH.
    destruct (node_at v' (cur ++ [s])) as [m|] eqn:E.
    + rewrite (pruned_sub _ _ P _ _ E). destruct m; try done; [apply IH|apply IHl].
    + destruct cs; [|done]. intros [= <-] Hn. congruence.
Qed.

Lemma lstat_mono v v' p l n : pruned v v' → lstat v' p = Ok (l, n) → lstat v p = Ok (l, n).
Proof.
  intros P. unfold lstat, lstat_cs.
  assert (∀ cs, stat_cs v' cs = Ok (l, n) → stat_cs v cs = Ok (l, n)) as Hst.
  { intros cs H. unfold stat_cs in *. apply bind_ok in H as (k & Hk & H).
    destruct (node_at v' k) as [m|] eqn:E; [|done]. simplify_eq.
    apply bind_ok. exists l. split; [|by rewrite (pruned_sub _ _ P _ _ E)].
    unfold resolve_cs in *. destruct cs; [done|]. by eapply resolve_mono. }
  destruct (last (components p)) as [[]|]; try apply Hst. intros H.
  apply bind_ok in H as (up & Hup & H). apply bind_ok. exists up.
  destruct (node_at v' up) as [m|] eqn:E; [|done]. split; [by eapply resolve_mono|].
  rewrite (pruned_sub _ _ P _ _ E). destruct m; try done.
  destruct (node_at v' (up ++ [s])) as [m'|] eqn:E'; [|done].
  by rewrite (pruned_sub _ _ P _ _ E').
Qed.

Lemma pruned_delete v l n :
  node_at v l = Some n → (∀ i, n ≠ NFile i) → l ≠ [] → pruned v (set_tree (delete l (tree v)) v).
Proof.
  intros Hl Hn Hne. split; [| |done].
  - intros l' n'. rewrite node_at_delete by done. by case_decide.
  - intros l' i Hi. rewrite node_at_delete by done. case_decide; [|done]. subst. congruence.
Qed.

Lemma stat_node v cs l n : stat_cs v cs = Ok (l, n) → node_at v l = Some n.
Proof.
  intros H. unfold stat_cs in H. apply bind_ok in H as (k & _ & H).
  destruct (node_at v k) eqn:E; [|done]. by simplify_eq.
Qed.

Lemma lstat_node v p l n : lstat v p = Ok (l, n) → node_at v l = Some n.
Proof.
  unfold lstat, lstat_cs. intros H.
  destruct (last (components p)) as [[]|]; try by eapply stat_node.
  apply bind_ok in H as (up & _ & H). destruct (node_at v up) as [[]|]; try done.
  destruct (node_at v (up ++ [s])) eqn:E; [|done]. by simplify_eq.
Qed.

(** Removing what was listed as a link removes a link. *)
Lemma remove_link_pruned v v' p l m :
  pruned v v' → lstat v p = Ok (l, m) → is_link (Some m) = true →
  pruned v' (ok_or_same (remove_file_at v' p) v').
Proof.
  intros P Hl Hm. unfold remove_file_at. destruct (lstat v' p) as [[l' n]|e] eqn:E; simpl;
    [|apply pruned_refl].
  pose proof (lstat_mono _ _ _ _ _ P E) as E'. rewrite Hl in E'. simplify_eq.
  apply lstat_node in E. destruct n as [i|t|t]; try done. case_match; [apply pruned_refl|].
  eapply pruned_delete; [done|done|]. intros ->. done.
Qed.

Lemma remove_dir_pruned v p : pruned v (ok_or_same (remove_dir_at v p) v).
Proof.
  unfold remove_dir_at. destruct (lstat v p) as [[l n]|e] eqn:E; simpl; [|apply pruned_refl].
  apply lstat_node in E.
  destruct n as [i|m|t m]; [by destruct l| |by destruct l].
  destruct l as [|x l]; [apply pruned_refl|].
  destruct (has_child v (x :: l)); [apply pruned_refl|]. by eapply pruned_delete.
Qed.

Lemma listed_link dir_order v path fd e :
  read_dir dir_order v path true = Ok fd → In e (fd_entries fd) →
  fe_type e = FDirLink ∨ fe_type e = FFileLink →
  ∃ l m, lstat v (path_join path (fe_name e)) = Ok (l, m) ∧ is_link (Some m) = true.
Proof.
  intros Hr Hin Hty. unfold read_dir in Hr. apply bind_ok in Hr as ([l n] & _ & Hr).
  destruct n; try done. simplify_eq. cbn [fd_entries] in Hin.
  apply list_elem_of_In, list_elem_of_omap in Hin as (name & _ & He). unfold read_entry in He.
  destruct (is_empty name); [done|].
  destruct (lstat v (path_join path name)) as [[l' meta]|] eqn:El; [|done].
  destruct (_ && _); [done|].
  destruct (path_is_dir v (path_join path name)); destruct (is_link (Some meta)) eqn:Em;
    simplify_eq; cbn [fe_type fe_name] in *; try (by destruct Hty); eauto.
Qed.

(** What pruning does to an entry of the directory. *)
Definition prune_entry dir_order fuel path (v : vfs) (e : FileEntry) : vfs :=
  match fe_type e with
  | FDir => snd (remove_all_empty_dir dir_order fuel v (path_join path (fe_name e)))
  | FDirLink | FFileLink => ok_or_same (remove_file_at v (path_join path (fe_name e))) v
  | _ => v
  end.

Lemma prune_entry_pruned dir_order fuel v path fd e v1 :
  (∀ v path, pruned v (snd (remove_all_empty_dir dir_order fuel v path))) →
  read_dir dir_order v path true = Ok fd → In e (fd_entries fd) → pruned v v1 →
  pruned v1 (prune_entry dir_order fuel path v1 e).
Proof.
  intros IH Er Hin P. unfold prune_entry. destruct (fe_type e) eqn:Et; try apply pruned_refl; [apply IH|..].
  all: destruct (listed_link _ _ _ _ e Er) as (l' & m & H1 & H2); [done|by auto|].
  all: by eapply remove_link_pruned.
Qed.

(** Pruning keeps every file: [remove_all_empty_dir], on any path, through
    any links, whatever the order of the listings, removes only links and
    directories: every regular file is still where it was, with its contents. *)
Lemma remove_all_pruned dir_order fuel v path :
  pruned v (snd (remove_all_empty_dir dir_order fuel v path)).
Proof.
  revert v path. induction fuel as [|fuel IH]; intros v path; [apply pruned_refl|].
  cbn [remove_all_empty_dir].
  destruct (read_dir dir_order v path true) as [fd|e] eqn:Er; [|apply pruned_refl]. simpl.
  fold (prune_entry dir_order fuel path).
  assert (∀ l v1, (∀ e, In e l → In e (fd_entries fd)) → pruned v v1 →
            pruned v (foldl (prune_entry dir_order fuel path) v1 l)) as Hfold.
  { induction l as [|e l IHl]; intros v1 Hin P; [done|]. simpl. apply IHl; [naive_solver|].
    eapply pruned_trans; [exact P|]. eapply prune_entry_pruned; eauto using in_eq. }
  eapply pruned_trans; [apply Hfold; [done|apply pruned_refl]|]. apply remove_dir_pruned.
Qed.

(** ** Confirmation of an incoming file *)

(** The answer to an offered file is justified.  When the receiver asks to
    resume, a resume was requested, the [.digest] file parses to exactly the
    offered size and time, and the amount reported is the positive length of the
    [.download] file.  Otherwise it asks only about a regular file that exists,
    reporting that file's own size, and calls it identical exactly when size and
    modification time (to the nanosecond) agree.  It says that there is no such
    file only when no regular file is there. *)
Lemma confirmation_justified digest_of_json v resume path d r :
  is_write_need_confirmation digest_of_json v resume path d = Ok r →
  match r with
  | IsSame => False
  | NoSuchFile => path_is_file v path = false
  | NeedConfirm d' =>
      td_id d' = td_id d ∧ td_file_num d' = td_file_num d ∧
      ((0 < td_transferred_size d')%Z ∧ resume = true ∧ td_is_identical d' = true
         ∧ (∃ content, read_path v (path ++ ".digest")%string = Ok content
              ∧ digest_of_json content = Some {| dg_size := td_file_size d;
                                                 dg_modified := td_last_modified d |})
         ∧ (∃ ln, stat v (path ++ ".download")%string = Ok ln
              ∧ td_transferred_size d' = node_len v ln.2)
       ∨ td_transferred_size d' = 0%Z
         ∧ ∃ l i, stat v path = Ok (l, NFile i)
             ∧ td_file_size d' = node_len v (NFile i)
             ∧ (td_is_identical d' = true ↔
                node_mtime v (NFile i) = (td_last_modified d * 10 ^ 9)%Z
                ∧ node_len v (NFile i) = td_file_size d))
  end.
Proof.
  unfold is_write_need_confirmation. destruct (resumable digest_of_json v resume path d) as [n|] eqn:Er.
  - intros [= <-]. cbn. split_and!; [done|done|]. left. unfold resumable in Er.
    destruct (resume && _ && _) eqn:Ec; [|done].
    apply andb_prop in Ec as [[Hres _]%andb_prop _].
    destruct (read_path v _) as [content|] eqn:Ed; [|done].
    destruct (digest_of_json content) as [[sz md]|] eqn:Ej; [|done]. cbn in Er.
    destruct (_ && _) eqn:Em; [|done]. apply andb_prop in Em as [Em1 Em2].
    apply Z.eqb_eq in Em1, Em2. subst.
    destruct (stat v (path ++ ".download")) as [[l n']|] eqn:Es; [|done].
    destruct (Z.ltb_spec 0 (node_len v n')); [|done]. simplify_eq.
    split_and!; [done|done|done|by exists content|]. by exists (l, n').
  - destruct (path_is_file v path) eqn:Ef.
    + unfold path_is_file in Ef. unfold path_exists.
      destruct (stat v path) as [[l [i| |]]|] eqn:Es; try done. cbn [is_ok andb io mbind result_bind snd].
      destruct (node_mtime v (NFile i) <? 0)%Z; [done|]. intros [= <-].
      cbn [td_id td_file_num td_transferred_size td_file_size td_is_identical].
      split_and!; [done|done|]. right. split; [done|]. exists l, i. split_and!; [done|done|].
      rewrite andb_true_iff, !Z.eqb_eq. naive_solver.
    + rewrite andb_false_r. by intros [= <-].
Qed.

(** ** Blocks that do not belong to the job *)

(** A block with another job's id or a file number out of range is refused
    with an error and changes nothing, on disk or in the job. *)
Lemma write_rejects decompress json_of_digest set_file_mtime block w p :
  data_source (w_job w) = FilePath p →
  blk_id block ≠ id (w_job w)
  ∨ (Z.of_nat (length (files (w_job w))) <= to_usize (blk_file_num block))%Z →
  ∃ e, write decompress json_of_digest set_file_mtime block w = (Fail (Msg e), w).
Proof.
  intros Hs H. unfold write, mbind, J_bind, get_job.
  destruct (Z.eqb_spec (blk_id block) (id (w_job w))) as [He|He].
  - destruct H as [H|H]; [done|]. cbn [negb]. rewrite Hs.
    apply Z.leb_le in H as ->. by eexists.
  - by eexists.
Qed.

(** ** Corner cases *)

(** [confirm] with an offset for a file number past the end of the list, which a
    finished or mis-started job has, indexes out of bounds and panics. *)
Lemma confirm_past_end_panics :
  fst (confirm {| cr_id := 7; cr_file_num := 1; cr_union := Some (OffsetBlk 5) |}
         (Build_world
            (mk_job 7 Generic "" (FilePath "/s") 1 false false true
               [Build_FileEntry FFile "a" false 3 0] 3)
            {| tree := ∅; inodes := ∅; next_ino := 0; clock := 0 |} [])) = Panic.
Proof. vm_compute. reflexivity. Qed.

(** The first block of a new transfer publishes whatever an interrupted one left:
    the stale partial [.download] replaces the complete file before the new
    contents arrive. *)
Definition stale_fs : vfs :=
  {| tree := {[ ["r"] := NDir 0; ["r"; "x"] := NFile 0; ["r"; "x.download"] := NFile 1 ]};
     inodes := {[ 0%nat := Build_Inode [1; 2; 3]%Z 0; 1%nat := Build_Inode [9]%Z 0 ]};
     next_ino := 2; clock := 1 |}.

Lemma stale_download_published :
  let j := mk_job 7 Generic "" (FilePath "/r") 0 false false true
             [Build_FileEntry FFile "x" false 3 0] 3 in
  let b := {| blk_id := 7; blk_file_num := 0; blk_data := [4]%Z; blk_compressed := false |} in
  read_path stale_fs "/r/x" = Ok [1; 2; 3]%Z
  ∧ read_path (w_fs (snd (write (λ x, x) (λ _, []) (λ v _ _, v) b (Build_world j stale_fs [])))) "/r/x"
    = Ok [9]%Z.
Proof. vm_compute. split; reflexivity. Qed.

(** ** Witnesses *)

Definition demo_fs : vfs :=
  {| tree := {[ ["r"] := NDir 0; ["etc"] := NDir 0; ["r"; "out"] := NLink "/etc" 0;
                ["r"; "d"] := NDir 0; ["r"; "d"; "x"] := NFile 0;
                ["r"; "d"; "x.digest"] := NFile 1; ["r"; "d"; "x.download"] := NFile 2 ]};
     inodes := {[ 0%nat := Build_Inode [1; 2; 3]%Z (5 * 10 ^ 9); 1%nat := Build_Inode [7]%Z 0;
                  2%nat := Build_Inode [1]%Z 0 ]};
     next_ino := 3; clock := 1 |}.

Lemma demo_base_dirs : dirs demo_fs ["r"].
Proof. intros [|[|k]] Hk; [reflexivity|reflexivity|simpl in Hk; lia]. Qed.

Lemma validated_path_confined_witness :
  join_validated_path demo_fs "/r" "out/x" = Err (Msg "symlink path component is not allowed")
  ∧ resolve_cs demo_fs (components "/r/d/x.download") = Ok ["r"; "d"; "x.download"]
  ∧ ∃ ns, ["r"; "d"; "x.download"] = ["r"] ++ ns.
Proof.
  split; [vm_compute; reflexivity|]. split; [vm_compute; reflexivity|].
  apply (validated_path_confined demo_fs ["r"] "d/x" "/r/d/x" ".download" ["r"; "d"; "x.download"]).
  - discriminate.
  - repeat constructor; vm_compute; congruence.
  - exact demo_base_dirs.
  - reflexivity.
  - vm_compute. reflexivity.
  - right. split; [left; reflexivity|]. intros l' n. vm_compute. intros [= <- <-]. reflexivity.
  - vm_compute. reflexivity.
Defined.

Definition demo_offer : FileTransferDigest :=
  Build_FileTransferDigest 7 0 5 3 false false 0 true.

Lemma confirmation_justified_witness :
  ∃ d', is_write_need_confirmation (λ _, Some (Build_FileDigest 3 5)) demo_fs true "/r/d/x" demo_offer
          = Ok (NeedConfirm d')
    ∧ td_transferred_size d' = 1%Z ∧ td_id d' = 7%Z.
Proof.
  eexists. split; [vm_compute; reflexivity|]. split; [vm_compute; reflexivity|].
  exact (proj1 (confirmation_justified (λ _, Some (Build_FileDigest 3 5)) demo_fs true "/r/d/x"
    demo_offer (NeedConfirm (Build_FileTransferDigest 7 0 5 3 false true 1 false))
    ltac:(vm_compute; reflexivity))).
Defined.

Lemma write_rejects_witness :
  let w := Build_world (mk_job 7 Generic "" (FilePath "/r") 0 false false true [] 0) demo_fs [] in
  ∃ e, write (λ x, x) (λ _, []) (λ v _ _, v)
         {| blk_id := 7; blk_file_num := -1; blk_data := []; blk_compressed := false |} w
       = (Fail (Msg e), w).
Proof.
  intros w. apply (write_rejects _ _ _ _ w "/r"); [reflexivity|]. right. vm_compute. discriminate.
Defined.
