(* ===== verification/FsWalk.v ===== *)
(** * Walking directories

    Theorems on the recursive operations of [Fs]: a listing, the search for empty
    directories and their removal go down directories and never through a link,
    so they end, however the tree looks, and the depth [tree_depth] the model
    gives them is enough; and the recursive listing is exactly the files below a
    directory. *)

From S2P Require Import Prelude Strs Version Vfs Fs Transfer Receive FsSafety.
From Stdlib Require Import Ascii String.

Local Open Scope list_scope.
#[local] Abbreviation length := Datatypes.length.
#[local] Arguments String.append _ _ : simpl nomatch.

(** The names a system stores: not empty, no separator, not a dot. *)
Definition named (v : vfs) : Prop := ∀ l n, node_at v l = Some n → Forall name_ok l.

Definition depth_within (k : nat) (v : vfs) : Prop := ∀ l n, node_at v l = Some n → (length l <= k)%nat.

Lemma tree_depth_within v : depth_within (pred (tree_depth v)) v.
Proof.
  intros l n Hl. unfold tree_depth. simpl.
  destruct l as [|x l]; [simpl; lia|]. unfold node_at in Hl.
  assert ((x :: l, n) ∈ map_to_list (tree v)) as Hin by by apply elem_of_map_to_list.
  induction (map_to_list (tree v)) as [|y ys IH]; [by apply elem_of_nil in Hin|].
  apply elem_of_cons in Hin as [<-|Hin]; simpl in *; [lia|]. specialize (IH Hin). lia.
Qed.

Lemma pruned_named v v' : pruned v v' → named v → named v'.
Proof. intros P H l n Hl. eapply H, P, Hl. Qed.

(** ** Children *)

Lemma resolve_snoc links v cur cs l s :
  resolve links v cur cs = Ok l → is_dir_node (node_at v l) = true →
  is_link (node_at v (l ++ [s])) = false →
  resolve links v cur (cs ++ [Normal s]) = Ok (l ++ [s]).
Proof.
  revert cur cs. induction links as [|links IHl]; intros cur cs; revert cur;
    induction cs as [|c cs IH]; intros cur; try (intros [= <-] ? ?; by apply resolve_step);
    destruct c; simpl; try apply IH.
  - destruct (node_at v (cur ++ [s0])) as [[]|] eqn:E; try done; try apply IH;
      destruct cs; try done; intros [= <-]; by rewrite E.
  - destruct (node_at v (cur ++ [s0])) as [[]|] eqn:E; try done; try apply IH.
    + destruct cs; try done. intros [= <-]. by rewrite E.
    + intros. rewrite app_assoc. by apply IHl.
    + destruct cs; try done. intros [= <-]. by rewrite E.
Qed.

Lemma comp_body_ok s : name_ok s → comp_body s = [Normal s].
Proof.
  intros H. unfold comp_body. rewrite split_on_none by apply H. simpl.
  by rewrite part_component_ok.
Qed.

Lemma stat_resolve v path l n :
  stat v path = Ok (l, n) →
  components path ≠ [] ∧ path ≠ ""%string
  ∧ resolve MAX_LINKS v [] (components path) = Ok l ∧ node_at v l = Some n.
Proof.
  unfold stat. intros H. apply bind_ok in H as ([l' n'] & Hs & H). case_match; simplify_eq.
  pose proof (stat_node _ _ _ _ Hs) as Hn. unfold stat_cs, resolve_cs in Hs.
  apply bind_ok in Hs as (k & Hk & Hs). destruct (components path) eqn:E; [done|].
  rewrite <- E in *. split_and!; [by rewrite E|by intros ->| |done].
  case_match; simplify_eq. congruence.
Qed.

Section child.
Context (v : vfs) (path : string) (l : loc) (t : Z) (name : string) (n : Node).
Hypothesis Hnamed : named v.
Hypothesis Hpath : stat v path = Ok (l, NDir t).
Hypothesis Hchild : node_at v (l ++ [name]) = Some n.

Lemma child_name : name_ok name.
Proof. pose proof (Hnamed _ _ Hchild) as H. apply Forall_app in H as [_ H]. by inversion H. Qed.

Lemma child_components : components (path_join path name) = components path ++ [Normal name].
Proof.
  pose proof child_name. destruct (stat_resolve _ _ _ _ Hpath) as (_ & Hne & _).
  rewrite components_join by auto using name_ok_no_slash. by rewrite comp_body_ok.
Qed.

Lemma child_lstat : lstat v (path_join path name) = Ok (l ++ [name], n).
Proof.
  destruct (stat_resolve _ _ _ _ Hpath) as (_ & _ & Hr & Hd).
  unfold lstat, lstat_cs. rewrite child_components, last_snoc, removelast_last, Hr. simpl.
  by rewrite Hd, Hchild.
Qed.

Lemma child_stat_cs : is_link (Some n) = false → stat_cs v (components (path_join path name)) = Ok (l ++ [name], n).
Proof.
  intros Hl. destruct (stat_resolve _ _ _ _ Hpath) as (Hne & _ & Hr & Hd).
  unfold stat_cs, resolve_cs. rewrite child_components.
  destruct (components path ++ [Normal name]) eqn:E; [by destruct (components path)|].
  rewrite <- E. rewrite (resolve_snoc _ _ _ _ l name); [|done|by rewrite Hd|by rewrite Hchild].
  simpl. by rewrite Hchild.
Qed.

Lemma child_stat m : n = NDir m → stat v (path_join path name) = Ok (l ++ [name], NDir m).
Proof. intros En. unfold stat. rewrite child_stat_cs by by rewrite En. subst. simpl. by rewrite andb_false_r. Qed.

Lemma child_is_dir : is_link (Some n) = false → path_is_dir v (path_join path name) = is_dir_node (Some n).
Proof.
  intros Hl. unfold path_is_dir, stat. rewrite child_stat_cs by done. simpl.
  destruct n; simpl; rewrite ?andb_true_r, ?andb_false_r; by try destruct (ends_with _ _).
Qed.

(** What the listing says of a child. *)
Definition entry_of : FileEntry :=
  {| fe_type := match n with
                | NDir _ => FDir
                | NFile _ => FFile
                | NLink _ _ => if path_is_dir v (path_join path name) then FDirLink else FFileLink
                end;
     fe_name := name; fe_hidden := starts_with "." name;
     fe_size := match n with NFile _ => node_len v n | _ => 0%Z end;
     fe_mtime := mtime_secs (node_mtime v n) |}.

Lemma child_entry hidden :
  read_entry v path hidden name
  = if starts_with "." name && negb hidden then None else Some entry_of.
Proof.
  unfold read_entry. destruct child_name as (-> & _). rewrite child_lstat.
  case_match; [done|]. unfold entry_of. pose proof child_is_dir as Hd. clear Hchild.
  destruct n as [i|m|x m]; [by rewrite (Hd eq_refl)..|]. simpl. by destruct (path_is_dir v (path_join path name)).
Qed.
End child.

(** ** Listings *)

Section Listing.
Context (dir_order : list string → list string).
Hypothesis Horder : ∀ l, dir_order l ≡ₚ l.

Lemma child_names_spec v l name :
  name ∈ child_names dir_order v l ↔ ∃ n, node_at v (l ++ [name]) = Some n.
Proof.
  unfold child_names. rewrite Horder, list_elem_of_omap. split.
  - intros ([k n] & Hk & H). apply elem_of_map_to_list in Hk. simpl in H. case_bool_decide as E; [|done].
    destruct k as [|x k _] using rev_ind; [done|]. rewrite removelast_last in E. rewrite last_snoc in H.
    simplify_eq. exists n. by rewrite node_at_snoc.
  - intros [n Hn]. rewrite node_at_snoc in Hn. exists (l ++ [name], n).
    rewrite elem_of_map_to_list. split; [done|]. simpl.
    by rewrite removelast_last, bool_decide_true, last_snoc.
Qed.

Lemma read_dir_dir v path hidden l t :
  stat v path = Ok (l, NDir t) → ∃ fd, read_dir dir_order v path hidden = Ok fd.
Proof. intros H. unfold read_dir. rewrite H. simpl. by eexists. Qed.

Lemma read_dir_entries v path hidden l t fd e :
  named v → stat v path = Ok (l, NDir t) → read_dir dir_order v path hidden = Ok fd →
  e ∈ fd_entries fd ↔
  ∃ name n, node_at v (l ++ [name]) = Some n
    ∧ starts_with "." name && negb hidden = false ∧ e = entry_of v path name n.
Proof.
  intros Hw Hs. unfold read_dir. rewrite Hs. simpl. intros [= <-]. simpl.
  rewrite list_elem_of_omap. setoid_rewrite child_names_spec. split.
  - intros (name & [n Hn] & He). exists name, n. rewrite (child_entry _ _ _ _ _ _ Hw Hs Hn) in He.
    case_match; [done|]. by simplify_eq.
  - intros (name & n & Hn & Hh & ->). exists name. split; [by exists n|].
    by rewrite (child_entry _ _ _ _ _ _ Hw Hs Hn), Hh.
Qed.

(** An entry marked as a directory is a directory one level deeper. *)
Lemma entry_descends k v path hidden l t fd e :
  named v → depth_within k v → stat v path = Ok (l, NDir t) →
  read_dir dir_order v path hidden = Ok fd → e ∈ fd_entries fd → fe_type e = FDir →
  ∃ m, stat v (path_join path (fe_name e)) = Ok (l ++ [fe_name e], NDir m)
     ∧ (length l < k)%nat.
Proof.
  intros Hw Hk Hs Hr He Ht. eapply read_dir_entries in He as (name & n & Hn & _ & Ee); [|done..].
  subst e. unfold entry_of in *. simpl in Ht |- *.
  destruct n as [i|m|x m]; [done| |by destruct (path_is_dir v (path_join path name))].
  exists m. split; [by eapply child_stat|].
  apply Hk in Hn. rewrite length_app in Hn. simpl in Hn. lia.
Qed.

(** *** Enough depth *)

Definition enough (k n : nat) (v : vfs) (path : string) : Prop :=
  (0 < n)%nat ∧ ∀ l t, stat v path = Ok (l, NDir t) → (k - length l < n)%nat.

Lemma path_is_dir_stat v path : path_is_dir v path = true → ∃ l t, stat v path = Ok (l, NDir t).
Proof. unfold path_is_dir. repeat case_match; naive_solver. Qed.

Lemma enough_child k n v path hidden l t fd e :
  named v → depth_within k v → stat v path = Ok (l, NDir t) →
  read_dir dir_order v path hidden = Ok fd → e ∈ fd_entries fd → fe_type e = FDir →
  enough k (S n) v path → enough k n v (path_join path (fe_name e)).
Proof.
  intros Hw Hk Hs Hr He Ht [_ H]. specialize (H _ _ Hs).
  destruct (entry_descends k v path hidden l t fd e) as (m & Hm & Hl); [done..|]. split; [lia|].
  intros l' t' Hs'. rewrite Hm in Hs'. simplify_eq. rewrite length_app. simpl. lia.
Qed.

Lemma read_dir_fuel k n m v path prefix hidden :
  named v → depth_within k v → enough k n v path → enough k m v path →
  read_dir_recursive dir_order n v path prefix hidden = read_dir_recursive dir_order m v path prefix hidden.
Proof.
  intros Hw Hk. revert m path prefix. induction n as [|n IH]; intros m path prefix Hn Hm;
    [destruct Hn; lia|]. destruct m as [|m]; [destruct Hm; lia|]. simpl.
  destruct (path_is_dir v path) eqn:Ed; [|done].
  apply path_is_dir_stat in Ed as (l & t & Hs).
  destruct (read_dir_dir v path hidden l t Hs) as [fd Hr]. rewrite Hr. simpl. do 2 f_equal.
  apply map_ext_in. intros e He%list_elem_of_In. destruct (fe_type e) eqn:Ht; try done.
  erewrite (IH m); [done|by eapply enough_child..].
Qed.

Lemma read_empty_fuel k n m v path prefix hidden :
  named v → depth_within k v → enough k n v path → enough k m v path →
  read_empty_dirs_recursive dir_order n v path prefix hidden
  = read_empty_dirs_recursive dir_order m v path prefix hidden.
Proof.
  intros Hw Hk. revert m path prefix. induction n as [|n IH]; intros m path prefix Hn Hm;
    [destruct Hn; lia|]. destruct m as [|m]; [destruct Hm; lia|].
  cbn [read_empty_dirs_recursive].
  destruct (path_is_dir v path) eqn:Ed; [|done].
  apply path_is_dir_stat in Ed as (l & t & Hs).
  destruct (read_dir_dir v path hidden l t Hs) as [fd Hr]. rewrite Hr. cbn [mbind result_bind].
  destruct (fd_entries fd) as [|e0 es] eqn:Ees; [done|]. rewrite <- Ees. do 2 f_equal.
  apply map_ext_in. intros e He%list_elem_of_In. destruct (fe_type e) eqn:Ht; try done.
  erewrite (IH m); [done|by eapply enough_child..].
Qed.
End Listing.

Lemma stat_mono v v' p l n : pruned v v' → stat v' p = Ok (l, n) → stat v p = Ok (l, n).
Proof.
  intros P H. destruct (stat_resolve _ _ _ _ H) as (Hne & _ & Hr & Hn).
  unfold stat in *. apply bind_ok in H as ([l' n'] & Hs & H). apply bind_ok. exists (l', n').
  split; [|done]. case_match; simplify_eq. unfold stat_cs, resolve_cs.
  destruct (components p) eqn:E; [done|]. rewrite <- E in *.
  rewrite (resolve_mono _ _ _ _ _ _ _ P Hr Hn). simpl. by rewrite (pruned_sub _ _ P _ _ Hn).
Qed.

Section Prune.
Context (dir_order : list string → list string).
Hypothesis Horder : ∀ l, dir_order l ≡ₚ l.

Lemma remove_all_fuel k v0 n m v path :
  named v0 → depth_within k v0 → pruned v0 v → enough k n v path → enough k m v path →
  remove_all_empty_dir dir_order n v path = remove_all_empty_dir dir_order m v path.
Proof.
  intros Hw Hk. revert m v path. induction n as [|n IH]; intros m v path P Hn Hm;
    [destruct Hn; lia|]. destruct m as [|m]; [destruct Hm; lia|]. cbn [remove_all_empty_dir].
  destruct (read_dir dir_order v path true) as [fd|e] eqn:Er; [|done].
  assert (∃ l t, stat v path = Ok (l, NDir t)) as (l & t & Hs).
  { unfold read_dir in Er. destruct (stat v path) as [[l [i|t|x t]]|] eqn:E; try done. by exists l, t. }
  assert (named v) as Hwv by by eapply pruned_named.
  assert (depth_within k v) as Hkv by (intros l' n' H'; eapply Hk, P, H').
  assert (∀ es v1, (∀ e, e ∈ es → e ∈ fd_entries fd) → pruned v v1 →
    foldl (prune_entry dir_order n path) v1 es = foldl (prune_entry dir_order m path) v1 es) as Hfold.
  { induction es as [|e es IHe]; intros v1 Hin P1; [done|]. simpl.
    assert (e ∈ fd_entries fd) as He by (apply Hin; by left).
    assert (prune_entry dir_order n path v1 e = prune_entry dir_order m path v1 e) as E.
    { unfold prune_entry. destruct (fe_type e) eqn:Ht; try done. f_equal. apply IH.
      - by eapply pruned_trans.
      - destruct (enough_child dir_order Horder k n v path true l t fd e) as [H1 H2]; [done..|].
        split; [done|]. intros l' t' Hl'. eapply H2, stat_mono; done.
      - destruct (enough_child dir_order Horder k m v path true l t fd e) as [H1 H2]; [done..|].
        split; [done|]. intros l' t' Hl'. eapply H2, stat_mono; done. }
    rewrite E. apply IHe; [intros e' He'; apply Hin; by right|].
    eapply pruned_trans; [exact P1|]. eapply prune_entry_pruned; [|exact Er|by apply list_elem_of_In|exact P1].
    intros. apply remove_all_pruned. }
  fold (prune_entry dir_order n path). fold (prune_entry dir_order m path).
  by rewrite Hfold by (done || apply pruned_refl).
Qed.
End Prune.

(** ** What a recursive listing holds *)

Definition visible (hidden : bool) (name : string) : Prop := starts_with "." name && negb hidden = false.

(** The regular file [rel] below the directory [l], reached through directories,
    none of the names hidden when hidden ones are not asked for. *)
Inductive below (v : vfs) (hidden : bool) : loc → loc → nat → Prop :=
| below_here l s i :
    node_at v (l ++ [s]) = Some (NFile i) → visible hidden s → below v hidden l [s] i
| below_dir l s t rel i :
    node_at v (l ++ [s]) = Some (NDir t) → visible hidden s → below v hidden (l ++ [s]) rel i →
    below v hidden l (s :: rel) i.

Definition file_entry (v : vfs) (rel : loc) (i : nat) : FileEntry :=
  {| fe_type := FFile; fe_name := relname rel; fe_hidden := starts_with "." (default ""%string (last rel));
     fe_size := node_len v (NFile i); fe_mtime := mtime_secs (node_mtime v (NFile i)) |}.

Lemma below_last v hidden l rel i : below v hidden l rel i → rel ≠ [].
Proof. by destruct 1. Qed.

Lemma render_relname l : l ≠ [] → render l = String "/" (relname l).
Proof. by destruct l. Qed.

Lemma relname_snoc l s : l ≠ [] → relname (l ++ [s]) = (relname l ++ String "/" s)%string.
Proof.
  destruct l as [|x l]; [done|]. intros _. simpl. rewrite render_app. simpl.
  by rewrite string_app_nil_r, string_app_assoc.
Qed.

Lemma relname_end l : Forall name_ok l → l ≠ [] → relname l ≠ ""%string ∧ ends_with "/" (relname l) = false.
Proof.
  intros Hl Hne. destruct l as [|s l _] using rev_ind; [done|]. apply Forall_app in Hl as [Hl Hs].
  inversion Hs as [|? ? H _]; subst.
  pose proof (render_no_slash_end l s H) as He. rewrite render_relname in He by by destruct l.
  destruct (string_snoc (relname (l ++ [s]))) as [E|(r & y & E)].
  - exfalso. destruct l as [|x l]; simpl in E.
    + rewrite string_app_nil_r in E. subst. by destruct H.
    + inversion Hl as [|? ? (Hx & _)]; subst. by destruct x.
  - rewrite E in *. change (String "/" (r ++ String y "")) with (String "/" r ++ String y "")%string in He.
    rewrite ends_with_last in *. split; [by destruct r|done].
Qed.

Lemma join_relname pre s : Forall name_ok pre → name_ok s → path_join (relname pre) s = relname (pre ++ [s]).
Proof.
  intros Hp Hs. unfold path_join. rewrite name_ok_no_slash by done.
  destruct (decide (pre = [])) as [->|Hne]; [simpl; by rewrite string_app_nil_r|].
  destruct (relname_end pre) as [H1 H2]; [done..|].
  rewrite H2, relname_snoc by done. by destruct (relname pre).
Qed.

Section Exact.
Context (dir_order : list string → list string).
Hypothesis Horder : ∀ l, dir_order l ≡ₚ l.

Lemma elem_of_join_map {A B} (f : A → list B) l y : y ∈ mjoin (map f l) ↔ ∃ x, x ∈ l ∧ y ∈ f x.
Proof.
  rewrite list_elem_of_join. split.
  - intros (ys & Hy & Hys%list_elem_of_In). apply in_map_iff in Hys as (x & <- & Hx).
    exists x. by rewrite list_elem_of_In.
  - intros (x & Hx%list_elem_of_In & Hy). exists (f x). split; [done|].
    by apply list_elem_of_In, in_map.
Qed.

Lemma listed_below k n v path pre hidden l t :
  named v → depth_within k v → enough k n v path → stat v path = Ok (l, NDir t) → Forall name_ok pre →
  ∃ fs, read_dir_recursive dir_order n v path (relname pre) hidden = Ok fs
  ∧ ∀ f, f ∈ fs ↔ ∃ rel i, below v hidden l rel i ∧ f = file_entry v (pre ++ rel) i.
Proof.
  intros Hw Hk. revert path pre l t. induction n as [|n IH]; intros path pre l t Hn Hs Hpre;
    [destruct Hn; lia|]. cbn [read_dir_recursive].
  assert (path_is_dir v path = true) as -> by (unfold path_is_dir; by rewrite Hs).
  destruct (read_dir_dir dir_order v path hidden l t Hs) as [fd Hr]. rewrite Hr. cbn [mbind result_bind].
  eexists. split; [done|]. intros f. rewrite elem_of_join_map.
  pose proof (read_dir_entries dir_order Horder v path hidden l t fd) as Hes.
  split.
  - intros (e & He & Hf). destruct (fe_type e) eqn:Ht; try by apply elem_of_nil in Hf.
    + destruct (entry_descends dir_order Horder k v path hidden l t fd e) as (m & Hm & _); [done..|].
      destruct (IH (path_join path (fe_name e)) (pre ++ [fe_name e]) (l ++ [fe_name e]) m) as (fs & Hfs & Hin);
        [by eapply enough_child|done|..].
      { apply Hes in He as (name & nd & Hnd & _ & Ee); [|done..]. subst e.
        apply Forall_app. split; [done|]. constructor; [|done]. by eapply child_name. }
      apply Hes in He as (name & nd & Hnd & Hv & Ee); [|done..]. subst e. cbn [entry_of fe_name] in *.
      rewrite join_relname in Hf by (done || by eapply child_name). rewrite Hfs in Hf.
      apply Hin in Hf as (rel & i & Hb & ->). exists (name :: rel), i. rewrite <- app_assoc. split; [|done].
      simpl in Ht. destruct nd as [j|t'|x t']; [done| |by destruct (path_is_dir v (path_join path name))].
      by eapply below_dir.
    + apply Hes in He as (name & nd & Hnd & Hv & Ee); [|done..]. subst e.
      apply list_elem_of_singleton in Hf as ->.
      simpl in Ht. destruct nd as [j|t'|x t']; [|done|by destruct (path_is_dir v (path_join path name))].
      exists [name], j. split; [by constructor|]. unfold with_name, file_entry. simpl.
      rewrite join_relname by (done || by eapply child_name). by rewrite last_snoc.
  - intros (rel & i & Hb & ->). destruct Hb as [l s i Hi Hv|l s t' rel i Hd Hv Hb].
    + exists (entry_of v path s (NFile i)). split; [apply Hes; [done..|by exists s, (NFile i)]|].
      simpl. apply list_elem_of_singleton. unfold with_name, file_entry. simpl.
      rewrite join_relname by (done || by eapply child_name). by rewrite last_snoc.
    + exists (entry_of v path s (NDir t')).
      assert (entry_of v path s (NDir t') ∈ fd_entries fd) as He by (apply Hes; [done..|by exists s, (NDir t')]).
      split; [done|]. simpl. rewrite join_relname by (done || by eapply child_name).
      destruct (IH (path_join path s) (pre ++ [s]) (l ++ [s]) t') as (fs & -> & Hin).
      * eapply (enough_child dir_order Horder) with (e := entry_of v path s (NDir t')); done.
      * by eapply child_stat.
      * apply Forall_app. split; [done|]. constructor; [by eapply child_name|done].
      * apply Hin. exists rel, i. split; [done|]. by rewrite <- app_assoc.
Qed.

(** C37: walking a directory ends.  On any tree, with links anywhere, and however
    the system orders a listing: the recursive listing, the search for empty
    directories and their removal need to go no deeper than the deepest name of
    the tree, since they do not follow links; with any greater depth they give the
    same result and leave the same tree. *)
Theorem directory_walks_end v path hidden n :
  named v → (tree_depth v <= n)%nat →
  read_dir_recursive dir_order n v path "" hidden = get_recursive_files dir_order v path hidden
  ∧ read_empty_dirs_recursive dir_order n v path "" hidden = get_empty_dirs_recursive dir_order v path hidden
  ∧ remove_all_empty_dir dir_order n v path = remove_all_empty_dir dir_order (tree_depth v) v path.
Proof.
  intros Hw Hn. pose proof (tree_depth_within v) as Hk.
  assert (∀ m, (tree_depth v <= m)%nat → enough (pred (tree_depth v)) m v path) as He.
  { intros m Hm. unfold tree_depth in *. split; [lia|]. intros l t _. simpl in *. lia. }
  split_and!; [by eapply read_dir_fuel; eauto|by eapply read_empty_fuel; eauto|].
  eapply remove_all_fuel; eauto using pruned_refl.
Qed.

(** C36: a recursive listing is exact.  Listing a directory that can be reached
    succeeds and gives precisely the regular files below it that are reached
    through directories, never through a link, each with its name relative to the
    directory, its size and its time; hidden names, and what is under them, are
    left out unless asked for. *)
Theorem listing_exact v path hidden l t :
  named v → stat v path = Ok (l, NDir t) →
  ∃ fs, get_recursive_files dir_order v path hidden = Ok fs
  ∧ ∀ f, f ∈ fs ↔ ∃ rel i, below v hidden l rel i ∧ f = file_entry v rel i.
Proof.
  intros Hw Hs. eapply (listed_below (pred (tree_depth v)) _ v path []); eauto using tree_depth_within.
  split; [unfold tree_depth; lia|]. intros l' t' _. unfold tree_depth. simpl. lia.
Qed.
End Exact.

(** ** Witnesses

    A tree with a hidden directory and a link back to its root. *)

Definition nameb (s : string) : bool :=
  negb (is_empty s) && negb (String.eqb s ".") && negb (String.eqb s "..")
  && negb (contains_char "/" s) && negb (contains_char "000" s).

Lemma nameb_ok s : nameb s = true → name_ok s.
Proof.
  unfold nameb. rewrite !andb_true_iff, !negb_true_iff, !String.eqb_neq. unfold name_ok. tauto.
Qed.

Lemma named_of v : map_Forall (λ l _, forallb nameb l = true) (tree v) → named v.
Proof.
  intros H [|x l] n Hl; [constructor|]. apply H in Hl. apply List.Forall_forall.
  intros s Hs. apply nameb_ok. by eapply forallb_forall in Hl.
Qed.

Definition demo_loop : vfs :=
  {| tree := list_to_map [(["s"], NDir 0); (["s"; "a"], NFile 0); (["s"; "up"], NLink "/s" 0);
                          (["s"; ".h"], NDir 0); (["s"; ".h"; "b"], NFile 1)];
     inodes := list_to_map [(0%nat, Build_Inode [1; 2]%Z 0); (1%nat, Build_Inode [] 0)];
     next_ino := 2; clock := 5 |}.

Lemma demo_loop_named : named demo_loop.
Proof. apply named_of. refine (bool_decide_unpack _ _). vm_compute. exact I. Qed.

Lemma directory_walks_end_witness :
  read_dir_recursive (λ l, l) 50 demo_loop "/s" "" false
  = get_recursive_files (λ l, l) demo_loop "/s" false
  ∧ tree_depth demo_loop = 4%nat.
Proof.
  split; [|reflexivity].
  refine (proj1 (directory_walks_end (λ l, l) (λ l, reflexivity l) demo_loop "/s" false 50
            demo_loop_named _)).
  vm_compute. lia.
Defined.

Lemma listing_exact_witness :
  ∃ fs, get_recursive_files (λ l, l) demo_loop "/s" false = Ok fs
  ∧ fe_name <$> fs = ["a"]%string
  ∧ ∀ f, f ∈ fs ↔ ∃ rel i, below demo_loop false ["s"]%string rel i ∧ f = file_entry demo_loop rel i.
Proof.
  destruct (listing_exact (λ l, l) (λ l, reflexivity l) demo_loop "/s" false ["s"]%string 0
              demo_loop_named) as (fs & H1 & H2).
  - vm_compute. reflexivity.
  - exists fs. split; [exact H1|]. split; [|exact H2]. vm_compute in H1. by injection H1 as <-.
Defined.
