(* ===== verification/Secret.v ===== *)
(** * Encrypted settings

    [libs/hbb_common/src/password_security.rs]: values stored under the
    machine's key, with their version prefix ["00"].  A byte string ([&[u8]],
    [Vec<u8>]) and a Rust [String] are both a [string] of bytes.  Base64, the
    secret box and SHA-256 come from crates: they are the operations of the
    class [Crypto], with the documented laws in [CryptoLaws].  The lossy UTF-8
    conversion is the standard library's. *)

From S2P Require Import Prelude Strs.
From Stdlib Require Import Ascii String.

Local Open Scope string_scope.
#[local] Arguments String.append _ _ : simpl nomatch.

Fixpoint str_drop (n : nat) (s : string) : string :=
  match n, s with
  | O, _ => s
  | S n, String _ s => str_drop n s
  | S _, "" => ""
  end.
Fixpoint str_take (n : nat) (s : string) : string :=
  match n, s with
  | O, _ => ""
  | S n, String a s => String a (str_take n s)
  | S _, "" => ""
  end.

Lemma str_take_drop n s : str_take n s ++ str_drop n s = s.
Proof. revert s; induction n as [|n IH]; intros [|a s]; simpl; [done..|]. by rewrite IH. Qed.

(** ** UTF-8 *)

Definition byte_at (i : nat) (s : string) : Z :=
  match String.get i s with Some a => Z.of_nat (nat_of_ascii a) | None => 0 end.
Definition in_range (lo hi b : Z) : bool := ((lo <=? b) && (b <=? hi))%Z.
Definition is_cont (b : Z) : bool := in_range 128 191 b.

(** The next character of [s]: well formed or not, and the bytes it takes
    (the longest prefix of a well-formed one when it is not). *)
Definition utf8_next (s : string) : bool * nat :=
  let b0 := byte_at 0 s in
  let b1 := byte_at 1 s in
  if (b0 <? 128)%Z then (true, 1%nat)
  else if in_range 0xC2 0xDF b0 then if is_cont b1 then (true, 2%nat) else (false, 1%nat)
  else if in_range 0xE0 0xEF b0 then
    let lo := if (b0 =? 0xE0)%Z then 0xA0%Z else 0x80%Z in
    let hi := if (b0 =? 0xED)%Z then 0x9F%Z else 0xBF%Z in
    if in_range lo hi b1 then if is_cont (byte_at 2 s) then (true, 3%nat) else (false, 2%nat)
    else (false, 1%nat)
  else if in_range 0xF0 0xF4 b0 then
    let lo := if (b0 =? 0xF0)%Z then 0x90%Z else 0x80%Z in
    let hi := if (b0 =? 0xF4)%Z then 0x8F%Z else 0xBF%Z in
    if in_range lo hi b1 then
      if is_cont (byte_at 2 s) then
        if is_cont (byte_at 3 s) then (true, 4%nat) else (false, 3%nat)
      else (false, 2%nat)
    else (false, 1%nat)
  else (false, 1%nat).

(** U+FFFD. *)
Definition replacement : string :=
  String (ascii_of_nat 0xEF) (String (ascii_of_nat 0xBF) (String (ascii_of_nat 0xBD) "")).

Fixpoint lossy_go (fuel : nat) (s : string) : string :=
  match fuel, s with
  | O, _ | _, "" => ""
  | S fuel, _ =>
      let '(ok, n) := utf8_next s in
      (if ok then str_take n s else replacement) ++ lossy_go fuel (str_drop n s)
  end.
Definition from_utf8_lossy (s : string) : string := lossy_go (str_len s) s.

Fixpoint valid_go (fuel : nat) (s : string) : bool :=
  match fuel, s with
  | _, "" => true
  | O, _ => false
  | S fuel, _ => let '(ok, n) := utf8_next s in ok && valid_go fuel (str_drop n s)
  end.
(** What every Rust [String] satisfies. *)
Definition utf8_valid (s : string) : bool := valid_go (str_len s) s.

(** [s.chars().count()] of valid UTF-8: the bytes that start a character. *)
Fixpoint chars_count (s : string) : nat :=
  match s with
  | "" => 0
  | String a s => (if is_cont (Z.of_nat (nat_of_ascii a)) then 0 else 1) + chars_count s
  end.

Lemma lossy_valid s : utf8_valid s = true → from_utf8_lossy s = s.
Proof.
  unfold utf8_valid, from_utf8_lossy. generalize (str_len s) as fuel. intros fuel. revert s.
  induction fuel as [|fuel IH]; intros [|a s]; try done. cbn [valid_go lossy_go].
  destruct (utf8_next (String a s)) as [ok n]. intros [-> H]%andb_true_iff.
  rewrite (IH _ H). apply str_take_drop.
Qed.

(** ** The crates *)

Class Crypto := {
  b64_encode : string → string;
  b64_decode : string → option string;
  seal : string → string → string;       (* data, key *)
  open_ : string → string → option string;
  sha256 : string → string
}.

Definition KEYBYTES : nat := 32.
Definition MACBYTES : nat := 16.

(** Decoding inverts encoding, a sealed message opens under its key and is
    [MACBYTES] longer, digests have 32 bytes, encoded text is ASCII. *)
Class CryptoLaws (C : Crypto) : Prop := {
  b64_decode_encode v : b64_decode (b64_encode v) = Some v;
  open_seal m k : open_ (seal m k) k = Some m;
  seal_len m k : str_len (seal m k) = (str_len m + MACBYTES)%nat;
  sha256_len m : str_len (sha256 m) = 32%nat;
  b64_encode_nonempty v : v ≠ "" → b64_encode v ≠ ""
}.

(** The keys of the machine: its uuid, and the public key of the stored key
    pair when there is one. *)
Record Machine := { get_uuid : string; existing_pk : option string }.

Section Encrypt.
  Context `{C : Crypto}.
  Variable m : Machine.

Definition VERSION_LEN : nat := 2.

(** [keybuf.resize(KEYBYTES, 0)]. *)
Fixpoint resize (n : nat) (s : string) : string :=
  match n, s with
  | O, _ => ""
  | S n, String a s => String a (resize n s)
  | S n, "" => String "000" (resize n "")
  end.

Definition symmetric_crypt (data : string) (encrypt : bool) : option string :=
  let uuid := get_uuid m in
  if encrypt then Some (seal data (resize KEYBYTES uuid))
  else
    match open_ data (resize KEYBYTES uuid) with
    | Some r => Some r
    | None =>
        match existing_pk m with
        | Some pk => if String.eqb pk uuid then None else open_ data (resize KEYBYTES pk)
        | None => None
        end
    end.

Definition encrypt (v : string) : option string :=
  if is_empty v then None else b64_encode <$> symmetric_crypt v true.

Definition decrypt (v : string) : option string :=
  if is_empty v then None else b ← b64_decode v; symmetric_crypt b false.

Definition is_encrypted (v : string) : bool :=
  if (str_len v <=? VERSION_LEN)%nat || negb (starts_with "00" v) then false
  else match b64_decode (str_drop VERSION_LEN v) with
       | Some d => (MACBYTES <=? str_len d)%nat
       | None => false
       end.

Definition encrypt_str_or_original (s version : string) (max_len : nat) : string :=
  if is_encrypted s then s
  else if (max_len <? chars_count s)%nat then ""
  else match (if String.eqb version "00" then encrypt s else None) with
       | Some e => version ++ e
       | None => s
       end.

Definition decrypt_str_or_original (s current_version : string) : string * bool * bool :=
  match (if (VERSION_LEN <? str_len s)%nat && starts_with "00" s
         then decrypt (str_drop VERSION_LEN s) else None) with
  | Some v => (from_utf8_lossy v, true, negb (String.eqb "00" current_version))
  | None => (s, false, negb (is_empty s) && negb (is_encrypted s))
  end.

Definition encrypt_vec_or_original (v version : string) (max_len : nat) : string :=
  if is_encrypted v then v
  else if (max_len <? str_len v)%nat then ""
  else match (if String.eqb version "00" then encrypt v else None) with
       | Some e => version ++ e
       | None => v
       end.

Definition decrypt_vec_or_original (v current_version : string) : string * bool * bool :=
  let version := from_utf8_lossy (str_take VERSION_LEN v) in
  match (if (VERSION_LEN <? str_len v)%nat && String.eqb version "00"
         then decrypt (str_drop VERSION_LEN v) else None) with
  | Some d => (d, true, negb (String.eqb version current_version))
  | None => (v, false, negb (is_empty v) && negb (is_encrypted v))
  end.

(** ** Round trips *)

Context `{!CryptoLaws C}.

Lemma str_len_empty s : str_len s = 0%nat → s = "".
Proof. by destruct s. Qed.

Lemma is_empty_false s : s ≠ "" → is_empty s = false.
Proof. by destruct s. Qed.

Lemma sealed_nonempty v k : b64_encode (seal v k) ≠ "".
Proof.
  apply b64_encode_nonempty. intros H. pose proof (seal_len v k) as Hl. rewrite H in Hl.
  unfold MACBYTES in Hl. cbn in Hl. lia.
Qed.

Lemma encrypt_eq v : v ≠ "" →
  encrypt v = Some (b64_encode (seal v (resize KEYBYTES (get_uuid m)))).
Proof. intros Hv. unfold encrypt. by rewrite is_empty_false. Qed.

Lemma decrypt_sealed v :
  decrypt (b64_encode (seal v (resize KEYBYTES (get_uuid m)))) = Some v.
Proof.
  unfold decrypt. rewrite is_empty_false by apply sealed_nonempty. rewrite b64_decode_encode.
  cbn [mbind option_bind]. unfold symmetric_crypt. by rewrite open_seal.
Qed.

Lemma prefixed e : e ≠ "" →
  (VERSION_LEN <? str_len ("00" ++ e))%nat = true ∧ starts_with "00" ("00" ++ e) = true
  ∧ str_drop VERSION_LEN ("00" ++ e) = e
  ∧ from_utf8_lossy (str_take VERSION_LEN ("00" ++ e)) = "00".
Proof.
  intros He. assert (VERSION_LEN < str_len ("00" ++ e))%nat as Hl.
  { rewrite str_len_app. unfold VERSION_LEN, str_len at 1. simpl.
    destruct e; [done|simpl; lia]. }
  split_and!; [by apply Nat.ltb_lt|by apply (proj2 (starts_with_spec _ _)); exists e|done|].
  destruct e; done.
Qed.

Lemma encrypted_is_encrypted v e : encrypt v = Some e → is_encrypted ("00" ++ e) = true.
Proof.
  intros He. rewrite encrypt_eq in He by (by intros ->). apply (inj Some) in He as <-.
  destruct (prefixed _ (sealed_nonempty v (resize KEYBYTES (get_uuid m)))) as (Hl & Hs & Hd & _). unfold is_encrypted. rewrite Hs, Hd.
  apply Nat.ltb_lt in Hl. replace (_ <=? _)%nat with false by (symmetry; apply Nat.leb_gt; lia).
  cbn [orb negb]. rewrite b64_decode_encode, seal_len. apply Nat.leb_le. lia.
Qed.

Lemma encrypt_str_roundtrip s max_len :
  is_encrypted s = false → utf8_valid s = true → s ≠ "" → (chars_count s ≤ max_len)%nat →
  decrypt_str_or_original (encrypt_str_or_original s "00" max_len) "00" = (s, true, false).
Proof.
  intros Hp Hu Hne Hc. pose proof (encrypt_eq s Hne) as He.
  pose proof (decrypt_sealed s) as Hd. pose proof (sealed_nonempty s (resize KEYBYTES (get_uuid m))) as Hen.
  set (e := b64_encode _) in *. destruct (prefixed e Hen) as (P1 & P2 & P3 & _).
  unfold encrypt_str_or_original. rewrite Hp, (proj2 (Nat.ltb_ge _ _) Hc), String.eqb_refl, He.
  unfold decrypt_str_or_original. rewrite P1, P2, P3, Hd. cbn [andb]. by rewrite lossy_valid.
Qed.

Lemma encrypt_vec_roundtrip s max_len :
  is_encrypted s = false → s ≠ "" → (str_len s ≤ max_len)%nat →
  decrypt_vec_or_original (encrypt_vec_or_original s "00" max_len) "00" = (s, true, false).
Proof.
  intros Hp Hne Hl. pose proof (encrypt_eq s Hne) as He.
  pose proof (decrypt_sealed s) as Hd. pose proof (sealed_nonempty s (resize KEYBYTES (get_uuid m))) as Hen.
  set (e := b64_encode _) in *. destruct (prefixed e Hen) as (P1 & _ & P3 & P4).
  unfold encrypt_vec_or_original. rewrite Hp, (proj2 (Nat.ltb_ge _ _) Hl), String.eqb_refl, He.
  unfold decrypt_vec_or_original. by rewrite P1, P3, P4, Hd.
Qed.

(** A setting that is not already in encrypted form and not too long is
    stored encrypted and reads back unchanged, as decrypted and not needing to
    be stored again, in its text and its byte form; the empty value stays
    empty; what is stored is recognised as encrypted, so that encrypting it
    again changes nothing. *)
Lemma encrypt_roundtrip s max_len :
  is_encrypted s = false → utf8_valid s = true → s ≠ "" → (str_len s ≤ max_len)%nat →
  (chars_count s ≤ max_len)%nat →
  decrypt_str_or_original (encrypt_str_or_original s "00" max_len) "00" = (s, true, false)
  ∧ decrypt_vec_or_original (encrypt_vec_or_original s "00" max_len) "00" = (s, true, false)
  ∧ encrypt_str_or_original (encrypt_str_or_original s "00" max_len) "00" max_len
    = encrypt_str_or_original s "00" max_len
  ∧ decrypt_str_or_original (encrypt_str_or_original "" "00" max_len) "00" = ("", false, false).
Proof.
  intros Hp Hu Hne Hl Hc. pose proof (encrypt_eq s Hne) as He.
  pose proof (encrypted_is_encrypted s _ He) as Hi.
  split; [by apply encrypt_str_roundtrip|]. split; [by apply encrypt_vec_roundtrip|].
  unfold encrypt_str_or_original. rewrite Hp, (proj2 (Nat.ltb_ge _ _) Hc), String.eqb_refl, He, Hi.
  split; [done|]. by destruct max_len.
Qed.

(** A value that cannot be decrypted on this machine is kept as it is, and is
    asked to be stored again only when it is not encrypted at all. *)
Lemma decrypt_foreign s v :
  decrypt_str_or_original s v = (s, false, negb (is_empty s) && negb (is_encrypted s))
  ∨ ∃ d, decrypt (str_drop VERSION_LEN s) = Some d ∧ starts_with "00" s = true
         ∧ decrypt_str_or_original s v = (from_utf8_lossy d, true, negb (String.eqb "00" v)).
Proof.
  unfold decrypt_str_or_original. destruct ((_ <? _)%nat && _) eqn:E; [|by left].
  destruct (decrypt _) as [d|] eqn:Ed; [right|by left].
  exists d. apply andb_true_iff in E as [_ Es]. done.
Qed.

End Encrypt.

(** [str_take] gives what it is asked for when there is enough. *)
Lemma str_take_len n s : (n ≤ str_len s)%nat → str_len (str_take n s) = n.
Proof.
  revert s; induction n as [|n IH]; intros [|a s] H; simpl in *; try done; try lia.
  f_equal. apply IH. unfold str_len in *. lia.
Qed.

(** ** A toy instance of the crates, for concrete inputs *)

Module Toy.

Fixpoint fill (n : nat) : string := match n with O => "" | S n => String "x" (fill n) end.

#[export] Instance toy_crypto : Crypto := {|
  b64_encode := λ v, v;
  b64_decode := Some;
  seal := λ d k, fill MACBYTES ++ d;
  open_ := λ d k, if starts_with (fill MACBYTES) d then Some (str_drop MACBYTES d) else None;
  sha256 := λ v, str_take 32 (v ++ fill 32)
|}.

#[export] Instance toy_laws : CryptoLaws toy_crypto.
Proof.
  split; unfold b64_encode, b64_decode, open_, seal, sha256, toy_crypto; try done.
  - intros m _. by destruct m.
  - intros m _. rewrite str_len_app. apply Nat.add_comm.
  - intros m. apply str_take_len. rewrite str_len_app. change (str_len (fill 32)) with 32%nat. lia.
Defined.

Definition machine : Machine := {| get_uuid := "uuid"; existing_pk := Some "pk" |}.

End Toy.
Import Toy.

Lemma encrypt_roundtrip_witness :
  encrypt_str_or_original Toy.machine "secret" "00" 128 = "00xxxxxxxxxxxxxxxxsecret"
  ∧ decrypt_str_or_original Toy.machine
      (encrypt_str_or_original Toy.machine "secret" "00" 128) "00" = ("secret", true, false).
Proof.
  split; [reflexivity|].
  exact (proj1 (encrypt_roundtrip Toy.machine "secret" 128 eq_refl eq_refl ltac:(discriminate)
           ltac:(vm_compute; lia) ltac:(vm_compute; lia))).
Defined.
