(* ===== verification/Options.v ===== *)
(** * Settings

    [libs/hbb_common/src/config.rs]: the layered option tables ([OVERWRITE_*]
    over the stored table over [DEFAULT_*]), the stored configuration files
    [Config2], [LocalConfig] and [UserDefaultConfig], the proxy and unlock-pin
    settings, and the readings of single options.  A [HashMap] of options is a
    [gmap]; the process-wide tables are the fields of [Globals].  A configuration
    behind its lock is a [Stored] pair: the value in memory and the value last
    written to its file, so [config.store()] is visible; [Config2] encrypts the
    unlock pin and the proxy password in its file. *)

From S2P Require Import Prelude Strs Secret.
From Stdlib Require Import Ascii String.

Local Open Scope string_scope.

Abbreviation smap := (gmap string string).

(** The lazily initialised tables of the process. *)
Record Globals := {
  OVERWRITE_SETTINGS : smap; DEFAULT_SETTINGS : smap;
  OVERWRITE_LOCAL_SETTINGS : smap; DEFAULT_LOCAL_SETTINGS : smap;
  OVERWRITE_DISPLAY_SETTINGS : smap; DEFAULT_DISPLAY_SETTINGS : smap;
  HARD_SETTINGS : smap; BUILTIN_SETTINGS : smap;
  EXE_RENDEZVOUS_SERVER : string; PROD_RENDEZVOUS_SERVER : string;
  APP_NAME : string
}.

Definition empty_globals : Globals :=
  {| OVERWRITE_SETTINGS := ∅; DEFAULT_SETTINGS := ∅; OVERWRITE_LOCAL_SETTINGS := ∅;
     DEFAULT_LOCAL_SETTINGS := ∅; OVERWRITE_DISPLAY_SETTINGS := ∅;
     DEFAULT_DISPLAY_SETTINGS := ∅; HARD_SETTINGS := ∅; BUILTIN_SETTINGS := ∅;
     EXE_RENDEZVOUS_SERVER := ""; PROD_RENDEZVOUS_SERVER := ""; APP_NAME := "LDesk" |}.

(** A configuration in memory and on disk. *)
Record Stored (A : Type) := mk_stored { mem : A; disk : A }.
Arguments mk_stored {A} _ _.
Arguments mem {A} _.
Arguments disk {A} _.

(** [config.store()] of a configuration whose file holds it as it is. *)
Definition store {A} (c : A) : Stored A := mk_stored c c.

Record Socks5Server := { proxy : string; username : string; password : string }.

#[global] Instance Socks5Server_eq_dec : EqDecision Socks5Server.
Proof. solve_decision. Defined.

Definition socks_default : Socks5Server := {| proxy := ""; username := ""; password := "" |}.

Record Config2 := {
  rendezvous_server : string; nat_type : Z; serial : Z; unlock_pin : string;
  trusted_devices : string; socks : option Socks5Server; options : smap
}.

#[global] Instance Config2_eq_dec : EqDecision Config2.
Proof. solve_decision. Defined.

Definition set_c2_options (o : smap) (c : Config2) : Config2 :=
  {| rendezvous_server := rendezvous_server c; nat_type := nat_type c; serial := serial c;
     unlock_pin := unlock_pin c; trusted_devices := trusted_devices c; socks := socks c;
     options := o |}.
Definition set_c2_socks (s : option Socks5Server) (c : Config2) : Config2 :=
  {| rendezvous_server := rendezvous_server c; nat_type := nat_type c; serial := serial c;
     unlock_pin := unlock_pin c; trusted_devices := trusted_devices c; socks := s;
     options := options c |}.
Definition set_c2_pin (p : string) (c : Config2) : Config2 :=
  {| rendezvous_server := rendezvous_server c; nat_type := nat_type c; serial := serial c;
     unlock_pin := p; trusted_devices := trusted_devices c; socks := socks c;
     options := options c |}.
Definition set_c2_server (r : string) (c : Config2) : Config2 :=
  {| rendezvous_server := r; nat_type := nat_type c; serial := serial c;
     unlock_pin := unlock_pin c; trusted_devices := trusted_devices c; socks := socks c;
     options := options c |}.
Definition set_c2_trusted (t : string) (c : Config2) : Config2 :=
  {| rendezvous_server := rendezvous_server c; nat_type := nat_type c; serial := serial c;
     unlock_pin := unlock_pin c; trusted_devices := t; socks := socks c;
     options := options c |}.
Definition set_c2_nat (n : Z) (c : Config2) : Config2 :=
  {| rendezvous_server := rendezvous_server c; nat_type := n; serial := serial c;
     unlock_pin := unlock_pin c; trusted_devices := trusted_devices c; socks := socks c;
     options := options c |}.
Definition set_c2_serial (n : Z) (c : Config2) : Config2 :=
  {| rendezvous_server := rendezvous_server c; nat_type := nat_type c; serial := n;
     unlock_pin := unlock_pin c; trusted_devices := trusted_devices c; socks := socks c;
     options := options c |}.

Definition Config2_default : Config2 :=
  {| rendezvous_server := ""; nat_type := 0; serial := 0; unlock_pin := "";
     trusted_devices := ""; socks := None; options := ∅ |}.

Abbreviation CONFIG2 := (Stored Config2).

Record LocalConfig := {
  remote_id : string; kb_layout_type : string; size : Z * Z * Z * Z; fav : list string;
  local_options : smap; ui_flutter : smap
}.

Definition set_lc_options (o : smap) (c : LocalConfig) : LocalConfig :=
  {| remote_id := remote_id c; kb_layout_type := kb_layout_type c; size := size c;
     fav := fav c; local_options := o; ui_flutter := ui_flutter c |}.
Definition set_lc_flutter (o : smap) (c : LocalConfig) : LocalConfig :=
  {| remote_id := remote_id c; kb_layout_type := kb_layout_type c; size := size c;
     fav := fav c; local_options := local_options c; ui_flutter := o |}.
Definition set_lc_size (s : Z * Z * Z * Z) (c : LocalConfig) : LocalConfig :=
  {| remote_id := remote_id c; kb_layout_type := kb_layout_type c; size := s;
     fav := fav c; local_options := local_options c; ui_flutter := ui_flutter c |}.
Definition set_lc_remote_id (r : string) (c : LocalConfig) : LocalConfig :=
  {| remote_id := r; kb_layout_type := kb_layout_type c; size := size c;
     fav := fav c; local_options := local_options c; ui_flutter := ui_flutter c |}.
Definition set_lc_kb (k : string) (c : LocalConfig) : LocalConfig :=
  {| remote_id := remote_id c; kb_layout_type := k; size := size c;
     fav := fav c; local_options := local_options c; ui_flutter := ui_flutter c |}.
Definition set_lc_fav (f : list string) (c : LocalConfig) : LocalConfig :=
  {| remote_id := remote_id c; kb_layout_type := kb_layout_type c; size := size c;
     fav := f; local_options := local_options c; ui_flutter := ui_flutter c |}.

(** ** The layers *)

Definition get_or (a b c : smap) (k : string) : option string :=
  match a !! k with
  | Some v => Some v
  | None => match b !! k with Some v => Some v | None => c !! k end
  end.

Definition unwrap_or_default (o : option string) : string := default "" o.

Definition contains_key (m : smap) (k : string) : bool := bool_decide (is_Some (m !! k)).

(** [m.get(k).map_or(false, |x| x == v)]. *)
Definition get_is (m : smap) (k v : string) : bool :=
  match m !! k with Some x => String.eqb x v | None => false end.

Definition is_option_can_save (overwrite : smap) (k : string) (defaults : smap) (v : string) : bool :=
  negb (contains_key overwrite k || get_is defaults k v).

Definition OPTION_DIRECT_SERVER : string := "direct-server".
Definition OPTION_ALLOW_WEBSOCKET : string := "allow-websocket".
Definition OPTION_ALLOW_INSECURE_TLS_FALLBACK : string := "allow-insecure-tls-fallback".
Definition OPTION_LANGUAGE : string := "lang".
Definition OPTION_PROXY_URL : string := "proxy-url".
Definition OPTION_PROXY_USERNAME : string := "proxy-username".
Definition OPTION_PROXY_PASSWORD : string := "proxy-password".
Definition OPTION_DISABLE_CHANGE_PERMANENT_PASSWORD : string := "disable-change-permanent-password".
Definition OPTION_DISABLE_CHANGE_ID : string := "disable-change-id".
Definition OPTION_DISABLE_UNLOCK_PIN : string := "disable-unlock-pin".

Definition option2bool (option value : string) : bool :=
  if starts_with "enable-" option then negb (String.eqb value "N")
  else if starts_with "allow-" option || String.eqb option "stop-service"
          || String.eqb option OPTION_DIRECT_SERVER || String.eqb option "force-always-relay"
  then String.eqb value "Y"
  else negb (String.eqb value "N").

(** [if v.is_empty() { remove(k) } else { insert(k, v) }]. *)
Definition put_or_remove (m : smap) (k v : string) : smap :=
  if is_empty v then delete k m else <[k := v]> m.

(** [let v2 = if v.is_empty() { None } else { Some(&v) }]. *)
Definition non_empty (v : string) : option string := if is_empty v then None else Some v.

Section Config2.
  Context `{C : Crypto}.
  Variable m : Machine.
  Variable g : Globals.

(** *** The file of [Config2] *)

Definition PASSWORD_ENC_VERSION : string := "00".
Definition ENCRYPT_MAX_LEN : nat := 128.

Definition with_password (p : string) (s : Socks5Server) : Socks5Server :=
  {| proxy := proxy s; username := username s; password := p |}.

Definition c2_to_file (c : Config2) : Config2 :=
  let enc s := encrypt_str_or_original m s PASSWORD_ENC_VERSION ENCRYPT_MAX_LEN in
  let c := set_c2_socks ((λ s, with_password (enc (password s)) s) <$> socks c) c in
  set_c2_pin (enc (unlock_pin c)) c.

(** [Config2::store]. *)
Definition c2_store (c : Config2) : CONFIG2 := mk_stored c (c2_to_file c).

(** [Config2::load] of the given file. *)
Definition c2_load (file : Config2) : CONFIG2 :=
  let '(sk, st1) :=
    match socks file with
    | Some s => let '(p, _, st) := decrypt_str_or_original m (password s) PASSWORD_ENC_VERSION in
                (Some (with_password p s), st)
    | None => (None, false)
    end in
  let '(pin, _, st2) := decrypt_str_or_original m (unlock_pin file) PASSWORD_ENC_VERSION in
  let c := set_c2_pin pin (set_c2_socks sk file) in
  if st1 || st2 then c2_store c else mk_stored c file.

(** [Config2::set]. *)
Definition c2_set (cfg : Config2) (c : CONFIG2) : bool * CONFIG2 :=
  if bool_decide (mem c = cfg) then (false, c) else (true, c2_store cfg).

(** *** [Config]: the main option table *)

Definition get_options (c : CONFIG2) : smap :=
  OVERWRITE_SETTINGS g ∪ (options (mem c) ∪ DEFAULT_SETTINGS g).

Definition purify_options (v : smap) : smap :=
  filter (λ kv, is_option_can_save (OVERWRITE_SETTINGS g) kv.1 (DEFAULT_SETTINGS g) kv.2 = true) v.

Definition set_options (v : smap) (c : CONFIG2) : CONFIG2 :=
  let v := purify_options v in
  if bool_decide (options (mem c) = v) then c else c2_store (set_c2_options v (mem c)).

Definition get_option (c : CONFIG2) (k : string) : string :=
  unwrap_or_default (get_or (OVERWRITE_SETTINGS g) (options (mem c)) (DEFAULT_SETTINGS g) k).

Definition get_bool_option (c : CONFIG2) (k : string) : bool := option2bool k (get_option c k).

Definition set_option (k v : string) (c : CONFIG2) : CONFIG2 :=
  let opts := options (mem c) in
  if negb (is_option_can_save (OVERWRITE_SETTINGS g) k (DEFAULT_SETTINGS g) v) then
    match opts !! k with
    | Some _ => c2_store (set_c2_options (delete k opts) (mem c))
    | None => c
    end
  else if bool_decide (non_empty v = opts !! k) then c
  else c2_store (set_c2_options (put_or_remove opts k v) (mem c)).

(** *** Proxy *)

Definition get_socks_from_custom_client_advanced_settings (settings : smap) : option Socks5Server :=
  url ← settings !! OPTION_PROXY_URL;
  Some {| proxy := url; username := unwrap_or_default (settings !! OPTION_PROXY_USERNAME);
          password := unwrap_or_default (settings !! OPTION_PROXY_PASSWORD) |}.

Definition get_socks (c : CONFIG2) : option Socks5Server :=
  match get_socks_from_custom_client_advanced_settings (OVERWRITE_SETTINGS g) with
  | Some s => Some s
  | None => match socks (mem c) with
            | Some s => Some s
            | None => get_socks_from_custom_client_advanced_settings (DEFAULT_SETTINGS g)
            end
  end.

Definition set_socks (s : option Socks5Server) (c : CONFIG2) : CONFIG2 :=
  if contains_key (OVERWRITE_SETTINGS g) OPTION_PROXY_URL then c
  else if bool_decide (socks (mem c) = s) then c
  else
    let d := default socks_default s in
    if bool_decide (socks (mem c) = None)
       && (contains_key (DEFAULT_SETTINGS g) OPTION_PROXY_URL
           && get_is (DEFAULT_SETTINGS g) OPTION_PROXY_URL (proxy d)
           && get_is (DEFAULT_SETTINGS g) OPTION_PROXY_USERNAME (username d)
           && get_is (DEFAULT_SETTINGS g) OPTION_PROXY_PASSWORD (password d))
    then c
    else c2_store (set_c2_socks s (mem c)).

Inductive NetworkType := Direct | ProxySocks.

Definition get_network_type (c : CONFIG2) : NetworkType :=
  if contains_key (OVERWRITE_SETTINGS g) OPTION_PROXY_URL then ProxySocks
  else if bool_decide (is_Some (socks (mem c))) then ProxySocks
  else if contains_key (DEFAULT_SETTINGS g) OPTION_PROXY_URL then ProxySocks
  else Direct.

Definition is_proxy (c : CONFIG2) : bool :=
  match get_network_type c with Direct => false | ProxySocks => true end.

(** *** Single settings *)

Definition is_disable_change_permanent_password : bool :=
  get_is (BUILTIN_SETTINGS g) OPTION_DISABLE_CHANGE_PERMANENT_PASSWORD "Y".
Definition is_disable_change_id : bool :=
  get_is (BUILTIN_SETTINGS g) OPTION_DISABLE_CHANGE_ID "Y".
Definition is_disable_unlock_pin : bool :=
  get_is (BUILTIN_SETTINGS g) OPTION_DISABLE_UNLOCK_PIN "Y".

Definition get_unlock_pin (c : CONFIG2) : string :=
  if is_disable_unlock_pin then "" else unlock_pin (mem c).

Definition set_unlock_pin (pin : string) (c : CONFIG2) : CONFIG2 :=
  if is_disable_unlock_pin then c
  else if String.eqb pin (unlock_pin (mem c)) then c
  else c2_store (set_c2_pin pin (mem c)).

Definition SERIAL : Z := 3.

Definition set_nat_type (n : Z) (c : CONFIG2) : CONFIG2 :=
  if bool_decide (n = nat_type (mem c)) then c else c2_store (set_c2_nat n (mem c)).
Definition get_nat_type (c : CONFIG2) : Z := nat_type (mem c).
Definition set_serial (n : Z) (c : CONFIG2) : CONFIG2 :=
  if bool_decide (n = serial (mem c)) then c else c2_store (set_c2_serial n (mem c)).
Definition get_serial (c : CONFIG2) : Z := Z.max (serial (mem c)) SERIAL.

Definition is_incoming_only : bool := get_is (HARD_SETTINGS g) "conn-type" "incoming".
Definition is_outgoing_only : bool := get_is (HARD_SETTINGS g) "conn-type" "outgoing".
Definition is_some_hard_opton (name : string) : bool := get_is (HARD_SETTINGS g) name "Y".
Definition is_disable_tcp_listen : bool := is_some_hard_opton "disable-tcp-listen".
Definition is_disable_settings : bool := is_some_hard_opton "disable-settings".
Definition is_disable_ab : bool := is_some_hard_opton "disable-ab".
Definition is_disable_account : bool := is_some_hard_opton "disable-account".
Definition is_disable_installation : bool := is_some_hard_opton "disable-installation".

Definition get_builtin_option (key : string) : string :=
  unwrap_or_default (BUILTIN_SETTINGS g !! key).

(** The desktop build: the option defaults to off. *)
Definition use_ws (c : CONFIG2) : bool :=
  let val := get_option c OPTION_ALLOW_WEBSOCKET in
  if is_empty val then false else option2bool OPTION_ALLOW_WEBSOCKET val.

Definition allow_insecure_tls_fallback (c : CONFIG2) : bool :=
  option2bool OPTION_ALLOW_INSECURE_TLS_FALLBACK (get_option c OPTION_ALLOW_INSECURE_TLS_FALLBACK).

End Config2.

(** ** [LocalConfig] *)

Section Local.
  Variable g : Globals.

Definition lc_get_option (c : Stored LocalConfig) (k : string) : string :=
  unwrap_or_default
    (get_or (OVERWRITE_LOCAL_SETTINGS g) (local_options (mem c)) (DEFAULT_LOCAL_SETTINGS g) k).

(** [Self::load()] reads the file back. *)
Definition lc_get_option_from_file (c : Stored LocalConfig) (k : string) : string :=
  unwrap_or_default
    (get_or (OVERWRITE_LOCAL_SETTINGS g) (local_options (disk c)) (DEFAULT_LOCAL_SETTINGS g) k).

Definition lc_get_bool_option (c : Stored LocalConfig) (k : string) : bool :=
  option2bool k (lc_get_option c k).

Definition lc_set_option (k v : string) (c : Stored LocalConfig) : Stored LocalConfig :=
  let opts := local_options (mem c) in
  if negb (is_option_can_save (OVERWRITE_LOCAL_SETTINGS g) k (DEFAULT_LOCAL_SETTINGS g) v) then
    match opts !! k with
    | Some _ => store (set_lc_options (delete k opts) (mem c))
    | None => c
    end
  else if String.eqb k OPTION_LANGUAGE && String.eqb v "default" then
    store (set_lc_options (<[k := ""]> opts) (mem c))
  else if bool_decide (non_empty v = opts !! k) then c
  else store (set_lc_options (put_or_remove opts k v) (mem c)).

Definition get_flutter_option (c : Stored LocalConfig) (k : string) : string :=
  unwrap_or_default
    (get_or (OVERWRITE_LOCAL_SETTINGS g) (ui_flutter (mem c)) (DEFAULT_LOCAL_SETTINGS g) k).

Definition set_flutter_option (k v : string) (c : Stored LocalConfig) : Stored LocalConfig :=
  let opts := ui_flutter (mem c) in
  if bool_decide (non_empty v = opts !! k) then c
  else store (set_lc_flutter (put_or_remove opts k v) (mem c)).

Definition get_size (c : Stored LocalConfig) : Z * Z * Z * Z := size (mem c).

Definition set_size (x y w h : Z) (c : Stored LocalConfig) : Stored LocalConfig :=
  if bool_decide ((x, y, w, h) = size (mem c)) || (w <? 300)%Z || (h <? 300)%Z then c
  else store (set_lc_size (x, y, w, h) (mem c)).

Definition get_kb_layout_type (c : Stored LocalConfig) : string := kb_layout_type (mem c).
Definition set_kb_layout_type (t : string) (c : Stored LocalConfig) : Stored LocalConfig :=
  store (set_lc_kb t (mem c)).
Definition set_remote_id (r : string) (c : Stored LocalConfig) : Stored LocalConfig :=
  if String.eqb r (remote_id (mem c)) then c else store (set_lc_remote_id r (mem c)).
Definition get_remote_id (c : Stored LocalConfig) : string := remote_id (mem c).
Definition set_fav (f : list string) (c : Stored LocalConfig) : Stored LocalConfig :=
  if bool_decide (fav (mem c) = f) then c else store (set_lc_fav f (mem c)).
Definition get_fav (c : Stored LocalConfig) : list string := fav (mem c).

(** *** [UserDefaultConfig] *)

Definition get_after (c : Stored smap) (k : string) : option string :=
  get_or (OVERWRITE_DISPLAY_SETTINGS g) (mem c) (DEFAULT_DISPLAY_SETTINGS g) k.

Definition ud_set (k v : string) (c : Stored smap) : Stored smap :=
  if negb (is_option_can_save (OVERWRITE_DISPLAY_SETTINGS g) k (DEFAULT_DISPLAY_SETTINGS g) v) then
    match mem c !! k with Some _ => store (delete k (mem c)) | None => c end
  else store (put_or_remove (mem c) k v).

Definition get_string (c : Stored smap) (key def : string) (others : list string) : string :=
  match get_after c key with
  | Some option => if existsb (String.eqb option) others then option else def
  | None => def
  end.

(** [get_num_string] is generic in the number; the laws its callers need. *)
Class NumString (T : Type) := {
  num_show : T → string; num_parse : string → option T; num_leb : T → T → bool
}.

Definition get_num_string {T} `{NumString T} (c : Stored smap) (key : string) (def lo hi : T) : string :=
  match get_after c key with
  | Some option =>
      let v := default def (num_parse option) in
      if num_leb lo v && num_leb v hi then num_show v else num_show def
  | None => num_show def
  end.

End Local.

#[export] Instance i32_num : NumString Z :=
  {| num_show := show_Z; num_parse := parse_i32; num_leb := Z.leb |}.

(** ** Other settings of the process *)

Definition is_service_ipc_postfix (postfix : string) : bool :=
  String.eqb postfix "_service" || starts_with "_uinput_" postfix.

Definition ipc_parent_dir_for_uid (g : Globals) (uid : Z) (postfix : string) : string :=
  if is_service_ipc_postfix postfix then "/tmp/" ++ APP_NAME g ++ "-service"
  else "/tmp/" ++ APP_NAME g ++ "-" ++ show_Z uid.

(** ** Reading after writing *)

Lemma get_is_Some m k v : get_is m k v = true ↔ m !! k = Some v.
Proof.
  unfold get_is. destruct (m !! k) as [x|]; [|naive_solver].
  rewrite String.eqb_eq. naive_solver.
Qed.

Lemma contains_key_Some m k : contains_key m k = true ↔ is_Some (m !! k).
Proof. apply bool_decide_eq_true. Qed.

Lemma can_save_spec ov k de v :
  is_option_can_save ov k de v = true ↔ ov !! k = None ∧ de !! k ≠ Some v.
Proof.
  unfold is_option_can_save. rewrite negb_true_iff, orb_false_iff, <- !not_true_iff_false.
  by rewrite contains_key_Some, get_is_Some, <- eq_None_not_Some.
Qed.

Lemma cannot_save_spec ov k de v :
  is_option_can_save ov k de v = false ↔ is_Some (ov !! k) ∨ de !! k = Some v.
Proof.
  rewrite <- not_true_iff_false, can_save_spec, <- not_eq_None_Some.
  destruct (decide (ov !! k = None)), (decide (de !! k = Some v)); naive_solver.
Qed.

Lemma put_or_remove_lookup m k v j :
  put_or_remove m k v !! j = if decide (j = k) then non_empty v else m !! j.
Proof.
  unfold put_or_remove, non_empty. destruct (is_empty v), (decide (j = k)) as [->|];
    by rewrite ?lookup_delete_eq, ?lookup_delete_ne, ?lookup_insert_eq, ?lookup_insert_ne by done.
Qed.

Lemma is_empty_nil v : is_empty v = true ↔ v = "".
Proof. by destruct v. Qed.

(** What the table holds after [set_option]: nothing for an overridden key or
    a value that is the default, else the value, none for the empty string. *)
Lemma set_option_lookup `{Crypto} m g k v c j :
  options (mem (set_option m g k v c)) !! j =
  if decide (j = k) then
    if is_option_can_save (OVERWRITE_SETTINGS g) k (DEFAULT_SETTINGS g) v then non_empty v else None
  else options (mem c) !! j.
Proof.
  unfold set_option. destruct (is_option_can_save _ _ _ _); cbn [negb].
  - case_bool_decide as E; [|apply put_or_remove_lookup].
    by destruct (decide (j = k)) as [->|].
  - destruct (options (mem c) !! k) eqn:E; destruct (decide (j = k)) as [->|]; simpl;
      by rewrite ?lookup_delete_eq, ?lookup_delete_ne by done.
Qed.

(** Reading an option back after [set_option]: an option fixed by the
    build's overwrite table never changes, clearing an option (the empty
    string) falls back to the default table, any other value is read back as
    written, also when it equals the default and is not stored, and no other
    option is affected. *)
Lemma get_set_option `{Crypto} m g k v c j :
  get_option g (set_option m g k v c) j =
  if decide (j = k) then
    match OVERWRITE_SETTINGS g !! k with
    | Some o => o
    | None => if is_empty v then unwrap_or_default (DEFAULT_SETTINGS g !! k) else v
    end
  else get_option g c j.
Proof.
  unfold get_option, get_or. rewrite set_option_lookup.
  destruct (decide (j = k)) as [->|]; [|done].
  destruct (OVERWRITE_SETTINGS g !! k) as [o|] eqn:Eo; [done|].
  destruct (is_option_can_save _ _ _ _) eqn:Es.
  - unfold non_empty. by destruct (is_empty v).
  - apply cannot_save_spec in Es as [[? ?]|Ed]; [congruence|]. rewrite Ed.
    destruct (is_empty v) eqn:E; [|done]. by apply is_empty_nil in E as ->.
Qed.

Lemma get_options_lookup g c k :
  get_options g c !! k = get_or (OVERWRITE_SETTINGS g) (options (mem c)) (DEFAULT_SETTINGS g) k.
Proof.
  unfold get_options, get_or. rewrite !lookup_union.
  by destruct (OVERWRITE_SETTINGS g !! k), (options (mem c) !! k), (DEFAULT_SETTINGS g !! k).
Qed.

Lemma purify_lookup g v k :
  purify_options g v !! k =
  (x ← v !! k; if is_option_can_save (OVERWRITE_SETTINGS g) k (DEFAULT_SETTINGS g) x
               then Some x else None).
Proof.
  unfold purify_options. rewrite map_lookup_filter.
  destruct (v !! k) as [x|]; simpl; [|done].
  destruct (is_option_can_save _ _ _ _) eqn:E.
  - by rewrite option_guard_True.
  - by rewrite option_guard_False.
Qed.

Lemma set_options_mem `{Crypto} m g v c : options (mem (set_options m g v c)) = purify_options g v.
Proof. unfold set_options. by case_bool_decide. Qed.

(** Writing back the merged table the user interface reads leaves every
    option reading as before: the values coming from the overwrite and default
    tables are purged before storing. *)
Lemma set_options_roundtrip `{Crypto} m g c k :
  get_option g (set_options m g (get_options g c) c) k = get_option g c k.
Proof.
  unfold get_option. f_equal. rewrite <- !get_options_lookup.
  rewrite get_options_lookup. unfold get_or.
  rewrite set_options_mem, purify_lookup, get_options_lookup. unfold get_or.
  destruct (OVERWRITE_SETTINGS g !! k) as [o|] eqn:Eo; [done|].
  destruct (options (mem c) !! k) as [x|]; simpl; [|destruct (DEFAULT_SETTINGS g !! k) as [x|]; simpl; [|done]];
    destruct (is_option_can_save _ _ _ _) eqn:Es; try done;
    by apply cannot_save_spec in Es as [[? ?]|Ed]; [congruence|].
Qed.

(** ** The file follows the memory *)

Inductive C2Op :=
| OpSetOption (k v : string) | OpSetOptions (v : smap) | OpSetSocks (s : option Socks5Server)
| OpSetPin (p : string) | OpSetNat (n : Z) | OpSetSerial (n : Z) | OpRestart.

Section Persist.
  Context `{C : Crypto} `{!CryptoLaws C}.
  Variable m : Machine.
  Variable g : Globals.

Definition c2_run (c : CONFIG2) (op : C2Op) : CONFIG2 :=
  match op with
  | OpSetOption k v => set_option m g k v c
  | OpSetOptions v => set_options m g v c
  | OpSetSocks s => set_socks m g s c
  | OpSetPin p => set_unlock_pin m g p c
  | OpSetNat n => set_nat_type m n c
  | OpSetSerial n => set_serial m n c
  | OpRestart => c2_load m (disk c)
  end.

(** A secret the encryption keeps: valid text, not too long, not already in
    the encrypted form. *)
Definition storable (s : string) : Prop :=
  s = "" ∨ is_encrypted s = false ∧ utf8_valid s = true ∧ (chars_count s ≤ ENCRYPT_MAX_LEN)%nat.

Definition op_storable (op : C2Op) : Prop :=
  match op with
  | OpSetSocks (Some s) => storable (password s)
  | OpSetPin p => storable p
  | _ => True
  end.

(** A restart reads back what is in memory. *)
Definition in_sync (c : CONFIG2) : Prop :=
  mem (c2_load m (disk c)) = mem c
  ∧ storable (unlock_pin (mem c)) ∧ (∀ s, socks (mem c) = Some s → storable (password s)).

(** Nothing is stored that the overwrite table hides or the default gives. *)
Definition purified (t : smap) : Prop :=
  ∀ k v, t !! k = Some v → is_option_can_save (OVERWRITE_SETTINGS g) k (DEFAULT_SETTINGS g) v = true.

Lemma decrypt_encrypt s : storable s →
  (decrypt_str_or_original m (encrypt_str_or_original m s PASSWORD_ENC_VERSION ENCRYPT_MAX_LEN)
     PASSWORD_ENC_VERSION) = (s, negb (is_empty s), false).
Proof.
  intros [->|(H1 & H2 & H3)]; [done|]. destruct (is_empty s) eqn:E; [by destruct s|].
  apply encrypt_str_roundtrip; try done. by intros ->.
Qed.

Lemma load_file c :
  storable (unlock_pin c) → (∀ s, socks c = Some s → storable (password s)) →
  c2_load m (c2_to_file m c) = mk_stored c (c2_to_file m c).
Proof.
  intros Hp Hs. unfold c2_load, c2_to_file.
  cbn [socks unlock_pin set_c2_pin set_c2_socks].
  rewrite (decrypt_encrypt _ Hp). destruct (socks c) as [s|] eqn:E.
  - cbn [fmap option_fmap option_map with_password password].
    rewrite (decrypt_encrypt _ (Hs _ eq_refl)). cbn. destruct c; simpl in *. subst. by destruct s.
  - cbn. destruct c; simpl in *. by subst.
Qed.

Lemma sync_store c :
  storable (unlock_pin c) → (∀ s, socks c = Some s → storable (password s)) → in_sync (c2_store m c).
Proof. intros Hp Hs. split; [|by split]. unfold c2_store. cbn [disk mem]. by rewrite load_file. Qed.

Lemma load_cases file :
  c2_load m file = c2_store m (mem (c2_load m file)) ∨ disk (c2_load m file) = file.
Proof. unfold c2_load. repeat case_match; auto. Qed.

Lemma c2_run_sync c op : op_storable op → in_sync c → in_sync (c2_run c op).
Proof.
  intros Ho (H & Hp & Hs). destruct op as [| |[s|]|p| | |]; simpl in *;
    unfold set_option, set_options, set_socks, set_unlock_pin, set_nat_type, set_serial;
    repeat case_match; try done; try (apply sync_store; simpl; naive_solver).
  destruct (load_cases (disk c)) as [E|E].
  - rewrite E, H. by apply sync_store.
  - split; [by rewrite E, H|]. by rewrite H.
Qed.

Lemma purified_set_option k v c :
  purified (options (mem c)) → purified (options (mem (set_option m g k v c))).
Proof.
  intros H j w. rewrite set_option_lookup. destruct (decide (j = k)) as [->|]; [|apply H].
  destruct (is_option_can_save _ k _ v) eqn:E; [|done].
  unfold non_empty. destruct (is_empty v); naive_solver.
Qed.

Lemma purified_set_options v c : purified (options (mem (set_options m g v c))).
Proof.
  intros j w. rewrite set_options_mem, purify_lookup.
  intros (x & _ & H)%bind_Some. destruct (is_option_can_save _ _ _ _) eqn:E; naive_solver.
Qed.

Lemma purified_run c op :
  in_sync c → purified (options (mem c)) → purified (options (mem (c2_run c op))).
Proof.
  intros (Hsync & _) H. destruct op; simpl;
    [by apply purified_set_option|by apply purified_set_options| | | | |by rewrite Hsync];
    unfold set_socks, set_unlock_pin, set_nat_type, set_serial; repeat case_match; done.
Qed.

(** Whatever sequence of settings is changed, with secrets of at most 128
    characters, a restart at any point reads back from the file, the pin and
    the proxy password decrypted, exactly what was in memory; and the stored
    option table never holds a value the overwrite table hides or the default
    table already gives. *)
Lemma settings_persisted c ops :
  in_sync c → purified (options (mem c)) → Forall op_storable ops →
  let c' := foldl c2_run c ops in
  mem (c2_load m (disk c')) = mem c' ∧ purified (options (mem c')).
Proof.
  intros Hs Hp Ho. cbn zeta. assert (in_sync (foldl c2_run c ops) ∧ purified (options (mem (foldl c2_run c ops)))) as [H1 H2].
  { revert c Hs Hp. induction Ho as [|op ops Hop _ IH]; intros c Hs Hp; [done|]. simpl.
    apply IH; [by apply c2_run_sync|by apply purified_run]. }
  split; [apply H1|done].
Qed.

End Persist.

Import Toy.

Lemma settings_persisted_witness :
  let g := empty_globals in
  let c := c2_store machine Config2_default in
  let ops := [OpSetOption "enable-audio" "N"; OpSetPin "1234"; OpRestart;
              OpSetOptions {["allow-websocket" := "Y"]}] in
  unlock_pin (disk (foldl (c2_run machine g) c ops)) ≠ "1234"
  ∧ mem (c2_load machine (disk (foldl (c2_run machine g) c ops))) = mem (foldl (c2_run machine g) c ops).
Proof.
  intros g c ops. split; [vm_compute; discriminate|].
  refine (proj1 (settings_persisted machine g c ops _ _ _)).
  - apply sync_store; [by left|done].
  - intros k v H. vm_compute in H. discriminate.
  - apply Forall_cons; split; [exact I|]. apply Forall_cons; split.
    + right. split_and!; [reflexivity|reflexivity|vm_compute; lia].
    + repeat constructor.
Defined.

(** ** Proxy settings *)

Lemma advanced_socks_default g d :
  contains_key (DEFAULT_SETTINGS g) OPTION_PROXY_URL
  && get_is (DEFAULT_SETTINGS g) OPTION_PROXY_URL (proxy d)
  && get_is (DEFAULT_SETTINGS g) OPTION_PROXY_USERNAME (username d)
  && get_is (DEFAULT_SETTINGS g) OPTION_PROXY_PASSWORD (password d) = true →
  get_socks_from_custom_client_advanced_settings (DEFAULT_SETTINGS g) = Some d.
Proof.
  rewrite !andb_true_iff, !get_is_Some. intros [[[_ Hu] Hn] Hp].
  unfold get_socks_from_custom_client_advanced_settings. rewrite Hu, Hn, Hp. by destruct d.
Qed.

(** The proxy in force after [set_socks]: the build's overwrite proxy wins
    over any setting, otherwise the proxy just set, and clearing it falls back
    to the default table; the connection type reported agrees with it. *)
Lemma socks_layering `{Crypto} m g s c :
  get_socks g (set_socks m g s c) =
    match get_socks_from_custom_client_advanced_settings (OVERWRITE_SETTINGS g), s with
    | Some o, _ => Some o
    | None, Some s => Some s
    | None, None => get_socks_from_custom_client_advanced_settings (DEFAULT_SETTINGS g)
    end
  ∧ is_proxy g c = bool_decide (is_Some (get_socks g c)).
Proof.
  split.
  - unfold get_socks.
    destruct (get_socks_from_custom_client_advanced_settings (OVERWRITE_SETTINGS g)) eqn:Eo; [done|].
    unfold set_socks. replace (contains_key (OVERWRITE_SETTINGS g) OPTION_PROXY_URL) with false.
    2:{ symmetry. apply bool_decide_eq_false. intros [u Hu].
        unfold get_socks_from_custom_client_advanced_settings in Eo. by rewrite Hu in Eo. }
    case_bool_decide as E1; [rewrite E1; by destruct s|].
    match goal with |- context [if ?b then _ else _] => destruct b eqn:E end; [|simpl; by destruct s].
    apply andb_true_iff in E as [En%bool_decide_eq_true Ed]. rewrite En in E1 |- *.
    destruct s as [s|]; [|done]. by apply advanced_socks_default in Ed.
  - unfold is_proxy, get_network_type, get_socks, get_socks_from_custom_client_advanced_settings, contains_key.
    destruct (OVERWRITE_SETTINGS g !! OPTION_PROXY_URL); [done|]. simpl.
    destruct (socks (mem c)); [done|]. simpl.
    by destruct (DEFAULT_SETTINGS g !! OPTION_PROXY_URL).
Qed.

(** ** Numeric display settings *)

(** A numeric setting always reads as a number in its range. *)
Lemma get_num_string_range g c key def lo hi :
  (lo <= def <= hi)%Z →
  ∃ n, (lo <= n <= hi)%Z ∧ get_num_string g c key def lo hi = show_Z n.
Proof.
  intros Hd. unfold get_num_string. destruct (get_after g c key) as [o|]; [|by exists def].
  simpl. destruct (_ && _) eqn:E; [|by exists def]. eexists; split; [|done]. lia.
Qed.

Lemma get_string_allowed g c key def others :
  get_string g c key def others = def ∨ get_string g c key def others ∈ others.
Proof.
  unfold get_string. destruct (get_after g c key) as [o|]; [|by left].
  destruct (existsb _ _) eqn:E; [right|by left].
  apply existsb_exists in E as (x & Hx & ->%String.eqb_eq). by apply list_elem_of_In.
Qed.
