(* ===== verification/Ip.v ===== *)
(** * IP addresses

    The textual forms of [std::net] the components use: the parser of
    [Ipv4Addr], [Ipv6Addr], [IpAddr] and [SocketAddr] and the printer of
    [Ipv6Addr].  An IPv4 address is a list of four octets, an IPv6 address a
    list of eight 16-bit groups. *)

From S2P Require Import Prelude Strs.
From Stdlib Require Import Ascii String.

Local Open Scope list_scope.
Local Open Scope Z_scope.
#[local] Abbreviation length := Datatypes.length.
#[local] Arguments String.append _ _ : simpl nomatch.

Definition hex_val (a : ascii) : option Z :=
  let n := Z.of_nat (nat_of_ascii a) in
  if bool_decide (48 <= n <= 57) then Some (n - 48)
  else if bool_decide (97 <= n <= 102) then Some (n - 87)
  else if bool_decide (65 <= n <= 70) then Some (n - 55)
  else None.

(** ** The parser: a position in the string, advanced on success only *)

Definition parser (A : Type) : Type := string → option (A * string).

Definition read_given_char (c : ascii) : parser unit := λ s,
  match s with
  | String a s => if Ascii.eqb a c then Some (tt, s) else None
  | EmptyString => None
  end.

(** The digits from the position on: value, count and rest. *)
Fixpoint scan_digits (digit : ascii → option Z) (radix acc : Z) (n : nat) (s : string) : Z * nat * string :=
  match s with
  | String a s' => match digit a with
                   | Some d => scan_digits digit radix (acc * radix + d) (S n) s'
                   | None => (acc, n, s)
                   end
  | EmptyString => (acc, n, s)
  end.

(** [read_number(radix, Some(max_digits), allow_zero_prefix)] with the bound
    [hi] of the target type. *)
Definition read_number (digit : ascii → option Z) (radix hi : Z) (max_digits : nat)
    (allow_zero_prefix : bool) : parser Z := λ s,
  let zero := match s with String a _ => Ascii.eqb a "0" | EmptyString => false end in
  let '(v, n, r) := scan_digits digit radix 0 0 s in
  if bool_decide (n = 0)%nat || bool_decide (max_digits < n)%nat || (hi <? v)
     || (negb allow_zero_prefix && zero && bool_decide (1 < n)%nat)
  then None else Some (v, r).

(** [read_separator]: the separator, except before the first item. *)
Definition read_separator {A} (sep : ascii) (index : nat) (inner : parser A) : parser A := λ s,
  match index with
  | O => inner s
  | S _ => '(_, s) ← read_given_char sep s; inner s
  end.

Definition read_octet : parser Z := read_number digit_val 10 255 3 false.
Definition read_hextet : parser Z := read_number hex_val 16 65535 4 true.

Definition read_ipv4_addr : parser (list Z) := λ s,
  '(a, s) ← read_octet s;
  '(b, s) ← read_separator "." 1 read_octet s;
  '(c, s) ← read_separator "." 2 read_octet s;
  '(d, s) ← read_separator "." 3 read_octet s;
  Some ([a; b; c; d], s).

Definition v4_groups (ip : list Z) : list Z :=
  match ip with [a; b; c; d] => [a * 256 + b; c * 256 + d] | _ => [] end.

(** [read_groups] with [limit - i] groups still free: the groups read, and
    whether the last two came from an embedded IPv4 address. *)
Fixpoint read_groups (left i : nat) (s : string) : list Z * bool * string :=
  match left with
  | O => ([], false, s)
  | S left' =>
      match (if bool_decide (2 <= left)%nat then read_separator ":" i read_ipv4_addr s else None) with
      | Some (v4, s) => (v4_groups v4, true, s)
      | None =>
          match read_separator ":" i read_hextet s with
          | Some (g, s) => let '(gs, v4, s) := read_groups left' (S i) s in (g :: gs, v4, s)
          | None => ([], false, s)
          end
      end
  end.

Definition read_ipv6_addr : parser (list Z) := λ s,
  let '(head, head_ipv4, s) := read_groups 8 0 s in
  if bool_decide (length head = 8%nat) then Some (head, s)
  else if head_ipv4 then None
  else
    '(_, s) ← read_given_char ":" s;
    '(_, s) ← read_given_char ":" s;
    let '(tail, _, s) := read_groups (8 - (length head + 1)) 0 s in
    Some (head ++ replicate (8 - length head - length tail) 0 ++ tail, s).

Inductive IpAddr := V4 (ip : list Z) | V6 (ip : list Z).

(** [parse_with]: the whole string must be read. *)
Definition parse_all {A} (p : parser A) (s : string) : option A :=
  match p s with Some (a, EmptyString) => Some a | _ => None end.

Definition Ipv4Addr_from_str (s : string) : option (list Z) :=
  if bool_decide (15 < str_len s)%nat then None else parse_all read_ipv4_addr s.
Definition Ipv6Addr_from_str (s : string) : option (list Z) := parse_all read_ipv6_addr s.

Definition read_ip_addr : parser IpAddr := λ s,
  match read_ipv4_addr s with
  | Some (ip, s) => Some (V4 ip, s)
  | None => '(ip, s) ← read_ipv6_addr s; Some (V6 ip, s)
  end.
Definition IpAddr_from_str : string → option IpAddr := parse_all read_ip_addr.

(** A port or a scope id: any number of digits, checked against the type. *)
Definition read_dec (hi : Z) : parser Z := λ s,
  let '(v, n, r) := scan_digits digit_val 10 0 0 s in
  if bool_decide (n = 0)%nat || (hi <? v) then None else Some (v, r).

Definition read_port : parser Z := λ s,
  '(_, s) ← read_given_char ":" s; read_dec 65535 s.
Definition read_scope_id : parser Z := λ s,
  '(_, s) ← read_given_char "%" s; read_dec (2 ^ 32 - 1) s.

Definition read_socket_addr : parser (IpAddr * Z) := λ s,
  match ('(ip, s) ← read_ipv4_addr s; '(port, s) ← read_port s; Some (V4 ip, port, s)) with
  | Some r => Some r
  | None =>
      '(_, s) ← read_given_char "[" s;
      '(ip, s) ← read_ipv6_addr s;
      let s := match read_scope_id s with Some (_, s) => s | None => s end in
      '(_, s) ← read_given_char "]" s;
      '(port, s) ← read_port s;
      Some (V6 ip, port, s)
  end.
Definition SocketAddr_from_str : string → option (IpAddr * Z) := parse_all read_socket_addr.

(** ** Classification *)

Definition is_unspecified (ip : IpAddr) : bool :=
  match ip with V4 o | V6 o => forallb (Z.eqb 0) o end.
Definition is_loopback (ip : IpAddr) : bool :=
  match ip with
  | V4 o => match o with a :: _ => a =? 127 | [] => false end
  | V6 o => bool_decide (o = [0; 0; 0; 0; 0; 0; 0; 1])
  end.

(** ** The printer of [Ipv6Addr] *)

Definition hex_digit (d : Z) : ascii :=
  if d <? 10 then ascii_of_nat (Z.to_nat (48 + d)) else ascii_of_nat (Z.to_nat (87 + d)).

(** [{:x}] of a 16-bit group. *)
Fixpoint show_hex_digits (fuel : nat) (n : Z) (acc : string) : string :=
  match fuel with
  | O => acc
  | S fuel =>
      let acc := String (hex_digit (n mod 16)) acc in
      if n <? 16 then acc else show_hex_digits fuel (n / 16) acc
  end.
Definition show_hex (n : Z) : string := show_hex_digits 4 n EmptyString.

Fixpoint join_with (sep : string) (l : list string) : string :=
  match l with
  | [] => ""%string
  | [x] => x
  | x :: l => (x ++ sep ++ join_with sep l)%string
  end.

(** The first longest run of zero groups: start and length. *)
Fixpoint longest_zeros (i : nat) (cur best : nat * nat) (l : list Z) : nat * nat :=
  match l with
  | [] => best
  | g :: l =>
      if g =? 0 then
        let cur := if bool_decide (cur.2 = 0)%nat then (i, 1%nat) else (cur.1, S cur.2) in
        longest_zeros (S i) cur (if bool_decide (best.2 < cur.2)%nat then cur else best) l
      else longest_zeros (S i) (0, 0)%nat best l
  end.

Definition show_v4 (ip : list Z) : string := join_with "." (map show_Z ip).

Definition show_v6 (ip : list Z) : string :=
  match ip with
  | [0; 0; 0; 0; 0; 65535; a; b] =>
      ("::ffff:" ++ show_v4 [Z.shiftr a 8; Z.land a 255; Z.shiftr b 8; Z.land b 255])%string
  | _ =>
      let '(start, len) := longest_zeros 0 (0, 0)%nat (0, 0)%nat ip in
      if bool_decide (1 < len)%nat then
        (join_with ":" (map show_hex (take start ip)) ++ "::"
         ++ join_with ":" (map show_hex (drop (start + len) ip)))%string
      else join_with ":" (map show_hex ip)
  end.

(** ** Addresses as 128-bit integers *)

Definition to_u128 (ip : list Z) : Z := foldl (λ a g, a * 65536 + g) 0 ip.
Fixpoint groups_of (n : nat) (v : Z) : list Z :=
  match n with
  | O => []
  | S n => groups_of n (v / 65536) ++ [v mod 65536]
  end.
Definition from_u128 (v : Z) : list Z := groups_of 8 v.

Definition v6_ok (ip : list Z) : Prop := length ip = 8%nat ∧ Forall (λ g, 0 <= g < 65536) ip.

Lemma foldl_u128_snoc ip g : to_u128 (ip ++ [g]) = to_u128 ip * 65536 + g.
Proof. unfold to_u128. by rewrite foldl_app. Qed.

Lemma groups_of_to_u128 ip : Forall (λ g, 0 <= g < 65536) ip → groups_of (length ip) (to_u128 ip) = ip.
Proof.
  induction ip as [|g ip IH] using rev_ind; intros H; [done|].
  apply Forall_app in H as [H Hg]. apply Forall_inv in Hg.
  rewrite foldl_u128_snoc, length_app, Nat.add_comm. cbn [Nat.add length groups_of].
  rewrite (Z.add_comm (_ * 65536)), Z.mod_add, Z.div_add by lia.
  rewrite (Z.mod_small g), (Z.div_small g), Z.add_0_l by exact Hg. by rewrite IH.
Qed.

Lemma to_u128_bound ip :
  Forall (λ g, 0 <= g < 65536) ip → 0 <= to_u128 ip < 65536 ^ Z.of_nat (length ip).
Proof.
  induction ip as [|g ip IH] using rev_ind; intros H; [cbn; lia|].
  apply Forall_app in H as [H Hg]. apply Forall_inv in Hg. specialize (IH H).
  rewrite foldl_u128_snoc, length_app. cbn [length].
  replace (Z.of_nat (length ip + 1)) with (Z.succ (Z.of_nat (length ip))) by lia.
  rewrite Z.pow_succ_r by lia. lia.
Qed.

(** Parsed and printed addresses agree. *)
Lemma ip_examples :
  map Ipv6Addr_from_str ["::"; "::1"; "fe80::1:2"; "2001:db8::192.168.1.2"; "1:2:3:4:5:6:7:8";
                         "1:2:3:4:5:6:7::"; "12345::"; ":1"; "10.0.0.1"]%string
  = [Some [0;0;0;0;0;0;0;0]; Some [0;0;0;0;0;0;0;1]; Some [0xfe80;0;0;0;0;0;1;2];
     Some [0x2001;0xdb8;0;0;0;0;0xc0a8;0x102]; Some [1;2;3;4;5;6;7;8]; Some [1;2;3;4;5;6;7;0];
     None; None; None]
  ∧ map Ipv4Addr_from_str ["127.0.0.1"; "256.1.1.1"; "01.1.1.1"; "1.2.3"]%string
    = [Some [127;0;0;1]; None; None; None]
  ∧ map show_v6 [[0;0;0;0;0;0;0;0]; [0x2001;0xdb8;0;0;1;0;0;0]; [0;0;0;0;0;65535;0xc0a8;1]; [1;0;3;4;5;6;7;8]]
    = ["::"; "2001:db8:0:0:1::"; "::ffff:192.168.0.1"; "1:0:3:4:5:6:7:8"]%string
  ∧ SocketAddr_from_str "[fe80::1%3]:80" = Some (V6 [0xfe80;0;0;0;0;0;0;1], 80)
  ∧ SocketAddr_from_str "127.0.0.1:23456" = Some (V4 [127;0;0;1], 23456).
Proof. vm_compute. split_and!; reflexivity. Qed.
