(* ===== verification/Servers.v ===== *)
(** * Choice of the rendezvous server

    [libs/hbb_common/src/config.rs]: which server the host registers with
    ([get_rendezvous_server], [get_rendezvous_servers]), the filter for
    loopback and test addresses, and the choice by latency.  The built-in list
    holds one server. *)

From S2P Require Import Prelude Strs Secret Options Ip.
From Stdlib Require Import Ascii String.

Local Open Scope list_scope.
#[local] Abbreviation length := Datatypes.length.
#[local] Arguments String.append _ _ : simpl nomatch.

Definition RENDEZVOUS_PORT : Z := 21116.
Definition RENDEZVOUS_SERVERS : list string := ["rev.dicad.cn"%string].

(** [s.split_once(c)] and [s.rsplit_once(c)]. *)
Fixpoint split_once (c : ascii) (s : string) : option (string * string) :=
  match s with
  | EmptyString => None
  | String a s => if Ascii.eqb a c then Some (EmptyString, s)
                  else '(l, r) ← split_once c s; Some (String a l, r)
  end.

Fixpoint rsplit_once (c : ascii) (s : string) : option (string * string) :=
  match s with
  | EmptyString => None
  | String a s => match rsplit_once c s with
                  | Some (l, r) => Some (String a l, r)
                  | None => if Ascii.eqb a c then Some (EmptyString, s) else None
                  end
  end.

Definition or_else {A} (o p : option A) : option A :=
  match o with Some _ => o | None => p end.

(** The host part of an endpoint: bracketed, before a port, or all of it. *)
Definition endpoint_host (endpoint : string) : string :=
  to_lower (default endpoint
    (or_else (v ← strip_prefix "[" endpoint; '(host, _) ← split_once "]" v; Some host)
             ('(host, port) ← rsplit_once ":" endpoint;
              if negb (contains_char ":" host) && bool_decide (is_Some (parse_u16 port))
              then Some host else None))).

Definition is_test_net (oct : list Z) : bool :=
  match oct with
  | a :: b :: c :: _ =>
      ((a =? 169) && (b =? 254)) || ((a =? 192) && (b =? 0) && (c =? 2))
      || ((a =? 198) && (b =? 51) && (c =? 100)) || ((a =? 203) && (b =? 0) && (c =? 113))
  | _ => false
  end%Z.

Definition is_loopback_or_test_server (s : string) : bool :=
  let endpoint := trim s in
  if is_empty endpoint then false
  else
    let parsed_ip := or_else (IpAddr_from_str endpoint) (fst <$> SocketAddr_from_str endpoint) in
    let host := endpoint_host endpoint in
    if String.eqb host "localhost" || String.eqb host "0.0.0.0" then true
    else
      match or_else parsed_ip (IpAddr_from_str host) with
      | None => false
      | Some ip =>
          if is_loopback ip || is_unspecified ip then true
          else match ip with V4 oct => is_test_net oct | V6 _ => false end
      end.

Section Choice.
  Variable g : Globals.

(** The first of the configured servers that is set and not filtered. *)
Fixpoint first_sane (l : list string) : option string :=
  match l with
  | [] => None
  | s :: l => if is_empty s || is_loopback_or_test_server s then first_sane l else Some s
  end.

Definition get_rendezvous_servers (c : CONFIG2) : list string :=
  match first_sane [EXE_RENDEZVOUS_SERVER g; get_option g c "custom-rendezvous-server";
                    PROD_RENDEZVOUS_SERVER g] with
  | Some s => [s]
  | None =>
      let ss := if (SERIAL <? serial (mem c))%Z then
                  List.filter (λ x, contains_char "." x && negb (is_loopback_or_test_server x))
                    (map trim (split_on "," (get_option g c "rendezvous-servers")))
                else [] in
      match ss with [] => RENDEZVOUS_SERVERS | _ => ss end
  end.

(** [if s.is_empty() { alt }] and [if is_loopback_or_test_server(s) { "" }]. *)
Definition if_empty (s alt : string) : string := if is_empty s then alt else s.
Definition sanitize (s : string) : string :=
  if is_loopback_or_test_server s then EmptyString else s.

Definition with_port (s : string) : string :=
  if contains_char ":" s then s else (s ++ ":" ++ show_Z RENDEZVOUS_PORT)%string.

Definition get_rendezvous_server (c : CONFIG2) : string :=
  let s := if_empty (EXE_RENDEZVOUS_SERVER g) (get_option g c "custom-rendezvous-server") in
  let s := sanitize s in
  let s := if_empty s (PROD_RENDEZVOUS_SERVER g) in
  let s := if_empty s (rendezvous_server (mem c)) in
  let s := sanitize s in
  let s := if_empty s (unwrap_or_default (head (get_rendezvous_servers c))) in
  with_port s.

End Choice.

(** *** Choice by latency

    [iter] is the iteration order of the [ONLINE] table. *)

Definition I64_MAX : Z := (2 ^ 63 - 1)%Z.

Definition faster (best cand : string * Z) : string * Z :=
  if (0 <? cand.2)%Z && (cand.2 <? best.2)%Z then cand else best.

Definition best_host (iter : list (string * Z)) : string * Z :=
  foldl faster (EmptyString, I64_MAX) iter.

Definition update_latency `{Crypto} (m : Machine) (iter : gmap string Z → list (string * Z)) (host : string) (latency : Z)
    (online : gmap string Z) (c : CONFIG2) : gmap string Z * CONFIG2 :=
  let online := <[host := latency]> online in
  let host := (best_host (iter online)).1 in
  (online,
   if is_empty host then c
   else if String.eqb host (rendezvous_server (mem c)) then c
   else c2_store m (set_c2_server host (mem c))).

Definition reset_online : gmap string Z := ∅.

(** ** The chosen server is usable *)

Lemma sanitize_ok s : is_loopback_or_test_server (sanitize s) = false.
Proof. unfold sanitize. by destruct (is_loopback_or_test_server s) eqn:E. Qed.

Lemma first_sane_ok l s :
  first_sane l = Some s → s ≠ EmptyString ∧ is_loopback_or_test_server s = false ∧ s ∈ l.
Proof.
  induction l as [|x l IH]; simpl; [done|].
  destruct (is_empty x || is_loopback_or_test_server x) eqn:E.
  - intros (H1 & H2 & H3)%IH. by repeat split; try right.
  - intros [= ->]. apply orb_false_iff in E as [E1 E2]. repeat split; [|done|left].
    by intros ->.
Qed.

Definition sane (s : string) : Prop := s ≠ EmptyString ∧ is_loopback_or_test_server s = false.

Lemma servers_sane g c : Forall sane (get_rendezvous_servers g c).
Proof.
  unfold get_rendezvous_servers. destruct (first_sane _) as [s|] eqn:E.
  - apply first_sane_ok in E as (H1 & H2 & _). by repeat constructor.
  - match goal with |- Forall _ (match ?ss with _ => _ end) =>
      assert (Forall sane ss) as H; [|destruct ss as [|s0 ss'] eqn:Es; [|done]] end.
    + destruct (SERIAL <? _)%Z; [|constructor].
      apply Forall_forall. intros x [Hx Hp]%list_elem_of_In%filter_In.
      apply andb_true_iff in Hp as [Hd Hl%negb_true_iff]. split; [|done]. by intros ->.
    + constructor; [|constructor]. split; [done|]. by vm_compute.
Qed.

Lemma servers_nonempty g c : get_rendezvous_servers g c ≠ [].
Proof.
  unfold get_rendezvous_servers. destruct (first_sane _); [done|].
  by match goal with |- context [match ?ss with [] => _ | _ => _ end] => destruct ss end.
Qed.

Lemma contains_with_port s : contains_char ":" (with_port s) = true.
Proof.
  unfold with_port. destruct (contains_char ":" s) eqn:E; [done|].
  rewrite !contains_char_app, E. reflexivity.
Qed.

(** The rendezvous server the host connects to always carries a port and
    is one of the configured or built-in servers with the default port added
    when it has none; it is never a loopback, unspecified, link-local or
    documentation address, whatever old configuration files hold, and so are
    all the servers of the fallback list, which is never empty. *)
Lemma rendezvous_server_sane g c :
  (∃ s, get_rendezvous_server g c = with_port s ∧ sane s)
  ∧ contains_char ":" (get_rendezvous_server g c) = true
  ∧ get_rendezvous_servers g c ≠ [] ∧ Forall sane (get_rendezvous_servers g c).
Proof.
  split_and!; [|apply contains_with_port|apply servers_nonempty|apply servers_sane].
  unfold get_rendezvous_server. eexists. split; [reflexivity|]. unfold if_empty at 1.
  match goal with |- context [sanitize ?s] => pose proof (sanitize_ok s) as Hs; destruct (sanitize s) end.
  - simpl. pose proof (servers_sane g c) as H. pose proof (servers_nonempty g c).
    destruct (get_rendezvous_servers g c); [done|]. by apply Forall_inv in H.
  - by split.
Qed.

(** ** The host with the smallest latency *)

Lemma best_host_spec iter b0 :
  let b := foldl faster b0 iter in
  (b.2 <= b0.2)%Z ∧ (b = b0 ∨ b ∈ iter ∧ (0 < b.2)%Z)
  ∧ ∀ c, c ∈ iter → (0 < c.2)%Z → (b.2 <= c.2)%Z.
Proof.
  revert b0. induction iter as [|x iter IH]; intros b0; cbn [foldl].
  - split_and!; [lia|by left|]. intros c Hin. by apply elem_of_nil in Hin.
  - destruct (IH (faster b0 x)) as (Hle & Hor & Hmin). unfold faster in Hle, Hor, Hmin |- *.
    destruct ((0 <? x.2)%Z && (x.2 <? b0.2)%Z) eqn:E; split_and!; try lia.
    + right. destruct Hor as [->|[Hin Hp]]; split; [left|lia|by right|done].
    + intros c [->|Hin]%elem_of_cons Hp; [lia|by apply Hmin].
    + destruct Hor as [|[Hin Hp]]; [by left|right]. split; [by right|done].
    + intros c [->|Hin]%elem_of_cons Hp; [lia|by apply Hmin].
Qed.

(** After a latency report the configured server is, in memory and in the
    file, the host with the smallest positive latency reported so far; hosts
    that failed (a latency that is not positive) are never chosen. *)
Lemma update_latency_best `{C : Crypto} m iter host latency online c :
  (∀ t, iter t ≡ₚ map_to_list t) →
  online !! EmptyString = None → host ≠ EmptyString →
  (∃ h d, <[host := latency]> online !! h = Some d ∧ 0 < d < I64_MAX)%Z →
  let '(online', c') := update_latency m iter host latency online c in
  (c' = c ∨ disk c' = c2_to_file m (mem c')) ∧
  ∃ d, online' !! rendezvous_server (mem c') = Some d ∧ (0 < d)%Z
       ∧ ∀ h' d', online' !! h' = Some d' → (0 < d')%Z → (d <= d')%Z.
Proof.
  intros Hiter Hempty Hne (h & d & Hd & Hpos). unfold update_latency.
  set (on := <[host := latency]> online) in *. split; [repeat case_match; auto|].
  pose proof (best_host_spec (iter on) (EmptyString, I64_MAX)) as H. unfold best_host.
  destruct (foldl _ _ _) as [bh bd]. destruct H as (Hle & Hor & Hmin). cbn [fst snd] in *.
  assert (∀ h d, on !! h = Some d ↔ (h, d) ∈ iter on) as Hin.
  { intros. by rewrite Hiter, elem_of_map_to_list. }
  destruct Hor as [[= -> ->]|[Hb Hbp]].
  { apply Hin in Hd. specialize (Hmin _ Hd). cbn [snd] in Hmin. lia. }
  apply Hin in Hb. destruct (is_empty bh) eqn:Ee.
  { apply is_empty_nil in Ee as ->. subst on. rewrite lookup_insert_ne in Hb by done. congruence. }
  exists bd. split_and!; [|done|intros h' d' H'%Hin; by apply (Hmin (h', d'))].
  destruct (String.eqb bh _) eqn:E; [apply String.eqb_eq in E; by rewrite <- E|done].
Qed.

Import Toy.

Lemma update_latency_best_witness :
  let on : gmap string Z := {["a:1"%string := (-1)%Z; "b:2"%string := 90%Z]} in
  let c := (update_latency machine map_to_list "c:3" 40 on (c2_store machine Config2_default)).2 in
  rendezvous_server (mem c) = "c:3"%string
  ∧ ∃ d, <["c:3"%string := 40%Z]> on !! rendezvous_server (mem c) = Some d ∧ (0 < d)%Z.
Proof.
  intros on c. split; [vm_compute; reflexivity|].
  pose proof (update_latency_best machine map_to_list "c:3" 40 on (c2_store machine Config2_default)
                (λ m, reflexivity _) eq_refl) as H.
  unfold update_latency in H.
  destruct H as (_ & d & Hd & Hp & _); [discriminate| |].
  - exists "c:3"%string, 40%Z. split; [reflexivity|]. unfold I64_MAX. lia.
  - exists d. split; [exact Hd|exact Hp].
Defined.
