(* ===== verification/Password.v ===== *)
(** * Passwords, identity and trusted devices

    [libs/hbb_common/src/config.rs]: the [Config] file with the host's id and
    its permanent password (hashed storage, migration of older forms, salt),
    and the trusted devices of [Config2];
    [libs/hbb_common/src/password_security.rs]: the one-time password and the
    approval policy.  [Host] is the state these keep, in memory and on disk.
    Random numbers are arguments; the JSON of the device list comes from a
    crate and is the class [Json]. *)

From S2P Require Import Prelude Strs Options Secret.
From Stdlib Require Import Ascii String.

Local Open Scope string_scope.
#[local] Arguments String.append _ _ : simpl nomatch.

Definition PERMANENT_PASSWORD_HASH_PREFIX : string := "01".
Definition PERMANENT_PASSWORD_H1_LEN : nat := 32.
Definition DEFAULT_SALT_LEN : nat := 6.

Definition NUM_CHARS : string := "0123456789".
Definition CHARS : string := "23456789abcdefghijkmnpqrstuvwxyz".

Record Config := {
  id : string; enc_id : string; cfg_password : string; salt : string;
  key_pair : string * string; key_confirmed : bool; keys_confirmed : gmap string bool
}.

Definition Config_default : Config :=
  {| id := ""; enc_id := ""; cfg_password := ""; salt := ""; key_pair := ("", "");
     key_confirmed := false; keys_confirmed := ∅ |}.

Definition set_cfg_id (x : string) (c : Config) : Config :=
  {| id := x; enc_id := enc_id c; cfg_password := cfg_password c; salt := salt c;
     key_pair := key_pair c; key_confirmed := key_confirmed c; keys_confirmed := keys_confirmed c |}.
Definition set_cfg_enc_id (x : string) (c : Config) : Config :=
  {| id := id c; enc_id := x; cfg_password := cfg_password c; salt := salt c;
     key_pair := key_pair c; key_confirmed := key_confirmed c; keys_confirmed := keys_confirmed c |}.
Definition set_cfg_password (x : string) (c : Config) : Config :=
  {| id := id c; enc_id := enc_id c; cfg_password := x; salt := salt c;
     key_pair := key_pair c; key_confirmed := key_confirmed c; keys_confirmed := keys_confirmed c |}.
Definition set_cfg_salt (x : string) (c : Config) : Config :=
  {| id := id c; enc_id := enc_id c; cfg_password := cfg_password c; salt := x;
     key_pair := key_pair c; key_confirmed := key_confirmed c; keys_confirmed := keys_confirmed c |}.

Record TrustedDevice := {
  hwid : string; time : Z; dev_id : string; dev_name : string; platform : string
}.

#[global] Instance TrustedDevice_eq_dec : EqDecision TrustedDevice.
Proof. solve_decision. Defined.

Class Json := {
  to_json : list TrustedDevice → string;
  from_json : string → option (list TrustedDevice)
}.
(** Deserialising inverts serialising; a list is written in brackets, as text. *)
Class JsonLaws (J : Json) : Prop := {
  from_to_json l : from_json (to_json l) = Some l;
  to_json_bracket l : starts_with "[" (to_json l) = true;
  to_json_utf8 l : utf8_valid (to_json l) = true;
  to_json_nil : to_json [] = "[]"
}.

(** The configuration files and the statics derived from them. *)
Record Host := {
  CONFIG : Stored Config;
  CFG2 : CONFIG2;
  TRUSTED_DEVICES : list TrustedDevice * bool;
  TEMPORARY_PASSWORD : string;
  cache_file : option string          (* the one-time password's own file *)
}.

Definition set_CONFIG (x : Stored Config) (h : Host) : Host :=
  {| CONFIG := x; CFG2 := CFG2 h; TRUSTED_DEVICES := TRUSTED_DEVICES h;
     TEMPORARY_PASSWORD := TEMPORARY_PASSWORD h; cache_file := cache_file h |}.
Definition set_CFG2 (x : CONFIG2) (h : Host) : Host :=
  {| CONFIG := CONFIG h; CFG2 := x; TRUSTED_DEVICES := TRUSTED_DEVICES h;
     TEMPORARY_PASSWORD := TEMPORARY_PASSWORD h; cache_file := cache_file h |}.
Definition set_TRUSTED (x : list TrustedDevice * bool) (h : Host) : Host :=
  {| CONFIG := CONFIG h; CFG2 := CFG2 h; TRUSTED_DEVICES := x;
     TEMPORARY_PASSWORD := TEMPORARY_PASSWORD h; cache_file := cache_file h |}.
Definition set_TEMPORARY (x : string) (h : Host) : Host :=
  {| CONFIG := CONFIG h; CFG2 := CFG2 h; TRUSTED_DEVICES := TRUSTED_DEVICES h;
     TEMPORARY_PASSWORD := x; cache_file := cache_file h |}.
Definition set_cache_file (x : option string) (h : Host) : Host :=
  {| CONFIG := CONFIG h; CFG2 := CFG2 h; TRUSTED_DEVICES := TRUSTED_DEVICES h;
     TEMPORARY_PASSWORD := TEMPORARY_PASSWORD h; cache_file := x |}.

(** [chars[rng.gen::<usize>() % chars.len()]], [length] times. *)
Fixpoint get_auto_password_with_chars (rng : nat → Z) (length : nat) (chars : string) : string :=
  match length with
  | O => ""
  | S n =>
      String (default "000"%char (String.get (Z.to_nat (rng n mod Z.of_nat (str_len chars))) chars))
             (get_auto_password_with_chars rng n chars)
  end.
Definition get_auto_password (rng : nat → Z) (length : nat) : string :=
  get_auto_password_with_chars rng length CHARS.
Definition get_auto_numeric_password (rng : nat → Z) (length : nat) : string :=
  get_auto_password_with_chars rng length NUM_CHARS.

(** ** The hashed form of the permanent password *)

Section Storage.
  Context `{C : Crypto}.

Definition compute_permanent_password_h1 (password salt : string) : string :=
  str_take PERMANENT_PASSWORD_H1_LEN (sha256 (password ++ salt)).

Definition constant_time_eq_32 (a b : string) : bool := String.eqb a b.

Definition encode_permanent_password_storage_from_h1 (h1 : string) : string :=
  PERMANENT_PASSWORD_HASH_PREFIX ++ b64_encode h1.

Definition decode_permanent_password_h1_from_storage (storage : string) : option string :=
  encoded ← strip_prefix PERMANENT_PASSWORD_HASH_PREFIX storage;
  v ← b64_decode encoded;
  if bool_decide (str_len v = PERMANENT_PASSWORD_H1_LEN)
  then Some (str_take PERMANENT_PASSWORD_H1_LEN v) else None.

Definition is_permanent_password_hashed_storage (v : string) : bool :=
  bool_decide (is_Some (decode_permanent_password_h1_from_storage v)).

Definition password_is_empty_or_not_hashed (v : string) : bool :=
  is_empty v || negb (is_permanent_password_hashed_storage v).

(** *** Loading and storing [Config] *)

Variable m : Machine.

(** [if config.salt.is_empty() { config.salt = get_auto_password(6) }]. *)
Definition ensure_salt (rng : nat → Z) (c : Config) : Config :=
  if is_empty (salt c) then set_cfg_salt (get_auto_password rng DEFAULT_SALT_LEN) c else c.

Definition hash_into (plain : string) (c : Config) : Config :=
  set_cfg_password (encode_permanent_password_storage_from_h1
                      (compute_permanent_password_h1 plain (salt c))) c.

Definition migrate_permanent_password_to_hashed_storage (rng : nat → Z) (c : Config) : Config * bool :=
  if is_empty (cfg_password c) || is_permanent_password_hashed_storage (cfg_password c)
  then (c, false)
  else if starts_with PASSWORD_ENC_VERSION (cfg_password c) then
    let '(plain, decrypted, looks_like_plaintext) :=
      decrypt_str_or_original m (cfg_password c) PASSWORD_ENC_VERSION in
    if negb decrypted && negb looks_like_plaintext then (c, false)
    else
      let c := ensure_salt rng c in
      if is_permanent_password_hashed_storage plain then (set_cfg_password plain c, true)
      else (hash_into plain c, true)
  else
    let c := ensure_salt rng c in
    (hash_into (cfg_password c) c, true).

(** [Config::store(&self)]: what the file holds afterwards. *)
Definition to_file (rng : nat → Z) (c : Config) : Config :=
  let c := (migrate_permanent_password_to_hashed_storage rng c).1 in
  set_cfg_id "" (set_cfg_enc_id (encrypt_str_or_original m (id c) PASSWORD_ENC_VERSION ENCRYPT_MAX_LEN) c).

Definition cfg_store (rng : nat → Z) (c : Config) : Stored Config := mk_stored c (to_file rng c).

(** [h.replace(" ", "-")]. *)
Fixpoint replace_spaces (s : string) : string :=
  match s with
  | "" => ""
  | String a s => String (if Ascii.eqb a " " then "-"%char else a) (replace_spaces s)
  end.

(** [rand::thread_rng().gen_range(100_000..1_000_000)], the draw given. *)
Definition get_auto_id (draw : Z) : option string := Some (show_Z draw).

(** [hostname] is what the operating system answers. *)
Definition gen_id (g : Globals) (hostname : option string) (draw : Z) : option string :=
  let hostname_as_id :=
    match BUILTIN_SETTINGS g !! "allow-hostname-as-id" with
    | Some v => option2bool "allow-hostname-as-id" v
    | None => false
    end in
  if hostname_as_id then
    match hostname with
    | Some h => Some (replace_spaces h)
    | None => get_auto_id draw
    end
  else get_auto_id draw.

(** [Config::load] of the given file content. *)
Definition cfg_load (g : Globals) (rng : nat → Z) (hostname : option string) (draw : Z)
    (file : Config) : Stored Config :=
  let '(c, st) := migrate_permanent_password_to_hashed_storage rng file in
  let '(i, encrypted, store2) := decrypt_str_or_original m (enc_id c) PASSWORD_ENC_VERSION in
  let '(c, id_valid, st) :=
    if encrypted then (set_cfg_id i c, true, st || store2)
    else if negb (is_empty (id c)) && is_empty (enc_id c)
            && negb (decrypt_str_or_original m (id c) PASSWORD_ENC_VERSION).1.2
    then (c, true, true)
    else (c, false, st) in
  let '(c, st) :=
    if id_valid then (c, st)
    else match gen_id g hostname draw with Some i => (set_cfg_id i c, true) | None => (c, st) end in
  if st then cfg_store rng c else mk_stored c file.

Definition set_id (rng : nat → Z) (i : string) (c : Stored Config) : Stored Config :=
  if String.eqb i (id (mem c)) then c else cfg_store rng (set_cfg_id i (mem c)).

Definition get_id (g : Globals) (rng : nat → Z) (hostname : option string) (draw : Z)
    (c : Stored Config) : string * Stored Config :=
  let i := id (mem c) in
  if is_empty i || (6 <? str_len i)%nat then
    match gen_id g hostname draw with
    | Some tmp => (tmp, set_id rng tmp c)
    | None => (i, c)
    end
  else (i, c).

Definition get_id_or (b : string) (c : Stored Config) : string :=
  if is_empty (id (mem c)) then b else id (mem c).

Definition update_id (g : Globals) (rng : nat → Z) (hostname : option string) (draw new_id : Z)
    (c : Stored Config) : Stored Config :=
  set_id rng (show_Z new_id) (get_id g rng hostname draw c).2.

Definition set_salt (rng : nat → Z) (s : string) (c : Stored Config) : Stored Config :=
  if String.eqb s (salt (mem c)) then c
  else if negb (password_is_empty_or_not_hashed (cfg_password (mem c)))
          && negb (is_empty (salt (mem c))) then c
  else cfg_store rng (set_cfg_salt s (mem c)).

Definition get_salt (rng : nat → Z) (c : Stored Config) : string * Stored Config :=
  let s := salt (mem c) in
  if is_empty s then
    let s := get_auto_password rng DEFAULT_SALT_LEN in (s, set_salt rng s c)
  else (s, c).

(** *** Trusted devices *)

Context `{J : Json}.

Definition DAYS_90 : Z := (90 * 24 * 60 * 60 * 1000)%Z.
Definition outdate (now : Z) (d : TrustedDevice) : bool := (swrap 64 (time d + DAYS_90) <? now)%Z.

Definition keep_fresh (now : Z) (l : list TrustedDevice) : list TrustedDevice :=
  List.filter (λ d, negb (outdate now d)) l.

Definition set_trusted_devices (now : Z) (l : list TrustedDevice) (h : Host) : Host :=
  let l := keep_fresh now l in
  let devices := to_json l in
  let max_len := (1024 * 1024)%Z in
  if (max_len <? Z.of_nat (str_len devices))%Z then h
  else
    let devices := encrypt_str_or_original m devices PASSWORD_ENC_VERSION (Z.to_nat max_len) in
    set_TRUSTED (l, true) (set_CFG2 (c2_store m (set_c2_trusted devices (mem (CFG2 h)))) h).

Definition get_trusted_devices (now : Z) (h : Host) : list TrustedDevice * Host :=
  let '(devices, synced) := TRUSTED_DEVICES h in
  if synced then (devices, h)
  else
    let '(text, succ, st) :=
      decrypt_str_or_original m (trusted_devices (mem (CFG2 h))) PASSWORD_ENC_VERSION in
    if succ then
      let all := default [] (from_json text) in
      let devices := keep_fresh now all in
      let h := if st || negb (Nat.eqb (List.length devices) (List.length all))
               then set_trusted_devices now devices h else h in
      (devices, set_TRUSTED (devices, true) h)
    else ([], h).

Definition add_trusted_device (now : Z) (d : TrustedDevice) (h : Host) : Host :=
  let '(devices, h) := get_trusted_devices now h in
  set_trusted_devices now
    (List.filter (λ x, negb (String.eqb (hwid x) (hwid d))) devices ++ [d])%list h.

Definition remove_trusted_devices (now : Z) (hwids : list string) (h : Host) : Host :=
  let '(devices, h) := get_trusted_devices now h in
  set_trusted_devices now (List.filter (λ x, negb (existsb (String.eqb (hwid x)) hwids)) devices) h.

Definition clear_trusted_devices (now : Z) (h : Host) : Host := set_trusted_devices now [] h.

(** *** The permanent password *)

Variable g : Globals.

Definition compute_permanent_password_storage_for_update (rng : nat → Z) (c : Config)
    (password : string) : Config * string :=
  let c := ensure_salt rng c in
  (c, encode_permanent_password_storage_from_h1 (compute_permanent_password_h1 password (salt c))).

Definition set_permanent_password (rng : nat → Z) (now : Z) (password : string) (h : Host) : Host :=
  if is_disable_change_permanent_password g then h
  else if get_is (HARD_SETTINGS g) "password" password && is_empty (cfg_password (mem (CONFIG h))) then h
  else
    let '(c, stored) :=
      if is_empty password then (mem (CONFIG h), "")
      else compute_permanent_password_storage_for_update rng (mem (CONFIG h)) password in
    if String.eqb stored (cfg_password c) then set_CONFIG (mk_stored c (disk (CONFIG h))) h
    else clear_trusted_devices now (set_CONFIG (cfg_store rng (set_cfg_password stored c)) h).

Definition get_local_permanent_password_storage_and_salt (h : Host) : string * string :=
  (cfg_password (mem (CONFIG h)), salt (mem (CONFIG h))).

Definition set_permanent_password_storage_for_sync (rng : nat → Z) (now : Z)
    (storage s : string) (h : Host) : bool * Host :=
  let c := mem (CONFIG h) in
  if String.eqb (cfg_password c) storage && String.eqb (salt c) s then (false, h)
  else (true, clear_trusted_devices now
                (set_CONFIG (cfg_store rng (set_cfg_salt s (set_cfg_password storage c))) h)).

Definition matches_permanent_password_plain (c : Stored Config) (input : string) : bool :=
  if is_empty input then false
  else if is_empty (cfg_password (mem c)) then get_is (HARD_SETTINGS g) "password" input
  else match decode_permanent_password_h1_from_storage (cfg_password (mem c)) with
       | Some stored_h1 =>
           if is_empty (salt (mem c)) then false
           else constant_time_eq_32 (compute_permanent_password_h1 input (salt (mem c))) stored_h1
       | None => String.eqb (cfg_password (mem c)) input
       end.

Definition has_permanent_password (c : Stored Config) : bool :=
  negb (is_empty (cfg_password (mem c)))
  || match HARD_SETTINGS g !! "password" with Some v => negb (is_empty v) | None => false end.
Definition has_local_permanent_password (c : Stored Config) : bool :=
  negb (is_empty (cfg_password (mem c))).

(** *** The one-time password and the approval policy *)

Inductive VerificationMethod := OnlyUseTemporaryPassword | OnlyUsePermanentPassword | UseBothPasswords.
Inductive ApproveMode := Both | Password | Click.

Definition verification_method (c : CONFIG2) : VerificationMethod :=
  let method := get_option g c "verification-method" in
  if String.eqb method "use-temporary-password" then OnlyUseTemporaryPassword
  else if String.eqb method "use-permanent-password" then OnlyUsePermanentPassword
  else UseBothPasswords.

Definition temporary_password_length (c : CONFIG2) : nat :=
  let length := get_option g c "temporary-password-length" in
  if String.eqb length "4" then 4 else if String.eqb length "8" then 8
  else if String.eqb length "10" then 10 else 6.

Definition temporary_enabled (c : CONFIG2) : bool :=
  match verification_method c with OnlyUsePermanentPassword => false | _ => true end.
Definition permanent_enabled (c : CONFIG2) : bool :=
  match verification_method c with OnlyUseTemporaryPassword => false | _ => true end.

Definition has_valid_password (h : Host) : bool :=
  (temporary_enabled (CFG2 h) && negb (is_empty (TEMPORARY_PASSWORD h)))
  || (permanent_enabled (CFG2 h) && has_permanent_password (CONFIG h)).

Definition approve_mode (c : CONFIG2) : ApproveMode :=
  let mode := get_option g c "approve-mode" in
  if String.eqb mode "password" then Password else if String.eqb mode "click" then Click else Both.

Definition hide_cm (c : CONFIG2) : bool :=
  match approve_mode c, verification_method c with
  | Password, OnlyUsePermanentPassword => option2bool "allow-hide-cm" (get_option g c "allow-hide-cm")
  | _, _ => false
  end.

Definition new_auto_password (rng : nat → Z) (c : CONFIG2) : string :=
  let len := temporary_password_length c in
  if get_bool_option g c "allow-numeric-one-time-password" then get_auto_numeric_password rng len
  else get_auto_password rng len.

Definition TEMPORARY_CACHE_OPTION : string := "temporary-password-cache".

Definition load_password_from_cache (h : Host) : option string :=
  let saved := get_option g (CFG2 h) TEMPORARY_CACHE_OPTION in
  let from_option := if negb (is_empty saved) && (4 <=? str_len saved)%nat then Some saved else None in
  match cache_file h with
  | Some content => if (4 <=? str_len (trim content))%nat then Some (trim content) else from_option
  | None => from_option
  end.

(** [writable]: the cache file has a path and [fs::write] succeeds. *)
Definition save_password_to_cache (writable : bool) (pwd : string) (h : Host) : Host :=
  let h := if writable then set_cache_file (Some pwd) h else h in
  set_CFG2 (set_option m g TEMPORARY_CACHE_OPTION pwd (CFG2 h)) h.

Definition load_or_generate_password (writable : bool) (rng : nat → Z) (h : Host) : string * Host :=
  match load_password_from_cache h with
  | Some pwd => (pwd, h)
  | None => let pwd := new_auto_password rng (CFG2 h) in (pwd, save_password_to_cache writable pwd h)
  end.

Definition set_temporary_password (writable : bool) (pwd : string) (h : Host) : Host :=
  save_password_to_cache writable pwd (set_TEMPORARY pwd h).

Definition update_temporary_password (writable : bool) (rng : nat → Z) (h : Host) : Host :=
  set_temporary_password writable (new_auto_password rng (CFG2 h)) h.

Definition temporary_password (h : Host) : string := TEMPORARY_PASSWORD h.

End Storage.
