(* ===== verification/PasswordSafety.v ===== *)
(** * Stored passwords keep working

    Theorems about [Password]: a permanent password set on the host is the one
    that is accepted, across salts, ids and restarts; older storage is migrated
    to the hashed form and never written in the clear; trusted devices and the
    one-time password survive a restart. *)

From S2P Require Import Prelude Strs Options Secret Password.
From Stdlib Require Import Ascii String.

Local Open Scope string_scope.
#[local] Arguments String.append _ _ : simpl nomatch.
#[local] Arguments str_take : simpl never.

Lemma str_take_all n s : (str_len s ≤ n)%nat → str_take n s = s.
Proof.
  revert s; induction n as [|n IH]; intros [|a s] H; try done.
  - change (S (str_len s) ≤ 0)%nat in H. lia.
  - change (String a (str_take n s) = String a s). f_equal. apply IH.
    change (S (str_len s) ≤ S n)%nat in H. lia.
Qed.

Lemma auto_password_len rng n chars : str_len (get_auto_password_with_chars rng n chars) = n.
Proof. induction n as [|n IH]; [done|]. change (S (str_len (get_auto_password_with_chars rng n chars)) = S n). by rewrite IH. Qed.

Lemma auto_password_nonempty rng n chars : get_auto_password_with_chars rng (S n) chars ≠ "".
Proof. done. Qed.

Section Storage.
  Context `{C : Crypto} `{!CryptoLaws C}.
  Variable m : Machine.

(** ** The hashed form *)

Lemma h1_len p s : str_len (compute_permanent_password_h1 p s) = PERMANENT_PASSWORD_H1_LEN.
Proof. apply str_take_len. by rewrite sha256_len. Qed.

Lemma decode_encode_h1 h1 : str_len h1 = PERMANENT_PASSWORD_H1_LEN →
  decode_permanent_password_h1_from_storage (encode_permanent_password_storage_from_h1 h1) = Some h1.
Proof.
  intros Hl. unfold decode_permanent_password_h1_from_storage, encode_permanent_password_storage_from_h1.
  rewrite strip_prefix_app. cbn [mbind option_bind]. rewrite b64_decode_encode. cbn [mbind option_bind].
  rewrite bool_decide_true by done. by rewrite str_take_all by lia.
Qed.

Definition hashed (p s : string) : string :=
  encode_permanent_password_storage_from_h1 (compute_permanent_password_h1 p s).

Lemma decode_hashed p s :
  decode_permanent_password_h1_from_storage (hashed p s) = Some (compute_permanent_password_h1 p s).
Proof. apply decode_encode_h1, h1_len. Qed.

Lemma hashed_is_hashed p s : is_permanent_password_hashed_storage (hashed p s) = true.
Proof. apply bool_decide_eq_true. rewrite decode_hashed. by eexists. Qed.

Lemma hashed_nonempty p s : is_empty (hashed p s) = false.
Proof. done. Qed.

Lemma migrate_hashed rng c : is_permanent_password_hashed_storage (cfg_password c) = true →
  migrate_permanent_password_to_hashed_storage m rng c = (c, false).
Proof. intros H. unfold migrate_permanent_password_to_hashed_storage. by rewrite H, orb_true_r. Qed.

Lemma ensure_salt_nonempty rng c : salt (ensure_salt rng c) ≠ "".
Proof. unfold ensure_salt. destruct (is_empty (salt c)) eqn:E; [done|]. by intros H; rewrite H in E. Qed.

Lemma ensure_salt_password rng c : cfg_password (ensure_salt rng c) = cfg_password c.
Proof. unfold ensure_salt. by destruct (is_empty (salt c)). Qed.

(** *** A configuration that accepts exactly [p] *)

Definition holds_password (P s : string) (c : Config) : Prop := cfg_password c = P ∧ salt c = s.

Definition keeps (P s : string) (c : Stored Config) : Prop :=
  holds_password P s (mem c) ∧ holds_password P s (disk c).

Lemma to_file_keeps rng P s c :
  is_permanent_password_hashed_storage P = true →
  holds_password P s c → holds_password P s (to_file m rng c).
Proof.
  intros HP [H1 H2]. unfold to_file. rewrite migrate_hashed by by rewrite H1. by split.
Qed.

Lemma cfg_store_keeps rng P s c :
  is_permanent_password_hashed_storage P = true →
  holds_password P s c → keeps P s (cfg_store m rng c).
Proof. intros HP H. split; [done|by apply to_file_keeps]. Qed.

Lemma cfg_load_keeps g rng hn draw P s file :
  is_permanent_password_hashed_storage P = true →
  holds_password P s file → keeps P s (cfg_load m g rng hn draw file).
Proof.
  intros HP H. unfold cfg_load. rewrite migrate_hashed by by rewrite (proj1 H).
  repeat case_match; simplify_eq; first [by apply cfg_store_keeps|by split].
Qed.

Inductive CfgOp :=
| CfgSetSalt (rng : nat → Z) (s : string) | CfgGetSalt (rng : nat → Z)
| CfgSetId (rng : nat → Z) (i : string)
| CfgGetId (rng : nat → Z) (hostname : option string) (draw : Z)
| CfgRestart (rng : nat → Z) (hostname : option string) (draw : Z).

Definition cfg_run (g : Globals) (c : Stored Config) (op : CfgOp) : Stored Config :=
  match op with
  | CfgSetSalt rng s => set_salt m rng s c
  | CfgGetSalt rng => (get_salt m rng c).2
  | CfgSetId rng i => set_id m rng i c
  | CfgGetId rng hn draw => (get_id m g rng hn draw c).2
  | CfgRestart rng hn draw => cfg_load m g rng hn draw (disk c)
  end.

Lemma set_id_keeps rng i P s c :
  is_permanent_password_hashed_storage P = true → keeps P s c → keeps P s (set_id m rng i c).
Proof.
  intros HP H. unfold set_id. destruct (String.eqb _ _); [done|].
  apply cfg_store_keeps; [done|]. by destruct H as [[? ?] ?].
Qed.

Lemma set_salt_keeps rng s' P s c :
  is_permanent_password_hashed_storage P = true → s ≠ "" → keeps P s c →
  set_salt m rng s' c = c.
Proof.
  intros HP Hs [[H1 H2] _]. unfold set_salt. rewrite H1, H2. destruct (String.eqb _ _); [done|].
  unfold password_is_empty_or_not_hashed. rewrite HP.
  destruct P; [done|]. by destruct s.
Qed.

Lemma cfg_run_keeps g op P s c :
  is_permanent_password_hashed_storage P = true → s ≠ "" → keeps P s c →
  keeps P s (cfg_run g c op).
Proof.
  intros HP Hs H. destruct op; simpl.
  - by rewrite (set_salt_keeps _ _ P s).
  - unfold get_salt. destruct (is_empty _); [|done]. simpl. by rewrite (set_salt_keeps _ _ P s).
  - by apply set_id_keeps.
  - unfold get_id. destruct (_ || _); [|done]. destruct (gen_id _ _ _); [|done]. by apply set_id_keeps.
  - apply cfg_load_keeps; [done|apply H].
Qed.

Lemma cfg_runs_keep g ops P s c :
  is_permanent_password_hashed_storage P = true → s ≠ "" → keeps P s c →
  keeps P s (foldl (cfg_run g) c ops).
Proof. intros HP Hs. revert c. induction ops as [|op ops IH]; intros c H; [done|]. by apply IH, cfg_run_keeps. Qed.

Lemma matches_hashed g p s c q : keeps (hashed p s) s c → s ≠ "" →
  matches_permanent_password_plain g c q =
  negb (is_empty q) && String.eqb (compute_permanent_password_h1 q s) (compute_permanent_password_h1 p s).
Proof.
  intros [[H1 H2] _] Hs. unfold matches_permanent_password_plain. rewrite H1, H2, decode_hashed.
  destruct (is_empty q); [done|]. by destruct s.
Qed.

(** What a host's configuration satisfies after it is loaded: file and memory
    agree on password and salt, and a hashed password has its salt. *)
Definition settled (c : Stored Config) : Prop :=
  cfg_password (disk c) = cfg_password (mem c) ∧ salt (disk c) = salt (mem c)
  ∧ (is_permanent_password_hashed_storage (cfg_password (mem c)) = true → salt (mem c) ≠ "").

Context `{J : Json} `{!JsonLaws J}.

Lemma clear_trusted_CONFIG now h : CONFIG (clear_trusted_devices m now h) = CONFIG h.
Proof. unfold clear_trusted_devices, set_trusted_devices. by case_match. Qed.

Lemma clear_trusted_spec now h : TRUSTED_DEVICES (clear_trusted_devices m now h) = ([], true).
Proof.
  unfold clear_trusted_devices, set_trusted_devices, keep_fresh. cbn [List.filter].
  rewrite to_json_nil. done.
Qed.

Lemma set_permanent_keeps g rng now p h :
  settled (CONFIG h) → p ≠ "" → is_disable_change_permanent_password g = false →
  (get_is (HARD_SETTINGS g) "password" p && is_empty (cfg_password (mem (CONFIG h)))) = false →
  let h' := set_permanent_password m g rng now p h in
  let s := salt (mem (CONFIG h')) in
  s ≠ "" ∧ keeps (hashed p s) s (CONFIG h')
  ∧ (cfg_password (mem (CONFIG h')) = cfg_password (mem (CONFIG h))
     ∨ TRUSTED_DEVICES h' = ([], true)).
Proof.
  intros (S1 & S2 & S3) Hp Hd Hh. unfold set_permanent_password. rewrite Hd, Hh.
  rewrite is_empty_false by done. unfold compute_permanent_password_storage_for_update.
  set (c := ensure_salt rng (mem (CONFIG h))).
  pose proof (ensure_salt_nonempty rng (mem (CONFIG h))) as Hne.
  pose proof (ensure_salt_password rng (mem (CONFIG h))) as Hpw.
  fold c in Hne, Hpw. change (encode_permanent_password_storage_from_h1 _) with (hashed p (salt c)).
  destruct (String.eqb (hashed p (salt c)) (cfg_password c)) eqn:E; cbn zeta.
  - apply String.eqb_eq in E. cbn [CONFIG set_CONFIG mem disk]. rewrite <- E.
    assert (salt c = salt (mem (CONFIG h))) as Hsalt.
    { unfold c, ensure_salt. rewrite is_empty_false; [done|]. apply S3.
      rewrite <- Hpw, <- E. apply hashed_is_hashed. }
    split_and!; [done|split; split; [done|done|..]|left; congruence].
    + cbn [disk]. congruence.
    + cbn [disk]. congruence.
  - rewrite clear_trusted_CONFIG, clear_trusted_spec. cbn [CONFIG set_CONFIG].
    cbn [cfg_store mem set_cfg_password salt].
    split_and!; [done| |by right]. apply cfg_store_keeps; [apply hashed_is_hashed|by split].
Qed.

(** C17: after the permanent password is set, and whatever then happens to the
    salt and the id and however often the host restarts, the host accepts a
    password exactly when it hashes, with a non-empty salt, as the one that was
    set: the new password always, the empty one never; changing it forgets
    every trusted device. *)
Theorem permanent_password_lasts g rng now p h ops q :
  settled (CONFIG h) → p ≠ "" → is_disable_change_permanent_password g = false →
  (get_is (HARD_SETTINGS g) "password" p && is_empty (cfg_password (mem (CONFIG h)))) = false →
  let h' := set_permanent_password m g rng now p h in
  let s := salt (mem (CONFIG h')) in
  let c := foldl (cfg_run g) (CONFIG h') ops in
  s ≠ "" ∧ salt (mem c) = s
  ∧ matches_permanent_password_plain g c q =
    negb (is_empty q) && String.eqb (compute_permanent_password_h1 q s) (compute_permanent_password_h1 p s)
  ∧ matches_permanent_password_plain g c p = true
  ∧ (cfg_password (mem (CONFIG h')) ≠ cfg_password (mem (CONFIG h)) → TRUSTED_DEVICES h' = ([], true)).
Proof.
  intros Hset Hp Hd Hh. cbn zeta.
  destruct (set_permanent_keeps g rng now p h Hset Hp Hd Hh) as (Hs & Hk & Ht).
  set (h' := set_permanent_password m g rng now p h) in *. set (s := salt (mem (CONFIG h'))) in *.
  pose proof (cfg_runs_keep g ops _ s _ (hashed_is_hashed p s) Hs Hk) as Hk'.
  split_and!; [done|apply Hk'|by apply matches_hashed| |naive_solver].
  rewrite (matches_hashed g p s) by done. by rewrite is_empty_false, String.eqb_refl.
Qed.

(** A password is never written to the configuration file in the clear:
    the file holds none, the hashed form, or an encrypted value that this
    machine cannot open; and a legacy plaintext password is hashed with a
    non-empty salt and still accepted after the migration. *)
Lemma password_file_hashed g rng c :
  let f := to_file m rng c in
  (cfg_password f = "" ∨ is_permanent_password_hashed_storage (cfg_password f) = true
   ∨ (is_encrypted (cfg_password f) = true
      ∧ (decrypt_str_or_original m (cfg_password f) PASSWORD_ENC_VERSION).1.2 = false))
  ∧ id f = ""
  ∧ (is_permanent_password_hashed_storage (cfg_password c) = false →
     starts_with PASSWORD_ENC_VERSION (cfg_password c) = false → cfg_password c ≠ "" →
     let c' := (migrate_permanent_password_to_hashed_storage m rng c).1 in
     salt c' ≠ "" ∧ matches_permanent_password_plain g (mk_stored c' f) (cfg_password c) = true).
Proof.
  cbn zeta. split_and!; [|done|].
  - unfold to_file, migrate_permanent_password_to_hashed_storage.
    destruct (is_empty (cfg_password c)) eqn:Ee; [left; change (cfg_password c = ""); by destruct (cfg_password c)|].
    destruct (is_permanent_password_hashed_storage (cfg_password c)) eqn:Eh; [right; by left|].
    cbn [orb]. destruct (starts_with _ _) eqn:Es; [|right; left; apply hashed_is_hashed].
    destruct (decrypt_str_or_original m (cfg_password c) PASSWORD_ENC_VERSION) as [[pl de] lk] eqn:Ed.
    destruct (negb de && negb lk) eqn:En.
    + right; right. apply andb_true_iff in En as [En1 En2].
      change (is_encrypted (cfg_password c) = true
              ∧ (decrypt_str_or_original m (cfg_password c) PASSWORD_ENC_VERSION).1.2 = false).
      rewrite Ed. split; [|by destruct de].
      destruct (decrypt_foreign m (cfg_password c) PASSWORD_ENC_VERSION) as [H|(d & _ & _ & H)];
        rewrite Ed in H; simplify_eq.
      rewrite Ee in En2. by destruct (is_encrypted _).
    + destruct (is_permanent_password_hashed_storage pl) eqn:Ep; right; left; [done|apply hashed_is_hashed].
  - intros Hh Hs Hne. unfold migrate_permanent_password_to_hashed_storage.
    rewrite is_empty_false, Hh, Hs by done. cbn [orb fst].
    split; [apply ensure_salt_nonempty|].
    unfold matches_permanent_password_plain. rewrite is_empty_false by done. cbn [mem].
    cbn [hash_into set_cfg_password cfg_password salt].
    change (encode_permanent_password_storage_from_h1 _)
      with (hashed (cfg_password (ensure_salt rng c)) (salt (ensure_salt rng c))).
    rewrite hashed_nonempty, decode_hashed.
    rewrite is_empty_false by apply ensure_salt_nonempty. rewrite ensure_salt_password.
    apply String.eqb_refl.
Qed.

(** ** Trusted devices *)

Lemma json_encrypt_roundtrip l :
  (Z.of_nat (str_len (to_json l)) ≤ 1024 * 1024)%Z →
  decrypt_str_or_original m
    (encrypt_str_or_original m (to_json l) PASSWORD_ENC_VERSION (Z.to_nat (1024 * 1024))) PASSWORD_ENC_VERSION
  = (to_json l, true, false).
Proof.
  intros Hl. pose proof (to_json_bracket l) as Hb. apply starts_with_spec in Hb as [r Hr].
  assert (∀ s, chars_count s ≤ str_len s)%nat as Hcc.
  { induction s as [|a s IH]; [done|]. change (str_len (String a s)) with (S (str_len s)).
    cbn [chars_count]. destruct (is_cont _); lia. }
  assert (str_len (to_json l) ≤ Z.to_nat (1024 * 1024))%nat as Hn by lia.
  unfold encrypt_str_or_original.
  assert (is_encrypted (to_json l) = false) as ->.
  { unfold is_encrypted. rewrite Hr. by destruct (_ <=? _)%nat. }
  rewrite (proj2 (Nat.ltb_ge _ _)) by (etrans; [apply Hcc|done]).
  assert (to_json l ≠ "") as Hne by (rewrite Hr; discriminate).
  rewrite (encrypt_eq m _ Hne). unfold PASSWORD_ENC_VERSION.
  destruct (prefixed (b64_encode (seal (to_json l) (resize KEYBYTES (get_uuid m))))
              (sealed_nonempty _ _)) as (P1 & P2 & P3 & _).
  unfold decrypt_str_or_original. change (String.eqb "00" "00") with true. cbn match.
  set (e := b64_encode _) in *. rewrite P1, P2, P3. cbn [andb]. subst e. rewrite (decrypt_sealed m (to_json l)).
  by rewrite (lossy_valid _ (to_json_utf8 l)).
Qed.

(** The process restarts: the cached list is gone, [Config2] is loaded again. *)
Definition restart (h : Host) : Host :=
  set_TRUSTED ([], false) (set_CFG2 (c2_load m (disk (CFG2 h))) h).

Lemma load_trusted c : trusted_devices (mem (c2_load m (c2_to_file m c))) = trusted_devices c.
Proof. unfold c2_load. by repeat case_match. Qed.

Lemma set_trusted_spec now l h :
  (Z.of_nat (str_len (to_json (keep_fresh now l))) ≤ 1024 * 1024)%Z →
  TRUSTED_DEVICES (set_trusted_devices m now l h) = (keep_fresh now l, true)
  ∧ ∀ now2, (get_trusted_devices m now2 (restart (set_trusted_devices m now l h))).1
            = keep_fresh now2 (keep_fresh now l).
Proof.
  intros Hl. unfold set_trusted_devices at 1 2.
  rewrite (proj2 (Z.ltb_ge _ _)) by lia. split; [done|]. intros now2.
  unfold get_trusted_devices, restart.
  cbn [TRUSTED_DEVICES set_TRUSTED CFG2 set_CFG2 disk c2_store]. rewrite load_trusted.
  cbn [trusted_devices set_c2_trusted].
  rewrite json_encrypt_roundtrip, from_to_json by done. done.
Qed.

Lemma filter_filter_comm {A} (f : A → bool) (l : list A) : List.filter f (List.filter f l) = List.filter f l.
Proof.
  induction l as [|x l IH]; [done|]. cbn [List.filter]. destruct (f x) eqn:E; [|done].
  cbn [List.filter]. by rewrite E, IH.
Qed.

Lemma find_filter_snoc {A} (f : A → bool) (k : A → bool) (l : list A) d :
  f d = true → List.find f (List.filter k (List.filter (λ x, negb (f x)) l) ++ [d])%list = Some d.
Proof.
  intros Hd. induction l as [|x l IH]; cbn [List.filter app List.find]; [by rewrite Hd|].
  destruct (f x) eqn:E; cbn [negb]; [done|]. cbn [List.filter].
  destruct (k x); [|done]. cbn [app List.find]. by rewrite E.
Qed.

(** A device that passed the second factor is remembered under its
    hardware id, replacing an older entry, in memory and across a restart,
    until ninety days have passed; the other devices are kept. *)
Lemma trusted_device_remembered now d h :
  outdate now d = false →
  let old := List.filter (λ x, negb (String.eqb (hwid x) (hwid d))) (get_trusted_devices m now h).1 in
  let h' := add_trusted_device m now d h in
  (Z.of_nat (str_len (to_json (keep_fresh now old ++ [d])%list)) ≤ 1024 * 1024)%Z →
  (get_trusted_devices m now h').1 = (keep_fresh now old ++ [d])%list
  ∧ (∀ now2, (get_trusted_devices m now2 (restart h')).1
             = keep_fresh now2 (keep_fresh now old ++ [d])%list)
  ∧ List.find (λ x, String.eqb (hwid x) (hwid d)) (get_trusted_devices m now h').1 = Some d.
Proof.
  intros Hd old h' Hl. unfold h', add_trusted_device. clear h'.
  destruct (get_trusted_devices m now h) as [devs h1] eqn:E. cbn [fst] in old. subst old.
  set (old := List.filter _ devs) in *.
  assert (keep_fresh now (old ++ [d])%list = (keep_fresh now old ++ [d])%list) as Hk.
  { unfold keep_fresh. rewrite List.filter_app. cbn [List.filter]. by rewrite Hd. }
  rewrite <- Hk in Hl. destruct (set_trusted_spec now _ h1 Hl) as (H1 & H2).
  rewrite <- Hk. split_and!; [|exact H2|]; unfold get_trusted_devices; rewrite H1; [done|].
  cbn [fst]. rewrite Hk.
  apply (find_filter_snoc (λ x, String.eqb (hwid x) (hwid d)) (λ x, negb (outdate now x))).
  apply String.eqb_refl.
Qed.

End Storage.

(** ** The one-time password *)

Definition no_space (s : string) : Prop := Forall (λ a, is_space a = false) (list_ascii_of_string s).

Lemma no_space_rev s : no_space s → no_space (rev_string s).
Proof.
  unfold no_space. induction s as [|x s IH]; [done|]. cbn [list_ascii_of_string rev_string].
  intros [Hx Hs]%Forall_cons. rewrite list_ascii_app. apply Forall_app. split; [by apply IH|].
  by repeat constructor.
Qed.

Lemma trim_start_no_space s : no_space s → trim_start s = s.
Proof. destruct s as [|a s]; [done|]. intros [Ha _]%Forall_cons. cbn [trim_start]. by rewrite Ha. Qed.

Lemma trim_no_space s : no_space s → trim s = s.
Proof.
  intros H. unfold trim. rewrite (trim_start_no_space s H), trim_start_no_space by by apply no_space_rev.
  apply rev_string_involutive.
Qed.

Lemma get_no_space s n : no_space s → is_space (default "000"%char (String.get n s)) = false.
Proof.
  unfold no_space. revert n. induction s as [|a s IH]; intros n; [by destruct n|].
  cbn [list_ascii_of_string]. intros [Ha Hs]%Forall_cons. destruct n as [|n]; [done|]. by apply IH.
Qed.

Lemma auto_password_no_space rng n chars :
  no_space chars → no_space (get_auto_password_with_chars rng n chars).
Proof.
  intros H. induction n as [|n IH]; [by constructor|].
  constructor; [by apply get_no_space|done].
Qed.

Section OneTime.
  Context `{C : Crypto}.
  Variable m : Machine.
  Variable g : Globals.

Lemma new_auto_password_ok rng c :
  no_space (new_auto_password g rng c) ∧ (4 ≤ str_len (new_auto_password g rng c) ≤ 10)%nat.
Proof.
  unfold new_auto_password, get_auto_numeric_password, get_auto_password.
  assert (4 ≤ temporary_password_length g c ≤ 10)%nat as Hl
    by (unfold temporary_password_length; repeat case_match; lia).
  destruct (get_bool_option _ _ _); rewrite auto_password_len; split; try done;
    apply auto_password_no_space; repeat constructor.
Qed.

(** A one-time password the host generates has four to ten characters and
    survives a restart: what is cached is read back as it was, and no new
    password is generated. *)
Lemma one_time_password_survives rng rng' writable h :
  let h' := update_temporary_password m g true rng h in
  load_or_generate_password m g writable rng' h' = (temporary_password h', h')
  ∧ (4 ≤ str_len (temporary_password h') ≤ 10)%nat.
Proof.
  cbn zeta. destruct (new_auto_password_ok rng (CFG2 h)) as [Hs Hl].
  split; [|exact Hl]. unfold load_or_generate_password, load_password_from_cache.
  unfold update_temporary_password, set_temporary_password, save_password_to_cache, temporary_password.
  cbn [cache_file set_CFG2 set_cache_file set_TEMPORARY TEMPORARY_PASSWORD].
  rewrite trim_no_space by done. by rewrite (proj2 (Nat.leb_le _ _)) by lia.
Qed.

End OneTime.

(** ** Concrete instances *)

Module ToyJson.
Import Toy.

Fixpoint bits (p : positive) : string :=
  match p with xH => "" | xO p => String "0" (bits p) | xI p => String "1" (bits p) end.
Fixpoint unbits (s : string) : positive :=
  match s with
  | "" => xH
  | String a s => if Ascii.eqb a "0" then xO (unbits s) else xI (unbits s)
  end.

Lemma unbits_bits p : unbits (bits p) = p.
Proof. induction p; simpl; congruence. Qed.

#[export] Instance device_countable : Countable TrustedDevice.
Proof.
  refine (inj_countable' (λ d, (hwid d, time d, dev_id d, dev_name d, platform d))
    (λ '(a, b, c, d, e), {| hwid := a; time := b; dev_id := c; dev_name := d; platform := e |}) _).
  by intros [].
Defined.

Definition ascii7 (s : string) : Prop :=
  Forall (λ a, (nat_of_ascii a < 128)%nat) (list_ascii_of_string s).

Lemma ascii7_valid s : ascii7 s → utf8_valid s = true.
Proof.
  unfold utf8_valid. induction s as [|a s IH]; [done|]. intros [Ha Hs]%Forall_cons.
  change (str_len (String a s)) with (S (str_len s)). cbn [valid_go].
  unfold utf8_next. replace (byte_at 0 (String a s) <? 128)%Z with true; [by apply IH|].
  symmetry. apply Z.ltb_lt. unfold byte_at. cbn [String.get]. lia.
Qed.

Lemma bits_ascii p : ascii7 (bits p).
Proof. unfold ascii7. induction p; simpl; constructor; try done; vm_compute; lia. Qed.

Definition print (l : list TrustedDevice) : string :=
  match l with [] => "[]" | _ => String "[" (bits (encode l)) end.
Definition read (s : string) : option (list TrustedDevice) :=
  if String.eqb s "[]" then Some [] else
  match s with String _ s => decode (unbits s) | "" => None end.

#[export] Instance json : Json := {| to_json := print; from_json := read |}.

Lemma bits_not_bracket p : String "[" (bits p) ≠ "[]".
Proof. by destruct p. Qed.

#[export] Instance json_laws : JsonLaws json.
Proof.
  split; unfold to_json, from_json, json.
  - intros [|d l]; [done|]. unfold print, read.
    destruct (String.eqb _ _) eqn:E; [apply String.eqb_eq in E; by apply bits_not_bracket in E|].
    rewrite unbits_bits. apply decode_encode.
  - intros [|d l]; [reflexivity|]. unfold print. generalize (bits (encode (d :: l))). by intros s; destruct s.
  - intros [|d l]; [done|]. apply ascii7_valid. constructor; [vm_compute; lia|]. apply bits_ascii.
  - done.
Qed.

Definition host : Host :=
  {| CONFIG := store Config_default; CFG2 := c2_store Toy.machine Config2_default; TRUSTED_DEVICES := ([], false);
     TEMPORARY_PASSWORD := ""; cache_file := None |}.

End ToyJson.

Import Toy ToyJson.

Lemma settled_host : settled (CONFIG host).
Proof. by split_and!. Qed.

Lemma permanent_password_lasts_witness :
  let rng := λ n, Z.of_nat n in
  let h' := set_permanent_password Toy.machine empty_globals rng 0 "hunter2" host in
  let c := foldl (cfg_run Toy.machine empty_globals) (CONFIG h')
             [CfgSetId rng "123456"; CfgRestart rng None 100000; CfgSetSalt rng "zz"; CfgGetSalt rng] in
  matches_permanent_password_plain empty_globals c "hunter2" = true
  ∧ matches_permanent_password_plain empty_globals c "hunter3" = false.
Proof.
  intros rng h' c.
  pose proof (permanent_password_lasts Toy.machine empty_globals rng 0 "hunter2" host
    [CfgSetId rng "123456"; CfgRestart rng None 100000; CfgSetSalt rng "zz"; CfgGetSalt rng] "hunter3"
    settled_host ltac:(discriminate) eq_refl eq_refl) as (_ & _ & Hq & Hp & _).
  split; [exact Hp|]. unfold c, h'. rewrite Hq. vm_compute. reflexivity.
Defined.

Lemma password_file_hashed_witness :
  let c := set_cfg_password "legacy" Config_default in
  cfg_password (to_file Toy.machine (λ n, Z.of_nat n) c) ≠ "legacy"
  ∧ matches_permanent_password_plain empty_globals
      (mk_stored (migrate_permanent_password_to_hashed_storage Toy.machine (λ n, Z.of_nat n) c).1
                 (to_file Toy.machine (λ n, Z.of_nat n) c)) "legacy" = true.
Proof.
  intros c. split; [vm_compute; discriminate|].
  exact (proj2 (proj2 (proj2 (password_file_hashed Toy.machine empty_globals (λ n, Z.of_nat n) c))
                  eq_refl eq_refl ltac:(discriminate))).
Defined.

Lemma trusted_device_remembered_witness :
  let d := {| hwid := "h"; time := 5; dev_id := "i"; dev_name := ""; platform := "" |} in
  let h' := add_trusted_device Toy.machine 10 d host in
  (get_trusted_devices Toy.machine 10 (restart Toy.machine h')).1 = [d]
  ∧ (get_trusted_devices Toy.machine (10 + DAYS_90) (restart Toy.machine h')).1 = [].
Proof.
  intros d h'.
  pose proof (trusted_device_remembered Toy.machine 10 d host eq_refl) as H0.
  destruct H0 as (_ & H & _); [by vm_compute|].
  unfold h'. split; rewrite H; reflexivity.
Defined.

(** A custom id longer than six characters does not last: [get_id] replaces it
    by a random one. *)
Lemma custom_id_lost g rng c draw :
  BUILTIN_SETTINGS g !! "allow-hostname-as-id" = None →
  (get_id Toy.machine g rng None draw (set_id Toy.machine rng "workstation" c)).1 = show_Z draw.
Proof.
  intros Hg. unfold get_id, set_id, gen_id. rewrite Hg.
  destruct (String.eqb _ _) eqn:E; [|done]. apply String.eqb_eq in E. by rewrite <- E.
Qed.
