(* ===== verification/Secure.v ===== *)
(** * The secure channel

    [libs/hbb_common/src/tcp.rs] and [websocket.rs]: the encrypted frames of a
    stream ([Encrypt], [FramedStream], [WsFramedStream]); the handshakes that
    agree on their key: between a client and a host ([secure_connection] of
    [src/client.rs], [create_tcp_connection] of [src/server.rs]) and with the
    rendezvous server ([secure_tcp] of [src/common.rs]).  A byte is a [Z].

    The primitives of sodiumoxide are the class [Nacl], the protobuf messages of
    the handshakes the class [Wire].  A stream keeps what it wrote, frame by
    frame; what arrives is an argument.  [f_fault] is the error that a write
    meets, if any.  WebRTC streams are behind a feature and left out. *)

From S2P Require Import Prelude Strs Secret Options Password.
From Stdlib Require Import Ascii String.

Local Open Scope list_scope.
#[local] Abbreviation length := Datatypes.length.
#[local] Arguments String.append _ _ : simpl nomatch.

Definition bytes : Type := list Z.
#[global] Instance bytes_eq_dec : EqDecision bytes := _.

(** ** The crates *)

(** A signing or a box key pair is given by its secret key. *)
Class Nacl := {
  sign : bytes → bytes → bytes;                                (* message, secret key *)
  verify : bytes → bytes → option bytes;                       (* signed, public key *)
  sign_pk : bytes → bytes;
  box_pk : bytes → bytes;
  box_seal : bytes → bytes → bytes → bytes → bytes;            (* message, nonce, their pk, our sk *)
  box_open : bytes → bytes → bytes → bytes → option bytes;
  secretbox_seal : bytes → bytes → bytes → bytes;              (* message, nonce, key *)
  secretbox_open : bytes → bytes → bytes → option bytes;
  decode64 : string → option bytes
}.

Definition PUBLICKEYBYTES : nat := 32.
Definition SECRETKEYBYTES : nat := 64.
Definition BOX_NONCEBYTES : nat := 24.
Definition NONCEBYTES : nat := 24.
Definition SECRETBOX_KEYBYTES : nat := 32.
Definition SECRETBOX_MACBYTES : nat := 16.

(** The nonce of the [seqnum]-th frame. *)
Definition get_nonce (seqnum : Z) : bytes := le_bytes 8 seqnum ++ repeat 0%Z 16.

Class NaclLaws (N : Nacl) : Prop := {
  verify_sign m sk : verify (sign m sk) (sign_pk sk) = Some m;
  box_open_seal m n skA skB : box_open (box_seal m n (box_pk skB) skA) n (box_pk skA) skB = Some m;
  secretbox_open_seal m n k : secretbox_open (secretbox_seal m n k) n k = Some m;
  secretbox_len m n k : length (secretbox_seal m n k) = (length m + SECRETBOX_MACBYTES)%nat;
  secretbox_bytes m n k :
    Forall is_byte m → Forall is_byte n → Forall is_byte k → Forall is_byte (secretbox_seal m n k);
  box_pk_len sk : length (box_pk sk) = PUBLICKEYBYTES
}.

(** What keeps others out: only what was sealed under a key and a nonce opens
    under them, and boxes of different nonces differ. *)
Class NaclIdeal (N : Nacl) : Prop := {
  ideal_laws : NaclLaws N;
  secretbox_authentic c n k m : secretbox_open c n k = Some m → c = secretbox_seal m n k;
  secretbox_inj m i m' j k :
    uint 64 i → uint 64 j →
    secretbox_seal m (get_nonce i) k = secretbox_seal m' (get_nonce j) k → i = j
}.

(** ** Encrypted frames *)

Record Encrypt := mkEncrypt { e_key : bytes; e_sent : Z; e_received : Z }.
Definition Encrypt_new (key : bytes) : Encrypt := mkEncrypt key 0 0.

Section Channel.
  Context `{N : Nacl}.

Definition dec (data : bytes) (e : Encrypt) : result string bytes * Encrypt :=
  if (length data <=? 1)%nat then (Ok data, e) else
  let e := mkEncrypt (e_key e) (e_sent e) (wrap 64 (e_received e + 1)) in
  match secretbox_open data (get_nonce (e_received e)) (e_key e) with
  | Some res => (Ok res, e)
  | None => (Err "decryption error"%string, e)
  end.

Definition enc (data : bytes) (e : Encrypt) : bytes * Encrypt :=
  let e := mkEncrypt (e_key e) (wrap 64 (e_sent e + 1)) (e_received e) in
  (secretbox_seal data (get_nonce (e_sent e)) (e_key e), e).

(** The key that [their_pk] sealed for us. *)
Definition decode (symmetric_data their_pk_b our_sk_b : bytes) : result string bytes :=
  if negb (length their_pk_b =? PUBLICKEYBYTES)%nat then Err "Handshake failed: pk length"%string else
  match box_open symmetric_data (repeat 0%Z BOX_NONCEBYTES) their_pk_b our_sk_b with
  | None => Err "Handshake failed: box decryption failure"%string
  | Some key =>
      if negb (length key =? SECRETBOX_KEYBYTES)%nat
      then Err "Handshake failed: invalid secret key length from peer"%string else Ok key
  end.

(** [Stream]: a TCP stream, or a websocket. *)
Record Stream := mkStream {
  f_websocket : bool;
  f_key : option Encrypt;
  f_sent : list bytes;
  f_fault : option string
}.

(** [FramedStream::from], [WsFramedStream::new]. *)
Definition new_stream (websocket : bool) : Stream := mkStream websocket None [] None.

Definition is_websocket (s : Stream) : bool := f_websocket s.
Definition is_secured (s : Stream) : bool := bool_decide (is_Some (f_key s)).
Definition set_key (key : bytes) (s : Stream) : Stream :=
  mkStream (f_websocket s) (Some (Encrypt_new key)) (f_sent s) (f_fault s).
Definition stream_set_raw (s : Stream) : Stream :=
  mkStream (f_websocket s) None (f_sent s) (f_fault s).

Definition send_bytes (data : bytes) (s : Stream) : result string unit * Stream :=
  match f_fault s with
  | Some e => (Err e, s)
  | None => (Ok (), mkStream (f_websocket s) (f_key s) (f_sent s ++ [data]) None)
  end.

Definition send_raw (msg : bytes) (s : Stream) : result string unit * Stream :=
  match f_key s with
  | None => send_bytes msg s
  | Some e =>
      let '(msg, e) := enc msg e in
      send_bytes msg (mkStream (f_websocket s) (Some e) (f_sent s) (f_fault s))
  end.

(** What a read of the transport gives.  A websocket also has text frames; its
    pings are skipped before. *)
Inductive Arrival :=
| Elapsed                    (* the timeout of the caller *)
| EndOfStream
| ReadError (e : string)
| Frame (data : bytes)
| TextFrame (data : bytes).

Inductive Read := RTimeout | RNone | RErr (e : string) | RBytes (data : bytes).

Definition next (a : Arrival) (s : Stream) : Read * Stream :=
  match a with
  | Elapsed => (RTimeout, s)
  | EndOfStream => (RNone, s)
  | ReadError e => (RErr e, s)
  | Frame data =>
      match f_key s with
      | None => (RBytes data, s)
      | Some e =>
          let '(r, e) := dec data e in
          (match r with Ok data => RBytes data | Err err => RErr err end,
           mkStream (f_websocket s) (Some e) (f_sent s) (f_fault s))
      end
  | TextFrame data => (RBytes data, s)
  end.
End Channel.

(** ** The messages of a handshake *)

Inductive Hello :=
| NoUnion                                            (* [Message::new()] *)
| SignedId (id : bytes)
| PublicKey (asymmetric_value symmetric_value : bytes)
| OtherHello.

Inductive RsHello := KeyExchange (keys : list bytes) | OtherRs.

Class Wire := {
  hello_bytes : Hello → bytes;
  hello_parse : bytes → option Hello;
  id_pk_bytes : string → bytes → bytes;
  id_pk_parse : bytes → option (string * bytes);
  rs_bytes : RsHello → bytes;
  rs_parse : bytes → option RsHello
}.

Class WireLaws (W : Wire) : Prop := {
  hello_roundtrip h : h ≠ OtherHello → hello_parse (hello_bytes h) = Some h;
  id_pk_roundtrip id pk : id_pk_parse (id_pk_bytes id pk) = Some (id, pk);
  rs_roundtrip keys : rs_parse (rs_bytes (KeyExchange keys)) = Some (KeyExchange keys)
}.

Section Handshake.
  Context `{N : Nacl} `{W : Wire}.

Definition get_pk (pk : bytes) : option bytes :=
  if (length pk =? 32)%nat then Some pk else None.

Definition get_rs_pk (str_base64 : string) : option bytes := decode64 str_base64 ≫= get_pk.

Definition decode_id_pk (signed key : bytes) : result string (string * bytes) :=
  match verify signed key with
  | None => Err "Signature mismatch"%string
  | Some m =>
      match id_pk_parse m with
      | None => Err "parse"%string
      | Some (id, pk) =>
          match get_pk pk with
          | Some pk => Ok (id, pk)
          | None => Err "Wrong their public length"%string
          end
      end
  end.

(** The fresh secrets of one handshake: a box key and a symmetric key. *)
Record Fresh := mkFresh { our_sk : bytes; new_key : bytes }.

Definition create_symmetric_key_msg (fr : Fresh) (their_pk_b : bytes) : bytes * bytes * bytes :=
  (box_pk (our_sk fr),
   box_seal (new_key fr) (repeat 0%Z BOX_NONCEBYTES) their_pk_b (our_sk fr),
   new_key fr).

Definition send_hello (h : Hello) (s : Stream) : result string unit * Stream :=
  send_raw (hello_bytes h) s.

(** *** The client *)

Definition RS_PUB_KEY : string := "OQnLEvt6xjfPCUc1ozpTUiAxijwnn624zy0GH9IxX90=".

(** The host's signing key, vouched for by the rendezvous server. *)
Definition vouched_pk (peer_id : string) (signed_id_pk : bytes) (key : string) : option bytes :=
  if bool_decide (signed_id_pk = []) then None else
  rs_pk ← get_rs_pk (if is_empty key then RS_PUB_KEY else key);
  match decode_id_pk signed_id_pk rs_pk with
  | Ok (id, pk) => if String.eqb id peer_id then Some pk else None
  | Err _ => None
  end.

(** The answer to the host's first message. *)
Definition answer_hello (fr : Fresh) (peer_id : string) (sign_pk : bytes) (data : bytes) (s : Stream)
    : result string unit * Stream :=
  match hello_parse data with
  | Some (SignedId si) =>
      match decode_id_pk si sign_pk with
      | Ok (id, their_pk_b) =>
          if String.eqb id peer_id then
            let '(asymmetric_value, symmetric_value, key) := create_symmetric_key_msg fr their_pk_b in
            match send_hello (PublicKey asymmetric_value symmetric_value) s with
            | (Ok _, s) => (Ok (), set_key key s)
            | r => r
            end
          else send_hello NoUnion s
      | Err _ => send_hello (PublicKey [] []) s
      end
  | _ => send_hello NoUnion s
  end.

Definition secure_connection (fr : Fresh) (peer_id : string) (signed_id_pk : bytes) (key : string)
    (a : Arrival) (s : Stream) : result string (option bytes) * Stream :=
  match vouched_pk peer_id signed_id_pk key with
  | None =>
      let '(r, s) := send_hello NoUnion s in
      (match r with Ok _ => Ok None | Err e => Err e end, s)
  | Some sign_pk =>
      let '(r, s) := next a s in
      match r with
      | RTimeout => (Err "deadline has elapsed"%string, s)
      | RNone => (Err "Reset by the peer"%string, s)
      | RErr e => (Err e, s)
      | RBytes data =>
          let '(r, s) := answer_hello fr peer_id sign_pk data s in
          (match r with Ok _ => Ok (Some sign_pk) | Err e => Err e end, s)
      end
  end.

(** *** The host *)

Context `{C : Crypto}.
Variable m : Machine.
Variable rng : nat → Z.

(** [Config::set_key_confirmed]. *)
Definition set_key_confirmed (v : bool) (c : Stored Config) : Stored Config :=
  if Bool.eqb (key_confirmed (mem c)) v then c else
  cfg_store m rng {| id := id (mem c); enc_id := enc_id (mem c); cfg_password := cfg_password (mem c);
           salt := salt (mem c); key_pair := key_pair (mem c); key_confirmed := v;
           keys_confirmed := if v then keys_confirmed (mem c) else ∅ |}.

(** What the host says first. *)
Definition signed_id (our_sk : bytes) (my_id : string) (sk : bytes) : Hello :=
  SignedId (sign (id_pk_bytes my_id (box_pk our_sk)) sk).

(** The client's answer. *)
Definition receive_key (our_sk data : bytes) (s : Stream) (c : Stored Config)
    : result string unit * Stream * Stored Config :=
  match hello_parse data with
  | Some (PublicKey asymmetric_value symmetric_value) =>
      if (length asymmetric_value =? PUBLICKEYBYTES)%nat then
        match decode symmetric_value asymmetric_value our_sk with
        | Ok key => (Ok (), set_key key s, c)
        | Err e => (Err e, s, c)
        end
      else if bool_decide (asymmetric_value = []) then (Ok (), s, set_key_confirmed false c)
      else (Err "Handshake failed: invalid public sign key length from peer"%string, s, c)
  | Some _ => (Ok (), s, c)
  | None => (Err "Handshake failed: invalid message format"%string, s, c)
  end.

(** Up to [Connection::start], which follows when it is [Ok].  [sk], [pk]: the
    key pair of the host. *)
Definition create_tcp_connection (our_sk : bytes) (my_id : string) (sk pk : bytes) (secure : bool)
    (a : Arrival) (s : Stream) (c : Stored Config) : result string unit * Stream * Stored Config :=
  if secure && (length pk =? PUBLICKEYBYTES)%nat && (length sk =? SECRETKEYBYTES)%nat then
    match send_hello (signed_id our_sk my_id sk) s with
    | (Err e, s) => (Err e, s, c)
    | (Ok _, s) =>
        let '(r, s) := next a s in
        match r with
        | RTimeout => (Err "deadline has elapsed"%string, s, c)
        | RNone => (Err "Failed to receive public key"%string, s, c)
        | RErr e => (Err e, s, c)
        | RBytes data => receive_key our_sk data s c
        end
    end
  else (Ok (), s, c).

(** *** The rendezvous server *)

Definition secure_tcp (fr : Fresh) (key : string) (a : Arrival) (s : Stream) : result string unit * Stream :=
  if is_websocket s then (Ok (), s) else
  match get_rs_pk key with
  | None => (Err "Handshake failed: invalid public key from rendezvous server"%string, s)
  | Some rs_pk =>
      let '(r, s) := next a s in
      match r with
      | RTimeout => (Err "deadline has elapsed"%string, s)
      | RNone | RErr _ => (Ok (), s)
      | RBytes data =>
          match rs_parse data with
          | Some (KeyExchange keys) =>
              match keys with
              | [signed] =>
                  match verify signed rs_pk with
                  | None => (Err "Signature mismatch in key exchange"%string, s)
                  | Some their_pk =>
                      match get_pk their_pk with
                      | None => (Err "Wrong their public length in key exchange"%string, s)
                      | Some pk =>
                          let '(asymmetric_value, symmetric_value, key) := create_symmetric_key_msg fr pk in
                          match send_raw (rs_bytes (KeyExchange [asymmetric_value; symmetric_value])) s with
                          | (Ok _, s) => (Ok (), set_key key s)
                          | r => r
                          end
                      end
                  end
              | _ => (Err "Handshake failed: invalid key exchange message"%string, s)
              end
          | _ => (Ok (), s)
          end
      end
  end.
End Handshake.
