(* ===== verification/SecureSafety.v ===== *)
(** * What the secure channel gives

    Theorems on [Secure]: an honest client and an honest host end their handshake
    with the same key ([handshake_agrees]); what one end sends the other reads,
    whatever the network does to the chunks of the stream
    ([secure_stream_roundtrip]); and what an attacker between them can make an end
    accept ([channel_integrity]), with the cases that the code lets through. *)

From S2P Require Import Prelude Codec Strs Secret Options Password Secure.
From Stdlib Require Import Ascii String.

Local Open Scope list_scope.
#[local] Abbreviation length := Datatypes.length.
#[local] Arguments String.append _ _ : simpl nomatch.

(** ** Agreement *)

Section Agreement.
Context `{C : Crypto} `{N : Nacl} `{W : Wire} `{NL : !NaclLaws N} `{WL : !WireLaws W}.

Lemma decode_id_pk_signed id pk sk :
  length pk = 32%nat → decode_id_pk (sign (id_pk_bytes id pk) sk) (sign_pk sk) = Ok (id, pk).
Proof. intros H. unfold decode_id_pk, get_pk. by rewrite verify_sign, id_pk_roundtrip, H. Qed.

Lemma vouched_signed id pk rs_sk key :
  length pk = 32%nat → get_rs_pk (if is_empty key then RS_PUB_KEY else key) = Some (sign_pk rs_sk) →
  sign (id_pk_bytes id pk) rs_sk ≠ [] →
  vouched_pk id (sign (id_pk_bytes id pk) rs_sk) key = Some pk.
Proof.
  intros Hpk Hrs Hne. unfold vouched_pk. rewrite bool_decide_false by done. rewrite Hrs. simpl.
  by rewrite decode_id_pk_signed, String.eqb_refl by done.
Qed.

Lemma decode_sealed fr skB :
  length (new_key fr) = SECRETBOX_KEYBYTES →
  decode (create_symmetric_key_msg fr (box_pk skB)).1.2 (create_symmetric_key_msg fr (box_pk skB)).1.1 skB
  = Ok (new_key fr).
Proof. intros H. unfold decode. simpl. by rewrite box_pk_len, box_open_seal, H. Qed.

(** C7: an honest client and an honest host agree.  When the rendezvous server
    vouches for the host's signing key, the streams are plain and writable, and
    the messages arrive as they were sent: the host sends its signed identity, the
    client answers with a fresh key sealed for the host, and both ends are secured
    with that key, from the first frame on; the confirmation of the host's key
    stays as it was. *)
Theorem handshake_agrees m rng fr hsk id sk rs_sk key sc sh c :
  length (sign_pk sk) = PUBLICKEYBYTES → length sk = SECRETKEYBYTES →
  length (new_key fr) = SECRETBOX_KEYBYTES →
  get_rs_pk (if is_empty key then RS_PUB_KEY else key) = Some (sign_pk rs_sk) →
  sign (id_pk_bytes id (sign_pk sk)) rs_sk ≠ [] →
  f_key sc = None → f_fault sc = None → f_key sh = None → f_fault sh = None →
  ∃ hello answer sc' sh',
    secure_connection fr id (sign (id_pk_bytes id (sign_pk sk)) rs_sk) key (Frame hello) sc
      = (Ok (Some (sign_pk sk)), sc')
    ∧ create_tcp_connection m rng hsk id sk (sign_pk sk) true (Frame answer) sh c = (Ok (), sh', c)
    ∧ f_sent sh' = f_sent sh ++ [hello] ∧ f_sent sc' = f_sent sc ++ [answer]
    ∧ f_key sc' = Some (Encrypt_new (new_key fr)) ∧ f_key sh' = Some (Encrypt_new (new_key fr)).
Proof.
  intros Hpk Hsk Hkey Hrs Hne Kc Fc Kh Fh.
  set (hello := hello_bytes (signed_id hsk id sk)).
  set (keys := create_symmetric_key_msg fr (box_pk hsk)).
  exists hello, (hello_bytes (PublicKey keys.1.1 keys.1.2)).
  eexists (set_key _ (mkStream _ _ _ _)), (set_key _ (mkStream _ _ _ _)). split_and!.
  - unfold secure_connection. rewrite vouched_signed by done. unfold next. rewrite Kc.
    unfold answer_hello, hello. rewrite hello_roundtrip by done. unfold signed_id.
    rewrite decode_id_pk_signed by apply box_pk_len. rewrite String.eqb_refl.
    unfold send_hello, send_raw, send_bytes. rewrite Kc, Fc. simpl. reflexivity.
  - unfold create_tcp_connection. rewrite Hpk, Hsk. simpl. fold hello.
    unfold send_hello, send_raw, send_bytes. rewrite Kh, Fh. simpl.
    unfold receive_key. rewrite hello_roundtrip by done.
    pose proof (decode_sealed fr hsk Hkey) as E. simpl in E. rewrite E. simpl.
    rewrite box_pk_len. reflexivity.
  - done.
  - done.
  - done.
  - done.
Qed.
End Agreement.

(** ** Frames in order *)

Section Frames.
Context `{N : Nacl}.

(** The frames a secured end writes for a list of messages. *)
Fixpoint enc_all (ms : list bytes) (e : Encrypt) : list bytes * Encrypt :=
  match ms with
  | [] => ([], e)
  | m :: ms => let '(f, e) := enc m e in let '(fs, e) := enc_all ms e in (f :: fs, e)
  end.

(** What an end gets from the frames that carry an encrypted message, until the
    first that does not open, where the connection ends. *)
Fixpoint opened (fs : list bytes) (e : Encrypt) : list bytes :=
  match fs with
  | [] => []
  | f :: fs =>
      if (length f <=? 1)%nat then opened fs e else
      match dec f e with
      | (Ok m, e) => m :: opened fs e
      | (Err _, _) => []
      end
  end.

(** [send_raw] and [next], one after another. *)
Fixpoint send_all (ms : list bytes) (s : Stream) : Stream :=
  match ms with
  | [] => s
  | m :: ms => send_all ms (send_raw m s).2
  end.
Fixpoint read_all (fs : list bytes) (s : Stream) : list Read :=
  match fs with
  | [] => []
  | f :: fs => let '(r, s) := next (Frame f) s in r :: read_all fs s
  end.

Lemma send_all_frames ms s e :
  f_key s = Some e → f_fault s = None →
  send_all ms s = mkStream (f_websocket s) (Some (enc_all ms e).2) (f_sent s ++ (enc_all ms e).1) None.
Proof.
  revert s e. induction ms as [|m ms IH]; intros s e Hk Hf; cbn [send_all enc_all].
  - simpl. rewrite app_nil_r. by destruct s; simpl in *; subst.
  - unfold send_raw, send_bytes. rewrite Hk. destruct (enc m e) as [f e'] eqn:E. simpl. rewrite Hf. simpl.
    erewrite IH by done. simpl. destruct (enc_all ms e') as [fs e''] eqn:E'. simpl.
    by rewrite <- app_assoc.
Qed.

Section Laws.
Context `{NL : !NaclLaws N}.

Lemma dec_enc m e e' :
  e_key e' = e_key e → e_received e' = e_sent e →
  ∃ e1, dec (enc m e).1 e' = (Ok m, e1) ∧ e_key e1 = e_key (enc m e).2 ∧ e_received e1 = e_sent (enc m e).2.
Proof.
  intros Hk Hs. unfold dec, enc. simpl.
  rewrite secretbox_len. unfold SECRETBOX_MACBYTES.
  replace (length m + 16 <=? 1)%nat with false by (symmetry; apply Nat.leb_gt; lia).
  simpl. rewrite Hk, Hs, secretbox_open_seal. by eexists (mkEncrypt _ _ _).
Qed.

Lemma read_enc_all ms s e e' :
  e_key e' = e_key e → e_received e' = e_sent e → f_key s = Some e' →
  read_all (enc_all ms e).1 s = map RBytes ms.
Proof.
  revert s e e'. induction ms as [|m ms IH]; intros s e e' Hk Hs Hf; [done|]. cbn [enc_all].
  destruct (dec_enc m e e' Hk Hs) as (e1 & E1 & Hk1 & Hs1).
  destruct (enc m e) as [f e2]. simpl in *. destruct (enc_all ms e2) as [fs e3] eqn:E3. simpl.
  rewrite Hf, E1. f_equal. specialize (IH (mkStream (f_websocket s) (Some e1) (f_sent s) (f_fault s)) e2 e1).
  rewrite E3 in IH. by apply IH.
Qed.

Lemma enc_all_bytes ms e :
  Forall (Forall is_byte) ms → Forall is_byte (e_key e) → Forall (Forall is_byte) (enc_all ms e).1.
Proof.
  intros Hm. revert e. induction Hm as [|m ms Hm Hms IH]; intros e Hk; [constructor|]. cbn [enc_all].
  destruct (enc m e) as [f e'] eqn:E. specialize (IH e').
  destruct (enc_all ms e') as [fs e'']. unfold enc in E. injection E as <- <-. simpl in *. constructor; [|by apply IH].
  apply secretbox_bytes; [done| |done]. unfold get_nonce. apply Forall_app. split.
  - apply le_bytes_is_byte.
  - apply Forall_forall. intros b Hb%list_elem_of_In%repeat_spec. subst. unfold is_byte. lia.
Qed.

Lemma enc_all_len k ms e :
  Forall (λ m, (len m + 16 <= k)%Z) ms → Forall (λ f, (len f <= k)%Z) (enc_all ms e).1.
Proof.
  intros Hm. revert e. induction Hm as [|m ms Hm Hms IH]; intros e; [constructor|]. cbn [enc_all].
  destruct (enc m e) as [f e'] eqn:E. specialize (IH e').
  destruct (enc_all ms e') as [fs e'']. unfold enc in E. injection E as <- <-. simpl in *. constructor; [|done].
  unfold len in *. rewrite secretbox_len. unfold SECRETBOX_MACBYTES. lia.
Qed.

(** A secured stream carries its messages.  What one end sends after the
    handshake, framed by the packet codec and split by the network into any
    chunks, is decoded and opened by the other end as the same messages, in
    order, empty ones included, when each fits a packet with its 16 bytes of
    authentication. *)
Lemma secure_stream_roundtrip ms s e r e' stream chunks :
  f_key s = Some e → f_fault s = None → f_sent s = [] →
  f_key r = Some e' → e_key e' = e_key e → e_received e' = e_sent e →
  Forall (Forall is_byte) ms → Forall is_byte (e_key e) →
  Forall (λ m, (len m + 16 <= max_packet_length new)%Z) ms →
  encode_all new (f_sent (send_all ms s)) [] = (Ok (), stream) → List.concat chunks = stream →
  ∃ frames, feed_chunks new [] chunks = Some (Ok frames, new, []) ∧ read_all frames r = map RBytes ms.
Proof.
  intros Hk Hf Hs Hr Hek Hes Hb Hkb Hm Henc Hch. exists (enc_all ms e).1.
  rewrite (send_all_frames ms s e) in Henc by done. simpl in Henc. rewrite Hs in Henc. simpl in Henc. split.
  - eapply feed_encoded; try done; [by apply enc_all_bytes|by apply enc_all_len].
  - by eapply read_enc_all.
Qed.
End Laws.

(** ** An attacker on the wire *)

Lemma prefix_of_lookup {A} (l1 l2 : list A) :
  (∀ i x, l1 !! i = Some x → l2 !! i = Some x) → l1 `prefix_of` l2.
Proof.
  revert l2. induction l1 as [|x l1 IH]; intros l2 H; [apply prefix_nil|].
  pose proof (H 0%nat x eq_refl) as H0. destruct l2 as [|y l2]; [done|]. simplify_eq/=.
  apply prefix_cons, IH. intros i z. apply (H (S i)).
Qed.

Lemma enc_all_lookup ms e j f :
  (0 <= e_sent e)%Z → (e_sent e + Z.of_nat (length ms) < 2 ^ 64)%Z →
  (enc_all ms e).1 !! j = Some f →
  ∃ m, ms !! j = Some m ∧ f = secretbox_seal m (get_nonce (e_sent e + 1 + Z.of_nat j)) (e_key e).
Proof.
  revert e j. induction ms as [|m ms IH]; intros e j Hp Hl; [done|].
  cbn [enc_all length] in *. unfold enc. rewrite wrap_small by (unfold uint; lia).
  destruct (enc_all ms _) as [fs e''] eqn:E. simpl.
  destruct j as [|j]; simpl.
  - intros [= <-]. exists m. split; [done|]. do 2 f_equal. lia.
  - intros Hj. specialize (IH (mkEncrypt (e_key e) (e_sent e + 1) (e_received e)) j).
    rewrite E in IH. simpl in IH. destruct IH as (m' & Hm & ->); [lia|lia|done|].
    exists m'. split; [done|]. do 2 f_equal. lia.
Qed.

Context `{NI : !NaclIdeal N}.

(** A frame that opens as the [i]-th is the [i]-th of its sender. *)
Lemma opens_in_place ms k f i m :
  (Z.of_nat (length ms) < 2 ^ 64)%Z → uint 64 (i + 1) → (0 <= i)%Z →
  f ∈ (enc_all ms (Encrypt_new k)).1 → secretbox_open f (get_nonce (i + 1)) k = Some m →
  ms !! Z.to_nat i = Some m.
Proof.
  intros Hl Hi Hi0 Hf Ho. destruct NI as [NL _ _].
  apply list_elem_of_lookup in Hf as [j Hj].
  pose proof (lookup_lt_Some _ _ _ Hj) as Hlt.
  destruct (enc_all_lookup ms (Encrypt_new k) j f) as (m' & Hm & ->); [done|simpl; lia|done|].
  simpl in *. pose proof (lookup_lt_Some _ _ _ Hm).
  pose proof (secretbox_authentic _ _ _ _ Ho) as E. apply secretbox_inj in E; [|unfold uint in *; lia|done].
  assert (j = Z.to_nat i) as -> by lia. replace (0 + 1 + Z.of_nat (Z.to_nat i))%Z with (i + 1)%Z in Ho by lia.
  rewrite secretbox_open_seal in Ho. by simplify_eq.
Qed.

Lemma opened_from (pool : nat → bytes → Prop) k fs e i m :
  e_key e = k → (0 <= e_received e)%Z → (e_received e + Z.of_nat (length fs) < 2 ^ 64)%Z →
  (∀ f j m, f ∈ fs → (1 < length f)%nat → uint 64 (j + 1) → (0 <= j)%Z →
     secretbox_open f (get_nonce (j + 1)) k = Some m → pool (Z.to_nat j) m) →
  opened fs e !! i = Some m → pool (Z.to_nat (e_received e) + i)%nat m.
Proof.
  revert e i. induction fs as [|f fs IH]; intros e i Hk H0 Hl Hp; simpl; [done|].
  assert (∀ e i, e_key e = k → (0 <= e_received e)%Z → (e_received e + Z.of_nat (length fs) < 2 ^ 64)%Z →
            opened fs e !! i = Some m → pool (Z.to_nat (e_received e) + i)%nat m) as IH'.
  { intros. eapply IH; try done. intros f' j m' Hf'. apply Hp. by right. }
  cbn [length] in Hl. destruct (Nat.leb_spec (length f) 1) as [|Hlong]; [by apply IH'; try lia|].
  unfold dec. replace (length f <=? 1)%nat with false by (symmetry; by apply Nat.leb_gt). simpl.
  rewrite wrap_small by (unfold uint; lia).
  destruct (secretbox_open f _ _) as [m0|] eqn:Ho; [|done]. destruct i as [|i]; simpl.
  - intros [= <-]. rewrite Nat.add_0_r. rewrite Hk in Ho. eapply Hp in Ho; try done; [by left|unfold uint; lia].
  - intros Hi. apply IH' in Hi; [|done|simpl; lia..]. simpl in Hi.
    by replace (Z.to_nat (e_received e + 1) + i)%nat with (Z.to_nat (e_received e) + S i)%nat in Hi by lia.
Qed.

(** What the reads of an end deliver, with what arrived, until one ends the
    connection. *)
Fixpoint delivered (xs : list Arrival) (s : Stream) : list (Arrival * bytes) :=
  match xs with
  | [] => []
  | a :: xs =>
      match next a s with
      | (RBytes m, s) => (a, m) :: delivered xs s
      | (RTimeout, s) => delivered xs s
      | (RNone, _) | (RErr _, _) => []
      end
  end.

(** An arrival that carries an encrypted message: a binary frame of more than a byte. *)
Definition sealed (a : Arrival) : bool :=
  match a with Frame f => negb (length f <=? 1)%nat | _ => false end.
Definition frames_of (xs : list Arrival) : list bytes :=
  omap (λ a, match a with Frame f => Some f | _ => None end) xs.
Definition sealed_messages (ds : list (Arrival * bytes)) : list bytes :=
  omap (λ d, if sealed d.1 then Some d.2 else None) ds.

Lemma delivered_opened xs s e :
  f_key s = Some e → sealed_messages (delivered xs s) `prefix_of` opened (frames_of xs) e.
Proof.
  revert s e. induction xs as [|a xs IH]; intros s e He; [done|]. cbn [delivered].
  destruct a as [| |err|f|f]; cbn [next]; try (by apply IH); try apply prefix_nil.
  rewrite He. unfold frames_of. cbn [omap list_omap opened]. fold (frames_of xs).
  destruct (length f <=? 1)%nat eqn:El.
  - unfold dec. rewrite El. cbn. rewrite El. cbn. by apply IH.
  - destruct (dec f e) as [[m|err] e'] eqn:Ed; [|apply prefix_nil]. cbn. rewrite El. cbn.
    apply prefix_cons. by apply IH.
Qed.

(** What was not encrypted is delivered as it is. *)
Lemma delivered_plain xs s a m :
  is_Some (f_key s) → (a, m) ∈ delivered xs s → sealed a = false →
  a = TextFrame m ∨ a = Frame m ∧ (length m <= 1)%nat.
Proof.
  revert s. induction xs as [|b xs IH]; intros s [e He] Hin Ha; [by apply elem_of_nil in Hin|].
  cbn [delivered] in Hin. destruct b as [| |err|f|f]; cbn [next] in Hin; try (by apply elem_of_nil in Hin).
  - by apply (IH s); [eexists|..].
  - rewrite He in Hin. destruct (dec f e) as [[x|err] e'] eqn:Ed; [|by apply elem_of_nil in Hin].
    apply elem_of_cons in Hin as [[= -> ->]|Hin]; [|eapply IH; [|exact Hin|exact Ha]; by eexists].
    cbn in Ha. apply negb_false_iff in Ha. unfold dec in Ed. rewrite Ha in Ed. injection Ed as -> _.
    right. split; [done|]. by apply Nat.leb_le.
  - apply elem_of_cons in Hin as [[= -> ->]|Hin]; [by left|]. by apply (IH s); [eexists|..].
Qed.

(** C6: nothing forged, nothing out of place.  Two ends secured with the same key
    exchange messages while an attacker, who does not hold the key, drops, repeats,
    reorders and invents what arrives (fewer than 2^64 of it).  What an end is given out
    of binary frames of more than one byte: its [i]-th message is the [i]-th message of
    its peer, or the [i]-th of its own, sent back to it; and when its own frames are not
    sent back, the messages it gets are the first ones of its peer, in order.  All else
    that it is given is a text frame of a websocket or a frame of at most one byte,
    which are not encrypted and are delivered as they are. *)
Theorem channel_integrity k mine theirs xs s :
  f_key s = Some (Encrypt_new k) →
  (Z.of_nat (length mine) < 2 ^ 64)%Z → (Z.of_nat (length theirs) < 2 ^ 64)%Z →
  (Z.of_nat (length (frames_of xs)) < 2 ^ 64)%Z →
  let sent ms f := f ∈ (enc_all ms (Encrypt_new k)).1 in
  let forged f := ∀ n, secretbox_open f n k = None in
  let got := sealed_messages (delivered xs s) in
  (∀ f, f ∈ frames_of xs → (1 < length f)%nat → sent theirs f ∨ sent mine f ∨ forged f) →
  (∀ i m, got !! i = Some m → theirs !! i = Some m ∨ mine !! i = Some m)
  ∧ ((∀ f, f ∈ frames_of xs → (1 < length f)%nat → sent theirs f ∨ forged f) → got `prefix_of` theirs)
  ∧ (∀ a m, (a, m) ∈ delivered xs s → sealed a = false → a = TextFrame m ∨ a = Frame m ∧ (length m <= 1)%nat).
Proof.
  intros Hkey Hm Ht Hf sent forged got Hfs. pose proof (delivered_opened xs s _ Hkey) as Hpre. fold got in Hpre.
  set (fs := frames_of xs) in *.
  split_and!; [| |intros a m; apply delivered_plain; by eexists].
  - intros i m Hi. apply (prefix_lookup_Some _ _ _ _ Hi) in Hpre as Hi'. clear Hi. rename Hi' into Hi. apply (opened_from (λ i m, theirs !! i = Some m ∨ mine !! i = Some m) k fs _ i m) in Hi;
      [done|done..|].
    intros f j m' Hin Hlong Hj Hj0 Ho. destruct (Hfs f Hin Hlong) as [H|[H|H]].
    + left. by eapply opens_in_place.
    + right. by eapply opens_in_place.
    + by rewrite H in Ho.
  - intros Hnot. etrans; [exact Hpre|]. apply prefix_of_lookup. intros i m Hi.
    apply (opened_from (λ i m, theirs !! i = Some m) k fs _ i m) in Hi; [done|done..|].
    intros f j m' Hin Hlong Hj Hj0 Ho. destruct (Hnot f Hin Hlong) as [H|H]; [by eapply opens_in_place|].
    by rewrite H in Ho.
Qed.
End Frames.

(** ** What goes wrong *)

Section Wrong.
Context `{N : Nacl}.

(** A frame of at most one byte is taken as it is, without any authentication. *)
Lemma short_frame_accepted data s e :
  f_key s = Some e → (length data <= 1)%nat → next (Frame data) s = (RBytes data, s).
Proof.
  intros Hk Hl. unfold next, dec. rewrite Hk. apply Nat.leb_le in Hl. rewrite Hl.
  destruct s; simpl in *. by subst.
Qed.

(** On a secured websocket a text frame is taken as it is, whatever its length. *)
Lemma text_frame_accepted data s : next (TextFrame data) s = (RBytes data, s).
Proof. done. Qed.

(** Both directions count from one under the same key: what an end sent opens when
    it is sent back. *)
Lemma reflection_accepted `{NL : !NaclLaws N} k m :
  opened [(enc m (Encrypt_new k)).1] (Encrypt_new k) = [m].
Proof.
  cbn [opened]. destruct (dec_enc m (Encrypt_new k) (Encrypt_new k)) as (e & -> & _); [done..|].
  replace (length _ <=? 1)%nat with false; [done|]. symmetry. apply Nat.leb_gt.
  unfold enc. simpl. rewrite secretbox_len. unfold SECRETBOX_MACBYTES. lia.
Qed.
End Wrong.

(** ** Witnesses

    Primitives that tag what they seal with the key and the nonce. *)

Module DemoNacl.
Definition fit (n : nat) (l : bytes) : bytes := take n (l ++ repeat 0%Z n).
Definition tagged (tag m : bytes) : bytes := tag ++ m.
Definition untag (tag c : bytes) : option bytes :=
  if decide (take (length tag) c = tag) then Some (drop (length tag) c) else None.
Definition box_tag (pk sk : bytes) : bytes := zip_with Z.add pk (fit 32 sk).
Definition secret_tag (n k : bytes) : bytes := fit 8 n ++ fit 8 k.

Definition text_bytes (s : string) : bytes := map (λ a, Z.of_nat (nat_of_ascii a)) (list_ascii_of_string s).
Definition bytes_text (l : bytes) : string := string_of_list_ascii (map (λ z, ascii_of_nat (Z.to_nat z)) l).

Lemma untag_tagged tag m : untag tag (tagged tag m) = Some m.
Proof.
  unfold untag, tagged. rewrite take_app_length, drop_app_length. by rewrite decide_True.
Qed.

Lemma zip_add_comm (a b : bytes) : zip_with Z.add a b = zip_with Z.add b a.
Proof. revert b. induction a as [|x a IH]; intros [|y b]; simpl; [done..|]. f_equal; [lia|done]. Qed.

Lemma fit_len n l : length (fit n l) = n.
Proof. unfold fit. rewrite length_take, length_app, repeat_length. lia. Qed.

#[export] Instance nacl : Nacl := {
  sign m sk := tagged (fit 32 sk) m;
  verify c pk := untag pk c;
  sign_pk sk := fit 32 sk;
  box_pk sk := fit 32 sk;
  box_seal m n pk sk := tagged (box_tag pk sk) m;
  box_open c n pk sk := untag (box_tag pk sk) c;
  secretbox_seal m n k := tagged (secret_tag n k) m;
  secretbox_open c n k := untag (secret_tag n k) c;
  decode64 s := Some (fit 32 (text_bytes s))
}.

#[export] Instance nacl_laws : NaclLaws nacl.
Proof.
  split; simpl; intros.
  - apply untag_tagged.
  - replace (box_tag (fit 32 skA) skB) with (box_tag (fit 32 skB) skA); [apply untag_tagged|].
    apply zip_add_comm.
  - apply untag_tagged.
  - unfold tagged, secret_tag. rewrite !length_app, !fit_len. unfold SECRETBOX_MACBYTES. lia.
  - assert (∀ n l, Forall is_byte l → Forall is_byte (fit n l)) as Hfit.
    { intros a l Hl. apply Forall_take, Forall_app. split; [done|]. apply Forall_forall.
      intros b Hb%list_elem_of_In%repeat_spec. subst. unfold is_byte. lia. }
    unfold tagged, secret_tag. repeat (apply Forall_app; split); auto.
  - apply fit_len.
Qed.

#[export] Instance nacl_ideal : NaclIdeal nacl.
Proof.
  split; [apply _|..]; cbn [secretbox_seal secretbox_open nacl].
  - unfold untag, tagged. intros c n k m. case_decide as E; [|done]. intros [= <-].
    by rewrite <- E at 1; rewrite take_drop.
  - intros m i m' j k Hi Hj. unfold tagged, secret_tag. rewrite <- !app_assoc.
    intros E. apply app_inj_1 in E as [E _]; [|by rewrite !fit_len].
    assert (∀ z, fit 8 (get_nonce z) = le_bytes 8 z) as Hf by done. rewrite !Hf in E.
    unfold uint in *. rewrite <- (le_val_bytes 8 i), <- (le_val_bytes 8 j) by (simpl; lia). by rewrite E.
Qed.

(** Messages as a tag, the length of the first part, and the parts. *)
Definition pair_bytes (a b : bytes) : bytes := Z.of_nat (length a) :: a ++ b.
Definition pair_parse (l : bytes) : option (bytes * bytes) :=
  match l with n :: l => Some (take (Z.to_nat n) l, drop (Z.to_nat n) l) | [] => None end.
Fixpoint keys_parse (n : nat) (l : bytes) : list bytes :=
  match n, pair_parse l with
  | S n, Some (k, l) => k :: keys_parse n l
  | _, _ => []
  end.

Lemma pair_roundtrip a b : pair_parse (pair_bytes a b) = Some (a, b).
Proof. simpl. by rewrite Nat2Z.id, take_app_length, drop_app_length. Qed.

#[export] Instance wire : Wire := {
  hello_bytes h :=
    match h with
    | NoUnion => []
    | SignedId id => 1%Z :: id
    | PublicKey a s => 2%Z :: pair_bytes a s
    | OtherHello => [3%Z]
    end;
  hello_parse l :=
    match l with
    | [] => Some NoUnion
    | 1%Z :: id => Some (SignedId id)
    | 2%Z :: l => ' (a, s) ← pair_parse l; Some (PublicKey a s)
    | _ => Some OtherHello
    end;
  id_pk_bytes id pk := pair_bytes (text_bytes id) pk;
  id_pk_parse l := ' (id, pk) ← pair_parse l; Some (bytes_text id, pk);
  rs_bytes r :=
    match r with
    | KeyExchange keys => Z.of_nat (length keys) :: foldr pair_bytes [] keys
    | OtherRs => [(-1)%Z]
    end;
  rs_parse l :=
    match l with
    | n :: l => if (n <? 0)%Z then Some OtherRs else Some (KeyExchange (keys_parse (Z.to_nat n) l))
    | [] => None
    end
}.

Lemma text_roundtrip s : bytes_text (text_bytes s) = s.
Proof.
  induction s as [|a s IH]; [done|]. unfold bytes_text, text_bytes in *. simpl in *.
  by rewrite IH, Nat2Z.id, ascii_nat_embedding.
Qed.

#[export] Instance wire_laws : WireLaws wire.
Proof.
  split.
  - intros [|id|a s|] Hh; try done. cbn [hello_parse hello_bytes wire]. by rewrite pair_roundtrip.
  - intros id pk. cbn [id_pk_parse id_pk_bytes wire]. rewrite pair_roundtrip. simpl. by rewrite text_roundtrip.
  - intros keys. cbn [rs_parse rs_bytes wire].
    replace (Z.of_nat (length keys) <? 0)%Z with false by (symmetry; apply Z.ltb_ge; lia).
    rewrite Nat2Z.id. do 2 f_equal. induction keys as [|k keys IH]; [done|].
    cbn [length foldr keys_parse]. rewrite pair_roundtrip. by f_equal.
Qed.

Definition seed (n : nat) (z : Z) : bytes := repeat z n.
Definition fresh : Fresh := mkFresh (seed 32 5) (seed 32 9).
Definition msgs : list bytes := [[1; 2; 3]; []; [255]]%Z.
Definition secured : Stream := mkStream false (Some (Encrypt_new (seed 32 9))) [] None.
Definition frames (ms : list bytes) : list bytes := (enc_all ms (Encrypt_new (seed 32 9))).1.
Definition wire_stream : list Z := (encode_all new (frames msgs) []).2.
End DemoNacl.
Import (hints) DemoNacl.
#[local] Existing Instance Toy.toy_crypto.

Lemma handshake_agrees_witness :
  let sk := DemoNacl.seed 64 7 in
  ∃ hello answer sc' sh',
    secure_connection DemoNacl.fresh "host" (sign (id_pk_bytes "host" (sign_pk sk)) (DemoNacl.text_bytes "k"))
      "k" (Frame hello) (new_stream false) = (Ok (Some (sign_pk sk)), sc')
    ∧ create_tcp_connection Toy.machine (λ _, 0%Z) (DemoNacl.seed 32 6) "host" sk (sign_pk sk) true (Frame answer) (new_stream true)
        (cfg_store Toy.machine (λ _, 0%Z) Config_default) = (Ok (), sh', cfg_store Toy.machine (λ _, 0%Z) Config_default)
    ∧ f_sent sh' = [hello] ∧ f_sent sc' = [answer]
    ∧ f_key sc' = Some (Encrypt_new (DemoNacl.seed 32 9)) ∧ f_key sh' = f_key sc'.
Proof.
  intros sk.
  destruct (handshake_agrees Toy.machine (λ _, 0%Z) DemoNacl.fresh (DemoNacl.seed 32 6) "host" sk (DemoNacl.text_bytes "k") "k"
              (new_stream false) (new_stream true) (cfg_store Toy.machine (λ _, 0%Z) Config_default))
    as (hello & answer & sc' & sh' & H1 & H2 & H3 & H4 & H5 & H6); try reflexivity; [discriminate|].
  exists hello, answer, sc', sh'. split_and!; try assumption. by rewrite H6.
Defined.

Lemma secure_stream_roundtrip_witness :
  ∃ frames, feed_chunks new [] [take 5 DemoNacl.wire_stream; drop 5 DemoNacl.wire_stream] = Some (Ok frames, new, [])
  ∧ read_all frames DemoNacl.secured = map RBytes DemoNacl.msgs.
Proof.
  refine (secure_stream_roundtrip DemoNacl.msgs DemoNacl.secured _ DemoNacl.secured _ DemoNacl.wire_stream _
            eq_refl eq_refl eq_refl eq_refl eq_refl eq_refl _ _ _ _ _).
  - repeat constructor; vm_compute; congruence.
  - repeat constructor; vm_compute; congruence.
  - repeat constructor; vm_compute; congruence.
  - vm_compute. reflexivity.
  - vm_compute. reflexivity.
Defined.

Lemma channel_integrity_witness :
  let theirs := [[1; 2]; [3]]%Z in
  let xs := [TextFrame [8; 8]; Frame [7]; Frame (DemoNacl.frames theirs !!! 0%nat); Elapsed; Frame [9; 9; 9]]%Z in
  sealed_messages (delivered xs DemoNacl.secured) `prefix_of` theirs
  ∧ (delivered xs DemoNacl.secured).*2 = [[8; 8]; [7]; [1; 2]]%Z.
Proof.
  intros theirs xs. split; [|vm_compute; reflexivity].
  assert (∀ f, f ∈ frames_of xs → (1 < length f)%nat →
    f ∈ (enc_all theirs (Encrypt_new (DemoNacl.seed 32 9))).1
    ∨ ∀ n, secretbox_open f n (DemoNacl.seed 32 9) = None) as H.
  { intros f Hf Hl. unfold xs in Hf. cbn in Hf. rewrite !elem_of_cons in Hf. destruct Hf as [->|[->|[->|Hf]]].
    - simpl in Hl. lia.
    - left. vm_compute. left.
    - right. intros n. simpl. unfold DemoNacl.untag. rewrite decide_False; [done|].
      intros E. apply (f_equal length) in E. rewrite length_take in E.
      unfold DemoNacl.secret_tag in E. rewrite length_app, !DemoNacl.fit_len in E. simpl in E. lia.
    - by apply elem_of_nil in Hf. }
  refine (proj1 (proj2 (channel_integrity (DemoNacl.seed 32 9) [] theirs xs DemoNacl.secured _ _ _ _ _)) H).
  - vm_compute. reflexivity.
  - vm_compute. reflexivity.
  - vm_compute. reflexivity.
  - vm_compute. reflexivity.
  - intros f Hf Hl. destruct (H f Hf Hl); auto.
Defined.
