(* ===== verification/HostPort.v ===== *)
(** * Addresses with ports as text

    [libs/hbb_common/src/lib.rs]: the patterns that recognise IPv4, IPv6 and
    domain addresses, ids and the version in a download link;
    [libs/hbb_common/src/socket_client.rs]: putting a port on a host, taking it
    off and moving it.  The patterns are those of the source over a small
    executable regular-expression matcher; [\d], [\w] and case folding are the
    ASCII ones, so the definitions speak of ASCII text. *)

From S2P Require Import Prelude Strs.
From Stdlib Require Import Ascii String.

Local Open Scope list_scope.
#[local] Abbreviation length := Datatypes.length.
#[local] Arguments String.append _ _ : simpl nomatch.

(** ** Regular expressions *)

Inductive re :=
| Void | Eps
| Cls (p : ascii → bool)
| Seq (a b : re) | Alt (a b : re) | Star (a : re).

Fixpoint nullable (r : re) : bool :=
  match r with
  | Void | Cls _ => false
  | Eps | Star _ => true
  | Seq a b => nullable a && nullable b
  | Alt a b => nullable a || nullable b
  end.

(** What is left to match after one character. *)
Fixpoint deriv (c : ascii) (r : re) : re :=
  match r with
  | Void | Eps => Void
  | Cls p => if p c then Eps else Void
  | Seq a b => if nullable a then Alt (Seq (deriv c a) b) (deriv c b) else Seq (deriv c a) b
  | Alt a b => Alt (deriv c a) (deriv c b)
  | Star a => Seq (deriv c a) (Star a)
  end.

(** [^r$] on the whole text. *)
Fixpoint matches (r : re) (s : string) : bool :=
  match s with
  | EmptyString => nullable r
  | String c s => matches (deriv c r) s
  end.

Definition ch (a : ascii) : re := Cls (Ascii.eqb a).
Definition range (lo hi : ascii) (c : ascii) : bool :=
  bool_decide (nat_of_ascii lo ≤ nat_of_ascii c)%nat && bool_decide (nat_of_ascii c ≤ nat_of_ascii hi)%nat.
Definition digit : ascii → bool := range "0" "9".
Definition lower : ascii → bool := range "a" "z".
Definition letter (c : ascii) : bool := lower c || range "A" "Z" c.
Definition hex (c : ascii) : bool := range "a" "f" c || range "A" "F" c || digit c.
Definition word (c : ascii) : bool := letter c || digit c || Ascii.eqb "_" c.

Fixpoint seq_all (l : list re) : re := match l with [] => Eps | [r] => r | r :: l => Seq r (seq_all l) end.
Fixpoint alt_all (l : list re) : re := match l with [] => Void | [r] => r | r :: l => Alt r (alt_all l) end.
Definition opt (r : re) : re := Alt Eps r.
Definition plus (r : re) : re := Seq r (Star r).
(** [r{0,n}] and [r{m,n}]. *)
Fixpoint upto (n : nat) (r : re) : re := match n with O => Eps | S n => opt (Seq r (upto n r)) end.
Fixpoint rep (m n : nat) (r : re) : re :=
  match m with O => upto n r | S m => Seq r (rep m (n - 1) r) end.

(** *** The patterns *)

(** [25[0-5]|2[0-4][0-9]|[01]?[0-9][0-9]?] *)
Definition re_octet : re :=
  alt_all [seq_all [ch "2"; ch "5"; Cls (range "0" "5")];
           seq_all [ch "2"; Cls (range "0" "4"); Cls digit];
           seq_all [opt (Cls (range "0" "1")); Cls digit; opt (Cls digit)]].

Definition re_port : re := Seq (ch ":") (plus (Cls digit)).

Definition re_ipv4 : re :=
  seq_all [re_octet; ch "."; re_octet; ch "."; re_octet; ch "."; re_octet; opt re_port].

(** [([a-fA-F0-9]{1,4}:{1,2})+[a-fA-F0-9]{1,4}] *)
Definition re_v6_host : re :=
  Seq (plus (Seq (rep 1 4 (Cls hex)) (rep 1 2 (ch ":")))) (rep 1 4 (Cls hex)).

Definition re_ipv6 : re :=
  Alt re_v6_host
      (seq_all [ch "["; re_v6_host; ch "]"; ch ":"; plus (Cls digit)]).

(** [(?i)^([a-z0-9]([a-z0-9-]{0,61}[a-z0-9])?\.)+[a-z][a-z-]{0,61}[a-z]:\d{1,5}$] *)
Definition alnum (c : ascii) : bool := letter c || digit c.
Definition dash (p : ascii → bool) (c : ascii) : bool := p c || Ascii.eqb "-" c.
Definition re_domain : re :=
  seq_all [plus (seq_all [Cls alnum; opt (Seq (upto 61 (Cls (dash alnum))) (Cls alnum)); ch "."]);
           Cls letter; upto 61 (Cls (dash letter)); Cls letter; ch ":"; rep 1 5 (Cls digit)].

Definition is_ipv4_str (id : string) : bool := matches re_ipv4 id.
Definition is_ipv6_str (id : string) : bool := matches re_ipv6 id.
Definition is_ip_str (id : string) : bool := is_ipv4_str id || is_ipv6_str id.
Definition is_domain_port_str (id : string) : bool := matches re_domain id.

(** [^[a-zA-Z][\w-]{5,15}$] *)
Definition is_valid_custom_id (id : string) : bool :=
  matches (Seq (Cls letter) (rep 5 15 (Cls (dash word)))) id.

(** ** Ports *)

(** [host.split("]:")]. *)
Fixpoint split_on2 (c d : ascii) (s : string) : list string :=
  match s with
  | EmptyString => [EmptyString]
  | String a s' =>
      match s' with
      | String b s'' =>
          if Ascii.eqb a c && Ascii.eqb b d then EmptyString :: split_on2 c d s''
          else match split_on2 c d s' with
               | [] => [String a EmptyString]
               | p :: ps => String a p :: ps
               end
      | EmptyString => [String a EmptyString]
      end
  end.

Definition check_port (host : string) (port : Z) : string :=
  if is_ipv6_str host then
    if starts_with "[" host then host else ("[" ++ host ++ "]:" ++ show_Z port)%string
  else if negb (contains_char ":" host) then (host ++ ":" ++ show_Z port)%string
  else host.

(** [x.parse::<i32>().unwrap_or(0)]. *)
Definition port_of (s : string) : Z := default 0%Z (parse_i32 s).

(** The two pieces around the separator, when the port parses and is positive. *)
Definition port_parts (tmp : list string) : option (string * Z) :=
  match tmp with
  | [h; p] => let port := port_of p in if (0 <? port)%Z then Some (h, port) else None
  | _ => None
  end.

Definition increase_port (host : string) (offset : Z) : string :=
  if is_ipv6_str host then
    if starts_with "[" host then
      match port_parts (split_on2 "]" ":" host) with
      | Some (h, port) => (h ++ "]:" ++ show_Z (swrap 32 (port + offset)))%string
      | None => host
      end
    else host
  else if contains_char ":" host then
    match port_parts (split_on ":" host) with
    | Some (h, port) => (h ++ ":" ++ show_Z (swrap 32 (port + offset)))%string
    | None => host
    end
  else host.

Definition split_host_port (host : string) : option (string * Z) :=
  if is_ipv6_str host then
    if starts_with "[" host then
      '(h, port) ← port_parts (split_on2 "]" ":" host); Some ((h ++ "]")%string, port)
    else None
  else if contains_char ":" host then port_parts (split_on ":" host)
  else None.

(** [addr.replace(from, to)]: every occurrence, left to right. *)
Fixpoint replace_go (fuel : nat) (from to s : string) : string :=
  match fuel with
  | O => s
  | S fuel =>
      match s with
      | EmptyString => EmptyString
      | String a s' => match strip_prefix from s with
                       | Some r => (to ++ replace_go fuel from to r)%string
                       | None => String a (replace_go fuel from to s')
                       end
      end
  end.
Definition replace (from to s : string) : string := replace_go (S (str_len s)) from to s.

Definition ipv4_to_ipv6 (addr : string) (ipv4 : bool) : string :=
  if negb ipv4 && is_ipv4_str addr then
    match split_on ":" addr with
    | ip :: _ => replace ip (ip ++ ".nip.io")%string addr
    | [] => addr
    end
  else addr.

(** The version at the end of a download link: after the last dash, without
    a file extension that is not a number. *)
Fixpoint position (c : ascii) (s : string) : option nat :=
  match s with
  | EmptyString => None
  | String a s => if Ascii.eqb a c then Some O else S <$> position c s
  end.
Fixpoint skip (n : nat) (s : string) : string :=
  match n, s with S n, String _ s => skip n s | _, _ => s end.
Fixpoint take_str (n : nat) (s : string) : string :=
  match n, s with S n, String a s => String a (take_str n s) | _, _ => EmptyString end.

Definition get_version_from_url (url : string) : string :=
  let n := str_len url in
  match position "-" (rev_string url), position "." (rev_string url) with
  | Some a, Some b =>
      if (b <? a)%nat then
        match parse_i32 (skip (n - b) url) with
        | Some _ => skip (n - a) url
        | None => take_str (a - b - 1) (skip (n - a) url)
        end
      else skip (n - a) url
  | _, _ => EmptyString
  end.

(** *** The source's own examples *)

Lemma pattern_examples :
  map is_ipv6_str ["1:2:3"; "[ab:2:3]:12"; "[ABEF:2a:3]:12"; "[ABEG:2a:3]:12"; "1[ab:2:3]:12";
                   "1.1.1.1"; "1:2:"; "1:2::0"; "[1:2::0]:1"; "[1:2::0]:"; "1:2::0]:1"]%string
  = [true; true; true; false; false; false; false; true; true; false; false]
  ∧ map is_ipv4_str ["1.2.3.4"; "1.2.3.4:90"; "192.168.0.1"; "0.0.0.0"; "255.255.255.255";
                     "256.0.0.0"; "1:2:"; "192.168.0.256"; "192.168.0.1/24"; "192.168.0."; "192.168..1"]%string
    = [true; true; true; true; true; false; false; false; false; false; false]
  ∧ map is_domain_port_str ["a:12"; "a.b.c:12"; "test.com:12"; "test-UPPER.com:12";
                     "some-other.domain.com:12"; "under_score:12"; "1.1.1.1:12"; "a.b.c:123456"; "---:12"; ".:12"]%string
    = [false; false; true; true; true; false; false; false; false; false]
  ∧ map get_version_from_url ["https://x/luoda-1.2.3"; "https://x/luoda-1.2.3.exe"; "a.b-c"; "a"]%string
    = ["1.2.3"; "1.2.3"; "c"; ""]%string.
Proof. vm_compute. split_and!; reflexivity. Qed.

(** ** What the matcher matches *)

Lemma matches_void s : matches Void s = false.
Proof. induction s; done. Qed.

Lemma matches_eps s : matches Eps s = true ↔ s = EmptyString.
Proof. destruct s; simpl; [done|]. by rewrite matches_void. Qed.

Lemma matches_alt a b s : matches (Alt a b) s = matches a s || matches b s.
Proof. revert a b. induction s as [|c s IH]; intros a b; simpl; [done|apply IH]. Qed.

Lemma matches_cls p s : matches (Cls p) s = true ↔ ∃ c, s = String c EmptyString ∧ p c = true.
Proof.
  destruct s as [|c s]; simpl; [split; [done|naive_solver]|].
  destruct (p c) eqn:E; [rewrite matches_eps|rewrite matches_void]; naive_solver.
Qed.

Lemma matches_seq a b s :
  matches (Seq a b) s = true ↔ ∃ u v, s = (u ++ v)%string ∧ matches a u = true ∧ matches b v = true.
Proof.
  revert a b. induction s as [|c s IH]; intros a b.
  - simpl. rewrite andb_true_iff. split.
    + intros [Ha Hb]. by exists EmptyString, EmptyString.
    + intros (u & v & E & Ha & Hb). by destruct u, v.
  - cbn [matches deriv]. split.
    + destruct (nullable a) eqn:En.
      * rewrite matches_alt, orb_true_iff, IH. intros [(u & v & -> & Ha & Hb)|Hb].
        -- by exists (String c u), v.
        -- by exists EmptyString, (String c s).
      * rewrite IH. intros (u & v & -> & Ha & Hb). by exists (String c u), v.
    + intros ([|c' u] & v & E & Ha & Hb).
      * cbn in E. subst v. cbn in Ha. rewrite Ha, matches_alt. cbn [matches] in Hb. by rewrite Hb, orb_true_r.
      * change (String c s = String c' (u ++ v)) in E. injection E as <- ->.
        assert (matches (Seq (deriv c a) b) (u ++ v) = true) as Hs by (apply IH; by exists u, v).
        destruct (nullable a); [by rewrite matches_alt, Hs|exact Hs].
Qed.

Lemma matches_star a s :
  matches (Star a) s = true →
  s = EmptyString ∨ ∃ c u v, s = String c (u ++ v) ∧ matches a (String c u) = true ∧ matches (Star a) v = true.
Proof.
  destruct s as [|c s]; [by left|]. cbn [matches deriv]. rewrite matches_seq.
  intros (u & v & -> & Ha & Hv). right. by exists c, u, v.
Qed.

(** The characters a pattern can hold. *)
Fixpoint chars_of (r : re) (c : ascii) : bool :=
  match r with
  | Void | Eps => false
  | Cls p => p c
  | Seq a b | Alt a b => chars_of a c || chars_of b c
  | Star a => chars_of a c
  end.

Definition all_chars (p : ascii → bool) (s : string) : Prop :=
  Forall (λ c, p c = true) (list_ascii_of_string s).

Lemma all_chars_app p a b : all_chars p (a ++ b) ↔ all_chars p a ∧ all_chars p b.
Proof. unfold all_chars. by rewrite list_ascii_app, Forall_app. Qed.

Lemma all_chars_impl (p q : ascii → bool) s :
  (∀ c, p c = true → q c = true) → all_chars p s → all_chars q s.
Proof. intros H Hs. eapply List.Forall_impl; [|exact Hs]. intros c Hc. by apply H. Qed.

Lemma matches_chars r s : matches r s = true → all_chars (chars_of r) s.
Proof.
  revert s. induction r as [| |p|a IHa b IHb|a IHa b IHb|a IHa]; intros s H.
  - by rewrite matches_void in H.
  - apply matches_eps in H as ->. constructor.
  - apply matches_cls in H as (c & -> & H). by repeat constructor.
  - apply matches_seq in H as (u & v & -> & Ha & Hb). apply all_chars_app. split.
    + eapply all_chars_impl; [|by apply IHa]. intros c Hc. cbn. by rewrite Hc.
    + eapply all_chars_impl; [|by apply IHb]. intros c Hc. cbn. by rewrite Hc, orb_true_r.
  - rewrite matches_alt, orb_true_iff in H. destruct H as [H|H].
    + eapply all_chars_impl; [|by apply IHa]. intros c Hc. cbn. by rewrite Hc.
    + eapply all_chars_impl; [|by apply IHb]. intros c Hc. cbn. by rewrite Hc, orb_true_r.
  - remember (str_len s) as n eqn:Hn. revert s Hn H.
    induction (lt_wf n) as [n _ IH]; intros s Hn H.
    apply matches_star in H as [->|(c & u & v & -> & Ha & Hv)]; [constructor|].
    change (String c (u ++ v)) with (String c u ++ v)%string. apply all_chars_app.
    split; [by apply IHa|]. apply (IH (str_len v)); [|done|done].
    subst n. change (str_len (String c (u ++ v))) with (S (str_len (u ++ v))).
    rewrite str_len_app. lia.
Qed.

(** ** Ports on and off *)

(** A character no IPv6 endpoint holds: a dot, a dash, a letter past f. *)
Definition not_v6 (c : ascii) : bool :=
  negb (hex c || Ascii.eqb c ":" || Ascii.eqb c "[" || Ascii.eqb c "]").

Fixpoint exists_char (p : ascii → bool) (s : string) : bool :=
  match s with EmptyString => false | String c s => p c || exists_char p s end.

Lemma exists_char_app p a b : exists_char p (a ++ b) = exists_char p a || exists_char p b.
Proof.
  induction a as [|x a IH]; [done|].
  change (p x || exists_char p (a ++ b) = p x || exists_char p a || exists_char p b).
  by rewrite IH, orb_assoc.
Qed.

Lemma all_chars_exists p q s :
  (∀ c, p c = true → q c = true → False) → all_chars p s → exists_char q s = false.
Proof.
  intros H. unfold all_chars. induction s as [|c s IH]; [done|].
  intros [Hc Hs]%Forall_cons. cbn [exists_char]. rewrite (IH Hs), orb_false_r.
  destruct (q c) eqn:E; [|done]. exfalso. by apply (H c).
Qed.

Lemma v6_chars c : chars_of re_ipv6 c = true → not_v6 c = true → False.
Proof.
  intros Hc. unfold not_v6. rewrite negb_true_iff, !orb_false_iff.
  intros (((Hh & H1) & H2) & H3). unfold re_ipv6, re_v6_host, plus, ch in Hc.
  cbn [chars_of rep upto opt seq_all Nat.sub] in Hc.
  assert (digit c = false) as Hd by (unfold hex in Hh; by apply orb_false_iff in Hh as [_ ?]).
  rewrite Ascii.eqb_sym in H1. rewrite Ascii.eqb_sym in H2. rewrite Ascii.eqb_sym in H3.
  by rewrite Hh, H1, H2, H3, Hd in Hc.
Qed.

Lemma not_ipv6 s : exists_char not_v6 s = true → is_ipv6_str s = false.
Proof.
  intros H. destruct (is_ipv6_str s) eqn:E; [|done].
  apply matches_chars in E. by rewrite (all_chars_exists _ _ _ v6_chars E) in H.
Qed.

Lemma v6_host_no_char c s :
  matches re_v6_host s = true → Ascii.eqb c ":" = false → hex c = false → contains_char c s = false.
Proof.
  intros H Hc Hh. apply matches_chars in H.
  assert (exists_char (λ a, Ascii.eqb a c) s = false) as He.
  { eapply all_chars_exists; [|exact H]. intros a Ha E. apply Ascii.eqb_eq in E as ->.
    unfold re_v6_host, plus, ch in Ha. cbn [chars_of rep upto opt Nat.sub] in Ha.
    rewrite Ascii.eqb_sym in Hc. by rewrite Hh, Hc in Ha. }
  clear -He. induction s as [|a s IH]; [done|]. cbn [contains_char exists_char] in *.
  apply orb_false_iff in He as [-> Hs]. by rewrite IH.
Qed.

Lemma split_on2_none c d s : contains_char c s = false → split_on2 c d s = [s].
Proof.
  induction s as [|a s IH]; [done|]. cbn [contains_char split_on2].
  intros [Ha Hs]%orb_false_iff. destruct s as [|b s]; [done|]. rewrite Ha. cbn [andb].
  by rewrite (IH Hs).
Qed.

Lemma split_on2_app c d a b : contains_char c a = false → c ≠ d →
  split_on2 c d (a ++ String c (String d b)) = a :: split_on2 c d b.
Proof.
  intros Ha Hne. induction a as [|x a IH].
  - cbn [String.append split_on2]. by rewrite !Ascii.eqb_refl.
  - cbn [contains_char] in Ha. apply orb_false_iff in Ha as [Hx Ha]. specialize (IH Ha).
    change (split_on2 c d (String x (a ++ String c (String d b))) = String x a :: split_on2 c d b).
    destruct (a ++ String c (String d b))%string as [|y r] eqn:E; [by destruct a|].
    cbn [split_on2] in IH |- *. rewrite Hx. cbn [andb]. by rewrite IH.
Qed.

Lemma port_of_show p : (0 <= p < 2 ^ 31)%Z → port_of (show_Z p) = p.
Proof. intros H. unfold port_of, parse_i32. by rewrite parse_show_Z by lia. Qed.

Lemma digit_char_ok d : (0 <= d < 10)%Z → digit (digit_char d) = true.
Proof.
  intros H. unfold digit, range, digit_char. rewrite nat_ascii_embedding by lia.
  rewrite !bool_decide_true; [done| |]; change (nat_of_ascii "0") with 48%nat;
    change (nat_of_ascii "9") with 57%nat; lia.
Qed.

Lemma star_digits s : all_chars digit s → matches (Star (Cls digit)) s = true.
Proof.
  induction s as [|c s IH]; [done|]. intros [Hc Hs]%Forall_cons.
  cbn [matches deriv]. rewrite Hc. apply matches_seq. exists EmptyString, s. split_and!; [done..|by apply IH].
Qed.

Lemma plus_digits s : s ≠ EmptyString → all_chars digit s → matches (plus (Cls digit)) s = true.
Proof.
  destruct s as [|c s]; [done|]. intros _ [Hc Hs]%Forall_cons. apply matches_seq.
  exists (String c EmptyString), s. split_and!; [done| |by apply star_digits].
  apply matches_cls. by exists c.
Qed.

Lemma show_digits_digit fuel n : (0 <= n)%Z → all_chars digit (show_digits fuel n EmptyString).
Proof.
  revert n. induction fuel as [|fuel IH]; intros n Hn; [constructor|]. cbn [show_digits].
  assert (all_chars digit (String (digit_char (n mod 10)) EmptyString)) as Hd.
  { repeat constructor. apply digit_char_ok. apply Z.mod_pos_bound. lia. }
  destruct (n <? 10)%Z; [done|]. rewrite show_digits_acc. apply all_chars_app. split; [|done].
  apply IH. apply Z.div_pos; lia.
Qed.

Lemma show_Z_digits n : (0 <= n)%Z → all_chars digit (show_Z n) ∧ show_Z n ≠ EmptyString.
Proof.
  intros Hn. unfold show_Z. destruct (Z.ltb_spec n 0); [lia|]. split; [by apply show_digits_digit|].
  intros E. pose proof (parse_show_Z true 0 n n) as Hp. unfold show_Z in Hp.
  destruct (Z.ltb_spec n 0); [lia|]. rewrite E in Hp. specialize (Hp Hn ltac:(lia)). discriminate.
Qed.

Lemma bracketed_ipv6 h p : matches re_v6_host h = true → (0 <= p)%Z →
  is_ipv6_str ("[" ++ h ++ "]:" ++ show_Z p) = true.
Proof.
  intros Hh Hp. destruct (show_Z_digits p Hp) as [Hd Hne].
  unfold is_ipv6_str, re_ipv6. rewrite matches_alt. apply orb_true_iff. right.
  cbn [seq_all]. apply matches_seq. exists "["%string, (h ++ "]:" ++ show_Z p)%string.
  split_and!; [done|done|]. apply matches_seq. exists h, ("]:" ++ show_Z p)%string.
  split_and!; [done|done|]. apply matches_seq. exists "]"%string, (":" ++ show_Z p)%string.
  split_and!; [done|done|]. apply matches_seq. exists ":"%string, (show_Z p).
  split_and!; [done|done|by apply plus_digits].
Qed.

(** A raw IPv6 address is not bracketed. *)
Lemma raw_v6_host h : is_ipv6_str h = true → starts_with "[" h = false → matches re_v6_host h = true.
Proof.
  unfold is_ipv6_str, re_ipv6. rewrite matches_alt, orb_true_iff. intros [H|H] Hs; [done|].
  cbn [seq_all] in H. apply matches_seq in H as (u & v & -> & Hu & _).
  apply matches_cls in Hu as (c & -> & Hc). apply Ascii.eqb_eq in Hc as <-.
  assert (starts_with "[" ("[" ++ v) = true) by (apply starts_with_spec; by exists v). congruence.
Qed.

Lemma show_no_sep p c : (0 <= p)%Z → digit_val c = None → contains_char c (show_Z p) = false.
Proof. intros. by apply show_Z_no_char. Qed.

(** Putting a port on a host, taking it off and moving it agree, for host
    names and IPv4 addresses (which hold a character no IPv6 address has) and
    for IPv6 addresses, which get brackets: the host and port come back
    exactly, adding a port to an address that has one changes nothing, and
    moving the port gives the address with the moved port. *)
Lemma endpoint_roundtrip host port offset other :
  (0 < port)%Z → (0 <= port + offset < 2 ^ 31)%Z → (port < 2 ^ 31)%Z →
  let v6 := is_ipv6_str host in
  (if v6 then starts_with "[" host = false
   else contains_char ":" host = false ∧ exists_char not_v6 host = true) →
  let ep := check_port host port in
  split_host_port ep = Some (if v6 then ("[" ++ host ++ "]")%string else host, port)
  ∧ check_port ep other = ep
  ∧ increase_port ep offset = check_port host (port + offset).
Proof.
  intros Hp Ho Hlt. cbn zeta. destruct (is_ipv6_str host) eqn:E6.
  - intros Hs. pose proof (raw_v6_host host E6 Hs) as Hh.
    unfold check_port at 1 3 4 5. rewrite E6, Hs.
    assert (is_ipv6_str ("[" ++ host ++ "]:" ++ show_Z port) = true) as H6
      by (apply bracketed_ipv6; [done|lia]).
    assert (∀ r, starts_with "[" ("[" ++ r) = true) as Hb by (intros r; apply starts_with_spec; by exists r).
    assert (contains_char "]" ("[" ++ host) = false) as Hn.
    { change (contains_char "]" host = false). by apply v6_host_no_char. }
    assert (split_on2 "]" ":" ("[" ++ host ++ "]:" ++ show_Z port)
            = ["[" ++ host; show_Z port]%string) as Hsp.
    { rewrite (string_app_assoc "[" host). rewrite <- (split_on2_none "]" ":" (show_Z port)).
      - by apply (split_on2_app "]" ":" ("[" ++ host)).
      - apply show_no_sep; [lia|done]. }
    unfold split_host_port, increase_port, check_port. rewrite H6, Hb, Hsp.
    unfold port_parts. rewrite port_of_show by lia. rewrite (proj2 (Z.ltb_lt _ _) Hp).
    cbn [mbind option_bind]. rewrite swrap_small by (unfold sint; lia).
    rewrite ?E6, ?Hs. split_and!; [by rewrite (string_app_assoc "[" host)|done|by rewrite (string_app_assoc "[" host)].
  - intros [Hc Hx]. unfold check_port at 1 3 4 5. rewrite E6, Hc. cbn [negb].
    assert (is_ipv6_str (host ++ ":" ++ show_Z port) = false) as H6
      by (apply not_ipv6; by rewrite exists_char_app, Hx).
    assert (contains_char ":" (host ++ ":" ++ show_Z port) = true) as Hcc
      by (by rewrite !contains_char_app, Hc).
    assert (split_on ":" (host ++ ":" ++ show_Z port) = [host; show_Z port]) as Hsp.
    { rewrite <- (split_on_none ":" (show_Z port)) by (apply show_no_sep; [lia|done]).
      by apply split_on_app. }
    unfold split_host_port, increase_port, check_port. rewrite H6, Hcc, Hsp.
    unfold port_parts. rewrite port_of_show by lia. rewrite (proj2 (Z.ltb_lt _ _) Hp).
    rewrite ?E6, ?Hc. cbn [negb]. rewrite swrap_small by (unfold sint; lia). done.
Qed.

Lemma endpoint_roundtrip_witness :
  split_host_port (check_port "fe80::1" 21116) = Some ("[fe80::1]"%string, 21116%Z)
  ∧ increase_port (check_port "rev.dicad.cn" 21116) 2 = "rev.dicad.cn:21118"%string.
Proof.
  split.
  - exact (proj1 (endpoint_roundtrip "fe80::1" 21116 0 0 eq_refl ltac:(lia) eq_refl eq_refl)).
  - rewrite (proj2 (proj2 (endpoint_roundtrip "rev.dicad.cn" 21116 2 0 eq_refl ltac:(lia) eq_refl
               (conj eq_refl eq_refl)))). reflexivity.
Defined.

(** A host name of hexadecimal digits with its port is taken for an IPv6
    address, and gets brackets and a second port. *)
Lemma hex_host_misread :
  check_port "cafe:8000" 21116 = "[cafe:8000]:21116"%string
  ∧ split_host_port "cafe:8000" = None.
Proof. split; vm_compute; reflexivity. Qed.
