(* ===== verification/Rendezvous.v ===== *)
(** * Registration with the rendezvous server

    [src/rendezvous_mediator.rs]: how a host keeps itself known to its rendezvous
    server.  The loop over UDP ([start_udp]) sends a registration, measures the
    answers, waits longer when they fail to come, and gives up for TCP
    ([start_tcp]); a host first registers its public key, and its id only once the
    key is confirmed; a mismatch of its machine identity makes it draw a new id.
    Then what the server asks of it: to be reached through a relay, a punched hole
    or the local network.  [src/rendezvous_transport.rs] chooses the transport;
    the direct server listens for peers that know the address.

    [RzNet] is what the mediators of a process share; [Udp] and [Tcp] the locals of
    the two loops, whose [select!] branches are steps.  A clock is in nanoseconds;
    [Instant::elapsed] saturates at zero.  Opening sockets is I/O: its outcomes are
    fields of [RzEnv], and what is sent or started is appended to [z_out].  Bytes
    are as in [Secret] ([string]) and [Addr] ([list Z]). *)

From S2P Require Import Prelude Strs Addr Secret Options Ip Servers Password HostPort.
From Stdlib Require Import Ascii String.

Local Open Scope string_scope.
#[local] Abbreviation length := Datatypes.length.
#[local] Arguments String.append _ _ : simpl nomatch.

(** ** [src/rendezvous_transport.rs] *)

Definition UDP_REGISTRATION_FAILURE_LIMIT : Z := 4.
Definition should_start_with_tcp (test_tcp proxy websocket udp_disabled windows_server : bool) : bool :=
  test_tcp || proxy || websocket || udp_disabled.
Definition should_fallback_to_tcp (consecutive_failures : Z) : bool :=
  (UDP_REGISTRATION_FAILURE_LIMIT <=? consecutive_failures)%Z.

(** ** Messages *)

Inductive RegisterPkResult := RpOK | RpUuidMismatch | RpOther.
Inductive NatType := UNKNOWN_NAT | ASYMMETRIC | SYMMETRIC.
Definition nat_value (n : NatType) : Z := match n with UNKNOWN_NAT => 0 | ASYMMETRIC => 1 | SYMMETRIC => 2 end.
Definition nat_from_i32 (z : Z) : NatType :=
  if (z =? 1)%Z then ASYMMETRIC else if (z =? 2)%Z then SYMMETRIC else UNKNOWN_NAT.

Record PunchHole := {
  ph_socket_addr : list Z; ph_relay_server : string; ph_nat_type : option NatType;   (* [None]: unknown value *)
  ph_udp_port : Z; ph_force_relay : bool; ph_socket_addr_v6 : list Z; ph_control_permissions : option Z
}.
Record RequestRelay := {
  rr_uuid : string; rr_socket_addr : list Z; rr_relay_server : string; rr_secure : bool;
  rr_control_permissions : option Z
}.
Record FetchLocalAddr := {
  fla_socket_addr : list Z; fla_relay_server : string; fla_socket_addr_v6 : list Z;
  fla_control_permissions : option Z
}.

Inductive RzIn :=
| RegisterPeerResponse (request_pk : bool)
| RegisterPkResponse (r : RegisterPkResult) (keep_alive : Z)
| InPunchHole (ph : PunchHole)
| InRequestRelay (rr : RequestRelay)
| InFetchLocalAddr (fla : FetchLocalAddr)
| ConfigureUpdate (serial : Z) (rendezvous_servers : list string)
| InOther.

Record RelayResponse := {
  rl_socket_addr : list Z; rl_uuid : string; rl_relay_server : string; rl_id : option string;
  rl_socket_addr_v6 : list Z
}.
Record PunchHoleSent := {
  ps_socket_addr : list Z; ps_id : string; ps_relay_server : string; ps_nat_type : NatType;
  ps_upnp_port : Z; ps_socket_addr_v6 : list Z
}.

Inductive RzAct :=
| OutRegisterPk (id uuid pk : string) (no_register_device : bool)
| OutRegisterPeer (id : string) (serial : Z)
| Heartbeat
| CreateRelay (rr : RelayResponse) (relay_server uuid : string) (peer : SocketAddr) (secure ipv4 : bool)
    (control_permissions : option Z)
| ListenV6 (peer_v6 peer : SocketAddr) (control_permissions : option Z)
| Intranet (peer : SocketAddr) (relay_server : string) (socket_addr_v6 : list Z) (control_permissions : option Z)
| PunchUdp (peer : SocketAddr) (msg : PunchHoleSent) (control_permissions : option Z)
| PunchTcp (peer : SocketAddr) (msg : PunchHoleSent) (control_permissions : option Z)
| Rebind (host : string)
| DirectAccept (peer : SocketAddr).

(** ** State *)

Record RzNet := mkRzNet {
  z_config : Stored Config;               (* CONFIG *)
  z_config2 : CONFIG2;                    (* CONFIG2 *)
  z_key_pair : option (string * string);  (* KEY_PAIR *)
  z_online : gmap string Z;               (* ONLINE *)
  z_solving : string;                     (* SOLVING_PK_MISMATCH *)
  z_sent_register_pk : bool;
  z_should_exit : bool;
  z_manual_restarted : bool;
  z_last_msg : SocketAddr * Z;
  z_last_relay : SocketAddr * Z;
  z_direct_port : Z;
  z_out : list RzAct
}.
#[global] Instance eta_RzNet : Settable RzNet := λ z,
  mkRzNet (z_config z) (z_config2 z) (z_key_pair z) (z_online z) (z_solving z) (z_sent_register_pk z)
    (z_should_exit z) (z_manual_restarted z) (z_last_msg z) (z_last_relay z) (z_direct_port z) (z_out z).

Record RzEnv := {
  rz_globals : Globals;
  rz_machine : Machine;
  rz_rng : nat → Z;
  rz_hostname : option string;
  rz_draw : Z;                            (* for an id that is missing *)
  rz_new_id : Z;                          (* of [update_id] *)
  rz_new_pair : string * string;          (* of [sign::gen_keypair] *)
  rz_new_uuid : string;                   (* [Uuid::new_v4] *)
  rz_iter : gmap string Z → list (string * Z);
  rz_fault : option string;               (* of writing to the server *)
  rz_ipv6 : option (list Z);              (* [get_ipv6_socket] *)
  rz_intranet : option string             (* how [handle_intranet_] fails *)
}.

Record RendezvousMediator := {
  rz_ipv4 : bool;                         (* [is_ipv4(&self.addr)] *)
  host : string;
  host_prefix : string;
  keep_alive : Z
}.
Definition set_keep_alive (k : Z) (r : RendezvousMediator) : RendezvousMediator :=
  {| rz_ipv4 := rz_ipv4 r; host := host r; host_prefix := host_prefix r; keep_alive := k |}.

Definition DEFAULT_KEEP_ALIVE : Z := 60000.
Definition REG_INTERVAL : Z := 15000.
Definition DEFAULT_DIRECT_PORT : Z := 21118.
Definition DIRECT_PORT_RANGE : Z := 10.
Definition DIRECT_ACCESS_STATUS_OPTION : string := "direct-access-status".

Definition get_host_prefix (host : string) : string :=
  match split_on "." host with
  | x :: _ => match parse_i32 x with Some _ => host | None => x end
  | [] => host
  end.

Section Mediator.
  Context `{C : Crypto}.
  Variable env : RzEnv.
  #[local] Abbreviation g := (rz_globals env).
  #[local] Abbreviation m := (rz_machine env).

(** *** Settings *)

Definition R (A : Type) : Type := RzNet → result string A * RzNet.
#[global] Instance R_ret : MRet R := λ A a z, (Ok a, z).
#[global] Instance R_bind : MBind R := λ A B f x z,
  match x z with (Ok a, z) => f a z | (Err e, z) => (Err e, z) end.
Definition reads {A} (f : RzNet → A) : R A := λ z, (Ok (f z), z).
Definition modify (f : RzNet → RzNet) : R unit := λ z, (Ok (), f z).
Definition throw {A} (e : string) : R A := λ z, (Err e, z).
Definition act (a : RzAct) : R unit := modify (λ z, z <| z_out := (z_out z ++ [a])%list |>).
(** [Sink::send]. *)
Definition send (a : RzAct) : R unit :=
  match rz_fault env with Some e => throw e | None => act a end.

Definition with_config (f : Stored Config → Stored Config) : R unit :=
  modify (λ z, z <| z_config := f (z_config z) |>).
Definition put_option (k v : string) : R unit :=
  modify (λ z, z <| z_config2 := set_option m g k v (z_config2 z) |>).
Definition option_of (k : string) : R string := reads (λ z, get_option g (z_config2 z) k).

Definition set_confirmed (v : bool) (ks : gmap string bool) (c : Config) : Config :=
  {| id := id c; enc_id := enc_id c; cfg_password := cfg_password c; salt := salt c;
     key_pair := key_pair c; key_confirmed := v; keys_confirmed := ks |}.
Definition set_pair (p : string * string) (c : Config) : Config :=
  {| id := id c; enc_id := enc_id c; cfg_password := cfg_password c; salt := salt c;
     key_pair := p; key_confirmed := key_confirmed c; keys_confirmed := keys_confirmed c |}.

Definition get_key_confirmed (c : Stored Config) : bool := key_confirmed (mem c).
Definition set_key_confirmed (v : bool) (c : Stored Config) : Stored Config :=
  if Bool.eqb (key_confirmed (mem c)) v then c
  else cfg_store m (rz_rng env) (set_confirmed v (if v then keys_confirmed (mem c) else ∅) (mem c)).
Definition get_host_key_confirmed (h : string) (c : Stored Config) : bool :=
  match keys_confirmed (mem c) !! h with Some true => true | _ => false end.
Definition set_host_key_confirmed (h : string) (v : bool) (c : Stored Config) : Stored Config :=
  if Bool.eqb (get_host_key_confirmed h c) v then c
  else cfg_store m (rz_rng env) (set_confirmed (key_confirmed (mem c)) (<[h := v]> (keys_confirmed (mem c))) (mem c)).

Definition my_id : R string := λ z,
  let '(i, c) := get_id m g (rz_rng env) (rz_hostname env) (rz_draw env) (z_config z) in
  (Ok i, z <| z_config := c |>).

(** [Config::get_key_pair]; the thread that stores a new pair has run. *)
Definition get_key_pair : R (string * string) := λ z,
  match z_key_pair z with
  | Some p => (Ok p, z)
  | None =>
      let p := key_pair (disk (z_config z)) in
      if is_empty p.1 then
        (Ok (rz_new_pair env),
         z <| z_key_pair := Some (rz_new_pair env) |>
           <| z_config := cfg_store m (rz_rng env) (set_pair (rz_new_pair env) (mem (z_config z))) |>)
      else (Ok p, z <| z_key_pair := Some p |>)
  end.
Definition get_cached_pk (z : RzNet) : option string := snd <$> z_key_pair z.

Definition OPTION_REGISTER_DEVICE : string := "register-device".
Definition no_register_device : bool := get_is (BUILTIN_SETTINGS g) OPTION_REGISTER_DEVICE "N".

Definition report_latency (h : string) (latency : Z) : R unit := modify (λ z,
  let '(o, c2) := update_latency m (rz_iter env) h latency (z_online z) (z_config2 z) in
  z <| z_online := o |> <| z_config2 := c2 |>).

Definition get_custom_rendezvous_server (custom : string) : string :=
  if negb (is_empty custom) then custom else PROD_RENDEZVOUS_SERVER g.
Definition using_public_server (z : RzNet) : bool :=
  is_empty (get_custom_rendezvous_server (get_option g (z_config2 z) "custom-rendezvous-server")).
Definition is_udp_disabled (z : RzNet) : bool :=
  String.eqb (get_option g (z_config2 z) "disable-udp") "Y".

(** *** Registration *)

Definition restart : R unit := modify (λ z, z <| z_should_exit := true |> <| z_manual_restarted := true |>).

Definition register_pk : R unit :=
  p ← get_key_pair;
  i ← my_id;
  send (OutRegisterPk i (get_uuid m) p.2 no_register_device);;
  modify (λ z, z <| z_sent_register_pk := true |>).

Definition handle_uuid_mismatch (r : RendezvousMediator) : R unit :=
  solving ← reads z_solving;
  if is_empty solving || String.eqb solving (host r) then
    with_config (set_key_confirmed false);;
    with_config (update_id m g (rz_rng env) (rz_hostname env) (rz_draw env) (rz_new_id env));;
    modify (λ z, z <| z_solving := host r |>);;
    register_pk
  else mret ().

Definition register_peer (r : RendezvousMediator) : R unit :=
  solving ← reads z_solving;
  if negb (is_empty solving || String.eqb solving (host r)) then mret () else
  c ← reads z_config;
  if negb (get_key_confirmed c) || negb (get_host_key_confirmed (host_prefix r) c) then register_pk else
  i ← my_id;
  s ← reads (λ z, get_serial (z_config2 z));
  send (OutRegisterPeer i s).

(** Without the check of the key; no loop calls it. *)
Definition register_peer_tcp : R unit :=
  i ← my_id;
  s ← reads (λ z, get_serial (z_config2 z));
  send (OutRegisterPeer i s).

Definition get_relay_server (r : RendezvousMediator) (provided : string) : R string :=
  relay_server ← option_of "relay-server";
  let relay_server := sanitize relay_server in
  let relay_server := if is_empty relay_server then provided else relay_server in
  mret (if is_empty relay_server then increase_port (host r) 1 else relay_server).

(** *** Requests of the server *)

Definition is_private (ip : list Z) : bool :=
  match ip with
  | a :: b :: _ => (a =? 10) || ((a =? 172) && (16 <=? b) && (b <=? 31)) || ((a =? 192) && (b =? 168))
  | _ => false
  end%Z.
Definition is_lan_ipv4 (a : SocketAddr) : bool :=
  match a with SAddrV4 ip _ => is_private ip | SAddrV6 _ _ => false end.
Definition addr_port (a : SocketAddr) : Z := match a with SAddrV4 _ p | SAddrV6 _ p => p end.
Definition set_port (p : Z) (a : SocketAddr) : SocketAddr :=
  match a with SAddrV4 ip _ => SAddrV4 ip p | SAddrV6 ip _ => SAddrV6 ip p end.

(** Whether the last request was from this address, less than 100 ms ago. *)
Definition duplicate (now : Z) (a : SocketAddr) (last : SocketAddr * Z) : bool :=
  bool_decide (last.1 = a) && (elapsed_ms now last.2 <? 100)%Z.

Definition create_relay (r : RendezvousMediator) (socket_addr : list Z) (relay_server uuid : string)
    (secure initiate : bool) (socket_addr_v6 : list Z) (perms : option Z) : R unit :=
  i ← (if initiate then i ← my_id; mret (Some i) else mret None);
  send (CreateRelay
    {| rl_socket_addr := socket_addr; rl_uuid := if initiate then uuid else "";
       rl_relay_server := if initiate then relay_server else ""; rl_id := i;
       rl_socket_addr_v6 := socket_addr_v6 |}
    relay_server uuid (mangle_decode socket_addr) secure (rz_ipv4 r) perms).

Definition handle_request_relay (now : Z) (r : RendezvousMediator) (rr : RequestRelay) : R unit :=
  let addr := mangle_decode (rr_socket_addr rr) in
  last ← reads z_last_relay;
  modify (λ z, z <| z_last_relay := (addr, now) |>);;
  if duplicate now addr last then mret () else
  create_relay r (rr_socket_addr rr) (rr_relay_server rr) (rr_uuid rr) (rr_secure rr) false []
    (rr_control_permissions rr).

Definition start_ipv6 (peer_v6 peer : SocketAddr) (perms : option Z) : R (list Z) :=
  match rz_ipv6 env with
  | Some local => act (ListenV6 peer_v6 peer perms);; mret local
  | None => mret []
  end.
Definition v6_of (relay : bool) (v6 : list Z) (peer : SocketAddr) (perms : option Z) : R (list Z) :=
  let peer_v6 := mangle_decode v6 in
  if (0 <? addr_port peer_v6)%Z && negb relay then start_ipv6 peer_v6 peer perms else mret [].

Definition handle_intranet (now : Z) (r : RendezvousMediator) (fla : FetchLocalAddr) : R unit :=
  let addr := mangle_decode (fla_socket_addr fla) in
  last ← reads z_last_msg;
  modify (λ z, z <| z_last_msg := (addr, now) |>);;
  if duplicate now addr last then mret () else
  relay_server ← get_relay_server r (fla_relay_server fla);
  relay ← reads (λ z, is_proxy g (z_config2 z));
  v6 ← v6_of relay (fla_socket_addr_v6 fla) addr (fla_control_permissions fla);
  let tried := rz_ipv4 r && negb relay && (is_lan_ipv4 addr || negb (is_disable_tcp_listen g)) in
  if tried && bool_decide (rz_intranet env = None) then
    act (Intranet addr relay_server v6 (fla_control_permissions fla))
  else
    create_relay r (fla_socket_addr fla) relay_server (rz_new_uuid env) true true v6
      (fla_control_permissions fla).

Definition handle_punch_hole (now : Z) (r : RendezvousMediator) (ph : PunchHole) : R unit :=
  let peer_addr := mangle_decode (ph_socket_addr ph) in
  last ← reads z_last_msg;
  modify (λ z, z <| z_last_msg := (peer_addr, now) |>);;
  if duplicate now peer_addr last then mret () else
  proxied ← reads (λ z, is_proxy g (z_config2 z));
  let relay := proxied || ph_force_relay ph in
  let perms := ph_control_permissions ph in
  v6 ← v6_of relay (ph_socket_addr_v6 ph) peer_addr perms;
  relay_server ← get_relay_server r (ph_relay_server ph);
  my_nat ← reads (λ z, get_nat_type (z_config2 z));
  if (match ph_nat_type ph with Some SYMMETRIC => true | _ => false end
      || (my_nat =? nat_value SYMMETRIC)%Z || relay
      || (is_disable_tcp_listen g && (ph_udp_port ph <=? 0)%Z)) && negb (is_lan_ipv4 peer_addr) then
    create_relay r (ph_socket_addr ph) relay_server (rz_new_uuid env) true true v6 perms
  else
    status ← option_of DIRECT_ACCESS_STATUS_OPTION;
    port ← reads z_direct_port;
    i ← my_id;
    let msg := {| ps_socket_addr := ph_socket_addr ph; ps_id := i; ps_relay_server := relay_server;
                  ps_nat_type := nat_from_i32 my_nat;
                  ps_upnp_port := if String.eqb status "listening" then port else 0%Z;
                  ps_socket_addr_v6 := v6 |} in
    if (0 <? ph_udp_port ph)%Z then send (PunchUdp (set_port (wrap 16 (ph_udp_port ph)) peer_addr) msg perms)
    else send (PunchTcp peer_addr msg perms).

(** *** Answers of the server

    [upd] is [update_latency] of the loop.  The handlers that are spawned run
    here, and their errors are only logged. *)

Definition spawn (x : R unit) : R unit := λ z, (Ok (), (x z).2).

Definition handle_resp {L} (now : Z) (upd : L → R L) (l : L) (r : RendezvousMediator) (msg : RzIn)
    : R (L * RendezvousMediator) :=
  match msg with
  | RegisterPeerResponse request_pk =>
      l ← upd l; (if request_pk then register_pk else mret ());; mret (l, r)
  | RegisterPkResponse res k =>
      l ← upd l;
      match res with
      | RpOK =>
          with_config (set_key_confirmed true);;
          with_config (set_host_key_confirmed (host_prefix r) true);;
          modify (λ z, z <| z_solving := "" |>);;
          register_peer r
      | RpUuidMismatch => handle_uuid_mismatch r
      | RpOther => mret ()
      end;;
      mret (l, if (0 <? k)%Z then set_keep_alive (swrap 32 (k * 1000)) r else r)
  | InPunchHole ph => spawn (handle_punch_hole now r ph);; mret (l, r)
  | InRequestRelay rr => spawn (handle_request_relay now r rr);; mret (l, r)
  | InFetchLocalAddr fla => spawn (handle_intranet now r fla);; mret (l, r)
  | ConfigureUpdate serial servers =>
      v0 ← reads (λ z, get_rendezvous_servers g (z_config2 z));
      put_option "rendezvous-servers" (String.concat "," servers);;
      modify (λ z, z <| z_config2 := set_serial m serial (z_config2 z) |>);;
      v1 ← reads (λ z, get_rendezvous_servers g (z_config2 z));
      (if bool_decide (v0 = v1) then mret () else restart);;
      mret (l, r)
  | InOther => mret (l, r)
  end.

(** *** The loop over UDP *)

Definition MIN_REG_TIMEOUT : Z := 3000.
Definition MAX_REG_TIMEOUT : Z := 30000.
Definition MAX_FAILS1 : Z := 2.
Definition MAX_FAILS2 : Z := 4.
Definition DNS_INTERVAL : Z := 60000.
Definition RECOVERY_REG_INTERVAL : Z := 5000.

Record Udp := mkUdp {
  reg_timeout : Z; fails : Z; last_register_resp : option Z; last_register_sent : option Z;
  last_dns_check : Z; old_latency : Z; ema_latency : Z
}.
Definition udp_new (now : Z) : Udp := mkUdp MIN_REG_TIMEOUT 0 None None now 0 0.

(** The smoothed latency and the one to report. *)
Definition smooth (ema latency : Z) : Z * Z :=
  if (ema =? 0)%Z then (latency, latency)
  else let e := (Z.quot latency 30 + Z.quot (ema * 29) 30)%Z in (e, e).

Definition udp_update_latency (now : Z) (h : string) (u : Udp) : R Udp :=
  let latency := match last_register_sent u with Some t => elapsed_us now t | None => 0%Z end in
  let u := mkUdp MIN_REG_TIMEOUT 0 (Some now) None (last_dns_check u) (old_latency u) (ema_latency u) in
  if (latency <? 0)%Z || (1000000 <? latency)%Z then mret u else
  let '(ema, latency) := smooth (ema_latency u) latency in
  let n := Z.max 3000 (Z.quot latency 5) in
  if (n <? Z.abs (latency - old_latency u))%Z || (old_latency u <=? 0)%Z then
    report_latency h latency;;
    mret (mkUdp (reg_timeout u) (fails u) (last_register_resp u) (last_register_sent u)
            (last_dns_check u) latency ema)
  else mret (mkUdp (reg_timeout u) (fails u) (last_register_resp u) (last_register_sent u)
               (last_dns_check u) (old_latency u) ema).

Definition udp_failed : string := "UDP rendezvous registration timed out".

(** What a lost answer does; [rebound]: the address after [rebind_udp_for]. *)
Definition udp_lost (now : Z) (r : RendezvousMediator) (u : Udp) : R Udp :=
  let fails := (fails u + 1)%Z in
  let u' old dns := mkUdp (reg_timeout u) fails (last_register_resp u) (last_register_sent u) dns old (ema_latency u) in
  if should_fallback_to_tcp fails then
    report_latency (host r) (-1);; throw udp_failed
  else if (MAX_FAILS2 <=? fails)%Z then
    report_latency (host r) (-1);;
    (if (DNS_INTERVAL <? elapsed_ms now (last_dns_check u))%Z
     then act (Rebind (host r));; mret (u' 0%Z now) else mret (u' 0%Z (last_dns_check u)))
  else if (MAX_FAILS1 <=? fails)%Z then
    report_latency (host r) 0;; mret (u' 0%Z (last_dns_check u))
  else mret (u' (old_latency u) (last_dns_check u)).

Definition udp_expired (now : Z) (u : Udp) : bool :=
  let cur_interval := if (0 <? fails u)%Z || bool_decide (last_register_resp u = None)
                      then RECOVERY_REG_INTERVAL else REG_INTERVAL in
  match last_register_resp u with Some t => (cur_interval <=? elapsed_ms now t)%Z | None => true end.
Definition udp_timeout (now : Z) (u : Udp) : bool :=
  match last_register_sent u with Some t => (reg_timeout u <=? elapsed_ms now t)%Z | None => false end.

(** A tick of the timer; [None]: the loop is left. *)
Definition udp_tick (now : Z) (r : RendezvousMediator) (u : Udp) : R (option Udp) :=
  leave ← reads z_should_exit;
  if (leave : bool) then mret None else
  public ← reads using_public_server;
  let expired := udp_expired now u in
  let timeout := udp_timeout now u in
  let u := if public && timeout && (reg_timeout u <? MAX_REG_TIMEOUT)%Z
           then mkUdp (reg_timeout u + MIN_REG_TIMEOUT) (fails u) (last_register_resp u) (last_register_sent u)
                  (last_dns_check u) (old_latency u) (ema_latency u)
           else u in
  if timeout || (bool_decide (last_register_sent u = None) && expired) then
    u ← (if timeout then udp_lost now r u else mret u);
    register_peer r;;
    mret (Some (mkUdp (reg_timeout u) (fails u) (last_register_resp u) (Some now) (last_dns_check u)
                  (old_latency u) (ema_latency u)))
  else mret (Some u).

(** Bytes that are no message are ignored; [Broken]: the socket fails or ends. *)
Inductive RzEvent := Tick (now : Z) | Arrived (now : Z) (msg : RzIn) | Broken (e : string).

Definition udp_step (e : RzEvent) (u : Udp) (r : RendezvousMediator) : R (option (Udp * RendezvousMediator)) :=
  match e with
  | Tick now =>
      u ← udp_tick now r u;
      mret (match u with Some u => Some (u, r) | None => None end)
  | Arrived now msg =>
      ur ← handle_resp now (udp_update_latency now (host r)) u r msg; mret (Some ur)
  | Broken e => throw e
  end.

(** The loop: what [select!] takes, until a step leaves it or fails. *)
Fixpoint udp_run (es : list RzEvent) (u : Udp) (r : RendezvousMediator) : R unit :=
  match es with
  | [] => mret ()
  | e :: es =>
      x ← udp_step e u r;
      match x with Some (u, r) => udp_run es u r | None => mret () end
  end.

(** *** The loop over TCP *)

Record Tcp := mkTcp { last_recv_msg : Z; tcp_register_sent : option Z }.

Definition tcp_update_latency (now : Z) (h : string) (t : Tcp) : R Tcp :=
  report_latency h (match tcp_register_sent t with Some x => elapsed_us now x | None => 0%Z end);; mret t.

(** Before the loop. *)
Definition tcp_start (now : Z) (r : RendezvousMediator) : R Tcp :=
  with_config (set_host_key_confirmed (host_prefix r) false);; mret (mkTcp now None).

(** [keep_alive as u64 * 3 / 2]. *)
Definition keep_alive_limit (r : RendezvousMediator) : Z := (wrap 64 (wrap 64 (keep_alive r) * 3) / 2)%Z.

Definition tcp_tick (now : Z) (r : RendezvousMediator) (t : Tcp) : R (option Tcp) :=
  leave ← reads z_should_exit;
  if (leave : bool) then mret None else
  if (keep_alive_limit r <? elapsed_ms now (last_recv_msg t))%Z
  then throw "Rendezvous connection is timeout" else
  if (REG_INTERVAL <=? match tcp_register_sent t with Some x => elapsed_ms now x | None => REG_INTERVAL end)%Z
  then register_peer r;; mret (Some (mkTcp (last_recv_msg t) (Some now)))
  else mret (Some t).

Inductive TcpEvent := TcpTick (now : Z) | TcpFrame (now : Z) (msg : option RzIn) | TcpHeartbeat (now : Z) | TcpClosed.

Definition tcp_step (e : TcpEvent) (t : Tcp) (r : RendezvousMediator) : R (option (Tcp * RendezvousMediator)) :=
  match e with
  | TcpTick now =>
      t ← tcp_tick now r t; mret (match t with Some t => Some (t, r) | None => None end)
  | TcpHeartbeat now => send Heartbeat;; mret (Some (mkTcp now (tcp_register_sent t), r))
  | TcpFrame now (Some msg) =>
      let t := mkTcp now (tcp_register_sent t) in
      tr ← handle_resp now (tcp_update_latency now (host r)) t r msg; mret (Some tr)
  | TcpFrame now None => throw "parse"
  | TcpClosed => throw "Rendezvous connection is reset by the peer"
  end.

(** *** [start]: the two transports

    [udp] and [tcp] run the loops to their end. *)
Definition start (test_tcp : bool) (udp tcp : R unit) : R unit := λ z,
  let first_then (a b : R unit) : result string unit * RzNet :=
    match a z with
    | (Err e, z') => if z_should_exit z' then (Err e, z') else b z'
    | r => r
    end in
  if should_start_with_tcp test_tcp (is_proxy g (z_config2 z)) (use_ws g (z_config2 z)) (is_udp_disabled z) false
  then first_then tcp udp else first_then udp tcp.

(** *** The direct server *)

Definition set_direct_access_status (status : string) : R unit :=
  old ← option_of DIRECT_ACCESS_STATUS_OPTION;
  if String.eqb old status then mret () else
  put_option DIRECT_ACCESS_STATUS_OPTION status;;
  if String.eqb status "listening" then mret () else
  put_option "direct-access-public-port" "";; put_option "upnp-status" status.

Definition invalidate_direct_port : R unit := modify (λ z,
  z <| z_direct_port := if (z_direct_port z <? DEFAULT_DIRECT_PORT + DIRECT_PORT_RANGE)%Z
                        then (z_direct_port z + 1)%Z else DEFAULT_DIRECT_PORT |>).
Definition reset_direct_port : R unit := modify (λ z, z <| z_direct_port := DEFAULT_DIRECT_PORT |>).

Definition direct_disabled (z : RzNet) : bool :=
  negb (option2bool OPTION_DIRECT_SERVER (get_option g (z_config2 z) OPTION_DIRECT_SERVER))
  || option2bool "stop-service" (get_option g (z_config2 z) "stop-service").

(** One turn of the loop.  [listener]: the port it listens on; [listens]: how
    listening on a port ends; [accepted]: a peer that connects meanwhile. *)
Definition direct_start (listens : Z → result string unit) : R (option Z) :=
  port ← reads z_direct_port;
  match listens (wrap 16 port) with
  | Ok _ =>
      set_direct_access_status "listening";;
      put_option "direct-access-port" (show_Z port);;
      put_option "upnp-status" "pending";; put_option "upnp-error" "";;
      put_option "direct-access-public-port" "";;
      mret (Some port)
  | Err _ => set_direct_access_status "error";; invalidate_direct_port;; mret None
  end.

Definition direct_turn (listens : Z → result string unit) (accepted : option SocketAddr)
    (listener : option Z) : R (option Z) :=
  disabled ← reads direct_disabled;
  (if disabled && bool_decide (listener = None) then set_direct_access_status "stopped" else mret ());;
  listener ← (if negb disabled && bool_decide (listener = None) then direct_start listens else mret listener);
  match listener with
  | None => mret None
  | Some port =>
      now_port ← reads z_direct_port;
      if disabled || negb (port =? now_port)%Z then
        set_direct_access_status "stopped";; reset_direct_port;; mret None
      else
        match accepted with Some a => act (DirectAccept a) | None => mret () end;;
        mret (Some port)
  end.

(** *** [CheckIfResendPk]: when it is made and when it is dropped. *)
Definition check_if_resend_pk_new (z : RzNet) : option string := get_cached_pk z.
Definition check_if_resend_pk_drop (pk : option string) : R unit := λ z,
  if z_sent_register_pk z && negb (bool_decide (get_cached_pk z = pk))
  then with_config (set_key_confirmed false) z else (Ok (), z).
End Mediator.
