(* ===== verification/RendezvousSafety.v ===== *)
(** * Staying registered

    Theorems on [Rendezvous]: a host tells the server its id only when its key is
    confirmed there ([peer_needs_confirmed_key]); with a server that answers it
    gets registered, after a mismatch of its identity too
    ([registration_completes]); with one that does not, the loop over UDP ends
    after a bounded time ([udp_silence_ends]); and the locals of that loop stay in
    their bounds, so that one of its branches is never taken. *)

From S2P Require Import Prelude Strs Addr Secret Options Ip Servers Password HostPort Rendezvous.
From Stdlib Require Import Ascii String.

Local Open Scope list_scope.
#[local] Abbreviation length := Datatypes.length.
#[local] Arguments String.append _ _ : simpl nomatch.
#[local] Arguments cfg_store : simpl never.
#[local] Arguments update_latency : simpl never.
#[local] Arguments get_id : simpl never.

Section Safety.
Context `{C : Crypto}.
Variable env : RzEnv.
#[local] Abbreviation g := (rz_globals env).

(** ** What the parts leave alone *)

(** Programs that send, at most, what [P] allows, and keep [f]. *)
Definition frames {A B} (P : RzAct → Prop) (f : RzNet → B) (x : R A) : Prop :=
  ∀ z, f (x z).2 = f z ∧ ∃ acts, z_out (x z).2 = z_out z ++ acts ∧ Forall P acts.

Section Frames.
Context {B} (P : RzAct → Prop) (f : RzNet → B).
#[local] Abbreviation F := (frames P f).

Lemma frames_ret {A} (a : A) : F (mret a).
Proof. intros z. split; [done|]. exists []. by rewrite app_nil_r. Qed.

Lemma frames_throw {A} e : F (throw e : R A).
Proof. intros z. split; [done|]. exists []. by rewrite app_nil_r. Qed.

Lemma frames_reads {A} (h : RzNet → A) : F (reads h).
Proof. intros z. split; [done|]. exists []. by rewrite app_nil_r. Qed.

Lemma frames_bind {A A'} (x : R A) (k : A → R A') : F x → (∀ a, F (k a)) → F (x ≫= k).
Proof.
  intros Hx Hk z. unfold mbind, R_bind. destruct (Hx z) as (E & acts & Ho & Ha).
  destruct (x z) as [[a|e] z1]; simpl in *; [|by eauto].
  destruct (Hk a z1) as (E' & acts' & Ho' & Ha'). split; [congruence|].
  exists (acts ++ acts'). rewrite Ho', Ho, app_assoc. split; [done|]. by apply Forall_app.
Qed.

Lemma frames_modify h : (∀ z, f (h z) = f z) → (∀ z, z_out (h z) = z_out z) → F (modify h).
Proof. intros H1 H2 z. split; [apply H1|]. exists []. rewrite app_nil_r. split; [apply H2|constructor]. Qed.

Lemma frames_act a : (∀ z, f (z <| z_out := (z_out z ++ [a])%list |>) = f z) → P a → F (act a).
Proof. intros H Ha z. split; [apply H|]. exists [a]. by split; [|constructor]. Qed.

Lemma frames_send a : (∀ z, f (z <| z_out := (z_out z ++ [a])%list |>) = f z) → P a → F (send env a).
Proof. intros H Ha. unfold send. destruct (rz_fault env); [apply frames_throw|by apply frames_act]. Qed.

Lemma frames_if {A} (b : bool) (x y : R A) : F x → F y → F (if b then x else y).
Proof. by destruct b. Qed.

Lemma frames_spawn x : F x → F (spawn x).
Proof. intros H z. apply H. Qed.
End Frames.

(** Steps through a program, one construct at a time. *)
Ltac frame :=
  repeat (match goal with
  | |- frames _ _ (mret _) => apply frames_ret
  | |- frames _ _ (throw _) => apply frames_throw
  | |- frames _ _ (reads _) => apply frames_reads
  | |- frames _ _ (_ ≫= _) => apply frames_bind; [|intros ?]
  | |- frames _ _ (modify _) => apply frames_modify; [done|done]
  | |- frames _ _ (act _) => apply frames_act; [done|]
  | |- frames _ _ (send _ _) => apply frames_send; [done|]
  | |- frames _ _ (if _ then _ else _) => apply frames_if
  | |- frames _ _ (spawn _) => apply frames_spawn
  | |- frames _ _ (match ?x with _ => _ end) => destruct x
  | |- frames _ _ (let _ := _ in _) => cbv zeta
  end).

Definition no_peer (a : RzAct) : Prop := match a with OutRegisterPeer _ _ => False | _ => True end.
Definition nothing (z : RzNet) : unit := tt.

Definition keys (z : RzNet) : gmap string bool := keys_confirmed (mem (z_config z)).

Lemma frames_any {A B} P (f : RzNet → B) (x : R A) : frames P f x → frames P nothing x.
Proof. intros H z. split; [done|apply H]. Qed.

Lemma frames_still {A B} P (f : RzNet → B) (x : R A) :
  (∀ z, f (x z).2 = f z) → (∀ z, z_out (x z).2 = z_out z) → frames P f x.
Proof. intros Hf Ho z. split; [apply Hf|]. exists []. rewrite Ho, app_nil_r. by split; [|constructor]. Qed.

Lemma get_id_mem c :
  let '(i, c') := get_id (rz_machine env) g (rz_rng env) (rz_hostname env) (rz_draw env) c in
  i = id (mem c') ∧ key_confirmed (mem c') = key_confirmed (mem c)
  ∧ keys_confirmed (mem c') = keys_confirmed (mem c).
Proof.
  unfold get_id. destruct (_ || _); [|done]. destruct (gen_id _ _ _) as [tmp|]; [|done].
  unfold set_id. destruct (String.eqb_spec tmp (id (mem c))) as [->|]; done.
Qed.

Lemma frames_my_id : frames no_peer keys (my_id env).
Proof.
  apply frames_still; intros z; unfold my_id; pose proof (get_id_mem (z_config z)) as H;
    destruct (get_id _ _ _ _ _ _); [apply H|done].
Qed.

Lemma frames_get_key_pair : frames no_peer keys (get_key_pair env).
Proof. apply frames_still; intros z; unfold get_key_pair; by repeat case_match. Qed.

Lemma frames_register_pk : frames no_peer keys (register_pk env).
Proof. unfold register_pk. frame; auto using frames_my_id, frames_get_key_pair. done. Qed.

Lemma frames_report h l : frames no_peer keys (report_latency env h l).
Proof.
  apply frames_still; intros z; unfold report_latency, modify; cbn [snd]; by destruct (update_latency _ _ _ _ _ _).
Qed.
Create HintDb frames.
#[local] Hint Resolve frames_my_id frames_get_key_pair frames_register_pk frames_report : frames.
#[local] Hint Extern 2 (frames _ nothing _) => apply (frames_any _ keys) : frames.

Lemma frames_relay r sa rs uuid secure initiate v6 perms :
  frames no_peer nothing (create_relay env r sa rs uuid secure initiate v6 perms).
Proof. unfold create_relay. destruct initiate; frame; auto with frames; done. Qed.
#[local] Hint Resolve frames_relay : frames.

Lemma frames_relay_server r s : frames no_peer nothing (get_relay_server env r s).
Proof. unfold get_relay_server, option_of. frame. Qed.
Lemma frames_v6 relay v6 peer perms : frames no_peer nothing (v6_of env relay v6 peer perms).
Proof. unfold v6_of, start_ipv6. frame; done. Qed.
#[local] Hint Resolve frames_relay_server frames_v6 : frames.

Lemma frames_handlers now r :
  (∀ ph, frames no_peer nothing (handle_punch_hole env now r ph))
  ∧ (∀ rr, frames no_peer nothing (handle_request_relay env now r rr))
  ∧ (∀ fla, frames no_peer nothing (handle_intranet env now r fla)).
Proof.
  split_and!; intros x.
  - unfold handle_punch_hole, option_of. frame; auto with frames; done.
  - unfold handle_request_relay. frame; auto with frames.
  - unfold handle_intranet. frame; auto with frames; done.
Qed.

(** ** The id is told when the key is confirmed *)

Definition confirmed (r : RendezvousMediator) (z : RzNet) : Prop :=
  get_key_confirmed (z_config z) = true
  ∧ get_host_key_confirmed (host_prefix r) (z_config z) = true
  ∧ (z_solving z = EmptyString ∨ z_solving z = host r).

Definition peer_ok (r : RendezvousMediator) (z : RzNet) (a : RzAct) : Prop :=
  match a with
  | OutRegisterPeer i s => confirmed r z ∧ i = id (mem (z_config z)) ∧ s = get_serial (z_config2 z)
  | _ => True
  end.

Definition post_at {A} (r : RendezvousMediator) (x : R A) (z : RzNet) : Prop :=
  ∃ acts, z_out (x z).2 = z_out z ++ acts ∧ Forall (peer_ok r (x z).2) acts.
Definition posts {A} (r : RendezvousMediator) (x : R A) : Prop := ∀ z, post_at r x z.

Lemma post_reads {A B} r (f : RzNet → A) (k : A → R B) z : post_at r (k (f z)) z → post_at r (reads f ≫= k) z.
Proof. done. Qed.

Lemma no_peer_ok r z a : no_peer a → peer_ok r z a.
Proof. by destruct a. Qed.

Lemma posts_quiet {A} r (x : R A) : frames no_peer nothing x → posts r x.
Proof.
  intros H z. destruct (H z) as (_ & acts & E & Ha). exists acts. split; [done|].
  eapply Forall_impl; [exact Ha|apply no_peer_ok].
Qed.

Lemma posts_after {A B} r (x : R A) (k : A → R B) :
  frames no_peer nothing x → (∀ a, posts r (k a)) → posts r (x ≫= k).
Proof.
  intros Hx Hk z. unfold post_at, mbind, R_bind. destruct (Hx z) as (_ & acts & E & Ha).
  destruct (x z) as [[a|e] z1]; simpl in *.
  - destruct (Hk a z1) as (acts' & E' & Ha'). exists (acts ++ acts'). rewrite E', E, app_assoc.
    split; [done|]. apply Forall_app. split; [|done]. eapply Forall_impl; [exact Ha|apply no_peer_ok].
  - exists acts. split; [done|]. eapply Forall_impl; [exact Ha|apply no_peer_ok].
Qed.

Lemma posts_ret {A B} r (x : R A) (k : A → B) : posts r x → posts r (x ≫= λ a, mret (k a)).
Proof.
  intros H z. specialize (H z). unfold post_at, mbind, R_bind in *. by destruct (x z) as [[a|e] z1].
Qed.

Lemma register_peer_posts r : posts r (register_peer env r).
Proof.
  unfold register_peer. intros z. apply post_reads.
  destruct (negb _) eqn:Es; [by apply posts_quiet, frames_ret|]. apply post_reads.
  destruct (negb _ || negb _) eqn:Ek; [by apply posts_quiet, (frames_any _ keys), frames_register_pk|].
  apply orb_false_iff in Ek as [Hk Hh]. apply negb_false_iff in Hk, Hh, Es. unfold post_at.
  unfold mbind, R_bind, my_id. pose proof (get_id_mem (z_config z)) as Hid.
  destruct (get_id _ _ _ _ _ _) as [i c']. destruct Hid as (Hi & H1 & H2). cbn.
  unfold send. destruct (rz_fault env); [exists []; rewrite app_nil_r; split; [done|constructor]|].
  eexists [_]. split; [done|]. constructor; [|constructor]. cbn. split; [|done].
  unfold confirmed, get_key_confirmed, get_host_key_confirmed. cbn. rewrite H1, H2. split; [done|]. split; [done|].
  apply orb_true_iff in Es as [Es|Es]; [left|right; by apply String.eqb_eq].
  by destruct (z_solving z).
Qed.

Lemma frames_mismatch r : frames no_peer nothing (handle_uuid_mismatch env r).
Proof. unfold handle_uuid_mismatch, with_config. frame; auto with frames. Qed.

Lemma handle_resp_posts {L} now (upd : L → R L) l r msg :
  (∀ l, frames no_peer nothing (upd l)) → posts r (handle_resp env now upd l r msg).
Proof.
  intros Hu. destruct (frames_handlers now r) as (H1 & H2 & H3). destruct msg; cbn [handle_resp].
  - apply posts_quiet. frame; auto with frames.
  - apply posts_after; [apply Hu|]. intros l'.
    apply (posts_ret r (match r0 with RpOK => _ | RpUuidMismatch => _ | RpOther => _ end)
             (λ _, (l', if (0 <? keep_alive)%Z then _ else _))).
    destruct r0; [|apply posts_quiet, frames_mismatch|apply posts_quiet; frame].
    unfold with_config. repeat (apply posts_after; [frame|intros _]). apply register_peer_posts.
  - apply posts_quiet. frame; auto.
  - apply posts_quiet. frame; auto.
  - apply posts_quiet. frame; auto.
  - apply posts_quiet. unfold put_option, restart. frame.
  - apply posts_quiet. frame.
Qed.

Lemma frames_udp_upd now h u : frames no_peer nothing (udp_update_latency env now h u).
Proof. unfold udp_update_latency. destruct (smooth _ _). frame; auto with frames. Qed.
Lemma frames_tcp_upd now h t : frames no_peer nothing (tcp_update_latency env now h t).
Proof. unfold tcp_update_latency. frame; auto with frames. Qed.
Lemma frames_lost now r u : frames no_peer nothing (udp_lost env now r u).
Proof. unfold udp_lost. frame; auto with frames; done. Qed.

Lemma bindE {A B} (x : R A) (k : A → R B) z :
  (x ≫= k) z = match x z with (Ok a, z) => k a z | (Err e, z) => (Err e, z) end.
Proof. done. Qed.

Lemma register_peer_unconfirmed r z :
  get_host_key_confirmed (host_prefix r) (z_config z) = false →
  register_peer env r z
  = if is_empty (z_solving z) || String.eqb (z_solving z) (host r) then register_pk env z else (Ok (), z).
Proof.
  intros H. unfold register_peer. rewrite bindE. cbn [reads]. destruct (_ || _); cbn [negb]; [|done].
  rewrite bindE. cbn [reads]. by rewrite H, orb_true_r.
Qed.

(** What a server that answers [NOT_SUPPORT] to keys over TCP leads to: the loop
    begins by forgetting that the key is confirmed, so it only ever sends the key. *)
Lemma tcp_key_only e now t r z :
  e = TcpTick now ∨ e = TcpFrame now (Some (RegisterPkResponse RpOther 0)) →
  get_host_key_confirmed (host_prefix r) (z_config z) = false →
  let z' := (tcp_step env e t r z).2 in
  get_host_key_confirmed (host_prefix r) (z_config z') = false
  ∧ ∃ acts, z_out z' = z_out z ++ acts ∧ Forall no_peer acts.
Proof.
  intros He Hk. set (k := host_prefix r) in *.
  assert (∀ {A} (x : R A), (∀ z, keys z !! k ≠ Some true → keys (x z).2 = keys z ∧
            ∃ acts, z_out (x z).2 = z_out z ++ acts ∧ Forall no_peer acts) →
          get_host_key_confirmed k (z_config (x z).2) = false
          ∧ ∃ acts, z_out (x z).2 = z_out z ++ acts ∧ Forall no_peer acts) as Hx.
  { intros A x H. unfold get_host_key_confirmed in *. fold (keys z) in Hk. destruct (H z) as [E Ho].
    - intros E. by rewrite E in Hk.
    - split; [|done]. fold (keys (x z).2). by rewrite E. }
  apply Hx. intros z1 Hz1. clear Hx. destruct He as [->| ->]; cbn [tcp_step].
  - assert (frames no_peer keys (register_pk env)) as Hpk by auto with frames.
    assert (keys (register_peer env r z1).2 = keys z1 ∧
            ∃ acts, z_out (register_peer env r z1).2 = z_out z1 ++ acts ∧ Forall no_peer acts) as Hp.
    { rewrite register_peer_unconfirmed; [case_match; [apply Hpk|by apply (frames_ret no_peer keys ())]|].
      unfold get_host_key_confirmed. fold (keys z1). fold k. by destruct (keys z1 !! k) as [[]|]. }
    pose proof (λ A (a : A), frames_ret no_peer keys a z1) as Hret.
    pose proof (frames_throw (A := option Tcp) no_peer keys "Rendezvous connection is timeout" z1) as Hthrow.
    rewrite bindE. unfold tcp_tick. rewrite bindE. cbn [reads]. destruct (z_should_exit z1); [apply (Hret _ None)|].
    destruct (_ <? _)%Z; [exact Hthrow|]. destruct (_ <=? _)%Z; [|apply (Hret _ (Some _))]. rewrite bindE.
    destruct (register_peer env r z1) as [[a|e] z2]; exact Hp.
  - revert z1 Hz1. assert (∀ x : R (option (Tcp * RendezvousMediator)), frames no_peer keys x →
      ∀ z, keys z !! k ≠ Some true → keys (x z).2 = keys z ∧ ∃ acts, z_out (x z).2 = z_out z ++ acts ∧ Forall no_peer acts)
      as H by (intros x H z1 _; apply H).
    apply H. cbn [handle_resp]. unfold tcp_update_latency. frame; auto with frames.
Qed.

(** C19: the id is told only when the key is confirmed.  In the loop over UDP and in
    the loop over TCP, whatever the server sends and whenever the timer ticks: an
    [OutRegisterPeer] that a step sends carries the host's present id and serial,
    and when it is sent the key of the host is confirmed, it is confirmed for this
    server, and no other server's mismatch of identity is being solved. *)
Theorem peer_needs_confirmed_key (e : RzEvent + TcpEvent) u t r z :
  let z' := match e with
            | inl e => (udp_step env e u r z).2
            | inr e => (tcp_step env e t r z).2
            end in
  ∃ acts, z_out z' = z_out z ++ acts ∧
  ∀ i s, OutRegisterPeer i s ∈ acts →
    confirmed r z' ∧ i = id (mem (z_config z')) ∧ s = get_serial (z_config2 z').
Proof.
  intros z'.
  assert (∃ acts, z_out z' = z_out z ++ acts ∧ Forall (peer_ok r z') acts) as (acts & E & Ha).
  { unfold z'. clear z'. destruct e as [[now|now msg|x]|[now|now [msg|]|now|]]; cbn [udp_step tcp_step].
    - revert z. apply (posts_ret r (udp_tick env now r u)). unfold udp_tick.
      repeat (apply posts_after; [by frame|intros ?]). destruct (a : bool); [apply posts_quiet; frame|].
      apply posts_after; [by frame|intros public]. cbv zeta.
      destruct (_ || _); [|apply posts_quiet; frame].
      apply posts_after; [frame; auto using frames_lost|intros u']. apply posts_ret, register_peer_posts.
    - revert z. apply (posts_ret r (handle_resp env now _ u r msg)). apply handle_resp_posts, frames_udp_upd.
    - revert z. apply posts_quiet. frame.
    - revert z. apply (posts_ret r (tcp_tick env now r t)). unfold tcp_tick.
      apply posts_after; [by frame|intros leave]. destruct (leave : bool); [apply posts_quiet; frame|].
      destruct (_ <? _)%Z; [apply posts_quiet; frame|]. destruct (_ <=? _)%Z; [|apply posts_quiet; frame].
      apply posts_ret, register_peer_posts.
    - revert z. cbv zeta. apply (posts_ret r (handle_resp env now _ _ r msg)). apply handle_resp_posts, frames_tcp_upd.
    - revert z. apply posts_quiet. frame.
    - revert z. apply posts_quiet. frame. done.
    - revert z. apply posts_quiet. frame. }
  exists acts. split; [done|]. intros i s Hin. rewrite Forall_forall in Ha. by apply Ha in Hin.
Qed.

(** ** Registration *)

(** The id the host gives, which depends on the stored one only. *)
Definition given_id (stored : string) : string :=
  if is_empty stored || (6 <? str_len stored)%nat
  then default stored (gen_id g (rz_hostname env) (rz_draw env)) else stored.

Lemma get_id_given c :
  (get_id (rz_machine env) g (rz_rng env) (rz_hostname env) (rz_draw env) c).1 = given_id (id (mem c)).
Proof. unfold get_id, given_id. destruct (_ || _); [|done]. by destruct (gen_id _ _ _). Qed.

Lemma given_id_idem i : given_id (given_id i) = given_id i.
Proof.
  unfold given_id. destruct (is_empty i || _) eqn:E; [|by rewrite E].
  destruct (gen_id _ _ _) as [t|].
  - change (default i (Some t)) with t. by destruct (is_empty t || (6 <? str_len t)%nat).
  - change (default i None) with i. by rewrite E.
Qed.

(** What a registration leaves of the state. *)
Record registering (z z' : RzNet) : Prop := {
  reg_solving : z_solving z' = z_solving z;
  reg_config2 : z_config2 z' = z_config2 z;
  reg_exit : z_should_exit z' = z_should_exit z;
  reg_confirmed : key_confirmed (mem (z_config z')) = key_confirmed (mem (z_config z));
  reg_keys : keys_confirmed (mem (z_config z')) = keys_confirmed (mem (z_config z));
  reg_id : id (mem (z_config z')) = given_id (id (mem (z_config z)))
}.

Hypothesis Hfault : rz_fault env = None.

Lemma my_id_run z :
  ∃ z', my_id env z = (Ok (given_id (id (mem (z_config z)))), z') ∧ registering z z' ∧ z_out z' = z_out z.
Proof.
  unfold my_id. pose proof (get_id_given (z_config z)) as E. pose proof (get_id_mem (z_config z)) as H.
  destruct (get_id _ _ _ _ _ _) as [i c]. simpl in E. destruct H as (Hi & H1 & H2). subst i.
  eexists. split; [done|]. by split; [split|].
Qed.

Lemma get_key_pair_run z :
  ∃ p z', get_key_pair env z = (Ok p, z') ∧ z_out z' = z_out z
    ∧ z_solving z' = z_solving z ∧ z_config2 z' = z_config2 z ∧ z_should_exit z' = z_should_exit z
    ∧ key_confirmed (mem (z_config z')) = key_confirmed (mem (z_config z))
    ∧ keys_confirmed (mem (z_config z')) = keys_confirmed (mem (z_config z))
    ∧ id (mem (z_config z')) = id (mem (z_config z)).
Proof. unfold get_key_pair. cbv zeta. repeat case_match; by eexists _, _. Qed.

Lemma register_pk_run z :
  ∃ pk z', register_pk env z = (Ok (), z') ∧ registering z z'
    ∧ z_out z' = z_out z ++ [OutRegisterPk (given_id (id (mem (z_config z)))) (get_uuid (rz_machine env)) pk
                               (no_register_device env)].
Proof.
  unfold register_pk, mbind, R_bind.
  destruct (get_key_pair_run z) as (p & z1 & E1 & Ho1 & Hs1 & H21 & He1 & Hc1 & Hk1 & Hi1). rewrite E1.
  destruct (my_id_run z1) as (z2 & E2 & [] & Ho2). rewrite E2. unfold send. rewrite Hfault. simpl.
  eexists _, _. split; [done|]. simpl. split; [split; simpl; congruence|]. by rewrite Ho2, Ho1, Hi1.
Qed.

Lemma register_peer_run r z :
  confirmed r z →
  ∃ z', register_peer env r z = (Ok (), z') ∧ registering z z'
    ∧ z_out z' = z_out z ++ [OutRegisterPeer (given_id (id (mem (z_config z)))) (get_serial (z_config2 z))].
Proof.
  intros (H1 & H2 & H3). unfold register_peer, mbind, R_bind. cbn [reads].
  replace (is_empty (z_solving z) || String.eqb (z_solving z) (host r)) with true.
  2: { symmetry. destruct H3 as [->|H3]; [done|]. rewrite H3, String.eqb_refl. apply orb_true_r. }
  cbn [negb reads]. rewrite H1, H2. cbn [negb orb].
  destruct (my_id_run z) as (z' & -> & Hr & Ho). destruct Hr. unfold send. rewrite Hfault. simpl.
  eexists. split; [done|]. simpl. split; [by split|]. by rewrite Ho, reg_config3.
Qed.

Lemma set_confirmed_run v c :
  key_confirmed (mem (set_key_confirmed env v c)) = v ∧ id (mem (set_key_confirmed env v c)) = id (mem c)
  ∧ (v = true → keys_confirmed (mem (set_key_confirmed env v c)) = keys_confirmed (mem c)).
Proof.
  unfold set_key_confirmed. destruct (Bool.eqb_spec (key_confirmed (mem c)) v) as [<-|]; [done|].
  simpl. by destruct v.
Qed.

Lemma set_host_confirmed_run h c :
  get_host_key_confirmed h (set_host_key_confirmed env h true c) = true
  ∧ id (mem (set_host_key_confirmed env h true c)) = id (mem c)
  ∧ key_confirmed (mem (set_host_key_confirmed env h true c)) = key_confirmed (mem c).
Proof.
  unfold set_host_key_confirmed. destruct (get_host_key_confirmed h c) eqn:E; simpl; [done|].
  split_and!; [|done|done]. unfold get_host_key_confirmed. simpl. by rewrite lookup_insert_eq.
Qed.

Lemma report_run h l z :
  ∃ z', report_latency env h l z = (Ok (), z') ∧ z_out z' = z_out z
    ∧ z_config z' = z_config z ∧ z_solving z' = z_solving z ∧ z_should_exit z' = z_should_exit z
    ∧ serial (mem (z_config2 z')) = serial (mem (z_config2 z))
    ∧ options (mem (z_config2 z')) = options (mem (z_config2 z)).
Proof.
  unfold report_latency, modify.
  destruct (update_latency (rz_machine env) (rz_iter env) h l (z_online z) (z_config2 z)) as [o c2] eqn:E.
  eexists. split; [done|]. simpl. unfold update_latency in E. injection E as _ <-.
  split_and!; try done; by repeat case_match.
Qed.

Lemma udp_upd_run now h u z :
  ∃ u' z', udp_update_latency env now h u z = (Ok u', z') ∧ z_out z' = z_out z
    ∧ z_config z' = z_config z ∧ z_solving z' = z_solving z ∧ z_should_exit z' = z_should_exit z
    ∧ serial (mem (z_config2 z')) = serial (mem (z_config2 z))
    ∧ last_register_sent u' = None ∧ fails u' = 0%Z ∧ last_register_resp u' = Some now.
Proof.
  unfold udp_update_latency. destruct (smooth _ _) as [ema lat].
  destruct (_ || _); [by eexists _, z|]. destruct (_ || _); [|by eexists _, z].
  destruct (report_run h lat z) as (z' & E & H). unfold mbind, R_bind. rewrite E.
  eexists _, z'. split; [done|]. naive_solver.
Qed.

(** The server confirms the key: the host tells it its id. *)
Lemma confirmed_registers now k u r z :
  ∃ u' r' z', udp_step env (Arrived now (RegisterPkResponse RpOK k)) u r z = (Ok (Some (u', r')), z')
    ∧ confirmed r z' ∧ id (mem (z_config z')) = given_id (id (mem (z_config z)))
    ∧ z_out z' = z_out z ++ [OutRegisterPeer (given_id (id (mem (z_config z)))) (get_serial (z_config2 z))].
Proof.
  cbn [udp_step handle_resp]. unfold mbind, R_bind.
  destruct (udp_upd_run now (host r) u z) as (u1 & z1 & -> & Ho & Hc & Hs & _ & H2 & _). cbn [with_config modify].
  set (z2 := _ <| z_solving := _ |>).
  assert (confirmed r z2 ∧ id (mem (z_config z2)) = id (mem (z_config z1))) as [Hconf Hid].
  { unfold z2, confirmed. simpl.
    destruct (set_confirmed_run true (z_config z1)) as (A1 & A2 & _).
    destruct (set_host_confirmed_run (host_prefix r) (set_key_confirmed env true (z_config z1))) as (B1 & B2 & B3).
    unfold get_key_confirmed. rewrite B3, B2. split_and!; auto. }
  destruct (register_peer_run r z2 Hconf) as (z3 & -> & Hr & Ho3). destruct Hr.
  eexists _, _, z3. split; [done|].
  assert (get_serial (z_config2 z2) = get_serial (z_config2 z)) as Hser by (unfold get_serial, z2; simpl; by rewrite H2).
  rewrite Hid, Hc in Ho3, reg_id0. rewrite Hser in Ho3. split_and!.
  - destruct Hconf as (C1 & C2 & C3). unfold confirmed, get_key_confirmed, get_host_key_confirmed in *.
    by rewrite reg_confirmed0, reg_keys0, reg_solving0.
  - done.
  - rewrite Ho3. unfold z2. simpl. by rewrite Ho.
Qed.

(** The server reports a mismatch: the host draws a new id and sends its key. *)
Lemma mismatch_registers now k u r z :
  z_solving z = EmptyString ∨ z_solving z = host r →
  ∃ u' r' z' pk, udp_step env (Arrived now (RegisterPkResponse RpUuidMismatch k)) u r z = (Ok (Some (u', r')), z')
    ∧ given_id (id (mem (z_config z'))) = given_id (show_Z (rz_new_id env))
    ∧ serial (mem (z_config2 z')) = serial (mem (z_config2 z)) ∧ host r' = host r
    ∧ z_out z' = z_out z ++ [OutRegisterPk (given_id (show_Z (rz_new_id env))) (get_uuid (rz_machine env)) pk
                               (no_register_device env)].
Proof.
  intros Hsolv. cbn [udp_step handle_resp]. unfold mbind, R_bind.
  destruct (udp_upd_run now (host r) u z) as (u1 & z1 & -> & Ho & Hc & Hs & _ & H2 & _).
  unfold handle_uuid_mismatch, mbind, R_bind. cbn [reads]. rewrite Hs.
  replace (is_empty (z_solving z) || String.eqb (z_solving z) (host r)) with true.
  2: { symmetry. destruct Hsolv as [->|H]; [done|]. rewrite H, String.eqb_refl. apply orb_true_r. }
  cbn [with_config modify]. set (z2 := _ <| z_solving := _ |>).
  destruct (register_pk_run z2) as (pk & z3 & -> & [] & Ho3).
  assert (id (mem (z_config z2)) = show_Z (rz_new_id env)) as Hid.
  { unfold z2. simpl. unfold update_id, set_id. case_match eqn:E; [|done]. by apply String.eqb_eq in E. }
  rewrite Hid in Ho3, reg_id0. eexists _, _, z3, pk. split; [done|].
  rewrite reg_id0, given_id_idem, reg_config3. split; [done|]. split; [done|]. split; [by destruct (0 <? k)%Z|].
  rewrite Ho3. unfold z2. simpl. by rewrite Ho.
Qed.

Definition tells_key (i : string) (z z' : RzNet) : Prop :=
  ∃ uuid pk nr, z_out z' = z_out z ++ [OutRegisterPk i uuid pk nr].

(** The step sends the host's id, confirmed. *)
Definition tells_id (e : RzEvent) (u : Udp) (r : RendezvousMediator) (z : RzNet) (i : string) (s : Z) : Prop :=
  ∃ u' r' z', udp_step env e u r z = (Ok (Some (u', r')), z')
    ∧ z_out z' = z_out z ++ [OutRegisterPeer i s] ∧ confirmed r z'.

(** C18: registration completes.  With a socket that can be written to, and no other
    server's mismatch being solved: when a registration is due, a tick sends either
    the id, when the key is confirmed, or the public key; when the server then
    confirms the key, the host sends its id at once, the same one; and when the
    server reports a mismatch of the machine's identity instead, the host sends its
    key with its new id, and that new id once it is confirmed. *)
Theorem registration_completes now u r z :
  z_should_exit z = false → z_solving z = EmptyString ∨ z_solving z = host r →
  last_register_sent u = None → udp_expired now u = true →
  let i := given_id (id (mem (z_config z))) in
  let new := given_id (show_Z (rz_new_id env)) in
  let s := get_serial (z_config2 z) in
  tells_id (Tick now) u r z i s
  ∨ ∃ u1 z1, udp_step env (Tick now) u r z = (Ok (Some (u1, r)), z1) ∧ tells_key i z z1
    ∧ ∀ now' k,
      tells_id (Arrived now' (RegisterPkResponse RpOK k)) u1 r z1 i s
      ∧ ∃ u2 r2 z2, udp_step env (Arrived now' (RegisterPkResponse RpUuidMismatch k)) u1 r z1
          = (Ok (Some (u2, r2)), z2)
        ∧ tells_key new z1 z2
        ∧ ∀ now'' k', tells_id (Arrived now'' (RegisterPkResponse RpOK k')) u2 r2 z2 new s.
Proof.
  intros Hexit Hsolv Hsent Hexp i new s.
  assert (∀ e, register_peer env r z = e →
    udp_step env (Tick now) u r z = match e with
      | (Ok _, z') => (Ok (Some (mkUdp (reg_timeout u) (fails u) (last_register_resp u) (Some now)
                                   (last_dns_check u) (old_latency u) (ema_latency u), r)), z')
      | (Err x, z') => (Err x, z') end) as Htick.
  { intros e He. cbn [udp_step]. unfold udp_tick, mbind, R_bind. cbn [reads]. rewrite Hexit.
    unfold udp_timeout. rewrite Hsent, Hexp. cbn [andb orb]. rewrite andb_false_r.
    rewrite bool_decide_true by done. cbn [andb orb mret R_ret]. rewrite He. by destruct e as [[]]. }
  destruct (get_key_confirmed (z_config z) && get_host_key_confirmed (host_prefix r) (z_config z)) eqn:Hk.
  - apply andb_true_iff in Hk as [H1 H2].
    destruct (register_peer_run r z) as (z1 & E & [] & Ho); [done|]. left.
    specialize (Htick _ E). cbn in Htick. eexists _, r, z1. split; [exact Htick|]. split; [done|].
    unfold confirmed, get_key_confirmed, get_host_key_confirmed in *. by rewrite reg_confirmed0, reg_keys0, reg_solving0.
  - assert (register_peer env r z = register_pk env z) as E.
    { unfold register_peer, mbind at 1, R_bind at 1. cbn [reads].
      replace (is_empty (z_solving z) || String.eqb (z_solving z) (host r)) with true.
      2: { symmetry. destruct Hsolv as [->|H]; [done|]. rewrite H, String.eqb_refl. apply orb_true_r. }
      cbn [negb]. unfold mbind at 1, R_bind at 1. cbn [reads].
      apply andb_false_iff in Hk as [->| ->]; [done|]. by rewrite orb_true_r. }
    destruct (register_pk_run z) as (pk & z1 & E1 & [] & Ho). rewrite <- E in E1. specialize (Htick _ E1). cbn in Htick.
    right. eexists _, z1. split; [exact Htick|]. split; [by eexists _, _, _|]. intros now' k.
    assert (given_id (id (mem (z_config z1))) = i) as Hi by (by rewrite reg_id0, given_id_idem).
    split.
    + edestruct confirmed_registers as (u2 & r2 & z2 & E2 & Hc & _ & Ho2). eexists u2, r2, z2.
      split; [exact E2|]. split; [|done]. by rewrite Ho2, Hi, reg_config3.
    + edestruct (mismatch_registers now' k) as (u2 & r2 & z2 & pk2 & E2 & Hi2 & Hs2 & Hh & Ho2);
        [by rewrite reg_solving0|]. eexists u2, r2, z2. split; [exact E2|]. split; [by eexists _, _, _|].
      intros now'' k'. edestruct confirmed_registers as (u3 & r3 & z3 & E3 & Hc & _ & Ho3).
      eexists u3, r3, z3. split; [exact E3|]. split; [|done]. rewrite Ho3, Hi2. unfold s, get_serial.
      by rewrite Hs2, reg_config3.
Qed.

(** ** A server that does not answer *)

(** What a tick does to the locals of the loop; [None]: it gives up. *)
Definition lost_pure (u : Udp) : option Udp :=
  let f := (fails u + 1)%Z in
  if should_fallback_to_tcp f then None else
  Some (mkUdp (reg_timeout u) f (last_register_resp u) (last_register_sent u) (last_dns_check u)
          (if (MAX_FAILS1 <=? f)%Z then 0%Z else old_latency u) (ema_latency u)).

Definition tick_pure (public : bool) (now : Z) (u : Udp) : option Udp :=
  let timeout := udp_timeout now u in
  let due := timeout || (bool_decide (last_register_sent u = None) && udp_expired now u) in
  let u := if public && timeout && (reg_timeout u <? MAX_REG_TIMEOUT)%Z
           then mkUdp (reg_timeout u + MIN_REG_TIMEOUT) (fails u) (last_register_resp u) (last_register_sent u)
                  (last_dns_check u) (old_latency u) (ema_latency u) else u in
  if due then
    u ← (if timeout then lost_pure u else Some u);
    Some (mkUdp (reg_timeout u) (fails u) (last_register_resp u) (Some now) (last_dns_check u)
            (old_latency u) (ema_latency u))
  else Some u.

(** What matters of the shared state to a tick. *)
Definition calm (z z' : RzNet) : Prop :=
  z_should_exit z' = z_should_exit z ∧ using_public_server env z' = using_public_server env z.

Lemma calm_report h l z :
  ∃ z', report_latency env h l z = (Ok (), z') ∧ calm z z' ∧ z_online z' !! h = Some l.
Proof.
  destruct (report_run h l z) as (z' & E & _ & _ & _ & He & _ & Hop). exists z'. split; [done|].
  split; [split; [done|]|].
  - unfold using_public_server, get_custom_rendezvous_server, get_option. by rewrite Hop.
  - unfold report_latency, modify in E. destruct (update_latency _ _ _ _ _ _) as [o c2] eqn:Eu.
    injection E as <-. simpl. unfold update_latency in Eu. injection Eu as <- _. by rewrite lookup_insert_eq.
Qed.

Lemma calm_register r z : ∃ z', register_peer env r z = (Ok (), z') ∧ calm z z'.
Proof.
  assert (∀ z', registering z z' → calm z z') as Hc.
  { intros z' []. split; [done|]. unfold using_public_server. by rewrite reg_config3. }
  destruct (register_pk_run z) as (pk & z1 & E1 & H1 & _).
  unfold register_peer, mbind at 1, R_bind at 1. cbn [reads].
  destruct (negb _); [by exists z|]. unfold mbind at 1, R_bind at 1. cbn [reads].
  destruct (negb _ || _); [eauto|].
  destruct (my_id_run z) as (z2 & E2 & H2 & _). unfold mbind, R_bind. rewrite E2. cbn [reads].
  unfold send. rewrite Hfault. eexists. split; [done|]. by apply Hc in H2.
Qed.

Lemma lost_run now r u z :
  (0 <= fails u)%Z →
  match lost_pure u with
  | Some u' => ∃ z', udp_lost env now r u z = (Ok u', z') ∧ calm z z'
  | None => ∃ z', udp_lost env now r u z = (Err udp_failed, z') ∧ z_online z' !! host r = Some (-1)%Z ∧ calm z z'
  end.
Proof.
  intros Hf. unfold lost_pure, udp_lost. destruct (should_fallback_to_tcp _) eqn:E.
  - destruct (calm_report (host r) (-1) z) as (z' & E1 & Hc & Ho). unfold mbind, R_bind. rewrite E1. by exists z'.
  - unfold should_fallback_to_tcp, UDP_REGISTRATION_FAILURE_LIMIT in E. apply Z.leb_gt in E.
    replace (MAX_FAILS2 <=? fails u + 1)%Z with false by (symmetry; apply Z.leb_gt; unfold MAX_FAILS2; lia).
    destruct (MAX_FAILS1 <=? fails u + 1)%Z; [|by exists z].
    destruct (calm_report (host r) 0 z) as (z' & E1 & Hc & _). unfold mbind, R_bind. rewrite E1. by exists z'.
Qed.

Lemma tick_run now r u z :
  z_should_exit z = false → (0 <= fails u)%Z →
  match tick_pure (using_public_server env z) now u with
  | Some u' => ∃ z', udp_tick env now r u z = (Ok (Some u'), z') ∧ calm z z'
  | None => ∃ z', udp_tick env now r u z = (Err udp_failed, z') ∧ z_online z' !! host r = Some (-1)%Z ∧ calm z z'
  end.
Proof.
  intros He Hf. unfold tick_pure, udp_tick. rewrite bindE. cbn [reads]. rewrite He. rewrite bindE. cbn [reads].
  cbv zeta. set (u1 := if using_public_server env z && _ && _ then _ else _).
  assert (fails u1 = fails u) as Hf1 by (unfold u1; by case_match).
  assert (last_register_sent u1 = last_register_sent u) as -> by (unfold u1; by case_match).
  destruct (_ || _); [|by exists z]. destruct (udp_timeout now u).
  - pose proof (lost_run now r u1 z ltac:(lia)) as H. rewrite bindE.
    destruct (lost_pure u1) as [u2|]; cbn [mbind option_bind].
    + destruct H as (z1 & -> & Hc). rewrite bindE. destruct (calm_register r z1) as (z2 & -> & Hc2). exists z2.
      split; [done|]. destruct Hc, Hc2. split; congruence.
    + destruct H as (z1 & -> & Ho). by exists z1.
  - rewrite !bindE. cbn [mret R_ret mbind option_bind]. rewrite bindE.
    destruct (calm_register r z) as (z2 & -> & Hc2). by exists z2.
Qed.

(** The timer ticks at least once a second. *)
Fixpoint paced (t : Z) (ts : list Z) : Prop :=
  match ts with
  | [] => True
  | t' :: ts => (t <= t' <= t + 10 ^ 9)%Z ∧ paced t' ts
  end.

Definition last_tick (t : Z) (ts : list Z) : Z := foldl (λ _ t', t') t ts.

(** The loop, which started at [t0], at its tick at [t]: when it has sent its last
    registration, after how many that were lost. *)
Definition silent (t0 t : Z) (u : Udp) : Prop :=
  ∃ sent, last_register_resp u = None ∧ last_register_sent u = Some sent
  ∧ (0 <= fails u <= 3)%Z ∧ (reg_timeout u <= 3000 * (fails u + 1))%Z
  ∧ (sent <= t < sent + reg_timeout u * 10 ^ 6)%Z
  ∧ (2 * (sent - t0) <= (3 * fails u * (fails u + 1) + 2 * fails u) * 10 ^ 9)%Z.

Lemma udp_timeout_sent now t u :
  last_register_sent u = Some t → (t <= now)%Z →
  udp_timeout now u = (reg_timeout u * 10 ^ 6 <=? now - t)%Z.
Proof.
  intros H Ht. unfold udp_timeout, elapsed_ms. rewrite H, Z.max_r by lia. apply eq_true_iff_eq.
  rewrite !Z.leb_le. split; intros.
  - pose proof (Z.mul_div_le (now - t) (10 ^ 6)). lia.
  - apply Z.div_le_lower_bound; lia.
Qed.

Lemma silent_tick public t0 t t' u :
  silent t0 t u → (0 < reg_timeout u)%Z → (t <= t' <= t + 10 ^ 9)%Z →
  match tick_pure public t' u with
  | Some u' => silent t0 t' u' ∧ (0 < reg_timeout u')%Z
  | None => True
  end.
Proof.
  intros (sent & Hr & Hs & Hf & HT & Ht & Hb) Hpos Hp. unfold tick_pure. cbv zeta.
  rewrite (udp_timeout_sent t' sent u Hs) by lia. rewrite (bool_decide_false (last_register_sent u = None)) by congruence.
  destruct (Z.leb_spec (reg_timeout u * 10 ^ 6) (t' - sent)); rewrite ?andb_true_r, ?andb_false_r; cbn [orb andb].
  2: { split; [|done]. exists sent. split_and!; try done; lia. }
  set (u1 := if public && _ then _ else u).
  assert (last_register_resp u1 = None ∧ fails u1 = fails u ∧ (0 < reg_timeout u1 <= reg_timeout u + 3000)%Z)
    as (Hr1 & Hf1 & HT1) by (unfold u1, MIN_REG_TIMEOUT; case_match; simpl; split_and!; done || lia).
  unfold lost_pure, should_fallback_to_tcp, UDP_REGISTRATION_FAILURE_LIMIT. rewrite Hf1.
  destruct (Z.leb_spec 4 (fails u + 1)); cbn [mbind option_bind]; [done|]. simpl. split; [|lia].
  exists t'. simpl. split_and!; try done; lia.
Qed.

Lemma udp_silence t0 ts t u r z :
  silent t0 t u → (0 < reg_timeout u)%Z → paced t ts → z_should_exit z = false →
  (t0 + 34 * 10 ^ 9 <= last_tick t ts)%Z →
  ∃ z', udp_run env (Tick <$> ts) u r z = (Err udp_failed, z') ∧ z_online z' !! host r = Some (-1)%Z ∧ calm z z'.
Proof.
  revert t u z. induction ts as [|t' ts IH]; intros t u z Hs Hpos Hp He Hl.
  - exfalso. destruct Hs as (sent & _ & _ & Hf & HT & Ht & Hb). simpl in Hl. nia.
  - destruct Hp as [Ht Hp]. pose proof (silent_tick (using_public_server env z) _ _ _ _ Hs Hpos Ht) as Hn.
    assert (0 <= fails u)%Z as Hf by (destruct Hs as (? & ? & ? & ? & ?); lia).
    pose proof (tick_run t' r u z He Hf) as Hr. cbn [fmap list_fmap udp_run udp_step]. rewrite !bindE.
    destruct (tick_pure _ t' u) as [u'|].
    + destruct Hr as (z1 & -> & Hc). destruct Hn as [Hn Hpos'].
      destruct (IH t' u' z1) as (z2 & E & Ho & Hc2); [done..|by rewrite (proj1 Hc)|done|].
      exists z2. split; [exact E|]. split; [done|]. destruct Hc, Hc2. split; congruence.
    + destruct Hr as (z1 & -> & Ho & Hc). by exists z1.
Qed.

(** C40: a server that does not answer is given up.  When the loop over UDP starts
    and nothing arrives: if its timer ticks at least once a second and for 34
    seconds, whatever the moments, it does not go on sending but fails, with the
    host's latency reported as -1; and [start], which tried UDP first, goes on
    over TCP from there. *)
Theorem udp_silence_ends t0 ts r z :
  z_should_exit z = false → paced t0 ts → (t0 + 34 * 10 ^ 9 <= last_tick t0 ts)%Z →
  let loop := udp_run env (Tick <$> (t0 :: ts)) (udp_new t0) r in
  ∃ z', loop z = (Err udp_failed, z') ∧ z_online z' !! host r = Some (-1)%Z
  ∧ ∀ tcp,
      should_start_with_tcp false (is_proxy g (z_config2 z)) (use_ws g (z_config2 z)) (is_udp_disabled env z) false
        = false →
      start env false loop tcp z = tcp z'.
Proof.
  intros He Hp Hl loop.
  assert (∃ z', loop z = (Err udp_failed, z') ∧ z_online z' !! host r = Some (-1)%Z ∧ calm z z')
    as (z' & E & Ho & Hc).
  { unfold loop. cbn [fmap list_fmap udp_run udp_step]. rewrite !bindE.
    pose proof (tick_run t0 r (udp_new t0) z He ltac:(done)) as Hr.
    replace (tick_pure _ _ _) with (Some (mkUdp 3000 0 None (Some t0) t0 0 0)) in Hr
      by (unfold tick_pure; by rewrite andb_false_r).
    destruct Hr as (z1 & -> & Hc).
    destruct (udp_silence t0 ts t0 (mkUdp 3000 0 None (Some t0) t0 0 0) r z1) as (z2 & E & Ho & Hc2); try done.
    - exists t0. simpl. split_and!; try done; lia.
    - by rewrite (proj1 Hc).
    - exists z2. split; [exact E|]. split; [done|]. destruct Hc, Hc2. split; congruence. }
  exists z'. split; [done|]. split; [done|]. intros tcp Hs. unfold start. rewrite Hs, E.
  by rewrite (proj1 Hc), He.
Qed.

(** ** The locals of the loop *)

Definition udp_bounds (u : Udp) : Prop :=
  (3000 <= reg_timeout u <= 30000)%Z ∧ (3000 | reg_timeout u)%Z ∧ (0 <= fails u <= 3)%Z
  ∧ (0 <= ema_latency u <= 10 ^ 6)%Z ∧ (0 <= old_latency u <= 10 ^ 6)%Z.
Definition udp_ok (u : Udp) : Prop := udp_bounds u ∧ (last_register_sent u = None → fails u = 0%Z).

(** What a program returns, when it does. *)
Definition yields {A} (Q : A → Prop) (x : R A) : Prop :=
  ∀ z, match (x z).1 with Ok a => Q a | Err _ => True end.

Lemma yields_ret {A} (Q : A → Prop) a : Q a → yields Q (mret a).
Proof. by intros H z. Qed.

Lemma yields_bind {A B} (P : A → Prop) (Q : B → Prop) (x : R A) (k : A → R B) :
  yields P x → (∀ a, P a → yields Q (k a)) → yields Q (x ≫= k).
Proof.
  intros Hx Hk z. rewrite bindE. specialize (Hx z). destruct (x z) as [[a|e] z']; [|done]. by apply Hk.
Qed.

Lemma yields_then {A B} (Q : B → Prop) (x : R A) (k : A → R B) :
  (∀ a, yields Q (k a)) → yields Q (x ≫= k).
Proof. intros H. by apply (yields_bind (λ _, True)); [intros z; case_match|]. Qed.

Lemma smooth_bounded ema l :
  (0 <= ema <= 10 ^ 6)%Z → (0 <= l <= 10 ^ 6)%Z →
  (0 <= (smooth ema l).1 <= 10 ^ 6)%Z ∧ (smooth ema l).2 = (smooth ema l).1.
Proof.
  intros He Hl. unfold smooth. destruct (Z.eqb_spec ema 0); [done|]. cbn [fst snd]. split; [|done].
  rewrite !Z.quot_div_nonneg by lia.
  pose proof (Z.div_mod l 30). pose proof (Z.mod_pos_bound l 30).
  pose proof (Z.div_mod (ema * 29) 30). pose proof (Z.mod_pos_bound (ema * 29) 30). lia.
Qed.

Lemma udp_upd_ok now h u : udp_ok u → yields udp_ok (udp_update_latency env now h u).
Proof.
  intros [(HT & Hd & Hf & He & Ho) Hn]. unfold udp_update_latency, MIN_REG_TIMEOUT. cbv zeta. cbn [ema_latency].
  set (l := match last_register_sent u with Some t => elapsed_us now t | None => 0%Z end).
  assert (3000 | 3000)%Z as Hd' by (by exists 1%Z).
  destruct ((l <? 0)%Z || (1000000 <? l)%Z) eqn:El.
  { apply yields_ret. unfold udp_ok, udp_bounds. cbn. split_and!; done || lia. }
  apply orb_false_iff in El as [El1 El2]. apply Z.ltb_ge in El1, El2.
  destruct (smooth_bounded (ema_latency u) l He ltac:(lia)) as [H1 H2].
  destruct (smooth (ema_latency u) l) as [e l']. cbn [fst snd] in H1, H2. subst l'.
  destruct (_ || _); [apply yields_then; intros _|]; apply yields_ret; unfold udp_ok; cbn; split_and!; done || lia.
Qed.

Lemma udp_lost_ok now r u :
  udp_bounds u → yields udp_bounds (udp_lost env now r u) ∧ ∀ z, z_out (udp_lost env now r u z).2 = z_out z.
Proof.
  intros (HT & Hd & Hf & He & Ho). unfold udp_lost. cbv zeta.
  unfold should_fallback_to_tcp, UDP_REGISTRATION_FAILURE_LIMIT, MAX_FAILS2.
  assert (∀ h l z, z_out (report_latency env h l z).2 = z_out z) as Hr.
  { intros h l z. by destruct (report_run h l z) as (z' & -> & H & _). }
  destruct (Z.leb_spec 4 (fails u + 1)).
  { split; [apply yields_then; by intros _ z|]. intros z. rewrite bindE. specialize (Hr (host r) (-1)%Z z).
    by destruct (report_latency _ _ _ _) as [[]]. }
  destruct (_ <=? _)%Z.
  - split; [apply yields_then; intros _; apply yields_ret; unfold udp_bounds; cbn; split_and!; done || lia|].
    intros z. rewrite bindE. specialize (Hr (host r) 0%Z z). by destruct (report_latency _ _ _ _) as [[]].
  - split; [|done]. apply yields_ret. unfold udp_bounds. cbn. split_and!; done || lia.
Qed.

Lemma udp_tick_ok now r u :
  udp_ok u → yields (λ o, match o with Some u' => udp_ok u' | None => True end) (udp_tick env now r u).
Proof.
  intros [Hu Hn]. unfold udp_tick. apply yields_then. intros leave. destruct (leave : bool); [by apply yields_ret|].
  apply yields_then. intros public. cbv zeta.
  set (u1 := if (public : bool) && _ && _ then _ else u).
  assert (udp_bounds u1) as Hu1.
  { unfold u1. unfold MAX_REG_TIMEOUT, MIN_REG_TIMEOUT. destruct (_ && _ && _) eqn:E; [|done].
    apply andb_true_iff in E as [_ E]. apply Z.ltb_lt in E. unfold MAX_REG_TIMEOUT in E. destruct Hu as (HT & [q Hd] & Hf & He & Ho).
    unfold udp_bounds. cbn. split_and!; try done; try lia. exists (q + 1)%Z. lia. }
  assert (last_register_sent u1 = None → fails u1 = 0%Z) as Hn1 by (unfold u1; by case_match).
  destruct (_ || _); [|by apply yields_ret]. apply (yields_bind udp_bounds).
  - case_match; [by apply udp_lost_ok|by apply yields_ret].
  - intros u2 Hu2. apply yields_then. intros _. by apply yields_ret.
Qed.

(** The locals of the loop over UDP stay within their bounds, from its start,
    through every tick and every message: the time it waits for an answer is a
    multiple of 3 s, from 3 s to 30 s; the failures in a row are at most 3; the
    latencies that are smoothed and reported are at most a second.  From such a
    state, losing an answer never binds the socket anew: that branch, for 4
    failures, comes after the one that gives up at 4; and a registration that is
    due waits for the ordinary interval, never for the shorter one of a recovery,
    since after a failure an answer is always awaited. *)
Lemma udp_state_bounded e u r z :
  udp_ok u →
  match (udp_step env e u r z).1 with Ok (Some (u', _)) => udp_ok u' | _ => True end
  ∧ (∀ now, udp_ok (udp_new now))
  ∧ ∀ now,
      (∀ h, Rebind h ∉ drop (length (z_out z)) (z_out (udp_lost env now r u z).2))
      ∧ (last_register_sent u = None →
         udp_expired now u = match last_register_resp u with
                             | Some t => (REG_INTERVAL <=? elapsed_ms now t)%Z
                             | None => true
                             end).
Proof.
  intros Hu. split_and!.
  - revert z. apply (λ H, H : yields (λ o, match o with Some (u', _) => udp_ok u' | None => True end) _).
    destruct e as [now|now msg|x]; cbn [udp_step]; [| |by intros z].
    + apply (yields_bind _ _ _ _ (udp_tick_ok now r u Hu)). intros [u'|] H; by apply yields_ret.
    + apply (yields_bind (λ ur, udp_ok ur.1)); [|intros [u' r'] H; by apply yields_ret].
      destruct msg; cbn [handle_resp];
        try (repeat (apply yields_then; intros ?); by apply yields_ret);
        (apply (yields_bind udp_ok); [by apply udp_upd_ok|intros u' Hu']);
        apply yields_then; intros _; by apply yields_ret.
  - intros now. unfold udp_ok, udp_bounds, udp_new, MIN_REG_TIMEOUT. cbn. split_and!; try lia. by exists 1%Z.
  - intros now. split; [intros h; rewrite (proj2 (udp_lost_ok now r u (proj1 Hu))), drop_all; apply not_elem_of_nil|].
    intros Hs. unfold udp_expired. destruct Hu as (_ & Hn). rewrite (Hn Hs).
    by destruct (last_register_resp u).
Qed.
End Safety.

(** ** Instances *)

Module DemoRz.
#[export] Existing Instance Toy.toy_crypto.

Definition env : RzEnv := {|
  rz_globals := empty_globals; rz_machine := Toy.machine; rz_rng := λ n, Z.of_nat n; rz_hostname := None;
  rz_draw := 234567890; rz_new_id := 345678901; rz_new_pair := ("sk", "pk")%string; rz_new_uuid := "uuid";
  rz_iter := map_to_list; rz_fault := None; rz_ipv6 := None; rz_intranet := None
|}.
Definition zero : SocketAddr := SAddrV4 [0; 0; 0; 0]%Z 0.
Definition net : RzNet :=
  mkRzNet (store Config_default) (c2_store Toy.machine Config2_default) None ∅ "" false false false
    (zero, 0%Z) (zero, 0%Z) 21118 [].
Definition server : RendezvousMediator :=
  {| rz_ipv4 := true; host := "rs.example.org:21116"; host_prefix := "rs"; keep_alive := 60000 |}.

(** The ticks of 34 seconds. *)
Definition ticks : list Z := (λ n, Z.of_nat n * 10 ^ 9)%Z <$> seq 1 34.
End DemoRz.
Import DemoRz.

Lemma registration_completes_witness :
  ∃ u1 z1, udp_step env (Tick 0) (udp_new 0) server net = (Ok (Some (u1, server)), z1)
    ∧ tells_key "234567890" net z1.
Proof.
  destruct (registration_completes env eq_refl 0 (udp_new 0) server net eq_refl (or_introl eq_refl) eq_refl eq_refl)
    as [(u' & r' & z' & E & Ho & Hc)|(u1 & z1 & E & Hk & _)].
  - exfalso. revert Ho. vm_compute in E. injection E as _ _ <-. by vm_compute.
  - exists u1, z1. split; [exact E|exact Hk].
Defined.

Lemma udp_silence_ends_witness :
  (udp_run env (Tick <$> (0%Z :: ticks)) (udp_new 0) server net).1 = Err udp_failed.
Proof.
  destruct (udp_silence_ends env eq_refl 0 ticks server net eq_refl) as (z' & E & _).
  - vm_compute. repeat split; discriminate.
  - vm_compute. discriminate.
  - exact (f_equal fst E).
Defined.

Lemma udp_state_bounded_witness :
  match (udp_step env (Tick 0) (udp_new 0) server net).1 with Ok (Some (u', _)) => udp_ok u' | _ => True end.
Proof.
  apply (udp_state_bounded env (Tick 0) (udp_new 0) server net).
  unfold udp_ok, udp_bounds, udp_new, MIN_REG_TIMEOUT. cbn. split_and!; try lia. by exists 1%Z.
Defined.
