(* ===== verification/Peers.v ===== *)
(** * What a client remembers of its peers

    [libs/hbb_common/src/config.rs]: the defaults a user chose
    ([UserDefaultConfig::get]) and [PeerConfig], one file per peer with its
    sealed passwords and checked fields, the naming of those files, and the list
    of recent peers; the accessors of [src/ui_interface.rs] on them.  The TOML
    text is a crate's: a file holds the record that was serialised, and what
    serde does by attribute is modelled.  A field skipped when empty is the same
    as an empty one, since reading an absent or an empty one gives its default.
    Floats of [UserDefaultConfig] are those of the standard library, as the class
    [F64].  The backup of the history exists on Android only and is left out. *)

From S2P Require Import Prelude Strs Secret Options.
From Stdlib Require Import Ascii String.

Local Open Scope string_scope.
#[local] Arguments String.append _ _ : simpl nomatch.

Definition OPTION_VIEW_STYLE : string := "view_style".
Definition OPTION_SCROLL_STYLE : string := "scroll_style".
Definition OPTION_IMAGE_QUALITY : string := "image_quality".
Definition OPTION_CODEC_PREFERENCE : string := "codec-preference".
Definition OPTION_CUSTOM_IMAGE_QUALITY : string := "custom_image_quality".
Definition OPTION_CUSTOM_FPS : string := "custom-fps".
Definition OPTION_ENABLE_FILE_COPY_PASTE : string := "enable-file-copy-paste".
Definition OPTION_EDGE_SCROLL_EDGE_THICKNESS : string := "edge-scroll-edge-thickness".
Definition OPTION_TRACKPAD_SPEED : string := "trackpad-speed".
Definition OPTION_REVERSE_MOUSE_WHEEL : string := "reverse_mouse_wheel".
Definition OPTION_DISPLAYS_AS_INDIVIDUAL_WINDOWS : string := "displays_as_individual_windows".
Definition OPTION_USE_ALL_MY_DISPLAYS_FOR_THE_REMOTE_SESSION : string :=
  "use_all_my_displays_for_the_remote_session".
Definition OPTION_ZOOM_CURSOR : string := "zoom-cursor".
Definition OPTION_I444 : string := "i444".
Definition OPTION_SWAP_LEFT_RIGHT_MOUSE : string := "swap-left-right-mouse".
Definition OPTION_COLLAPSE_TOOLBAR : string := "collapse_toolbar".
Definition OPTION_TERMINAL_PERSISTENT : string := "terminal-persistent".

(** [f64]: its text forms, its order, and the cast to [i32]. *)
Class F64 := {
  f64 : Type;
  f64_num :: NumString f64;
  f64_of_Z : Z → f64;
  f64_to_i32 : f64 → Z
}.

Record PeerInfoSerde := { info_username : string; info_hostname : string; info_platform : string }.
Record TransferSerde := { write_jobs : list string; read_jobs : list string }.

Record PeerConfig := mkPeerConfig {
  p_password : string;
  p_size : Z * Z * Z * Z; p_size_ft : Z * Z * Z * Z; p_size_pf : Z * Z * Z * Z;
  p_view_style : string; p_scroll_style : string; p_edge_scroll_edge_thickness : Z;
  p_image_quality : string; p_custom_image_quality : list Z;
  p_show_remote_cursor : bool; p_lock_after_session_end : bool; p_terminal_persistent : bool;
  p_privacy_mode : bool; p_allow_swap_key : bool;
  p_port_forwards : list (Z * string * Z); p_direct_failures : Z;
  p_disable_audio : bool; p_disable_clipboard : bool; p_enable_file_copy_paste : bool;
  p_show_quality_monitor : bool; p_follow_remote_cursor : bool; p_follow_remote_window : bool;
  p_keyboard_mode : string; p_view_only : bool; p_show_my_cursor : bool;
  p_sync_init_clipboard : bool; p_reverse_mouse_wheel : string;
  p_displays_as_individual_windows : string;
  p_use_all_my_displays_for_the_remote_session : string;
  p_trackpad_speed : Z; p_custom_resolutions : gmap string (Z * Z);
  p_options : smap; p_ui_flutter : smap; p_info : PeerInfoSerde; p_transfer : TransferSerde
}.
#[global] Instance eta_PeerConfig : Settable PeerConfig := λ c,
  mkPeerConfig (p_password c) (p_size c) (p_size_ft c) (p_size_pf c) (p_view_style c) (p_scroll_style c)
    (p_edge_scroll_edge_thickness c) (p_image_quality c) (p_custom_image_quality c)
    (p_show_remote_cursor c) (p_lock_after_session_end c) (p_terminal_persistent c) (p_privacy_mode c)
    (p_allow_swap_key c) (p_port_forwards c) (p_direct_failures c) (p_disable_audio c)
    (p_disable_clipboard c) (p_enable_file_copy_paste c) (p_show_quality_monitor c)
    (p_follow_remote_cursor c) (p_follow_remote_window c) (p_keyboard_mode c) (p_view_only c)
    (p_show_my_cursor c) (p_sync_init_clipboard c) (p_reverse_mouse_wheel c)
    (p_displays_as_individual_windows c) (p_use_all_my_displays_for_the_remote_session c)
    (p_trackpad_speed c) (p_custom_resolutions c) (p_options c) (p_ui_flutter c) (p_info c) (p_transfer c).

(** The peers directory: what each file holds, [None] for one that does not parse,
    and the ids stored since the interface last asked. *)
Record PeerFiles := { files : gmap string (option PeerConfig); NEW_STORED_PEER_CONFIG : gset string }.
#[global] Instance eta_PeerFiles : Settable PeerFiles := λ f,
  {| files := files f; NEW_STORED_PEER_CONFIG := NEW_STORED_PEER_CONFIG f |}.

Section Peers.
  Context `{F : F64} `{C : Crypto}.
  Variable g : Globals.
  Variable m : Machine.
  Variable defaults : Stored smap.     (* USER_DEFAULT_CONFIG *)

(** ** Defaults *)

Definition ud_get (key : string) : string :=
  let str := get_string g defaults key in
  if String.eqb key OPTION_VIEW_STYLE then str "original" ["adaptive"]
  else if String.eqb key OPTION_SCROLL_STYLE then str "scrollauto" ["scrolledge"; "scrollbar"]
  else if String.eqb key OPTION_IMAGE_QUALITY then str "balanced" ["best"; "low"; "custom"]
  else if String.eqb key OPTION_CODEC_PREFERENCE then str "auto" ["vp8"; "vp9"; "av1"; "h264"; "h265"]
  else if String.eqb key OPTION_CUSTOM_IMAGE_QUALITY
  then get_num_string g defaults key (f64_of_Z 50) (f64_of_Z 10) (f64_of_Z 4095)
  else if String.eqb key OPTION_CUSTOM_FPS
  then get_num_string g defaults key (f64_of_Z 30) (f64_of_Z 5) (f64_of_Z 120)
  else if String.eqb key OPTION_ENABLE_FILE_COPY_PASTE then str "Y" [""; "N"]
  else if String.eqb key OPTION_EDGE_SCROLL_EDGE_THICKNESS then get_num_string (T := Z) g defaults key 100%Z 20%Z 150%Z
  else if String.eqb key OPTION_TRACKPAD_SPEED then get_num_string (T := Z) g defaults key 100%Z 10%Z 1000%Z
  else default "" (get_after g defaults key).

Definition read : string → string := ud_get.

(** The default of a boolean field with the given name. *)
Definition default_bool (field : string) : bool := String.eqb (read field) "Y".

Definition default_custom_image_quality : list Z :=
  [f64_to_i32 (default (f64_of_Z 50) (num_parse (read OPTION_CUSTOM_IMAGE_QUALITY)))].
Definition default_options : smap :=
  foldl (λ mp key, <[key := read key]> mp) ∅
    [OPTION_CODEC_PREFERENCE; OPTION_CUSTOM_FPS; OPTION_ZOOM_CURSOR; OPTION_I444;
     OPTION_SWAP_LEFT_RIGHT_MOUSE; OPTION_COLLAPSE_TOOLBAR].
Definition default_trackpad_speed : Z := default 100%Z (parse_i32 (read OPTION_TRACKPAD_SPEED)).
Definition default_edge_scroll_edge_thickness : Z :=
  default 100%Z (parse_i32 (read OPTION_EDGE_SCROLL_EDGE_THICKNESS)).

Definition PeerConfig_default : PeerConfig := {|
  p_password := ""; p_size := (0, 0, 0, 0)%Z; p_size_ft := (0, 0, 0, 0)%Z; p_size_pf := (0, 0, 0, 0)%Z;
  p_view_style := read OPTION_VIEW_STYLE; p_scroll_style := read OPTION_SCROLL_STYLE;
  p_edge_scroll_edge_thickness := default_edge_scroll_edge_thickness;
  p_image_quality := read OPTION_IMAGE_QUALITY; p_custom_image_quality := default_custom_image_quality;
  p_show_remote_cursor := default_bool "show_remote_cursor";
  p_lock_after_session_end := default_bool "lock_after_session_end";
  p_terminal_persistent := default_bool "terminal-persistent";
  p_privacy_mode := default_bool "privacy_mode"; p_allow_swap_key := default_bool "allow_swap_key";
  p_port_forwards := []; p_direct_failures := 0;
  p_disable_audio := default_bool "disable_audio"; p_disable_clipboard := default_bool "disable_clipboard";
  p_enable_file_copy_paste := default_bool "enable-file-copy-paste";
  p_show_quality_monitor := default_bool "show_quality_monitor";
  p_follow_remote_cursor := default_bool "follow_remote_cursor";
  p_follow_remote_window := default_bool "follow_remote_window";
  p_keyboard_mode := ""; p_view_only := default_bool "view_only";
  p_show_my_cursor := default_bool "show_my_cursor";
  p_sync_init_clipboard := default_bool "sync-init-clipboard";
  p_reverse_mouse_wheel := read OPTION_REVERSE_MOUSE_WHEEL;
  p_displays_as_individual_windows := read OPTION_DISPLAYS_AS_INDIVIDUAL_WINDOWS;
  p_use_all_my_displays_for_the_remote_session := read OPTION_USE_ALL_MY_DISPLAYS_FOR_THE_REMOTE_SESSION;
  p_trackpad_speed := default_trackpad_speed; p_custom_resolutions := ∅;
  p_options := default_options; p_ui_flutter := ∅;
  p_info := {| info_username := ""; info_hostname := ""; info_platform := "" |};
  p_transfer := {| write_jobs := []; read_jobs := [] |}
|}.

(** ** Reading and writing a file *)

(** [serde_field_string!]: an absent or empty field is its default. *)
Definition or_default (s d : string) : string := if is_empty s then d else s.

Definition deserialize_custom_image_quality (v : list Z) : list Z :=
  match v with
  | [x] => if (10 <=? x)%Z && (x <=? 4095)%Z then v else default_custom_image_quality
  | _ => default_custom_image_quality
  end.
Definition deserialize_trackpad_speed (v : Z) : Z :=
  if (10 <=? v)%Z && (v <=? 1000)%Z then v else default_trackpad_speed.
Definition deserialize_edge_scroll_edge_thickness (v : Z) : Z :=
  if (20 <=? v)%Z && (v <=? 150)%Z then v else default_edge_scroll_edge_thickness.

Definition deserialize (c : PeerConfig) : PeerConfig :=
  c <| p_view_style := or_default (p_view_style c) (read OPTION_VIEW_STYLE) |>
    <| p_scroll_style := or_default (p_scroll_style c) (read OPTION_SCROLL_STYLE) |>
    <| p_edge_scroll_edge_thickness :=
         deserialize_edge_scroll_edge_thickness (p_edge_scroll_edge_thickness c) |>
    <| p_image_quality := or_default (p_image_quality c) (read OPTION_IMAGE_QUALITY) |>
    <| p_custom_image_quality := deserialize_custom_image_quality (p_custom_image_quality c) |>
    <| p_reverse_mouse_wheel := or_default (p_reverse_mouse_wheel c) (read OPTION_REVERSE_MOUSE_WHEEL) |>
    <| p_displays_as_individual_windows :=
         or_default (p_displays_as_individual_windows c) (read OPTION_DISPLAYS_AS_INDIVIDUAL_WINDOWS) |>
    <| p_use_all_my_displays_for_the_remote_session :=
         or_default (p_use_all_my_displays_for_the_remote_session c)
           (read OPTION_USE_ALL_MY_DISPLAYS_FOR_THE_REMOTE_SESSION) |>
    <| p_trackpad_speed := deserialize_trackpad_speed (p_trackpad_speed c) |>.

Definition sealed_options : list string := ["rdp_password"; "os-username"; "os-password"].

Definition seal_option (o : smap) (opt : string) : smap :=
  alter (λ v, encrypt_str_or_original m v PASSWORD_ENC_VERSION ENCRYPT_MAX_LEN) opt o.

(** [store_(&self, id)]: what the file holds. *)
Definition peer_to_file (c : PeerConfig) : PeerConfig :=
  c <| p_password := encrypt_vec_or_original m (p_password c) PASSWORD_ENC_VERSION ENCRYPT_MAX_LEN |>
    <| p_options := foldl seal_option (p_options c) sealed_options |>.

(** The characters that no file name may have. *)
Definition forbidden (a : ascii) : bool := contains_char a "<>:/\|?*".
Fixpoint any_forbidden (s : string) : bool :=
  match s with "" => false | String a s => forbidden a || any_forbidden s end.

(** [PeerConfig::path]: the file's name under [peers], without [.toml]. *)
Definition path (id : string) : string :=
  if any_forbidden id then "base64_" ++ b64_encode id else id.

Definition peer_store (id : string) (c : PeerConfig) (f : PeerFiles) : PeerFiles :=
  f <| files := <[path id := Some (peer_to_file c)]> (files f) |>
    <| NEW_STORED_PEER_CONFIG := {[id]} ∪ NEW_STORED_PEER_CONFIG f |>.

Definition open_option (acc : smap * bool) (opt : string) : smap * bool :=
  match acc.1 !! opt with
  | Some v => let '(plain, _, store2) := decrypt_str_or_original m v PASSWORD_ENC_VERSION in
              (<[opt := plain]> acc.1, acc.2 || store2)
  | None => acc
  end.

Definition peer_load (id : string) (f : PeerFiles) : PeerConfig * PeerFiles :=
  match files f !! path id with
  | Some (Some file) =>
      let c := deserialize file in
      let '(password, _, st) := decrypt_vec_or_original m (p_password c) PASSWORD_ENC_VERSION in
      let '(options, st) := foldl open_option (p_options c, st) sealed_options in
      let c := c <| p_password := password |> <| p_options := options |> in
      (c, if st : bool then peer_store id c f else f)
  | _ => (PeerConfig_default, f)
  end.

Definition peer_remove (id : string) (f : PeerFiles) : PeerFiles :=
  f <| files := delete (path id) (files f) |>.
Definition peer_exists (id : string) (f : PeerFiles) : bool := bool_decide (is_Some (files f !! path id)).

(** ** The recent peers *)

Definition BATCH_LOADING_COUNT : nat := 100.

(** The id a file name stands for. *)
Definition id_of_stem (stem : string) : string :=
  if starts_with "base64_" stem && negb (Nat.eqb (str_len stem) 7)
  then from_utf8_lossy (default "" (b64_decode (str_drop 7 stem)))
  else stem.

(** The newest first; ids that are not asked for are left out.  [listing] is what
    the directory holds: names of files ending in [.toml] with their times. *)
Fixpoint insert_newest (x : string * Z * string) (l : list (string * Z * string)) :=
  match l with
  | [] => [x]
  | y :: l' => if (y.1.2 <=? x.1.2)%Z then x :: l else y :: insert_newest x l'
  end.
Definition get_vec_id_modified_time_path (listing : list (string * Z)) (id_filters : option (list string))
    : list (string * Z * string) :=
  let all := map (λ e, (id_of_stem e.1, e.2, e.1)) listing in
  let all := match id_filters with
             | Some ids => List.filter (λ e, existsb (String.eqb e.1.1) ids) all
             | None => all
             end in
  foldr insert_newest [] all.

(** One entry of a batch: its configuration; a file without a platform goes. *)
Definition load_entry (acc : list (string * Z * PeerConfig) * PeerFiles) (e : string * Z * string) :=
  let '(id, t, stem) := e in
  let '(c, f) := peer_load id acc.2 in
  if is_empty (info_platform (p_info c))
  then (acc.1, f <| files := delete stem (files f) |>)
  else ((acc.1 ++ [(id, t, c)])%list, f).

Definition batch_peers (all : list (string * Z * string)) (from : nat) (to : option nat) (f : PeerFiles)
    : list (string * Z * PeerConfig) * nat * PeerFiles :=
  let n := List.length all in
  if (n <=? from)%nat then ([], O, f)
  else
    let to := match to with
              | Some to => Nat.min to n
              | None => Nat.min (from + BATCH_LOADING_COUNT) n
              end in
    if (to <=? from)%nat then ([], from, f)
    else let '(peers, f) := foldl load_entry ([], f) (take (to - from) (drop from all)) in (peers, to, f).

Definition peers (listing : list (string * Z)) (id_filters : option (list string)) (f : PeerFiles)
    : list (string * Z * PeerConfig) * PeerFiles :=
  let all := get_vec_id_modified_time_path listing id_filters in
  let '(ps, _, f) := batch_peers all 0 (Some (List.length all)) f in (ps, f).

(** ** The interface's accessors *)

Definition peer_has_password (id : string) (f : PeerFiles) : bool * PeerFiles :=
  let '(c, f) := peer_load id f in (negb (is_empty (p_password c)), f).
Definition forget_password (id : string) (f : PeerFiles) : PeerFiles :=
  let '(c, f) := peer_load id f in peer_store id (c <| p_password := "" |>) f.
Definition get_peer_option (id name : string) (f : PeerFiles) : string * PeerFiles :=
  let '(c, f) := peer_load id f in (default "" (p_options c !! name), f).
Definition get_peer_flutter_option (id name : string) (f : PeerFiles) : string * PeerFiles :=
  let '(c, f) := peer_load id f in (default "" (p_ui_flutter c !! name), f).
Definition set_peer_option (id name value : string) (f : PeerFiles) : PeerFiles :=
  let '(c, f) := peer_load id f in
  peer_store id (c <| p_options := if is_empty value then delete name (p_options c)
                                   else <[name := value]> (p_options c) |>) f.
Definition set_peer_flutter_option (id name value : string) (f : PeerFiles) : PeerFiles :=
  let '(c, f) := peer_load id f in
  peer_store id (c <| p_ui_flutter := if is_empty value then delete name (p_ui_flutter c)
                                      else <[name := value]> (p_ui_flutter c) |>) f.
(** [main_get_new_stored_peers]: the ids, once. *)
Definition drain_new_stored (f : PeerFiles) : gset string * PeerFiles :=
  (NEW_STORED_PEER_CONFIG f, f <| NEW_STORED_PEER_CONFIG := ∅ |>).

(** ** What is stored is what is read *)

Context `{!CryptoLaws C}.

(** A secret the byte encryption keeps. *)
Definition storable_vec (s : string) : Prop :=
  s = "" ∨ is_encrypted s = false ∧ (str_len s ≤ ENCRYPT_MAX_LEN)%nat.

Lemma decrypt_encrypt_vec s : storable_vec s →
  decrypt_vec_or_original m (encrypt_vec_or_original m s PASSWORD_ENC_VERSION ENCRYPT_MAX_LEN)
    PASSWORD_ENC_VERSION = (s, negb (is_empty s), false).
Proof.
  intros [->|(H1 & H2)]; [done|]. destruct (is_empty s) eqn:E; [by destruct s|].
  apply encrypt_vec_roundtrip; try done. by intros ->.
Qed.

Lemma sealed_lookup o l k : k ∉ l → foldl seal_option o l !! k = o !! k.
Proof.
  revert o; induction l as [|x l IH]; intros o Hk; [done|]. cbn [foldl].
  apply not_elem_of_cons in Hk as [Hx Hl]. rewrite IH by done. by apply lookup_alter_ne.
Qed.

Lemma sealed_insert o l k v : k ∉ l → <[k := v]> (foldl seal_option o l) = foldl seal_option (<[k := v]> o) l.
Proof.
  revert o; induction l as [|x l IH]; intros o Hk; [done|]. cbn [foldl].
  apply not_elem_of_cons in Hk as [Hx Hl]. rewrite IH by done. f_equal. unfold seal_option.
  apply map_eq. intros j. destruct (decide (j = k)) as [->|Hj].
  - by rewrite lookup_insert_eq, lookup_alter_ne, lookup_insert_eq by done.
  - rewrite lookup_insert_ne by done. destruct (decide (j = x)) as [->|Hjx].
    + by rewrite !lookup_alter_eq, lookup_insert_ne.
    + by rewrite !lookup_alter_ne, lookup_insert_ne by done.
Qed.

Lemma open_sealed o l st :
  NoDup l → (∀ k v, k ∈ l → o !! k = Some v → storable v) →
  foldl open_option (foldl seal_option o l, st) l = (o, st).
Proof.
  revert o st; induction l as [|k l IH]; intros o st Hnd Hs; [done|].
  apply NoDup_cons in Hnd as [Hk Hnd]. cbn [foldl]. unfold open_option at 2. cbn [fst snd].
  rewrite sealed_lookup by done. unfold seal_option at 1. rewrite lookup_alter_eq.
  destruct (o !! k) as [v|] eqn:E; cbn [fmap option_fmap option_map].
  - rewrite decrypt_encrypt by (eapply Hs; [by left|done]). rewrite orb_false_r, sealed_insert by done.
    assert (<[k := v]> (seal_option o k) = o) as ->.
    { apply map_eq. intros j. destruct (decide (j = k)) as [->|Hj]; [by rewrite lookup_insert_eq|].
      rewrite lookup_insert_ne by done. by apply lookup_alter_ne. }
    apply IH; [done|]. intros j w Hj. apply Hs. by right.
  - assert (seal_option o k = o) as ->.
    { apply map_eq. intros j. destruct (decide (j = k)) as [->|Hj]; [|by apply lookup_alter_ne].
      unfold seal_option. by rewrite lookup_alter_eq, E. }
    apply IH; [done|]. intros j w Hj. apply Hs. by right.
Qed.

(** A configuration whose fields serde keeps and whose secrets can be sealed. *)
Record wf_peer (c : PeerConfig) : Prop := {
  wf_fields : deserialize c = c;
  wf_password : storable_vec (p_password c);
  wf_options : ∀ k v, k ∈ sealed_options → p_options c !! k = Some v → storable v
}.

(** Ids that the naming of files keeps apart. *)
Definition plain_id (id : string) : Prop := utf8_valid id = true ∧ starts_with "base64_" id = false.

Lemma any_forbidden_nonempty id : any_forbidden id = true → id ≠ "".
Proof. by intros H ->. Qed.

Lemma path_stem id : plain_id id → id_of_stem (path id) = id.
Proof.
  intros [Hu Hb]. unfold path. destruct (any_forbidden id) eqn:E.
  - pose proof (b64_encode_nonempty id (any_forbidden_nonempty _ E)) as Hne.
    unfold id_of_stem. set (e := b64_encode id) in *.
    rewrite (proj2 (starts_with_spec _ _)) by (by exists e). cbn [andb].
    destruct (Nat.eqb_spec (str_len ("base64_" ++ e)) 7) as [Hl|_]; cbn [negb].
    { rewrite str_len_app in Hl. destruct e; [done|]. cbn in Hl. lia. }
    change (str_drop 7 ("base64_" ++ e)) with e. unfold e. rewrite b64_decode_encode. cbn [default].
    by apply lossy_valid.
  - unfold id_of_stem. by rewrite Hb.
Qed.

Lemma path_inj id id' : plain_id id → plain_id id' → path id = path id' → id = id'.
Proof. intros H H' E. by rewrite <- (path_stem id H), E, path_stem. Qed.

(** The fields keep their values through encryption. *)
Lemma file_fields c :
  deserialize (peer_to_file c) =
  (deserialize c) <| p_password := p_password (peer_to_file c) |> <| p_options := p_options (peer_to_file c) |>.
Proof. reflexivity. Qed.

Lemma load_stored id c f : wf_peer c → peer_load id (peer_store id c f) = (c, peer_store id c f).
Proof.
  intros [Hf Hp Ho]. unfold peer_load. change (files (peer_store id c f)) with
    (<[path id := Some (peer_to_file c)]> (files f)). rewrite lookup_insert_eq, file_fields, Hf.
  change (p_password (_ <| p_options := _ |>)) with
    (encrypt_vec_or_original m (p_password c) PASSWORD_ENC_VERSION ENCRYPT_MAX_LEN).
  rewrite decrypt_encrypt_vec by done.
  change (p_options (_ <| p_options := _ |>)) with (foldl seal_option (p_options c) sealed_options).
  rewrite open_sealed; [by destruct c|by apply (bool_decide_unpack _)|done].
Qed.


(** A field whose default the user changed cannot be cleared for one peer: the
    empty value is what the file leaves out. *)
Lemma cleared_field_lost id f c :
  wf_peer c → read OPTION_REVERSE_MOUSE_WHEEL = "Y" →
  p_reverse_mouse_wheel
    (peer_load id (peer_store id (c <| p_reverse_mouse_wheel := "" |>) f)).1 = "Y".
Proof.
  intros [Hf Hp Ho] Hr. unfold peer_load.
  set (c' := c <| p_reverse_mouse_wheel := "" |>).
  change (files (peer_store id c' f)) with (<[path id := Some (peer_to_file c')]> (files f)).
  rewrite lookup_insert_eq. destruct (decrypt_vec_or_original _ _ _) as [[pw b] st].
  destruct (foldl _ _ _) as [o st']. exact Hr.
Qed.

End Peers.

(** ** A concrete instance: whole numbers as floats *)

Module ToyF64.
#[export] Instance whole : F64 := {| f64 := Z; f64_num := i32_num; f64_of_Z := λ z, z; f64_to_i32 := λ z, z |}.
End ToyF64.
Import Secret.Toy ToyF64.

