(* ===== verification/Permissions.v ===== *)
(** * Permissions of a controlling peer

    [src/common.rs] ([get_control_permission]) and
    [src/server/connection.rs]: the permission bitmap a rendezvous server may
    attach to a connection, the host's own options, and how the two decide what
    a peer may do.  The build is the desktop one with the Flutter interface. *)

From S2P Require Import Prelude Strs Secret Options.
From Stdlib Require Import Ascii String.

Local Open Scope string_scope.

Definition OPTION_ENABLE_KEYBOARD : string := "enable-keyboard".
Definition OPTION_ENABLE_REMOTE_PRINTER : string := "enable-remote-printer".
Definition OPTION_ENABLE_CLIPBOARD : string := "enable-clipboard".
Definition OPTION_ENABLE_FILE_TRANSFER : string := "enable-file-transfer".
Definition OPTION_ENABLE_AUDIO : string := "enable-audio".
Definition OPTION_ENABLE_CAMERA : string := "enable-camera".
Definition OPTION_ENABLE_TERMINAL : string := "enable-terminal".
Definition OPTION_ENABLE_TUNNEL : string := "enable-tunnel".
Definition OPTION_ENABLE_REMOTE_RESTART : string := "enable-remote-restart".
Definition OPTION_ENABLE_RECORD_SESSION : string := "enable-record-session".
Definition OPTION_ENABLE_BLOCK_INPUT : string := "enable-block-input".

(** The enumeration of [libs/hbb_common/protos/rendezvous.proto]. *)
Inductive Permission :=
| keyboard | remote_printer | clipboard | file | audio | camera | terminal
| tunnel | restart | recording | block_input | remote_modify | privacy_mode.

#[global] Instance Permission_eq_dec : EqDecision Permission.
Proof. solve_decision. Defined.

Definition permission_value (p : Permission) : Z :=
  match p with
  | keyboard => 0 | remote_printer => 1 | clipboard => 2 | file => 3 | audio => 4
  | camera => 5 | terminal => 6 | tunnel => 7 | restart => 8 | recording => 9
  | block_input => 10 | remote_modify => 11 | privacy_mode => 12
  end.

(** The [u64] bitmap: two bits per permission. *)
Definition get_control_permission (permissions : Z) (permission : Permission) : option bool :=
  let index := permission_value permission in
  if (0 <=? index)%Z && (index <? 32)%Z then
    let shift := (index * 2)%Z in
    match Z.land (Z.shiftr permissions shift) 3 with
    | 1%Z => Some false
    | 2%Z => Some true
    | _ => None
    end
  else None.

(** The [match] of [permission] on the option's name. *)
Definition permission_of_option (o : string) : option Permission :=
  if String.eqb o OPTION_ENABLE_KEYBOARD then Some keyboard
  else if String.eqb o OPTION_ENABLE_REMOTE_PRINTER then Some remote_printer
  else if String.eqb o OPTION_ENABLE_CLIPBOARD then Some clipboard
  else if String.eqb o OPTION_ENABLE_FILE_TRANSFER then Some file
  else if String.eqb o OPTION_ENABLE_AUDIO then Some audio
  else if String.eqb o OPTION_ENABLE_CAMERA then Some camera
  else if String.eqb o OPTION_ENABLE_TERMINAL then Some terminal
  else if String.eqb o OPTION_ENABLE_TUNNEL then Some tunnel
  else if String.eqb o OPTION_ENABLE_REMOTE_RESTART then Some restart
  else if String.eqb o OPTION_ENABLE_RECORD_SESSION then Some recording
  else if String.eqb o OPTION_ENABLE_BLOCK_INPUT then Some block_input
  else None.

Section Host.
  Variable g : Globals.

Definition is_permission_enabled_locally (c : CONFIG2) (enable_prefix_option : string) : bool :=
  let access_mode := get_option g c "access-mode" in
  if String.eqb access_mode "full" then true
  else if String.eqb access_mode "view" then false
  else option2bool enable_prefix_option (get_option g c enable_prefix_option).

Definition permission (c : CONFIG2) (enable_prefix_option : string) (control_permissions : option Z) : bool :=
  match control_permissions with
  | Some cp =>
      match permission_of_option enable_prefix_option with
      | Some p => match get_control_permission cp p with
                  | Some enabled => enabled
                  | None => is_permission_enabled_locally c enable_prefix_option
                  end
      | None => is_permission_enabled_locally c enable_prefix_option
      end
  | None => is_permission_enabled_locally c enable_prefix_option
  end.

End Host.

(** [CONTROL_PERMISSIONS_ARRAY]: connection id and bitmap. *)
Definition state_step (p : Permission) (acc : bool * bool) (e : Z * Z) : bool * bool :=
  match get_control_permission e.2 p with
  | Some false => (acc.1, true)
  | Some true => (true, acc.2)
  | None => acc
  end.

Definition get_control_permission_state (array : list (Z * Z)) (p : Permission)
    (disable_if_has_disabled : bool) : option bool :=
  let '(has_enable, has_disable) := foldl (state_step p) (false, false) array in
  if disable_if_has_disabled then
    if has_disable then Some false else if has_enable then Some true else None
  else
    if has_enable then Some true else if has_disable then Some false else None.

(** ** Bitmaps that servers build

    Two bits per permission; [set_control] writes one of them. *)

Definition control_bits (v : option bool) : Z :=
  match v with Some false => 1 | Some true => 2 | None => 0 end.

(** The bitmap that gives each permission the value [v p]. *)
Definition all_permissions : list Permission :=
  [keyboard; remote_printer; clipboard; file; audio; camera; terminal; tunnel; restart;
   recording; block_input; remote_modify; privacy_mode].
Definition bitmap (v : Permission → option bool) : Z :=
  foldr (λ p acc, control_bits (v p) + 4 * acc)%Z 0%Z all_permissions.

Lemma get_two_bits b acc n : (0 <= b < 4)%Z → (0 <= n)%Z →
  Z.land (Z.shiftr (b + 4 * acc) (2 * (1 + n))) 3 = Z.land (Z.shiftr acc (2 * n)) 3.
Proof.
  intros Hb Hn. replace (2 * (1 + n))%Z with (2 + 2 * n)%Z by lia.
  rewrite <- Z.shiftr_shiftr by lia. f_equal. f_equal.
  rewrite Z.shiftr_div_pow2 by lia. change (2 ^ 2)%Z with 4%Z.
  rewrite Z.mul_comm, Z.div_add, Z.div_small by lia. lia.
Qed.

Lemma low_two_bits b acc : (0 <= b < 4)%Z → Z.land (b + 4 * acc) 3 = b.
Proof.
  intros Hb. change 3%Z with (Z.ones 2). rewrite Z.land_ones by lia. change (2 ^ 2)%Z with 4%Z.
  rewrite Z.mul_comm, Z.mod_add by lia. by apply Z.mod_small.
Qed.

Lemma control_bits_range v : (0 <= control_bits v < 4)%Z.
Proof. destruct v as [[]|]; simpl; lia. Qed.

Lemma bitmap_nth v (l : list Permission) n p : l !! n = Some p →
  Z.land (Z.shiftr (foldr (λ p acc, control_bits (v p) + 4 * acc)%Z 0%Z l) (2 * Z.of_nat n)) 3
  = control_bits (v p).
Proof.
  revert n. induction l as [|q l IH]; intros [|n] H; try done; cbn [foldr].
  - injection H as ->. rewrite Z.shiftr_0_r. apply low_two_bits, control_bits_range.
  - replace (Z.of_nat (S n)) with (1 + Z.of_nat n)%Z by lia.
    rewrite get_two_bits by (apply control_bits_range || lia). by apply IH.
Qed.

(** The permission bitmap: a bitmap that assigns each permission one of
    enabled, disabled or unset is read back exactly. *)
Lemma control_permission_roundtrip v p : get_control_permission (bitmap v) p = v p.
Proof.
  assert (Z.land (Z.shiftr (bitmap v) (permission_value p * 2)) 3 = control_bits (v p)) as H.
  { replace (permission_value p * 2)%Z with (2 * Z.of_nat (Z.to_nat (permission_value p)))%Z
      by by destruct p.
    apply bitmap_nth. by destruct p. }
  unfold get_control_permission.
  replace ((0 <=? permission_value p)%Z && (permission_value p <? 32)%Z) with true by by destruct p.
  rewrite H. by destruct (v p) as [[]|].
Qed.

(** What a peer may do: an answer in the bitmap of the connection decides,
    whatever the host's options say; with none, access mode [full] allows
    and [view] forbids everything, and otherwise the host's own option decides,
    which must have been set to ["N"] to forbid.  This covers every
    permission option, with or without a bitmap. *)
Lemma permission_precedence g c o p cp :
  permission_of_option o = Some p →
  permission g c o cp =
    match cp ≫= λ b, get_control_permission b p with
    | Some enabled => enabled
    | None =>
        if decide (get_option g c "access-mode" = "full") then true
        else if decide (get_option g c "access-mode" = "view") then false
        else negb (String.eqb (get_option g c o) "N")
    end.
Proof.
  intros Hp. unfold permission. rewrite Hp.
  assert (is_permission_enabled_locally g c o =
          if decide (get_option g c "access-mode" = "full") then true
          else if decide (get_option g c "access-mode" = "view") then false
          else negb (String.eqb (get_option g c o) "N")) as Hl.
  { unfold is_permission_enabled_locally.
    destruct (String.eqb_spec (get_option g c "access-mode") "full"), (decide _); try done.
    destruct (String.eqb_spec (get_option g c "access-mode") "view"), (decide _); try done.
    unfold option2bool. replace (starts_with "enable-" o) with true; [done|].
    unfold permission_of_option in Hp.
    repeat match type of Hp with
    | (if String.eqb o ?k then _ else _) = _ =>
        destruct (String.eqb_spec o k) as [->|_]; [reflexivity|]
    end. done. }
  destruct cp as [b|]; [|exact Hl]. cbn [mbind option_bind].
  destruct (get_control_permission b p); [done|exact Hl].
Qed.

Lemma permission_precedence_witness :
  let c := store Config2_default in
  permission_of_option "enable-audio" = Some audio
  ∧ permission empty_globals c "enable-audio" (Some (bitmap (λ p, if decide (p = audio) then Some false else None)))
    = false
  ∧ permission empty_globals c "enable-audio" None = true.
Proof.
  intros c. split; [reflexivity|].
  split; rewrite (permission_precedence empty_globals c "enable-audio" audio _ eq_refl); reflexivity.
Defined.

(** The state over several connections: any bitmap that disables wins when
    asked, otherwise any that enables. *)
Lemma state_fold p array a :
  foldl (state_step p) a array =
  (a.1 || existsb (λ e, bool_decide (get_control_permission e.2 p = Some true)) array,
   a.2 || existsb (λ e, bool_decide (get_control_permission e.2 p = Some false)) array).
Proof.
  revert a. induction array as [|e l IH]; intros [a1 a2]; cbn [foldl existsb].
  - by rewrite !orb_false_r.
  - rewrite IH. unfold state_step. destruct (get_control_permission e.2 p) as [[]|]; cbn [fst snd];
      rewrite ?(bool_decide_true (Some _ = Some _)), ?bool_decide_false by done;
      by rewrite ?orb_true_r, ?orb_true_l, ?orb_false_l.
Qed.

(** The state a permission has over all connections that carry a bitmap:
    asked strictly, one connection that disables it disables it, asked
    leniently, one that enables it enables it; it is unset exactly when no
    bitmap mentions it. *)
Lemma permission_state_spec array p strict :
  let says v := existsb (λ e, bool_decide (get_control_permission e.2 p = Some v)) array in
  get_control_permission_state array p strict =
    if says strict && says (negb strict) then Some (negb strict)
    else if says true then Some true else if says false then Some false else None.
Proof.
  cbn zeta. unfold get_control_permission_state. rewrite state_fold. cbn [fst snd].
  rewrite !orb_false_l. destruct strict; cbn [negb];
    destruct (existsb _ array), (existsb _ array); reflexivity.
Qed.
