(* ===== verification/Throttle.v ===== *)
(** * Throttling of wrong passwords

    [src/server/connection.rs]: the table [LOGIN_FAILURES] of failed attempts
    per address and per IPv6 prefix, [check_failure] before a password is
    looked at and [update_failure] after.  A failure record is the minute of the
    last failure, the failures in that minute and the failures in all, as
    [i32]s.  The table of index 0 is for passwords, that of index 1 for second
    factors; the operations are on one of them.

    The table is locked for each record that a check reads and once more for the update:
    an attempt is a flight of several steps ([Gate]), and those of different
    connections interleave. *)

From S2P Require Import Prelude Strs Ip.
From Stdlib Require Import Ascii String.

Local Open Scope Z_scope.
#[local] Abbreviation length := Datatypes.length.
#[local] Arguments String.append _ _ : simpl nomatch.

Definition Failure : Type := Z * Z * Z.
Definition no_failure : Failure := (0, 0, 0).
Abbreviation failures := (gmap string Failure).

Definition mask_u128 (addr prefix : Z) : Z :=
  let mask := if (prefix =? 0) || (128 <? prefix) then 0
              else wrap 128 (Z.shiftl (2 ^ 128 - 1) (128 - prefix)) in
  Z.land addr mask.

(** The address without its zone id. *)
Definition ip_only (ip : string) : string := trim (default ip (head (split_on "%" ip))).

Definition prefix_key (v : Z) (n : Z) (suffix : string) : string :=
  (show_v6 (from_u128 (mask_u128 v n)) ++ suffix)%string.

Definition get_ipv6_prefixes (ip : string) : option (string * string * string) :=
  a ← Ipv6Addr_from_str (ip_only ip);
  let as_u128 := to_u128 a in
  Some (prefix_key as_u128 64 "/64", prefix_key as_u128 56 "/56", prefix_key as_u128 48 "/48").

Definition bump (cur : Failure) (time : Z) : Failure :=
  let '(minute, n, total) := cur in
  if minute =? time then (minute, swrap 32 (n + 1), swrap 32 (total + 1))
  else (time, 1, swrap 32 (total + 1)).

Definition failure_of (m : failures) (k : string) : Failure := default no_failure (m !! k).

Definition bump_key (time : Z) (m : failures) (k : string) : failures :=
  <[k := bump (failure_of m k) time]> m.

Definition update_failure (ip : string) (failure : Failure) (time : Z) (remove : bool)
    (m : failures) : failures :=
  if remove then
    if failure.1.1 =? 0 then m
    else match get_ipv6_prefixes ip with
         | Some (p64, p56, p48) => delete ip (delete p48 (delete p56 (delete p64 m)))
         | None => delete ip m
         end
  else
    match get_ipv6_prefixes ip with
    | Some (p64, p56, p48) =>
        <[ip := bump failure time]> (foldl (bump_key time) m [p64; p56; p48])
    | None => <[ip := bump failure time]> m
    end.

(** A refusal carries the message sent to the peer. *)
Definition check_failure_ipv6_prefix (m : failures) (prefix : string) (prefix_num thresh : Z)
    : option (Failure * string) :=
  let failure_prefix := failure_of m prefix in
  if thresh <? failure_prefix.2
  then Some (failure_prefix, ("Too many wrong attempts for IPv6 prefix /" ++ show_Z prefix_num)%string)
  else None.

(** [(get_time() / 60_000) as i32]. *)
Definition minute_of (now : Z) : Z := swrap 32 (Z.quot now 60000).

(** The last of the checks, of the address itself. *)
Definition check_direct (ip : string) (time : Z) (m : failures) : Failure * option string :=
  let failure := failure_of m ip in
  if 30 <? failure.2 then (failure, Some "Too many wrong attempts"%string)
  else if (time =? failure.1.1) && (6 <? failure.1.2)
  then (failure, Some "Please try 1 minute later"%string)
  else (failure, None).

(** The failure record, and the refusal if there is one, when nothing comes between the
    reads. *)
Definition check_failure (ip : string) (time : Z) (m : failures) : Failure * option string :=
  match get_ipv6_prefixes ip with
  | Some (p64, p56, p48) =>
      match check_failure_ipv6_prefix m p64 64 60 with
      | Some (f, e) => (f, Some e)
      | None =>
          match check_failure_ipv6_prefix m p56 56 80 with
          | Some (f, e) => (f, Some e)
          | None => match check_failure_ipv6_prefix m p48 48 100 with
                    | Some (f, e) => (f, Some e)
                    | None => check_direct ip time m
                    end
          end
      end
  | None => check_direct ip time m
  end.

(** ** Attempts in flight *)

(** An attempt of a connection: its address, the minute it began, and whether the
    password turns out right. *)
Record Attempt := { at_ip : string; at_time : Z; at_ok : bool }.

(** The prefixes that a check reads before the address. *)
Definition prefixes (ip : string) : list (string * (Z * Z)) :=
  match get_ipv6_prefixes ip with
  | Some (p64, p56, p48) => [(p64, (64, 60)); (p56, (56, 80)); (p48, (48, 100))]
  | None => []
  end.

(** So many prefixes are read; or the check has passed, with the record to hand on. *)
Inductive Phase := Reading (n : nat) | Checked (f : Failure).
Record Gate := mkGate { g_table : failures; g_flying : gmap nat (Attempt * Phase) }.
Definition gate_new : Gate := mkGate ∅ ∅.

Inductive GateStep :=
| GsStart (c : nat) (a : Attempt)      (* a connection begins to check an attempt *)
| GsTurn (c : nat).                    (* it takes the lock once more *)

Definition flight_turn (c : nat) (fl : Attempt * Phase) (g : Gate) : Gate :=
  let '(a, phase) := fl in
  let goes ph := mkGate (g_table g) (<[c := (a, ph)]> (g_flying g)) in
  let over m := mkGate m (delete c (g_flying g)) in
  match phase with
  | Reading n =>
      match prefixes (at_ip a) !! n with
      | Some (p, (num, thresh)) =>
          match check_failure_ipv6_prefix (g_table g) p num thresh with
          | Some _ => over (g_table g)
          | None => goes (Reading (S n))
          end
      | None =>
          match check_direct (at_ip a) (at_time a) (g_table g) with
          | (_, Some _) => over (g_table g)
          | (f, None) => goes (Checked f)
          end
      end
  | Checked f => over (update_failure (at_ip a) f (at_time a) (at_ok a) (g_table g))
  end.

Definition gate_step (x : GateStep) (g : Gate) : Gate :=
  match x with
  | GsStart c a => match g_flying g !! c with
                   | None => mkGate (g_table g) (<[c := (a, Reading 0)]> (g_flying g))
                   | Some _ => g
                   end
  | GsTurn c => match g_flying g !! c with Some fl => flight_turn c fl g | None => g end
  end.
Definition gate_run (xs : list GateStep) (g : Gate) : Gate := foldl (λ g x, gate_step x g) g xs.

(** ** The records consulted for an address, and their limits *)

Definition guards (ip : string) : list (string * Z) :=
  match get_ipv6_prefixes ip with
  | Some (p64, p56, p48) => [(p64, 60); (p56, 80); (p48, 100); (ip, 30)]
  | None => [(ip, 30)]
  end.

Definition total (m : failures) (k : string) : Z := (failure_of m k).2.

(** The limit a record is held to, read off its key. *)
Definition limit (k : string) : Z :=
  if starts_with "46/" (rev_string k) then 60
  else if starts_with "65/" (rev_string k) then 80
  else if starts_with "84/" (rev_string k) then 100
  else 30.

Lemma limit_suffix x :
  limit (x ++ "/64") = 60 ∧ limit (x ++ "/56") = 80 ∧ limit (x ++ "/48") = 100.
Proof.
  unfold limit. rewrite !rev_string_app. split_and!; destruct (rev_string x); reflexivity.
Qed.

Lemma starts_slash p s : contains_char "/" p = true → starts_with p s = true → contains_char "/" s = true.
Proof. intros Hp Hs. apply starts_with_spec in Hs as [r ->]. by rewrite contains_char_app, Hp. Qed.

Lemma contains_rev c s : contains_char c (rev_string s) = contains_char c s.
Proof.
  induction s as [|a s IH]; [done|]. cbn [rev_string contains_char].
  rewrite contains_char_app, IH. cbn [contains_char]. rewrite orb_false_r. apply orb_comm.
Qed.

Lemma limit_plain ip : contains_char "/" ip = false → limit ip = 30.
Proof.
  intros H. rewrite <- contains_rev in H. unfold limit.
  destruct (starts_with "46/" _) eqn:E1; [by apply starts_slash in E1; [congruence|]|].
  destruct (starts_with "65/" _) eqn:E2; [by apply starts_slash in E2; [congruence|]|].
  destruct (starts_with "84/" _) eqn:E3; [by apply starts_slash in E3; [congruence|]|]. done.
Qed.

(** Textual addresses hold no slash. *)
Definition plain_ip (ip : string) : Prop := contains_char "/" ip = false.

Lemma guards_limit ip k th : plain_ip ip → (k, th) ∈ guards ip → th = limit k.
Proof.
  intros Hp. unfold guards, get_ipv6_prefixes, prefix_key.
  destruct (Ipv6Addr_from_str (ip_only ip)) as [a|]; cbn [mbind option_bind].
  - rewrite !elem_of_cons, elem_of_nil. intros [E|[E|[E|[E|[]]]]]; apply pair_equal_spec in E as [-> ->];
      symmetry; try apply limit_suffix. by apply limit_plain.
  - rewrite list_elem_of_singleton. intros E. apply pair_equal_spec in E as [-> ->]. symmetry. by apply limit_plain.
Qed.

(** The guards of an address are different records. *)
Lemma guards_nodup ip : plain_ip ip → NoDup (guards ip).*1.
Proof.
  intros Hp. assert (∀ k th, (k, th) ∈ guards ip → limit k = th) as Hl
    by (intros; symmetry; by apply (guards_limit ip)).
  unfold guards in *. destruct (get_ipv6_prefixes ip) as [[[p64 p56] p48]|]; cbn [fmap list_fmap fst].
  - assert (limit p64 = 60 ∧ limit p56 = 80 ∧ limit p48 = 100 ∧ limit ip = 30) as (? & ? & ? & ?).
    { split_and!; apply Hl; rewrite !elem_of_cons; auto. }
    repeat constructor; rewrite ?elem_of_cons, ?elem_of_nil; intros H'; destruct_or?; try done; subst; lia.
  - repeat constructor. apply not_elem_of_nil.
Qed.

(** ** What one attempt does *)

(** An attempt is let through exactly when every record consulted is within
    its limit and there were at most six failures this minute. *)
Lemma check_failure_spec ip time m :
  (check_failure ip time m).2 = None ↔
  (∀ k th, (k, th) ∈ guards ip → total m k ≤ th)
  ∧ ¬ (time = (failure_of m ip).1.1 ∧ 6 < (failure_of m ip).1.2).
Proof.
  unfold check_failure, check_direct, guards, check_failure_ipv6_prefix, total.
  assert (∀ a : Failure, (30 <? a.2) = false ∧ (time =? a.1.1) && (6 <? a.1.2) = false ↔
                         a.2 ≤ 30 ∧ ¬ (time = a.1.1 ∧ 6 < a.1.2)) as Hd by lia.
  specialize (Hd (failure_of m ip)).
  destruct (get_ipv6_prefixes ip) as [[[p64 p56] p48]|].
  - destruct (Z.ltb_spec 60 (failure_of m p64).2); cbn [snd].
    { split; [done|]. intros [H' _]. specialize (H' p64 60). cbn [snd] in H'. exfalso.
      assert ((failure_of m p64).2 ≤ 60) by (apply H'; left). lia. }
    destruct (Z.ltb_spec 80 (failure_of m p56).2); cbn [snd].
    { split; [done|]. intros [H' _]. exfalso.
      assert ((failure_of m p56).2 ≤ 80) by (apply H'; right; left). lia. }
    destruct (Z.ltb_spec 100 (failure_of m p48).2); cbn [snd].
    { split; [done|]. intros [H' _]. exfalso.
      assert ((failure_of m p48).2 ≤ 100) by (apply H'; right; right; left). lia. }
    destruct (30 <? (failure_of m ip).2) eqn:E1; [|destruct ((time =? _) && _) eqn:E2]; cbn [snd].
    + split; [done|]. intros [H' _]. exfalso.
      assert ((failure_of m ip).2 ≤ 30) by (apply H'; do 3 right; left). lia.
    + split; [done|]. lia.
    + split; [|done]. intros _. split; [|by apply Hd].
      intros k th. rewrite !elem_of_cons, elem_of_nil.
      intros [E|[E|[E|[E|[]]]]]; apply pair_equal_spec in E as [-> ->]; try done. by apply Hd.
  - destruct (30 <? (failure_of m ip).2) eqn:E1; [|destruct ((time =? _) && _) eqn:E2]; cbn [snd].
    + split; [done|]. intros [H' _]. exfalso.
      assert ((failure_of m ip).2 ≤ 30) by (apply H'; left). lia.
    + split; [done|]. lia.
    + split; [|done]. intros _. split; [|by apply Hd].
      intros k th. rewrite list_elem_of_singleton. intros E. apply pair_equal_spec in E as [-> ->]. by apply Hd.
Qed.

(** The record a passed check hands on is the one of the address itself. *)
Lemma check_direct_spec ip time m f :
  check_direct ip time m = (f, None) →
  f = failure_of m ip ∧ f.2 ≤ 30 ∧ ¬ (time = f.1.1 ∧ 6 < f.1.2).
Proof.
  unfold check_direct. destruct (30 <? _) eqn:E1; [done|]. destruct (_ && _) eqn:E2; [done|].
  intros [= <-]. split; [done|]. lia.
Qed.

Lemma failure_of_insert m k f j : failure_of (<[k := f]> m) j = if decide (j = k) then f else failure_of m j.
Proof.
  unfold failure_of. destruct (decide (j = k)) as [->|]; by rewrite ?lookup_insert_eq, ?lookup_insert_ne.
Qed.
Lemma failure_of_delete m k j :
  failure_of (delete k m) j = if decide (j = k) then no_failure else failure_of m j.
Proof.
  unfold failure_of. destruct (decide (j = k)) as [->|]; by rewrite ?lookup_delete_eq, ?lookup_delete_ne.
Qed.

Definition prefix_keys (ip : string) : list string := (prefixes ip).*1.

Lemma guards_keys ip : (guards ip).*1 = (prefix_keys ip ++ [ip])%list.
Proof. unfold guards, prefix_keys, prefixes. by destruct (get_ipv6_prefixes ip) as [[[? ?] ?]|]. Qed.

Lemma prefix_guard ip p num th : (p, (num, th)) ∈ prefixes ip → (p, th) ∈ guards ip.
Proof.
  unfold prefixes, guards. destruct (get_ipv6_prefixes ip) as [[[p64 p56] p48]|]; [|intros H; by apply elem_of_nil in H].
  rewrite !elem_of_cons, elem_of_nil. intros [[= -> -> ->]|[[= -> -> ->]|[[= -> -> ->]|[]]]]; auto.
Qed.

Lemma prefix_slash ip k : k ∈ prefix_keys ip → contains_char "/" k = true.
Proof.
  unfold prefix_keys, prefixes, get_ipv6_prefixes, prefix_key.
  destruct (Ipv6Addr_from_str _); cbn [mbind option_bind fmap list_fmap fst]; [|intros H; by apply elem_of_nil in H].
  rewrite !elem_of_cons, elem_of_nil. intros [->|[->|[->|[]]]]; rewrite contains_char_app; apply orb_true_r.
Qed.

(** A wrong attempt bumps the records it consulted, that of its address from what the
    check had read. *)
Lemma update_wrong ip f time m k : plain_ip ip →
  failure_of (update_failure ip f time false m) k =
  if decide (k = ip) then bump f time
  else if decide (k ∈ prefix_keys ip) then bump (failure_of m k) time else failure_of m k.
Proof.
  intros Hp. pose proof (guards_nodup ip Hp) as Hnd. rewrite guards_keys in Hnd.
  unfold update_failure, prefix_keys, prefixes in *.
  destruct (get_ipv6_prefixes ip) as [[[p64 p56] p48]|]; cbn [fmap list_fmap fst foldl app] in *.
  - apply NoDup_cons in Hnd as [N1 [N2 [N3 _]%NoDup_cons]%NoDup_cons].
    set_unfold in N1; set_unfold in N2; set_unfold in N3. unfold bump_key. rewrite !failure_of_insert.
    destruct (decide (k ∈ [p64; p56; p48])) as [Hk|Hk]; set_unfold in Hk;
      destruct_or?; repeat case_decide; first [done|naive_solver congruence].
  - rewrite failure_of_insert. destruct (decide (k ∈ [])) as [Hk|Hk]; [by apply elem_of_nil in Hk|done].
Qed.

(** A right one removes records it consulted, or nothing. *)
Lemma update_right ip f time m k :
  let m' := update_failure ip f time true m in
  failure_of m' k = failure_of m k ∨ k ∈ (guards ip).*1 ∧ failure_of m' k = no_failure.
Proof.
  cbn zeta. rewrite guards_keys. unfold update_failure, prefix_keys, prefixes. destruct (f.1.1 =? 0); [by left|].
  destruct (get_ipv6_prefixes ip) as [[[p64 p56] p48]|]; rewrite !failure_of_delete;
    repeat case_decide; subst; auto; right; (split; [set_solver|done]).
Qed.

Definition guarded (k : string) (a : Attempt) : Prop := k ∈ (guards (at_ip a)).*1.
#[global] Instance guarded_dec k a : Decision (guarded k a).
Proof. unfold guarded. apply _. Defined.

Lemma guarded_network k a : plain_ip (at_ip a) → contains_char "/" k = true → guarded k a ↔ k ∈ prefix_keys (at_ip a).
Proof.
  intros Hp Hk. unfold guarded. rewrite guards_keys, elem_of_app, list_elem_of_singleton.
  split; [intros [?|E]; [done|]|by left]. unfold plain_ip in Hp. congruence.
Qed.
Lemma guarded_self k a : plain_ip k → guarded k a ↔ at_ip a = k.
Proof.
  intros Hk. unfold guarded. rewrite guards_keys, elem_of_app, list_elem_of_singleton.
  split; [|by right]. intros [H%prefix_slash|?]; [unfold plain_ip in Hk; congruence|done].
Qed.

Lemma limit_range k : 30 <= limit k <= 100.
Proof. unfold limit. repeat case_match; lia. Qed.

Lemma bump_counts f t : 0 <= f.1.2 <= f.2 → f.2 < 2 ^ 31 - 1 →
  (bump f t).2 = f.2 + 1 ∧ 0 <= (bump f t).1.2 <= f.2 + 1
  ∧ (bump f t).1.1 = t ∧ (bump f t).1.2 = if decide (f.1.1 = t) then f.1.2 + 1 else 1.
Proof.
  destruct f as [[mn n] tot]. cbn [fst snd]. intros H1 H2. unfold bump.
  assert (∀ x, 0 <= x <= tot + 1 → swrap 32 x = x) as Hw.
  { intros x Hx. apply swrap_small; [lia|]. unfold sint. lia. }
  destruct (Z.eqb_spec mn t); cbn [fst snd]; rewrite !Hw by lia; case_decide; split_and!; lia || done.
Qed.

(** ** Counting flights *)

Section Count.
Variable P : Attempt * Phase → bool.
Definition count (m : gmap nat (Attempt * Phase)) : Z := Z.of_nat (base.size (filter (λ cf, P cf.2 = true) m)).

Lemma count_insert c fl m :
  count (<[c := fl]> m) = count (delete c m) + (if P fl then 1 else 0).
Proof.
  unfold count. rewrite map_filter_insert. cbn [snd]. case_decide as H.
  - rewrite H, <- insert_delete_eq, map_size_insert, lookup_delete_eq, map_filter_delete. lia.
  - destruct (P fl); [done|]. lia.
Qed.
Lemma count_lookup c fl m : m !! c = Some fl → count m = count (delete c m) + (if P fl then 1 else 0).
Proof. intros H. rewrite <- count_insert. by rewrite insert_id. Qed.
Lemma count_range m : 0 <= count m <= Z.of_nat (base.size m).
Proof. unfold count. pose proof (map_size_filter (λ cf, P cf.2 = true) m). lia. Qed.
Lemma count_one m : (∀ c fl, m !! c = Some fl → P fl = true → ∀ d fl', m !! d = Some fl' → P fl' = true → d = c) →
  count m = 0 ∨ count m = 1 ∧ ∃ c fl, m !! c = Some fl ∧ P fl = true.
Proof.
  intros H. destruct (decide (filter (λ cf, P cf.2 = true) m = ∅)) as [E|E].
  { left. unfold count. by rewrite E. }
  apply map_choose in E as (c & fl & Hc). apply map_lookup_filter_Some in Hc as [Hc Hp]. cbn in Hp.
  right. split; [|by exists c, fl]. rewrite (count_lookup c fl m Hc), Hp.
  assert (filter (λ cf, P cf.2 = true) (delete c m) = ∅) as E; [|by unfold count; rewrite E].
  apply map_empty. intros d. apply map_lookup_filter_None. right. intros fl' Hd. cbn. intros Hp'.
  apply lookup_delete_Some in Hd as [Hne Hd]. destruct Hne. symmetry. by apply (H c fl Hc Hp d fl').
Qed.
End Count.

(** A flight that has passed the reading of a prefix. *)
Definition has_passed (k : string) (fl : Attempt * Phase) : bool :=
  match fl.2 with
  | Reading n => bool_decide (k ∈ take n (prefix_keys (at_ip fl.1)))
  | Checked _ => bool_decide (k ∈ prefix_keys (at_ip fl.1))
  end.
(** One that has been let through, guarded by a record. *)
Definition is_checked (k : string) (fl : Attempt * Phase) : bool :=
  match fl.2 with Reading _ => false | Checked _ => bool_decide (guarded k fl.1) end.
Definition passed (k : string) (g : Gate) : Z := count (has_passed k) (g_flying g).
Definition checked (k : string) (g : Gate) : Z := count (is_checked k) (g_flying g).

(** The attempt that a step lets through to the comparison. *)
Definition lets (x : GateStep) (g : Gate) : option Attempt :=
  match x with
  | GsTurn c =>
      match g_flying g !! c, g_flying (gate_step x g) !! c with
      | Some (a, Reading _), Some (_, Checked _) => Some a
      | _, _ => None
      end
  | GsStart _ _ => None
  end.
Definition lets_one (k : string) (x : GateStep) (g : Gate) : Z :=
  match lets x g with Some a => if bool_decide (guarded k a) then 1 else 0 | None => 0 end.
(** How many attempts that consult a record are let through. *)
Fixpoint let_through (k : string) (xs : list GateStep) (g : Gate) : Z :=
  match xs with [] => 0 | x :: xs => lets_one k x g + let_through k xs (gate_step x g) end.

(** The attempts that a run starts with or begins. *)
Definition attempts_in (xs : list GateStep) (g : Gate) (a : Attempt) : Prop :=
  (∃ c ph, g_flying g !! c = Some (a, ph)) ∨ ∃ c, GsStart c a ∈ xs.

(** Never more than [cap] attempts in flight; and never two from one address. *)
Fixpoint at_most (cap : Z) (xs : list GateStep) (g : Gate) : bool :=
  match xs with
  | [] => true
  | x :: xs => (Z.of_nat (base.size (g_flying (gate_step x g))) <=? cap) && at_most cap xs (gate_step x g)
  end.
Definition alone_step (k : string) (x : GateStep) (g : Gate) : bool :=
  match x with
  | GsStart c a => negb (String.eqb (at_ip a) k) || bool_decide (map_Forall (λ _ fl, at_ip fl.1 ≠ k) (g_flying g))
  | GsTurn _ => true
  end.
Fixpoint alone (k : string) (xs : list GateStep) (g : Gate) : bool :=
  match xs with [] => true | x :: xs => alone_step k x g && alone k xs (gate_step x g) end.

Lemma flying_step x g c fl :
  g_flying (gate_step x g) !! c = Some fl →
  g_flying g !! c = Some fl ∨ x = GsStart c fl.1 ∧ fl.2 = Reading 0
  ∨ x = GsTurn c ∧ ∃ ph, g_flying g !! c = Some (fl.1, ph).
Proof.
  destruct x as [d a|d]; cbn [gate_step].
  - destruct (g_flying g !! d) eqn:Ed; [by left|]. cbn. intros [[<- <-]|[_ H]]%lookup_insert_Some; auto.
  - destruct (g_flying g !! d) as [[a ph]|] eqn:Ed; [|by left].
    assert (∀ m d c fl, g_flying (mkGate m (delete d (g_flying g))) !! c = Some fl → g_flying g !! c = Some fl) as Hdel
      by (intros m d' c' fl'; cbn; intros [_ H]%lookup_delete_Some; done).
    unfold flight_turn. destruct ph as [n|f]; [|intros H; left; by eapply Hdel].
    destruct (prefixes (at_ip a) !! n) as [[p [num th]]|].
    + destruct (check_failure_ipv6_prefix _ _ _ _); [intros H; left; by eapply Hdel|]. cbn.
      intros [[<- <-]|[_ H]]%lookup_insert_Some; [|by left]. do 2 right. cbn. eauto.
    + destruct (check_direct _ _ _) as [f [e|]]; [intros H; left; by eapply Hdel|]. cbn.
      intros [[<- <-]|[_ H]]%lookup_insert_Some; [|by left]. do 2 right. cbn. eauto.
Qed.

Lemma attempts_step x xs g a : attempts_in xs (gate_step x g) a → attempts_in (x :: xs) g a.
Proof.
  intros [(c & ph & H)|[c H]]; [|right; exists c; by right].
  apply flying_step in H as [H|[[-> _]|[_ [ph' H]]]]; [left; eauto|right; exists c; left|left; eauto].
Qed.

(** *** Records in use *)

(** A record with which an attempt is let through. *)
Definition may_try (time : Z) (f : Failure) : Prop :=
  0 <= f.1.2 <= f.2 ∧ f.2 <= 30 ∧ ¬ (time = f.1.1 ∧ 6 < f.1.2).

(** With at most [cap] attempts in flight, what a network's record counts and those that
    have passed it are bounded. *)
Record gate_ok (cap : Z) (g : Gate) : Prop := {
  go_plain : ∀ c fl, g_flying g !! c = Some fl → plain_ip (at_ip fl.1);
  go_size : Z.of_nat (base.size (g_flying g)) <= cap;
  go_counts : ∀ k, 0 <= (failure_of (g_table g) k).1.2 <= total (g_table g) k;
  go_network : ∀ k, contains_char "/" k = true → total (g_table g) k + passed k g <= limit k + cap;
  go_address : ∀ k, plain_ip k → total (g_table g) k <= 31 ∧ (failure_of (g_table g) k).1.2 <= 7;
  go_checked : ∀ c a f, g_flying g !! c = Some (a, Checked f) → may_try (at_time a) f
}.

Lemma gate_new_ok cap : 0 <= cap → gate_ok cap gate_new.
Proof.
  intros H. assert (∀ k, failure_of ∅ k = no_failure) as E by (intros k; unfold failure_of; by rewrite lookup_empty).
  split; cbn; unfold total; intros; rewrite ?E; cbn; try done.
  - unfold passed, count. cbn. rewrite map_filter_empty, map_size_empty. pose proof (limit_range k). lia.
Qed.

(** Fewer in flight. *)
Lemma gate_over cap m c fl g : gate_ok cap g → g_flying g !! c = Some fl →
  (∀ k, 0 <= (failure_of m k).1.2 <= total m k) →
  (∀ k, plain_ip k → total m k <= 31 ∧ (failure_of m k).1.2 <= 7) →
  (∀ k, contains_char "/" k = true → total m k <= total (g_table g) k + (if has_passed k fl then 1 else 0) ∨ total m k = 0) →
  gate_ok cap (mkGate m (delete c (g_flying g))).
Proof.
  intros [H1 H2 H3 H4 H5 H6] Hc Hm Hp Hn. pose proof (map_size_delete c (g_flying g)) as Hsz. rewrite Hc in Hsz.
  split; cbn [g_table g_flying].
  - intros d f [_ Hd]%lookup_delete_Some. by eapply H1.
  - lia.
  - done.
  - intros k Hk. specialize (H4 k Hk). unfold passed in *. cbn [g_flying].
    rewrite (count_lookup _ c fl _ Hc) in H4. pose proof (limit_range k).
    pose proof (count_range (has_passed k) (delete c (g_flying g))). destruct (Hn k Hk); lia.
  - done.
  - intros d a f [_ Hd]%lookup_delete_Some. by eapply H6.
Qed.

(** Further on. *)
Lemma gate_goes cap c a ph ph' g : gate_ok cap g → g_flying g !! c = Some (a, ph) →
  (∀ f, ph' = Checked f → may_try (at_time a) f) →
  (∀ k, has_passed k (a, ph') = true → has_passed k (a, ph) = true ∨ total (g_table g) k <= limit k) →
  gate_ok cap (mkGate (g_table g) (<[c := (a, ph')]> (g_flying g))).
Proof.
  intros [H1 H2 H3 H4 H5 H6] Hc Hf Hp.
  assert (base.size (<[c := (a, ph')]> (g_flying g)) = base.size (g_flying g)) as Hsz
    by (rewrite map_size_insert, Hc; done).
  split; cbn [g_table g_flying]; try done.
  - intros d fl [[<- <-]|[_ Hd]]%lookup_insert_Some; [by apply (H1 c _ Hc)|by eapply H1].
  - by rewrite Hsz.
  - intros k Hk. specialize (H4 k Hk). unfold passed in *. cbn [g_flying].
    pose proof (count_range (has_passed k) (<[c := (a, ph')]> (g_flying g))) as Hr. rewrite Hsz in Hr.
    rewrite count_insert in Hr |- *. rewrite (count_lookup _ c _ _ Hc) in H4.
    destruct (has_passed k (a, ph')) eqn:E'; [destruct (Hp k E') as [E2|?]; [rewrite E2 in H4|]; lia|].
    destruct (has_passed k (a, ph)); lia.
  - intros d a' f [[<- [= <- ->]]|[_ Hd]]%lookup_insert_Some; [by apply Hf|by eapply H6].
Qed.

Lemma total_bound cap k g : cap <= 2 ^ 30 → gate_ok cap g → total (g_table g) k < 2 ^ 31 - 1.
Proof.
  intros Hcap [_ H2 _ H4 H5 _]. destruct (contains_char "/" k) eqn:E.
  - specialize (H4 k E). pose proof (limit_range k). pose proof (count_range (has_passed k) (g_flying g)).
    unfold passed in H4. lia.
  - specialize (H5 k E). lia.
Qed.

Lemma update_ok cap c a f g : cap <= 2 ^ 30 → gate_ok cap g → g_flying g !! c = Some (a, Checked f) →
  gate_ok cap (mkGate (update_failure (at_ip a) f (at_time a) (at_ok a) (g_table g)) (delete c (g_flying g))).
Proof.
  intros Hcap Hg Hc. pose proof Hg as [H1 H2 H3 H4 H5 H6].
  pose proof (H1 c _ Hc) as Hp. cbn in Hp. destruct (H6 c a f Hc) as (Hf1 & Hf2 & Hf3).
  assert (∀ k, total (g_table g) k < 2 ^ 31 - 1) as Ht by (intros k; by eapply total_bound).
  set (m := update_failure _ _ _ _ _).
  assert (∀ k, failure_of m k = failure_of (g_table g) k ∨ failure_of m k = no_failure
               ∨ (k = at_ip a ∧ failure_of m k = bump f (at_time a))
               ∨ k ∈ prefix_keys (at_ip a) ∧ failure_of m k = bump (failure_of (g_table g) k) (at_time a)) as Hm.
  { intros k. unfold m. destruct (at_ok a).
    - destruct (update_right (at_ip a) f (at_time a) (g_table g) k) as [?|[_ ?]]; auto.
    - rewrite update_wrong by done. case_decide; [by auto|]. case_decide; auto. }
  unfold total in *. eapply gate_over; [done|done|..]; unfold total.
  - intros k. destruct (Hm k) as [->|[->|[[_ ->]|[_ ->]]]]; [apply H3|cbn; lia| |].
    + destruct (bump_counts f (at_time a)) as (-> & ? & _); [lia..|]. lia.
    + specialize (Ht k). destruct (bump_counts (failure_of (g_table g) k) (at_time a)) as (-> & ? & _); [apply H3|done|]. lia.
  - intros k Hk. destruct (Hm k) as [->|[->|[[_ ->]|[Hin _]]]]; [by apply H5|cbn; lia| |].
    + destruct (bump_counts f (at_time a)) as (-> & _ & _ & ->); [lia..|]. case_decide; lia.
    + apply prefix_slash in Hin. unfold plain_ip in Hk. congruence.
  - intros k Hk. destruct (Hm k) as [->|[->|[[-> _]|[Hin ->]]]]; [left; destruct (has_passed _ _); lia|by right| |].
    + unfold plain_ip in Hp. congruence.
    + left. unfold has_passed. cbn [fst snd]. rewrite bool_decide_true by done. specialize (Ht k).
      destruct (bump_counts (failure_of (g_table g) k) (at_time a)) as (-> & ? & _); [apply H3|done|]. lia.
Qed.

Lemma gate_step_ok cap x g : cap <= 2 ^ 30 → gate_ok cap g →
  (∀ c a, x = GsStart c a → plain_ip (at_ip a)) → Z.of_nat (base.size (g_flying (gate_step x g))) <= cap →
  gate_ok cap (gate_step x g).
Proof.
  intros Hcap Hg Hx Hsize. pose proof Hg as [H1 H2 H3 H4 H5 H6]. destruct x as [c a|c]; cbn [gate_step] in *.
  - destruct (g_flying g !! c) eqn:Ec; [done|]. cbn [g_flying] in Hsize. split; cbn [g_table g_flying]; try done.
    + intros d fl [[<- <-]|[_ Hd]]%lookup_insert_Some; [by eapply Hx|by eapply H1].
    + intros k Hk. specialize (H4 k Hk). unfold passed in *. cbn [g_flying]. rewrite count_insert, delete_id by done.
      unfold has_passed at 2. cbn [fst snd take]. rewrite bool_decide_false by apply not_elem_of_nil. lia.
    + intros d a' f [[_ [=]]|[_ Hd]]%lookup_insert_Some. by eapply H6.
  - destruct (g_flying g !! c) as [[a ph]|] eqn:Ec; [|done].
    assert (gate_ok cap (mkGate (g_table g) (delete c (g_flying g)))) as Hover.
    { eapply gate_over; try done. intros k _. left. destruct (has_passed _ _); lia. }
    unfold flight_turn in *. destruct ph as [n|f]; [|by apply update_ok].
    destruct (prefixes (at_ip a) !! n) as [[p [num th]]|] eqn:En.
    + unfold check_failure_ipv6_prefix in *. destruct (Z.ltb_spec th (failure_of (g_table g) p).2); [done|].
      eapply gate_goes; [done|done|done|]. intros k. unfold has_passed. cbn [fst snd].
      assert (prefix_keys (at_ip a) !! n = Some p) as Ep by (unfold prefix_keys; by rewrite list_lookup_fmap, En).
      rewrite !bool_decide_eq_true, (take_S_r _ _ _ Ep), elem_of_app, list_elem_of_singleton.
      intros [?| ->]; [by left|right]. apply list_elem_of_lookup_2, prefix_guard in En.
      rewrite <- (guards_limit _ _ _ (H1 c _ Ec) En). done.
    + destruct (check_direct _ _ _) as [f [e|]] eqn:Ed; [done|].
      apply check_direct_spec in Ed as (-> & Hf & Ht).
      eapply gate_goes; [done|done| |].
      * intros f [= <-]. split; [apply H3|done].
      * intros k. unfold has_passed. cbn [fst snd]. rewrite !bool_decide_eq_true. left.
        rewrite take_ge; [done|]. unfold prefix_keys. rewrite length_fmap. by apply lookup_ge_None_1.
Qed.

Lemma gate_run_ok cap xs g : cap <= 2 ^ 30 → gate_ok cap g →
  (∀ c a, GsStart c a ∈ xs → plain_ip (at_ip a)) → at_most cap xs g = true → gate_ok cap (gate_run xs g).
Proof.
  intros Hcap. revert g. induction xs as [|x xs IH]; intros g Hg Hx Hm; [done|]. cbn in Hm.
  apply andb_true_iff in Hm as [M1%Z.leb_le M2]. apply (IH (gate_step x g)); [|intros c a Hin; apply (Hx c); by right|done].
  apply gate_step_ok; try done. intros c a ->. apply (Hx c). left.
Qed.

(** *** What a step does to the counts of a record *)

(** The flights of an address, at most one; its check handed on the record as it is. *)
Definition single (k : string) (g : Gate) : Prop :=
  ∀ c d fl fl', g_flying g !! c = Some fl → g_flying g !! d = Some fl' →
    at_ip fl.1 = k → at_ip fl'.1 = k → c = d.
Definition fresh (k : string) (g : Gate) : Prop :=
  ∀ c a f, g_flying g !! c = Some (a, Checked f) → at_ip a = k → f = failure_of (g_table g) k.

(** Others leave the record of an address alone. *)
Lemma update_other ip f time ok m k : plain_ip ip → plain_ip k → ip ≠ k →
  failure_of (update_failure ip f time ok m) k = failure_of m k.
Proof.
  intros Hp Hk Hne. assert (k ∉ prefix_keys ip) as Hn by (intros H%prefix_slash; unfold plain_ip in Hk; congruence).
  destruct ok.
  - destruct (update_right ip f time m k) as [?|[H _]]; [done|]. rewrite guards_keys in H. set_solver.
  - rewrite update_wrong by done. rewrite decide_False by done. by rewrite decide_False.
Qed.

Lemma alone_kept cap k x g : gate_ok cap g → plain_ip k → single k g → fresh k g → alone_step k x g = true →
  single k (gate_step x g) ∧ fresh k (gate_step x g).
Proof.
  intros Hg Hk Hs Hf Ha. split.
  - intros c d fl fl' Hc Hd Ec Ed. apply flying_step in Hc as [Hc|[[-> Hc]|[-> [ph Hc]]]];
      apply flying_step in Hd as [Hd|[[Hd Hd']|[Hd [ph' Hd']]]]; try naive_solver.
    + cbn in Ha. subst x. cbn in Ha. rewrite Ed, String.eqb_refl in Ha. cbn in Ha.
      apply bool_decide_eq_true in Ha. by destruct (Ha c fl Hc).
    + cbn in Ha. rewrite Ec, String.eqb_refl in Ha. cbn in Ha.
      apply bool_decide_eq_true in Ha. by destruct (Ha d fl' Hd).
  - destruct x as [c a|c]; cbn [gate_step].
    + destruct (g_flying g !! c); [done|]. intros d b f; cbn [g_flying g_table]; intros [[_ [=]]|[_ Hd]]%lookup_insert_Some. by eapply (Hf d).
    + destruct (g_flying g !! c) as [[a ph]|] eqn:Ec; [|done]. unfold flight_turn.
      assert (fresh k (mkGate (g_table g) (delete c (g_flying g)))) as Hover
        by (intros d b f; cbn [g_flying g_table]; intros [_ Hd]%lookup_delete_Some; by eapply (Hf d)).
      destruct ph as [n|f].
      * destruct (prefixes (at_ip a) !! n) as [[p [num th]]|].
        { destruct (check_failure_ipv6_prefix _ _ _ _); [done|].
          intros d b f; cbn [g_flying g_table]; intros [[_ [=]]|[_ Hd]]%lookup_insert_Some. by eapply (Hf d). }
        destruct (check_direct _ _ _) as [f [e|]] eqn:Ed; [done|]. apply check_direct_spec in Ed as (-> & _).
        intros d b f; cbn [g_flying g_table]; intros [[_ [= -> <-]]|[_ Hd]]%lookup_insert_Some; [by intros ->|by eapply (Hf d)].
      * intros d b f'. cbn [g_flying g_table]. intros [Hne Hd]%lookup_delete_Some Eb. rewrite update_other; [by eapply (Hf d)|..].
        { exact (go_plain _ _ Hg c _ Ec). } { done. }
        intros E. destruct Hne. by apply (Hs c d (a, Checked f) (b, Checked f')).
Qed.

(** A counter of failures: what a wrong attempt adds one to. *)
Section Counter.
Variable V : Failure → Z.

Lemma step_counts k x g :
  (∀ c fl, g_flying g !! c = Some fl → plain_ip (at_ip fl.1)) →
  (∀ c a f, g_flying g !! c = Some (a, Checked f) → guarded k a →
     at_ok a = false ∧ V (bump (if decide (k = at_ip a) then f else failure_of (g_table g) k) (at_time a))
                       = V (failure_of (g_table g) k) + 1) →
  V (failure_of (g_table (gate_step x g)) k) + checked k (gate_step x g)
  = V (failure_of (g_table g) k) + checked k g + lets_one k x g.
Proof.
  intros Hp Hb. unfold lets_one, lets, checked. destruct x as [c a|c]; cbn [gate_step].
  { destruct (g_flying g !! c) eqn:Ec; [lia|]. cbn [g_table g_flying]. rewrite count_insert, delete_id by done.
    cbn. lia. }
  destruct (g_flying g !! c) as [[a ph]|] eqn:Ec; [|lia]. rewrite (count_lookup _ c _ _ Ec).
  destruct ph as [n|f].
  - change (is_checked k (a, Reading n)) with false. cbn [flight_turn].
    destruct (prefixes (at_ip a) !! n) as [[p [num th]]|].
    + destruct (check_failure_ipv6_prefix _ _ _ _); cbn [g_flying g_table].
      * rewrite lookup_delete_eq. lia.
      * rewrite lookup_insert_eq, count_insert. cbn. lia.
    + destruct (check_direct _ _ _) as [f [e|]]; cbn [g_flying g_table].
      * rewrite lookup_delete_eq. lia.
      * rewrite lookup_insert_eq, count_insert. cbn [is_checked snd fst]. lia.
  - cbn [flight_turn g_flying g_table].
    change (is_checked k (a, Checked f)) with (bool_decide (guarded k a)).
    case_bool_decide as Hg.
    + destruct (Hb c a f Ec Hg) as [-> Hv]. specialize (Hp c _ Ec). cbn in Hp.
      rewrite update_wrong by done. unfold guarded in Hg. rewrite guards_keys in Hg.
      destruct (decide (k = at_ip a)) as [->|Hne]; [lia|]. rewrite decide_True by set_solver. lia.
    + assert (failure_of (update_failure (at_ip a) f (at_time a) (at_ok a) (g_table g)) k = failure_of (g_table g) k) as ->; [|lia].
      unfold guarded in Hg. destruct (at_ok a).
      * destruct (update_right (at_ip a) f (at_time a) (g_table g) k) as [->|[? _]]; done.
      * specialize (Hp c _ Ec). cbn in Hp. rewrite update_wrong by done. rewrite guards_keys in Hg.
        rewrite !decide_False by set_solver. done.
Qed.
End Counter.

(** ** Limits over any interleaving *)

Definition starts_plain (xs : list GateStep) : Prop := ∀ c a, GsStart c a ∈ xs → plain_ip (at_ip a).

Lemma starts_plain_cons x xs : starts_plain (x :: xs) → (∀ c a, x = GsStart c a → plain_ip (at_ip a)) ∧ starts_plain xs.
Proof. intros H. split; [intros c a ->; apply (H c); left|intros c a Hin; apply (H c); by right]. Qed.

Lemma at_most_app cap xs ys g : at_most cap (xs ++ ys) g = at_most cap xs g && at_most cap ys (gate_run xs g).
Proof. revert g. induction xs as [|x xs IH]; intros g; [done|]. cbn. by rewrite IH, andb_assoc. Qed.
Lemma alone_app k xs ys g : alone k (xs ++ ys) g = alone k xs g && alone k ys (gate_run xs g).
Proof. revert g. induction xs as [|x xs IH]; intros g; [done|]. cbn [alone app]. by rewrite IH, andb_assoc. Qed.

Lemma attempts_run xs g c a ph : g_flying (gate_run xs g) !! c = Some (a, ph) → attempts_in xs g a.
Proof.
  revert g. induction xs as [|x xs IH]; intros g H; [left; eauto|]. apply attempts_step. by apply IH.
Qed.

Lemma alone_run cap k xs g : cap <= 2 ^ 30 → gate_ok cap g → starts_plain xs → at_most cap xs g = true →
  plain_ip k → single k g → fresh k g → alone k xs g = true →
  single k (gate_run xs g) ∧ fresh k (gate_run xs g).
Proof.
  intros Hcap. revert g. induction xs as [|x xs IH]; intros g Hg Hx Hm Hk Hs Hf Ha; [done|]. cbn in Hm. cbn [alone] in Ha.
  apply andb_true_iff in Hm as [M1%Z.leb_le M2]. apply andb_true_iff in Ha as [A1 A2].
  apply starts_plain_cons in Hx as [Hx Hxs]. destruct (alone_kept cap k x g) as [Hs' Hf']; [done..|].
  apply (IH (gate_step x g)); try done. by apply gate_step_ok.
Qed.

(** The record of a network is bumped as it is; so is that of an address by its only flight. *)
Definition in_step (k : string) (xs : list GateStep) (g : Gate) : Prop :=
  contains_char "/" k = true ∨ plain_ip k ∧ single k g ∧ fresh k g ∧ alone k xs g = true.

Section Counter.
Variables (V : Failure → Z) (T : Attempt → Prop).
Hypothesis V_bump : ∀ f a, T a → 0 <= f.1.2 <= f.2 → f.2 < 2 ^ 31 - 1 → V (bump f (at_time a)) = V f + 1.

Lemma run_counts cap k xs g : cap <= 2 ^ 30 → gate_ok cap g → starts_plain xs → at_most cap xs g = true →
  in_step k xs g → (∀ a, attempts_in xs g a → guarded k a → at_ok a = false ∧ T a) →
  V (failure_of (g_table (gate_run xs g)) k) + checked k (gate_run xs g)
  = V (failure_of (g_table g) k) + checked k g + let_through k xs g.
Proof.
  intros Hcap. revert g. induction xs as [|x xs IH]; intros g Hg Hx Hm Hi Ha; cbn [let_through gate_run foldl]; [lia|].
  cbn in Hm. apply andb_true_iff in Hm as [M1%Z.leb_le M2]. apply starts_plain_cons in Hx as [Hx Hxs].
  assert (in_step k xs (gate_step x g)) as Hi'.
  { destruct Hi as [?|(? & ? & ? & Hl)]; [by left|right]. cbn in Hl. apply andb_true_iff in Hl as [L1 L2].
    destruct (alone_kept cap k x g); done. }
  pose proof (IH _ (gate_step_ok cap x g Hcap Hg Hx M1) Hxs M2 Hi' (λ a H, Ha a (attempts_step x xs g a H))) as Hr.
  unfold gate_run in Hr. rewrite Hr, (step_counts V k x g); [lia|apply (go_plain _ _ Hg)|].
  intros c a f Hc Hk. destruct (Ha a) as [Hok Ht]; [left; eauto|done|]. split; [done|].
  pose proof (go_counts _ _ Hg k) as Hn. pose proof (total_bound cap k g Hcap Hg) as Hb. unfold total in *.
  case_decide as E; [|by apply V_bump]. destruct (go_checked _ _ Hg c a f Hc) as (? & ? & _).
  rewrite V_bump by (done || lia). destruct Hi as [Hs|(_ & _ & Hf & _)].
  - pose proof (go_plain _ _ Hg c _ Hc) as Hp. cbn in Hp. unfold plain_ip in Hp. congruence.
  - by rewrite (Hf c a f Hc).
Qed.
End Counter.

(** What one flight of an address can still add. *)
Lemma checked_alone cap k g : gate_ok cap g → plain_ip k → single k g → fresh k g →
  checked k g = 0 ∨ checked k g = 1 ∧ ∃ c a f, g_flying g !! c = Some (a, Checked f) ∧ at_ip a = k
                                        ∧ may_try (at_time a) (failure_of (g_table g) k).
Proof.
  intros Hg Hk Hs Hf.
  assert (∀ fl, is_checked k fl = true → at_ip fl.1 = k ∧ ∃ f, fl.2 = Checked f) as Hc.
  { intros [a [|f]]; unfold is_checked; cbn; [done|]. intros H%bool_decide_eq_true.
    apply guarded_self in H; [|done]. eauto. }
  destruct (count_one (is_checked k) (g_flying g)) as [?|[? (c & [a ph] & Hl & Hp)]]; [|by left|].
  - intros c fl Hl Hp d fl' Hl' Hp'. destruct (Hc _ Hp) as [? _], (Hc _ Hp') as [? _]. by eapply Hs.
  - right. split; [done|]. destruct (Hc _ Hp) as [Hip [f Ef]]. cbn in Hip, Ef. subst ph.
    exists c, a, f. split_and!; [done..|]. rewrite <- (Hf c a f Hl Hip). by apply (go_checked _ _ Hg c).
Qed.

Lemma checked_passed cap k g : gate_ok cap g → contains_char "/" k = true → checked k g <= passed k g.
Proof.
  intros Hg Hk. unfold checked, passed. assert (∀ c fl, g_flying g !! c = Some fl → is_checked k fl = true → has_passed k fl = true) as H.
  { intros c [a [|f]] Hl; unfold is_checked, has_passed; cbn; [done|]. rewrite !bool_decide_eq_true.
    intros H. apply guarded_network in H; [done| |done]. by apply (go_plain _ _ Hg c _ Hl). }
  clear Hg. induction (g_flying g) as [|c fl m Hc IH] using map_ind; [done|]. rewrite !count_insert, delete_id by done.
  assert (count (is_checked k) m <= count (has_passed k) m).
  { apply IH. intros d fl' Hd. apply (H d). rewrite lookup_insert_ne; [done|congruence]. }
  specialize (H c fl (lookup_insert_eq _ _ _)). destruct (is_checked k fl), (has_passed k fl); naive_solver lia.
Qed.

Lemma checked_nonneg k g : 0 <= checked k g.
Proof. apply count_range. Qed.

(** The failures of a minute. *)
Definition in_minute (t : Z) (f : Failure) : Z := if decide (f.1.1 = t) then f.1.2 else 0.

Lemma in_minute_bump t f a : at_time a = t → 0 <= f.1.2 <= f.2 → f.2 < 2 ^ 31 - 1 →
  in_minute t (bump f (at_time a)) = in_minute t f + 1.
Proof.
  intros <- H1 H2. destruct (bump_counts f (at_time a)) as (_ & _ & B3 & B4); [done..|].
  unfold in_minute. rewrite B3, B4, decide_True by done. case_decide; lia.
Qed.

(** C16: brute force is bounded, however the attempts of different connections interleave,
    each of whose checks and updates takes the lock of the table anew. As long as every
    attempt that consults a record is wrong (those in flight at the beginning too),
    whatever came before and whatever others do, of these the ones that are compared with
    the real password, all others being refused before, are for a network (a /64, /56 or
    /48) at most its limit (60, 80, 100) and as many more as attempts are ever in flight
    at once (a number up to 2^30). For one address, if its attempts never overlap each
    other, they are at most 31, and at most seven if all are of one minute.
    Addresses hold no slash. *)
Theorem throttle_limits cap k pre tr :
  let g := gate_run pre gate_new in
  0 <= cap <= 2 ^ 30 → at_most cap (pre ++ tr) gate_new = true → starts_plain (pre ++ tr) →
  (∀ a, attempts_in tr g a → guarded k a → at_ok a = false) →
  (contains_char "/" k = true → let_through k tr g <= limit k + cap)
  ∧ (plain_ip k → alone k (pre ++ tr) gate_new = true →
       let_through k tr g <= 31
       ∧ ∀ t, (∀ a, attempts_in tr g a → at_ip a = k → at_time a = t) → let_through k tr g <= 7).
Proof.
  intros g [Hcap0 Hcap] Hm Hx Hw. rewrite at_most_app in Hm. apply andb_true_iff in Hm as [M1 M2]. fold g in M2.
  assert (starts_plain pre ∧ starts_plain tr) as [Hx1 Hx2]
    by (split; intros c a Hin; apply (Hx c a); apply elem_of_app; auto).
  pose proof (gate_run_ok cap pre gate_new Hcap (gate_new_ok cap Hcap0) Hx1 M1) as Hg. fold g in Hg.
  pose proof (gate_run_ok cap tr g Hcap Hg Hx2 M2) as Hg'.
  pose proof (go_counts _ _ Hg k) as Hc. pose proof (checked_nonneg k g) as Hn. unfold total in *.
  split; [intros Hk|intros Hk Ha].
  - pose proof (run_counts snd (λ _, True) (λ f a _ H1 H2, proj1 (bump_counts f (at_time a) H1 H2))
      cap k tr g Hcap Hg Hx2 M2 (or_introl Hk) (λ a H1 H2, conj (Hw a H1 H2) I)) as Hr. cbn [snd] in Hr.
    pose proof (checked_passed _ _ _ Hg' Hk). pose proof (go_network _ _ Hg' k Hk). unfold total in *. lia.
  - rewrite alone_app in Ha. apply andb_true_iff in Ha as [A1 A2]. fold g in A2.
    destruct (alone_run cap k pre gate_new Hcap (gate_new_ok cap Hcap0) Hx1 M1 Hk) as [Hs Hf]; [done..|]. fold g in Hs, Hf.
    destruct (alone_run cap k tr g Hcap Hg Hx2 M2 Hk Hs Hf A2) as [Hs' Hf'].
    pose proof (checked_alone _ _ _ Hg' Hk Hs' Hf') as Hch. destruct (go_address _ _ Hg' k Hk) as [G1 G2].
    assert (in_step k tr g) as Hi by (by right). unfold total, may_try in *. split.
    + pose proof (run_counts snd (λ _, True) (λ f a _ H1 H2, proj1 (bump_counts f (at_time a) H1 H2))
        cap k tr g Hcap Hg Hx2 M2 Hi (λ a H1 H2, conj (Hw a H1 H2) I)) as Hr. cbn [snd] in Hr.
      destruct Hch as [?|(? & c & a & f & _ & _ & ? & ? & _)]; lia.
    + intros t Ht.
      pose proof (run_counts (in_minute t) (λ a, at_time a = t) (in_minute_bump t) cap k tr g Hcap Hg Hx2 M2 Hi
        (λ a H1 H2, conj (Hw a H1 H2) (Ht a H1 (proj1 (guarded_self k a Hk) H2)))) as Hr.
      pose proof (go_counts _ _ Hg' k) as Hc'. unfold total in Hc'.
      destruct Hch as [?|(? & c & a & f & Hl & Hip & _ & _ & Hno)].
      * unfold in_minute in *. repeat case_decide; lia.
      * assert (at_time a = t) as <- by (apply Ht; [by eapply attempts_run|done]).
        unfold in_minute in *. repeat case_decide; lia.
Qed.

(** Sixty-five wrong passwords from two addresses of one /64, two at a time: 62 of them
    are compared. *)
Definition two_at_a_time (n : nat) : list GateStep :=
  let a ip := {| at_ip := ip; at_time := Z.of_nat n; at_ok := false |} in
  [GsStart 1 (a "2001:db8::1"%string); GsStart 2 (a "2001:db8::2%eth0"%string);
   GsTurn 1; GsTurn 2; GsTurn 1; GsTurn 2; GsTurn 1; GsTurn 2; GsTurn 1; GsTurn 2; GsTurn 1; GsTurn 2].

Lemma throttle_limits_witness :
  let tr := List.concat (map two_at_a_time (seq 0 33)) in
  let k := "2001:db8::/64"%string in
  let_through k tr gate_new = 62 ∧ let_through k tr gate_new <= limit k + 2.
Proof.
  intros tr k. split; [vm_compute; reflexivity|].
  refine (proj1 (throttle_limits 2 k [] tr _ _ _ _) _);
    [lia|vm_compute; reflexivity| | |vm_compute; reflexivity].
  - intros c a Hin. apply list_elem_of_In, in_concat in Hin as (l & Hl & Hin).
    apply in_map_iff in Hl as (n & <- & _). unfold two_at_a_time in Hin. cbn in Hin.
    destruct_or?; try done; injection Hin as <- <-; done.
  - intros a [(c & ph & [=])|[c Hin]] _. apply list_elem_of_In, in_concat in Hin as (l & Hl & Hin).
    apply in_map_iff in Hl as (n & <- & _). unfold two_at_a_time in Hin. cbn in Hin.
    destruct_or?; try done; injection Hin as <- <-; done.
Defined.

(** *** What overlapping attempts do *)

(** A flight that nothing overtakes decides as [check_failure] does at once. *)
Lemma flight_alone c a m fl : fl !! c = None →
  gate_run (GsStart c a :: replicate (S (length (prefixes (at_ip a)))) (GsTurn c)) (mkGate m fl) =
  match check_failure (at_ip a) (at_time a) m with
  | (_, Some _) => mkGate m fl
  | (f, None) => mkGate m (<[c := (a, Checked f)]> fl)
  end.
Proof.
  intros Hc. unfold gate_run. cbn [foldl gate_step g_flying g_table]. rewrite Hc.
  assert (∀ xs, xs = replicate (length xs) (GsTurn c) →
    foldl (λ g x, gate_step x g) (mkGate m fl) xs = mkGate m fl) as Hidle.
  { intros xs ->. generalize (length xs). intros n. induction n as [|n IH]; [done|].
    cbn [replicate foldl gate_step g_flying]. by rewrite Hc. }
  assert (∀ n xs, foldl (λ g x, gate_step x g) (mkGate m (<[c := (a, Reading n)]> fl)) (GsTurn c :: xs)
    = foldl (λ g x, gate_step x g)
        (match prefixes (at_ip a) !! n with
         | Some (p, (num, thresh)) =>
             match check_failure_ipv6_prefix m p num thresh with
             | Some _ => mkGate m fl
             | None => mkGate m (<[c := (a, Reading (S n))]> fl)
             end
         | None => match check_direct (at_ip a) (at_time a) m with
                   | (_, Some _) => mkGate m fl
                   | (f, None) => mkGate m (<[c := (a, Checked f)]> fl)
                   end
         end) xs) as Hturn.
  { intros n xs. cbn [foldl gate_step g_flying g_table]. rewrite lookup_insert_eq. f_equal. unfold flight_turn.
    cbn [g_flying g_table]. repeat case_match; by rewrite ?delete_insert_id, ?insert_insert_eq. }
  unfold check_failure, prefixes in *.
  destruct (get_ipv6_prefixes (at_ip a)) as [[[p64 p56] p48]|]; cbn [length replicate];
    repeat (rewrite Hturn; cbn [lookup list_lookup];
            (destruct (check_failure_ipv6_prefix _ _ _ _) as [[? ?]|] || destruct (check_direct _ _ _) as [? [?|]]);
            [by apply Hidle|]); done.
Qed.

(** Two connections that both pass the check before either records its
    failure are counted as one: the second writes back the record it was
    handed, bumped once. *)
Lemma lost_update ip time m f :
  get_ipv6_prefixes ip = None →
  update_failure ip f time false (update_failure ip f time false m) = update_failure ip f time false m.
Proof.
  intros Hn. unfold update_failure. rewrite Hn. by rewrite insert_insert_eq.
Qed.

(** So a second connection of an IPv4 address that holds back the update of its first
    check makes the table forget what the address did meanwhile: 47 wrong passwords of one
    address are compared. *)
Lemma overlapping_attempts_uncounted :
  let a n := {| at_ip := "192.0.2.7"%string; at_time := Z.of_nat n; at_ok := false |} in
  let tries := List.concat (map (λ n, [GsStart 1 (a n); GsTurn 1; GsTurn 1]) (seq 0 15)) in
  let slow := [GsStart 2 (a 15%nat); GsTurn 2] in
  let tr := (slow ++ tries ++ [GsTurn 2] ++ slow ++ tries ++ [GsTurn 2] ++ tries)%list in
  let_through "192.0.2.7"%string tr gate_new = 47
  ∧ alone "192.0.2.7"%string tr gate_new = false ∧ total (g_table (gate_run tr gate_new)) "192.0.2.7"%string = 17.
Proof. vm_compute. split_and!; reflexivity. Qed.
