(* ===== verification/Sessions.v ===== *)
(** * Sessions and the registries of connections

    The module [raii] of [src/server/connection.rs] and the statics it guards:
    live connections, authorised connections, the permission bitmaps of live
    connections, and the login sessions that let a peer reconnect without a
    password.  The receive time of a session is shared ([Arc<Mutex<Instant>>])
    between the session and its connections: it is a cell of [clocks], and a
    session holds the address of the cell.  The quality-of-service table is that
    of [VideoQos]. *)

From S2P Require Import Prelude Strs Version VideoQos.
From Stdlib Require Import Ascii String.

Local Open Scope list_scope.
#[local] Abbreviation length := Datatypes.length.

Record SessionKey := { peer_id : string; name : string; session_id : Z }.

#[global] Instance SessionKey_eq_dec : EqDecision SessionKey.
Proof. solve_decision. Defined.
#[global] Instance SessionKey_countable : Countable SessionKey.
Proof.
  refine (inj_countable' (λ k, (peer_id k, name k, session_id k))
    (λ '(a, b, c), {| peer_id := a; name := b; session_id := c |}) _). by intros [].
Defined.

Record Session := { last_recv_time : nat; random_password : string; tfa : bool }.

Inductive AuthConnType := Remote | FileTransfer | PortForward | ViewCamera | Terminal.

#[global] Instance AuthConnType_eq_dec : EqDecision AuthConnType.
Proof. solve_decision. Defined.

Record AuthedConn := {
  conn_id : Z; conn_type : AuthConnType; session_key : SessionKey; printer : bool
}.

Record Statics := {
  SESSIONS : gmap SessionKey Session;
  clocks : gmap nat Z;
  next_clock : nat;
  ALIVE_CONNS : list Z;
  AUTHED_CONNS : list AuthedConn;
  CONTROL_PERMISSIONS_ARRAY : list (Z * Z);
  VIDEO_QOS : VideoQoS;
  WAKELOCK_SENDER : list (nat * nat)   (* the messages sent to the wake-lock thread *)
}.

Definition set_SESSIONS (x : gmap SessionKey Session) (w : Statics) : Statics :=
  {| SESSIONS := x; clocks := clocks w; next_clock := next_clock w; ALIVE_CONNS := ALIVE_CONNS w;
     AUTHED_CONNS := AUTHED_CONNS w; CONTROL_PERMISSIONS_ARRAY := CONTROL_PERMISSIONS_ARRAY w;
     VIDEO_QOS := VIDEO_QOS w; WAKELOCK_SENDER := WAKELOCK_SENDER w |}.
Definition set_clock (l : nat) (now : Z) (w : Statics) : Statics :=
  {| SESSIONS := SESSIONS w; clocks := <[l := now]> (clocks w); next_clock := next_clock w;
     ALIVE_CONNS := ALIVE_CONNS w; AUTHED_CONNS := AUTHED_CONNS w;
     CONTROL_PERMISSIONS_ARRAY := CONTROL_PERMISSIONS_ARRAY w;
     VIDEO_QOS := VIDEO_QOS w; WAKELOCK_SENDER := WAKELOCK_SENDER w |}.
(** [Arc::new(Mutex::new(now))]. *)
Definition new_clock (now : Z) (w : Statics) : nat * Statics :=
  (next_clock w,
   {| SESSIONS := SESSIONS w; clocks := <[next_clock w := now]> (clocks w);
      next_clock := S (next_clock w); ALIVE_CONNS := ALIVE_CONNS w;
      AUTHED_CONNS := AUTHED_CONNS w; CONTROL_PERMISSIONS_ARRAY := CONTROL_PERMISSIONS_ARRAY w;
      VIDEO_QOS := VIDEO_QOS w; WAKELOCK_SENDER := WAKELOCK_SENDER w |}).
Definition set_ALIVE (x : list Z) (w : Statics) : Statics :=
  {| SESSIONS := SESSIONS w; clocks := clocks w; next_clock := next_clock w; ALIVE_CONNS := x;
     AUTHED_CONNS := AUTHED_CONNS w; CONTROL_PERMISSIONS_ARRAY := CONTROL_PERMISSIONS_ARRAY w;
     VIDEO_QOS := VIDEO_QOS w; WAKELOCK_SENDER := WAKELOCK_SENDER w |}.
Definition set_AUTHED (x : list AuthedConn) (w : Statics) : Statics :=
  {| SESSIONS := SESSIONS w; clocks := clocks w; next_clock := next_clock w; ALIVE_CONNS := ALIVE_CONNS w;
     AUTHED_CONNS := x; CONTROL_PERMISSIONS_ARRAY := CONTROL_PERMISSIONS_ARRAY w;
     VIDEO_QOS := VIDEO_QOS w; WAKELOCK_SENDER := WAKELOCK_SENDER w |}.
Definition set_CONTROL (x : list (Z * Z)) (w : Statics) : Statics :=
  {| SESSIONS := SESSIONS w; clocks := clocks w; next_clock := next_clock w; ALIVE_CONNS := ALIVE_CONNS w;
     AUTHED_CONNS := AUTHED_CONNS w; CONTROL_PERMISSIONS_ARRAY := x;
     VIDEO_QOS := VIDEO_QOS w; WAKELOCK_SENDER := WAKELOCK_SENDER w |}.
Definition set_QOS (x : VideoQoS) (w : Statics) : Statics :=
  {| SESSIONS := SESSIONS w; clocks := clocks w; next_clock := next_clock w; ALIVE_CONNS := ALIVE_CONNS w;
     AUTHED_CONNS := AUTHED_CONNS w; CONTROL_PERMISSIONS_ARRAY := CONTROL_PERMISSIONS_ARRAY w;
     VIDEO_QOS := x; WAKELOCK_SENDER := WAKELOCK_SENDER w |}.
Definition send_WAKELOCK (x : nat * nat) (w : Statics) : Statics :=
  {| SESSIONS := SESSIONS w; clocks := clocks w; next_clock := next_clock w; ALIVE_CONNS := ALIVE_CONNS w;
     AUTHED_CONNS := AUTHED_CONNS w; CONTROL_PERMISSIONS_ARRAY := CONTROL_PERMISSIONS_ARRAY w;
     VIDEO_QOS := VIDEO_QOS w; WAKELOCK_SENDER := WAKELOCK_SENDER w ++ [x] |}.

Definition statics_default (now : Z) : Statics :=
  {| SESSIONS := ∅; clocks := ∅; next_clock := 0; ALIVE_CONNS := []; AUTHED_CONNS := [];
     CONTROL_PERMISSIONS_ARRAY := []; VIDEO_QOS := qos_default now; WAKELOCK_SENDER := [] |}.

(** ** Registries *)

(** [ConnectionID::new] and its drop. *)
Definition ConnectionID_new (id : Z) (w : Statics) : Statics := set_ALIVE (ALIVE_CONNS w ++ [id]) w.
Definition ConnectionID_drop (id : Z) (w : Statics) : Statics :=
  set_ALIVE (List.filter (λ c, negb (c =? id)%Z) (ALIVE_CONNS w)) w.

(** [ControlPermissionsID::new] and its drop. *)
Definition ControlPermissionsID_new (id : Z) (cp : option Z) (w : Statics) : Statics :=
  match cp with
  | Some s => set_CONTROL (CONTROL_PERMISSIONS_ARRAY w ++ [(id, s)]) w
  | None => w
  end.
Definition ControlPermissionsID_drop (id : Z) (cp : option Z) (w : Statics) : Statics :=
  match cp with
  | Some _ => set_CONTROL (List.filter (λ e, negb (e.1 =? id)%Z) (CONTROL_PERMISSIONS_ARRAY w)) w
  | None => w
  end.

Definition is_type (t : AuthConnType) (c : AuthedConn) : bool := bool_decide (conn_type c = t).

Definition check_wake_lock (w : Statics) : Statics :=
  send_WAKELOCK (length (AUTHED_CONNS w), length (List.filter (is_type Remote) (AUTHED_CONNS w))) w.

(** Connections that carry video. *)
Definition video_type (t : AuthConnType) : bool :=
  match t with Remote | ViewCamera => true | _ => false end.

Definition AuthedConnID_new (id : Z) (t : AuthConnType) (key : SessionKey)
    (version my_platform : string) (enable_abr : string) (now : Z) (w : Statics) : Statics :=
  let printer := bool_decide (t = Remote) && is_support_remote_print version
                 && String.eqb my_platform "Windows" in
  let w := set_AUTHED (AUTHED_CONNS w ++
             [{| conn_id := id; conn_type := t; session_key := key; printer := printer |}]) w in
  let w := check_wake_lock w in
  if video_type t then set_QOS (on_connection_open id enable_abr now (VIDEO_QOS w)) w else w.

Definition AuthedConnID_drop (id : Z) (t : AuthConnType) (now : Z) (w : Statics) : Statics :=
  let w := if video_type t then set_QOS (on_connection_close id now (VIDEO_QOS w)) w else w in
  let w := set_AUTHED (List.filter (λ c, negb (conn_id c =? id)%Z) (AUTHED_CONNS w)) w in
  check_wake_lock w.

(** ** Sessions *)

Definition check_remove_session (id : Z) (key : SessionKey) (w : Statics) : Statics :=
  match SESSIONS w !! key with
  | None => w
  | Some _ =>
      let is_remote := existsb (λ c, (conn_id c =? id)%Z && is_type Remote c) (AUTHED_CONNS w) in
      let another_remote :=
        existsb (λ c, negb (conn_id c =? id)%Z && bool_decide (session_key c = key) && is_type Remote c)
                (AUTHED_CONNS w) in
      if is_remote || negb another_remote then set_SESSIONS (delete key (SESSIONS w)) w else w
  end.

Definition update_or_insert_session (key : SessionKey) (password : option string) (t : option bool)
    (now : Z) (w : Statics) : Statics :=
  match SESSIONS w !! key with
  | Some s =>
      set_SESSIONS (<[key := {| last_recv_time := last_recv_time s;
                                random_password := default (random_password s) password;
                                tfa := default (tfa s) t |}]> (SESSIONS w)) w
  | None =>
      let '(l, w) := new_clock now w in
      set_SESSIONS (<[key := {| last_recv_time := l;
                                random_password := default EmptyString password;
                                tfa := default false t |}]> (SESSIONS w)) w
  end.

Definition set_session_2fa (key : SessionKey) (now : Z) (w : Statics) : Statics :=
  match SESSIONS w !! key with
  | Some s =>
      set_SESSIONS (<[key := {| last_recv_time := last_recv_time s;
                                random_password := random_password s; tfa := true |}]> (SESSIONS w)) w
  | None =>
      let '(l, w) := new_clock now w in
      set_SESSIONS (<[key := {| last_recv_time := l; random_password := EmptyString;
                                tfa := true |}]> (SESSIONS w)) w
  end.

(** Thirty seconds, in nanoseconds as all instants. *)
Definition SESSION_TIMEOUT : Z := (30 * 10 ^ 9)%Z.

(** Idle at least the timeout, by the shared cell. *)
Definition is_expired (now : Z) (w : Statics) (s : Session) : bool :=
  match clocks w !! last_recv_time s with
  | Some t => (SESSION_TIMEOUT <=? now - t)%Z
  | None => false
  end.

(** [Drop for Connection]: the sessions that timed out go. *)
Definition drop_expired_sessions (now : Z) (w : Statics) : Statics :=
  set_SESSIONS (filter (λ ks, is_expired now w ks.2 = false) (SESSIONS w)) w.

(** ** Removing a session *)

Lemma existsb_spec {A} (f : A → bool) l : existsb f l = true ↔ ∃ x, x ∈ l ∧ f x = true.
Proof. rewrite existsb_exists. setoid_rewrite list_elem_of_In. done. Qed.

(** Closing a connection for good: its session goes when the connection is
    itself a remote-control one, or when no other remote-control connection
    belongs to the session, and stays otherwise; no other session and no other
    part of the state changes. *)
Lemma check_remove_session_spec id key w :
  let w' := check_remove_session id key w in
  (SESSIONS w' !! key = None ↔
   SESSIONS w !! key = None
   ∨ (∃ c, c ∈ AUTHED_CONNS w ∧ conn_id c = id ∧ conn_type c = Remote)
   ∨ (∀ c, c ∈ AUTHED_CONNS w → conn_type c = Remote → session_key c = key → conn_id c = id))
  ∧ (∀ k, k ≠ key → SESSIONS w' !! k = SESSIONS w !! k)
  ∧ set_SESSIONS (SESSIONS w) w' = w.
Proof.
  cbn zeta. unfold check_remove_session.
  destruct (SESSIONS w !! key) as [s|] eqn:E; [|split_and!; [naive_solver|done|by destruct w]].
  set (r := existsb _ _). set (o := existsb (λ c, negb _ && _ && _) _).
  assert (r = true ↔ ∃ c, c ∈ AUTHED_CONNS w ∧ conn_id c = id ∧ conn_type c = Remote) as Hr.
  { unfold r. rewrite existsb_spec. unfold is_type. setoid_rewrite andb_true_iff.
    setoid_rewrite Z.eqb_eq. setoid_rewrite bool_decide_eq_true. done. }
  assert (o = false ↔ ∀ c, c ∈ AUTHED_CONNS w → conn_type c = Remote → session_key c = key → conn_id c = id) as Ho.
  { unfold o. rewrite <- not_true_iff_false, existsb_spec. unfold is_type. split.
    - intros Hn c Hc Ht Hk. destruct (decide (conn_id c = id)) as [|Hne]; [done|]. exfalso. apply Hn.
      exists c. split; [done|]. rewrite !bool_decide_true by done.
      by rewrite (proj2 (Z.eqb_neq _ _) Hne).
    - intros H (c & Hc & Hb). rewrite !andb_true_iff, negb_true_iff, Z.eqb_neq, !bool_decide_eq_true in Hb.
      destruct Hb as [[Hne Hk] Ht]. by apply Hne, H. }
  destruct r; [|destruct o]; cbn [orb negb SESSIONS set_SESSIONS];
    rewrite ?E, ?lookup_delete_eq;
    (split_and!; [|intros k Hk; by rewrite ?lookup_delete_ne by done|by destruct w]).
  - split; [|done]. intros _. right; left. by apply Hr.
  - split; [done|]. intros [?|[HP|HQ]]; [done| |].
    + by apply Hr in HP.
    + by apply Ho in HQ.
  - split; [|done]. intros _. right; right. by apply Ho.
Qed.

(** ** The registries are the connections

    The lifecycle of connections as [Connection::start] runs it: the two guards
    when it starts, [AuthedConnID::new] when it is authorised, and at the end
    the drops in the order Rust runs them: the connection's own [drop], its
    field, then the guards of [start]. *)

Inductive ConnOp :=
| Start (id : Z) (cp : option Z)
| Authorise (id : Z) (t : AuthConnType) (key : SessionKey) (version my_platform enable_abr : string) (now : Z)
| End_ (id : Z) (now : Z).

(** A live connection: its bitmap, and its type and key once authorised. *)
Record Live := { live_id : Z; live_cp : option Z; live_auth : option (AuthConnType * SessionKey) }.

Definition has_id (id : Z) (l : Live) : bool := (live_id l =? id)%Z.

Definition authed_type (l : list Live) (id : Z) : option AuthConnType :=
  match List.find (has_id id) l with Some c => fst <$> live_auth c | None => None end.
Definition live_bitmap (l : list Live) (id : Z) : option Z :=
  match List.find (has_id id) l with Some c => live_cp c | None => None end.

Definition step_live (l : list Live) (op : ConnOp) : list Live :=
  match op with
  | Start id cp => l ++ [{| live_id := id; live_cp := cp; live_auth := None |}]
  | Authorise id t key _ _ _ _ =>
      map (λ c, if has_id id c then {| live_id := id; live_cp := live_cp c; live_auth := Some (t, key) |}
                else c) l
  | End_ id _ => List.filter (λ c, negb (has_id id c)) l
  end.

Definition step_statics (l : list Live) (w : Statics) (op : ConnOp) : Statics :=
  match op with
  | Start id cp => ControlPermissionsID_new id cp (ConnectionID_new id w)
  | Authorise id t key v p abr now => AuthedConnID_new id t key v p abr now w
  | End_ id now =>
      let w := drop_expired_sessions now w in
      let w := match authed_type l id with Some t => AuthedConnID_drop id t now w | None => w end in
      ConnectionID_drop id (ControlPermissionsID_drop id (live_bitmap l id) w)
  end.

(** Ids are fresh, a connection is authorised once, and only live ones end. *)
Definition op_ok (l : list Live) (op : ConnOp) : Prop :=
  match op with
  | Start id _ => id ∉ map live_id l
  | Authorise id _ _ _ _ _ _ => id ∈ map live_id l ∧ authed_type l id = None
  | End_ id _ => id ∈ map live_id l
  end.

Inductive runs : list Live → Statics → list ConnOp → list Live → Statics → Prop :=
| runs_nil l w : runs l w [] l w
| runs_cons l w op ops l' w' :
    op_ok l op → runs (step_live l op) (step_statics l w op) ops l' w' → runs l w (op :: ops) l' w'.

(** The registries hold what the live connections are. *)
Record reflects (l : list Live) (w : Statics) : Prop := {
  rf_nodup : NoDup (map live_id l);
  rf_alive : ALIVE_CONNS w = map live_id l;
  rf_control : CONTROL_PERMISSIONS_ARRAY w = omap (λ c, pair (live_id c) <$> live_cp c) l;
  rf_once : NoDup (map conn_id (AUTHED_CONNS w));
  rf_authed : ∀ id t key,
    (∃ c, c ∈ AUTHED_CONNS w ∧ conn_id c = id ∧ conn_type c = t ∧ session_key c = key) ↔
    (∃ c, c ∈ l ∧ live_id c = id ∧ live_auth c = Some (t, key));
  rf_qos : ∀ id, is_Some (users (VIDEO_QOS w) !! id) ↔
    ∃ c t key, c ∈ l ∧ live_id c = id ∧ live_auth c = Some (t, key) ∧ video_type t = true
}.

Lemma find_live l id c : NoDup (map live_id l) →
  List.find (has_id id) l = Some c ↔ c ∈ l ∧ live_id c = id.
Proof.
  unfold has_id. induction l as [|x l IH]; intros Hnd; cbn [List.find map].
  - split; [done|]. intros [H _]. by apply elem_of_nil in H.
  - apply NoDup_cons in Hnd as [Hx Hnd]. rewrite elem_of_cons.
    destruct (Z.eqb_spec (live_id x) id) as [<-|Hne].
    + split; [intros [= ->]; by split; [left|]|]. intros [[->|Hc] He]; [done|].
      exfalso. apply Hx. rewrite <- He. apply list_elem_of_In, in_map, list_elem_of_In, Hc.
    + rewrite (IH Hnd). split; [naive_solver|]. intros [[->|?] ?]; [done|by split].
Qed.

Lemma live_ids l c : c ∈ l → live_id c ∈ map live_id l.
Proof. intros H. by apply list_elem_of_In, in_map, list_elem_of_In. Qed.

Lemma authed_type_spec l id t : NoDup (map live_id l) →
  authed_type l id = Some t ↔ ∃ c key, c ∈ l ∧ live_id c = id ∧ live_auth c = Some (t, key).
Proof.
  intros Hnd. unfold authed_type. split.
  - destruct (List.find _ l) as [c|] eqn:E; [|done]. apply (find_live _ _ _ Hnd) in E as [Hc Hi].
    destruct (live_auth c) as [[t' key]|] eqn:Ea; [|done]. cbn. intros [= ->]. by exists c, key.
  - intros (c & key & Hc & Hi & Ha). rewrite (proj2 (find_live _ _ c Hnd)) by done. by rewrite Ha.
Qed.

(** What [step_live] does to the fields. *)
Lemma authorise_ids l id t key : map live_id (step_live l (Authorise id t key "" "" "" 0)) = map live_id l.
Proof.
  cbn [step_live]. rewrite map_map. apply map_ext. intros c. unfold has_id.
  destruct (Z.eqb_spec (live_id c) id); done.
Qed.

Lemma end_ids l id :
  map live_id (List.filter (λ c, negb (has_id id c)) l)
  = List.filter (λ i, negb (i =? id)%Z) (map live_id l).
Proof.
  induction l as [|c l IH]; [done|]. cbn [List.filter map]. unfold has_id at 1.
  destruct (negb _); cbn [map]; by rewrite IH.
Qed.

Lemma NoDup_filter_bool {A} (f : A → bool) l : NoDup l → NoDup (List.filter f l).
Proof.
  induction 1 as [|x l Hx _ IH]; cbn [List.filter]; [constructor|]. destruct (f x); [|done].
  constructor; [|done]. intros H. apply Hx. apply list_elem_of_In, filter_In in H as [H _].
  by apply list_elem_of_In.
Qed.

Lemma elem_of_filter_bool {A} (f : A → bool) l x : x ∈ List.filter f l ↔ x ∈ l ∧ f x = true.
Proof. by rewrite !list_elem_of_In, filter_In. Qed.

Lemma users_close id now q : users (on_connection_close id now q) = delete id (users q).
Proof.
  unfold on_connection_close. case_bool_decide as E; [|done]. cbn. symmetry. exact E.
Qed.

Definition control_of (l : list Live) : list (Z * Z) := omap (λ c, pair (live_id c) <$> live_cp c) l.

Lemma control_end l id :
  control_of (List.filter (λ c, negb (has_id id c)) l)
  = List.filter (λ e, negb (e.1 =? id)%Z) (control_of l).
Proof.
  induction l as [|c l IH]; [done|]. unfold control_of in *. cbn [List.filter].
  change (omap (λ c, pair (live_id c) <$> live_cp c) (c :: l))
    with (match pair (live_id c) <$> live_cp c with
          | Some e => e :: omap (λ c, pair (live_id c) <$> live_cp c) l
          | None => omap (λ c, pair (live_id c) <$> live_cp c) l end).
  unfold has_id at 1. destruct (live_cp c) as [b|] eqn:Ec; cbn [fmap option_fmap option_map List.filter].
  - cbn [fst]. destruct (Z.eqb_spec (live_id c) id); cbn [negb]; [exact IH|].
    cbn. rewrite Ec. cbn. by f_equal.
  - destruct (negb _); [|exact IH]. cbn. rewrite Ec. exact IH.
Qed.

Lemma filter_id_list {A} (f : A → bool) l : (∀ x, x ∈ l → f x = true) → List.filter f l = l.
Proof.
  induction l as [|x l IH]; intros H; [done|]. cbn [List.filter]. rewrite H by left.
  f_equal. apply IH. intros y Hy. apply H. by right.
Qed.

Lemma control_no_bitmap l id : NoDup (map live_id l) → live_bitmap l id = None →
  List.filter (λ e, negb (e.1 =? id)%Z) (control_of l) = control_of l.
Proof.
  intros Hnd Hb. apply filter_id_list. intros [i b] Hin.
  unfold control_of in Hin. apply list_elem_of_omap in Hin as (c & Hc & He).
  destruct (live_cp c) as [b'|] eqn:Ec; [|done]. injection He as <- <-. cbn [fst].
  apply negb_true_iff, Z.eqb_neq. intros <-. unfold live_bitmap in Hb.
  rewrite (proj2 (find_live l (live_id c) c Hnd)) in Hb by done. congruence.
Qed.

Lemma reflects_start l w id cp : reflects l w → id ∉ map live_id l →
  reflects (step_live l (Start id cp)) (step_statics l w (Start id cp)).
Proof.
  intros [H1 H2 H3 H4 H5 H6] Hid. cbn [step_live step_statics].
  assert (∀ P : Live → Prop, (∃ c, c ∈ l ++ [{| live_id := id; live_cp := cp; live_auth := None |}]
            ∧ P c) ↔ (∃ c, c ∈ l ∧ P c) ∨ P {| live_id := id; live_cp := cp; live_auth := None |}) as Hex.
  { intros P. setoid_rewrite elem_of_app. setoid_rewrite list_elem_of_singleton. naive_solver. }
  split.
  - rewrite map_app. apply NoDup_app. split_and!; [done| |repeat constructor; apply not_elem_of_nil].
    intros x Hx. cbn. rewrite list_elem_of_singleton. by intros ->.
  - destruct cp; cbn; by rewrite H2, map_app.
  - rewrite omap_app. destruct cp; cbn; [by rewrite H3|by rewrite H3, app_nil_r].
  - by destruct cp.
  - intros i t key. rewrite Hex. destruct cp; cbn [AUTHED_CONNS ConnectionID_new ControlPermissionsID_new set_ALIVE set_CONTROL];
      rewrite H5; cbn; naive_solver.
  - intros i. destruct cp; cbn [VIDEO_QOS ConnectionID_new ControlPermissionsID_new set_ALIVE set_CONTROL];
      rewrite H6; (split; [intros (c & t & key & Hc & ?); exists c, t, key; rewrite elem_of_app; tauto|]);
      intros (c & t & key & [Hc|Hc]%elem_of_app & He & Ha & Hv);
      [by exists c, t, key|apply list_elem_of_singleton in Hc as ->; done
      |by exists c, t, key|apply list_elem_of_singleton in Hc as ->; done].
Qed.

Lemma reflects_authorise l w id t key v p abr now :
  reflects l w → id ∈ map live_id l → authed_type l id = None →
  reflects (step_live l (Authorise id t key v p abr now)) (step_statics l w (Authorise id t key v p abr now)).
Proof.
  intros [H1 H2 H3 H4 H5 H6] Hid Hn. cbn [step_statics].
  pose proof (authorise_ids l id t key) as Hids. cbn [step_live] in *.
  set (f := λ c, if has_id id c then _ else c) in *.
  apply list_elem_of_In, in_map_iff in Hid as (c0 & Hc0 & Hin0). apply list_elem_of_In in Hin0.
  assert (live_auth c0 = None) as Ha0.
  { destruct (live_auth c0) as [[t' k']|] eqn:E; [|done]. exfalso.
    assert (authed_type l id = Some t') as Hs by (apply authed_type_spec; [done|]; by exists c0, k').
    congruence. }
  (* the live connections after the step: the others, and this one authorised *)
  assert (∀ P : Live → Prop, (∃ c, c ∈ map f l ∧ P c) ↔
            (∃ c, c ∈ l ∧ live_id c ≠ id ∧ P c)
            ∨ P {| live_id := id; live_cp := live_cp c0; live_auth := Some (t, key) |}) as Hex.
  { intros P. split.
    - intros (c & Hc & HP). apply list_elem_of_In, in_map_iff in Hc as (c1 & <- & Hc1).
      apply list_elem_of_In in Hc1. unfold f, has_id in HP. destruct (Z.eqb_spec (live_id c1) id) as [He|Hne].
      + right. assert (c1 = c0) as ->; [|done].
        pose proof (proj2 (find_live l id c1 H1) (conj Hc1 He)).
        pose proof (proj2 (find_live l id c0 H1) (conj Hin0 Hc0)). congruence.
      + left. by exists c1.
    - intros [(c & Hc & Hne & HP)|HP].
      + exists c. split; [|done]. apply list_elem_of_In, in_map_iff. exists c. split; [|by apply list_elem_of_In].
        unfold f, has_id. by rewrite (proj2 (Z.eqb_neq _ _) Hne).
      + eexists. split; [|exact HP]. apply list_elem_of_In, in_map_iff. exists c0.
        split; [|by apply list_elem_of_In]. unfold f, has_id. by rewrite (proj2 (Z.eqb_eq _ _) Hc0). }
  assert (∀ c, c ∈ AUTHED_CONNS w → conn_id c ≠ id) as Hfree.
  { intros c Hc He. destruct (proj1 (H5 id (conn_type c) (session_key c))) as (c1 & ? & ? & ?); [by exists c|].
    assert (authed_type l id = Some (conn_type c)) by (apply authed_type_spec; [done|]; by exists c1, (session_key c)).
    congruence. }
  assert (AUTHED_CONNS (AuthedConnID_new id t key v p abr now w) = AUTHED_CONNS w ++
    [{| conn_id := id; conn_type := t; session_key := key;
        printer := bool_decide (t = Remote) && is_support_remote_print v && String.eqb p "Windows" |}]) as HA
    by (unfold AuthedConnID_new; by destruct (video_type t)).
  split.
  - by rewrite Hids.
  - rewrite Hids, <- H2. unfold AuthedConnID_new. by destruct (video_type t).
  - transitivity (CONTROL_PERMISSIONS_ARRAY w); [unfold AuthedConnID_new; by destruct (video_type t)|].
    rewrite H3. clear. induction l as [|c l IH]; [done|]. cbn [map omap list_omap].
    rewrite <- IH. unfold f, has_id. destruct (Z.eqb_spec (live_id c) id) as [<-|]; done.
  - rewrite HA, map_app. apply NoDup_app. split_and!; [done| |repeat constructor; apply not_elem_of_nil].
    intros x Hx. cbn. rewrite list_elem_of_singleton. intros ->.
    apply list_elem_of_In, in_map_iff in Hx as (c & Hc & Hin). apply list_elem_of_In in Hin. by apply (Hfree c).
  - intros i t' key'. rewrite HA, Hex. cbn. split.
    + intros (c & [Hc|Hc]%elem_of_app & Hi & Ht & Hk).
      * left. destruct (proj1 (H5 i t' key')) as (c1 & ? & ? & ?); [by exists c|].
        exists c1. split_and!; try done. intros Hi1. apply (Hfree c Hc). congruence.
      * apply list_elem_of_singleton in Hc as ->. cbn in *. right. split; congruence.
    + intros [(c & Hc & Hne & Hi & Ha)|[<- [= <- <-]]].
      * destruct (proj2 (H5 i t' key')) as (c1 & ? & ?); [by exists c|]. exists c1.
        split; [apply elem_of_app; by left|done].
      * eexists. split; [apply elem_of_app; right; by left|]. done.
  - intros i.
    assert ((∃ c t0 key0, c ∈ map f l ∧ live_id c = i ∧ live_auth c = Some (t0, key0) ∧ video_type t0 = true)
            ↔ is_Some (users (VIDEO_QOS w) !! i) ∨ i = id ∧ video_type t = true) as Hv.
    { rewrite H6. split.
      - intros (c & t0 & k0 & Hc & Hi & Ha & Hvt).
        destruct (proj1 (Hex (λ c, live_id c = i ∧ live_auth c = Some (t0, k0)))) as [(c1 & ? & ? & ? & ?)|[Hi1 Ha1]].
        + by exists c.
        + left. by exists c1, t0, k0.
        + right. cbn in *. split; congruence.
      - intros [(c & t0 & k0 & Hc & Hi & Ha & Hvt)|[-> Hvt]].
        + destruct (proj2 (Hex (λ c, live_id c = i ∧ live_auth c = Some (t0, k0)))) as (c1 & ? & ? & ?).
          * left. exists c. split_and!; try done. intros Hid.
            assert (authed_type l id = Some t0) by (apply authed_type_spec; [done|]; exists c, k0; by rewrite <- Hid).
            congruence.
          * by exists c1, t0, k0.
        + destruct (proj2 (Hex (λ c, live_id c = id ∧ live_auth c = Some (t, key)))) as (c1 & ? & ? & ?); [by right|].
          by exists c1, t, key. }
    rewrite Hv. unfold AuthedConnID_new. destruct (video_type t); cbn.
    + destruct (decide (i = id)) as [->|Hne]; [rewrite lookup_insert_eq; naive_solver|].
      rewrite lookup_insert_ne by done. naive_solver.
    + naive_solver.
Qed.

Lemma reflects_end l w id now : reflects l w → reflects (step_live l (End_ id now)) (step_statics l w (End_ id now)).
Proof.
  intros [H1 H2 H3 H4 H5 H6]. cbn [step_live].
  set (l' := List.filter _ l).
  assert (∀ c, c ∈ l' ↔ c ∈ l ∧ live_id c ≠ id) as Hl'.
  { intros c. unfold l'. rewrite elem_of_filter_bool, negb_true_iff. unfold has_id. by rewrite Z.eqb_neq. }
  (* the end removes the id from every registry, also where a guard skips it *)
  assert (let w' := step_statics l w (End_ id now) in
    ALIVE_CONNS w' = List.filter (λ i, negb (i =? id)%Z) (ALIVE_CONNS w)
    ∧ CONTROL_PERMISSIONS_ARRAY w' = List.filter (λ e, negb (e.1 =? id)%Z) (CONTROL_PERMISSIONS_ARRAY w)
    ∧ AUTHED_CONNS w' = List.filter (λ c, negb (conn_id c =? id)%Z) (AUTHED_CONNS w)
    ∧ users (VIDEO_QOS w') = delete id (users (VIDEO_QOS w))) as (E1 & E2 & E3 & E4).
  { cbn zeta. cbn [step_statics].
    assert (∀ t, authed_type l id ≠ Some t → ∀ c, c ∈ AUTHED_CONNS w → conn_id c = id → conn_type c ≠ t) as Hna.
    { intros t Ht c Hc Hi Hct. apply Ht. apply authed_type_spec; [done|].
      destruct (proj1 (H5 id t (session_key c))) as (c1 & ? & ? & ?); [by exists c|]. by exists c1, (session_key c). }
    assert (∀ t, authed_type l id = Some t → video_type t = false → users (VIDEO_QOS w) !! id = None) as Hnv.
    { intros t Ht Hv. destruct (users (VIDEO_QOS w) !! id) as [u|] eqn:Eu; [|done]. exfalso.
      destruct (proj1 (H6 id)) as (c & t' & k' & Hc & Hi & Ha & Hvt); [by rewrite Eu|].
      assert (authed_type l id = Some t') by (apply authed_type_spec; [done|]; by exists c, k'). congruence. }
    split_and!.
    - destruct (live_bitmap l id); destruct (authed_type l id) as [t|]; [|done| |done]; by destruct t.
    - rewrite H3. destruct (live_bitmap l id) eqn:Eb.
      + destruct (authed_type l id) as [t|]; [destruct t|]; cbn; by rewrite H3.
      + fold (control_of l). rewrite control_no_bitmap by done.
        destruct (authed_type l id) as [t|]; [destruct t|]; cbn; by rewrite H3.
    - destruct (authed_type l id) as [t|] eqn:Et.
      + destruct (live_bitmap l id); by destruct t.
      + transitivity (AUTHED_CONNS w); [by destruct (live_bitmap l id)|].
        symmetry. apply filter_id_list. intros c Hc. apply negb_true_iff, Z.eqb_neq. intros Hi.
        apply (Hna (conn_type c) ltac:(done) c Hc Hi). done.
    - destruct (authed_type l id) as [t|] eqn:Et.
      + assert (users (VIDEO_QOS (AuthedConnID_drop id t now (drop_expired_sessions now w)))
                = delete id (users (VIDEO_QOS w))) as Hq.
        { unfold AuthedConnID_drop. destruct (video_type t) eqn:Ev; cbn; [apply users_close|].
          symmetry. apply delete_id. by eapply Hnv. }
        destruct (live_bitmap l id); exact Hq.
      + transitivity (users (VIDEO_QOS w)); [by destruct (live_bitmap l id)|].
        symmetry. apply delete_id. destruct (users (VIDEO_QOS w) !! id) as [u|] eqn:Eu; [|done]. exfalso.
        destruct (proj1 (H6 id)) as (c & t' & k' & Hc & Hi & Ha & _); [by rewrite Eu|].
        assert (authed_type l id = Some t') by (apply authed_type_spec; [done|]; by exists c, k'). congruence. }
  assert (map live_id l' = List.filter (λ i, negb (i =? id)%Z) (map live_id l)) as Hids by apply end_ids.
  split.
  - rewrite Hids. by apply NoDup_filter_bool.
  - by rewrite E1, H2, Hids.
  - rewrite E2, H3. symmetry. apply control_end.
  - rewrite E3. assert (map conn_id (List.filter (λ c, negb (conn_id c =? id)%Z) (AUTHED_CONNS w))
      = List.filter (λ i, negb (i =? id)%Z) (map conn_id (AUTHED_CONNS w))) as ->.
    { generalize (AUTHED_CONNS w). intros a. induction a as [|c a IH]; [done|]. cbn [List.filter map].
      destruct (negb _); cbn [map]; by rewrite IH. }
    by apply NoDup_filter_bool.
  - intros i t key. rewrite E3. setoid_rewrite elem_of_filter_bool. setoid_rewrite Hl'.
    setoid_rewrite negb_true_iff. setoid_rewrite Z.eqb_neq. specialize (H5 i t key). split.
    + intros (c & (Hc & Hne) & Hi & Ht & Hk). destruct (proj1 H5) as (c1 & ? & Hi1 & ?); [by exists c|].
      exists c1. split_and!; [done|congruence|done|done].
    + intros (c & (Hc & Hne) & Hi & Ha). destruct (proj2 H5) as (c1 & ? & Hi1 & ? & ?); [by exists c|].
      exists c1. split_and!; [done|congruence|done..].
  - intros i. rewrite E4. setoid_rewrite Hl'. destruct (decide (i = id)) as [->|Hne].
    + rewrite lookup_delete_eq. split; [by intros [? ?]|]. by intros (c & t & k & (? & ?) & ? & _).
    + rewrite lookup_delete_ne by done. rewrite H6. split.
      * intros (c & t & k & ? & ? & ? & ?). exists c, t, k. split_and!; try done. congruence.
      * intros (c & t & k & (? & ?) & ? & ? & ?). by exists c, t, k.
Qed.

(** C35: through any sequence of connections starting, being authorised and
    ending, the registries are the live connections: the alive ids in order,
    the bitmaps of those that carry one, one entry per authorised connection
    with its type and session, and a quality-of-service record exactly for
    those that carry video; when all have ended every registry is empty. *)
Theorem registries_reflect ops l w now :
  runs [] (statics_default now) ops l w →
  reflects l w
  ∧ (l = [] → ALIVE_CONNS w = [] ∧ AUTHED_CONNS w = [] ∧ CONTROL_PERMISSIONS_ARRAY w = []
              ∧ users (VIDEO_QOS w) = ∅).
Proof.
  intros Hr. assert (reflects l w) as H.
  { assert (reflects [] (statics_default now)) as H0.
    { split; try done; [constructor|constructor| |].
      - intros id t key. split; intros (c & Hc & _); by apply elem_of_nil in Hc.
      - intros id. cbn. rewrite lookup_empty. split; [by intros [? ?]|].
        intros (c & t & k & Hc & _). by apply elem_of_nil in Hc. }
    revert H0. induction Hr as [|l0 w0 op ops l' w' Hok _ IH]; [done|]. intros H0. apply IH.
    destruct op; [by apply reflects_start|apply reflects_authorise; [done|apply Hok..]|by apply reflects_end]. }
  split; [done|]. intros ->. destruct H as [_ Ha Hc _ Hau Hq]. split_and!; [done| |done|].
  - destruct (AUTHED_CONNS w) as [|c a] eqn:E; [done|]. exfalso.
    destruct (proj1 (Hau (conn_id c) (conn_type c) (session_key c))) as (x & Hx & _).
    + exists c. split; [left|done].
    + by apply elem_of_nil in Hx.
  - apply map_empty. intros id. destruct (users (VIDEO_QOS w) !! id) as [u|] eqn:E; [|done]. exfalso.
    destruct (proj1 (Hq id)) as (x & t & k & Hx & _); [by rewrite E|]. by apply elem_of_nil in Hx.
Qed.

Lemma registries_reflect_witness :
  let key := {| peer_id := "p"%string; name := "n"%string; session_id := 7%Z |} in
  ∃ w, runs [] (statics_default 0%Z)
         [Start 1 (Some 6%Z); Start 2 None; Authorise 1 Remote key "1.4.0"%string "Windows"%string ""%string 5%Z; End_ 2 6%Z] 
         [{| live_id := 1; live_cp := Some 6%Z; live_auth := Some (Remote, key) |}] w
       ∧ reflects [{| live_id := 1; live_cp := Some 6%Z; live_auth := Some (Remote, key) |}] w.
Proof.
  intros key. eexists.
  match goal with |- runs ?l ?w0 ?ops ?l' ?w ∧ _ => assert (runs l w0 ops l' w) as H end.
  - econstructor; [apply not_elem_of_nil|]. econstructor; [cbn; intros H; apply list_elem_of_In in H; destruct H as [H|[]]; discriminate H|].
    econstructor; [split; [left|reflexivity]|]. econstructor; [right; left|]. apply runs_nil.
  - split; [exact H|]. exact (proj1 (registries_reflect _ _ _ 0%Z H)).
Defined.
