(* ===== verification/Services.v ===== *)
(** * Services and their subscribers

    [src/server/service.rs] and the [Server] of [src/server.rs]: what the host
    sends (video, audio, cursor, clipboard) comes from services, and a connection
    receives what it is subscribed to.  A service that needs a snapshot keeps its
    new subscribers apart until the snapshot was sent to them.  A subscriber is
    its connection id; what a service sends is the set of ids it goes to.  The
    threads that run the services ([repeat], [run]) are steps where the services
    are, in [Cursor], [Displays] and [Video]; here is the pause [run] makes after
    an error. *)

From S2P Require Import Prelude Strs.
From Stdlib Require Import Ascii String.
From stdpp Require Import gmap sets.

Local Open Scope string_scope.
#[local] Arguments String.append _ _ : simpl nomatch.

Record ServiceInner := {
  svc_name : string;
  subscribes : gset Z;
  new_subscribes : gset Z;
  active : bool;
  need_snapshot : bool;
  svc_options : gmap string string
}.
#[global] Instance eta_ServiceInner : Settable ServiceInner := λ s,
  {| svc_name := svc_name s; subscribes := subscribes s; new_subscribes := new_subscribes s;
     active := active s; need_snapshot := need_snapshot s; svc_options := svc_options s |}.

Definition SERVICE_OPTION_VALUE_TRUE : string := "1".
Definition SERVICE_OPTION_VALUE_FALSE : string := "0".

Definition service_new (name : string) (need : bool) : ServiceInner :=
  {| svc_name := name; subscribes := ∅; new_subscribes := ∅; active := true;
     need_snapshot := need; svc_options := ∅ |}.

Definition swap_new_subscribes (s : ServiceInner) : ServiceInner :=
  s <| subscribes := subscribes s ∪ new_subscribes s |> <| new_subscribes := ∅ |>.

Definition has_subscribes (s : ServiceInner) : bool :=
  negb (bool_decide (subscribes s = ∅)) || negb (bool_decide (new_subscribes s = ∅)).

(** [has_subscribes] of [ServiceSwap], which does not count who waits. *)
Definition swap_has_subscribes (s : ServiceInner) : bool := negb (bool_decide (subscribes s = ∅)).

Definition is_subed (id : Z) (s : ServiceInner) : bool :=
  bool_decide (id ∈ subscribes s) || bool_decide (id ∈ new_subscribes s).

Definition on_subscribe (id : Z) (s : ServiceInner) : ServiceInner :=
  if bool_decide (id ∈ subscribes s) then s
  else if need_snapshot s then s <| new_subscribes := {[id]} ∪ new_subscribes s |>
  else s <| subscribes := {[id]} ∪ subscribes s |>.

Definition on_unsubscribe (id : Z) (s : ServiceInner) : ServiceInner :=
  if bool_decide (id ∈ subscribes s) then s <| subscribes := subscribes s ∖ {[id]} |>
  else s <| new_subscribes := new_subscribes s ∖ {[id]} |>.

Definition join (s : ServiceInner) : ServiceInner := s <| active := false |>.

Definition svc_get_option (opt : string) (s : ServiceInner) : option string := svc_options s !! opt.
(** The value it replaces, and the service. *)
Definition svc_set_option (opt val : string) (s : ServiceInner) : option string * ServiceInner :=
  (svc_options s !! opt, s <| svc_options := <[opt := val]> (svc_options s) |>).
Definition is_option_true (opt : string) (s : ServiceInner) : bool :=
  match svc_get_option opt s with Some v => String.eqb v SERVICE_OPTION_VALUE_TRUE | None => false end.
Definition set_option_bool (opt : string) (val : bool) (s : ServiceInner) : ServiceInner :=
  (svc_set_option opt (if val then SERVICE_OPTION_VALUE_TRUE else SERVICE_OPTION_VALUE_FALSE) s).2.
Definition ok (s : ServiceInner) : bool := active s && has_subscribes s.

(** *** Sending: who receives the message *)

Definition send_to (id : Z) (s : ServiceInner) : gset Z :=
  if bool_decide (id ∈ subscribes s) then {[id]} else ∅.
Definition send_to_others (id : Z) (s : ServiceInner) : gset Z := filter (λ sid, sid ≠ id) (subscribes s).
Definition send_shared (s : ServiceInner) : gset Z := subscribes s.
(** The ids it returns are those it was sent to. *)
Definition send_video_frame_shared (s : ServiceInner) : gset Z * gset Z := (subscribes s, subscribes s).
Definition send_without (sub : Z) (s : ServiceInner) : gset Z := filter (λ i, sub ≠ i) (subscribes s).
Definition send_new_subscribes (s : ServiceInner) : gset Z := new_subscribes s.

(** [snapshot]: the callback sends the messages [ms] through the [ServiceSwap]
    (it may fail after some of those it meant to send) and the drop of the swap
    moves the subscribers.  The messages come with who receives them. *)
Definition snapshot {M} (ms : list M) (s : ServiceInner) : list (M * gset Z) * ServiceInner :=
  if bool_decide (new_subscribes s = ∅) then ([], s)
  else (map (λ m, (m, send_new_subscribes s)) ms, swap_new_subscribes s).

Definition HIBERNATE_TIMEOUT : Z := 30.
Definition MAX_ERROR_TIMEOUT : Z := 1000.

(** The pause of [run] after its callback failed; [slow]: it ran for longer than
    [MAX_ERROR_TIMEOUT]. *)
Definition error_pause (slow : bool) (error_timeout : Z) : Z :=
  let t := if slow then HIBERNATE_TIMEOUT else (error_timeout * 2)%Z in
  if (MAX_ERROR_TIMEOUT <? t)%Z then MAX_ERROR_TIMEOUT else t.

(** ** The server *)

Inductive VideoSource := Monitor | Camera.
Definition service_name_prefix (v : VideoSource) : string :=
  match v with Monitor => "monitor" | Camera => "camera" end.
Definition get_service_name (source : VideoSource) (idx : Z) : string :=
  service_name_prefix source ++ show_Z idx.

Record Server := {
  connections : gset Z;
  services : gmap string ServiceInner;
  id_count : Z
}.
#[global] Instance eta_Server : Settable Server := λ s,
  {| connections := connections s; services := services s; id_count := id_count s |}.

(** What the displays of the host are: the primary display, and whether there is
    a camera. *)
Record Devices := { PRIMARY_DISPLAY_IDX : Z; primary_camera_exists : bool }.
Definition PRIMARY_CAMERA_IDX : Z := 0.

Definition is_video_service_name (name : string) : bool :=
  starts_with (service_name_prefix Monitor) name || starts_with (service_name_prefix Camera) name.

Definition contains (name : string) (s : Server) : bool := bool_decide (is_Some (services s !! name)).

Definition add_service (svc : ServiceInner) (s : Server) : Server :=
  s <| services := <[svc_name svc := svc]> (services s) |>.

Section Devices.
  Variable dev : Devices.

Definition primary_camera_name : string := get_service_name Camera PRIMARY_CAMERA_IDX.
Definition primary_video_name : string := get_service_name Monitor (PRIMARY_DISPLAY_IDX dev).

(** [video_service::new]: its name, with a snapshot. *)
Definition video_service_new (source : VideoSource) (idx : Z) : ServiceInner :=
  service_new (get_service_name source idx) true.

Definition try_add_primary_camera_service (s : Server) : Server :=
  if negb (primary_camera_exists dev) then s
  else if contains primary_camera_name s then s
  else add_service (video_service_new Camera PRIMARY_CAMERA_IDX) s.

Definition try_add_primay_video_service (s : Server) : Server :=
  if contains primary_video_name s then s
  else add_service (video_service_new Monitor (PRIMARY_DISPLAY_IDX dev)) s.

Definition add_camera_connection (id : Z) (s : Server) : Server :=
  let s := if primary_camera_exists dev
           then s <| services := alter (on_subscribe id) primary_camera_name (services s) |>
           else s in
  s <| connections := {[id]} ∪ connections s |>.

Definition on_open_service (id : Z) (noperms : list string) (svc : ServiceInner) : ServiceInner :=
  let name := svc_name svc in
  if is_video_service_name name && negb (String.eqb name primary_video_name) then svc
  else if existsb (String.eqb name) noperms then svc
  else on_subscribe id svc.

Definition add_connection (id : Z) (noperms : list string) (s : Server) : Server :=
  s <| services := on_open_service id noperms <$> services s |>
    <| connections := {[id]} ∪ connections s |>.

End Devices.

Definition remove_connection (id : Z) (s : Server) : Server :=
  s <| services := on_unsubscribe id <$> services s |>
    <| connections := connections s ∖ {[id]} |>.

(** The connections that get [StopService]. *)
Definition close_connections (s : Server) : gset Z := connections s.

Definition subscribe_one (id : Z) (sub : bool) (svc : ServiceInner) : ServiceInner :=
  if Bool.eqb (is_subed id svc) sub then svc
  else if sub then on_subscribe id svc else on_unsubscribe id svc.

Definition subscribe (name : string) (id : Z) (sub : bool) (s : Server) : Server :=
  match services s !! name with
  | Some svc => s <| services := <[name := subscribe_one id sub svc]> (services s) |>
  | None => s
  end.

(** [self.id_count += 1], an [i32]. *)
Definition get_new_id (s : Server) : Z * Server :=
  let n := swrap 32 (id_count s + 1) in (n, s <| id_count := n |>).

Definition set_video_service_opt (display : option (VideoSource * Z)) (opt value : string)
    (s : Server) : Server :=
  s <| services := map_imap (λ k v, Some
         match display with
         | Some (source, d) =>
             if negb (String.eqb k (get_service_name source d)) then v
             else if is_video_service_name k then (svc_set_option opt value v).2 else v
         | None => if is_video_service_name k then (svc_set_option opt value v).2 else v
         end) (services s) |>.

Definition get_subbed_displays_count (id : Z) (s : Server) : nat :=
  size (filter (λ kv, is_video_service_name kv.1 && is_subed id kv.2 = true) (services s)).

(** The body of the loop of [capture_displays]. *)
Definition capture_one (id : Z) (displays : list string) (include exclude : bool) (s : Server)
    (name : string) : Server :=
  if is_video_service_name name then
    if existsb (String.eqb name) displays
    then if include then subscribe name id true s else s
    else if exclude then subscribe name id false s else s
  else s.

Definition capture_displays (id : Z) (source : VideoSource) (displays : list Z)
    (include exclude : bool) (s : Server) : Server :=
  let displays := map (get_service_name source) displays in
  let keys := (map_to_list (services s)).*1 in
  foldl (capture_one id displays include exclude) s keys.

(** [server::new], on Linux: [rnd] is the random [i32]. *)
Definition server_new (cursor_embedded x11 : bool) (rnd : Z) : Server :=
  let add name need s := add_service (service_new name need) s in
  let s := {| connections := ∅; services := ∅; id_count := Z.rem rnd 1000 + 1000 |} in
  let s := add "clipboard" false (add "display" true (add "audio" true s)) in
  if cursor_embedded then s
  else
    let s := add "mouse_pos" false (add "mouse_cursor" true s) in
    if x11 then add "window_focus" false s else s.

(** [Drop for Server]: every service is joined. *)
Definition Server_drop (s : Server) : Server := s <| services := join <$> services s |>.

(** ** What a subscriber receives *)

Section Delivery.
  Context {M : Type}.

Inductive SvcOp :=
| Sub (id : Z)
| Unsub (id : Z)
| Snapshot (ms : list M)
| Send (m : M)
| SendOthers (m : M) (id : Z).

Definition svc_step (s : ServiceInner) (op : SvcOp) : list (M * gset Z) * ServiceInner :=
  match op with
  | Sub id => ([], on_subscribe id s)
  | Unsub id => ([], on_unsubscribe id s)
  | Snapshot ms => snapshot ms s
  | Send m => ([(m, send_shared s)], s)
  | SendOthers m id => ([(m, send_to_others id s)], s)
  end.

Fixpoint svc_run (s : ServiceInner) (ops : list SvcOp) : list (M * gset Z) * ServiceInner :=
  match ops with
  | [] => ([], s)
  | op :: ops => let '(out, s) := svc_step s op in
                 let '(outs, s) := svc_run s ops in ((out ++ outs)%list, s)
  end.

Definition received (id : Z) (out : list (M * gset Z)) : list M :=
  omap (λ e, if bool_decide (id ∈ e.2) then Some e.1 else None) out.

(** The messages meant for [id] among the operations. *)
Definition update_for (id : Z) (op : SvcOp) : option M :=
  match op with
  | Send m => Some m
  | SendOthers m i => if bool_decide (i = id) then None else Some m
  | _ => None
  end.

Definition is_snapshot (op : SvcOp) : bool := match op with Snapshot _ => true | _ => false end.
Definition leaves (id : Z) (op : SvcOp) : bool :=
  match op with Unsub i => bool_decide (i = id) | _ => false end.

Lemma received_app id a b : received id (a ++ b) = (received id a ++ received id b)%list.
Proof. unfold received. apply omap_app. Qed.

Lemma received_all id (X : gset Z) ms :
  received id (map (λ m, (m, X)) ms) = if bool_decide (id ∈ X) then ms else [].
Proof.
  unfold received. induction ms as [|m ms IH]; [by case_bool_decide|].
  cbn. rewrite IH. by case_bool_decide.
Qed.

Lemma need_snapshot_step s op : need_snapshot (svc_step s op).2 = need_snapshot s.
Proof.
  destruct op; cbn; unfold on_subscribe, on_unsubscribe, snapshot; repeat case_match; unfold upd; cbn; congruence.
Qed.

(** An operation that is no snapshot leaves a waiting subscriber waiting. *)
Lemma waiting_step s op id :
  need_snapshot s = true → id ∉ subscribes s → id ∈ new_subscribes s →
  is_snapshot op = false → leaves id op = false →
  let '(out, s') := svc_step s op in
  received id out = [] ∧ id ∉ subscribes s' ∧ id ∈ new_subscribes s'.
Proof.
  intros Hn Hs Hw Ho Hl. destruct op as [i|i|ms|m|m i]; cbn in Ho, Hl |- *; try done.
  - unfold on_subscribe. case_bool_decide; [done|]. rewrite Hn.
    cbn. split_and!; [done|set_solver|set_solver].
  - apply bool_decide_eq_false in Hl.
    unfold on_unsubscribe. case_bool_decide; cbn; split_and!; [done|set_solver..].
  - unfold send_shared. rewrite bool_decide_false by done. done.
  - unfold send_to_others. rewrite bool_decide_false by set_solver. done.
Qed.

(** A full subscriber stays one, and receives what is sent to it. *)
Lemma full_step s op id :
  id ∈ subscribes s → id ∉ new_subscribes s → leaves id op = false →
  let '(out, s') := svc_step s op in
  received id out = omap (update_for id) [op] ∧ id ∈ subscribes s' ∧ id ∉ new_subscribes s'.
Proof.
  intros Hs Hw Hl. destruct op as [i|i|ms|m|m i]; cbn in Hl |- *.
  - unfold on_subscribe. case_bool_decide; [done|]. destruct (need_snapshot s); cbn;
      split_and!; [done|set_solver..|done|set_solver|done].
  - apply bool_decide_eq_false in Hl.
    unfold on_unsubscribe. case_bool_decide; cbn; split_and!; [done|set_solver..].
  - unfold snapshot. case_bool_decide; [done|]. unfold send_new_subscribes.
    rewrite received_all, bool_decide_false by done. unfold upd. cbn.
    split_and!; [done|set_solver|set_solver].
  - unfold send_shared. by rewrite bool_decide_true.
  - unfold send_to_others. split_and!; [|done..].
    repeat case_bool_decide; first [done | set_solver].
Qed.

(** Without a subscription nothing arrives. *)
Lemma nobody_run ops s id :
  id ∉ subscribes s → id ∉ new_subscribes s →
  Forall (λ op, match op with Sub i => i ≠ id | _ => True end) ops →
  received id (svc_run s ops).1 = [].
Proof.
  revert s; induction ops as [|op ops IH]; intros s Hs Hw Hf; [done|].
  apply Forall_cons in Hf as [Ho Hf]. cbn [svc_run].
  assert (received id (svc_step s op).1 = []
          ∧ id ∉ subscribes (svc_step s op).2 ∧ id ∉ new_subscribes (svc_step s op).2) as (Hr & Hs' & Hw').
  { destruct op as [i|i|ms|m|m i]; cbn.
    - unfold on_subscribe. repeat case_match; unfold upd; cbn; split_and!; first [done | set_solver].
    - unfold on_unsubscribe. case_match; unfold upd; cbn; split_and!; first [done | set_solver].
    - unfold snapshot. case_match; [done|]. unfold send_new_subscribes. cbn [fst snd].
      rewrite received_all, bool_decide_false by done. unfold upd. cbn. split_and!; [done|set_solver..].
    - unfold send_shared. by rewrite bool_decide_false.
    - unfold send_to_others. by rewrite bool_decide_false by set_solver. }
  destruct (svc_step s op) as [out s']. specialize (IH s' Hs' Hw' Hf).
  destruct (svc_run s' ops) as [outs s'']. cbn [fst snd] in Hr, IH |- *. by rewrite received_app, Hr, IH.
Qed.

Lemma full_run ops s id :
  id ∈ subscribes s → id ∉ new_subscribes s → Forall (λ op, leaves id op = false) ops →
  received id (svc_run s ops).1 = omap (update_for id) ops.
Proof.
  revert s; induction ops as [|op ops IH]; intros s Hs Hw Hf; [done|].
  apply Forall_cons in Hf as [Ho Hf]. cbn [svc_run].
  pose proof (full_step s op id Hs Hw Ho) as H. destruct (svc_step s op) as [out s'].
  destruct H as (Hr & Hs' & Hw'). specialize (IH s' Hs' Hw' Hf).
  destruct (svc_run s' ops) as [outs s'']. cbn [fst] in IH |- *. rewrite received_app, Hr, IH.
  cbn. by destruct (update_for id op).
Qed.

Lemma waiting_run pre s id :
  need_snapshot s = true → id ∉ subscribes s → id ∈ new_subscribes s →
  Forall (λ op, is_snapshot op = false ∧ leaves id op = false) pre →
  let '(out, s') := svc_run s pre in
  received id out = [] ∧ id ∉ subscribes s' ∧ id ∈ new_subscribes s'.
Proof.
  revert s; induction pre as [|op pre IH]; intros s Hn Hs Hw Hf; [done|].
  apply Forall_cons in Hf as [[Ho Hl] Hf]. cbn [svc_run].
  pose proof (waiting_step s op id Hn Hs Hw Ho Hl) as H.
  pose proof (need_snapshot_step s op) as Hn'. destruct (svc_step s op) as [out s'].
  destruct H as (Hr & Hs' & Hw'). cbn [snd] in Hn'. rewrite Hn in Hn'.
  specialize (IH s' Hn' Hs' Hw' Hf).
  destruct (svc_run s' pre) as [outs s'']. destruct IH as (Hr' & Hs'' & Hw'').
  by rewrite received_app, Hr, Hr'.
Qed.

Lemma svc_run_app a b s :
  svc_run s (a ++ b) =
  let '(o1, s1) := svc_run s a in let '(o2, s2) := svc_run s1 b in ((o1 ++ o2)%list, s2).
Proof.
  revert s; induction a as [|op a IH]; intros s; cbn [svc_run app].
  - by destruct (svc_run s b).
  - destruct (svc_step s op) as [o s']. rewrite IH. destruct (svc_run s' a) as [o1 s1].
    destruct (svc_run s1 b) as [o2 s2]. by rewrite app_assoc.
Qed.

(** A subscriber of a service that needs a snapshot receives nothing until
    the next snapshot is taken, then the messages of that snapshot, and after
    them exactly the updates meant for it, no later snapshot among them; and a
    connection that is not subscribed receives nothing. *)
Lemma snapshot_first s id pre ms post :
  need_snapshot s = true → is_subed id s = false →
  Forall (λ op, is_snapshot op = false) pre → Forall (λ op, leaves id op = false) (pre ++ post) →
  received id (svc_run s (Sub id :: pre)).1 = []
  ∧ received id (svc_run s (Sub id :: pre ++ Snapshot ms :: post)).1
    = (ms ++ omap (update_for id) post)%list
  ∧ (Forall (λ op, match op with Sub i => i ≠ id | _ => True end) post →
     received id (svc_run s post).1 = []).
Proof.
  intros Hn Hi Hpre Hl. apply Forall_app in Hl as [Hlpre Hlpost].
  unfold is_subed in Hi. apply orb_false_iff in Hi as [Hs%bool_decide_eq_false Hw%bool_decide_eq_false].
  assert (svc_step s (Sub id) = ([], s <| new_subscribes := {[id]} ∪ new_subscribes s |>)) as E.
  { cbn. unfold on_subscribe. by rewrite bool_decide_false, Hn by done. }
  set (s1 := s <| new_subscribes := {[id]} ∪ new_subscribes s |>) in E.
  pose proof (waiting_run pre s1 id Hn Hs ltac:(unfold s1, upd; cbn; set_solver)) as H.
  ospecialize (H _). { apply Forall_and. by split. }
  cbn [svc_run]. rewrite E, svc_run_app.
  destruct (svc_run s1 pre) as [o1 s2]. destruct H as (Hr & Hs2 & Hw2).
  split_and!; [done| |by intros; apply nobody_run].
  cbn [svc_run svc_step]. unfold snapshot. rewrite bool_decide_false by set_solver.
  pose proof (full_run post (swap_new_subscribes s2) id) as Hf.
  destruct (svc_run (swap_new_subscribes s2) post) as [o3 s3]. cbn [fst] in Hf |- *.
  rewrite !received_app, Hr. change (received id (@nil (M * gset Z))) with (@nil M).
  unfold send_new_subscribes. rewrite received_all, bool_decide_true by done. cbn [app]. f_equal.
  apply Hf; [unfold swap_new_subscribes, upd; cbn; set_solver.. | done].
Qed.

End Delivery.

Lemma snapshot_first_witness :
  let s := on_subscribe 7 (service_new "mouse_cursor" true) in
  let pre := [Send "x"; Sub 7%Z] in
  let post := [Send "b"; Snapshot ["s2"]; SendOthers "c" 5%Z; SendOthers "d" 7%Z] in
  received 5 (svc_run s (Sub 5%Z :: pre ++ Snapshot ["s0"; "s1"] :: post)).1 = ["s0"; "s1"; "b"; "d"].
Proof.
  cbn zeta.
  apply (snapshot_first (on_subscribe 7 (service_new "mouse_cursor" true)) 5 [Send "x"; Sub 7%Z]
           ["s0"; "s1"] [Send "b"; Snapshot ["s2"]; SendOthers "c" 5%Z; SendOthers "d" 7%Z]);
    first [reflexivity | repeat constructor].
Defined.

(** ** What the server promises: who is subscribed to what *)

(** The subscribers of a service are in one of its two tables, the first when it
    needs no snapshot, and a service is found under its name. *)
Definition wf_svc (n : string) (s : ServiceInner) : Prop :=
  svc_name s = n ∧ subscribes s ## new_subscribes s ∧ (need_snapshot s = false → new_subscribes s = ∅).

Definition subs (s : ServiceInner) : gset Z := subscribes s ∪ new_subscribes s.

Lemma is_subed_spec id s : is_subed id s = true ↔ id ∈ subs s.
Proof. unfold is_subed, subs. rewrite orb_true_iff, !bool_decide_eq_true. set_solver. Qed.

Lemma on_subscribe_spec n id s : wf_svc n s →
  wf_svc n (on_subscribe id s) ∧ (∀ i, i ∈ subs (on_subscribe id s) ↔ i = id ∨ i ∈ subs s).
Proof.
  intros (Hn & Hd & He). unfold on_subscribe, wf_svc, subs. case_bool_decide; [set_solver|].
  destruct (need_snapshot s) eqn:E; unfold upd; cbn; rewrite ?E.
  - split_and!; set_solver.
  - specialize (He eq_refl). split_and!; set_solver.
Qed.

Lemma on_unsubscribe_spec n id s : wf_svc n s →
  wf_svc n (on_unsubscribe id s) ∧ (∀ i, i ∈ subs (on_unsubscribe id s) ↔ i ≠ id ∧ i ∈ subs s).
Proof.
  intros (Hn & Hd & He). unfold on_unsubscribe, wf_svc, subs.
  case_bool_decide; unfold upd; cbn; split_and!; set_solver.
Qed.

Lemma subscribe_one_spec n id b s : wf_svc n s →
  wf_svc n (subscribe_one id b s)
  ∧ (∀ i, i ∈ subs (subscribe_one id b s) ↔ if decide (i = id) then b = true else i ∈ subs s).
Proof.
  intros Hw. unfold subscribe_one. destruct (Bool.eqb (is_subed id s) b) eqn:E.
  - apply eqb_prop in E. split; [done|]. intros i. destruct (decide (i = id)) as [->|]; [|done].
    by rewrite <- E, is_subed_spec.
  - destruct b.
    + destruct (on_subscribe_spec n id s Hw) as [H1 H2]. split; [done|]. intros i. rewrite H2.
      destruct (decide (i = id)); naive_solver.
    + destruct (on_unsubscribe_spec n id s Hw) as [H1 H2]. split; [done|]. intros i. rewrite H2.
      destruct (decide (i = id)); naive_solver.
Qed.

Lemma snapshot_spec {M} (ms : list M) n s : wf_svc n s →
  wf_svc n (snapshot ms s).2 ∧ subs (snapshot ms s).2 = subs s.
Proof.
  intros (Hn & Hd & He). unfold snapshot, wf_svc, subs. case_bool_decide; cbn; [done|].
  unfold swap_new_subscribes, upd; cbn. split_and!; set_solver.
Qed.

(** A server maps its services one by one: what [f] does to each. *)
Definition server_wf (s : Server) : Prop := map_Forall wf_svc (services s).

(** [watches s n id]: the service [n] exists and [id] is subscribed to it. *)
Definition watches (s : Server) (n : string) (id : Z) : Prop :=
  ∃ svc, services s !! n = Some svc ∧ id ∈ subs svc.

Inductive SrvOp :=
| AddPrimaryVideo
| AddPrimaryCamera
| AddConnection (id : Z) (noperms : list string)
| AddCameraConnection (id : Z)
| RemoveConnection (id : Z)
| Subscribe (name : string) (id : Z) (sub : bool)
| CaptureDisplays (id : Z) (source : VideoSource) (displays : list Z) (include exclude : bool)
| ServeSnapshot (name : string).

Definition srv_step (dev : Devices) (s : Server) (op : SrvOp) : Server :=
  match op with
  | AddPrimaryVideo => try_add_primay_video_service dev s
  | AddPrimaryCamera => try_add_primary_camera_service dev s
  | AddConnection id noperms => add_connection dev id noperms s
  | AddCameraConnection id => add_camera_connection dev id s
  | RemoveConnection id => remove_connection id s
  | Subscribe name id sub => subscribe name id sub s
  | CaptureDisplays id source ds inc exc => capture_displays id source ds inc exc s
  | ServeSnapshot name => s <| services := alter (λ v, (snapshot [tt] v).2) name (services s) |>
  end.

(** The specification: the names of the services, and who watches which. *)
Definition spec_names (dev : Devices) (N : gset string) (op : SrvOp) : gset string :=
  match op with
  | AddPrimaryVideo => {[primary_video_name dev]} ∪ N
  | AddPrimaryCamera => if primary_camera_exists dev then {[primary_camera_name]} ∪ N else N
  | _ => N
  end.

Definition spec_watch (dev : Devices) (N : gset string) (W : string → Z → Prop) (op : SrvOp)
    (n : string) (i : Z) : Prop :=
  match op with
  | AddConnection id noperms =>
      W n i ∨ (i = id ∧ n ∈ N ∧ n ∉ noperms
               ∧ (is_video_service_name n = true → n = primary_video_name dev))
  | AddCameraConnection id =>
      W n i ∨ (i = id ∧ n ∈ N ∧ n = primary_camera_name ∧ primary_camera_exists dev = true)
  | RemoveConnection id => i ≠ id ∧ W n i
  | Subscribe name id sub =>
      if decide (i = id ∧ n = name ∧ n ∈ N) then sub = true else W n i
  | CaptureDisplays id source ds inc exc =>
      if decide (i = id ∧ n ∈ N ∧ is_video_service_name n = true) then
        if decide (n ∈ map (get_service_name source) ds) then inc = true ∨ W n i
        else exc = false ∧ W n i
      else W n i
  | _ => W n i
  end.

Record refines (s : Server) (N : gset string) (W : string → Z → Prop) : Prop := {
  rf_wf : server_wf s;
  rf_names : ∀ n, n ∈ N ↔ is_Some (services s !! n);
  rf_watch : ∀ n i, watches s n i ↔ W n i
}.

(** A step that changes each service on its own refines what it does to each. *)
Lemma refine_map F s s' N W W' :
  refines s N W →
  (∀ n, services s' !! n = F n <$> services s !! n) →
  (∀ n svc, wf_svc n svc → (∀ i, i ∈ subs svc ↔ W n i) → n ∈ N →
     wf_svc n (F n svc) ∧ ∀ i, i ∈ subs (F n svc) ↔ W' n i) →
  (∀ n i, n ∉ N → W' n i → W n i) →
  refines s' N W'.
Proof.
  intros [Hwf HN HW] Hs HF Hout.
  assert (∀ n svc, services s !! n = Some svc → wf_svc n (F n svc) ∧ ∀ i, i ∈ subs (F n svc) ↔ W' n i) as H.
  { intros n svc Hl. apply HF; [by eapply Hwf| |by apply HN; rewrite Hl].
    intros i. rewrite <- HW. unfold watches. rewrite Hl. naive_solver. }
  split.
  - intros n v. rewrite Hs. destruct (services s !! n) as [svc|] eqn:Hl; [|done].
    cbn. intros [= <-]. by apply H.
  - intros n. rewrite HN, Hs, fmap_is_Some. done.
  - intros n i. unfold watches. rewrite Hs. destruct (services s !! n) as [svc|] eqn:Hl; cbn.
    + rewrite <- (proj2 (H n svc Hl) i). naive_solver.
    + split; [naive_solver|]. intros Hi. exfalso. apply Hout in Hi.
      * apply HW in Hi as (? & ? & _). congruence.
      * rewrite HN, Hl. by intros [? ?].
Qed.

(** A new service, unwatched. *)
Lemma refine_add source idx s N W :
  refines s N W → services s !! get_service_name source idx = None →
  refines (add_service (video_service_new source idx) s) ({[get_service_name source idx]} ∪ N) W.
Proof.
  intros [Hwf HN HW] Hno. set (nm := get_service_name source idx) in *. unfold add_service, upd. cbn.
  fold nm. split; cbn.
  - apply map_Forall_insert_2; [|done]. unfold wf_svc. cbn. split_and!; [done|set_solver|done].
  - intros n. rewrite elem_of_union, elem_of_singleton, HN.
    destruct (decide (n = nm)) as [->|Hne]; [rewrite lookup_insert_eq|rewrite lookup_insert_ne by done].
    + naive_solver.
    + naive_solver.
  - intros n i. rewrite <- HW. unfold watches. cbn.
    destruct (decide (n = nm)) as [->|Hne]; [rewrite lookup_insert_eq|by rewrite lookup_insert_ne].
    rewrite Hno. unfold subs. split; [|naive_solver]. intros (? & [= <-] & Hi). cbn in Hi. set_solver.
Qed.

(** What [capture_displays] does to the service [n]. *)
Definition captured (id : Z) (displays : list string) (inc exc : bool) (n : string)
    (svc : ServiceInner) : ServiceInner :=
  if is_video_service_name n then
    if existsb (String.eqb n) displays
    then if inc then subscribe_one id true svc else svc
    else if exc then subscribe_one id false svc else svc
  else svc.

Lemma subscribe_lookup name id b s n :
  services (subscribe name id b s) !! n =
  (if decide (n = name) then subscribe_one id b <$> services s !! n else services s !! n).
Proof.
  unfold subscribe. destruct (services s !! name) as [svc|] eqn:E; unfold upd; cbn; case_decide; subst.
  - by rewrite lookup_insert_eq, E.
  - by rewrite lookup_insert_ne.
  - by rewrite E.
  - done.
Qed.

Lemma capture_one_lookup id ds inc exc s name n :
  services (capture_one id ds inc exc s name) !! n =
  (if decide (n = name) then captured id ds inc exc n <$> services s !! n else services s !! n).
Proof.
  unfold capture_one, captured.
  repeat case_match; rewrite ?subscribe_lookup; subst; repeat case_decide; subst; try done; try congruence;
    by destruct (services s !! _).
Qed.

Lemma capture_fold_lookup id ds inc exc keys s n : NoDup keys →
  services (foldl (capture_one id ds inc exc) s keys) !! n =
  (if decide (n ∈ keys) then captured id ds inc exc n <$> services s !! n else services s !! n).
Proof.
  revert s; induction keys as [|k keys IH]; intros s Hnd; cbn [foldl].
  - by rewrite decide_False by apply not_elem_of_nil.
  - apply NoDup_cons in Hnd as [Hk Hnd]. rewrite IH, capture_one_lookup by done.
    destruct (decide (n = k)) as [->|Hne].
    + by rewrite decide_False, decide_True by (done || left).
    + by destruct (decide (n ∈ keys)); [rewrite decide_True by by right|rewrite decide_False by set_solver].
Qed.

Lemma capture_lookup id source ds inc exc s n :
  services (capture_displays id source ds inc exc s) !! n
  = captured id (map (get_service_name source) ds) inc exc n <$> services s !! n.
Proof.
  unfold capture_displays. rewrite capture_fold_lookup by apply NoDup_fst_map_to_list.
  case_decide as Hn; [done|]. destruct (services s !! n) as [v|] eqn:E; [|done]. exfalso. apply Hn.
  apply list_elem_of_fmap. exists (n, v). split; [done|]. by apply elem_of_map_to_list.
Qed.

Lemma existsb_eqb n l : existsb (String.eqb n) l = true ↔ n ∈ l.
Proof.
  rewrite existsb_exists. setoid_rewrite String.eqb_eq. setoid_rewrite <- list_elem_of_In. naive_solver.
Qed.

Lemma captured_spec n id ds inc exc svc : wf_svc n svc →
  wf_svc n (captured id ds inc exc n svc)
  ∧ ∀ i, i ∈ subs (captured id ds inc exc n svc) ↔
     if decide (i = id ∧ is_video_service_name n = true) then
       if decide (n ∈ ds) then inc = true ∨ i ∈ subs svc else exc = false ∧ i ∈ subs svc
     else i ∈ subs svc.
Proof.
  intros Hw. unfold captured.
  pose proof (subscribe_one_spec n id true svc Hw) as [Ht1 Ht2].
  pose proof (subscribe_one_spec n id false svc Hw) as [Hf1 Hf2].
  destruct (is_video_service_name n); [|split; [done|]; intros i; by rewrite decide_False by naive_solver].
  pose proof (existsb_eqb n ds) as He. destruct (existsb (String.eqb n) ds).
  - assert (n ∈ ds) by (by apply He). destruct inc; (split; [done|]); intros i; [rewrite Ht2|];
      repeat case_decide; naive_solver.
  - assert (n ∉ ds) as Hn by (rewrite <- He; done).
    destruct exc; (split; [done|]); intros i; [rewrite Hf2|]; repeat case_decide; naive_solver.
Qed.

Lemma alter_as_map {A} (f : A → A) k (m : gmap string A) n :
  alter f k m !! n = (if decide (n = k) then f else id) <$> m !! n.
Proof.
  destruct (decide (n = k)) as [->|Hne]; [by rewrite lookup_alter_eq|].
  rewrite lookup_alter_ne by done. by destruct (m !! n).
Qed.

(** One step. *)
Lemma srv_step_refines dev s N W op :
  refines s N W → refines (srv_step dev s op) (spec_names dev N op) (spec_watch dev N W op).
Proof.
  intros HR. destruct op as [| |id noperms|id|id|name id b|id source ds inc exc|name];
    cbn [srv_step spec_names].
  - unfold try_add_primay_video_service, contains. case_bool_decide as Hc.
    + destruct HR as [Hwf HN HW]. split; [done| |done]. intros n.
      rewrite elem_of_union, elem_of_singleton, HN. naive_solver.
    + apply refine_add; [done|]. by apply eq_None_not_Some.
  - unfold try_add_primary_camera_service, contains. destruct (primary_camera_exists dev); [|done].
    cbn [negb]. case_bool_decide as Hc.
    + destruct HR as [Hwf HN HW]. split; [done| |done]. intros n.
      rewrite elem_of_union, elem_of_singleton, HN. naive_solver.
    + apply refine_add; [done|]. by apply eq_None_not_Some.
  - refine (refine_map (λ n, on_open_service dev id noperms) _ _ _ _ _ HR _ _ _).
    + intros n. unfold add_connection, upd. cbn. by rewrite lookup_fmap.
    + intros n svc Hw HW Hn. pose proof (on_subscribe_spec n id svc Hw) as [H1 H2].
      pose proof Hw as (Hnm & _). unfold on_open_service. rewrite Hnm. cbn [spec_watch].
      pose proof (existsb_eqb n noperms) as He. destruct (existsb _ noperms).
      * case_match; (split; [done|]); intros i; rewrite HW; naive_solver.
      * destruct (is_video_service_name n); cbn [andb]; [destruct (String.eqb_spec n (primary_video_name dev))|];
          cbn [negb]; (split; [done|]); intros i; rewrite ?H2, ?HW; naive_solver.
    + cbn. naive_solver.
  - refine (refine_map (λ n, if decide (n = primary_camera_name ∧ primary_camera_exists dev = true)
                             then on_subscribe id else λ v, v) _ _ _ _ _ HR _ _ _).
    + intros n. unfold add_camera_connection, upd. destruct (primary_camera_exists dev); cbn.
      * rewrite alter_as_map. destruct (services s !! n); cbn; [|done]. repeat case_decide; naive_solver.
      * rewrite decide_False by naive_solver. by destruct (services s !! n).
    + intros n svc Hw HW Hn. pose proof (on_subscribe_spec n id svc Hw) as [H1 H2]. cbn [spec_watch].
      case_decide; (split; [done|]); intros i; rewrite ?H2, HW; naive_solver.
    + cbn. naive_solver.
  - refine (refine_map (λ n, on_unsubscribe id) _ _ _ _ _ HR _ _ _).
    + intros n. unfold remove_connection, upd. cbn. by rewrite lookup_fmap.
    + intros n svc Hw HW Hn. pose proof (on_unsubscribe_spec n id svc Hw) as [H1 H2].
      split; [done|]. intros i. cbn. by rewrite H2, HW.
    + cbn. naive_solver.
  - refine (refine_map (λ n, if decide (n = name) then subscribe_one id b else λ v, v) _ _ _ _ _ HR _ _ _).
    + intros n. rewrite subscribe_lookup. case_decide; [done|]. by destruct (services s !! n).
    + intros n svc Hw HW Hn. pose proof (subscribe_one_spec n id b svc Hw) as [H1 H2]. cbn [spec_watch].
      case_decide; (split; [done|]); intros i; rewrite ?H2; repeat case_decide; rewrite ?HW; naive_solver.
    + cbn. intros n i Hn. by rewrite decide_False by naive_solver.
  - refine (refine_map (captured id (map (get_service_name source) ds) inc exc) _ _ _ _ _ HR _ _ _).
    + apply capture_lookup.
    + intros n svc Hw HW Hn.
      pose proof (captured_spec n id (map (get_service_name source) ds) inc exc svc Hw) as [H1 H2].
      split; [done|]. intros i. rewrite H2. cbn [spec_watch].
      repeat case_decide; rewrite ?HW; naive_solver.
    + cbn. intros n i Hn. by rewrite decide_False by naive_solver.
  - refine (refine_map (λ n, if decide (n = name) then λ v, (snapshot [tt] v).2 else λ v, v) _ _ _ _ _ HR _ _ _).
    + intros n. unfold upd. cbn. rewrite alter_as_map. by case_decide.
    + intros n svc Hw HW Hn. pose proof (snapshot_spec [tt] n svc Hw) as [H1 H2]. cbn [spec_watch].
      case_decide; (split; [done|]); intros i; rewrite ?H2; apply HW.
    + done.
Qed.

Fixpoint spec_run (dev : Devices) (N : gset string) (W : string → Z → Prop) (ops : list SrvOp)
    : gset string * (string → Z → Prop) :=
  match ops with
  | [] => (N, W)
  | op :: ops => spec_run dev (spec_names dev N op) (spec_watch dev N W op) ops
  end.

Lemma srv_run_refines dev ops s N W :
  refines s N W →
  refines (foldl (srv_step dev) s ops) (spec_run dev N W ops).1 (spec_run dev N W ops).2.
Proof.
  revert s N W; induction ops as [|op ops IH]; intros s N W H; [done|]. by apply IH, srv_step_refines.
Qed.

(** The pause after an error doubles, within its bounds. *)
Lemma error_pause_bounds slow t :
  (HIBERNATE_TIMEOUT <= t <= MAX_ERROR_TIMEOUT)%Z →
  (HIBERNATE_TIMEOUT <= error_pause slow t <= MAX_ERROR_TIMEOUT)%Z.
Proof.
  unfold error_pause, HIBERNATE_TIMEOUT, MAX_ERROR_TIMEOUT. intros. destruct slow;
    match goal with |- context[(?a <? ?b)%Z] => destruct (Z.ltb_spec a b) end; lia.
Qed.

(** Whatever connections come and go, are subscribed and switch displays, who
    watches which service is what the specification says: a new connection gets
    every service it has permission for, among the video services only the
    primary display; switching displays moves it between video services and
    touches no other one; a connection that left watches nothing. *)
Lemma subscriptions_refine dev cursor_embedded x11 rnd ops :
  let s0 := server_new cursor_embedded x11 rnd in
  let '(N, W) := spec_run dev (dom (services s0)) (λ _ _, False) ops in
  refines (foldl (srv_step dev) s0 ops) N W.
Proof.
  cbn zeta. destruct (spec_run _ _ _ _) as [N W] eqn:E.
  pose proof (srv_run_refines dev ops (server_new cursor_embedded x11 rnd)
                (dom (services (server_new cursor_embedded x11 rnd))) (λ _ _, False)) as H.
  rewrite E in H. apply H. clear. split.
  - destruct cursor_embedded, x11; unfold server_wf; cbn;
      repeat (apply map_Forall_insert_2; [unfold wf_svc; cbn; split_and!; [done|set_solver|done]|]);
      apply map_Forall_empty.
  - intros n. by rewrite elem_of_dom.
  - intros n i. split; [|done]. intros (svc & Hl & Hi).
    assert (subs svc = ∅) as E'; [|set_solver]. clear Hi. revert Hl.
    destruct cursor_embedded, x11; cbn; rewrite ?lookup_insert_Some; intros Hl;
      destruct_or?; destruct_and?; subst; try set_solver;
      by rewrite ?lookup_empty in *.
Qed.
