(* ===== verification/Cm.v ===== *)
(** * The connection manager

    [src/ui_cm_interface.rs]: the process of the logged-in user that shows who is
    connected and touches the user's files for the host.  [handle_fs] serves the
    requests [ipc::FS] a connection forwards (listings, file commands, the jobs
    that write what a peer uploads and, on Windows, the jobs that read);
    [handle_read_jobs_tick] drives the reading jobs; [CLIENTS] is the registry of
    connections the window shows, with a task per connection.  Blocking helpers
    are assumed to end.  A panic of a task is [None]. *)

From S2P Require Import Prelude Strs Vfs Fs Transfer Options.
From Stdlib Require Import Ascii String.

Local Open Scope string_scope.
#[local] Abbreviation length := Datatypes.length.
#[local] Arguments String.append _ _ : simpl nomatch.

(** ** Messages *)

(** [ipc::FS], what a connection asks for. *)
Module FS.
Inductive t :=
| ReadEmptyDirs (dir : string) (include_hidden : bool)
| ReadDir (dir : string) (include_hidden : bool)
| RemoveDir (path : string) (id : Z) (recursive : bool)
| RemoveFile (path : string) (id file_num : Z)
| CreateDir (path : string) (id : Z)
| NewWrite (path : string) (id file_num : Z) (files : list (string * Z))
           (overwrite_detection : bool) (total_size conn_id : Z)
| CancelWrite (id : Z)
| WriteBlock (id file_num : Z) (data : list Z) (compressed : bool)
| WriteDone (id file_num : Z)
| WriteError (id file_num : Z) (err : string)
| WriteOffset (id file_num offset_blk : Z)
| CheckDigest (id file_num file_size last_modified : Z) (is_upload is_resume : bool)
| SendConfirm (bytes : list Z)
| Rename (id : Z) (path new_name : string)
| ReadFile (path : string) (id file_num : Z) (include_hidden : bool) (conn_id : Z)
           (overwrite_detection : bool)
| CancelRead (id conn_id : Z)
| SendConfirmForRead (id file_num : Z) (skip : bool) (offset_blk conn_id : Z)
| ReadAllFiles (path : string) (id : Z) (include_hidden : bool) (conn_id : Z).
End FS.

(** A protobuf message for the peer. *)
Inductive CmRaw :=
| RawFile (m : FileMessage)
| RawEmptyDirs (path : string) (empty_dirs : list FileDirectory).

(** [ipc::Data], what goes from the connection manager to a connection. *)
Inductive Data :=
| RawMessage (m : CmRaw)
| ReadJobInitResult (id file_num : Z) (include_hidden : bool) (conn_id : Z)
                    (result : result string (list Z))
| FileBlockFromCM (id file_num : Z) (data : list Z) (compressed : bool) (conn_id : Z)
| FileReadDone (id file_num conn_id : Z)
| FileReadError (id file_num : Z) (err : string) (conn_id : Z)
| FileDigestFromCM (id file_num last_modified file_size : Z) (is_resume : bool) (conn_id : Z)
| AllFilesResult (id conn_id : Z) (path : string) (result : result string (list Z))
| ClickTime (ms : Z)
| Authorize
| Close
| ChatMessage (text : string)
| SwitchPermission (name : string) (enabled : bool)
| SwitchSidesBack
| VoiceCallResponse (accepted : bool)
| CloseVoiceCall (reason : string).

(** [serialize_transfer_job(job, done, cancel, error)] on its way to the window. *)
Inductive JobLog := TransferLog (job : TransferJob) (done cancel : bool) (error : string).

(** Protobuf's encodings of the two messages that travel as bytes. *)
Class Proto := {
  confirm_to_bytes : FileTransferSendConfirmRequest → option (list Z);
  confirm_of_bytes : list Z → option FileTransferSendConfirmRequest;
  dir_to_bytes : FileDirectory → result string (list Z);
  dir_of_bytes : list Z → result string FileDirectory
}.
Class ProtoLaws (P : Proto) : Prop := {
  confirm_of_to_bytes r b : confirm_to_bytes r = Some b → confirm_of_bytes b = Some r;
  dir_of_to_bytes d b : dir_to_bytes d = Ok b → dir_of_bytes b = Ok d
}.

(** ** Limits and names *)

Definition usize_MAX : Z := 2 ^ 64 - 1.
Definition DEFAULT_MAX_VALIDATED_FILES : Z := 10000.
Definition OPTION_FILE_TRANSFER_MAX_FILES : string := "file-transfer-max-files".

(** The value [get_or_init] caches. *)
Definition get_max_validated_files (g : Globals) : Z :=
  let c := default usize_MAX
             (parse_u64 (trim (get_builtin_option g OPTION_FILE_TRANSFER_MAX_FILES))) in
  if (c =? 0)%Z then DEFAULT_MAX_VALIDATED_FILES else c.

Definition check_file_count_limit (g : Globals) (file_count : Z) : result string unit :=
  let max_files := get_max_validated_files g in
  if (max_files <? file_count)%Z then
    Err ("file transfer rejected: too many files (" ++ show_Z file_count
         ++ " files exceeds limit of " ++ show_Z max_files ++ "). Adjust '"
         ++ OPTION_FILE_TRANSFER_MAX_FILES ++ "' option to increase limit.")
  else Ok tt.

(** The connection manager's own validation: both separators on every platform. *)
Definition cm_validate_file_name_no_traversal (windows : bool) (name : string) : result error unit :=
  if contains_char "000" name then Err (Msg "file name contains null bytes")
  else if existsb (String.eqb "..")
            (List.filter (λ s, negb (is_empty s)) (name_pieces true name))
  then Err (Msg "path traversal detected in file name")
  else if windows && starts_with_drive name then Err (Msg "absolute path detected in file name")
  else if starts_with "/" name || starts_with "\" name
  then Err (Msg "absolute path detected in file name")
  else Ok tt.

Definition is_single_file_with_empty_name (files : list (string * Z)) : bool :=
  match files with [f] => is_empty f.1 | _ => false end.

Definition cm_validate_transfer_file_names (windows : bool) (files : list (string * Z))
    : result error unit :=
  if is_single_file_with_empty_name files then Ok tt
  else validate_each (λ f, if is_empty f.1 then Err (Msg "empty file name in multi-file transfer")
                           else cm_validate_file_name_no_traversal windows f.1) files.

(** ** A task's jobs and files *)

(** The jobs of one connection's task, the file system, what was sent to the
    connection, and the logs for the window. *)
Record Files := mkFiles {
  f_write_jobs : list TransferJob;
  f_read_jobs : list TransferJob;
  f_fs : vfs;
  f_tx : list Data;
  f_log : list JobLog
}.
#[global] Instance eta_Files : Settable Files := λ c,
  mkFiles (f_write_jobs c) (f_read_jobs c) (f_fs c) (f_tx c) (f_log c).

Section Cm.
Context (decompress compress : list Z → list Z).
Context (json_of_digest : FileDigest → list Z) (digest_of_json : list Z → option FileDigest).
Context (set_file_mtime : vfs → string → Z → vfs).
Context (short : nat → nat).
Context (dir_order : list string → list string).
Context `{P : Proto}.
(** [Display] of an [std::io::Error]. *)
Context (io_text : errno → string).
(** [cfg!(windows)], the built-in options and [Config::get_home]. *)
Context (windows : bool) (g : Globals) (home : string).
(** A log is only sent where [tx_log] is [Some]. *)
Context (has_log : bool).

Definition error_text (e : error) : string :=
  match e with Msg s => s | Io n => io_text n end.

Definition tx (d : Data) (c : Files) : Files := c <| f_tx := (f_tx c ++ [d])%list |>.
Definition send_raw (m : CmRaw) : Files → Files := tx (RawMessage m).
Definition send_error (i : Z) (e : error) (fn : Z) : Files → Files :=
  send_raw (RawFile (new_error i e fn)).
Definition log_job (j : TransferJob) (done cancel : bool) (err : string) (c : Files) : Files :=
  if has_log then c <| f_log := (f_log c ++ [TransferLog j done cancel err])%list |> else c.

(** [fs::get_job] then a method: run [m] on the first job with this id, in place. *)
Fixpoint with_job {A} (i : Z) (m : J A) (jobs : list TransferJob) (v : vfs)
    : option (outcome A * list TransferJob * vfs) :=
  match jobs with
  | [] => None
  | j :: js =>
      if (id j =? i)%Z then
        let '(r, j', v', _) := run_job m j v [] in Some (r, j' :: js, v')
      else match with_job i m js v with
           | Some (r, js', v') => Some (r, j :: js', v')
           | None => None
           end
  end.

Definition put_write (jobs : list TransferJob) (v : vfs) (c : Files) : Files :=
  c <| f_write_jobs := jobs |> <| f_fs := v |>.

(** [fs::remove_job]: the job taken out, and the rest. *)
Definition take_job (i : Z) (jobs : list TransferJob) : option (TransferJob * list TransferJob) :=
  match get_job_by_id i jobs with
  | Some j => Some (j, remove_job i jobs)
  | None => None
  end.

(** *** Listings and commands *)

Definition read_empty_dirs (dir : string) (include_hidden : bool) (c : Files) : Files :=
  match get_empty_dirs_recursive dir_order (f_fs c) dir include_hidden with
  | Ok fds => send_raw (RawEmptyDirs dir fds) c
  | Err _ => c
  end.

Definition cm_read_dir (dir : string) (include_hidden : bool) (c : Files) : Files :=
  let path := if is_empty dir then home else dir in
  match read_dir dir_order (f_fs c) path include_hidden with
  | Ok fd => send_raw (RawFile (new_dir (fd_id fd) (fd_path fd) (fd_entries fd))) c
  | Err _ => c
  end.

Definition handle_result (res : result error unit) (i fn : Z) : Files → Files :=
  match res with
  | Err err => send_error i err fn
  | Ok _ => send_raw (RawFile (new_done i fn))
  end.

(** A command's result, and the file system it leaves. *)
Definition command (res : result error vfs) (i fn : Z) (c : Files) : Files :=
  handle_result (res ≫= λ _, Ok tt) i fn (c <| f_fs := ok_or_same res (f_fs c) |>).

Definition cm_remove_file (path : string) (i fn : Z) (c : Files) : Files :=
  command (remove_file (f_fs c) path) i fn c.

Definition cm_create_dir (path : string) (i : Z) (c : Files) : Files :=
  let '(res, v) := create_dir (f_fs c) path in handle_result res i 0 (c <| f_fs := v |>).

Definition cm_rename (v : vfs) (path new_name : string) : result error vfs :=
  if is_empty new_name then Err (Msg "new file name cannot be empty") else
  cm_validate_file_name_no_traversal windows new_name ≫= λ _,
  rename_file windows v path new_name.

Definition cm_rename_file (path new_name : string) (i : Z) (c : Files) : Files :=
  command (cm_rename (f_fs c) path new_name) i 0 c.

Definition cm_remove_dir (path : string) (i : Z) (recursive : bool) (c : Files) : Files :=
  if recursive then
    let '(res, v) := remove_all_empty_dir dir_order (tree_depth (f_fs c)) (f_fs c) path in
    handle_result res i 0 (c <| f_fs := v |>)
  else command (io (remove_dir_at (f_fs c) path)) i 0 c.

(** *** Reading jobs *)

Definition list_files (i : Z) (path : string) (entries : list FileEntry) : result string (list Z) :=
  match dir_to_bytes {| fd_id := i; fd_path := path; fd_entries := entries |} with
  | Ok bytes => Ok bytes
  | Err e => Err ("serialize failed: " ++ e)
  end.

Definition start_read_job (path : string) (fn : Z) (include_hidden : bool) (i cid : Z)
    (overwrite_detection : bool) (c : Files) : Files :=
  let answer r := tx (ReadJobInitResult i fn include_hidden cid r) in
  match new_read dir_order (f_fs c) i Generic "" (FilePath path) fn include_hidden true
          overwrite_detection with
  | Ok job =>
      match check_file_count_limit g (Z.of_nat (length (files job))) with
      | Err msg => answer (Err msg) c
      | Ok _ =>
          match list_files i path (files job) with
          | Err e => answer (Err e) c
          | Ok bytes =>
              let c := answer (Ok bytes) c in
              c <| f_read_jobs := (f_read_jobs c ++ [job <| conn_id := cid |>])%list |>
          end
      end
  | Err e => answer (Err ("validation failed: " ++ error_text e)) c
  end.

Definition read_all_files (path : string) (include_hidden : bool) (i cid : Z) (c : Files) : Files :=
  let res :=
    match get_recursive_files dir_order (f_fs c) path include_hidden with
    | Ok fs =>
        match check_file_count_limit g (Z.of_nat (length fs)) with
        | Err msg => Err msg
        | Ok _ => list_files i path fs
        end
    | Err e => Err (error_text e)
    end in
  tx (AllFilesResult i cid path res) c.

(** [init_read_job_for_cm] on its result: the digest goes out. *)
Definition digest_from_cm (j : TransferJob) (d : option (Z * Z)) (cid : Z) : list Data :=
  match d with
  | Some (last_modified, file_size) =>
      [FileDigestFromCM (id j) (file_num j) last_modified file_size (is_resume j) cid]
  | None => []
  end.

(** What one job's turn sends, once its stream is open. *)
Definition read_for_cm (j : TransferJob) (v : vfs) (cid : Z)
    : TransferJob * vfs * list Data * list Z :=
  match run_job (read compress short) j v [] with
  | (Fail e, j', v', _) =>
      (j', v', [FileReadError (id j') (file_num j') (error_text e) cid], [id j'])
  | (Ret (Some b), j', v', _) =>
      (j', v', [FileBlockFromCM (blk_id b) (blk_file_num b) (blk_data b) (blk_compressed b) cid], [])
  | (Ret None, j', v', _) =>
      if job_completed j' then
        (j', v', [match job_error j' with
                  | Some err => FileReadError (id j') (file_num j') err cid
                  | None => FileReadDone (id j') (file_num j') cid
                  end], [id j'])
      else (j', v', [], [])
  | (Panic, j', v', _) => (j', v', [], [])
  end.

(** The loop of [handle_read_jobs_tick]: jobs, file system, messages, finished ids. *)
Fixpoint tick_jobs (jobs : list TransferJob) (v : vfs) (cid : Z)
    : list TransferJob * vfs * list Data * list Z :=
  match jobs with
  | [] => ([], v, [], [])
  | j :: js =>
      if is_last_job j then
        let '(js', v', out, fin) := tick_jobs js v cid in (j :: js', v', out, fin)
      else
        match run_job init_data_stream_for_cm j v [] with
        | (Fail e, j1, v1, _) =>
            let '(js', v', out, fin) := tick_jobs js v1 cid in
            (j1 :: js', v', FileReadError (id j1) (file_num j1) (error_text e) cid :: out,
             id j1 :: fin)
        | (Ret d, j1, v1, _) =>
            let '(j2, v2, out, fin) := read_for_cm j1 v1 cid in
            (j2 :: js, v2, (digest_from_cm j1 d cid ++ out)%list, fin)
        | (Panic, j1, v1, _) => (j1 :: js, v1, [], [])
        end
  end.

Definition handle_read_jobs_tick (jobs : list TransferJob) (v : vfs) (cid : Z)
    : list TransferJob * vfs * list Data :=
  let '(jobs, v, out, finished) := tick_jobs jobs v cid in
  (foldl (λ js i, remove_job i js) jobs finished, v, out).

(** *** [handle_fs] *)

(** The job of an upload, as [NewWrite] makes it: the validated entries are
    collected and then not used. *)
Definition new_write_job (path : string) (i fn : Z) (overwrite_detection : bool)
    (total cid : Z) : TransferJob :=
  new_write i Generic "" (FilePath path) fn false false overwrite_detection
    <| total_size := total |> <| conn_id := cid |>.

(** [CheckDigest] on the job it names. *)
Definition check_digest (j : TransferJob) (i fn file_size last_modified : Z)
    (is_upload is_resume : bool) (c : Files) : Files :=
  let req u := {| cr_id := i; cr_file_num := fn; cr_union := Some u |} in
  let d := {| td_id := i; td_file_num := fn; td_last_modified := last_modified;
              td_file_size := file_size; td_is_upload := false; td_is_identical := false;
              td_transferred_size := 0; td_is_resume := false |} in
  match entry_at j fn, data_source j with
  | Some file, FilePath p =>
      match is_write_need_confirmation digest_of_json (f_fs c) is_resume (join p (fe_name file)) d with
      | Err err => send_error i err fn c
      | Ok res =>
          let c :=
            match with_job i (modify_job (set_digest file_size last_modified)) (f_write_jobs c) (f_fs c) with
            | Some (_, jobs, v) => put_write jobs v c
            | None => c
            end in
          send_raw (RawFile
            match res with
            | IsSame => new_send_confirm (req (Skip true))
            | NeedConfirm d =>
                MsgDigest {| td_id := td_id d; td_file_num := td_file_num d;
                  td_last_modified := td_last_modified d; td_file_size := td_file_size d;
                  td_is_upload := is_upload; td_is_identical := td_is_identical d;
                  td_transferred_size := td_transferred_size d; td_is_resume := td_is_resume d |}
            | NoSuchFile => new_send_confirm (req (OffsetBlk 0))
            end) c
      end
  | _, _ => c
  end.

(** [None]: the task panicked. *)
Definition handle_fs (fs : FS.t) (c : Files) : option Files :=
  match fs with
  | FS.ReadEmptyDirs dir include_hidden => Some (read_empty_dirs dir include_hidden c)
  | FS.ReadDir dir include_hidden => Some (cm_read_dir dir include_hidden c)
  | FS.RemoveDir path i recursive => Some (cm_remove_dir path i recursive c)
  | FS.RemoveFile path i fn => Some (cm_remove_file path i fn c)
  | FS.CreateDir path i => Some (cm_create_dir path i c)
  | FS.NewWrite path i fn fs overwrite_detection total cid =>
      match cm_validate_transfer_file_names windows fs with
      | Err e => Some (send_error i e fn c)
      | Ok _ =>
          Some (c <| f_write_jobs := (f_write_jobs c
                     ++ [new_write_job path i fn overwrite_detection total cid])%list |>)
      end
  | FS.CancelWrite i =>
      match take_job i (f_write_jobs c) with
      | Some (job, rest) =>
          let '(_, job', v, _) := run_job remove_download_file job (f_fs c) [] in
          Some (log_job job' false true "" (put_write rest v c))
      | None => Some c
      end
  | FS.WriteDone i fn =>
      match take_job i (f_write_jobs c) with
      | Some (job, rest) =>
          let '(_, job', v, _) := run_job (modify_time set_file_mtime) job (f_fs c) [] in
          Some (log_job job' true false "" (send_raw (RawFile (new_done i fn)) (put_write rest v c)))
      | None => Some c
      end
  | FS.WriteError i fn err =>
      match take_job i (f_write_jobs c) with
      | Some (job, rest) =>
          Some (send_raw (RawFile (MsgErrorText (id job) err fn))
                  (log_job job false false err (c <| f_write_jobs := rest |>)))
      | None => Some c
      end
  | FS.WriteBlock i fn data compressed =>
      let block := {| blk_id := i; blk_file_num := fn; blk_data := data;
                      blk_compressed := compressed |} in
      match with_job i (write decompress json_of_digest set_file_mtime block)
              (f_write_jobs c) (f_fs c) with
      | Some (Panic, _, _) => None
      | Some (Fail err, jobs, v) => Some (send_error i err fn (put_write jobs v c))
      | Some (Ret _, jobs, v) => Some (put_write jobs v c)
      | None => Some c
      end
  | FS.CheckDigest i fn file_size last_modified is_upload is_resume =>
      match get_job_by_id i (f_write_jobs c) with
      | Some j => Some (check_digest j i fn file_size last_modified is_upload is_resume c)
      | None => Some c
      end
  | FS.SendConfirm bytes =>
      match confirm_of_bytes bytes with
      | Some r =>
          match with_job (cr_id r) (confirm r) (f_write_jobs c) (f_fs c) with
          | Some (Panic, _, _) => None
          | Some (_, jobs, v) => Some (put_write jobs v c)
          | None => Some c
          end
      | None => Some c
      end
  | FS.Rename i path new_name => Some (cm_rename_file path new_name i c)
  | FS.ReadFile path i fn include_hidden cid overwrite_detection =>
      Some (start_read_job path fn include_hidden i cid overwrite_detection c)
  | FS.CancelRead i _ =>
      match take_job i (f_read_jobs c) with
      | Some (job, rest) => Some (log_job job false true "" (c <| f_read_jobs := rest |>))
      | None => Some c
      end
  | FS.SendConfirmForRead i _ skip offset_blk _ =>
      match get_job_by_id i (f_read_jobs c) with
      | Some job =>
          let req := {| cr_id := i; cr_file_num := file_num job;
                        cr_union := Some (if skip then Skip true else OffsetBlk offset_blk) |} in
          match with_job i (confirm req) (f_read_jobs c) (f_fs c) with
          | Some (Panic, _, _) => None
          | Some (_, jobs, v) => Some (c <| f_read_jobs := jobs |> <| f_fs := v |>)
          | None => Some c
          end
      | None => Some c
      end
  | FS.ReadAllFiles path i include_hidden cid => Some (read_all_files path include_hidden i cid c)
  | FS.WriteOffset _ _ _ => Some c
  end.

(** ** The connection's side of a reading job

    [src/server/connection.rs]: the ids of the jobs the connection manager reads
    for this connection, and the handlers that pass its messages on. *)

Record CmReads := mkCmReads { cm_read_job_ids : gset Z; to_peer : list CmRaw }.

Definition to_peer_raw (m : CmRaw) (s : CmReads) : CmReads :=
  mkCmReads (cm_read_job_ids s) (to_peer s ++ [m]).
Definition to_peer_send (m : FileMessage) : CmReads → CmReads := to_peer_raw (RawFile m).
Definition forget_read (i : Z) (s : CmReads) : CmReads :=
  mkCmReads (cm_read_job_ids s ∖ {[i]}) (to_peer s).

Definition handle_read_job_init_result (i : Z) (res : result string (list Z)) (s : CmReads) : CmReads :=
  if negb (bool_decide (i ∈ cm_read_job_ids s)) then s else
  match res with
  | Err error => to_peer_send (MsgErrorText i error 0) (forget_read i s)
  | Ok bytes =>
      match dir_of_bytes bytes with
      | Err _ => to_peer_send (MsgErrorText i "internal error" 0) (forget_read i s)
      | Ok dir => to_peer_send (new_dir i (fd_path dir) (fd_entries dir)) s
      end
  end.

Definition handle_file_block_from_cm (i fn : Z) (data : list Z) (compressed : bool) (s : CmReads)
    : CmReads :=
  if negb (bool_decide (i ∈ cm_read_job_ids s)) then s else
  to_peer_send (MsgBlock {| blk_id := i; blk_file_num := fn; blk_data := data;
                            blk_compressed := compressed |}) s.

Definition handle_file_read_done (i fn : Z) (s : CmReads) : CmReads :=
  if negb (bool_decide (i ∈ cm_read_job_ids s)) then s else
  to_peer_send (MsgDone i fn) (forget_read i s).

Definition handle_file_read_error (i fn : Z) (err : string) (s : CmReads) : CmReads :=
  if negb (bool_decide (i ∈ cm_read_job_ids s)) then s else
  to_peer_send (MsgErrorText i err fn) (forget_read i s).

Definition handle_file_digest_from_cm (i fn last_modified file_size : Z) (is_resume : bool)
    (s : CmReads) : CmReads :=
  if negb (bool_decide (i ∈ cm_read_job_ids s)) then s else
  to_peer_send (MsgDigest {| td_id := i; td_file_num := fn; td_last_modified := last_modified;
                             td_file_size := file_size; td_is_upload := false;
                             td_is_identical := false; td_transferred_size := 0;
                             td_is_resume := is_resume |}) s.

Definition handle_all_files_result (i : Z) (path : string) (res : result string (list Z)) (s : CmReads)
    : CmReads :=
  match res with
  | Err err => to_peer_send (MsgErrorText i err (-1)) s
  | Ok bytes =>
      match dir_of_bytes bytes with
      | Ok fd => to_peer_send (MsgDir (fd_id fd) (fd_path fd) (fd_entries fd)) s
      | Err e => to_peer_send (MsgErrorText i ("deserialize failed for " ++ path ++ ": " ++ e) (-1)) s
      end
  end.

(** The branch of the connection's loop for these messages; [me] is its id. *)
Definition on_cm_read (me : Z) (d : Data) (s : CmReads) : CmReads :=
  match d with
  | ReadJobInitResult i _ _ cid res => if (cid =? me)%Z then handle_read_job_init_result i res s else s
  | FileBlockFromCM i fn data compressed cid =>
      if (cid =? me)%Z then handle_file_block_from_cm i fn data compressed s else s
  | FileReadDone i fn cid => if (cid =? me)%Z then handle_file_read_done i fn s else s
  | FileReadError i fn err cid => if (cid =? me)%Z then handle_file_read_error i fn err s else s
  | FileDigestFromCM i fn lm size is_resume cid =>
      if (cid =? me)%Z then handle_file_digest_from_cm i fn lm size is_resume s else s
  | AllFilesResult i cid path res => if (cid =? me)%Z then handle_all_files_result i path res s else s
  | RawMessage m => to_peer_raw m s
  | _ => s
  end.

(** ** Reading through the connection manager is reading directly *)

(** The steps of a running job: the timer, or the peer's answer to a digest. *)
Inductive ReadStep := Tick | Answer (r : FileTransferSendConfirmRequest).

(** The job in the connection, as on Linux: [handle_read_jobs], [confirm]. *)
Definition direct_step (s : ReadStep) (jobs : list TransferJob) (v : vfs)
    : option (list TransferJob * vfs * list FileMessage) :=
  match s with
  | Tick => Some (handle_read_jobs compress short jobs v)
  | Answer r =>
      match with_job (cr_id r) (confirm r) jobs v with
      | Some (Panic, _, _) => None
      | Some (_, jobs, v) => Some (jobs, v, [])
      | None => Some (jobs, v, [])
      end
  end.

(** The job in the connection manager, as on Windows: its messages reach the
    connection, which passes them on; the answer travels as [SendConfirmForRead]. *)
Definition skip_of (r : FileTransferSendConfirmRequest) : bool :=
  match cr_union r with Some (Skip b) => b | _ => false end.
Definition offset_of (r : FileTransferSendConfirmRequest) : Z :=
  match cr_union r with Some (OffsetBlk o) => o | _ => 0 end.

Definition cm_step (me : Z) (s : ReadStep) (c : Files) (k : CmReads) : option (Files * CmReads) :=
  let deliver c' := (c' <| f_tx := [] |>, foldl (λ k d, on_cm_read me d k) k (f_tx c')) in
  match s with
  | Tick =>
      if bool_decide (f_read_jobs c = []) then Some (c, k) else
      let '(jobs, v, out) := handle_read_jobs_tick (f_read_jobs c) (f_fs c) me in
      Some (deliver (c <| f_read_jobs := jobs |> <| f_fs := v |> <| f_tx := (f_tx c ++ out)%list |>))
  | Answer r =>
      if bool_decide (cr_id r ∈ cm_read_job_ids k) then
        deliver <$> handle_fs (FS.SendConfirmForRead (cr_id r) (cr_file_num r) (skip_of r) (offset_of r) me) c
      else match confirm_to_bytes r with
           | Some bytes => deliver <$> handle_fs (FS.SendConfirm bytes) c
           | None => Some (c, k)
           end
  end.

(** The peer answers about the file it was asked about. *)
Definition answered (s : ReadStep) (jobs : list TransferJob) : bool :=
  match s, jobs with
  | Tick, _ => true
  | Answer r, [j] =>
      ((cr_id r =? id j) && (cr_file_num r =? file_num j))%Z
      && match cr_union r with Some _ => true | None => false end
  | Answer _, _ => false
  end.

(** A run of such steps on the jobs of a connection. *)
Fixpoint direct_run (steps : list ReadStep) (jobs : list TransferJob) (v : vfs)
    : option (list TransferJob * vfs * list FileMessage) :=
  match steps with
  | [] => Some (jobs, v, [])
  | s :: steps =>
      if answered s jobs then
        '(jobs1, v1, m1) ← direct_step s jobs v;
        '(jobs2, v2, m2) ← direct_run steps jobs1 v1;
        Some (jobs2, v2, m1 ++ m2)%list
      else None
  end.

Fixpoint cm_run (me : Z) (steps : list ReadStep) (c : Files) (k : CmReads) : option (Files * CmReads) :=
  match steps with
  | [] => Some (c, k)
  | s :: steps => ck ← cm_step me s c k; cm_run me steps ck.1 ck.2
  end.

(** *** Lemmas on a job's turn *)

(** The fields of a job that reading it never changes. *)
Definition keeps (j j' : TransferJob) : Prop := id j' = id j ∧ is_last_job j' = is_last_job j.

Definition digest_messages (j : TransferJob) (d : option (Z * Z)) : list FileMessage :=
  match d with
  | Some (last_modified, file_size) =>
      [MsgDigest {| td_id := id j; td_file_num := file_num j; td_last_modified := last_modified;
                    td_file_size := file_size; td_is_upload := false; td_is_identical := false;
                    td_transferred_size := 0; td_is_resume := is_resume j |}]
  | None => []
  end.

(** Opening a job's stream: the same change of the job, the digest sent or returned. *)
Lemma init_for_cm j v out :
  ∃ r j1, run_job init_data_stream_for_cm j v [] = (r, j1, v, []) ∧ keeps j j1 ∧ r ≠ Panic
    ∧ run_job init_data_stream j v out
      = match r with
        | Ret d => (Ret tt, j1, v, out ++ digest_messages j1 d)%list
        | Fail e => (Fail e, j1, v, out)
        | Panic => (Panic, j1, v, out)
        end.
Proof.
  unfold run_job, init_data_stream_for_cm, init_data_stream, open_data_stream, send_current_digest,
    get_current_digest.
  unfold mbind, J_bind, mret, J_ret, get_job, get_fs, modify_job, fail, send, lift, put_fs.
  destruct j; cbn -[Z.div Z.ltb Z.mul needs_digest].
  repeat (case_match; cbn -[Z.div Z.ltb Z.mul needs_digest] in *; simplify_eq);
    try (do 2 eexists; split_and!; [reflexivity|split; reflexivity|discriminate|first [reflexivity|simpl; by rewrite ?app_nil_r]]).
Qed.

(** Reading sends nothing. *)
Lemma read_silent j v out :
  ∃ r j1, run_job (read compress short) j v [] = (r, j1, v, []) ∧ keeps j j1
    ∧ match r with Ret (Some b) => blk_id b = id j | Panic => False | _ => True end
    ∧ run_job (read compress short) j v out = (r, j1, v, out).
Proof.
  unfold run_job, read.
  unfold mbind, J_bind, mret, J_ret, get_job, get_fs, modify_job, fail, send, lift, put_fs.
  destruct j; cbn -[Z.div Z.ltb Z.mul needs_digest read_loop BUF_SIZE Nat.ltb].
  repeat (case_match; cbn -[Z.div Z.ltb Z.mul needs_digest read_loop BUF_SIZE Nat.ltb] in *; simplify_eq);
    try (do 2 eexists; split_and!; [reflexivity|split; reflexivity|done|first [reflexivity|simpl; by rewrite ?app_nil_r]]).
Qed.

Lemma confirm_silent r j v :
  ∃ res j1 v1, run_job (confirm r) j v [] = (res, j1, v1, []) ∧ keeps j j1.
Proof.
  unfold run_job, confirm, set_stream_offset.
  unfold mbind, J_bind, mret, J_ret, get_job, get_fs, modify_job, panic, put_fs.
  destruct j; cbn -[Z.ltb add_sizes].
  repeat (case_match; cbn -[Z.ltb] in *; simplify_eq);
    try (do 3 eexists; split; [reflexivity|split; reflexivity]).
Qed.

(** The answer as it reaches the connection manager's job. *)
Definition forwarded (j : TransferJob) (r : FileTransferSendConfirmRequest) : FileTransferSendConfirmRequest :=
  {| cr_id := cr_id r; cr_file_num := file_num j;
     cr_union := Some (if skip_of r then Skip true else OffsetBlk (offset_of r)) |}.

Lemma forwarded_confirm j r v :
  cr_file_num r = file_num j → cr_union r ≠ None →
  run_job (confirm (forwarded j r)) j v [] = run_job (confirm r) j v [].
Proof.
  intros Hn Hu. unfold run_job, confirm, forwarded, skip_of, offset_of. cbn [cr_file_num cr_union].
  rewrite Hn. destruct (cr_union r) as [[[]|o]|]; done.
Qed.

(** No error of the system went out; a skipped file is not one. *)
Definition no_error (m : FileMessage) : Prop := match m with MsgError _ _ _ => False | _ => True end.

(** The digest a turn sends, at the connection. *)
Lemma deliver_digest me j d k :
  id j ∈ cm_read_job_ids k →
  foldl (λ k d, on_cm_read me d k) k (digest_from_cm j d me)
    = mkCmReads (cm_read_job_ids k) (to_peer k ++ map RawFile (digest_messages j d)).
Proof.
  intros Hk. destruct d as [[m s]|]; cbn; [|by rewrite app_nil_r; destruct k].
  rewrite Z.eqb_refl. unfold handle_file_digest_from_cm. by rewrite bool_decide_true.
Qed.

(** One turn of the only job. *)
Lemma tick_same me j v jobs' v' msgs :
  is_last_job j = false →
  handle_read_jobs compress short [j] v = (jobs', v', msgs) → Forall no_error msgs →
  ∃ data, handle_read_jobs_tick [j] v me = (jobs', v', data)
    ∧ (jobs' = [] ∨ ∃ j', jobs' = [j'] ∧ keeps j j')
    ∧ ∀ k, id j ∈ cm_read_job_ids k →
        let k' := foldl (λ k d, on_cm_read me d k) k data in
        to_peer k' = (to_peer k ++ map RawFile msgs)%list
        ∧ (jobs' ≠ [] → id j ∈ cm_read_job_ids k').
Proof.
  intros Hl. unfold handle_read_jobs, handle_read_jobs_tick.
  cbn [init_jobs read_first tick_jobs]. rewrite !Hl.
  destruct (init_for_cm j v []) as (r & j1 & -> & [K1 L1] & Hr & ->).
  rewrite Hl in L1. cbn [app].
  destruct r as [d|e|]; cbn [app read_first]; [| |done]; rewrite L1.
  - unfold read_for_cm.
    destruct (read_silent j1 v (digest_messages j1 d)) as (r2 & j2 & -> & [K2 L2] & Hr2 & ->).
    assert (keeps j j2) as Hk by (split; congruence).
    destruct r2 as [[b|]|e|]; [| | |done].
    + cbn [foldl]. intros [= <- <- <-] _. eexists. split; [reflexivity|].
      split; [right; by exists j2|]. intros k Hin.
      rewrite foldl_app, deliver_digest by (by rewrite K1). cbn [foldl on_cm_read].
      unfold handle_file_block_from_cm. rewrite Z.eqb_refl. cbn [cm_read_job_ids].
      rewrite bool_decide_true by (by rewrite Hr2, K1). cbn.
      rewrite map_app, <- app_assoc. by destruct b.
    + destruct (job_completed j2) eqn:Hc.
      * cbn [foldl remove_job]. rewrite Z.eqb_refl. intros [= <- <- <-] _.
        eexists. split; [reflexivity|]. split; [by left|]. intros k Hin.
        rewrite foldl_app, deliver_digest by (by rewrite K1). cbn [foldl].
        split; [|done]. rewrite map_app, app_assoc.
        destruct (job_error j2); cbn; unfold handle_file_read_error, handle_file_read_done;
          rewrite Z.eqb_refl; cbn; by rewrite bool_decide_true by (by rewrite K2, K1).
      * cbn [foldl]. intros [= <- <- <-] _. eexists. split; [reflexivity|].
        split; [right; by exists j2|]. intros k Hin.
        rewrite app_nil_r, deliver_digest by (by rewrite K1). done.
    + intros [= <- <- <-]. rewrite Forall_app. intros [_ HF]. by inversion HF.
  - destruct (read_silent j1 v [new_error (id j1) e (file_num j1)]) as (r2 & j2 & _ & _ & Hr2 & ->).
    intros E HF. exfalso. enough (∃ m, msgs = new_error (id j1) e (file_num j1) :: m) as [m ->].
    { by inversion HF. }
    destruct r2 as [[b|]|e'|]; [| | |done]; [|destruct (job_completed j2)|];
      injection E as _ _ <-; eexists; reflexivity.
Qed.
End Cm.
