(* ===== verification/CmSafety.v ===== *)
(** * What the connection manager does with files

    Theorems on [Cm]: a job read through the connection manager serves the peer
    as one read by the connection itself; file commands are answered; and what
    the model shows of uploads. *)

From S2P Require Import Prelude Strs Version Vfs Fs Transfer Receive Send FsSafety Options Cm.
From Stdlib Require Import Ascii String.

Local Open Scope string_scope.
#[local] Abbreviation length := Datatypes.length.
#[local] Arguments String.append _ _ : simpl nomatch.

Section CmSafety.
Context (decompress compress : list Z → list Z).
Context (json_of_digest : FileDigest → list Z) (digest_of_json : list Z → option FileDigest).
Context (set_file_mtime : vfs → string → Z → vfs).
Context (short : nat → nat).
Context (dir_order : list string → list string).
Context `{P : Proto}.
Context (io_text : errno → string).
Context (windows : bool) (g : Globals) (home : string) (has_log : bool).

#[local] Abbreviation handle_fs :=
  (handle_fs decompress json_of_digest digest_of_json set_file_mtime dir_order io_text windows g
     home has_log).
#[local] Abbreviation cm_step :=
  (cm_step decompress compress json_of_digest digest_of_json set_file_mtime short dir_order
     io_text windows g home has_log).
#[local] Abbreviation cm_run :=
  (cm_run decompress compress json_of_digest digest_of_json set_file_mtime short dir_order
     io_text windows g home has_log).

(** The connection manager holds what the connection would: its job, or none. *)
Record holds (jobs : list TransferJob) (v : vfs) (c : Files) (k : CmReads) : Prop := {
  holds_jobs : f_read_jobs c = jobs;
  holds_fs : f_fs c = v;
  holds_tx : f_tx c = [];
  holds_one : jobs = [] ∨ ∃ j, jobs = [j] ∧ is_last_job j = false ∧ id j ∈ cm_read_job_ids k
}.

Lemma step_same me s jobs v jobs' v' msgs c k :
  holds jobs v c k → answered s jobs = true →
  direct_step compress short s jobs v = Some (jobs', v', msgs) → Forall no_error msgs →
  ∃ c' k', cm_step me s c k = Some (c', k') ∧ holds jobs' v' c' k'
    ∧ to_peer k' = (to_peer k ++ map RawFile msgs)%list.
Proof.
  intros [Hj Hv Ht Ho] Ha E HF. destruct Ho as [->|(j & -> & Hl & Hin)]; destruct s as [|r]; try done.
  - cbn in E. injection E as <- <- <-. exists c, k. unfold cm_step.
    rewrite Hj, bool_decide_true by done. split_and!; [done|by split; [..|left]|by rewrite app_nil_r].
  - cbn in E. injection E as E.
    destruct (tick_same compress short io_text me j v jobs' v' msgs Hl E HF) as (data & Et & Hk & Hd).
    destruct (Hd k Hin) as [Hp Hid]. unfold cm_step.
    rewrite Hj, bool_decide_false by done. rewrite Hv, Et, Ht. cbn [app].
    eexists _, _. split; [reflexivity|]. cbn. split; [|done]. split; [done..|].
    destruct Hk as [->|(j' & -> & Ki & Kl)]; [by left|right]. exists j'.
    split_and!; [done|by rewrite Kl|rewrite Ki; by apply Hid].
  - cbn in Ha. apply andb_true_iff in Ha as [[Hi Hn]%andb_true_iff Hu].
    apply Z.eqb_eq in Hi, Hn. cbn [direct_step with_job] in E. rewrite Hi, Z.eqb_refl in E.
    assert (cr_union r ≠ None) as Hu' by (by destruct (cr_union r)).
    destruct (confirm_silent r j v) as (res & j1 & v1 & Er & [Ki Kl]).
    pose proof (forwarded_confirm j r v Hn Hu') as Ef. rewrite Er in E, Ef.
    unfold cm_step. rewrite Hi, bool_decide_true by done. cbn [Cm.handle_fs].
    unfold get_job_by_id. rewrite Hj. cbn [List.find]. rewrite Z.eqb_refl. cbn [with_job].
    rewrite Z.eqb_refl, Hv. unfold forwarded in Ef. rewrite Hi in Ef. rewrite Ef.
    assert (jobs' = [j1] ∧ v' = v1 ∧ msgs = [] ∧ res ≠ Panic) as (-> & -> & -> & Hr)
      by (by destruct res; simplify_eq).
    exists (c <| f_read_jobs := [j1] |> <| f_fs := v1 |> <| f_tx := [] |>), k.
    split_and!; [|split; cbn; [done..|]|by rewrite app_nil_r].
    + destruct res; [..|done]; cbn; rewrite Ht; reflexivity.
    + right. exists j1. by rewrite Ki, Kl.
Qed.

Lemma run_same me steps jobs v jobs' v' msgs c k :
  holds jobs v c k → direct_run compress short steps jobs v = Some (jobs', v', msgs) →
  Forall no_error msgs →
  ∃ c' k', cm_run me steps c k = Some (c', k') ∧ holds jobs' v' c' k'
    ∧ to_peer k' = (to_peer k ++ map RawFile msgs)%list.
Proof.
  revert jobs v msgs c k. induction steps as [|s steps IH]; intros jobs v msgs c k Hh E HF.
  - injection E as <- <- <-. exists c, k. by rewrite app_nil_r.
  - cbn [direct_run] in E. destruct (answered s jobs) eqn:Ha; [|done].
    destruct (direct_step compress short s jobs v) as [[[jobs1 v1] m1]|] eqn:E1; [|done].
    cbn in E. destruct (direct_run compress short steps jobs1 v1) as [[[jobs2 v2] m2]|] eqn:E2; [|done].
    injection E as <- <- <-. apply Forall_app in HF as [HF1 HF2].
    destruct (step_same me s jobs v jobs1 v1 m1 c k Hh Ha E1 HF1) as (c1 & k1 & Es & Hh1 & Hp1).
    destruct (IH jobs1 v1 m2 c1 k1 Hh1 E2 HF2) as (c2 & k2 & Er & Hh2 & Hp2).
    exists c2, k2. cbn [Cm.cm_run]. rewrite Es. split; [done|]. split; [done|].
    by rewrite Hp2, Hp1, map_app, app_assoc.
Qed.

(** C3: reading through the connection manager is reading directly.  However the
    timer and the peer's answers to the digests interleave, a job that meets no
    error of the system leaves the same job and files and sends the peer the
    same messages, in the same order, whether the connection reads it (as on
    Linux) or the connection manager does and the connection passes its messages
    on (as on Windows). *)
Theorem reads_through_cm me steps j v jobs' v' msgs c k :
  is_last_job j = false → f_read_jobs c = [j] → f_fs c = v → f_tx c = [] →
  id j ∈ cm_read_job_ids k →
  direct_run compress short steps [j] v = Some (jobs', v', msgs) → Forall no_error msgs →
  ∃ c' k', cm_run me steps c k = Some (c', k') ∧ f_read_jobs c' = jobs' ∧ f_fs c' = v'
    ∧ to_peer k' = (to_peer k ++ map RawFile msgs)%list.
Proof.
  intros Hl Hj Hv Ht Hin E HF.
  destruct (run_same me steps [j] v jobs' v' msgs c k) as (c' & k' & Er & [] & Hp); try done.
  - split; try done. right. by exists j.
  - by exists c', k'.
Qed.

(** ** File commands *)

(** The id and file number a file command is answered with. *)
Definition command_of (req : FS.t) : option (Z * Z) :=
  match req with
  | FS.RemoveDir _ i _ | FS.CreateDir _ i | FS.Rename i _ _ => Some (i, 0%Z)
  | FS.RemoveFile _ i fn => Some (i, fn)
  | _ => None
  end.

(** Nothing is gone or different, and what is new is directories. *)
Definition only_directories_made (v v' : vfs) : Prop :=
  inodes v' = inodes v ∧ tree v ⊆ tree v'
  ∧ ∀ l n, tree v' !! l = Some n → tree v !! l = Some n ∨ ∃ m, n = NDir m.

Lemma made_refl v : only_directories_made v v.
Proof. split_and!; [done..|]. by left. Qed.

Lemma made_trans v1 v2 v3 : only_directories_made v1 v2 → only_directories_made v2 v3 → only_directories_made v1 v3.
Proof.
  intros (A1 & A2 & A3) (B1 & B2 & B3). split_and!; [congruence|by etrans|].
  intros l n Hn. destruct (B3 l n Hn) as [H|H]; [auto|by right].
Qed.

Lemma mkdir_made v cs v' : mkdir_cs v cs = Ok v' → only_directories_made v v'.
Proof.
  unfold mkdir_cs. destruct (lstat_cs v cs) as [|e] eqn:El; [done|]. destruct e; try done.
  destruct (last cs) as [[| | |s]|] eqn:Es; try done. intros H. apply bind_ok in H as (up & Hup & H).
  destruct (is_dir_node _) eqn:Ed; [|done]. injection H as <-.
  assert (tree v !! (up ++ [s])%list = None) as Hnew.
  { unfold lstat_cs in El. rewrite Es, Hup in El. cbn in El. destruct (node_at v up) as [[]|]; try done.
    destruct (node_at v (up ++ [s])) eqn:En; [done|]. unfold node_at in En. by destruct up. }
  split_and!; [done|by apply insert_subseteq|]. intros l n. cbn.
  intros [[_ <-]|[_ Hl]]%lookup_insert_Some; [right; by eexists|by left].
Qed.

Lemma create_dir_all_made rcs v : only_directories_made v (create_dir_all_rev v rcs).2.
Proof.
  revert v. induction rcs as [|c up IH]; intros v; cbn [create_dir_all_rev]; [apply made_refl|].
  destruct (mkdir_cs v _) as [v'|e] eqn:E; [by eapply mkdir_made|].
  destruct e; try apply made_refl. specialize (IH v). destruct (create_dir_all_rev v up) as [[[]|e] v1]; [|done].
  destruct (mkdir_cs v1 _) as [v2|e] eqn:E2; [|done]. eapply made_trans; [exact IH|]. by eapply mkdir_made.
Qed.

Lemma create_dir_made v dir : only_directories_made v (create_dir v dir).2.
Proof.
  unfold create_dir. destruct (validate_fs_path_argument _ _); [|apply made_refl].
  pose proof (create_dir_all_made (rev (components dir)) v) as H. unfold create_dir_all.
  by destruct (create_dir_all_rev v _) as [res v1].
Qed.

(** What a command leaves: one reply, which tells that it is done or an error. *)
Definition answered_with (reply : FileMessage) (i fn : Z) (c c' : Files) : Prop :=
  f_write_jobs c' = f_write_jobs c ∧ f_read_jobs c' = f_read_jobs c
  ∧ f_tx c' = (f_tx c ++ [RawMessage (RawFile reply)])%list
  ∧ (reply = MsgDone i fn ∨ ∃ e, reply = MsgError i e fn).

Definition reply_of (res : result error unit) (i fn : Z) : FileMessage :=
  match res with Ok _ => MsgDone i fn | Err e => MsgError i e fn end.

Lemma handle_result_answers res i fn v c :
  answered_with (reply_of res i fn) i fn c (handle_result res i fn (c <| f_fs := v |>)).
Proof.
  destruct res as [[]|e]; (split_and!; [done..|]); [by left|right; by eexists].
Qed.

Lemma command_answers res i fn c :
  answered_with (reply_of (res ≫= λ _, Ok tt) i fn) i fn c (command res i fn c).
Proof. apply handle_result_answers. Qed.

Lemma handle_result_fs res i fn c : f_fs (handle_result res i fn c) = f_fs c.
Proof. by destruct res. Qed.

Lemma remove_all_error fuel v path e v' :
  remove_all_empty_dir dir_order fuel v path = (Err e, v') → v' = v.
Proof. destruct fuel; simpl; [by intros [= _ <-]|]. case_match; by intros [=]. Qed.

Lemma remove_file_removes v path v' :
  remove_file v path = Ok v' →
  ∃ l n, lstat v path = Ok (l, n) ∧ is_dir_node (Some n) = false ∧ tree v' = delete l (tree v)
    ∧ inodes v' = inodes v.
Proof.
  unfold remove_file, io. intros H. apply bind_ok in H as (_ & _ & H).
  destruct (remove_file_at v path) as [v1|] eqn:E; [|done]. injection H as <-.
  unfold remove_file_at in E. apply bind_ok in E as ([l n] & Hl & E).
  exists l, n. destruct n; try done; case_match; try done; injection E as <-; done.
Qed.

(** A command that does not create leaves the files as they were when it fails. *)
Lemma command_error res i fn c e k :
  reply_of (res ≫= λ _, Ok tt) i fn = MsgError i e k → f_fs (command res i fn c) = f_fs c.
Proof. by destruct res. Qed.

(** C8: file commands are answered.  Each command to remove, create or rename is
    answered exactly once, for its id and file number, and leaves the transfer
    jobs alone; when the answer is an error, nothing in the file system has
    changed, except that a command to create may have made some of the directories on
    the way, and creating never does anything else; removing a directory, recursively
    or not, never takes a file away, and a file reported as removed was an entry that is
    not a directory, and that entry and nothing else is gone. *)
Theorem file_commands_answered req i fn c :
  command_of req = Some (i, fn) →
  ∃ c' reply, handle_fs req c = Some c' ∧ answered_with reply i fn c c'
    ∧ (∀ e k, reply = MsgError i e k → (∀ path, req ≠ FS.CreateDir path i) → f_fs c' = f_fs c)
    ∧ (∀ path, req = FS.CreateDir path i → only_directories_made (f_fs c) (f_fs c'))
    ∧ (∀ path r, req = FS.RemoveDir path i r → pruned (f_fs c) (f_fs c'))
    ∧ (∀ path, req = FS.RemoveFile path i fn → reply = MsgDone i fn →
         ∃ l n, lstat (f_fs c) path = Ok (l, n) ∧ is_dir_node (Some n) = false
           ∧ tree (f_fs c') = delete l (tree (f_fs c)) ∧ inodes (f_fs c') = inodes (f_fs c)).
Proof.
  destruct req as [| |path ? []|path ?|path ?| | | | | | | | |? path new_name| | | |];
    intros [= <- <-]; cbn [Cm.handle_fs]; unfold cm_remove_dir, cm_remove_file, cm_create_dir, cm_rename_file.
  - pose proof (remove_all_pruned dir_order (tree_depth (f_fs c)) (f_fs c) path) as Hp.
    destruct (remove_all_empty_dir dir_order (tree_depth (f_fs c)) (f_fs c) path) as [res v] eqn:E.
    eexists _, _. split; [reflexivity|]. rewrite handle_result_fs.
    split_and!; [apply handle_result_answers| |done|done|done].
    intros e k He _. destruct res; [done|]. by eapply remove_all_error.
  - eexists _, _. split; [reflexivity|]. split_and!; [apply command_answers| |done| |done].
    + intros e k He _. by eapply command_error.
    + intros ? ? _. unfold command. rewrite handle_result_fs. cbn.
      pose proof (remove_dir_pruned (f_fs c) path) as Hp. by destruct (remove_dir_at (f_fs c) path).
  - eexists _, _. split; [reflexivity|]. split_and!; [apply command_answers| |done|done|].
    + intros e k He _. by eapply command_error.
    + intros p [= <-]. unfold command. rewrite handle_result_fs. cbn.
      destruct (remove_file (f_fs c) path) as [v'|e] eqn:E; [|done].
      intros _. by apply remove_file_removes.
  - pose proof (create_dir_made (f_fs c) path) as Hm. destruct (create_dir (f_fs c) path) as [res v] eqn:E.
    eexists _, _. split; [reflexivity|]. rewrite handle_result_fs.
    split_and!; [apply handle_result_answers| |done|done|done]. intros e k _ Hno. by destruct (Hno path).
  - eexists _, _. split; [reflexivity|]. split_and!; [apply command_answers| |done..].
    intros e k He _. by eapply command_error.
Qed.

(** ** Uploads *)

Lemma with_job_last {A} i (m : J A) jobs j v :
  get_job_by_id i jobs = None → (id j =? i)%Z = true →
  with_job i m (jobs ++ [j])%list v
    = let '(r, j', v', _) := run_job m j v [] in Some (r, (jobs ++ [j'])%list, v').
Proof.
  unfold get_job_by_id. induction jobs as [|j0 jobs IH]; cbn; intros Hno Hi.
  - rewrite Hi. by destruct (run_job m j v []) as [[[r j'] v'] o].
  - destruct (id j0 =? i)%Z; [done|]. rewrite IH by done.
    by destruct (run_job m j v []) as [[[r j'] v'] o].
Qed.

Lemma find_app {A} (f : A → bool) (l k : list A) :
  List.find f (l ++ k)%list = match List.find f l with Some x => Some x | None => List.find f k end.
Proof. induction l as [|x l IH]; cbn; [done|]. by destruct (f x). Qed.

(** The files of an upload are lost: the job made for it has none, so that every
    block is refused, no digest is answered, the end is reported as a success
    with nothing written, and a peer that asks to resume stops the task. *)
Lemma upload_lost path i fn fs od total cid c :
  cm_validate_transfer_file_names windows fs = Ok tt → get_job_by_id i (f_write_jobs c) = None →
  ∃ c1, handle_fs (FS.NewWrite path i fn fs od total cid) c = Some c1 ∧ f_fs c1 = f_fs c
    ∧ (∀ n data compressed, handle_fs (FS.WriteBlock i n data compressed) c1
         = Some (send_error i (Msg "Wrong file number") n c1))
    ∧ (∀ n size modified up resume,
         handle_fs (FS.CheckDigest i n size modified up resume) c1 = Some c1)
    ∧ (∀ n, ∃ c2, handle_fs (FS.WriteDone i n) c1 = Some c2 ∧ f_fs c2 = f_fs c
         ∧ f_tx c2 = (f_tx c ++ [RawMessage (RawFile (new_done i n))])%list)
    ∧ (∀ b r o, confirm_of_bytes b = Some r → cr_id r = i → cr_file_num r = fn →
         cr_union r = Some (OffsetBlk o) → (0 < o)%Z → handle_fs (FS.SendConfirm b) c1 = None).
Proof.
  intros Hval Hno. cbn [Cm.handle_fs]. rewrite Hval. eexists. split; [reflexivity|].
  split; [done|].
  set (c1 := c <| f_write_jobs := _ |>). set (j := new_write_job path i fn od total cid).
  assert (∀ A (m : J A), with_job i m (f_write_jobs c1) (f_fs c1)
            = let '(r, j', v', _) := run_job m j (f_fs c) [] in
              Some (r, f_write_jobs c ++ [j'], v')%list) as Hwith.
  { intros A m. apply with_job_last; [done|]. cbn. apply Z.eqb_refl. }
  assert (get_job_by_id i (f_write_jobs c1) = Some j) as Hget.
  { unfold get_job_by_id in *. cbn. rewrite find_app, Hno. cbn. by rewrite Z.eqb_refl. }
  assert (∀ j n, files j = [] → entry_at j n = None) as Hent.
  { intros j' n Hf. unfold entry_at. rewrite Hf. by case_match. }
  split_and!.
  - intros n data compressed. cbn [Cm.handle_fs]. rewrite Hwith.
    unfold run_job, write, mbind, J_bind, get_job. cbn -[Z.leb].
    rewrite Z.eqb_refl. cbn -[Z.leb].
    rewrite (proj2 (Z.leb_le _ _)) by (unfold to_usize, wrap; apply Z.mod_pos_bound; lia).
    reflexivity.
  - intros n size modified up resume. cbn [Cm.handle_fs]. rewrite Hget.
    unfold check_digest. by rewrite Hent by done.
  - intros n. cbn [Cm.handle_fs]. unfold take_job. rewrite Hget.
    unfold run_job, modify_time, mbind, J_bind, get_job, get_fs. cbn -[entry_at].
    rewrite Hent by done. cbn. unfold log_job. eexists. split; [reflexivity|]. by destruct has_log.
  - intros b r o Hb Hi Hn Hu Ho. cbn [Cm.handle_fs]. rewrite Hb, Hi, Hwith.
    unfold run_job, confirm, set_stream_offset, mbind, J_bind, get_job, get_fs, modify_job.
    cbn -[entry_at Z.ltb]. rewrite Hn, Z.eqb_refl. cbn -[entry_at Z.ltb]. rewrite Hu.
    rewrite (proj2 (Z.ltb_lt _ _)) by done. cbn -[entry_at].
    by rewrite Hent by done.
Qed.
End CmSafety.

(** ** A concrete task *)

Module DemoCm.
#[local] Instance no_proto : Proto := {
  confirm_to_bytes _ := None; confirm_of_bytes _ := None;
  dir_to_bytes _ := Err "no encoding"; dir_of_bytes _ := Err "no encoding"
}.
Definition io_text (e : errno) : string := "os error".
Definition job : TransferJob := mk_job 7 Generic "" (FilePath "/s") 0 true true true demo_files 4.
Definition answer (fn : Z) (u : ConfirmUnion) : ReadStep :=
  Answer {| cr_id := 7; cr_file_num := fn; cr_union := Some u |}.
(** The first file is accepted, the second is skipped. *)
Definition steps : list ReadStep :=
  [Tick; Tick; answer 0 (OffsetBlk 0); Tick; Tick; Tick; answer 1 (Skip true); Tick; Tick].
Definition files : Files := mkFiles [] [job] demo_sender [] [].
Definition reads : CmReads := mkCmReads {[7%Z]} [].
Definition messages : list FileMessage :=
  match direct_run demo_compress demo_short steps [job] demo_sender with
  | Some (_, _, m) => m
  | None => []
  end.
End DemoCm.

Lemma reads_through_cm_witness :
  length DemoCm.messages = 5%nat
  ∧ ∃ c' k',
      cm_run demo_compress demo_compress (λ _, []) (λ _, None) (λ v _ _, v) demo_short (λ l, l)
        (P := DemoCm.no_proto) DemoCm.io_text false empty_globals "/h" true 3 DemoCm.steps
        DemoCm.files DemoCm.reads = Some (c', k')
      ∧ f_read_jobs c' = [] ∧ to_peer k' = map RawFile DemoCm.messages.
Proof.
  split; [vm_compute; reflexivity|].
  destruct (reads_through_cm demo_compress demo_compress (λ _, []) (λ _, None) (λ v _ _, v)
              demo_short (λ l, l) (P := DemoCm.no_proto) DemoCm.io_text false empty_globals "/h" true 3
              DemoCm.steps DemoCm.job demo_sender [] demo_sender DemoCm.messages
              DemoCm.files DemoCm.reads) as (c' & k' & E & H1 & _ & H2).
  - reflexivity.
  - reflexivity.
  - reflexivity.
  - reflexivity.
  - reflexivity.
  - vm_compute. reflexivity.
  - vm_compute. repeat constructor.
  - exists c', k'. split; [exact E|]. split; [exact H1|]. exact H2.
Defined.

Lemma file_commands_answered_witness :
  ∃ c' reply,
    handle_fs (λ l, l) (λ _, []) (λ _, None) (λ v _ _, v) (λ l, l) (P := DemoCm.no_proto) DemoCm.io_text false
      empty_globals "/h" true (FS.RemoveFile "/s/a.txt" 9 2) DemoCm.files = Some c'
    ∧ answered_with reply 9 2 DemoCm.files c' ∧ reply = MsgDone 9 2.
Proof.
  destruct (file_commands_answered (λ l, l) (λ _, []) (λ _, None) (λ v _ _, v) (λ l, l)
              (P := DemoCm.no_proto) DemoCm.io_text false empty_globals "/h" true
              (FS.RemoveFile "/s/a.txt" 9 2) 9 2 DemoCm.files) as (c' & reply & E & H & _).
  - reflexivity.
  - exists c', reply. split; [exact E|]. split; [exact H|].
    destruct H as (_ & _ & Htx & _). vm_compute in E. injection E as <-.
    vm_compute in Htx. injection Htx as <-. reflexivity.
Defined.
