(* ===== verification/CmClients.v ===== *)
(** * The connections a user sees

    [src/ui_cm_interface.rs]: [CLIENTS], the connections the window of the
    connection manager shows; the operations of the window on them; and
    [IpcTaskRunner], the task that serves one connection: it registers the
    connection when the host announces it, serves its file requests ([Cm]),
    passes the user's decisions back and marks or removes the entry when it ends.
    A client's [tx] is the key of the task that holds the other end of the
    channel; what the task sent to the host is its [t_stream].  A task whose handling of
    files panics is gone without unregistering its connection.  The platform is
    Linux or macOS. *)

From S2P Require Import Prelude Strs Vfs Fs Transfer Options Cm.
From Stdlib Require Import Ascii String.

Local Open Scope string_scope.
#[local] Abbreviation length := Datatypes.length.
#[local] Arguments String.append _ _ : simpl nomatch.

(** ** State *)

Record Client := mkClient {
  cl_id : Z; cl_authorized : bool; cl_disconnected : bool;
  cl_is_file_transfer : bool; cl_is_view_camera : bool; cl_is_terminal : bool;
  cl_port_forward : string; cl_name : string; cl_avatar : string; cl_peer_id : string;
  cl_keyboard : bool; cl_clipboard : bool; cl_audio : bool; cl_file : bool; cl_restart : bool;
  cl_recording : bool; cl_block_input : bool; cl_from_switch : bool;
  cl_in_voice_call : bool; cl_incoming_voice_call : bool; cl_tx : nat
}.
#[global] Instance eta_Client : Settable Client := λ c,
  mkClient (cl_id c) (cl_authorized c) (cl_disconnected c) (cl_is_file_transfer c)
    (cl_is_view_camera c) (cl_is_terminal c) (cl_port_forward c) (cl_name c) (cl_avatar c)
    (cl_peer_id c) (cl_keyboard c) (cl_clipboard c) (cl_audio c) (cl_file c) (cl_restart c)
    (cl_recording c) (cl_block_input c) (cl_from_switch c) (cl_in_voice_call c)
    (cl_incoming_voice_call c) (cl_tx c).

(** What a connection sends to the connection manager, of [ipc::Data]. *)
Inductive ToCm :=
| TLogin (id : Z) (is_file_transfer is_view_camera is_terminal : bool)
         (port_forward peer_id name avatar : string) (authorized : bool)
         (keyboard clipboard audio file restart recording block_input from_switch : bool)
| TClose
| TDisconnected
| TClickTime (ms : Z)
| TChatMessage (text : string)
| TFS (fs : FS.t)
| TFileTransferLog (action log : string)
| TTheme (dark : string)
| TLanguage (lang : string)
| TShowElevation (show : bool)
| TStartVoiceCall
| TVoiceCallIncoming
| TCloseVoiceCall (reason : string).

(** [InvokeUiCM]. *)
Inductive UiEvent :=
| UiAddConnection (client : Client)
| UiRemoveConnection (id : Z) (close : bool)
| UiNewMessage (id : Z) (text : string)
| UiChangeTheme (dark : string)
| UiChangeLanguage
| UiShowElevation (show : bool)
| UiUpdateVoiceCallState (client : Client)
| UiFileTransferLog (action log : string)
| UiTransferLogs (jobs : list TransferJob).        (* serialize_transfer_jobs *)

Record Task := mkTask {
  t_close : bool;
  t_running : bool;
  t_conn_id : Z;
  t_files : Files;                                  (* its jobs; [f_tx] is its channel *)
  t_stream : list Data                              (* sent to the host *)
}.
#[global] Instance eta_Task : Settable Task := λ t,
  mkTask (t_close t) (t_running t) (t_conn_id t) (t_files t) (t_stream t).

Record Manager := mkManager {
  CLIENTS : gmap Z Client;
  CLICK_TIME : Z;
  lang : string;                                    (* LocalConfig, option "lang" *)
  tasks : gmap nat Task;
  ui : list UiEvent
}.
#[global] Instance eta_Manager : Settable Manager := λ m,
  mkManager (CLIENTS m) (CLICK_TIME m) (lang m) (tasks m) (ui m).

Definition notify (e : UiEvent) (m : Manager) : Manager := m <| ui := (ui m ++ [e])%list |>.

(** ** [ConnectionManager] *)

Definition add_connection (client : Client) (m : Manager) : Manager :=
  let kept := filter (λ ic, negb (cl_disconnected ic.2
                                  && String.eqb (cl_peer_id ic.2) (cl_peer_id client))) (CLIENTS m) in
  notify (UiAddConnection client) (m <| CLIENTS := <[cl_id client := client]> kept |>).

Definition remove_connection (id : Z) (close : bool) (m : Manager) : Manager :=
  let clients := if close then delete id (CLIENTS m)
                 else alter (λ c, c <| cl_disconnected := true |>) id (CLIENTS m) in
  notify (UiRemoveConnection id close) (m <| CLIENTS := clients |>).

Definition set_voice_call (incoming in_call : bool) (id : Z) (m : Manager) : Manager :=
  match CLIENTS m !! id with
  | Some c =>
      let c := c <| cl_incoming_voice_call := incoming |> <| cl_in_voice_call := in_call |> in
      notify (UiUpdateVoiceCallState c) (m <| CLIENTS := <[id := c]> (CLIENTS m) |>)
  | None => m
  end.
Definition voice_call_started := set_voice_call false true.
Definition voice_call_incoming := set_voice_call true false.
Definition voice_call_closed := set_voice_call false false.

(** ** The window's operations *)

(** [client.tx.send(d)]: into the channel of the client's task, if it runs. *)
Definition send_to (d : Data) (id : Z) (m : Manager) : Manager :=
  match CLIENTS m !! id with
  | Some c => m <| tasks := alter (λ t, t <| t_files := tx d (t_files t) |>) (cl_tx c) (tasks m) |>
  | None => m
  end.

Definition check_click_time : Z → Manager → Manager := send_to (ClickTime 0).
Definition get_click_time (m : Manager) : Z := CLICK_TIME m.
Definition authorize (id : Z) (m : Manager) : Manager :=
  send_to Authorize id (m <| CLIENTS := alter (λ c, c <| cl_authorized := true |>) id (CLIENTS m) |>).
Definition close : Z → Manager → Manager := send_to Close.
Definition remove (id : Z) (m : Manager) : Manager := m <| CLIENTS := delete id (CLIENTS m) |>.
Definition send_chat (id : Z) (text : string) : Manager → Manager := send_to (ChatMessage text) id.
Definition switch_permission (id : Z) (name : string) (enabled : bool) : Manager → Manager :=
  send_to (SwitchPermission name enabled) id.
Definition get_clients_length (m : Manager) : nat := base.size (CLIENTS m).
Definition switch_back : Z → Manager → Manager := send_to SwitchSidesBack.
Definition handle_incoming_voice_call (id : Z) (accept : bool) : Manager → Manager :=
  send_to (VoiceCallResponse accept) id.
Definition close_voice_call : Z → Manager → Manager := send_to (CloseVoiceCall "").

(** ** The task of a connection *)

Section Task.
Context (handle_fs : FS.t → Files → option Files).
Context (handle_read_jobs_tick : list TransferJob → vfs → Z → list TransferJob * vfs * list Data).

Inductive TaskEvent :=
| StreamData (d : ToCm)
| StreamErr
| Rx                                                (* the next message of the channel *)
| FileTimer.

(** One round of the loop of [run]; [true]: it breaks.  [None]: a panic. *)
Definition on_stream_data (k : nat) (d : ToCm) (t : Task) (m : Manager) : option (bool * Task * Manager) :=
  match d with
  | TLogin id ft vc term port_forward peer_id name avatar authorized keyboard clipboard audio file
           restart recording block_input from_switch =>
      let client := mkClient id authorized false ft vc term port_forward name avatar peer_id keyboard
                      clipboard audio file restart recording block_input from_switch false false k in
      Some (true, t <| t_conn_id := id |> <| t_running := true |>, add_connection client m)
  | TClose => Some (true, t, m)
  | TDisconnected => Some (true, t <| t_close := false |>, m)
  | TClickTime ms => Some (false, t, m <| CLICK_TIME := ms |>)
  | TChatMessage text => Some (false, t, notify (UiNewMessage (t_conn_id t) text) m)
  | TFS fs =>
      match handle_fs fs (t_files t) with
      | Some f => Some (false, t <| t_files := f |>, notify (UiTransferLogs (f_write_jobs f)) m)
      | None => None
      end
  | TFileTransferLog action log => Some (false, t, notify (UiFileTransferLog action log) m)
  | TTheme dark => Some (false, t, notify (UiChangeTheme dark) m)
  | TLanguage l => Some (false, t, notify UiChangeLanguage (m <| lang := l |>))
  | TShowElevation show => Some (false, t, notify (UiShowElevation show) m)
  | TStartVoiceCall => Some (false, t, voice_call_started (t_conn_id t) m)
  | TVoiceCallIncoming => Some (false, t, voice_call_incoming (t_conn_id t) m)
  | TCloseVoiceCall _ => Some (false, t, voice_call_closed (t_conn_id t) m)
  end.

Definition on_rx (t : Task) : bool * Task :=
  match f_tx (t_files t) with
  | [] => (false, t)
  | d :: rest =>
      let t := t <| t_files := t_files t <| f_tx := rest |> |>
                 <| t_stream := (t_stream t ++ [d])%list |> in
      match d with
      | Authorize => (true, t <| t_running := true |>)
      | _ => (false, t)
      end
  end.

Definition on_file_timer (t : Task) (m : Manager) : Task * Manager :=
  let f := t_files t in
  if bool_decide (f_read_jobs f = []) then (t, m) else
  let '(jobs, v, out) := handle_read_jobs_tick (f_read_jobs f) (f_fs f) (t_conn_id t) in
  (t <| t_files := f <| f_read_jobs := jobs |> <| f_fs := v |> <| f_tx := (f_tx f ++ out)%list |> |>,
   notify (UiTransferLogs jobs) m).

Definition on_event (k : nat) (e : TaskEvent) (t : Task) (m : Manager) : option (bool * Task * Manager) :=
  match e with
  | StreamData d => on_stream_data k d t m
  | StreamErr => Some (true, t, m)
  | Rx => let '(b, t) := on_rx t in Some (b, t, m)
  | FileTimer => let '(t, m) := on_file_timer t m in Some (false, t, m)
  end.

(** The start of [run]: its own [write_jobs], and [running] down. *)
Definition start_run (t : Task) : Task :=
  t <| t_running := false |> <| t_files := t_files t <| f_write_jobs := [] |> |>.

(** [ipc_task]: the runner before its first [run]. *)
Definition new_task (v : vfs) : Task := start_run (mkTask true true 0 (mkFiles [] [] v [] []) []).

(** [ipc_task] after an event: run again after a break while [running], or end. *)
Definition task_step (k : nat) (e : TaskEvent) (m : Manager) : Manager :=
  match tasks m !! k with
  | None => m
  | Some t =>
      match on_event k e t m with
      | Some (false, t, m) => m <| tasks := <[k := t]> (tasks m) |>
      | Some (true, t, m) =>
          if t_running t then m <| tasks := <[k := start_run t]> (tasks m) |>
          else
            let m := m <| tasks := delete k (tasks m) |> in
            if (0 <? t_conn_id t)%Z then remove_connection (t_conn_id t) (t_close t) m else m
      | None => m <| tasks := delete k (tasks m) |>       (* the task is gone *)
      end
  end.

(** ** The connection manager as a whole *)

Inductive Step :=
| Accept (k : nat) (v : vfs)
| TaskStep (k : nat) (e : TaskEvent)
| UiCheckClick (id : Z) | UiAuthorize (id : Z) | UiClose (id : Z) | UiRemove (id : Z)
| UiChat (id : Z) (text : string) | UiSwitchPermission (id : Z) (name : string) (enabled : bool)
| UiSwitchBack (id : Z) | UiVoiceCall (id : Z) (accept : bool) | UiCloseVoiceCall (id : Z).

Definition step (s : Step) (m : Manager) : Manager :=
  match s with
  | Accept k v => m <| tasks := <[k := new_task v]> (tasks m) |>
  | TaskStep k e => task_step k e m
  | UiCheckClick id => check_click_time id m
  | UiAuthorize id => authorize id m
  | UiClose id => close id m
  | UiRemove id => remove id m
  | UiChat id text => send_chat id text m
  | UiSwitchPermission id name enabled => switch_permission id name enabled m
  | UiSwitchBack id => switch_back id m
  | UiVoiceCall id accept => handle_incoming_voice_call id accept m
  | UiCloseVoiceCall id => close_voice_call id m
  end.

(** What the host and the window keep to: a task is new; the host announces a
    connection on its own channel, under an id that is its own and positive;
    the window removes only entries shown as disconnected. *)
Definition announces (m : Manager) (k : nat) (id : Z) : Prop :=
  (0 < id)%Z ∧ (∀ c, CLIENTS m !! id = Some c → cl_tx c = k)
  ∧ ∀ t, tasks m !! k = Some t → t_conn_id t = 0%Z ∨ t_conn_id t = id.

Definition allowed (s : Step) (m : Manager) : Prop :=
  match s with
  | Accept k _ => tasks m !! k = None ∧ ∀ id c, CLIENTS m !! id = Some c → cl_tx c ≠ k
  | TaskStep k (StreamData (TLogin id _ _ _ _ _ _ _ _ _ _ _ _ _ _ _ _)) => announces m k id
  | UiRemove id => ∀ c, CLIENTS m !! id = Some c → cl_disconnected c = true
  | _ => True
  end.

(** The task that panics in a step, if one does. *)
Definition panics (s : Step) (m : Manager) : gset nat :=
  match s with
  | TaskStep k e =>
      match tasks m !! k with
      | Some t => match on_event k e t m with Some _ => ∅ | None => {[k]} end
      | None => ∅
      end
  | _ => ∅
  end.

(** The managers there can be, with the tasks that have panicked. *)
Inductive reachable : gset nat → Manager → Prop :=
| reach_start lang : reachable ∅ (mkManager ∅ 0 lang ∅ [])
| reach_step s dead m :
    reachable dead m → allowed s m → (∀ k v, s = Accept k v → k ∉ dead) →
    reachable (dead ∪ panics s m) (step s m).

Fixpoint allowed_run (h : list Step) (dead : gset nat) (m : Manager) : Prop :=
  match h with
  | [] => True
  | s :: h => allowed s m ∧ (∀ k v, s = Accept k v → k ∉ dead) ∧ allowed_run h (dead ∪ panics s m) (step s m)
  end.
Fixpoint dead_after (h : list Step) (dead : gset nat) (m : Manager) : gset nat :=
  match h with [] => dead | s :: h => dead_after h (dead ∪ panics s m) (step s m) end.

Lemma reachable_run h dead m :
  reachable dead m → allowed_run h dead m → reachable (dead_after h dead m) (foldl (λ m s, step s m) m h).
Proof.
  revert dead m. induction h as [|s h IH]; intros dead m R H; [done|]. destruct H as (Ha & Hk & H).
  by apply IH; [apply reach_step|].
Qed.

(** ** The window shows the connections there are *)

(** A live entry belongs to a running task of that connection, or to one that has
    panicked, and a running task has an entry. *)
Record shows (dead : gset nat) (m : Manager) : Prop := {
  shows_dead : ∀ k, k ∈ dead → tasks m !! k = None;
  shows_task : ∀ id c, CLIENTS m !! id = Some c → cl_disconnected c = false → cl_tx c ∉ dead →
    ∃ t, tasks m !! cl_tx c = Some t ∧ t_conn_id t = id ∧ (0 < id)%Z;
  shows_client : ∀ k t, tasks m !! k = Some t → t_conn_id t ≠ 0%Z →
    ∃ c, CLIENTS m !! t_conn_id t = Some c ∧ cl_disconnected c = false ∧ cl_tx c = k;
  shows_key : ∀ id c, CLIENTS m !! id = Some c → cl_id c = id
}.

(** [shows] only looks at these parts. *)
Definition entry (c : Client) : Z * bool * nat := (cl_id c, cl_disconnected c, cl_tx c).
Definition same_view (m m' : Manager) : Prop :=
  entry <$> CLIENTS m' = entry <$> CLIENTS m ∧ t_conn_id <$> tasks m' = t_conn_id <$> tasks m.

Lemma view_client m m' id c :
  entry <$> CLIENTS m' = entry <$> CLIENTS m → CLIENTS m !! id = Some c →
  ∃ c', CLIENTS m' !! id = Some c' ∧ entry c' = entry c.
Proof.
  intros E H. assert ((entry <$> CLIENTS m') !! id = Some (entry c)) as H'
    by (by rewrite E, lookup_fmap, H).
  rewrite lookup_fmap in H'. destruct (CLIENTS m' !! id) as [c'|]; [|done].
  exists c'. split; [done|]. by apply (inj Some) in H'.
Qed.

Lemma view_task m m' k t :
  t_conn_id <$> tasks m' = t_conn_id <$> tasks m → tasks m !! k = Some t →
  ∃ t', tasks m' !! k = Some t' ∧ t_conn_id t' = t_conn_id t.
Proof.
  intros E H. assert ((t_conn_id <$> tasks m') !! k = Some (t_conn_id t)) as H'
    by (by rewrite E, lookup_fmap, H).
  rewrite lookup_fmap in H'. destruct (tasks m' !! k) as [t'|]; [|done].
  exists t'. split; [done|]. by apply (inj Some) in H'.
Qed.

Lemma shows_view dead m m' : same_view m m' → shows dead m → shows dead m'.
Proof.
  intros [EC ET] [Sd St Sc Sk]. split.
  - intros k Hk. destruct (tasks m' !! k) as [t|] eqn:E; [|done].
    destruct (view_task m' m k t (eq_sym ET) E) as (t0 & H0 & _). by rewrite Sd in H0.
  - intros id c H Hd Hn. destruct (view_client m' m id c (eq_sym EC) H) as (c0 & H0 & [= E1 E2 E3]).
    destruct (St id c0 H0) as (t & Ht & Hid & Hp); [congruence..|].
    destruct (view_task m m' _ t ET Ht) as (t' & Ht' & Hi). exists t'.
    split_and!; [by rewrite <- E3|congruence|done].
  - intros k t H Hn. destruct (view_task m' m k t (eq_sym ET) H) as (t0 & H0 & Hi).
    destruct (Sc k t0 H0) as (c & Hc & Hd & Hk); [congruence|].
    destruct (view_client m m' _ c EC Hc) as (c' & Hc' & [= E1 E2 E3]). exists c'.
    split_and!; [congruence..].
  - intros id c H. destruct (view_client m' m id c (eq_sym EC) H) as (c0 & H0 & [= E1 E2 E3]).
    rewrite <- E1. by apply Sk.
Qed.

Lemma view_alter (f : Client → Client) id m :
  (∀ c, entry (f c) = entry c) → same_view m (m <| CLIENTS := alter f id (CLIENTS m) |>).
Proof.
  intros Hf. split; [|done]. apply map_eq. intros i. rewrite !lookup_fmap. cbn.
  destruct (decide (i = id)) as [->|Hne].
  - rewrite lookup_alter_eq. destruct (CLIENTS m !! id); [|done]. cbn. by rewrite Hf.
  - by rewrite lookup_alter_ne.
Qed.

Lemma view_send_to d id m : same_view m (send_to d id m).
Proof.
  unfold send_to. destruct (CLIENTS m !! id) as [c|]; [|done]. split; [done|].
  apply map_eq. intros i. rewrite !lookup_fmap. cbn.
  destruct (decide (i = cl_tx c)) as [->|Hne].
  - rewrite lookup_alter_eq. by destruct (tasks m !! cl_tx c).
  - by rewrite lookup_alter_ne.
Qed.

Lemma view_trans m1 m2 m3 : same_view m1 m2 → same_view m2 m3 → same_view m1 m3.
Proof. intros [A B] [A' B']. split; congruence. Qed.

Lemma view_voice a b id m : same_view m (set_voice_call a b id m).
Proof.
  unfold set_voice_call. destruct (CLIENTS m !! id) as [c|] eqn:E; [|done]. split; [|done].
  apply map_eq. intros i. cbn. rewrite !lookup_fmap.
  destruct (decide (i = id)) as [->|Hne]; [by rewrite lookup_insert_eq, E|by rewrite lookup_insert_ne].
Qed.

(** A task put back under its key with the same connection. *)
Lemma view_task_put m m1 k t t' :
  same_view m m1 → tasks m1 = tasks m → tasks m !! k = Some t → t_conn_id t' = t_conn_id t →
  same_view m (m1 <| tasks := <[k := t']> (tasks m1) |>).
Proof.
  intros [EC _] ET Hk Hi. split; [done|]. cbn. rewrite ET. apply map_eq. intros i.
  rewrite !lookup_fmap. destruct (decide (i = k)) as [->|Hne].
  - rewrite lookup_insert_eq, Hk. cbn. by rewrite Hi.
  - by rewrite lookup_insert_ne.
Qed.

Definition is_login (e : TaskEvent) : bool :=
  match e with StreamData (TLogin _ _ _ _ _ _ _ _ _ _ _ _ _ _ _ _ _) => true | _ => false end.

(** Every event but the announcement of a connection keeps the view. *)
Lemma on_event_view k e t m b t' m' :
  is_login e = false → on_event k e t m = Some (b, t', m') →
  same_view m m' ∧ tasks m' = tasks m ∧ t_conn_id t' = t_conn_id t.
Proof.
  intros Hl E. destruct e as [d| | |].
  - destruct d; try done; cbn in E; try (by injection E as <- <- <-).
    + destruct (handle_fs fs (t_files t)); [|done]. by injection E as <- <- <-.
    + injection E as <- <- <-. split_and!; [apply view_voice| |done].
      unfold voice_call_started, set_voice_call. by case_match.
    + injection E as <- <- <-. split_and!; [apply view_voice| |done].
      unfold voice_call_incoming, set_voice_call. by case_match.
    + injection E as <- <- <-. split_and!; [apply view_voice| |done].
      unfold voice_call_closed, set_voice_call. by case_match.
  - by injection E as <- <- <-.
  - cbn in E. destruct (on_rx t) as [b1 t1] eqn:E1. injection E as <- <- <-.
    split_and!; [done|done|]. unfold on_rx in E1.
    destruct (f_tx (t_files t)) as [|d rest]; [by injection E1 as <- <-|].
    by destruct d; injection E1 as <- <-.
  - cbn in E. destruct (on_file_timer t m) as [t1 m1] eqn:E1. injection E as <- <- <-.
    unfold on_file_timer in E1. case_bool_decide; [by injection E1 as <- <-|].
    destruct (handle_read_jobs_tick _ _ _) as [[jobs v] out]. by injection E1 as <- <-.
Qed.

Lemma shows_accept dead k v m :
  tasks m !! k = None → k ∉ dead → (∀ id c, CLIENTS m !! id = Some c → cl_tx c ≠ k) → shows dead m →
  shows dead (m <| tasks := <[k := new_task v]> (tasks m) |>).
Proof.
  intros Hk Hkd Hfresh [Sd St Sc Sk]. split; cbn; [| | |done].
  - intros k' Hk'. rewrite lookup_insert_ne by (by intros ->). by apply Sd.
  - intros id c H Hd Hn. destruct (St id c H Hd Hn) as (t & Ht & Hi). exists t.
    rewrite lookup_insert_ne by (by apply not_eq_sym, (Hfresh id)). done.
  - intros k' t H Hn. destruct (decide (k' = k)) as [->|Hne].
    + rewrite lookup_insert_eq in H. by injection H as <-.
    + rewrite lookup_insert_ne in H by done. by apply Sc.
Qed.

Lemma shows_login dead m k t client :
  shows dead m → tasks m !! k = Some t → announces m k (cl_id client) → cl_tx client = k →
  cl_disconnected client = false → t_conn_id t = 0%Z ∨ t_conn_id t = cl_id client →
  ∀ t', t_conn_id t' = cl_id client →
  shows dead (add_connection client m <| tasks := <[k := t']> (tasks m) |>).
Proof.
  intros [Sd St Sc Sk] Hk (Hpos & Hown & _) Htx Hlive Hid t' Hid'. split; cbn.
  - intros k' Hk'. rewrite lookup_insert_ne; [by apply Sd|]. intros ->. by rewrite Sd in Hk.
  - intros id c H Hd Hn. destruct (decide (id = cl_id client)) as [->|Hne].
    + rewrite lookup_insert_eq in H. injection H as <-. exists t'. by rewrite Htx, lookup_insert_eq.
    + rewrite lookup_insert_ne in H by done. apply map_lookup_filter_Some in H as [H _].
      destruct (St id c H Hd Hn) as (t0 & Ht0 & Hi & Hp). exists t0. split; [|done].
      rewrite lookup_insert_ne; [done|]. intros E. rewrite <- E, Hk in Ht0. injection Ht0 as <-. lia.
  - intros k' t0 H Hn. destruct (decide (k' = k)) as [->|Hne].
    + rewrite lookup_insert_eq in H. injection H as <-. exists client.
      by rewrite Hid', lookup_insert_eq.
    + rewrite lookup_insert_ne in H by done. destruct (Sc k' t0 H Hn) as (c & Hc & Hd & Ht).
      exists c. rewrite lookup_insert_ne.
      * split; [|done]. apply map_lookup_filter_Some. split; [done|]. cbn. by rewrite Hd.
      * intros E. rewrite <- E in Hc. rewrite (Hown c Hc) in Ht. congruence.
  - intros id c H. destruct (decide (id = cl_id client)) as [->|Hne].
    + rewrite lookup_insert_eq in H. by injection H as <-.
    + rewrite lookup_insert_ne in H by done. apply map_lookup_filter_Some in H as [H _]. by apply Sk.
Qed.

(** A task that panics is gone, and its entry stays. *)
Lemma shows_panic dead m k : shows dead m → shows (dead ∪ {[k]}) (m <| tasks := delete k (tasks m) |>).
Proof.
  intros [Sd St Sc Sk]. split; cbn; [| | |done].
  - intros k' Hk'. destruct (decide (k' = k)) as [->|Hne]; [apply lookup_delete_eq|].
    rewrite lookup_delete_ne by done. apply Sd. set_solver.
  - intros id c H Hd Hn. destruct (St id c H Hd ltac:(set_solver)) as (t & Ht & Hi). exists t.
    rewrite lookup_delete_ne by set_solver. done.
  - intros k' t H Hn. apply lookup_delete_Some in H as [_ H]. by apply Sc.
Qed.

Lemma shows_end dead m k t b :
  shows dead m → tasks m !! k = Some t →
  let m' := m <| tasks := delete k (tasks m) |> in
  shows dead (if (0 <? t_conn_id t)%Z then remove_connection (t_conn_id t) b m' else m').
Proof.
  intros [Sd St Sc Sk] Hk m'.
  assert (∀ k', k' ∈ dead → delete k (tasks m) !! k' = None) as Hdead.
  { intros k' Hk'. apply lookup_delete_None. right. by apply Sd. }
  assert (∀ id c t0, CLIENTS m !! id = Some c → tasks m !! cl_tx c = Some t0 → t_conn_id t0 = id →
            id ≠ t_conn_id t → delete k (tasks m) !! cl_tx c = Some t0) as Hother.
  { intros id c t0 H Ht Hi Hne. rewrite lookup_delete_ne; [done|]. intros ->. congruence. }
  assert (∀ k' t0, delete k (tasks m) !! k' = Some t0 → k' ≠ k ∧ tasks m !! k' = Some t0) as Hdel.
  { intros k' t0. rewrite lookup_delete_Some. naive_solver. }
  destruct (Z.ltb_spec 0 (t_conn_id t)) as [Hp|Hp].
  - destruct (Sc k t Hk) as (c0 & Hc0 & Hd0 & Ht0); [lia|]. unfold remove_connection. split; cbn.
    + done.
    + intros id c H Hd Hn. assert (id ≠ t_conn_id t ∧ CLIENTS m !! id = Some c) as [Hne H'].
      { destruct b; [apply lookup_delete_Some in H; naive_solver|].
        destruct (decide (id = t_conn_id t)) as [->|Hne]; [|by rewrite lookup_alter_ne in H].
        rewrite lookup_alter_eq, Hc0 in H. injection H as <-. done. }
      destruct (St id c H' Hd Hn) as (t1 & Ht1 & Hi & Hpos). exists t1. split; [by apply (Hother id)|done].
    + intros k' t1 H Hn. apply Hdel in H as [Hne H]. destruct (Sc k' t1 H Hn) as (c & Hc & Hd & Ht).
      exists c. assert (t_conn_id t1 ≠ t_conn_id t) as Hni by congruence.
      destruct b; [by rewrite lookup_delete_ne|by rewrite lookup_alter_ne].
    + intros id c H. destruct b.
      * apply lookup_delete_Some in H as [_ H]. by apply Sk.
      * apply lookup_alter_Some in H as [(<- & c1 & H & ->)|[_ H]]; by apply Sk in H.
  - split; cbn; [done| | |done].
    + intros id c H Hd Hn. destruct (St id c H Hd Hn) as (t1 & Ht1 & Hi & Hpos). exists t1.
      split; [apply (Hother id c t1); [done..|lia]|done].
    + intros k' t1 H Hn. apply Hdel in H as [Hne H]. by apply Sc.
Qed.

Lemma shows_more dead m : shows dead m → shows (dead ∪ ∅) m.
Proof. by rewrite (right_id_L ∅ (∪)). Qed.

Lemma task_step_shows dead k e m :
  shows dead m → allowed (TaskStep k e) m → shows (dead ∪ panics (TaskStep k e) m) (task_step k e m).
Proof.
  intros Hs Ha. cbn [panics]. unfold task_step. destruct (tasks m !! k) as [t|] eqn:Hk; [|by apply shows_more].
  destruct (is_login e) eqn:Hl.
  - destruct e as [d| | |]; try done. destruct d; try done.
    cbn [allowed] in Ha. cbn [on_event on_stream_data t_running]. apply shows_more.
    apply (shows_login dead m k t (mkClient id authorized false is_file_transfer is_view_camera is_terminal
      port_forward name avatar peer_id keyboard clipboard audio file restart recording block_input
      from_switch false false k) Hs Hk Ha eq_refl eq_refl (proj2 (proj2 Ha) t Hk)). done.
  - destruct (on_event k e t m) as [[[b t'] m']|] eqn:E; [apply shows_more|by apply shows_panic].
    destruct (on_event_view k e t m b t' m' Hl E) as (Hv & ET & Hi).
    destruct b; [destruct (t_running t')|].
    + eapply shows_view; [|exact Hs]. by eapply view_task_put.
    + rewrite Hi. rewrite <- ET in Hk. apply (shows_view _ _ _ Hv) in Hs.
      by apply (shows_end dead m' k t).
    + eapply shows_view; [|exact Hs]. by eapply view_task_put.
Qed.

Lemma step_shows dead s m : shows dead m → allowed s m → (∀ k v, s = Accept k v → k ∉ dead) →
  shows (dead ∪ panics s m) (step s m).
Proof.
  intros Hs Ha Hk. destruct s; cbn [step]; try (apply shows_more; eapply shows_view; [apply view_send_to|exact Hs]).
  - destruct Ha. apply shows_more, shows_accept; try done. by eapply Hk.
  - by apply task_step_shows.
  - apply shows_more. eapply shows_view; [|exact Hs]. eapply view_trans; [|apply view_send_to]. by apply view_alter.
  - apply shows_more. destruct Hs as [Sd St Sc Sk]. unfold remove. split; cbn; [done|..].
    + intros i c H Hd Hn. apply lookup_delete_Some in H as [_ H]. by apply St.
    + intros k t H Hn. destruct (Sc k t H Hn) as (c & Hc & Hd & Ht). exists c.
      rewrite lookup_delete_ne; [done|]. intros ->. rewrite (Ha c Hc) in Hd. done.
    + intros i c H. apply lookup_delete_Some in H as [_ H]. by apply Sk.
Qed.

(** C5: the window shows the connections there are.  Whatever the host sends and the
    user clicks, in whatever order tasks end or panic, as long as a task is new, the
    host announces a connection on its own channel under a positive id that no other
    connection has, and the window removes only entries shown as disconnected: an entry
    that is not marked as disconnected belongs to a running task of exactly that
    connection, unless that task has panicked (which a command about files can make it
    do); every announced connection whose task runs has such an entry; what the user
    decides about an entry (to accept, to close, a permission, a chat message) goes to
    the channel of the task of that connection and changes no other task; and about an
    entry whose task has panicked it goes nowhere. *)
Theorem window_reflects_connections dead m :
  reachable dead m →
  shows dead m ∧ ∀ id c d, CLIENTS m !! id = Some c → cl_disconnected c = false →
    CLIENTS (send_to d id m) = CLIENTS m
    ∧ if bool_decide (cl_tx c ∈ dead) then tasks (send_to d id m) = tasks m
      else ∃ t, tasks m !! cl_tx c = Some t ∧ t_conn_id t = id
             ∧ tasks (send_to d id m) = <[cl_tx c := t <| t_files := tx d (t_files t) |>]> (tasks m).
Proof.
  intros R. assert (shows dead m) as Hs.
  { induction R; [by split|by apply step_shows]. }
  split; [done|]. intros id c d H Hd. split; [by unfold send_to; rewrite H|]. case_bool_decide as Hdead.
  { unfold send_to. rewrite H. cbn. apply alter_id. intros t Ht. by rewrite (shows_dead _ _ Hs) in Ht. }
  destruct (shows_task _ _ Hs id c H Hd Hdead) as (t & Ht & Hi & _).
  exists t. split; [done|]. split; [done|]. unfold send_to. rewrite H. cbn.
  apply map_eq. intros k. destruct (decide (k = cl_tx c)) as [->|Hne].
  - by rewrite lookup_alter_eq, lookup_insert_eq, Ht.
  - by rewrite lookup_alter_ne, lookup_insert_ne.
Qed.

(** The entry of a task that panics stays, and is not marked as disconnected. *)
Lemma panicked_entry_stays k fs t m :
  tasks m !! k = Some t → handle_fs fs (t_files t) = None →
  CLIENTS (step (TaskStep k (StreamData (TFS fs))) m) = CLIENTS m
  ∧ tasks (step (TaskStep k (StreamData (TFS fs))) m) = delete k (tasks m).
Proof. intros Hk Hf. cbn [step]. unfold task_step. rewrite Hk. cbn [on_event on_stream_data]. by rewrite Hf. Qed.

(** Accepting a connection: the task passes [Authorize] on to the host and serves
    on, and the entry is shown as authorised. *)
Lemma accept_reaches_host dead m id c :
  shows dead m → cl_tx c ∉ dead → CLIENTS m !! id = Some c → cl_disconnected c = false →
  (∀ t, tasks m !! cl_tx c = Some t → f_tx (t_files t) = []) →
  ∃ t', tasks (task_step (cl_tx c) Rx (authorize id m)) !! cl_tx c = Some t'
    ∧ last (t_stream t') = Some Authorize ∧ t_conn_id t' = id
    ∧ cl_authorized <$> CLIENTS (authorize id m) !! id = Some true.
Proof.
  intros Hs Hn H Hd Hq. destruct (shows_task _ _ Hs id c H Hd Hn) as (t & Ht & Hi & _).
  assert (CLIENTS (authorize id m) !! id = Some (c <| cl_authorized := true |>)
          ∧ tasks (authorize id m) !! cl_tx c = Some (t <| t_files := tx Authorize (t_files t) |>))
    as [Hc Ht'].
  { unfold authorize, send_to. cbn. rewrite lookup_alter_eq, H. cbn.
    split; [by rewrite lookup_alter_eq, H|by rewrite lookup_alter_eq, Ht]. }
  unfold task_step. rewrite Ht'. cbn [on_event]. unfold on_rx. cbn. rewrite (Hq t Ht). cbn.
  eexists. rewrite lookup_insert_eq. split; [reflexivity|]. cbn. by rewrite last_snoc, Hc.
Qed.
End Task.

(** ** A short history *)

Module DemoWindow.
Definition no_fs (f : FS.t) (c : Files) : option Files := Some c.
Definition no_tick (js : list TransferJob) (v : vfs) (i : Z) : list TransferJob * vfs * list Data :=
  (js, v, []).
Definition v0 : vfs := {| tree := ∅; inodes := ∅; next_ino := 0; clock := 0 |}.
Definition login (id : Z) (peer : string) : TaskEvent :=
  StreamData (TLogin id false false false "" peer "name" "" false true true true true true true true
                false).
(** Two peers; the first ends and stays visible, the second is accepted. *)
Definition history : list Step :=
  [Accept 0 v0; TaskStep 0 (login 1 "p"); Accept 1 v0; TaskStep 1 (login 2 "q");
   TaskStep 0 (StreamData TDisconnected); UiAuthorize 2; TaskStep 1 Rx].
Definition run (h : list Step) (m : Manager) : Manager := foldl (λ m s, step no_fs no_tick s m) m h.
Definition final : Manager := run history (mkManager ∅ 0 "en" ∅ []).
End DemoWindow.

Lemma window_reflects_connections_witness :
  (∃ c, CLIENTS DemoWindow.final !! 1%Z = Some c ∧ cl_disconnected c = true)
  ∧ ∃ c t, CLIENTS DemoWindow.final !! 2%Z = Some c ∧ cl_authorized c = true
      ∧ tasks DemoWindow.final !! cl_tx c = Some t ∧ t_stream t = [Authorize].
Proof.
  assert (reachable DemoWindow.no_fs DemoWindow.no_tick
            (dead_after DemoWindow.no_fs DemoWindow.no_tick DemoWindow.history ∅ (mkManager ∅ 0 "en" ∅ [])) DemoWindow.final) as R.
  { apply reachable_run; [apply reach_start|]. unfold DemoWindow.history.
    unfold allowed_run, allowed, DemoWindow.login, announces.
    split_and!; try exact I; try reflexivity.
    all: try (intros k v _; apply (bool_decide_unpack _); vm_compute; exact I).
    all: try (intros i c H; vm_compute in H; destruct i as [|[]|]; by try injection H as <-).
    all: try (intros c H; vm_compute in H; discriminate H).
    all: try (intros t H; vm_compute in H; injection H as <-; by left). }
  destruct (window_reflects_connections DemoWindow.no_fs DemoWindow.no_tick _ _ R) as [_ H].
  split; [eexists; split; vm_compute; reflexivity|].
  assert (∃ c, CLIENTS DemoWindow.final !! 2%Z = Some c ∧ cl_disconnected c = false
            ∧ cl_authorized c = true ∧ cl_tx c = 1%nat) as (c & Hc & Hd & Ha & Hk)
    by (eexists; split_and!; vm_compute; reflexivity).
  destruct (H 2%Z c Close Hc Hd) as [_ Hx]. rewrite Hk in Hx.
  rewrite bool_decide_false in Hx by (apply (bool_decide_unpack _); vm_compute; exact I).
  destruct Hx as (t & Ht & _). exists c, t.
  split; [exact Hc|]. split; [exact Ha|]. split; [rewrite Hk; exact Ht|].
  vm_compute in Ht. injection Ht as <-. reflexivity.
Defined.
