(* ===== verification/Conn.v ===== *)
(** * A connection of a controlling peer: data and session options

    [src/server/connection.rs] on a Linux desktop with the Flutter interface and
    without [unix-file-copy-paste]: the fields of [Connection] that decide what
    the peer may do, the messages that reach it, the state it shares with the
    rest of the host, and the operations that change what it is subscribed to
    ([update_options], the permission switches of the connection manager, the
    subscription when a session begins).  What goes out, to the peer, to the
    connection manager or to a device, is an [Event] of the log. *)

From S2P Require Import Prelude Strs Version VideoQos Secret Options Password Permissions Throttle Sessions Services.
From Stdlib Require Import Ascii String.

Local Open Scope string_scope.
#[local] Arguments String.append _ _ : simpl nomatch.

(** ** Messages *)

(** [enum_value()] of an enumeration field: [None] for an unknown value. *)
Inductive BoolOption := NotSet | No | Yes.
#[global] Instance BoolOption_eq_dec : EqDecision BoolOption.
Proof. solve_decision. Defined.
Inductive ImageQuality := IqNotSet | Low | Balanced | Best.
Definition image_quality_value (q : ImageQuality) : Z :=
  match q with IqNotSet => 0 | Low => 2 | Balanced => 3 | Best => 4 end.

Record OptionMessage := {
  o_image_quality : option ImageQuality;
  o_lock_after_session_end : option BoolOption;
  o_show_remote_cursor : option BoolOption;
  o_privacy_mode : option BoolOption;
  o_block_input : option BoolOption;
  o_custom_image_quality : Z;
  o_disable_audio : option BoolOption;
  o_disable_clipboard : option BoolOption;
  o_enable_file_transfer : option BoolOption;
  o_supported_decoding : option string;      (* the serialised message *)
  o_custom_fps : Z;
  o_disable_keyboard : option BoolOption;
  o_follow_remote_cursor : option BoolOption;
  o_follow_remote_window : option BoolOption;
  o_terminal_persistent : option BoolOption;
  o_show_my_cursor : option BoolOption
}.

#[global] Instance eta_OptionMessage : Settable OptionMessage := λ o,
  {| o_image_quality := o_image_quality o; o_lock_after_session_end := o_lock_after_session_end o;
     o_show_remote_cursor := o_show_remote_cursor o; o_privacy_mode := o_privacy_mode o;
     o_block_input := o_block_input o; o_custom_image_quality := o_custom_image_quality o;
     o_disable_audio := o_disable_audio o; o_disable_clipboard := o_disable_clipboard o;
     o_enable_file_transfer := o_enable_file_transfer o; o_supported_decoding := o_supported_decoding o;
     o_custom_fps := o_custom_fps o; o_disable_keyboard := o_disable_keyboard o;
     o_follow_remote_cursor := o_follow_remote_cursor o; o_follow_remote_window := o_follow_remote_window o;
     o_terminal_persistent := o_terminal_persistent o; o_show_my_cursor := o_show_my_cursor o |}.
Definition option_message_default : OptionMessage :=
  {| o_image_quality := Some IqNotSet; o_lock_after_session_end := Some NotSet;
     o_show_remote_cursor := Some NotSet; o_privacy_mode := Some NotSet; o_block_input := Some NotSet;
     o_custom_image_quality := 0; o_disable_audio := Some NotSet; o_disable_clipboard := Some NotSet;
     o_enable_file_transfer := Some NotSet; o_supported_decoding := None; o_custom_fps := 0;
     o_disable_keyboard := Some NotSet; o_follow_remote_cursor := Some NotSet;
     o_follow_remote_window := Some NotSet; o_terminal_persistent := Some NotSet;
     o_show_my_cursor := Some NotSet |}.

Inductive LoginUnion :=
| LoginFileTransfer (dir : string) (show_hidden : bool)
| LoginPortForward (host : string) (port : Z)
| LoginViewCamera
| LoginTerminal (service_id : string).

Record LoginRequest := {
  lr_username : string; lr_password : string; lr_my_id : string; lr_my_name : string;
  lr_option : option OptionMessage; lr_union : option LoginUnion; lr_video_ack_required : bool;
  lr_session_id : Z; lr_version : string; lr_os_login : option (string * string);
  lr_my_platform : string; lr_hwid : string; lr_avatar : string
}.
Definition lr_default : LoginRequest :=
  {| lr_username := ""; lr_password := ""; lr_my_id := ""; lr_my_name := ""; lr_option := None;
     lr_union := None; lr_video_ack_required := false; lr_session_id := 0; lr_version := "";
     lr_os_login := None; lr_my_platform := ""; lr_hwid := ""; lr_avatar := "" |}.

(** The permissions the peer is told about. *)
Inductive PermissionInfo := PKeyboard | PClipboard | PAudio | PFile | PRestart | PRecording | PBlockInput.

(** ** Effects on the outside *)

(** What a login response tells about the host: its user, whether encodings and
    features are listed, and the displays by name. *)
Record PeerInfo := { pi_username : string; pi_features : bool; pi_encoding : bool; pi_displays : list string }.

Inductive AlarmAuditType :=
| IpWhitelist | ExceedThirtyAttempts | SixAttemptsWithinOneMinute | ExceedIPv6PrefixAttempts.

Inductive Event :=
(* to the peer *)
| SendHash (salt challenge : string)
| LoginError (msg : string) (enable_trusted_devices : bool)
| LoginPeerInfo (pi : PeerInfo)
| SendTestDelay
| SendPermission (p : PermissionInfo) (enabled : bool)
| SendCloseReason (reason : string)
| SendChat (text : string)
| SendBlockInputError (on : bool) (details : string)
| SendDisplayInited
| SendCursorUnsupported
(* to the connection manager *)
| CmLogin (peer_id name avatar port_forward : string)
          (is_file_transfer is_view_camera is_terminal authorized from_switch : bool)
          (keyboard clipboard audio file restart recording block_input : bool)
| CmClose
| CmDisconnected
| StartCmIpc
| WaitDesktopCmReady
(* to servers *)
| AlarmAudit (t : AlarmAuditType)
| AuditNew
| AuditConn (peer : string * string) (conn_type : Z)
| Telegram2faCode
(* to the devices and other parts of the host *)
| EncoderUpdate (decoding : string)
| UpdateCodecOnLogin
| TryActivateScreen
| RemoveWallpaper
| SetupRdpInput
| RecordCursorPos
| TurnOnPrivacy
| TurnOffPrivacy
| BlockInput (on : bool)
| SetTerminalPersistent (service_id : string) (persistent : bool)
| InitTerminalService (service_id : string) (persistent : bool)
| ReadDir (dir : string) (show_hidden : bool)
| Whiteboard (on : bool)
| ResetVoiceCallInput
| LockScreen
| OpenPortForward (addr : string)
(* everything else an authorised peer may ask for *)
| Dispatch (msg : string).

(** ** The connection *)

(** Second factors, of the crate [totp_rs]: checking a code against the time; [None]
    when the system time cannot be read. *)
Class Totp := { totp : Type; check_current : totp → Z → string → option bool }.

Section Conn.
  Context `{T : Totp}.

Record Connection := mkConnection {
  c_id : Z; c_salt : string; c_challenge : string;
  c_file_transfer : option (string * bool); c_view_camera : bool; c_terminal : bool;
  c_port_forward_socket : bool; c_port_forward_address : string;
  c_authorized : bool; c_require_2fa : option totp;
  c_keyboard : bool; c_clipboard : bool; c_audio : bool; c_file : bool; c_restart : bool;
  c_recording : bool; c_block_input : bool; c_control_permissions : option Z;
  c_last_test_delay : option Z; c_network_delay : Z;
  c_lock_after_session_end : bool; c_show_remote_cursor : bool; c_show_my_cursor : bool;
  c_follow_remote_cursor : bool; c_follow_remote_window : bool; c_ip : string;
  c_disable_keyboard : bool; c_disable_clipboard : bool; c_disable_audio : bool;
  c_voice_calling : bool; c_video_ack_required : bool; c_lr : LoginRequest; c_peer_argb : Z;
  c_session_last_recv_time : option nat; c_chat_unanswered : bool; c_file_transferred : bool;
  c_from_switch : bool; c_options_in_login : option OptionMessage; c_closed : bool;
  c_start_cm_ipc_para : bool; c_auto_disconnect_timer : option (Z * Z);
  c_authed_conn_id : option AuthConnType; c_services_subed : bool;
  c_terminal_service_id : string; c_terminal_persistent : bool; c_terminal_user_token : bool;
  c_is_headless_allowed : bool; c_is_headless : bool
}.
#[global] Instance eta_Connection : Settable Connection := λ c,
  mkConnection
    (c_id c) (c_salt c) (c_challenge c) (c_file_transfer c) (c_view_camera c) (c_terminal c)
    (c_port_forward_socket c) (c_port_forward_address c) (c_authorized c) (c_require_2fa c)
    (c_keyboard c) (c_clipboard c) (c_audio c) (c_file c) (c_restart c) (c_recording c)
    (c_block_input c) (c_control_permissions c) (c_last_test_delay c) (c_network_delay c)
    (c_lock_after_session_end c) (c_show_remote_cursor c) (c_show_my_cursor c)
    (c_follow_remote_cursor c) (c_follow_remote_window c) (c_ip c) (c_disable_keyboard c)
    (c_disable_clipboard c) (c_disable_audio c) (c_voice_calling c) (c_video_ack_required c)
    (c_lr c) (c_peer_argb c) (c_session_last_recv_time c) (c_chat_unanswered c)
    (c_file_transferred c) (c_from_switch c) (c_options_in_login c) (c_closed c)
    (c_start_cm_ipc_para c) (c_auto_disconnect_timer c) (c_authed_conn_id c) (c_services_subed
    c) (c_terminal_service_id c) (c_terminal_persistent c) (c_terminal_user_token c)
    (c_is_headless_allowed c) (c_is_headless c).

(** The connection and what it shares with the rest of the host: the registries
    and sessions, the services ([None] once the server was dropped), the two
    tables [LOGIN_FAILURES], the configuration, [SWITCH_SIDES_UUID], and the log
    of what went out. *)
Record World := mkWorld {
  w_conn : Connection;
  w_stat : Statics;
  w_server : option Server;
  w_failures : failures;
  w_failures_2fa : failures;
  w_host : Host;
  w_switch_uuid : gmap string (Z * string);
  w_log : list Event
}.
#[global] Instance eta_World : Settable World := λ w,
  mkWorld (w_conn w) (w_stat w) (w_server w) (w_failures w) (w_failures_2fa w) (w_host w)
    (w_switch_uuid w) (w_log w).

(** What the operating system, the clock and the crates answer. *)
Record Env := {
  now : Z;                                  (* Instant::now(), in nanoseconds *)
  time_ms : Z;                              (* get_time() *)
  globals : Globals;
  machine : Machine;
  rng : nat → Z;
  hostname : option string;
  draw : Z;
  devices : Devices;
  is_prelogin : bool;
  is_locked : bool;
  is_in_privacy_mode : bool;
  tcp_connect : string → bool;
  active_username : string;
  is_login_screen_wayland : bool;
  display_server : string;
  sync_displays : result string (list string);
  camera_displays : list string;
  display_inited_msg : bool;
  wayland_use_rdp_input : bool;
  is_dir : string → bool;
  telegram_bot : bool;
  service_specified_user : string → option bool;
  desktop_manager : string → string → string;   (* try_start_desktop *)
  fresh_service_id : string;
  whiteboard_supported : bool;
  is_headless_host : bool;                       (* linux_desktop_manager::is_headless() *)
  has_wallpaper_remover : bool;
  is_server : bool;
  main_window_open : bool;
  cidr_contains : string → string → bool;        (* IpCidr::from_str(x).contains(ip) *)
  user_iter : gmap Z UserData → list (Z * UserData);          (* orders of HashMap iteration *)
  display_iter : gmap string DisplayData → list (string * DisplayData)
}.

(** *** Programs over a world *)

Definition M (A : Type) : Type := World → A * World.
#[global] Instance M_ret : MRet M := λ A a w, (a, w).
#[global] Instance M_bind : MBind M := λ A B f m w, let '(a, w) := m w in f a w.

Definition gets {A} (f : World → A) : M A := λ w, (f w, w).
Definition modify (f : World → World) : M unit := λ w, (tt, f w).
Definition self : M Connection := gets w_conn.
Definition modify_self (f : Connection → Connection) : M unit :=
  modify (λ w, w <| w_conn := f (w_conn w) |>).
Definition emit (e : Event) : M unit := modify (λ w, w <| w_log := (w_log w ++ [e])%list |>).
Definition modify_stat (f : Statics → Statics) : M unit := modify (λ w, w <| w_stat := f (w_stat w) |>).
Definition modify_host (f : Host → Host) : M unit := modify (λ w, w <| w_host := f (w_host w) |>).
Definition when (b : bool) (m : M unit) : M unit := if b then m else mret tt.

#[local] Notation "f <~ v" := (modify_self (λ c, c <| f := v |>)) (at level 70, v at level 69).

Variable env : Env.
Context `{C : Crypto}.

Definition config_option (k : string) : M string :=
  gets (λ w, get_option (globals env) (CFG2 (w_host w)) k).
Definition server_do (f : Server → Server) : M unit :=
  modify (λ w, w <| w_server := f <$> w_server w |>).
Definition qos_do (f : VideoQoS → VideoQoS) : M unit :=
  modify_stat (λ s, set_QOS (f (VIDEO_QOS s)) s).

(** *** What the peer may use *)

Definition peer_keyboard_enabled (c : Connection) : bool := c_keyboard c && negb (c_disable_keyboard c).
Definition clipboard_enabled (c : Connection) : bool := c_clipboard c && negb (c_disable_clipboard c).
Definition audio_enabled (c : Connection) : bool := c_audio c && negb (c_disable_audio c).
Definition can_sub_clipboard_service (c : Connection) : bool :=
  clipboard_enabled c && peer_keyboard_enabled c
  && negb (String.eqb (get_builtin_option (globals env) "one-way-clipboard-redirection") "Y").

Definition is_authed_remote_conn (c : Connection) : bool :=
  match c_authed_conn_id c with Some Remote => true | _ => false end.
Definition is_authed_view_camera_conn (c : Connection) : bool :=
  match c_authed_conn_id c with Some ViewCamera => true | _ => false end.
Definition is_remote (c : Connection) : bool :=
  negb (bool_decide (is_Some (c_file_transfer c))) && negb (c_port_forward_socket c)
  && negb (c_view_camera c) && negb (c_terminal c).

Definition session_key_of (c : Connection) : SessionKey :=
  {| peer_id := lr_my_id (c_lr c); name := lr_my_name (c_lr c); session_id := lr_session_id (c_lr c) |}.

(** *** Services by name *)

Definition NAME_CURSOR : string := "mouse_cursor".
Definition NAME_POS : string := "mouse_pos".
Definition NAME_WINDOW_FOCUS : string := "window_focus".
Definition CLIPBOARD_NAME : string := "clipboard".
Definition AUDIO_NAME : string := "audio".

Definition sub (name : string) (b : Connection → bool) : M unit :=
  c ← self; server_do (subscribe name (c_id c) (b c)).

(** [if let Ok(q) = field.enum_value() { if q != NotSet { .. } }]. *)
Definition if_set (field : Datatypes.option BoolOption) (f : bool → M unit) : M unit :=
  match field with
  | Some Yes => f true
  | Some No => f false
  | _ => mret tt
  end.

(** The [image_quality] an option message asks for; [-1] for none. *)
Definition requested_quality (o : OptionMessage) (q : ImageQuality) : Z :=
  match q with
  | IqNotSet => if (0 <? o_custom_image_quality o)%Z then o_custom_image_quality o else (-1)%Z
  | _ => image_quality_value q
  end.

(** [VideoQoS::user_image_quality]; it never panics on a table that connections
    built ([VideoQos.qos_run_safe]), so its [None] is not reached. *)
Definition quality_do (id q : Z) : M unit :=
  qos_do (λ v, default v (user_image_quality (user_iter env) id q (now env) v)).

Definition sub_audio : M unit :=
  c ← self;
  if is_authed_view_camera_conn c
  then when (c_voice_calling c || negb (audio_enabled c)) (sub AUDIO_NAME audio_enabled)
  else sub AUDIO_NAME audio_enabled.

Definition update_terminal_persistence (persistent : bool) : M unit :=
  c_terminal_persistent <~ persistent;;
  c ← self; emit (SetTerminalPersistent (c_terminal_service_id c) persistent).

Definition cursor_allowed (c : Connection) : bool := peer_keyboard_enabled c || c_show_remote_cursor c.

Definition privacy_option (q : BoolOption) : M unit :=
  match q with Yes => emit TurnOnPrivacy | No => emit TurnOffPrivacy | NotSet => mret tt end.

Definition block_input_option (q : BoolOption) : M unit :=
  c ← self;
  if c_keyboard c && c_block_input c then
    match q with
    | Yes => emit (BlockInput true)
    | No => emit (BlockInput false)
    | NotSet => mret tt
    end
  else match q with
       | NotSet => mret tt
       | Yes => emit (SendBlockInputError true "No permission")
       | No => emit (SendBlockInputError false "No permission")
       end.

Definition show_my_cursor_option (on : bool) : M unit :=
  c_show_my_cursor <~ on;;
  if on then
    if whiteboard_supported env then emit (Whiteboard true) else emit SendCursorUnsupported
  else when (whiteboard_supported env) (emit (Whiteboard false)).

Definition update_options (o : OptionMessage) : M unit :=
  c ← self;
  match o_image_quality o with
  | Some q => let iq := requested_quality o q in
              when (0 <? iq)%Z (quality_do (c_id c) iq)
  | None => mret tt
  end;;
  when (0 <? o_custom_fps o)%Z (qos_do (user_custom_fps (c_id c) (wrap 32 (o_custom_fps o))));;
  match o_supported_decoding o with Some d => emit (EncoderUpdate d) | None => mret tt end;;
  if_set (o_lock_after_session_end o) (λ b, c_lock_after_session_end <~ b);;
  if_set (o_show_remote_cursor o) (λ b,
    c_show_remote_cursor <~ b;;
    sub NAME_CURSOR cursor_allowed;;
    sub NAME_POS c_show_remote_cursor);;
  if_set (o_follow_remote_cursor o) (λ b, c_follow_remote_cursor <~ b);;
  if_set (o_follow_remote_window o) (λ b,
    c_follow_remote_window <~ b;;
    sub NAME_WINDOW_FOCUS c_follow_remote_window);;
  if_set (o_disable_audio o) (λ b, c_disable_audio <~ b;; sub_audio);;
  if_set (o_disable_clipboard o) (λ b,
    c_disable_clipboard <~ b;; sub CLIPBOARD_NAME can_sub_clipboard_service);;
  if_set (o_disable_keyboard o) (λ b,
    c_disable_keyboard <~ b;;
    sub CLIPBOARD_NAME can_sub_clipboard_service;;
    sub NAME_CURSOR cursor_allowed);;
  (if (get_version_number (lr_version (c_lr c)) <? get_version_number "1.2.4")%Z then
     match o_privacy_mode o with
     | Some q => c ← self; when (c_keyboard c) (privacy_option q)
     | None => mret tt
     end
   else mret tt);;
  match o_block_input o with Some q => block_input_option q | None => mret tt end;;
  if_set (o_terminal_persistent o) update_terminal_persistence;;
  if_set (o_show_my_cursor o) show_my_cursor_option.

(** ** The connection manager's switches *)

Definition switch_permission (nm : string) (enabled : bool) : M unit :=
  if String.eqb nm "keyboard" then
    c_keyboard <~ enabled;;
    emit (SendPermission PKeyboard enabled);;
    sub CLIPBOARD_NAME can_sub_clipboard_service;;
    sub NAME_CURSOR (λ c, enabled || c_show_remote_cursor c)
  else if String.eqb nm "clipboard" then
    c_clipboard <~ enabled;;
    emit (SendPermission PClipboard enabled);;
    sub CLIPBOARD_NAME can_sub_clipboard_service
  else if String.eqb nm "audio" then
    c_audio <~ enabled;;
    emit (SendPermission PAudio enabled);;
    c ← self; when (c_authorized c) sub_audio
  else if String.eqb nm "file" then
    c_file <~ enabled;; emit (SendPermission PFile enabled)
  else if String.eqb nm "restart" then
    c_restart <~ enabled;; emit (SendPermission PRestart enabled)
  else if String.eqb nm "recording" then
    c_recording <~ enabled;; emit (SendPermission PRecording enabled)
  else if String.eqb nm "block_input" then
    c_block_input <~ enabled;; emit (SendPermission PBlockInput enabled)
  else mret tt.

(** ** The subscriptions of a session *)

Definition get_auto_disconenct_timer : M (Datatypes.option (Z * Z)) :=
  allow ← config_option "allow-auto-disconnect";
  minutes ← config_option "auto-disconnect-timeout";
  mret (if String.eqb allow "Y" then
          let minute := default 10%Z (parse_u64 minutes) in
          Some (now env, if (minute =? 0)%Z then 10%Z else minute)
        else None).

Definition update_auto_disconnect_timer : M unit :=
  modify_self (λ c, c <| c_auto_disconnect_timer :=
                           (λ t, (now env, t.2)) <$> c_auto_disconnect_timer c |>).

Definition noperms (c : Connection) : list string :=
  (if negb (peer_keyboard_enabled c) && negb (c_show_remote_cursor c) then [NAME_CURSOR] else [])
  ++ (if negb (c_show_remote_cursor c) then [NAME_POS] else [])
  ++ (if negb (c_follow_remote_window c) then [NAME_WINDOW_FOCUS] else [])
  ++ (if negb (can_sub_clipboard_service c) then [CLIPBOARD_NAME] else [])
  ++ (if negb (audio_enabled c) then [AUDIO_NAME] else []).

Definition try_sub_monitor_services : M unit :=
  c ← self;
  if is_remote c && negb (c_services_subed c) then
    c_services_subed <~ true;;
    srv ← gets w_server;
    match srv with
    | Some _ =>
        emit RecordCursorPos;;
        t ← get_auto_disconenct_timer;
        c_auto_disconnect_timer <~ t;;
        server_do (try_add_primay_video_service (devices env));;
        server_do (add_connection (devices env) (c_id c) (noperms c))
    | None => mret tt
    end
  else mret tt.

Definition try_sub_camera_displays : M unit :=
  c ← self;
  server_do (try_add_primary_camera_service (devices env));;
  server_do (add_camera_connection (devices env) (c_id c)).

End Conn.
