(* ===== verification/LoginConfig.v ===== *)
(** * The client's side of a session

    [src/client.rs]: [LoginConfigHandler], which keeps what a session knows of its
    peer, writes it to the peer's file and turns the user's choices into option
    messages; the answer to the host's challenge ([handle_hash],
    [handle_login_from_ui]), the handling of login errors, and [check_if_retry].
    A client is the handler and the peer files.  The display name, the avatar,
    the JSON forms and the codecs are arguments ([ClientEnv]). *)

From S2P Require Import Prelude Strs Version Secret Options HostPort Peers Conn.
From Stdlib Require Import Ascii String.

Local Open Scope string_scope.
#[local] Arguments String.append _ _ : simpl nomatch.

Definition PUBLIC_SERVER : string := "public".
Definition RS_PUB_KEY : string := "OQnLEvt6xjfPCUc1ozpTUiAxijwnn624zy0GH9IxX90=".

Inductive ConnType := DEFAULT_CONN | FILE_TRANSFER | PORT_FORWARD | RDP | VIEW_CAMERA | TERMINAL.
#[global] Instance ConnType_eq_dec : EqDecision ConnType.
Proof. solve_decision. Defined.

(** Where the sent password comes from. *)
Inductive PasswordSource := PersonalAb (p : string) | SharedAb (p : string) | Undefined.

Record ConnToken := { t_password : string; t_password_source : PasswordSource; t_session_id : Z }.

Record LoginConfigHandler := mkLc {
  h_id : string; h_conn_type : ConnType; h_is_terminal_admin : bool;
  h_hash : string * string;                    (* salt, challenge *)
  h_password : string; h_remember : bool; h_config : PeerConfig; h_port_forward : string * Z;
  h_version : Z; h_features : option bool;     (* privacy_mode *)
  h_session_id : Z; h_restarting_remote_device : bool; h_force_relay : bool;
  h_direct : option bool; h_received : bool; h_switch_uuid : option string;
  h_other_server : option (string * string * string); h_custom_fps : option Z;
  h_adapter_luid : option Z; h_selected_windows_session_id : option Z;
  h_password_source : PasswordSource; h_shared_password : option string;
  h_record_state : bool; h_record_permission : bool
}.
#[global] Instance eta_Lc : Settable LoginConfigHandler := λ h,
  mkLc (h_id h) (h_conn_type h) (h_is_terminal_admin h) (h_hash h) (h_password h) (h_remember h)
    (h_config h) (h_port_forward h) (h_version h) (h_features h) (h_session_id h)
    (h_restarting_remote_device h) (h_force_relay h) (h_direct h) (h_received h) (h_switch_uuid h)
    (h_other_server h) (h_custom_fps h) (h_adapter_luid h) (h_selected_windows_session_id h)
    (h_password_source h) (h_shared_password h) (h_record_state h) (h_record_permission h).

Record Client := mkClient { lch : LoginConfigHandler; disk : PeerFiles }.
#[global] Instance eta_Client : Settable Client := λ c, mkClient (lch c) (disk c).

(** What a host tells about itself. *)
Record PeerInfoMsg := {
  pim_username : string; pim_hostname : string; pim_platform : string; pim_version : string;
  pim_privacy_mode : option bool
}.

Record ClientEnv := {
  ce_globals : Globals;
  ce_machine : Machine;
  ce_defaults : Stored smap;
  ce_using_public_server : bool;
  ce_is_proxy : bool;
  ce_supported_decoding : LoginConfigHandler → string;   (* Decoder::supported_decodings *)
  ce_my_id : string;
  ce_rendezvous_server : string;
  ce_avatar : string;
  ce_display_name : string;
  ce_my_platform : string;
  ce_version : string;
  ce_hwid : string;
  ce_random : Z;
  ce_terminal_admin_env : bool;                          (* IS_TERMINAL_ADMIN is Y *)
  ce_read_map : string → option smap;                    (* serde_json *)
  ce_print_map : smap → string;
  ce_access_token : string;
  ce_parse_uuid : string → option string;                (* Uuid::from_str, as its bytes *)
  ce_ab : option (string * list (bool * list (string * string)))
    (* the address book: its token, and its entries: personal, peers with their hash *)
}.

Section Client.
  Context `{F : F64} `{C : Crypto}.
  Variable env : ClientEnv.

Definition load_of (id : string) (f : PeerFiles) : PeerConfig * PeerFiles :=
  peer_load (ce_globals env) (ce_machine env) (ce_defaults env) id f.

(** ** Passwords *)

Definition source_equal (password connected salt : string) : bool :=
  String.eqb connected (sha256 (password ++ salt)).
Definition is_personal_ab (s : PasswordSource) (password : string) : bool :=
  if is_empty password then false
  else match s with PersonalAb p => String.eqb p password | _ => false end.
Definition is_shared_ab (s : PasswordSource) (password salt : string) : bool :=
  if is_empty password then false
  else match s with SharedAb p => source_equal p password salt | _ => false end.

(** ** The configuration of the peer *)

Definition load_config (c : Client) : PeerConfig * Client :=
  let '(p, f) := load_of (h_id (lch c)) (disk c) in (p, c <| disk := f |>).
Definition save_config (p : PeerConfig) (c : Client) : Client :=
  c <| disk := peer_store (ce_machine env) (h_id (lch c)) p (disk c) |>
    <| lch := lch c <| h_config := p |> |>.

(** Load, change one thing, save: the [save_*] operations. *)
Definition change_config (f : PeerConfig → PeerConfig) (c : Client) : Client :=
  let '(p, c) := load_config c in save_config (f p) c.

Definition h_get_option (k : string) (h : LoginConfigHandler) : string :=
  default "" (p_options (h_config h) !! k).

Definition h_set_option (k v : string) (c : Client) : Client :=
  let '(p, c) := load_config c in
  if String.eqb v (h_get_option k (lch c)) then c
  else save_config (p <| p_options := <[k := v]> (p_options p) |>) c.

Definition save_view_style (v : string) : Client → Client := change_config (λ p, p <| p_view_style := v |>).
Definition save_keyboard_mode (v : string) : Client → Client :=
  change_config (λ p, p <| p_keyboard_mode := v |>).
Definition save_reverse_mouse_wheel (v : string) : Client → Client :=
  change_config (λ p, p <| p_reverse_mouse_wheel := v |>).
Definition save_displays_as_individual_windows (v : string) : Client → Client :=
  change_config (λ p, p <| p_displays_as_individual_windows := v |>).
Definition save_use_all_my_displays_for_the_remote_session (v : string) : Client → Client :=
  change_config (λ p, p <| p_use_all_my_displays_for_the_remote_session := v |>).
Definition save_scroll_style (v : string) : Client → Client :=
  change_config (λ p, p <| p_scroll_style := v |>).
Definition save_edge_scroll_edge_thickness (v : Z) : Client → Client :=
  change_config (λ p, p <| p_edge_scroll_edge_thickness := v |>).
Definition save_ui_flutter (k v : string) : Client → Client :=
  change_config (λ p, p <| p_ui_flutter := if is_empty v then delete k (p_ui_flutter p)
                                           else <[k := v]> (p_ui_flutter p) |>).
Definition set_direct_failure (v : Z) : Client → Client :=
  change_config (λ p, p <| p_direct_failures := v |>).
Definition save_trackpad_speed (v : Z) : Client → Client :=
  change_config (λ p, p <| p_trackpad_speed := v |>).
Definition set_custom_resolution (display : Z) (wh : option (Z * Z)) : Client → Client :=
  change_config (λ p, p <| p_custom_resolutions :=
    match wh with
    | Some r => <[show_Z display := r]> (p_custom_resolutions p)
    | None => delete (show_Z display) (p_custom_resolutions p)
    end |>).

Definition get_ui_flutter (k : string) (h : LoginConfigHandler) : string :=
  default "" (p_ui_flutter (h_config h) !! k).
Definition get_custom_resolution (display : Z) (h : LoginConfigHandler) : option (Z * Z) :=
  p_custom_resolutions (h_config h) !! show_Z display.
Definition get_username (pi : PeerInfoMsg) (h : LoginConfigHandler) : string :=
  if is_empty (pim_username pi) then info_username (p_info (h_config h)) else pim_username pi.

Definition should_auto_login (h : LoginConfigHandler) : string :=
  let l := p_lock_after_session_end (h_config h) in
  let a := negb (is_empty (h_get_option "auto-login" h)) in
  let p := h_get_option "os-password" h in
  if negb (is_empty p) && l && a then p else "".

Definition is_privacy_mode_supported (h : LoginConfigHandler) : bool := default false (h_features h).

(** ** The start of a session *)

(** [handle_relay_id]: a trailing [\r] or [/r] asks for a relay. *)
Definition handle_relay_id (id : string) : string :=
  if ends_with "\r" id || ends_with "/r" id then str_take (str_len id - 2) id else id.

(** The value of [key] among the arguments of a server; the last one counts. *)
Fixpoint split_eq (s : string) : option (string * string) :=
  match s with
  | "" => None
  | String a s => if Ascii.eqb a "=" then Some ("", s)
                  else '(k, v) ← split_eq s; Some (String a k, v)
  end.
Definition server_args (args : string) : smap :=
  foldl (λ mp arg, match split_eq arg with Some (k, v) => <[to_lower k := v]> mp | None => mp end)
    ∅ (split_on "&" args).

(** [id@server?key=..]: the peer, the server, its key; whether a relay is asked for. *)
Definition parse_peer_id (id : string) : string * option (string * string * string) * bool :=
  if contains_char "@" id then
    let v := split_on "@" id in
    let raw_id := default "" (v !! 0) in
    let server_key := split_on "?" (default "" (v !! 1)) in
    let server := default "" (server_key !! 0) in
    let args := default "" (server_key !! 1) in
    let key := if String.eqb server PUBLIC_SERVER then RS_PUB_KEY
               else default "" (server_args args !! "key") in
    let real_id := handle_relay_id raw_id in
    (real_id ++ "@" ++ server, Some (real_id, server, key), negb (String.eqb real_id raw_id))
  else
    let real_id := handle_relay_id id in
    (real_id, None, negb (String.eqb real_id id)).

Definition named_handler (id : string) (conn_type : ConnType) (other : option (string * string * string))
    (h : LoginConfigHandler) : LoginConfigHandler :=
  let h := match other with Some o => h <| h_other_server := Some o |> | None => h end in
  h <| h_id := id |> <| h_conn_type := conn_type |>.

Definition with_token (conn_token : option ConnToken) (h : LoginConfigHandler) : LoginConfigHandler :=
  let sid := match conn_token with Some t => t_session_id t | None => 0%Z end in
  let h := match conn_token with
           | Some t => h <| h_password := t_password t |> <| h_password_source := t_password_source t |>
           | None => h
           end in
  h <| h_session_id := if (sid =? 0)%Z then if (ce_random env =? 0)%Z then 1%Z else ce_random env else sid |>.

Definition with_server_key (h : LoginConfigHandler) : LoginConfigHandler :=
  match h_other_server h with
  | Some (real_id, server, key) =>
      let k := h_get_option "other-server-key" h in
      if negb (is_empty k) && is_empty key then h <| h_other_server := Some (real_id, server, k) |> else h
  | None => h
  end.

Definition reset_handler (conn_type : ConnType) (switch_uuid : option string) (adapter_luid : option Z)
    (shared_password : option string) (h : LoginConfigHandler) : LoginConfigHandler :=
  h <| h_direct := None |> <| h_received := false |> <| h_switch_uuid := switch_uuid |>
    <| h_adapter_luid := adapter_luid |> <| h_selected_windows_session_id := None |>
    <| h_shared_password := shared_password |> <| h_record_state := false |>
    <| h_record_permission := true |>
    <| h_is_terminal_admin := bool_decide (conn_type = TERMINAL) && ce_terminal_admin_env env |>.

Definition initialize (id : string) (conn_type : ConnType) (switch_uuid : option string)
    (force_relay : bool) (adapter_luid : option Z) (shared_password : option string)
    (conn_token : option ConnToken) (c : Client) : Client :=
  let '(id, other, relay) := parse_peer_id id in
  let '(config, c) := load_config (c <| lch := named_handler id conn_type other (lch c) |>) in
  let h := lch c <| h_remember := negb (is_empty (p_password config)) |> <| h_config := config |> in
  let h := with_token conn_token h <| h_restarting_remote_device := false |> in
  let h := h <| h_force_relay := option2bool "force-always-relay" (h_get_option "force-always-relay" h)
                                 || (force_relay || relay) || ce_is_proxy env |> in
  c <| lch := reset_handler conn_type switch_uuid adapter_luid shared_password (with_server_key h) |>.

(** ** Option messages *)

Definition yes_no (b : bool) : option BoolOption := Some (if b then Yes else No).

Definition get_toggle_option (name : string) (h : LoginConfigHandler) : bool :=
  let c := h_config h in
  if String.eqb name "show-remote-cursor" then p_show_remote_cursor c
  else if String.eqb name "lock-after-session-end" then p_lock_after_session_end c
  else if String.eqb name OPTION_TERMINAL_PERSISTENT then p_terminal_persistent c
  else if String.eqb name "privacy-mode" then p_privacy_mode c
  else if String.eqb name OPTION_ENABLE_FILE_COPY_PASTE then p_enable_file_copy_paste c
  else if String.eqb name "disable-audio" then p_disable_audio c
  else if String.eqb name "disable-clipboard" then p_disable_clipboard c
  else if String.eqb name "show-quality-monitor" then p_show_quality_monitor c
  else if String.eqb name "allow_swap_key" then p_allow_swap_key c
  else if String.eqb name "view-only" then p_view_only c
  else if String.eqb name "show-my-cursor" then p_show_my_cursor c
  else if String.eqb name "follow-remote-cursor" then p_follow_remote_cursor c
  else if String.eqb name "follow-remote-window" then p_follow_remote_window c
  else negb (is_empty (h_get_option name h)).

(** The switch of an option that is no field of its own. *)
Definition toggle_text_option (name : string) (c : Client) : Client :=
  let h := lch c in
  let o := p_options (h_config h) in
  let is_set := match o !! name with Some v => negb (is_empty v) | None => false end in
  let config := h_config h <| p_options := if is_set then delete name o else <[name := "Y"]> o |> in
  c <| lch := h <| h_config := config |> |>
    <| disk := peer_store (ce_machine env) (h_id h) config (disk c) |>.

(** The new configuration and the message of a switch, when it has one. *)
Definition toggle_field (name : string) (h : LoginConfigHandler) (p : PeerConfig)
    : option (PeerConfig * OptionMessage) :=
  let o := option_message_default in
  if String.eqb name "show-remote-cursor" then
    let v := negb (p_show_remote_cursor p) in
    Some (p <| p_show_remote_cursor := v |>, o <| o_show_remote_cursor := yes_no v |>)
  else if String.eqb name "follow-remote-cursor" then
    let v := negb (p_follow_remote_cursor p) in
    Some (p <| p_follow_remote_cursor := v |>, o <| o_follow_remote_cursor := yes_no v |>)
  else if String.eqb name "follow-remote-window" then
    let v := negb (p_follow_remote_window p) in
    Some (p <| p_follow_remote_window := v |>, o <| o_follow_remote_window := yes_no v |>)
  else if String.eqb name "disable-audio" then
    let v := negb (p_disable_audio p) in
    Some (p <| p_disable_audio := v |>, o <| o_disable_audio := yes_no v |>)
  else if String.eqb name "disable-clipboard" then
    let v := negb (p_disable_clipboard p) in
    Some (p <| p_disable_clipboard := v |>, o <| o_disable_clipboard := yes_no v |>)
  else if String.eqb name "lock-after-session-end" then
    let v := negb (p_lock_after_session_end p) in
    Some (p <| p_lock_after_session_end := v |>, o <| o_lock_after_session_end := yes_no v |>)
  else if String.eqb name OPTION_TERMINAL_PERSISTENT then
    let v := negb (p_terminal_persistent p) in
    Some (p <| p_terminal_persistent := v |>, o <| o_terminal_persistent := yes_no v |>)
  else if String.eqb name "privacy-mode" then
    Some (p, o <| o_privacy_mode := yes_no (negb (p_privacy_mode p)) |>)
  else if String.eqb name "enable-file-copy-paste" then
    let v := negb (p_enable_file_copy_paste p) in
    Some (p <| p_enable_file_copy_paste := v |>, o <| o_enable_file_transfer := yes_no v |>)
  else if String.eqb name "block-input" then Some (p, o <| o_block_input := yes_no true |>)
  else if String.eqb name "unblock-input" then Some (p, o <| o_block_input := yes_no false |>)
  else if String.eqb name "show-quality-monitor" then
    Some (p <| p_show_quality_monitor := negb (p_show_quality_monitor p) |>, o)
  else if String.eqb name "allow_swap_key" then
    Some (p <| p_allow_swap_key := negb (p_allow_swap_key p) |>, o)
  else if String.eqb name "view-only" then
    let v := negb (p_view_only p) in
    let p := p <| p_view_only := v |> in
    if v then
      Some (p, o <| o_disable_keyboard := yes_no true |> <| o_disable_clipboard := yes_no true |>
                 <| o_show_remote_cursor := yes_no true |> <| o_enable_file_transfer := yes_no false |>
                 <| o_lock_after_session_end := yes_no false |>)
    else
      let o := o <| o_disable_keyboard := yes_no false |>
                 <| o_disable_clipboard := yes_no (get_toggle_option "disable-clipboard" h) |>
                 <| o_show_remote_cursor := yes_no (get_toggle_option "show-remote-cursor" h) |>
                 <| o_enable_file_transfer := yes_no (p_enable_file_copy_paste (h_config h)) |>
                 <| o_lock_after_session_end := yes_no (p_lock_after_session_end (h_config h)) |> in
      if p_show_my_cursor p
      then Some (p <| p_show_my_cursor := false |>, o <| o_show_my_cursor := yes_no false |>)
      else Some (p, o)
  else if String.eqb name "show-my-cursor" then
    let v := negb (p_show_my_cursor p) in
    Some (p <| p_show_my_cursor := v |>, o <| o_show_my_cursor := yes_no v |>)
  else None.

Definition toggle_option (name : string) (c : Client) : option OptionMessage * Client :=
  let '(p, c) := load_config c in
  match toggle_field name (lch c) p with
  | Some (p, o) => (Some o, if contains_str "block-input" name then c else save_config p c)
  | None => (None, toggle_text_option name c)
  end.

Definition get_image_quality_enum (q : string) (ignore_default : bool) : option ImageQuality :=
  if String.eqb q "low" then Some Low
  else if String.eqb q "best" then Some Best
  else if String.eqb q "balanced" then if ignore_default then None else Some Balanced
  else None.

(** [as usize] of an [i32]. *)
Definition as_usize (z : Z) : Z := wrap 64 z.

(** The custom quality and frame rate of the login message, within what the
    server in use allows. *)
Definition custom_quality (allow_more : bool) (l : list Z) : Z :=
  match l with
  | [] => 50
  | q :: _ => if negb allow_more && (100 <? q)%Z then 50 else q
  end.
Definition custom_fps_of (allow_more : bool) (text : string) : Z :=
  let fps := default 30%Z (parse_i32 text) in
  if negb allow_more && (30 <? fps)%Z then 30 else fps.

(** [if b { msg.field = ..; }]. *)
Definition with_toggle (b : bool) (f : OptionMessage → OptionMessage) (o : OptionMessage) : OptionMessage :=
  if b then f o else o.

Definition get_option_message (ignore_default : bool) (c : Client)
    : option OptionMessage * Client :=
  let h := lch c in
  match h_conn_type h with
  | PORT_FORWARD | RDP | FILE_TRANSFER => (None, c)
  | TERMINAL =>
      (if get_toggle_option OPTION_TERMINAL_PERSISTENT h
       then Some (option_message_default <| o_terminal_persistent := yes_no true |>) else None, c)
  | _ =>
      let o := option_message_default in
      let q := p_image_quality (h_config h) in
      let '(o, c) :=
        match get_image_quality_enum q ignore_default with
        | Some iq => (o <| o_image_quality := Some iq |>, c)
        | None =>
            if String.eqb q "custom" then
              let '(p, c) := load_config c in
              let allow_more := negb (ce_using_public_server env) || bool_decide (h_direct h = Some true) in
              let o := o <| o_custom_image_quality :=
                              swrap 32 (Z.shiftl (custom_quality allow_more (p_custom_image_quality p)) 8) |> in
              match p_options (h_config h) !! "custom-fps" with
              | Some text =>
                  let fps := custom_fps_of allow_more text in
                  (o <| o_custom_fps := fps |>,
                   c <| lch := lch c <| h_custom_fps := Some (as_usize fps) |> |>)
              | None => (o, c)
              end
            else (o, c)
        end in
      let view_only := get_toggle_option "view-only" h in
      let o := with_toggle view_only (λ o, o <| o_disable_keyboard := yes_no true |>) o in
      let o := with_toggle (view_only || get_toggle_option "show-remote-cursor" h)
                 (λ o, o <| o_show_remote_cursor := yes_no true |>) o in
      let o := with_toggle (view_only && get_toggle_option "show-my-cursor" h)
                 (λ o, o <| o_show_my_cursor := yes_no true |>) o in
      let o := with_toggle (get_toggle_option "follow-remote-cursor" h)
                 (λ o, o <| o_follow_remote_cursor := yes_no true |>) o in
      let o := with_toggle (get_toggle_option "follow-remote-window" h)
                 (λ o, o <| o_follow_remote_window := yes_no true |>) o in
      let o := with_toggle (negb view_only && get_toggle_option "lock-after-session-end" h)
                 (λ o, o <| o_lock_after_session_end := yes_no true |>) o in
      let o := with_toggle (get_toggle_option "disable-audio" h) (λ o, o <| o_disable_audio := yes_no true |>) o in
      let o := with_toggle (negb view_only && get_toggle_option OPTION_ENABLE_FILE_COPY_PASTE h)
                 (λ o, o <| o_enable_file_transfer := yes_no true |>) o in
      let o := with_toggle (view_only || get_toggle_option "disable-clipboard" h)
                 (λ o, o <| o_disable_clipboard := yes_no true |>) o in
      (Some (o <| o_supported_decoding := Some (ce_supported_decoding env h) |>), c)
  end.

Definition save_custom_image_quality (image_quality : Z) (c : Client) : OptionMessage * Client :=
  (option_message_default <| o_custom_image_quality := swrap 32 (Z.shiftl image_quality 8) |>,
   change_config (λ p, p <| p_image_quality := "custom" |>
                         <| p_custom_image_quality := [image_quality] |>) c).

Definition save_image_quality (value : string) (c : Client) : option OptionMessage * Client :=
  ((λ q, option_message_default <| o_image_quality := Some q |>) <$> get_image_quality_enum value false,
   change_config (λ p, p <| p_image_quality := value |>) c).

Definition set_custom_fps (fps : Z) (save : bool) (c : Client) : OptionMessage * Client :=
  let c := if save then change_config (λ p, p <| p_options := <["custom-fps" := show_Z fps]> (p_options p) |>) c
           else c in
  (option_message_default <| o_custom_fps := fps |>,
   c <| lch := lch c <| h_custom_fps := Some (as_usize fps) |> |>).

(** ** When the host has told about itself *)

Definition keyboard_mode_text (k : KeyboardMode) : string :=
  match k with Legacy => "legacy" | Map => "map" | Translate => "translate" | Auto => "auto" end.
Definition keyboard_mode_of (s : string) : option KeyboardMode :=
  if String.eqb s "legacy" then Some Legacy
  else if String.eqb s "map" then Some Map
  else if String.eqb s "translate" then Some Translate
  else if String.eqb s "auto" then Some Auto
  else None.

Definition checked_keyboard_mode (ver : Z) (platform mode : string) : string :=
  if is_empty mode then
    keyboard_mode_text (if is_keyboard_mode_supported Map ver platform then Map else Legacy)
  else
    let current := default Legacy (keyboard_mode_of mode) in
    if is_keyboard_mode_supported current ver platform then mode else keyboard_mode_text Legacy.

(** The password to remember. *)
Definition remembered_password (h : LoginConfigHandler) (password0 : string) : string :=
  let password := h_password h in
  if h_remember h then
    if negb (is_empty password) && negb (String.eqb password password0)
       && negb (is_shared_ab (h_password_source h) password (h_hash h).1)
    then password else password0
  else
    if is_personal_ab (h_password_source h) password then password
    else if negb (is_empty password0) then "" else password0.

(** The password the own address book is told. *)
Definition synced_password (h : LoginConfigHandler) (p : PeerConfig) : option string :=
  let password := h_password h in
  if negb (is_empty (p_password p)) && negb (is_shared_ab (h_password_source h) password (h_hash h).1)
     && negb (is_personal_ab (h_password_source h) password)
  then Some (b64_encode (p_password p)) else None.

Definition told_handler (pi : PeerInfoMsg) (h : LoginConfigHandler) : LoginConfigHandler :=
  let h := if negb (is_empty (pim_version pi))
           then h <| h_version := get_version_number (pim_version pi) |> else h in
  h <| h_features := pim_privacy_mode pi |>.

Definition with_info (pi : PeerInfoMsg) (h : LoginConfigHandler) (p : PeerConfig) : PeerConfig :=
  p <| p_info := {| info_username := pim_username pi; info_hostname := pim_hostname pi;
                    info_platform := pim_platform pi |} |>
    <| p_password := remembered_password h (p_password p) |>.

Definition with_route (h : LoginConfigHandler) (p : PeerConfig) : PeerConfig :=
  let p := match h_other_server h with
           | Some (_, b, k) => if negb (String.eqb b PUBLIC_SERVER)
                               then p <| p_options := <["other-server-key" := k]> (p_options p) |> else p
           | None => p
           end in
  if h_force_relay h then p <| p_options := <["force-always-relay" := "Y"]> (p_options p) |> else p.

Definition with_keyboard (pi : PeerInfoMsg) (p : PeerConfig) : PeerConfig :=
  p <| p_keyboard_mode := checked_keyboard_mode (get_version_number (pim_version pi))
                            (pim_platform pi) (p_keyboard_mode p) |>.

Definition handle_peer_info (pi : PeerInfoMsg) (c : Client) : option string * Client :=
  let h := told_handler pi (lch c) in
  let '(p, c) := load_config (c <| lch := h |>) in
  let p := with_route h (with_info pi h p) in
  (synced_password h p, save_config (with_keyboard pi p) c).

(** ** Directories of the host *)

Definition remote_dirs (h : LoginConfigHandler) : smap :=
  default ∅ (ce_read_map env (h_get_option "remote_dir" h)).
Definition get_remote_dir (h : LoginConfigHandler) : string :=
  default "" (remote_dirs h !! info_username (p_info (h_config h))).
Definition get_all_remote_dir (path : string) (h : LoginConfigHandler) : string :=
  let user := info_username (p_info (h_config h)) in
  ce_print_map env (if is_empty path then delete user (remote_dirs h)
                    else <[user := path]> (remote_dirs h)).

(** ** Logging in *)

Definition get_key_terminal_service_id (h : LoginConfigHandler) : string :=
  if h_is_terminal_admin h then "terminal-admin-service-id" else "terminal-service-id".

Definition create_login_msg (os_username os_password password : string) (c : Client)
    : LoginRequest * Client :=
  let h := lch c in
  let '(my_id, pure_id) :=
    match h_other_server h with
    | Some (id, _, _) => (ce_my_id env ++ "@" ++ ce_rendezvous_server env, id)
    | None => (ce_my_id env, h_id h)
    end in
  let hwid := if String.eqb (h_get_option "trust-this-device" h) "Y" then ce_hwid env else "" in
  let '(o, c) := get_option_message true c in
  ({| lr_username := pure_id; lr_password := password; lr_my_id := my_id;
      lr_my_name := ce_display_name env; lr_option := o;
      lr_union :=
        match h_conn_type h with
        | FILE_TRANSFER => Some (LoginFileTransfer (get_remote_dir h)
                                   (negb (is_empty (h_get_option "remote_show_hidden" h))))
        | VIEW_CAMERA => Some LoginViewCamera
        | PORT_FORWARD | RDP => Some (LoginPortForward (h_port_forward h).1 (h_port_forward h).2)
        | TERMINAL => Some (LoginTerminal (h_get_option (get_key_terminal_service_id h) h))
        | DEFAULT_CONN => None
        end;
      lr_video_ack_required := false; lr_session_id := h_session_id h; lr_version := ce_version env;
      lr_os_login := Some (os_username, os_password); lr_my_platform := ce_my_platform env;
      lr_hwid := hwid; lr_avatar := ce_avatar env |}, c).

Definition get_conn_token (h : LoginConfigHandler) : option ConnToken :=
  if is_empty (h_password h) then None
  else Some {| t_password := h_password h; t_password_source := h_password_source h;
               t_session_id := h_session_id h |}.

Inductive ClientEvent :=
| MsgBox (msgtype title text link : string)
| SendLogin (lr : LoginRequest)
| SendSwitchSides (lr : LoginRequest) (uuid : string).

(** The hash of the peer in the own address book. *)
Definition personal_ab_password (id : string) : option string :=
  match ce_ab env with
  | Some (token, entries) =>
      if negb (is_empty (ce_access_token env)) && String.eqb (ce_access_token env) token then
        '(_, peers) ← List.find fst entries;
        '(_, hash) ← List.find (λ p, String.eqb p.1 id) peers;
        p ← b64_decode hash;
        if is_empty p then None else Some p
      else None
  | None => None
  end.

(** The password a session begins with, in the order of preference: the one of the
    last connection, the preset one, the shared one (which replaces these), the
    remembered one, the one of the address book, the built-in one. *)
Definition choose_password (preset : string) (h : LoginConfigHandler) (salt : string)
    : string * LoginConfigHandler :=
  let password := h_password h in
  let '(password, h) :=
    if is_empty password && negb (is_empty preset)
    then (sha256 (preset ++ salt), h <| h_password_source := Undefined |>) else (password, h) in
  let shared := h_shared_password h in
  let h := h <| h_shared_password := None |> in
  let '(password, h) :=
    match shared with
    | Some s => if is_empty s then (password, h)
                else (sha256 (s ++ salt), h <| h_password_source := SharedAb s |>)
    | None => (password, h)
    end in
  let '(password, h) :=
    if is_empty password then
      let p := p_password (h_config h) in
      (p, if is_empty p then h else h <| h_password_source := Undefined |>)
    else (password, h) in
  let '(password, h) :=
    if is_empty password then
      match personal_ab_password (h_id h) with
      | Some p => (p, h <| h_password_source := PersonalAb p |>)
      | None => (password, h)
      end
    else (password, h) in
  if is_empty password then
    let p := get_builtin_option (ce_globals env) "default-connect-password" in
    if is_empty p then (password, h)
    else (sha256 (p ++ salt), h <| h_password_source := SharedAb p |>)
  else (password, h).

Definition handle_hash (preset : string) (hash : string * string) (c : Client)
    : list ClientEvent * Client :=
  let h := lch c <| h_hash := hash |> in
  let uuid := h_switch_uuid h in
  let h := h <| h_switch_uuid := None |> in
  match u ← uuid; ce_parse_uuid env u with
  | Some u =>
      let '(lr, c) := create_login_msg "" "" "" (c <| lch := h |>) in
      ([SendSwitchSides lr u], c <| lch := lch c <| h_password_source := Undefined |> |>)
  | None =>
      let '(password, h) := choose_password preset h hash.1 in
      let h := h <| h_password := password |> in
      let is_terminal := bool_decide (h_conn_type h = TERMINAL) in
      if is_terminal && h_is_terminal_admin h then
        ([MsgBox (if is_empty password then "terminal-admin-login-password" else "terminal-admin-login")
            "" "" ""], c <| lch := h |>)
      else
        let ask := if is_empty password then [MsgBox "input-password" "Password Required" "" ""] else [] in
        let answer := if is_empty password then "" else sha256 (password ++ hash.2) in
        let '(u, p) := if is_terminal then ("", "")
                       else (h_get_option "os-username" h, h_get_option "os-password" h) in
        let '(lr, c) := create_login_msg u p answer (c <| lch := h |>) in
        ((ask ++ [SendLogin lr])%list, c)
  end.

Definition handle_login_from_ui (os_username os_password password : string) (remember : bool) (c : Client)
    : list ClientEvent * Client :=
  let h := lch c in
  let '(hash_password, h) :=
    if is_empty password then
      let p := h_password h in
      if is_empty p then
        let p := p_password (h_config h) in
        (p, if is_empty p then h else h <| h_password_source := Undefined |>)
      else (p, h)
    else (sha256 (password ++ (h_hash h).1),
          h <| h_password_source := Undefined |> <| h_remember := remember |>) in
  let h := h <| h_password := hash_password |> in
  let '(lr, c) := create_login_msg os_username os_password (sha256 (hash_password ++ (h_hash h).2))
                    (c <| lch := h |>) in
  ([SendLogin lr], c).

(** *** Errors *)

Definition SCRAP_X11_REQUIRED : string := "x11 expected".
Definition SCRAP_X11_REF_URL : string := "https://dicad.cn/docs/en/manual/linux/#x11-required".
Variable LINK_HEADLESS_LINUX_SUPPORT : string.     (* a link of the documentation *)

(** [LOGIN_ERROR_MAP]: the box shown for an error, and whether to go on. *)
Definition LOGIN_ERROR_MAP (err : string) : option (string * string * string * string * bool) :=
  if String.eqb err "Wayland login screen is not supported" then
    Some ("error", "Login Error", "Login screen using Wayland is not supported",
          "https://dicad.cn/docs/en/manual/linux/#login-screen", true)
  else if String.eqb err "Desktop session not ready" then Some ("session-login", "", "", "", true)
  else if String.eqb err "Desktop xsession failed" then Some ("session-re-login", "", "", "", true)
  else if String.eqb err "Desktop session another user login" then
    Some ("info-nocancel", "another_user_login_title_tip", "another_user_login_text_tip", "", false)
  else if String.eqb err "Desktop xorg not found" then
    Some ("info-nocancel", "xorg_not_found_title_tip", "xorg_not_found_text_tip",
          LINK_HEADLESS_LINUX_SUPPORT, true)
  else if String.eqb err "Desktop none" then
    Some ("info-nocancel", "no_desktop_title_tip", "no_desktop_text_tip", LINK_HEADLESS_LINUX_SUPPORT, true)
  else if String.eqb err "Desktop session not ready, password empty" then
    Some ("session-login-password", "", "", "", true)
  else if String.eqb err "Desktop session not ready, password wrong" then
    Some ("session-login-re-password", "", "", "", true)
  else if String.eqb err "No Password Access" then
    Some ("wait-remote-accept-nook", "Prompt",
          "Please wait for the remote side to accept your session request...", "", true)
  else None.

(** [true]: the user may go on. *)
Definition handle_login_error (err : string) (c : Client) : bool * list ClientEvent * Client :=
  let forget c := c <| lch := lch c <| h_password := "" |> |> in
  if String.eqb err "Empty Password" then
    (true, [MsgBox "input-password" "Password Required" "" ""], forget c)
  else if String.eqb err "Wrong Password" then
    (true, [MsgBox "re-input-password" err "Do you want to enter again?" ""], forget c)
  else if String.eqb err "Wrong 2FA Code" || String.eqb err "2FA Required" then
    let c := if String.eqb (h_get_option "trust-this-device" (lch c)) "Y"
             then h_set_option "trust-this-device" "" c else c in
    (true, [MsgBox "input-2fa" err "" ""], c)
  else match LOGIN_ERROR_MAP err with
       | Some (t, title, text, link, again) => (again, [MsgBox t title text link], c)
       | None => (false, [MsgBox "error" "Login Error" err
                            (if contains_str SCRAP_X11_REQUIRED err then SCRAP_X11_REF_URL else "")], c)
       end.

End Client.

(** Whether the interface connects again by itself; the letters of the texts
    looked for are ASCII. *)
Definition check_if_retry (use_ws : bool) (msgtype title text : string) (retry_for_relay : bool) : bool :=
  let lower := to_lower text in
  let no p := negb (contains_str p lower) in
  String.eqb msgtype "error" && String.eqb title "Connection Error"
  && (((contains_str "10054" text || contains_str "104" text) && retry_for_relay)
      || (no "offline" && no "not exist"
          && (no "handshake" || (contains_str "connection reset without closing handshake" lower && use_ws))
          && no "failed" && no "resolve" && no "mismatch" && no "manually" && no "not allowed")).
