(* ===== verification/Login.v ===== *)
(** * Logging in

    [src/server/connection.rs], Linux desktop: how a controlling peer becomes
    authorised.  [on_open] checks the whitelist and sends the challenge;
    [on_message] handles login requests, second factors, side switches and the
    delay test, and hands everything else on when the connection is authorised;
    [send_logon_response_and_keep_alive] grants the session; the branches of the
    loop of [start] for the connection manager, the timers and the end of the
    stream are the rest of [step].  Sleeps before an error closes the connection
    are left out. *)

From S2P Require Import Prelude Strs Version VideoQos Secret Options Password HostPort Permissions Throttle Sessions Services Conn.
From Stdlib Require Import Ascii String.

Local Open Scope string_scope.
#[local] Arguments String.append _ _ : simpl nomatch.

Definition LOGIN_MSG_DESKTOP_SESSION_NOT_READY : string := "Desktop session not ready".
Definition LOGIN_MSG_DESKTOP_SESSION_NOT_READY_PASSWORD_EMPTY : string :=
  "Desktop session not ready, password empty".
Definition LOGIN_MSG_DESKTOP_SESSION_NOT_READY_PASSWORD_WRONG : string :=
  "Desktop session not ready, password wrong".
Definition LOGIN_MSG_PASSWORD_WRONG : string := "Wrong Password".
Definition LOGIN_MSG_2FA_WRONG : string := "Wrong 2FA Code".
Definition REQUIRE_2FA : string := "2FA Required".
Definition LOGIN_MSG_NO_PASSWORD_ACCESS : string := "No Password Access".
Definition LOGIN_MSG_OFFLINE : string := "Offline".
Definition LOGIN_SCREEN_WAYLAND : string := "Wayland login screen is not supported".

Definition bytes_of (s : string) : list Z :=
  map (λ a, Z.of_nat (nat_of_ascii a)) (list_ascii_of_string s).

(** [constant_time_eq] on byte strings. *)
Fixpoint diff_bits (a b : list ascii) : Z :=
  match a, b with
  | x :: a, y :: b =>
      Z.lor (Z.lxor (Z.of_nat (nat_of_ascii x)) (Z.of_nat (nat_of_ascii y))) (diff_bits a b)
  | _, _ => 0
  end.
Definition constant_time_eq (a b : string) : bool :=
  if negb (Nat.eqb (str_len a) (str_len b)) then false
  else (diff_bits (list_ascii_of_string a) (list_ascii_of_string b) =? 0)%Z.

#[global] Instance ApproveMode_eq_dec : EqDecision ApproveMode.
Proof. solve_decision. Defined.

Section Login.
  Context `{T : Totp} `{C : Crypto} `{J : Json}.
  Variable env : Env.

#[local] Notation "f <~ v" := (modify_self (λ c, c <| f := v |>)) (at level 70, v at level 69).
#[local] Abbreviation World := (@World T).
#[local] Abbreviation Connection := (@Connection T).
#[local] Abbreviation opt := (Conn.config_option env).

Definition permission_of (o : string) : M bool :=
  c ← self; h ← gets w_host;
  mret (permission (globals env) (CFG2 h) o (c_control_permissions c)).

Definition enable_trusted_devices : M bool :=
  v ← opt "enable-trusted-devices"; mret (option2bool "enable-trusted-devices" v).

Definition send_login_error (err : string) : M unit :=
  if String.eqb err REQUIRE_2FA then
    b ← enable_trusted_devices; emit (LoginError err b)
  else emit (LoginError err false).

(** ** Opening *)

Definition check_whitelist (ip : string) : M bool :=
  v ← opt "whitelist";
  let whitelist := List.filter (λ x, negb (is_empty x)) (split_on "," v) in
  if negb (bool_decide (whitelist = []))
     && negb (existsb (String.eqb "0.0.0.0") whitelist)
     && negb (existsb (λ x, cidr_contains env x ip) whitelist)
  then
    send_login_error "Your ip is blocked by the peer";;
    emit (AlarmAudit IpWhitelist);;
    mret false
  else mret true.

Definition on_open (ip : string) : M bool :=
  ok ← check_whitelist ip;
  if negb ok then mret false else
  only ← opt "allow-only-conn-window-open";
  if is_server env && String.eqb only "Y" && negb (main_window_open env) then
    send_login_error "The main window is not open";; mret false
  else
    c_ip <~ ip;;
    c ← self; emit (SendHash (c_salt c) (c_challenge c));;
    emit AuditNew;;
    mret true.

(** ** Port forwarding *)

Definition normalize_port_forward_target (host : string) (port : Z) : string * bool :=
  let '(host, port, is_rdp) :=
    if String.eqb host "RDP" && (port =? 0)%Z then ("localhost", 3389%Z, true) else (host, port, false) in
  let host := if is_empty host then "localhost" else host in
  (host ++ ":" ++ show_Z port, is_rdp).

Definition connect_port_forward_if_needed : M bool :=
  c ← self;
  if c_port_forward_socket c then mret true else
  match lr_union (c_lr c) with
  | Some (LoginPortForward host port) =>
      let '(addr, is_rdp) := normalize_port_forward_target host port in
      c_port_forward_address <~ addr;;
      if tcp_connect env addr then
        c_port_forward_socket <~ true;; emit (OpenPortForward addr);; mret true
      else
        send_login_error ("Failed to access remote " ++ (if is_rdp then "RDP" else addr)
                          ++ ". Please make sure it is reachable/open.");;
        mret false
  | _ => mret true
  end.

(** ** Sessions and passwords *)

Definition verify_h1 (c : Connection) (h1 : string) : bool :=
  constant_time_eq (sha256 (h1 ++ c_challenge c)) (lr_password (c_lr c)).

Definition validate_password_plain (c : Connection) (password : string) : bool :=
  if is_empty password then false else verify_h1 c (sha256 (password ++ c_salt c)).

Definition validate_password_storage (c : Connection) (storage : string) : bool :=
  if is_empty storage then false
  else match decode_permanent_password_h1_from_storage storage with
       | Some h1 => verify_h1 c h1
       | None => validate_password_plain c storage
       end.

Definition validate_password : M bool :=
  c ← self; h ← gets w_host;
  let g := globals env in
  let pw := temporary_password h in
  if temporary_enabled g (CFG2 h) && validate_password_plain c pw then
    modify_stat (update_or_insert_session (session_key_of c) (Some pw) (Some false) (now env));;
    mret true
  else if permanent_enabled g (CFG2 h) then
    let local_storage := (get_local_permanent_password_storage_and_salt h).1 in
    if negb (is_empty local_storage) then mret (validate_password_storage c local_storage)
    else
      let hard := default "" (HARD_SETTINGS g !! "password") in
      mret (negb (is_empty hard) && validate_password_plain c hard)
  else mret false.

Definition is_recent_session (tfa2 : bool) : M bool :=
  c ← self; st ← gets w_stat;
  mret match SESSIONS st !! session_key_of c with
       | Some s => negb (is_empty (lr_password (c_lr c)))
                   && ((tfa2 && tfa s) || (negb tfa2 && validate_password_plain c (random_password s)))
       | None => false
       end.

(** ** Throttling, on the table of passwords or of second factors *)

Definition failures_of (i : bool) (w : World) : failures :=
  if i then w_failures_2fa w else w_failures w.
Definition set_failures (i : bool) (m : failures) (w : World) : World :=
  if i then w <| w_failures_2fa := m |> else w <| w_failures := m |>.

Definition alarm_of (msg : string) : AlarmAuditType :=
  if String.eqb msg "Too many wrong attempts" then ExceedThirtyAttempts
  else if String.eqb msg "Please try 1 minute later" then SixAttemptsWithinOneMinute
  else ExceedIPv6PrefixAttempts.

Definition check_failure_of (i : bool) : M ((Failure * Z) * bool) :=
  c ← self; m ← gets (failures_of i);
  let time := minute_of (time_ms env) in
  match check_failure (c_ip c) time m with
  | (f, Some msg) => send_login_error msg;; emit (AlarmAudit (alarm_of msg));; mret ((f, time), false)
  | (f, None) => mret ((f, time), true)
  end.

Definition update_failure_of (ft : Failure * Z) (remove i : bool) : M unit :=
  modify (λ w, set_failures i
    (update_failure (c_ip (w_conn w)) ft.1 ft.2 remove (failures_of i w)) w).

(** [Config::get_id()], which may replace the id. *)
Definition get_own_id : M string :=
  λ w, let '(i, c) := get_id (machine env) (globals env) (rng env) (hostname env) (draw env)
                        (CONFIG (w_host w)) in
       (i, w <| w_host := set_CONFIG c (w_host w) |>).

(** ** Granting the session *)

Definition has_file_transfer (c : Connection) : bool := bool_decide (is_Some (c_file_transfer c)).

Definition conn_type_of (c : Connection) : Z * AuthConnType :=
  if has_file_transfer c then (1%Z, FileTransfer)
  else if c_port_forward_socket c then (2%Z, PortForward)
  else if c_view_camera c then (3%Z, ViewCamera)
  else if c_terminal c then (4%Z, Terminal)
  else (0%Z, Remote).

Definition authorize (c : Connection) : M unit :=
  let '(conn_type, auth) := conn_type_of c in
  let key := session_key_of c in
  abr ← opt "enable-abr";
  modify_stat (AuthedConnID_new (c_id c) auth key (lr_version (c_lr c)) (lr_my_platform (c_lr c))
                 abr (now env));;
  c_authed_conn_id <~ Some auth;;
  st ← gets w_stat;
  c_session_last_recv_time <~ (last_recv_time <$> SESSIONS st !! key);;
  emit (AuditConn (lr_my_id (c_lr c), lr_my_name (c_lr c)) conn_type).

Definition double_quote : string := String "034"%char EmptyString.

(** Why the display server of the host cannot be controlled. *)
Definition display_server_error : string :=
  if is_login_screen_wayland env then LOGIN_SCREEN_WAYLAND
  else if negb (String.eqb (display_server env) "x11") && negb (String.eqb (display_server env) "wayland")
  then "Unsupported display server type " ++ double_quote ++ display_server env ++ double_quote
       ++ ", x11 or wayland expected"
  else "".

Definition on_remote_authorized : M unit :=
  emit UpdateCodecOnLogin;;
  v ← opt "allow-remove-wallpaper";
  when (option2bool "allow-remove-wallpaper" v && has_wallpaper_remover env) (emit RemoveWallpaper).

Definition init_terminal_service : M unit :=
  c ← self;
  if negb (c_terminal_user_token c) then mret tt else
  (if is_empty (c_terminal_service_id c) then c_terminal_service_id <~ fresh_service_id env else mret tt);;
  c ← self;
  emit (InitTerminalService (c_terminal_service_id c) (c_terminal_persistent c)).

(** The answer to the peer; [true] when the services of a remote-control session
    are to be subscribed. *)
Definition login_response (c : Connection) : M bool :=
  let username := if has_file_transfer c && is_prelogin env then "" else active_username env in
  let pi := {| pi_username := username; pi_features := true; pi_encoding := false; pi_displays := [] |} in
  if has_file_transfer c || c_terminal c then emit (LoginPeerInfo pi);; mret false
  else if c_view_camera c then
    emit UpdateCodecOnLogin;;
    emit (LoginPeerInfo {| pi_username := username; pi_features := true; pi_encoding := true;
                           pi_displays := camera_displays env |});;
    mret false
  else
    when (display_inited_msg env) (emit SendDisplayInited);;
    emit TryActivateScreen;;
    match sync_displays env with
    | Err e => on_remote_authorized;; emit (LoginError e false);; mret false
    | Ok ds =>
        when (wayland_use_rdp_input env) (emit SetupRdpInput);;
        on_remote_authorized;;
        emit (LoginPeerInfo {| pi_username := username; pi_features := true; pi_encoding := true;
                               pi_displays := ds |});;
        mret true
    end.

(** What the session starts with, by its kind. *)
Definition start_session (sub_service : bool) : M unit :=
  c ← self;
  match c_file_transfer c with
  | Some (dir, show_hidden) =>
      emit (ReadDir (if negb (is_empty dir) && is_dir env dir then dir else "") show_hidden)
  | None =>
      if c_terminal c then
        c_keyboard <~ false;; init_terminal_service
      else if c_view_camera c then
        try_sub_camera_displays env;;
        c_keyboard <~ false;; emit (SendPermission PKeyboard false)
      else when sub_service (try_sub_monitor_services env)
  end.

Definition take_options_in_login : M unit :=
  c ← self;
  match c_options_in_login c with
  | Some o => c_options_in_login <~ None;; update_options env o
  | None => mret tt
  end.

Definition send_logon_response_and_keep_alive : M bool :=
  c ← self;
  if c_authorized c then mret true else
  recent ← is_recent_session true;
  if bool_decide (is_Some (c_require_2fa c)) && negb recent && negb (c_from_switch c) then
    when (telegram_bot env) (_ ← get_own_id; emit Telegram2faCode);;
    send_login_error REQUIRE_2FA;;
    mret true
  else
    ok ← connect_port_forward_if_needed;
    if negb ok then mret false else
    c_authorized <~ true;;
    c ← self;
    authorize c;;
    if c_port_forward_socket c then
      emit (LoginPeerInfo {| pi_username := active_username env; pi_features := false;
                             pi_encoding := false; pi_displays := [] |});;
      mret true
    else if is_remote c && negb (is_empty display_server_error) then
      emit (LoginError display_server_error false);; mret true
    else
      sub_service ← login_response c;
      take_options_in_login;;
      start_session sub_service;;
      mret true.

(** ** The connection manager *)

Definition try_start_cm (peer_id name : string) (authorized : bool) : M unit :=
  c ← self;
  emit (CmLogin peer_id name (lr_avatar (c_lr c)) (c_port_forward_address c)
          (has_file_transfer c) (c_view_camera c) (c_terminal c) authorized (c_from_switch c)
          (c_keyboard c) (c_clipboard c) (c_audio c) (c_file c) (c_restart c) (c_recording c)
          (c_block_input c)).

Definition try_start_cm_ipc : M unit :=
  c ← self;
  when (c_start_cm_ipc_para c) (c_start_cm_ipc_para <~ false;; emit StartCmIpc).

(** ** Login requests *)

(** The device of the list that lets a second factor be skipped. *)
Definition trusted_device_of (lr : LoginRequest) (l : list TrustedDevice) : bool :=
  match List.find (λ d, String.eqb (hwid d) (lr_hwid lr)) l with
  | Some d => negb (outdate (time_ms env) d) && String.eqb (dev_id d) (lr_my_id lr)
              && String.eqb (dev_name d) (lr_my_name lr) && String.eqb (platform d) (lr_my_platform lr)
  | None => false
  end.

Definition load_trusted_devices : M (list TrustedDevice) :=
  λ w, let d := get_trusted_devices (machine env) (time_ms env) (w_host w) in
       (d.1, w <| w_host := d.2 |>).

Definition handle_login_request_without_validation (lr : LoginRequest) : M unit :=
  c_lr <~ lr;;
  c_peer_argb <~ str2color (bytes_of (lr_my_id lr ++ lr_my_platform lr)) 255;;
  match lr_option lr with Some o => c_options_in_login <~ Some o | None => mret tt end;;
  c ← self; trusted ← enable_trusted_devices;
  (if bool_decide (is_Some (c_require_2fa c)) && negb (is_empty (lr_hwid lr)) && trusted then
     devices ← load_trusted_devices;
     (if trusted_device_of lr devices then c_require_2fa <~ None else mret tt)
   else mret tt);;
  c_video_ack_required <~ lr_video_ack_required lr.

(** Refuse and close. *)
Definition refuse (msg : string) : M bool := send_login_error msg;; mret false.

(** The kind of connection the request asks for: permission, and what it sets. *)
Definition request_kind (lr : LoginRequest) : M bool :=
  match lr_union lr with
  | Some (LoginFileTransfer dir show_hidden) =>
      p ← permission_of "enable-file-transfer";
      if negb p then refuse "No permission of file transfer"
      else c_file_transfer <~ Some (dir, show_hidden);; mret true
  | Some LoginViewCamera =>
      p ← permission_of "enable-camera";
      if negb p then refuse "No permission of viewing camera"
      else c_view_camera <~ true;; mret true
  | Some (LoginTerminal service_id) =>
      p ← permission_of "enable-terminal";
      if negb p then refuse "No permission of terminal"
      else
        c_terminal <~ true;;
        c ← self;
        match c_options_in_login c with
        | Some o => c_terminal_persistent <~ bool_decide (o_terminal_persistent o = Some Yes)
        | None => mret tt
        end;;
        c_terminal_service_id <~ service_id;;
        c_terminal_user_token <~ true;;           (* fill_terminal_user_token *)
        (* the own user is no specified user *)
        (if bool_decide (service_specified_user env service_id = Some true)
         then refuse "Terminal service user mismatch detected." else mret true)
  | Some (LoginPortForward host port) =>
      p ← permission_of "enable-tunnel";
      if negb p then refuse "No permission of IP tunneling"
      else c_port_forward_address <~ (normalize_port_forward_target host port).1;; mret true
  | None =>
      if is_in_privacy_mode env then refuse "Someone turns on privacy mode, exit" else mret true
  end.

Definition try_start_desktop (os_login : Datatypes.option (string * string)) : M string :=
  c ← self;
  mret (if c_is_headless_allowed c then
          match os_login with
          | Some (u, p) => desktop_manager env u p
          | None => desktop_manager env "" ""
          end
        else "").

Definition wait_desktop_cm_ready : M unit :=
  c ← self; when (c_is_headless c) (emit WaitDesktopCmReady).

(** Whether the peer addressed this host. *)
Definition addressed (username : string) : M bool :=
  if negb (is_ip_str username) && negb (is_domain_port_str username) then
    i ← get_own_id; mret (String.eqb username i)
  else mret true.

Definition is_logon : bool := is_prelogin env || is_locked env.

(** Whether only a click of the user can let the peer in. *)
Definition click_only (h : Host) : bool :=
  let g := globals env in
  (bool_decide (approve_mode g (CFG2 h) = Click)
   && negb (String.eqb (get_builtin_option g "allow-logon-screen-password") "Y" && is_logon))
  || (bool_decide (approve_mode g (CFG2 h) = Both) && negb (has_valid_password g h)).

(** Grant, and tell the connection manager. *)
Definition logon (lr : LoginRequest) (err_msg : string) : M bool :=
  if is_empty err_msg then
    wait_desktop_cm_ready;;
    ok ← send_logon_response_and_keep_alive;
    if negb ok then mret false else
    c ← self; try_start_cm (lr_my_id lr) (lr_my_name lr) (c_authorized c);;
    mret true
  else send_login_error err_msg;; mret true.

Definition login_with_password (lr : LoginRequest) (err_msg : string) : M bool :=
  '(failure, res) ← check_failure_of false;
  if negb res then mret true else
  valid ← validate_password;
  if negb valid then
    update_failure_of failure false false;;
    (if is_empty err_msg then
       send_login_error LOGIN_MSG_PASSWORD_WRONG;;
       try_start_cm (lr_my_id lr) (lr_my_name lr) false
     else send_login_error LOGIN_MSG_DESKTOP_SESSION_NOT_READY_PASSWORD_WRONG);;
    mret true
  else
    update_failure_of failure true false;;
    logon lr err_msg.

Definition handle_login_request (lr : LoginRequest) : M bool :=
  handle_login_request_without_validation lr;;
  c ← self;
  if c_authorized c then mret true else
  ok ← request_kind lr;
  if negb ok then mret false else
  try_start_cm_ipc;;
  err_msg ← try_start_desktop (lr_os_login lr);
  if negb (is_empty err_msg) && negb (String.eqb err_msg LOGIN_MSG_DESKTOP_SESSION_NOT_READY) then
    send_login_error err_msg;; mret true
  else
    ours ← addressed (lr_username lr);
    if negb ours then refuse LOGIN_MSG_OFFLINE else
    h ← gets w_host;
    if click_only h then
      try_start_cm (lr_my_id lr) (lr_my_name lr) false;;
      when (get_version_number "1.2.0" <=? get_version_number (lr_version lr))%Z
           (send_login_error LOGIN_MSG_NO_PASSWORD_ACCESS);;
      mret true
    else
      recent ← is_recent_session false;
      if (recent : bool) then logon lr err_msg
      else if is_empty (lr_password lr) then
        (if is_empty err_msg then try_start_cm (lr_my_id lr) (lr_my_name lr) false
         else send_login_error LOGIN_MSG_DESKTOP_SESSION_NOT_READY_PASSWORD_EMPTY);;
        mret true
      else login_with_password lr err_msg.

(** ** Second factors *)

Definition handle_auth_2fa (code hwid : string) : M bool :=
  '(failure, res) ← check_failure_of true;
  if negb res then mret true else
  c ← self;
  match c_require_2fa c with
  | None => mret true
  | Some totp =>
      match check_current totp (time_ms env) code with
      | None => mret true
      | Some true =>
          update_failure_of failure true true;;
          c_require_2fa <~ None;;
          modify_stat (set_session_2fa (session_key_of c) (now env));;
          ok ← send_logon_response_and_keep_alive;
          if negb ok then mret false else
          c ← self;
          try_start_cm (lr_my_id (c_lr c)) (lr_my_name (c_lr c)) (c_authorized c);;
          trusted ← enable_trusted_devices;
          when (negb (is_empty hwid) && trusted)
            (modify_host (add_trusted_device (machine env) (time_ms env)
               {| Password.hwid := hwid; time := time_ms env; dev_id := lr_my_id (c_lr c);
                  dev_name := lr_my_name (c_lr c); platform := lr_my_platform (c_lr c) |}));;
          mret true
      | Some false =>
          update_failure_of failure false true;;
          send_login_error LOGIN_MSG_2FA_WRONG;; mret true
      end
  end.

(** ** Switching sides *)

(** Ten seconds, in nanoseconds. *)
Definition SWITCH_SIDES_TIMEOUT : Z := (10 * 10 ^ 9)%Z.

Definition insert_switch_sides_uuid (id uuid : string) : M unit :=
  modify (λ w, w <| w_switch_uuid := <[id := (now env, uuid)]> (w_switch_uuid w) |>).

(** Expired entries go, and the entry of the peer is taken. *)
Definition take_switch_uuid (peer : string) : M (Datatypes.option string) :=
  λ w, let fresh := filter (λ kv, (now env - kv.2.1 < SWITCH_SIDES_TIMEOUT)%Z) (w_switch_uuid w) in
       (snd <$> fresh !! peer, w <| w_switch_uuid := delete peer fresh |>).

Definition handle_switch_sides (lr : Datatypes.option LoginRequest) (uuid : string) : M bool :=
  match lr with
  | None => mret true
  | Some lr =>
      handle_login_request_without_validation lr;;
      uuid_old ← take_switch_uuid (lr_my_id lr);
      (* Uuid::from_slice: sixteen bytes *)
      if Nat.eqb (str_len uuid) 16 && bool_decide (uuid_old = Some uuid) then
        c_from_switch <~ true;;
        ok ← send_logon_response_and_keep_alive;
        if negb ok then mret false else
        c ← self;
        try_start_cm (lr_my_id lr) (lr_my_name lr) (c_authorized c);;
        try_start_cm_ipc;;
        mret true
      else mret true
  end.

(** ** Messages and the loop *)

Inductive Message :=
| MsgCloseReason (reason : string)
| MsgLoginRequest (lr : LoginRequest)
| MsgAuth2fa (code hwid : string)
| MsgTestDelay (from_client : bool)
| MsgSwitchSidesResponse (lr : Datatypes.option LoginRequest) (uuid : string)
| MsgOption (o : OptionMessage)
| MsgOther (payload : string).

Definition on_close (reason : string) (lock : bool) : M unit :=
  c ← self;
  if c_closed c then mret tt else
  c_closed <~ true;;
  emit ResetVoiceCallInput;;
  when (lock && c_lock_after_session_end c && c_keyboard c) (emit LockScreen);;
  emit (if c_chat_unanswered c || c_file_transferred c then CmDisconnected else CmClose);;
  c_port_forward_socket <~ false.

Definition remove_session : M unit :=
  c ← self; modify_stat (check_remove_session (c_id c) (session_key_of c)).

Definition send_close_reason_no_retry (reason : string) : M unit :=
  emit (SendCloseReason (if is_empty reason then "Closed manually by the peer" else reason));;
  remove_session.

(** [tm.elapsed().as_millis() as u32]. *)
Definition elapsed_ms (t : Z) : Z := wrap 32 (Z.quot (now env - t) 1000000).

Definition handle_test_delay (from_client : bool) : M unit :=
  if from_client then emit SendTestDelay else
  c ← self;
  match c_last_test_delay c with
  | Some tm =>
      let new_delay := elapsed_ms tm in
      c_last_test_delay <~ None;;
      qos_do (λ q, default q (user_network_delay (user_iter env) (display_iter env) true
                                (c_id c) new_delay (now env) q));;
      c_network_delay <~ new_delay
  | None => mret tt
  end.

(** [false]: the connection ends. *)
Definition on_message (msg : Message) : M bool :=
  match msg with
  | MsgCloseReason _ => on_close "Peer close" true;; remove_session;; mret false
  | MsgLoginRequest lr => handle_login_request lr
  | MsgAuth2fa code hwid => handle_auth_2fa code hwid
  | MsgTestDelay from_client => handle_test_delay from_client;; mret true
  | MsgSwitchSidesResponse lr uuid => handle_switch_sides lr uuid
  | MsgOption o =>
      c ← self;
      if c_authorized c then
        if c_port_forward_socket c then mret true else update_options env o;; mret true
      else mret true
  | MsgOther payload =>
      c ← self;
      if c_authorized c then
        if c_port_forward_socket c then mret true else emit (Dispatch payload);; mret true
      else mret true
  end.

(** What the connection manager sends. *)
Inductive CmData :=
| CmAuthorize
| CmDataClose
| CmErr (e : string)
| CmChatMessage (text : string)
| CmSwitchPermission (name : string) (enabled : bool).

Definition on_cm (d : CmData) : M bool :=
  match d with
  | CmAuthorize =>
      c_require_2fa <~ None;;
      ok ← send_logon_response_and_keep_alive;
      if negb ok then mret false else
      c ← self; mret (negb (c_port_forward_socket c))
  | CmDataClose =>
      c_chat_unanswered <~ false;; c_file_transferred <~ false;;
      send_close_reason_no_retry "";; on_close "connection manager" true;; mret false
  | CmErr e =>
      if negb (String.eqb e "expected") then
        on_close ("connection manager error: " ++ e) false;; mret false
      else mret true
  | CmChatMessage text => emit (SendChat text);; c_chat_unanswered <~ false;; mret true
  | CmSwitchPermission nm enabled => switch_permission env nm enabled;; mret true
  end.

Inductive Input :=
| InMessage (msg : Message)
| InStreamErr (e : string)
| InStreamEnd
| InCm (d : CmData)
| InWebConsole                                 (* hbbs_rx names this connection *)
| InStopService
| InSecondTimer
| InTestDelayTimer (idle_ns : Z).              (* since the last message *)

Definition SEC30 : Z := (30 * 10 ^ 9)%Z.

(** The branches of [tokio::select!]; [false]: the loop ends. *)
Definition on_input (i : Input) : M bool :=
  match i with
  | InMessage msg =>
      c ← self;
      match c_session_last_recv_time c with
      | Some l => modify_stat (set_clock l (now env))
      | None => mret tt
      end;;
      ok ← on_message msg;
      if negb ok then mret false else
      c ← self;
      mret (negb (c_port_forward_socket c && c_authorized c && bool_decide (c_last_test_delay c = None)))
  | InStreamErr e => on_close e true;; mret false
  | InStreamEnd => on_close "Reset by the peer" true;; mret false
  | InCm d => on_cm d
  | InWebConsole =>
      send_close_reason_no_retry "Closed manually by web console";;
      on_close "web console" true;; mret false
  | InStopService => send_close_reason_no_retry "";; on_close "stop service" false;; mret false
  | InSecondTimer =>
      c ← self;
      match c_auto_disconnect_timer c with
      | Some (instant, minute) =>
          if (wrap 64 (minute * 60) <? Z.quot (now env - instant) (10 ^ 9))%Z then
            send_close_reason_no_retry "Connection failed due to inactivity";;
            on_close "auto disconnect" true;; mret false
          else mret true
      | None => mret true
      end
  | InTestDelayTimer idle_ns =>
      if (SEC30 <=? idle_ns)%Z then on_close "Timeout" true;; mret false
      else
        c ← self;
        (if bool_decide (c_last_test_delay c = None) && negb (c_port_forward_socket c && c_authorized c)
         then c_last_test_delay <~ Some (now env);; emit SendTestDelay
         else mret tt);;
        c ← self;
        (if is_authed_remote_conn c || c_view_camera c then
           match c_last_test_delay c with
           | Some t => qos_do (user_delay_response_elapsed (user_iter env) (c_id c)
                                 (Z.quot (now env - t) 1000000) (now env))
           | None => mret tt
           end
         else mret tt);;
        mret true
  end.

(** *** The start of a connection: the fields as [start] sets them *)

Definition connection_new (id : Z) (salt challenge : string) (control_permissions : Datatypes.option Z)
    (h : Host) : Connection :=
  let permission o := permission (globals env) (CFG2 h) o control_permissions in
  let headless_allowed :=
    is_server env && String.eqb (get_option (globals env) (CFG2 h) "allow-linux-headless") "Y" in
  {| c_id := id; c_salt := salt; c_challenge := challenge; c_file_transfer := None;
     c_view_camera := false; c_terminal := false; c_port_forward_socket := false;
     c_port_forward_address := ""; c_authorized := false; c_require_2fa := None;
     c_keyboard := permission OPTION_ENABLE_KEYBOARD; c_clipboard := permission OPTION_ENABLE_CLIPBOARD;
     c_audio := permission OPTION_ENABLE_AUDIO; c_file := permission OPTION_ENABLE_FILE_TRANSFER;
     c_restart := permission OPTION_ENABLE_REMOTE_RESTART;
     c_recording := permission OPTION_ENABLE_RECORD_SESSION;
     c_block_input := permission OPTION_ENABLE_BLOCK_INPUT; c_control_permissions := control_permissions;
     c_last_test_delay := None; c_network_delay := 0; c_lock_after_session_end := false;
     c_show_remote_cursor := false; c_show_my_cursor := false; c_follow_remote_cursor := false;
     c_follow_remote_window := false; c_ip := ""; c_disable_keyboard := false;
     c_disable_clipboard := false; c_disable_audio := false; c_voice_calling := false;
     c_video_ack_required := false; c_lr := lr_default; c_peer_argb := 0;
     c_session_last_recv_time := None; c_chat_unanswered := false; c_file_transferred := false;
     c_from_switch := false; c_options_in_login := None; c_closed := false;
     c_start_cm_ipc_para := true; c_auto_disconnect_timer := None; c_authed_conn_id := None;
     c_services_subed := false; c_terminal_service_id := ""; c_terminal_persistent := false;
     c_terminal_user_token := false; c_is_headless_allowed := headless_allowed;
     c_is_headless := headless_allowed && is_headless_host env |}.

(** The permissions the peer does not have, announced when the loop begins. *)
Definition announce_permissions : M unit :=
  c ← self;
  when (negb (c_keyboard c)) (emit (SendPermission PKeyboard false));;
  when (negb (c_clipboard c)) (emit (SendPermission PClipboard false));;
  when (negb (c_audio c)) (emit (SendPermission PAudio false));;
  when (negb (c_file c)) (emit (SendPermission PFile false));;
  when (negb (c_restart c)) (emit (SendPermission PRestart false));;
  when (negb (c_recording c)) (emit (SendPermission PRecording false));;
  when (negb (c_block_input c)) (emit (SendPermission PBlockInput false)).

End Login.
