(* ===== verification/LoginSafety.v ===== *)
(** * Who gets in

    Theorems on [Login]: an unauthorised connection becomes authorised only by a
    password of the host, a recent session, a second factor, a side switch or
    the user's click ([authorization_justified]); and a request with a right
    password that nothing else refuses is granted ([valid_login_succeeds]).
    [Demo] is a concrete host and its requests. *)

From S2P Require Import Prelude Strs Version VideoQos Secret Options Password PasswordSafety HostPort Permissions Throttle Sessions Services Conn Login.
From Stdlib Require Import Ascii String.

Local Open Scope string_scope.
#[local] Arguments String.append _ _ : simpl nomatch.

(** ** Constant-time comparison *)

Lemma ascii_lxor_0 x y :
  Z.lxor (Z.of_nat (nat_of_ascii x)) (Z.of_nat (nat_of_ascii y)) = 0%Z ↔ x = y.
Proof.
  rewrite Z.lxor_eq_0_iff, Nat2Z.inj_iff. split; [|by intros ->].
  intros H. by rewrite <- (ascii_nat_embedding x), H, ascii_nat_embedding.
Qed.

Lemma diff_bits_0 a b : Datatypes.length a = Datatypes.length b → diff_bits a b = 0%Z ↔ a = b.
Proof.
  revert b; induction a as [|x a IH]; intros [|y b] Hl; try discriminate; cbn [diff_bits]; [done|].
  injection Hl as Hl. rewrite Z.lor_eq_0_iff, ascii_lxor_0, IH by done. naive_solver.
Qed.

Lemma list_ascii_length s : Datatypes.length (list_ascii_of_string s) = str_len s.
Proof. induction s as [|a s IH]; [done|]. cbn. by rewrite IH. Qed.

Lemma list_ascii_inj a b : list_ascii_of_string a = list_ascii_of_string b → a = b.
Proof.
  intros H. by rewrite <- (string_of_list_ascii_of_string a), H, string_of_list_ascii_of_string.
Qed.

(** The comparison without early exits is equality. *)
Lemma constant_time_eq_spec a b : constant_time_eq a b = true ↔ a = b.
Proof.
  unfold constant_time_eq. destruct (Nat.eqb_spec (str_len a) (str_len b)) as [E|E]; cbn [negb].
  - rewrite Z.eqb_eq, diff_bits_0 by (by rewrite !list_ascii_length). split; [apply list_ascii_inj|by intros ->].
  - split; [done|]. by intros ->.
Qed.

(** ** Running programs *)

Section Safety.
  Context `{T : Totp} `{C : Crypto} `{J : Json}.
  Variable env : Env.

#[local] Abbreviation World := (@World T).

Lemma bind_run {A B} (m : M A) (f : A → M B) (w : World) : (m ≫= f) w = f (m w).1 (m w).2.
Proof. unfold mbind, M_bind. by destruct (m w). Qed.
Lemma ret_run {A} (a : A) (w : World) : (mret a : M A) w = (a, w).
Proof. done. Qed.

(** What policies read of the configuration. *)
Record host_like (h h' : Host) : Prop := {
  hl_options : options (mem (CFG2 h')) = options (mem (CFG2 h));
  hl_temporary : TEMPORARY_PASSWORD h' = TEMPORARY_PASSWORD h;
  hl_password : cfg_password (mem (CONFIG h')) = cfg_password (mem (CONFIG h))
}.

#[export] Instance host_like_refl : Reflexive host_like.
Proof. done. Qed.
#[export] Instance host_like_trans : Transitive host_like.
Proof. intros a b c [] []. split; congruence. Qed.

Lemma get_option_like g h h' k :
  host_like h h' → get_option g (CFG2 h') k = get_option g (CFG2 h) k.
Proof. intros [H _ _]. unfold get_option. by rewrite H. Qed.

Lemma get_own_id_like w : host_like (w_host w) (w_host (get_own_id env w).2).
Proof.
  unfold get_own_id, get_id, set_id, cfg_store, upd. cbn. repeat case_match; simplify_eq; cbn; done.
Qed.

Lemma set_trusted_like m t l h : host_like h (set_trusted_devices m t l h).
Proof. unfold set_trusted_devices. cbn zeta. by case_match. Qed.

Lemma get_trusted_like m t h : host_like h (get_trusted_devices m t h).2.
Proof.
  unfold get_trusted_devices. destruct (TRUSTED_DEVICES h) as [l b]. destruct b; [done|].
  destruct (decrypt_str_or_original _ _ _) as [[text succ] st]. destruct succ; [|done].
  cbn [snd]. case_match; [|done]. by destruct (set_trusted_like m t (keep_fresh t (default [] (from_json text))) h).
Qed.

(** ** Evidence *)

(** The peer knows [h1]: what it sent is its hash with this connection's challenge. *)
Definition proves (w : World) (lr : LoginRequest) (h1 : string) : Prop :=
  lr_password lr = sha256 (h1 ++ c_challenge (w_conn w)).

(** The hash of a password with the salt of this connection. *)
Definition salted (w : World) (password : string) : string := sha256 (password ++ c_salt (w_conn w)).

Definition key_of (lr : LoginRequest) : SessionKey :=
  {| peer_id := lr_my_id lr; name := lr_my_name lr; session_id := lr_session_id lr |}.

(** The peer knows the one-time password, the permanent one, or the preset one,
    and that one is in use. *)
Definition password_ok (w : World) (lr : LoginRequest) : Prop :=
  let h := w_host w in
  let g := globals env in
  (temporary_enabled g (CFG2 h) = true ∧ temporary_password h ≠ ""
   ∧ proves w lr (salted w (temporary_password h)))
  ∨ (permanent_enabled g (CFG2 h) = true ∧
     let storage := cfg_password (mem (CONFIG h)) in
     if decide (storage = "") then
       ∃ hard, HARD_SETTINGS g !! "password" = Some hard ∧ hard ≠ "" ∧ proves w lr (salted w hard)
     else match decode_permanent_password_h1_from_storage storage with
          | Some h1 => proves w lr h1
          | None => proves w lr (salted w storage)
          end).

(** The peer knows the one-time password its session began with. *)
Definition session_ok (w : World) (lr : LoginRequest) : Prop :=
  ∃ s, SESSIONS (w_stat w) !! key_of lr = Some s ∧ random_password s ≠ ""
       ∧ proves w lr (salted w (random_password s)).

Definition kind_option (lr : LoginRequest) : Datatypes.option string :=
  match lr_union lr with
  | Some (LoginFileTransfer _ _) => Some "enable-file-transfer"
  | Some LoginViewCamera => Some "enable-camera"
  | Some (LoginTerminal _) => Some "enable-terminal"
  | Some (LoginPortForward _ _) => Some "enable-tunnel"
  | None => None
  end.

(** What the request asks for is permitted. *)
Definition kind_permitted (w : World) (lr : LoginRequest) : Prop :=
  match kind_option lr with
  | Some o => permission (globals env) (CFG2 (w_host w)) o (c_control_permissions (w_conn w)) = true
  | None => is_in_privacy_mode env = false
  end.

Definition not_throttled (w : World) (m : failures) : Prop :=
  (check_failure (c_ip (w_conn w)) (minute_of (time_ms env)) m).2 = None.

(** The second factor, where one is required, is not asked for again. *)
Definition second_factor (w : World) (lr : LoginRequest) : Prop :=
  c_require_2fa (w_conn w) = None ∨ c_from_switch (w_conn w) = true
  ∨ (∃ s, SESSIONS (w_stat w) !! key_of lr = Some s ∧ tfa s = true)
  ∨ trusted_device_of env lr (get_trusted_devices (machine env) (time_ms env) (w_host w)).1 = true.

Inductive granted (w : World) : Input → Prop :=
| by_password lr :
    click_only env (w_host w) = false → kind_permitted w lr → second_factor w lr →
    not_throttled w (w_failures w) → password_ok w lr →
    granted w (InMessage (MsgLoginRequest lr))
| by_session lr :
    click_only env (w_host w) = false → kind_permitted w lr → second_factor w lr →
    session_ok w lr →
    granted w (InMessage (MsgLoginRequest lr))
| by_2fa code hwid totp :
    c_require_2fa (w_conn w) = Some totp → check_current totp (time_ms env) code = Some true →
    not_throttled w (w_failures_2fa w) →
    granted w (InMessage (MsgAuth2fa code hwid))
| by_switch lr uuid t :
    w_switch_uuid w !! lr_my_id lr = Some (t, uuid) → (now env - t < SWITCH_SIDES_TIMEOUT)%Z →
    str_len uuid = 16%nat →
    granted w (InMessage (MsgSwitchSidesResponse (Some lr) uuid))
| by_user : granted w (InCm CmAuthorize).

(** ** How far a request is while it is examined *)

Record examining (lr : LoginRequest) (w w' : World) : Prop := {
  ex_lr : c_lr (w_conn w') = lr;
  ex_authorized : c_authorized (w_conn w') = c_authorized (w_conn w);
  ex_salt : c_salt (w_conn w') = c_salt (w_conn w);
  ex_challenge : c_challenge (w_conn w') = c_challenge (w_conn w);
  ex_control : c_control_permissions (w_conn w') = c_control_permissions (w_conn w);
  ex_ip : c_ip (w_conn w') = c_ip (w_conn w);
  ex_switch : c_from_switch (w_conn w') = c_from_switch (w_conn w);
  ex_2fa : c_require_2fa (w_conn w') = c_require_2fa (w_conn w)
           ∨ trusted_device_of env lr (get_trusted_devices (machine env) (time_ms env) (w_host w)).1 = true;
  ex_stat : w_stat w' = w_stat w;
  ex_failures : w_failures w' = w_failures w;
  ex_host : host_like (w_host w) (w_host w');
  ex_uuid : w_switch_uuid w' = w_switch_uuid w
}.

(** Evaluate a program on a world. *)
Ltac run :=
  repeat (progress (
    try unfold permission_of; try unfold enable_trusted_devices; try unfold Conn.config_option;
    rewrite ?bind_run;
    cbn [fst snd self gets modify modify_self modify_stat modify_host emit when mret M_ret
         load_trusted_devices])).
Ltac fields :=
  cbn [upd
       w_conn w_stat w_server w_failures w_failures_2fa w_host w_switch_uuid w_log c_id c_salt
       c_challenge c_file_transfer c_view_camera c_terminal c_port_forward_socket
       c_port_forward_address c_authorized c_require_2fa c_keyboard c_clipboard c_audio c_file
       c_restart c_recording c_block_input c_control_permissions c_last_test_delay
       c_network_delay c_lock_after_session_end c_show_remote_cursor c_show_my_cursor
       c_follow_remote_cursor c_follow_remote_window c_ip c_disable_keyboard c_disable_clipboard
       c_disable_audio c_voice_calling c_video_ack_required c_lr c_peer_argb
       c_session_last_recv_time c_chat_unanswered c_file_transferred c_from_switch
       c_options_in_login c_closed c_start_cm_ipc_para c_auto_disconnect_timer c_authed_conn_id
       c_services_subed c_terminal_service_id c_terminal_persistent c_terminal_user_token
       c_is_headless_allowed c_is_headless].

Lemma login_error_run e w : ∃ b, send_login_error env e w = emit (LoginError e b) w.
Proof.
  unfold send_login_error. destruct (String.eqb e REQUIRE_2FA); [|by exists false].
  eexists. run. reflexivity.
Qed.

Lemma examine_start lr w :
  examining lr w (handle_login_request_without_validation env lr w).2.
Proof.
  unfold handle_login_request_without_validation.
  pose proof (get_trusted_like (machine env) (time_ms env) (w_host w)) as Hl.
  destruct (lr_option lr) as [o|]; run.
  all: set (b := _ && _); clearbody b; destruct b; run; [|by split; fields; auto using host_like_refl].
  all: set (d := trusted_device_of env lr _); destruct d eqn:Ed; run; split; fields; auto.
Qed.

(** Steps that leave everything a grant depends on. *)
Record quiet (w w' : World) : Prop := {
  q_lr : c_lr (w_conn w') = c_lr (w_conn w);
  q_authorized : c_authorized (w_conn w') = c_authorized (w_conn w);
  q_salt : c_salt (w_conn w') = c_salt (w_conn w);
  q_challenge : c_challenge (w_conn w') = c_challenge (w_conn w);
  q_control : c_control_permissions (w_conn w') = c_control_permissions (w_conn w);
  q_ip : c_ip (w_conn w') = c_ip (w_conn w);
  q_switch : c_from_switch (w_conn w') = c_from_switch (w_conn w);
  q_2fa : c_require_2fa (w_conn w') = c_require_2fa (w_conn w);
  q_stat : w_stat w' = w_stat w;
  q_failures : w_failures w' = w_failures w;
  q_failures_2fa : w_failures_2fa w' = w_failures_2fa w;
  q_host : host_like (w_host w) (w_host w');
  q_uuid : w_switch_uuid w' = w_switch_uuid w
}.

#[export] Instance quiet_refl : Reflexive quiet.
Proof. by split. Qed.
#[export] Instance quiet_trans : Transitive quiet.
Proof. intros a b c [] []. split; first [congruence | eapply host_like_trans; eassumption]. Qed.

Lemma examining_quiet lr w w1 w2 : examining lr w w1 → quiet w1 w2 → examining lr w w2.
Proof.
  intros [] []. split; first [congruence | eapply host_like_trans; eassumption].
Qed.

Lemma quiet_emit e w : quiet w (emit e w).2.
Proof. by split; fields. Qed.
Lemma quiet_login_error e w : quiet w (send_login_error env e w).2.
Proof. destruct (login_error_run e w) as [b ->]. apply quiet_emit. Qed.
Lemma quiet_cm p n a w : quiet w (try_start_cm p n a w).2.
Proof. unfold try_start_cm. run. by split; fields. Qed.
Lemma quiet_cm_ipc w : quiet w (try_start_cm_ipc w).2.
Proof. unfold try_start_cm_ipc. run. destruct (c_start_cm_ipc_para _); run; by split; fields. Qed.
Lemma quiet_wait w : quiet w (wait_desktop_cm_ready w).2.
Proof. unfold wait_desktop_cm_ready. run. destruct (c_is_headless _); run; by split; fields. Qed.
Lemma quiet_own_id w : quiet w (get_own_id env w).2.
Proof.
  pose proof (get_own_id_like w) as H. unfold get_own_id in *.
  destruct (get_id _ _ _ _ _ _) as [i c]. by split; fields.
Qed.
Lemma quiet_addressed u w : quiet w (addressed env u w).2.
Proof.
  unfold addressed. destruct (_ && _); [|done]. run. apply quiet_own_id.
Qed.

(** The kind of connection: refused, or permitted. *)
Lemma request_kind_spec lr w1 :
  quiet w1 (request_kind env lr w1).2
  ∧ ((request_kind env lr w1).1 = true → kind_permitted w1 lr).
Proof.
  unfold request_kind, kind_permitted, kind_option, refuse.
  assert (∀ e, quiet w1 (send_login_error env e w1).2) as He by (intros; apply quiet_login_error).
  destruct (lr_union lr) as [[dir sh|h p| |sid]|]; run.
  5: { destruct (is_in_privacy_mode env); run; [split; [apply He|done]|done]. }
  all: set (p0 := permission _ _ _ _); clearbody p0; destruct p0; cbn [negb]; run; [|split; [apply He|done]].
  1, 2, 3: split; [by split; fields|done].
  destruct (c_options_in_login _) as [o|]; run; case_bool_decide; run;
    (split; [|done]); try (by split; fields);
    (etrans; [|apply quiet_login_error]; by split; fields).
Qed.

Lemma permitted_examining lr w w1 : examining lr w w1 → kind_permitted w1 lr ↔ kind_permitted w lr.
Proof.
  intros H. unfold kind_permitted. destruct (kind_option lr) as [o|]; [|done].
  rewrite (ex_control _ _ _ H). unfold permission, is_permission_enabled_locally.
  by rewrite !(get_option_like _ _ _ _ (ex_host _ _ _ H)).
Qed.

Lemma click_only_like h h' : host_like h h' → click_only env h' = click_only env h.
Proof.
  intros H. unfold click_only, approve_mode, has_valid_password, temporary_enabled, permanent_enabled,
    verification_method, has_permanent_password.
  by rewrite !(get_option_like _ _ _ _ H), (hl_temporary _ _ H), (hl_password _ _ H).
Qed.

(** *** Passwords *)

Lemma verify_h1_spec w h1 :
  verify_h1 (w_conn w) h1 = true ↔ proves w (c_lr (w_conn w)) h1.
Proof. unfold verify_h1, proves. rewrite constant_time_eq_spec. naive_solver. Qed.

Lemma plain_spec w p :
  validate_password_plain (w_conn w) p = true ↔ p ≠ "" ∧ proves w (c_lr (w_conn w)) (salted w p).
Proof.
  unfold validate_password_plain. destruct p as [|a p].
  - cbn [is_empty]. naive_solver.
  - cbn [is_empty]. rewrite verify_h1_spec. naive_solver.
Qed.

Lemma storage_spec w s :
  s ≠ "" →
  validate_password_storage (w_conn w) s = true ↔
  match decode_permanent_password_h1_from_storage s with
  | Some h1 => proves w (c_lr (w_conn w)) h1
  | None => proves w (c_lr (w_conn w)) (salted w s)
  end.
Proof.
  intros Hs. unfold validate_password_storage. destruct s as [|a s]; [done|]. cbn [is_empty].
  destruct (decode_permanent_password_h1_from_storage _); [apply verify_h1_spec|].
  rewrite plain_spec. naive_solver.
Qed.

(** [validate_password] accepts exactly the passwords of the host. *)
Lemma validate_password_spec w :
  (validate_password env w).1 = true ↔ password_ok w (c_lr (w_conn w)).
Proof.
  unfold validate_password, password_ok, temporary_password, get_local_permanent_password_storage_and_salt.
  run. set (te := temporary_enabled _ _). set (pe := permanent_enabled _ _).
  set (tp := TEMPORARY_PASSWORD _). set (s := cfg_password _).
  pose proof (plain_spec w tp) as Ht. destruct (te && validate_password_plain _ tp) eqn:Eb; run.
  { apply andb_true_iff in Eb as [-> Eb]. apply Ht in Eb. naive_solver. }
  assert (¬ (te = true ∧ tp ≠ "" ∧ proves w (c_lr (w_conn w)) (salted w tp))) as Hn.
  { intros (Ht1 & Ht2). apply Ht in Ht2. rewrite Ht1, Ht2 in Eb. done. }
  assert (∀ P Q : Prop, ¬ Q → (Q ∨ P) ↔ P) as Hor by naive_solver.
  rewrite (Hor _ _ Hn). clear Hor Hn Ht Eb.
  destruct pe; [|by split; [|intros [? _]]]. case_decide as Hs; run.
  - rewrite Hs. cbn [is_empty negb]. run. destruct (HARD_SETTINGS _ !! "password") as [hard|]; cbn [default from_option].
    + rewrite andb_true_iff, plain_spec. split.
      * intros (_ & ? & ?). split; [done|]. by exists hard.
      * intros [_ (h & [= <-] & Hne & Hp)]. split; [by destruct hard|done].
    + split; [done|]. intros [_ (h & ? & _)]. done.
  - pose proof (storage_spec w s Hs) as Hst. destruct (is_empty s) eqn:E.
    { destruct s; [done|discriminate]. }
    cbn [negb]. run. rewrite Hst. split; [by intros ?|by intros [_ ?]].
Qed.

Lemma validate_password_conn w : w_conn (validate_password env w).2 = w_conn w.
Proof.
  unfold validate_password. run. destruct (_ && _); run; [done|].
  destruct (permanent_enabled _ _); [|done]. by destruct (negb _).
Qed.

Lemma password_ok_examining lr w w1 : examining lr w w1 → password_ok w1 lr ↔ password_ok w lr.
Proof.
  intros H. unfold password_ok, proves, salted, temporary_password, temporary_enabled, permanent_enabled,
    verification_method.
  by rewrite !(get_option_like _ _ _ _ (ex_host _ _ _ H)), (ex_salt _ _ _ H), (ex_challenge _ _ _ H),
    (hl_temporary _ _ (ex_host _ _ _ H)), (hl_password _ _ (ex_host _ _ _ H)).
Qed.

Lemma recent_state b w : (is_recent_session b w).2 = w.
Proof. done. Qed.

Lemma recent_spec w :
  (is_recent_session false w).1 = true → session_ok w (c_lr (w_conn w)).
Proof.
  unfold is_recent_session, session_ok. run. change (session_key_of (w_conn w)) with (key_of (c_lr (w_conn w))).
  destruct (SESSIONS _ !! _) as [s|]; [|done]. cbn [negb andb]. intros [_ H]%andb_true_iff.
  apply plain_spec in H. naive_solver.
Qed.

Lemma session_ok_examining lr w w1 : examining lr w w1 → session_ok w1 lr → session_ok w lr.
Proof.
  intros H. unfold session_ok, proves, salted.
  by rewrite (ex_stat _ _ _ H), (ex_salt _ _ _ H), (ex_challenge _ _ _ H).
Qed.

(** *** The throttle *)

Lemma throttle_spec i w :
  quiet w (check_failure_of env i w).2
  ∧ ((check_failure_of env i w).1.2 = true → not_throttled w (failures_of i w)).
Proof.
  unfold check_failure_of, not_throttled. run.
  destruct (check_failure _ _ _) as [f [msg|]]; run; [|done].
  split; [|done]. etrans; [apply quiet_login_error|]. by split; fields.
Qed.

Lemma update_failure_conn ft r i w :
  w_conn (update_failure_of ft r i w).2 = w_conn w ∧ w_stat (update_failure_of ft r i w).2 = w_stat w
  ∧ w_host (update_failure_of ft r i w).2 = w_host w.
Proof. unfold update_failure_of, set_failures. run. by destruct i; fields. Qed.

(** *** Granting *)

(** A grant needs the second factor settled. *)
Lemma send_logon_needs w :
  c_authorized (w_conn w) = false →
  c_authorized (w_conn (send_logon_response_and_keep_alive env w).2) = true →
  c_require_2fa (w_conn w) = None ∨ c_from_switch (w_conn w) = true
  ∨ ∃ s, SESSIONS (w_stat w) !! session_key_of (w_conn w) = Some s ∧ tfa s = true.
Proof.
  intros Ha. unfold send_logon_response_and_keep_alive. run. rewrite Ha.
  rewrite bind_run, recent_state. unfold is_recent_session. run.
  destruct (c_require_2fa (w_conn w)); [|by left]. rewrite bool_decide_true by done. cbn [andb].
  destruct (c_from_switch _); [by right; left|]. rewrite andb_true_r.
  destruct (SESSIONS _ !! _) as [s|] eqn:Es.
  - destruct (tfa s) eqn:Et; [right; right; by exists s|].
    cbn [andb orb negb]. rewrite !andb_false_r. cbn [negb]. run.
    intros H. exfalso. revert H. rewrite (q_authorized _ _ (quiet_login_error _ _)).
    destruct (telegram_bot env); run; [|congruence]. fields.
    rewrite (q_authorized _ _ (quiet_own_id _)). congruence.
  - cbn [negb]. run.
    intros H. exfalso. revert H. rewrite (q_authorized _ _ (quiet_login_error _ _)).
    destruct (telegram_bot env); run; [|congruence]. fields.
    rewrite (q_authorized _ _ (quiet_own_id _)). congruence.
Qed.

(** The second factor as [send_logon_response_and_keep_alive] looks at it. *)
Definition factor_settled (w : World) : Prop :=
  c_require_2fa (w_conn w) = None ∨ c_from_switch (w_conn w) = true
  ∨ ∃ s, SESSIONS (w_stat w) !! session_key_of (w_conn w) = Some s ∧ tfa s = true.

Lemma settled_quiet w w1 : quiet w w1 → factor_settled w1 → factor_settled w.
Proof.
  intros [] H. unfold factor_settled, session_key_of in *.
  rewrite q_2fa0, q_switch0, q_stat0, q_lr0 in H. done.
Qed.

Lemma settled_examining lr w w1 : examining lr w w1 → factor_settled w1 → second_factor w lr.
Proof.
  intros [] [H|[H|H]]; unfold second_factor.
  - destruct ex_2fa0 as [E|E]; [left; congruence|by right; right; right].
  - right; left. congruence.
  - right; right; left. by rewrite <- ex_stat0, <- ex_lr0.
Qed.

Lemma logon_needs lr err w :
  c_authorized (w_conn w) = false → c_authorized (w_conn (logon env lr err w).2) = true →
  factor_settled w.
Proof.
  intros Ha. unfold logon. destruct (is_empty err); run.
  - pose proof (quiet_wait w) as Hq. set (w1 := (wait_desktop_cm_ready w).2) in *.
    destruct (send_logon_response_and_keep_alive env w1).1 eqn:Ek; cbn [negb]; run.
    + rewrite (q_authorized _ _ (quiet_cm _ _ _ _)). intros H.
      eapply settled_quiet; [done|]. apply send_logon_needs; [|done]. by rewrite (q_authorized _ _ Hq).
    + intros H. eapply settled_quiet; [done|]. apply send_logon_needs; [|done].
      by rewrite (q_authorized _ _ Hq).
  - rewrite (q_authorized _ _ (quiet_login_error _ _)). congruence.
Qed.

Lemma validate_password_settled w :
  factor_settled (validate_password env w).2 → factor_settled w.
Proof.
  unfold factor_settled. rewrite validate_password_conn. intros [H|[H|H]]; [by left|by right; left|].
  right; right. revert H. unfold validate_password. run. destruct (_ && _); run.
  - fields. unfold update_or_insert_session, new_clock.
    destruct (SESSIONS (w_stat w) !! session_key_of (w_conn w)) as [s|]; cbn [SESSIONS set_SESSIONS];
      rewrite lookup_insert_eq; intros (s' & [= <-] & Ht); discriminate.
  - destruct (permanent_enabled _ _); [|done]. by destruct (negb _).
Qed.

Lemma login_request_needs lr w :
  c_authorized (w_conn w) = false →
  c_authorized (w_conn (handle_login_request env lr w).2) = true →
  granted w (InMessage (MsgLoginRequest lr)).
Proof.
  intros Ha. unfold handle_login_request. rewrite bind_run.
  pose proof (examine_start lr w) as E1.
  set (w1 := (handle_login_request_without_validation env lr w).2) in *. clearbody w1.
  run. rewrite (ex_authorized _ _ _ E1), Ha. rewrite bind_run.
  pose proof (request_kind_spec lr w1) as [Hq2 Hk].
  pose proof (examining_quiet _ _ _ _ E1 Hq2) as E2.
  destruct (request_kind env lr w1) as [ok w2]. cbn [fst snd] in *.
  destruct ok; cbn [negb]; [|run; rewrite (ex_authorized _ _ _ E2); congruence].
  pose proof (proj1 (permitted_examining _ _ _ E1) (Hk eq_refl)) as Hperm. clear Hk Hq2 E1 w1.
  rewrite bind_run.
  pose proof (examining_quiet _ _ _ _ E2 (quiet_cm_ipc w2)) as E3.
  set (w3 := (try_start_cm_ipc w2).2) in *. clearbody w3. clear E2 w2.
  unfold try_start_desktop at 1. run. set (err := if c_is_headless_allowed _ then _ else _). clearbody err.
  pose proof (examining_quiet _ _ _ _ E3 (quiet_login_error err w3)) as E4.
  destruct (_ && _); [run; rewrite (ex_authorized _ _ _ E4); congruence|]. clear E4.
  rewrite bind_run.
  pose proof (examining_quiet _ _ _ _ E3 (quiet_addressed (lr_username lr) w3)) as E4.
  destruct (addressed env (lr_username lr) w3) as [ours w4]. cbn [fst snd] in *. clear E3 w3.
  destruct ours; cbn [negb].
  2: { unfold refuse. run.
       rewrite (q_authorized _ _ (quiet_login_error _ _)), (ex_authorized _ _ _ E4). congruence. }
  run. pose proof (click_only_like _ _ (ex_host _ _ _ E4)) as Hc.
  destruct (click_only env (w_host w4)).
  { run. destruct (_ <=? _)%Z; run; rewrite ?(q_authorized _ _ (quiet_login_error _ _)),
      (q_authorized _ _ (quiet_cm _ _ _ _)), (ex_authorized _ _ _ E4); congruence. }
  symmetry in Hc. rewrite bind_run, recent_state.
  destruct (is_recent_session false w4).1 eqn:Er.
  { intros H. apply logon_needs in H; [|by rewrite (ex_authorized _ _ _ E4)].
    apply by_session; [done..|by eapply settled_examining|].
    apply recent_spec in Er. rewrite (ex_lr _ _ _ E4) in Er. by eapply session_ok_examining. }
  destruct (is_empty (lr_password lr)).
  { run. destruct (is_empty err); rewrite ?(q_authorized _ _ (quiet_login_error _ _)),
      ?(q_authorized _ _ (quiet_cm _ _ _ _)), (ex_authorized _ _ _ E4); congruence. }
  unfold login_with_password. rewrite bind_run.
  pose proof (throttle_spec false w4) as [Hq5 Hth].
  pose proof (examining_quiet _ _ _ _ E4 Hq5) as E5.
  destruct (check_failure_of env false w4) as [[ft res] w5]. cbn [fst snd] in *.
  destruct res; cbn [negb]; [|run; rewrite (ex_authorized _ _ _ E5); congruence].
  assert (not_throttled w (w_failures w)) as Hn.
  { specialize (Hth eq_refl). unfold not_throttled, failures_of in *.
    by rewrite (ex_ip _ _ _ E4), (ex_failures _ _ _ E4) in Hth. }
  clear Hth Hq5 E4 w4 Er. rewrite bind_run.
  pose proof (validate_password_spec w5) as Hv. pose proof (validate_password_conn w5) as Hvc.
  pose proof (validate_password_settled w5) as Hvs. rewrite (ex_lr _ _ _ E5) in Hv.
  destruct (validate_password env w5) as [valid w6]. cbn [fst snd] in *.
  destruct valid; cbn [negb]; rewrite bind_run.
  2: { destruct (update_failure_conn ft false false w6) as (Hu & _).
       set (w7 := (update_failure_of ft false false w6).2) in *.
       run. destruct (is_empty err); run; rewrite ?(q_authorized _ _ (quiet_login_error _ _)),
         ?(q_authorized _ _ (quiet_cm _ _ _ _)), ?(q_authorized _ _ (quiet_login_error _ _)), Hu, Hvc,
         (ex_authorized _ _ _ E5); congruence. }
  destruct (update_failure_conn ft true false w6) as (Hu & Hus & _).
  set (w7 := (update_failure_of ft true false w6).2) in *. clearbody w7.
  intros H. apply logon_needs in H; [|by rewrite Hu, Hvc, (ex_authorized _ _ _ E5)].
  apply by_password; [done..| |done|].
  - eapply settled_examining; [done|]. apply Hvs. unfold factor_settled in *. by rewrite Hu, Hus in H.
  - apply (password_ok_examining _ _ _ E5). by apply Hv.
Qed.

Lemma auth_2fa_needs code hw w :
  c_authorized (w_conn w) = false →
  c_authorized (w_conn (handle_auth_2fa env code hw w).2) = true →
  granted w (InMessage (MsgAuth2fa code hw)).
Proof.
  intros Ha. unfold handle_auth_2fa. rewrite bind_run.
  pose proof (throttle_spec true w) as [Hq Hth].
  destruct (check_failure_of env true w) as [[ft res] w1]. cbn [fst snd] in *.
  destruct res; cbn [negb]; [|run; rewrite (q_authorized _ _ Hq); congruence].
  specialize (Hth eq_refl). run.
  destruct (c_require_2fa (w_conn w1)) as [totp|] eqn:Et; run; [|rewrite (q_authorized _ _ Hq); congruence].
  destruct (check_current totp (time_ms env) code) as [[]|] eqn:Ec; run.
  - intros _. rewrite (q_2fa _ _ Hq) in Et. by eapply by_2fa.
  - rewrite (q_authorized _ _ (quiet_login_error _ _)).
    destruct (update_failure_conn ft false true w1) as (-> & _). rewrite (q_authorized _ _ Hq). congruence.
  - rewrite (q_authorized _ _ Hq). congruence.
Qed.

Lemma switch_needs lr uuid w :
  c_authorized (w_conn w) = false →
  c_authorized (w_conn (handle_switch_sides env lr uuid w).2) = true →
  granted w (InMessage (MsgSwitchSidesResponse lr uuid)).
Proof.
  intros Ha. unfold handle_switch_sides. destruct lr as [lr|]; [|run; congruence].
  rewrite bind_run. pose proof (examine_start lr w) as E1.
  set (w1 := (handle_login_request_without_validation env lr w).2) in *. clearbody w1.
  unfold take_switch_uuid. run. rewrite (ex_uuid _ _ _ E1).
  set (fresh := filter _ (w_switch_uuid w)).
  destruct (Nat.eqb_spec (str_len uuid) 16) as [Hl|Hl]; cbn [andb].
  2: { run. fields. rewrite (ex_authorized _ _ _ E1). congruence. }
  case_bool_decide as Hf.
  2: { run. fields. rewrite (ex_authorized _ _ _ E1). congruence. }
  intros _. destruct (fresh !! lr_my_id lr) as [[t u]|] eqn:E; [|done].
  cbn in Hf. injection Hf as ->. apply map_lookup_filter_Some in E as [E Ht]. cbn in Ht.
  by eapply by_switch.
Qed.

(** Programs that change neither whether the peer is in, nor how it got there. *)
Definition same_auth (m : M unit) : Prop := ∀ w,
  c_authorized (w_conn (m w).2) = c_authorized (w_conn w).

Lemma same_bind m (k : M unit) : same_auth m → same_auth k → same_auth (m ≫= λ _, k).
Proof. intros Hm Hk w. rewrite bind_run, Hk. apply Hm. Qed.
Lemma same_self (f : Connection → M unit) : (∀ c, same_auth (f c)) → same_auth (self ≫= f).
Proof. intros Hf w. rewrite bind_run. apply Hf. Qed.
Lemma same_when b m : same_auth m → same_auth (when b m).
Proof. intros H. by destruct b. Qed.
Lemma same_stat f : same_auth (modify_stat f).
Proof. done. Qed.
Lemma same_emit e : same_auth (emit e).
Proof. done. Qed.
Lemma same_server f : same_auth (server_do f).
Proof. done. Qed.
Lemma same_modify f : (∀ c, c_authorized (f c) = c_authorized c) → same_auth (modify_self f).
Proof. intros H w. apply H. Qed.
Lemma same_ret : same_auth (mret tt).
Proof. done. Qed.

Ltac same :=
  repeat first
    [ apply same_bind | apply same_self; intros ? | apply same_when | apply same_stat | apply same_emit
    | apply same_server | apply same_ret | apply same_modify; intros ?; reflexivity
    | match goal with |- same_auth (if ?b then _ else _) => destruct b end
    | match goal with |- same_auth (match ?b with _ => _ end) => destruct b end ].

Lemma same_sub n b : same_auth (sub n b).
Proof. unfold sub. same. Qed.
Lemma same_sub_audio : same_auth sub_audio.
Proof. unfold sub_audio. same; apply same_sub. Qed.
Lemma same_close r l : same_auth (on_close r l).
Proof. unfold on_close. same. Qed.
Lemma same_remove : same_auth remove_session.
Proof. unfold remove_session. same. Qed.
Lemma same_no_retry r : same_auth (send_close_reason_no_retry r).
Proof. unfold send_close_reason_no_retry. same; apply same_remove. Qed.
Lemma same_switch n b : same_auth (switch_permission env n b).
Proof. unfold switch_permission. same; first [apply same_sub | apply same_sub_audio]. Qed.
Lemma same_test_delay b : same_auth (handle_test_delay env b).
Proof. unfold handle_test_delay, qos_do. same. Qed.

Lemma same_run m w : same_auth m → c_authorized (w_conn (m w).2) = c_authorized (w_conn w).
Proof. intros H. apply H. Qed.

Lemma granted_clock w l t i :
  granted (w <| w_stat := set_clock l t (w_stat w) |>) i → granted w i.
Proof.
  intros H. inversion H; subst.
  - by apply by_password.
  - by apply by_session.
  - by eapply by_2fa.
  - by eapply by_switch.
  - apply by_user.
Qed.

Lemma message_needs msg w :
  c_authorized (w_conn w) = false → c_authorized (w_conn (on_message env msg w).2) = true →
  granted w (InMessage msg).
Proof.
  intros Ha. destruct msg as [r|lr|code hw|b|lr uuid|o|p]; cbn [on_message].
  - run. rewrite same_remove, same_close. congruence.
  - by apply login_request_needs.
  - by apply auth_2fa_needs.
  - run. rewrite same_test_delay. congruence.
  - by apply switch_needs.
  - run. rewrite Ha. run. congruence.
  - run. rewrite Ha. run. congruence.
Qed.

(** C9: nobody gets in without a reason.  Whatever arrives and whatever state the
    host is in, a connection that was not authorised is authorised afterwards
    only when the peer proved one of the host's passwords in use, not throttled
    and not in a mode where the user must click; or proved the one-time password
    of its recent session; or gave a right second factor; or holds the fresh
    identifier of a side switch; or the user clicked.  For the first two the kind of
    connection asked for is permitted and no second factor is left to ask. *)
Theorem authorization_justified w i :
  c_authorized (w_conn w) = false → c_authorized (w_conn (on_input env i w).2) = true → granted w i.
Proof.
  intros Ha. destruct i as [msg|e| |d| | | |idle]; cbn [on_input].
  - run. match goal with |- context[on_message env msg ?x] => set (w0 := x) end.
    assert (c_authorized (w_conn w0) = false ∧ (granted w0 (InMessage msg) → granted w (InMessage msg))) as [H1 H2].
    { unfold w0. destruct (c_session_last_recv_time _); run; [|done]. split; [done|]. apply granted_clock. }
    intros H. apply H2, message_needs; [done|].
    destruct (on_message env msg w0).1; cbn [negb] in H; exact H.
  - run. rewrite same_close. congruence.
  - run. rewrite same_close. congruence.
  - destruct d as [| |e|t|n b]; cbn [on_cm].
    + intros _. apply by_user.
    + run. rewrite same_close, same_no_retry. fields. congruence.
    + destruct (negb _); run; [rewrite same_close|]; congruence.
    + run. fields. congruence.
    + run. rewrite same_switch. congruence.
  - run. rewrite same_close, same_no_retry. congruence.
  - run. rewrite same_close, same_no_retry. congruence.
  - run. destruct (c_auto_disconnect_timer _) as [[t m]|]; [destruct (_ <? _)%Z|]; run;
      rewrite ?same_close, ?same_no_retry; congruence.
  - destruct (_ <=? _)%Z; run; [rewrite same_close; congruence|].
    destruct (bool_decide _ && _); run; case_match; unfold qos_do; run; try (case_match; run); fields; congruence.
Qed.

(** ** The right password gets in *)

(** Like [same_auth], for programs with a result. *)
Definition same_auth' {A} (m : M A) : Prop := ∀ w,
  c_authorized (w_conn (m w).2) = c_authorized (w_conn w).

Lemma same_bind' {A B} (m : M A) (k : A → M B) :
  same_auth' m → (∀ a, same_auth' (k a)) → same_auth' (m ≫= k).
Proof. intros Hm Hk w. rewrite bind_run, Hk. apply Hm. Qed.
Lemma same_of (m : M unit) : same_auth m → same_auth' m.
Proof. done. Qed.
Lemma same_gets {A} (f : World → A) : same_auth' (gets f).
Proof. done. Qed.
Lemma same_ret' {A} (a : A) : same_auth' (mret a).
Proof. done. Qed.
Lemma same_quiet {A} (m : M A) : (∀ w, quiet w (m w).2) → same_auth' m.
Proof. intros H w. apply (q_authorized _ _ (H w)). Qed.

Create HintDb same_auth.

Ltac same' :=
  repeat first
    [ solve [auto 1 with same_auth nocore]
    | apply same_ret' | apply same_gets
    | apply (same_of (modify_self _)), same_modify; intros ?; reflexivity
    | apply same_of, same_emit | apply same_of, same_stat | apply same_of, same_server
    | apply same_of, same_sub | apply same_of, same_sub_audio
    | apply same_bind'; [|intros ?]
    | match goal with |- same_auth' (if ?b then _ else _) => destruct b end
    | match goal with |- same_auth' (match ?b with _ => _ end) => destruct b end
    | match goal with |- same_auth' (when ?b _) => destruct b; cbn [when] end
    | match goal with |- same_auth' (if_set ?o _) => destruct o as [[]|]; cbn [if_set] end
    | progress (unfold self, Conn.config_option, qos_do, quality_do) ].

Lemma same_update_options o : same_auth' (update_options env o).
Proof.
  unfold update_options, update_terminal_persistence, privacy_option, block_input_option,
    show_my_cursor_option. same'.
Qed.
#[local] Hint Resolve same_update_options : same_auth.
Lemma same_take_options : same_auth' (take_options_in_login env).
Proof. unfold take_options_in_login. same'. Qed.
#[local] Hint Resolve same_take_options : same_auth.
Lemma same_login_response c : same_auth' (login_response env c).
Proof. unfold login_response, on_remote_authorized. same'. Qed.
#[local] Hint Resolve same_login_response : same_auth.
Lemma same_monitor : same_auth' (try_sub_monitor_services env).
Proof. unfold try_sub_monitor_services, get_auto_disconenct_timer. same'. Qed.
#[local] Hint Resolve same_monitor : same_auth.
Lemma same_start_session b : same_auth' (start_session env b).
Proof.
  unfold start_session, try_sub_camera_displays, init_terminal_service. same'.
Qed.
#[local] Hint Resolve same_start_session : same_auth.
Lemma same_authorize c : same_auth' (authorize env c).
Proof. unfold authorize. destruct (conn_type_of c). same'. Qed.

(** The target of a port forward answers. *)
Definition reachable (lr : LoginRequest) : Prop :=
  match lr_union lr with
  | Some (LoginPortForward host port) =>
      tcp_connect env (normalize_port_forward_target host port).1 = true
  | _ => True
  end.

Lemma send_logon_succeeds w :
  c_authorized (w_conn w) = false → c_require_2fa (w_conn w) = None → reachable (c_lr (w_conn w)) →
  (send_logon_response_and_keep_alive env w).1 = true
  ∧ c_authorized (w_conn (send_logon_response_and_keep_alive env w).2) = true.
Proof.
  intros Ha H2 Hr. unfold send_logon_response_and_keep_alive. run. rewrite Ha.
  rewrite bind_run, recent_state, H2. cbn [andb]. rewrite bool_decide_false by (by intros [? ?]). cbn [andb].
  rewrite bind_run.
  assert (c_authorized (w_conn (connect_port_forward_if_needed env w).2) = false
          ∧ (connect_port_forward_if_needed env w).1 = true) as [Hc1 Hc2].
  { unfold connect_port_forward_if_needed. run. destruct (c_port_forward_socket _); [done|].
    unfold reachable in Hr. destruct (lr_union _) as [[]|]; try done.
    destruct (normalize_port_forward_target _ _) as [addr rdp]. cbn [fst] in Hr. run. rewrite Hr. run. done. }
  rewrite Hc2. cbn [negb]. set (w1 := (connect_port_forward_if_needed env w).2) in *. clearbody w1.
  rewrite bind_run. set (w2 := (modify_self _ w1).2).
  assert (c_authorized (w_conn w2) = true) as Hw2 by done. clearbody w2. clear Hc1 Hc2 Ha H2 Hr w1.
  run. pose proof (same_authorize (w_conn w2) w2) as Hau. rewrite Hw2 in Hau.
  set (w3 := (authorize env (w_conn w2) w2).2) in *. clearbody w3.
  destruct (c_port_forward_socket _); run; [done|].
  destruct (is_remote _ && _); run; [done|]. split; [done|].
  by rewrite same_start_session, same_take_options, same_login_response.
Qed.

(** The peer wrote the name of this host. *)
Definition addresses (w : World) (username : string) : Prop :=
  is_ip_str username = true ∨ is_domain_port_str username = true
  ∨ (username = id (mem (CONFIG (w_host w))) ∧ username ≠ "" ∧ (str_len username ≤ 6)%nat).

Lemma addressed_spec w u : addresses w u → (addressed env u w).1 = true.
Proof.
  unfold addresses, addressed. intros H. destruct (is_ip_str u); [done|].
  destruct (is_domain_port_str u); [done|]. cbn [negb andb]. run.
  destruct H as [?|[?|(-> & Hne & Hl)]]; try done.
  unfold get_own_id, get_id. destruct (id _) as [|a j]; [done|]. cbn [is_empty orb].
  rewrite (proj2 (Nat.ltb_ge _ _) Hl). cbn [fst]. apply String.eqb_refl.
Qed.

(** No desktop needs to be started first. *)
Definition desktop_ready (w : World) (lr : LoginRequest) : Prop :=
  c_is_headless_allowed (w_conn w) = false
  ∨ desktop_manager env (default ("", "") (lr_os_login lr)).1 (default ("", "") (lr_os_login lr)).2 = "".

Lemma logon_succeeds lr w :
  c_authorized (w_conn w) = false → c_require_2fa (w_conn w) = None → reachable (c_lr (w_conn w)) →
  (logon env lr "" w).1 = true ∧ c_authorized (w_conn (logon env lr "" w).2) = true.
Proof.
  intros Ha H2 Hr. unfold logon. cbn [is_empty]. run.
  pose proof (quiet_wait w) as Hq. set (w1 := (wait_desktop_cm_ready w).2) in *.
  destruct (send_logon_succeeds w1) as [Hs1 Hs2].
  { by rewrite (q_authorized _ _ Hq). } { by rewrite (q_2fa _ _ Hq). } { by rewrite (q_lr _ _ Hq). }
  rewrite Hs1. cbn [negb]. run. split; [done|]. by rewrite (q_authorized _ _ (quiet_cm _ _ _ _)).
Qed.

(** The own terminal may be used: its service is not that of another user. *)
Definition terminal_ok (lr : LoginRequest) : Prop :=
  match lr_union lr with
  | Some (LoginTerminal sid) => service_specified_user env sid ≠ Some true
  | _ => True
  end.

Lemma request_kind_ok lr w : kind_permitted w lr → terminal_ok lr → (request_kind env lr w).1 = true.
Proof.
  unfold kind_permitted, terminal_ok, request_kind, kind_option. intros Hp Ht.
  destruct (lr_union lr) as [[dir sh|h p| |sid]|]; run; rewrite ?Hp; cbn [negb]; run; try done.
  destruct (c_options_in_login _); run; by rewrite bool_decide_false by done.
Qed.

(** While a request without second factor is examined the host stays as it is. *)
Lemma examine_start_host lr w :
  c_require_2fa (w_conn w) = None →
  w_host (handle_login_request_without_validation env lr w).2 = w_host w
  ∧ c_require_2fa (w_conn (handle_login_request_without_validation env lr w).2) = None
  ∧ c_is_headless_allowed (w_conn (handle_login_request_without_validation env lr w).2)
    = c_is_headless_allowed (w_conn w).
Proof.
  intros H. unfold handle_login_request_without_validation.
  destruct (lr_option lr) as [o|]; run; fields; rewrite H; cbn [andb];
    rewrite bool_decide_false by (by intros [? ?]); cbn [andb]; run; fields; by rewrite H.
Qed.

Lemma request_kind_host lr w :
  w_host (request_kind env lr w).2 = w_host w
  ∧ c_is_headless_allowed (w_conn (request_kind env lr w).2) = c_is_headless_allowed (w_conn w).
Proof.
  unfold request_kind, refuse.
  assert (∀ e w', w_host (send_login_error env e w').2 = w_host w'
                  ∧ w_conn (send_login_error env e w').2 = w_conn w') as He.
  { intros e w'. destruct (login_error_run e w') as [b ->]. done. }
  destruct (lr_union lr) as [[dir sh|h p| |sid]|]; run.
  5: { destruct (is_in_privacy_mode env); run; [|done]. by destruct (He "Someone turns on privacy mode, exit" w) as [-> ->]. }
  all: destruct (permission _ _ _ _); cbn [negb]; run; try done.
  all: try by rewrite (proj1 (He _ _)), (proj2 (He _ _)).
  destruct (c_options_in_login _); run; case_bool_decide; run;
    rewrite ?(proj1 (He _ _)), ?(proj2 (He _ _)); done.
Qed.

(** A login the host should accept succeeds.  When the kind of connection is
    permitted, the desktop is there, the request names this host, the address is
    not throttled, no click is needed and the peer's answer is that of a password
    in use, the request is granted and the connection goes on. *)
Lemma valid_login_succeeds lr w :
  c_authorized (w_conn w) = false → c_require_2fa (w_conn w) = None →
  kind_permitted w lr → terminal_ok lr → reachable lr → desktop_ready w lr →
  addresses w (lr_username lr) → click_only env (w_host w) = false →
  not_throttled w (w_failures w) → lr_password lr ≠ "" → password_ok w lr →
  (on_message env (MsgLoginRequest lr) w).1 = true
  ∧ c_authorized (w_conn (on_message env (MsgLoginRequest lr) w).2) = true.
Proof.
  intros Ha H2 Hk Ht Hr Hd Hu Hc Hth Hne Hp. cbn [on_message]. unfold handle_login_request. rewrite bind_run.
  pose proof (examine_start lr w) as E1. destruct (examine_start_host lr w H2) as (Hh1 & H21 & Hd1).
  set (w1 := (handle_login_request_without_validation env lr w).2) in *. clearbody w1.
  run. rewrite (ex_authorized _ _ _ E1), Ha, bind_run.
  destruct (request_kind_spec lr w1) as [Hq2 _]. destruct (request_kind_host lr w1) as [Hh2 Hd2].
  rewrite (request_kind_ok lr w1 (proj2 (permitted_examining _ _ _ E1) Hk) Ht). cbn [negb].
  pose proof (examining_quiet _ _ _ _ E1 Hq2) as E2. pose proof (q_2fa _ _ Hq2) as H22.
  set (w2 := (request_kind env lr w1).2) in *. clearbody w2. clear Hq2 E1.
  rewrite bind_run. pose proof (quiet_cm_ipc w2) as Hq3.
  assert (w_host (try_start_cm_ipc w2).2 = w_host w2
          ∧ c_is_headless_allowed (w_conn (try_start_cm_ipc w2).2) = c_is_headless_allowed (w_conn w2)) as [Hh3 Hd3].
  { unfold try_start_cm_ipc. run. by destruct (c_start_cm_ipc_para _). }
  pose proof (examining_quiet _ _ _ _ E2 Hq3) as E3. pose proof (q_2fa _ _ Hq3) as H23.
  set (w3 := (try_start_cm_ipc w2).2) in *. clearbody w3. clear Hq3 E2.
  assert (try_start_desktop env (lr_os_login lr) w3 = ("", w3)) as Hdesk.
  { unfold try_start_desktop. run. f_equal. rewrite Hd3, Hd2, Hd1. destruct Hd as [->| Hd]; [done|].
    destruct (lr_os_login lr) as [[u p]|]; cbn in Hd; rewrite Hd; by case_match. }
  rewrite bind_run, Hdesk. cbn [fst snd]. clear Hdesk.
  cbn [is_empty negb andb]. rewrite bind_run.
  pose proof (quiet_addressed (lr_username lr) w3) as Hq4.
  rewrite (addressed_spec w3) by (unfold addresses in *; by rewrite Hh3, Hh2, Hh1).
  pose proof (examining_quiet _ _ _ _ E3 Hq4) as E4. pose proof (q_2fa _ _ Hq4) as H24.
  set (w4 := (addressed env (lr_username lr) w3).2) in *. clearbody w4. clear Hq4 E3.
  assert (c_require_2fa (w_conn w4) = None) as H2' by congruence. clear H21 H22 H23 H24.
  cbn [negb]. run. rewrite (click_only_like _ _ (ex_host _ _ _ E4)), Hc.
  rewrite bind_run, recent_state.
  assert (reachable (c_lr (w_conn w4))) as Hr' by (by rewrite (ex_lr _ _ _ E4)).
  destruct (is_recent_session false w4).1.
  { apply logon_succeeds; [by rewrite (ex_authorized _ _ _ E4)|done|done]. }
  destruct (lr_password lr) as [|a0 pw] eqn:Epw; [done|]. cbn [is_empty]. rewrite <- Epw in *. clear a0 pw Epw.
  unfold login_with_password. rewrite bind_run.
  pose proof (throttle_spec false w4) as [Hq5 _].
  assert ((check_failure_of env false w4).1.2 = true) as Hok.
  { unfold check_failure_of. run. unfold not_throttled in Hth.
    rewrite (ex_ip _ _ _ E4). cbn [failures_of]. rewrite (ex_failures _ _ _ E4).
    destruct (check_failure _ _ (w_failures w)) as [f [msg|]]; [done|]. done. }
  pose proof (examining_quiet _ _ _ _ E4 Hq5) as E5. pose proof (q_2fa _ _ Hq5) as H25.
  destruct (check_failure_of env false w4) as [[ft res] w5]. cbn [fst snd] in *. subst res. cbn [negb].
  rewrite bind_run. pose proof (validate_password_spec w5) as Hv. rewrite (ex_lr _ _ _ E5) in Hv.
  pose proof (validate_password_conn w5) as Hvc.
  rewrite (proj2 Hv) by (by apply (password_ok_examining _ _ _ E5)).
  set (w6 := (validate_password env w5).2) in *. clearbody w6. cbn [negb]. rewrite bind_run.
  destruct (update_failure_conn ft true false w6) as (Hu7 & _).
  set (w7 := (update_failure_of ft true false w6).2) in *. clearbody w7.
  apply logon_succeeds; rewrite Hu7, Hvc.
  - by rewrite (ex_authorized _ _ _ E5).
  - congruence.
  - by rewrite (ex_lr _ _ _ E5).
Qed.

End Safety.

(** ** A concrete host and peer *)

Module Demo.
Import Secret.Toy PasswordSafety.ToyJson.

#[export] Instance totp_toy : Totp :=
  {| totp := string; check_current := λ t _ code, Some (String.eqb t code) |}.

Definition env : Env := {|
  now := 10 ^ 12; time_ms := 1700000000000; globals := empty_globals; Conn.machine := Toy.machine;
  rng := λ n, Z.of_nat n; hostname := None; draw := 123456;
  devices := {| PRIMARY_DISPLAY_IDX := 0; primary_camera_exists := false |};
  is_prelogin := false; is_locked := false; is_in_privacy_mode := false;
  tcp_connect := λ _, true; active_username := "user"; is_login_screen_wayland := false;
  display_server := "x11"; sync_displays := Ok ["DP-1"]; camera_displays := [];
  display_inited_msg := false; wayland_use_rdp_input := false; is_dir := λ _, false;
  telegram_bot := false; service_specified_user := λ _, None; desktop_manager := λ _ _, "";
  fresh_service_id := "ts_1"; whiteboard_supported := true; is_headless_host := false;
  has_wallpaper_remover := false; is_server := true; main_window_open := true;
  cidr_contains := λ _ _, false; user_iter := map_to_list; display_iter := map_to_list
|}.

Definition host : Host := {|
  CONFIG := store (set_cfg_salt "salty1" (set_cfg_id "987654" Config_default));
  CFG2 := store Config2_default;
  TRUSTED_DEVICES := ([], true); TEMPORARY_PASSWORD := "secret"; cache_file := None
|}.

Definition world (control : Datatypes.option Z) : World := {|
  w_conn := (connection_new env 1001 "salty1" "ch4l" control host) <| c_ip := "10.0.0.7" |>;
  w_stat := statics_default 0; w_server := Some (server_new false true 5);
  w_failures := ∅; w_failures_2fa := ∅; w_host := host; w_switch_uuid := ∅; w_log := []
|}.

(** The request of a peer that knows [pw]. *)
Definition request (pw : string) (u : Datatypes.option LoginUnion) : LoginRequest := {|
  lr_username := "987654"; lr_password := sha256 (sha256 (pw ++ "salty1") ++ "ch4l");
  lr_my_id := "111222"; lr_my_name := "peer"; lr_option := None; lr_union := u;
  lr_video_ack_required := false; lr_session_id := 77; lr_version := "1.4.0"; lr_os_login := None;
  lr_my_platform := "Linux"; lr_hwid := ""; lr_avatar := ""
|}.
End Demo.
Import Secret.Toy PasswordSafety.ToyJson Demo.

Lemma authorization_justified_witness :
  c_authorized (w_conn (Demo.world None)) = false
  ∧ granted Demo.env (Demo.world None) (InMessage (MsgLoginRequest (Demo.request "secret" None))).
Proof.
  split; [reflexivity|].
  apply authorization_justified; [reflexivity | vm_compute; reflexivity].
Defined.
