(* ===== verification/ConnSafety.v ===== *)
(** * What a session is subscribed to

    Theorems on [Conn] and [Login]: while a remote-control session runs, through
    option messages of the peer and permission switches of the connection manager,
    the services that send to it are exactly those it may see. *)

From S2P Require Import Prelude Strs Version VideoQos Secret Options Password Permissions Throttle Sessions Services Conn Login LoginSafety.
From Stdlib Require Import Ascii String.

Local Open Scope string_scope.

Section Subscriptions.
  Context `{T : Totp} `{C : Crypto} `{J : Json}.
  Variable env : Env.
  #[local] Abbreviation World := (@World T).
  #[local] Abbreviation Connection := (@Connection T).

(** The services that depend on a permission, apart from the cursor. *)
Definition entitled (c : Connection) (n : string) : Datatypes.option bool :=
  if String.eqb n NAME_POS then Some (c_show_remote_cursor c)
  else if String.eqb n NAME_WINDOW_FOCUS then Some (c_follow_remote_window c)
  else if String.eqb n CLIPBOARD_NAME then Some (can_sub_clipboard_service env c)
  else if String.eqb n AUDIO_NAME then Some (audio_enabled c)
  else None.

(** Watching ([b]) the service [n] is permitted; with [full], not watching it is
    right as well.  The cursor is between two bounds: a peer that may control, or
    asked to see it, watches it; one that watches it has the permission to
    control or asked to see it. *)
Definition fits (full : bool) (c : Connection) (n : string) (b : bool) : Prop :=
  if String.eqb n NAME_CURSOR then
    (b = true → c_keyboard c || c_show_remote_cursor c = true)
    ∧ (full = true → cursor_allowed c = true → b = true)
  else match entitled c n with
       | Some e => (b = true → e = true) ∧ (full = true → e = true → b = true)
       | None => True
       end.

(** The subscriptions fit, apart from the services of [ex]. *)
Record agrees (full : bool) (ex : list string) (w : World) : Prop := {
  ag_session : is_authed_view_camera_conn (w_conn w) = false;
  ag_authorized : c_authorized (w_conn w) = true;
  ag_server : ∃ s, w_server w = Some s ∧ server_wf s
    ∧ ∀ n svc, n ∉ ex → services s !! n = Some svc →
               fits full (w_conn w) n (is_subed (c_id (w_conn w)) svc)
}.

(** Changing fields of the connection leaves out the services they decide on. *)
Lemma agrees_change full f ex ex' w :
  agrees full ex w →
  c_id (f (w_conn w)) = c_id (w_conn w) → c_authed_conn_id (f (w_conn w)) = c_authed_conn_id (w_conn w) →
  c_authorized (f (w_conn w)) = c_authorized (w_conn w) →
  (∀ n b, n ∉ ex' → fits full (w_conn w) n b → fits full (f (w_conn w)) n b) →
  agrees full (ex ++ ex') (modify_self f w).2.
Proof.
  intros [Hs Hau (s & Hsv & Hw & Hf)] Hid Ha Haz Hfit.
  split; cbn [w_conn w_server modify_self modify upd eta_World snd].
  - unfold is_authed_view_camera_conn in *. by rewrite Ha.
  - by rewrite Haz.
  - exists s. split_and!; [done|done|]. intros n svc Hn Hl.
    apply not_elem_of_app in Hn as [H1 H2]. rewrite Hid. apply Hfit; [done|]. by apply Hf.
Qed.

Lemma sub_run name b w :
  sub name b w = (tt, w <| w_server := subscribe name (c_id (w_conn w)) (b (w_conn w)) <$> w_server w |>).
Proof. reflexivity. Qed.

(** Subscribing by what fits settles a service. *)
Lemma agrees_sub full name b ex w :
  agrees full (name :: ex) w → fits full (w_conn w) name (b (w_conn w)) → agrees full ex (sub name b w).2.
Proof.
  intros [Hs Hau (s & Hsv & Hw & Hf)] Hb. split; [exact Hs|exact Hau|].
  exists (subscribe name (c_id (w_conn w)) (b (w_conn w)) s). split; [by rewrite sub_run; cbn; rewrite Hsv|].
  assert (∀ n svc, services s !! n = Some svc → wf_svc n svc) as Hw' by exact Hw.
  split.
  - intros n svc. rewrite subscribe_lookup. case_decide as Hn; [|apply Hw'].
    destruct (services s !! n) as [v|] eqn:E; [|done]. cbn. intros [= <-].
    by apply subscribe_one_spec, Hw'.
  - intros n svc Hn. rewrite subscribe_lookup. case_decide as Hnm; cycle 1.
    { apply Hf. by apply not_elem_of_cons. }
    destruct (services s !! n) as [v|] eqn:E; [|done]. cbn. intros [= <-]. subst n.
    destruct (subscribe_one_spec name (c_id (w_conn w)) (b (w_conn w)) v (Hw' _ _ E)) as [_ H2].
    specialize (H2 (c_id (w_conn w))). rewrite decide_True in H2 by done. rewrite <- is_subed_spec in H2.
    by replace (is_subed _ _) with (b (w_conn w)) by (apply eq_true_iff_eq; by rewrite H2).
Qed.

(** Anything that leaves the connection and the services alone. *)
Definition aside {A} (m : M A) : Prop := ∀ w, w_conn (m w).2 = w_conn w ∧ w_server (m w).2 = w_server w.

Lemma agrees_aside {A} full ex (m : M A) w : aside m → agrees full ex w → agrees full ex (m w).2.
Proof. intros H [Hs Hau Hv]. destruct (H w) as [H1 H2]. split; by rewrite ?H1, ?H2. Qed.

(** *** Programs that keep the subscriptions right *)

Definition stays {A} (full : bool) (m : M A) : Prop := ∀ w, agrees full [] w → agrees full [] (m w).2.

Lemma stays_aside {A} full (m : M A) : aside m → stays full m.
Proof. intros H w. by apply agrees_aside. Qed.
Lemma stays_bind {A B} full (m : M A) (k : A → M B) : stays full m → (∀ a, stays full (k a)) → stays full (m ≫= k).
Proof. intros Hm Hk w Hw. rewrite bind_run. by apply Hk, Hm. Qed.
Lemma stays_when full b m : stays full m → stays full (when b m).
Proof. intros H w. destruct b; [apply H|done]. Qed.
Lemma stays_if_set full q k : (∀ b, stays full (k b)) → stays full (if_set q k).
Proof. intros H w. destruct q as [[| |]|]; try done; apply H. Qed.

(** A field nothing depends on. *)
Lemma stays_field full f :
  (∀ c, c_id (f c) = c_id c ∧ c_authed_conn_id (f c) = c_authed_conn_id c ∧ c_authorized (f c) = c_authorized c
        ∧ ∀ n b, fits full c n b → fits full (f c) n b) →
  stays full (modify_self f).
Proof.
  intros H w Hw. destruct (H (w_conn w)) as (H1 & H2 & H3 & H4).
  pose proof (agrees_change full f [] [] w Hw H1 H2 H3) as Hc. apply Hc. intros n b _. apply H4.
Qed.

Ltac others :=
  let n := fresh "n" in let b := fresh "b" in let Hn := fresh "Hn" in
  intros n b Hn; unfold fits, entitled;
  repeat match goal with
         | |- context [String.eqb n ?m] =>
             destruct (String.eqb_spec n m) as [->|];
             [first [intros HH; exact HH | by destruct Hn; apply (bool_decide_unpack _)]|]
         end; cbn beta iota;
  intros HH; exact HH.
Ltac settle ex :=
  refine (agrees_change _ _ [] ex _ _ _ _ _ _); [assumption|reflexivity|reflexivity|reflexivity|others].

Lemma fits_self full c n e : String.eqb n NAME_CURSOR = false → entitled c n = Some e → fits full c n e.
Proof. intros Hn He. unfold fits. by rewrite Hn, He. Qed.
Lemma fits_cursor full c : fits full c NAME_CURSOR (cursor_allowed c).
Proof.
  split; [|done]. unfold cursor_allowed, peer_keyboard_enabled. rewrite !orb_true_iff, andb_true_iff. tauto.
Qed.

Lemma fits_switch full c b : c_keyboard c = b → fits full c NAME_CURSOR (b || c_show_remote_cursor c).
Proof.
  intros <-. split; [done|]. unfold cursor_allowed, peer_keyboard_enabled. rewrite !orb_true_iff, andb_true_iff. tauto.
Qed.

Lemma agrees_audio full w : agrees full [AUDIO_NAME] w → agrees full [] (sub_audio w).2.
Proof.
  intros Hw. unfold sub_audio. rewrite bind_run. cbn [self gets fst snd]. rewrite (ag_session _ _ _ Hw).
  apply agrees_sub; [exact Hw|]. by apply fits_self.
Qed.

Lemma stays_remote_cursor full b :
  stays full (modify_self (λ c, c <| c_show_remote_cursor := b |>);;
              sub NAME_CURSOR cursor_allowed;; sub NAME_POS c_show_remote_cursor).
Proof.
  intros w Hw. rewrite !bind_run.
  apply agrees_sub; [apply agrees_sub|].
  - settle [NAME_CURSOR; NAME_POS].
  - apply fits_cursor.
  - by apply fits_self.
Qed.

Lemma stays_disable_keyboard full b :
  stays full (modify_self (λ c, c <| c_disable_keyboard := b |>);;
              sub CLIPBOARD_NAME (can_sub_clipboard_service env);; sub NAME_CURSOR cursor_allowed).
Proof.
  intros w Hw. rewrite !bind_run.
  apply agrees_sub; [apply agrees_sub|].
  - settle [CLIPBOARD_NAME; NAME_CURSOR].
  - by apply fits_self.
  - apply fits_cursor.
Qed.

(** One field, one service. *)
Lemma stays_one full f name b :
  (∀ c, c_id (f c) = c_id c ∧ c_authed_conn_id (f c) = c_authed_conn_id c ∧ c_authorized (f c) = c_authorized c
        ∧ ∀ n b, n ∉ [name] → fits full c n b → fits full (f c) n b) →
  (∀ c, fits full c name (b c)) →
  stays full (modify_self f;; sub name b).
Proof.
  intros H Hb w Hw. destruct (H (w_conn w)) as (H1 & H2 & H3 & H4). rewrite bind_run.
  apply agrees_sub; [|apply Hb]. apply (agrees_change full f [] [name] w Hw H1 H2 H3 H4).
Qed.

Ltac apart := split_and!; [reflexivity|reflexivity|reflexivity|others].

Lemma stays_whiteboard full b : stays full (show_my_cursor_option env b).
Proof.
  apply stays_bind; [apply stays_field; intros; split_and!; try reflexivity; intros n b' Hn; exact Hn|]. intros _.
  destruct b, (whiteboard_supported env); by apply stays_aside.
Qed.

Lemma stays_update full o : stays full (update_options env o).
Proof.
  unfold update_options.
  apply stays_bind; [by apply stays_aside|]. intros c.
  apply stays_bind; [destruct (o_image_quality o); [apply stays_when|]; by apply stays_aside|]. intros _.
  apply stays_bind; [apply stays_when; by apply stays_aside|]. intros _.
  apply stays_bind; [destruct (o_supported_decoding o); by apply stays_aside|]. intros _.
  apply stays_bind; [apply stays_if_set; intros b; apply stays_field; intros; by split_and!|]. intros _.
  apply stays_bind; [apply stays_if_set; apply stays_remote_cursor|]. intros _.
  apply stays_bind; [apply stays_if_set; intros b; apply stays_field; intros; by split_and!|]. intros _.
  apply stays_bind.
  { apply stays_if_set. intros b. apply stays_one; [intros; apart|]. intros. by apply fits_self. }
  intros _. apply stays_bind.
  { apply stays_if_set. intros b w Hw. rewrite bind_run. apply agrees_audio. settle [AUDIO_NAME]. }
  intros _. apply stays_bind.
  { apply stays_if_set. intros b. apply stays_one; [intros; apart|]. intros. by apply fits_self. }
  intros _. apply stays_bind; [apply stays_if_set; apply stays_disable_keyboard|]. intros _.
  apply stays_bind.
  { destruct (_ <? _)%Z; [|by apply stays_aside]. destruct (o_privacy_mode o) as [q|]; [|by apply stays_aside].
    apply stays_bind; [by apply stays_aside|]. intros c'. apply stays_when. destruct q; by apply stays_aside. }
  intros _. apply stays_bind.
  { destruct (o_block_input o) as [q|]; [|by apply stays_aside]. apply stays_bind; [by apply stays_aside|].
    intros c'. destruct (_ && _), q; by apply stays_aside. }
  intros _. apply stays_bind; [apply stays_if_set; intros b|intros _; apply stays_if_set; apply stays_whiteboard].
  apply stays_bind; [apply stays_field; intros; by split_and!|]. intros _. by apply stays_aside.
Qed.

Lemma stays_switch full nm b : stays full (switch_permission env nm b).
Proof.
  unfold switch_permission.
  destruct (String.eqb nm "keyboard").
  { intros w Hw. rewrite !bind_run. apply agrees_sub; [apply agrees_sub; [apply agrees_aside; [done|]|]|].
    - settle [CLIPBOARD_NAME; NAME_CURSOR].
    - by apply fits_self.
    - by apply fits_switch. }
  destruct (String.eqb nm "clipboard").
  { intros w Hw. rewrite !bind_run. apply agrees_sub; [apply agrees_aside; [done|]|].
    - settle [CLIPBOARD_NAME].
    - by apply fits_self. }
  destruct (String.eqb nm "audio").
  { intros w Hw. rewrite !bind_run.
    assert (agrees full [AUDIO_NAME] (emit (SendPermission PAudio b)
              (modify_self (λ c, c <| c_audio := b |>) w).2).2) as H
      by (apply agrees_aside; [done|]; settle [AUDIO_NAME]).
    cbn [self gets fst snd]. rewrite (ag_authorized _ _ _ H). by apply agrees_audio. }
  repeat (destruct (String.eqb nm _); [apply stays_bind; [apply stays_field; intros; by split_and!|intros _; by apply stays_aside]|]).
  by apply stays_aside.
Qed.

(** *** What option messages set *)

(** A flag after a field of an option message. *)
Definition applied (q : Datatypes.option BoolOption) (old : bool) : bool :=
  match q with Some Yes => true | Some No => false | _ => old end.

Definition with_flag (q : Datatypes.option BoolOption) (u : bool → Connection → Connection)
    (f : Connection → bool) (c : Connection) : Connection := u (applied q (f c)) c.

Definition set_options (o : OptionMessage) (c : Connection) : Connection :=
  with_flag (o_show_my_cursor o) (λ b c, c <| c_show_my_cursor := b |>) c_show_my_cursor
  (with_flag (o_terminal_persistent o) (λ b c, c <| c_terminal_persistent := b |>) c_terminal_persistent
  (with_flag (o_disable_keyboard o) (λ b c, c <| c_disable_keyboard := b |>) c_disable_keyboard
  (with_flag (o_disable_clipboard o) (λ b c, c <| c_disable_clipboard := b |>) c_disable_clipboard
  (with_flag (o_disable_audio o) (λ b c, c <| c_disable_audio := b |>) c_disable_audio
  (with_flag (o_follow_remote_window o) (λ b c, c <| c_follow_remote_window := b |>) c_follow_remote_window
  (with_flag (o_follow_remote_cursor o) (λ b c, c <| c_follow_remote_cursor := b |>) c_follow_remote_cursor
  (with_flag (o_show_remote_cursor o) (λ b c, c <| c_show_remote_cursor := b |>) c_show_remote_cursor
  (with_flag (o_lock_after_session_end o) (λ b c, c <| c_lock_after_session_end := b |>)
     c_lock_after_session_end c)))))))).

Lemma flag_other {A} (p : Connection → A) q u f c : (∀ b c, p (u b c) = p c) → p (with_flag q u f c) = p c.
Proof. intros H. apply H. Qed.
Lemma flag_same q u f c : (∀ b c, f (u b c) = b) → f (with_flag q u f c) = applied q (f c).
Proof. intros H. apply H. Qed.

Definition turns {A} (m : M A) (f : Connection → Connection) : Prop := ∀ w, w_conn (m w).2 = f (w_conn w).

Lemma turns_bind {A B} (m : M A) (k : A → M B) f g :
  turns m f → (∀ a, turns (k a) g) → turns (m ≫= k) (λ c, g (f c)).
Proof. intros Hm Hk w. by rewrite bind_run, Hk, Hm. Qed.
Lemma turns_aside {A} (m : M A) : aside m → turns m (λ c, c).
Proof. intros H w. apply H. Qed.
Lemma turns_if_set q k (u : bool → Connection → Connection) (f : Connection → bool) :
  (∀ b, turns (k b) (u b)) → (∀ c, u (f c) c = c) → turns (if_set q k) (with_flag q u f).
Proof. intros Hk Hid w. unfold with_flag. destruct q as [[| |]|]; cbn; rewrite ?Hid; try done; apply Hk. Qed.
Lemma turns_flag q k (u : bool → Connection → Connection) (f : Connection → bool) (rest : M unit) g :
  (∀ b, turns (k b) (u b)) → (∀ c, u (f c) c = c) → turns rest g →
  turns (if_set q k;; rest) (λ c, g (with_flag q u f c)).
Proof. intros Hk Hid Hr. apply (turns_bind _ _ (with_flag q u f)); [by apply turns_if_set|done]. Qed.
Lemma turns_ext {A} (m : M A) f g : turns m f → (∀ c, f c = g c) → turns m g.
Proof. intros H E w. by rewrite <- E. Qed.
Lemma turns_audio : turns sub_audio (λ c, c).
Proof.
  intros w. unfold sub_audio. rewrite bind_run. cbn [self gets fst snd].
  destruct (is_authed_view_camera_conn _); [|done]. by destruct (_ || _).
Qed.
Lemma turns_my_cursor b : turns (show_my_cursor_option env b) (λ c, c <| c_show_my_cursor := b |>).
Proof. intros w. unfold show_my_cursor_option. by destruct b, (whiteboard_supported env). Qed.

Lemma aside_when b m : aside m → aside (when b m).
Proof. intros H w. by destruct b; [apply H|]. Qed.
Lemma aside_bind {A B} (m : M A) (k : A → M B) : aside m → (∀ a, aside (k a)) → aside (m ≫= k).
Proof.
  intros Hm Hk w. rewrite bind_run. destruct (Hm w) as [H1 H2], (Hk (m w).1 (m w).2) as [H3 H4].
  split; congruence.
Qed.

Lemma update_options_conn o : turns (update_options env o) (set_options o).
Proof.
  unfold update_options.
  assert (∀ A B (m : M A) (k : A → M B) f, aside m → (∀ a, turns (k a) f) → turns (m ≫= k) f) as Hskip.
  { intros A B m k f Hm Hk. apply (turns_bind m k (λ c, c) f); [by apply turns_aside|done]. }
  apply Hskip; [done|]. intros c.
  apply Hskip; [destruct (o_image_quality o); [by apply aside_when|done]|]. intros _.
  apply Hskip; [by apply aside_when|]. intros _.
  apply Hskip; [by destruct (o_supported_decoding o)|]. intros _.
  assert (∀ (u : bool → Connection → Connection) b, turns (modify_self (u b)) (u b)) as Hset by done.
  eapply turns_ext.
  { apply (turns_flag _ _ (λ b c, c <| c_lock_after_session_end := b |>) c_lock_after_session_end);
      [done|by intros []|].
    apply (turns_flag _ _ (λ b c, c <| c_show_remote_cursor := b |>) c_show_remote_cursor);
      [done|by intros []|].
    apply (turns_flag _ _ (λ b c, c <| c_follow_remote_cursor := b |>) c_follow_remote_cursor);
      [done|by intros []|].
    apply (turns_flag _ _ (λ b c, c <| c_follow_remote_window := b |>) c_follow_remote_window);
      [done|by intros []|].
    apply (turns_flag _ _ (λ b c, c <| c_disable_audio := b |>) c_disable_audio);
      [intros b; apply (turns_bind _ _ _ (λ c, c) (Hset (λ b c, c <| c_disable_audio := b |>) b)); intros _; apply turns_audio|by intros []|].
    apply (turns_flag _ _ (λ b c, c <| c_disable_clipboard := b |>) c_disable_clipboard);
      [done|by intros []|].
    apply (turns_flag _ _ (λ b c, c <| c_disable_keyboard := b |>) c_disable_keyboard);
      [done|by intros []|].
    apply Hskip; [|intros _].
    { destruct (_ <? _)%Z; [|done]. destruct (o_privacy_mode o) as [q|]; [|done].
      apply aside_bind; [done|]. intros c'. apply aside_when. by destruct q. }
    apply Hskip; [|intros _].
    { destruct (o_block_input o) as [q|]; [|done]. apply aside_bind; [done|].
      intros c'. by destruct (_ && _), q. }
    apply (turns_flag _ _ (λ b c, c <| c_terminal_persistent := b |>) c_terminal_persistent);
      [done|by intros []|].
    apply turns_if_set with (u := λ b c, c <| c_show_my_cursor := b |>) (f := c_show_my_cursor);
      [apply turns_my_cursor|by intros []]. }
  reflexivity.
Qed.

(** The fields of [set_options] one by one. *)
Ltac flags := unfold set_options; repeat (first [rewrite flag_same by done | rewrite flag_other by done]).

Record same_flags (o : OptionMessage) (c c' : Connection) : Prop := {
  sf_lock : c_lock_after_session_end c' = applied (o_lock_after_session_end o) (c_lock_after_session_end c);
  sf_cursor : c_show_remote_cursor c' = applied (o_show_remote_cursor o) (c_show_remote_cursor c);
  sf_follow : c_follow_remote_cursor c' = applied (o_follow_remote_cursor o) (c_follow_remote_cursor c);
  sf_window : c_follow_remote_window c' = applied (o_follow_remote_window o) (c_follow_remote_window c);
  sf_audio : c_disable_audio c' = applied (o_disable_audio o) (c_disable_audio c);
  sf_clipboard : c_disable_clipboard c' = applied (o_disable_clipboard o) (c_disable_clipboard c);
  sf_keyboard : c_disable_keyboard c' = applied (o_disable_keyboard o) (c_disable_keyboard c);
  sf_terminal : c_terminal_persistent c' = applied (o_terminal_persistent o) (c_terminal_persistent c);
  sf_my_cursor : c_show_my_cursor c' = applied (o_show_my_cursor o) (c_show_my_cursor c)
}.

Lemma set_options_flags o c : same_flags o c (set_options o c).
Proof. split; flags; reflexivity. Qed.

Lemma set_options_other {A} (p : Connection → A) o c :
  (∀ c b, p (c <| c_lock_after_session_end := b |>) = p c) → (∀ c b, p (c <| c_show_remote_cursor := b |>) = p c) →
  (∀ c b, p (c <| c_follow_remote_cursor := b |>) = p c) → (∀ c b, p (c <| c_follow_remote_window := b |>) = p c) →
  (∀ c b, p (c <| c_disable_audio := b |>) = p c) → (∀ c b, p (c <| c_disable_clipboard := b |>) = p c) →
  (∀ c b, p (c <| c_disable_keyboard := b |>) = p c) → (∀ c b, p (c <| c_terminal_persistent := b |>) = p c) →
  (∀ c b, p (c <| c_show_my_cursor := b |>) = p c) → p (set_options o c) = p c.
Proof. intros. unfold set_options. rewrite !flag_other by done. done. Qed.

(** *** From the start of a session *)

Lemma noperms_spec c n :
  n ∈ noperms env c ↔
  if String.eqb n NAME_CURSOR then cursor_allowed c = false
  else entitled c n = Some false.
Proof.
  unfold noperms, entitled, cursor_allowed.
  rewrite !elem_of_app.
  assert (∀ (b : bool) m, n ∈ (if b then [m] else [] : list string) ↔ b = true ∧ n = m) as H.
  { intros [] m; set_solver. }
  rewrite !H. clear H.
  set (p1 := peer_keyboard_enabled c). set (p2 := c_show_remote_cursor c). set (p3 := c_follow_remote_window c).
  set (p4 := can_sub_clipboard_service env c). set (p5 := audio_enabled c). clearbody p1 p2 p3 p4 p5.
  unfold NAME_CURSOR, NAME_POS, NAME_WINDOW_FOCUS, CLIPBOARD_NAME, AUDIO_NAME.
  repeat match goal with |- context [String.eqb n ?m] => destruct (String.eqb_spec n m) as [->|] end;
    destruct p1, p2, p3, p4, p5; cbn; intuition congruence.
Qed.

Lemma auto_disconnect_aside : aside (get_auto_disconenct_timer env).
Proof.
  unfold get_auto_disconenct_timer. apply aside_bind; [done|]. intros a. apply aside_bind; [done|]. intros b. done.
Qed.

Lemma try_sub_conn w s :
  is_remote (w_conn w) = true → c_services_subed (w_conn w) = false → w_server w = Some s →
  let w' := (try_sub_monitor_services env w).2 in
  (∃ t, w_conn w' = w_conn w <| c_services_subed := true |> <| c_auto_disconnect_timer := t |>)
  ∧ w_server w' = Some (foldl (srv_step (devices env)) s
                          [AddPrimaryVideo; AddConnection (c_id (w_conn w)) (noperms env (w_conn w))]).
Proof.
  intros Hr Hs Hsv. cbn zeta. unfold try_sub_monitor_services. rewrite bind_run. cbn [self gets fst snd].
  rewrite Hr, Hs. cbn [negb andb]. rewrite !bind_run.
  cbn [gets fst snd modify_self modify w_server upd eta_World]. rewrite Hsv, !bind_run.
  cbn [emit modify fst snd]. set (w1 := w <| w_conn := _ |> <| w_log := _ |>).
  destruct (auto_disconnect_aside w1) as [H1 H2].
  destruct (get_auto_disconenct_timer env w1) as [t w2]. cbn [fst snd] in *.
  split; [exists t; cbn; by rewrite H1|]. cbn. rewrite H2. change (w_server w1) with (w_server w). by rewrite Hsv.
Qed.

Lemma agrees_start w :
  agrees false [] w → is_remote (w_conn w) = true → c_services_subed (w_conn w) = false →
  agrees true [] (try_sub_monitor_services env w).2.
Proof.
  intros [Hs Ha (s & Hsv & Hw & Hf)] Hr Hsub.
  destruct (try_sub_conn w s Hr Hsub Hsv) as [[t Hc] Hv].
  set (w' := (try_sub_monitor_services env w).2) in *. clearbody w'.
  split; [by rewrite Hc|by rewrite Hc|].
  pose proof (Build_refines s (dom (services s)) (watches s) Hw (λ n, elem_of_dom _ _) (λ n i, iff_refl _)) as R0.
  pose proof (srv_step_refines (devices env) _ _ _ AddPrimaryVideo R0) as R1.
  pose proof (srv_step_refines (devices env) _ _ _
                (AddConnection (c_id (w_conn w)) (noperms env (w_conn w))) R1) as [W2 N2 H2].
  set (s2 := srv_step _ _ (AddConnection _ _)) in *. change (w_server w' = Some s2) in Hv.
  eexists. split; [exact Hv|]. split; [exact W2|]. intros n svc _ Hl.
  assert (is_subed (c_id (w_conn w)) svc = true ↔ watches s2 n (c_id (w_conn w))) as Hsb.
  { rewrite is_subed_spec. unfold watches. rewrite Hl. naive_solver. }
  assert (n ∈ spec_names (devices env) (spec_names (devices env) (dom (services s)) AddPrimaryVideo)
                (AddConnection (c_id (w_conn w)) (noperms env (w_conn w)))) as Hn by (apply N2; eauto).
  rewrite H2 in Hsb. cbn [spec_watch spec_names] in Hsb, Hn. clearbody s2. clear R0 R1 H2 N2 W2 Hv.
  rewrite Hc. change (c_id (_ <| c_auto_disconnect_timer := t |>)) with (c_id (w_conn w)).
  change (fits true (w_conn w) n (is_subed (c_id (w_conn w)) svc)).
  pose proof (noperms_spec (w_conn w) n) as Hnp.
  assert (∀ v, services s !! n = Some v → fits false (w_conn w) n (is_subed (c_id (w_conn w)) v)) as Hf'
    by (intros v; apply Hf; set_solver).
  assert (is_subed (c_id (w_conn w)) svc = true ↔
          (∃ v, services s !! n = Some v ∧ is_subed (c_id (w_conn w)) v = true)
          ∨ n ∉ noperms env (w_conn w) ∧ (is_video_service_name n = true → n = primary_video_name (devices env))) as Hb.
  { rewrite Hsb. unfold watches. setoid_rewrite is_subed_spec. tauto. }
  revert Hf' Hb Hnp. generalize (is_subed (c_id (w_conn w))). intros sb Hf' Hb Hnp.
  rewrite Hnp in Hb. unfold fits in *. clear -Hb Hf'.
  destruct (String.eqb_spec n NAME_CURSOR) as [->|Hne].
  - assert (is_video_service_name NAME_CURSOR = false) as Hv by reflexivity. rewrite Hv in Hb. split.
    + intros H. apply Hb in H as [(v & Hv' & H)|[H _]]; [by apply (Hf' _ Hv')|].
      apply not_false_is_true in H. unfold cursor_allowed, peer_keyboard_enabled in H.
      destruct (c_keyboard _); [done|exact H].
    + intros _ H. apply Hb. right. by rewrite H.
  - destruct (entitled (w_conn w) n) as [e|] eqn:E; [|done].
    assert (is_video_service_name n = false) as Hv.
    { unfold entitled in E. repeat match type of E with context [String.eqb n ?m] =>
        destruct (String.eqb_spec n m) as [->|]; [reflexivity|] end. done. }
    rewrite Hv in Hb. split.
    + intros H. apply Hb in H as [(v & Hv' & H)|[H _]]; [by apply (Hf' _ Hv')|]. by destruct e.
    + intros _ ->. apply Hb. right. done.
Qed.

Lemma stays_options_in_login w :
  agrees false [] w → agrees false [] (take_options_in_login env w).2
                      ∧ is_remote (w_conn (take_options_in_login env w).2) = is_remote (w_conn w)
                      ∧ c_services_subed (w_conn (take_options_in_login env w).2) = c_services_subed (w_conn w).
Proof.
  intros Hw. unfold take_options_in_login. rewrite bind_run. cbn [self gets fst snd].
  destruct (c_options_in_login (w_conn w)) as [o|]; [|done]. rewrite bind_run.
  split; [apply stays_update, (stays_field false (λ c, c <| c_options_in_login := None |>));
          [intros; by split_and!|done]|].
  rewrite update_options_conn. by rewrite !set_options_other.
Qed.

(** What happens in a session: an option message of the peer, a permission
    switched by the connection manager. *)
Inductive SessionOp := SoOption (o : OptionMessage) | SoSwitch (nm : string) (enabled : bool).
Definition so_run (w : World) (op : SessionOp) : World :=
  match op with
  | SoOption o => (update_options env o w).2
  | SoSwitch nm b => (switch_permission env nm b w).2
  end.

Lemma so_runs_agree ops w : agrees true [] w → agrees true [] (foldl so_run w ops).
Proof.
  revert w; induction ops as [|op ops IH]; intros w Hw; [done|]. cbn. apply IH.
  destruct op; [by apply stays_update|by apply stays_switch].
Qed.

Lemma agrees_nothing w s :
  is_authed_view_camera_conn (w_conn w) = false → c_authorized (w_conn w) = true →
  w_server w = Some s → server_wf s → (∀ n, ¬ watches s n (c_id (w_conn w))) → agrees false [] w.
Proof.
  intros Hc Ha Hsv Hw Hn. split; [done|done|]. exists s. split_and!; [done|done|]. intros n svc _ Hl.
  destruct (is_subed (c_id (w_conn w)) svc) eqn:E.
  - destruct (Hn n). exists svc. split; [done|]. by apply is_subed_spec.
  - unfold fits. destruct (String.eqb n NAME_CURSOR); [done|]. by destruct (entitled _ n).
Qed.

(** C15: a remote-control session is sent exactly what it may see.  From the
    granting of the session on, through the options of the login message, any
    option messages of the peer and any permissions the user of the host switches,
    the peer is subscribed to the clipboard, audio, cursor-position and
    window-focus services just when its options and permissions entitle it (the
    clipboard needs the clipboard and keyboard permissions, neither disabled, and
    a host that does not redirect one way only), and to the cursor only when it
    has the keyboard permission or asked to see it. *)
Theorem session_subscriptions ops w s :
  let c := w_conn w in
  c_authorized c = true → c_authed_conn_id c = Some Remote → is_remote c = true → c_services_subed c = false →
  w_server w = Some s → server_wf s → (∀ n, ¬ watches s n (c_id c)) →
  let w' := foldl so_run ((take_options_in_login env;; start_session env true) w).2 ops in
  let c' := w_conn w' in
  ∃ s', w_server w' = Some s'
    ∧ (∀ n e, entitled c' n = Some e → contains n s' = true → watches s' n (c_id c') ↔ e = true)
    ∧ (watches s' NAME_CURSOR (c_id c') → c_keyboard c' = true ∨ c_show_remote_cursor c' = true)
    ∧ (contains NAME_CURSOR s' = true → cursor_allowed c' = true → watches s' NAME_CURSOR (c_id c')).
Proof.
  intros c Ha Hau Hr Hsub Hsv Hw Hn. cbn zeta.
  assert (agrees false [] w) as H0.
  { apply (agrees_nothing w s); try done. unfold is_authed_view_camera_conn. fold c. by rewrite Hau. }
  destruct (stays_options_in_login w H0) as (H1 & Hr1 & Hs1). rewrite bind_run.
  set (w1 := (take_options_in_login env w).2) in *. clearbody w1.
  unfold start_session. rewrite bind_run. cbn [self gets fst snd].
  fold c in Hr1, Hs1. rewrite Hr in Hr1. rewrite Hsub in Hs1. pose proof Hr1 as Hk. unfold is_remote in Hk.
  apply andb_true_iff in Hk as [[[Hf Hp]%andb_true_iff Hv]%andb_true_iff Ht].
  destruct (c_file_transfer (w_conn w1)); [done|]. apply negb_true_iff in Hv, Ht. rewrite Ht, Hv. cbn [when].
  pose proof (so_runs_agree ops _ (agrees_start w1 H1 Hr1 Hs1)) as [_ _ (s' & Hsv' & _ & Hfit)].
  set (w' := foldl so_run _ ops) in *. clearbody w'. exists s'. split; [done|].
  assert (∀ n, (∃ svc, services s' !! n = Some svc ∧ is_subed (c_id (w_conn w')) svc = true)
               ↔ watches s' n (c_id (w_conn w'))) as Hwt.
  { intros n. unfold watches. by setoid_rewrite is_subed_spec. }
  clear -Hfit Hwt. split_and!.
  - intros n e He Hc. apply bool_decide_eq_true in Hc as [svc Hl].
    specialize (Hfit n svc ltac:(set_solver) Hl). rewrite <- Hwt. unfold fits in Hfit.
    destruct (String.eqb_spec n NAME_CURSOR) as [->|_]; [done|]. rewrite He in Hfit.
    split; [intros (v & Hv & Hs)|intros ->; exists svc]; naive_solver.
  - intros (svc & Hl & Hs)%Hwt. apply (Hfit NAME_CURSOR svc ltac:(set_solver) Hl) in Hs.
    by apply orb_true_iff in Hs.
  - intros Hc Hall. apply bool_decide_eq_true in Hc as [svc Hl]. apply Hwt. exists svc. split; [done|].
    by apply (Hfit NAME_CURSOR svc ltac:(set_solver) Hl).
Qed.

End Subscriptions.

(** ** On the concrete host *)

Import Secret.Toy PasswordSafety.ToyJson Demo.

Definition granted_world : @World Demo.totp_toy :=
  Demo.world None
  <| w_conn := w_conn (Demo.world None) <| c_authorized := true |> <| c_authed_conn_id := Some Remote |> |>.

Lemma session_subscriptions_witness :
  let no_clipboard := option_message_default <| o_disable_clipboard := Some Yes |> in
  let w' := foldl (so_run Demo.env)
              ((take_options_in_login Demo.env;; start_session Demo.env true) granted_world).2
              [SoSwitch "audio" false; SoOption no_clipboard] in
  ∃ s', w_server w' = Some s' ∧ ¬ watches s' CLIPBOARD_NAME 1001.
Proof.
  intros o w'.
  assert (∀ n, ¬ watches (server_new false true 5) n 1001) as Hn.
  { intros n (svc & Hl & Hi). revert n svc Hl Hi.
    apply (map_Forall_lookup (λ _ svc, 1001%Z ∉ subs svc)). apply (bool_decide_unpack _). vm_compute. exact I. }
  destruct (session_subscriptions Demo.env [SoSwitch "audio" false; SoOption o] granted_world (server_new false true 5)
              eq_refl eq_refl eq_refl eq_refl eq_refl ltac:(apply (bool_decide_unpack _); vm_compute; exact I) Hn)
    as (s' & Hs & He & _).
  exists s'. split; [exact Hs|].
  assert (contains CLIPBOARD_NAME s' = true) as Hc.
  { fold w' in Hs. vm_compute in Hs. injection Hs as <-. vm_compute. reflexivity. }
  intros Hw. apply (He CLIPBOARD_NAME false) in Hw; [discriminate| |exact Hc]. vm_compute. reflexivity.
Defined.

(** *** What goes wrong *)

Definition watching (w : @World Demo.totp_toy) (n : string) : bool :=
  match w_server w with
  | Some s => match services s !! n with Some svc => is_subed (c_id (w_conn w)) svc | None => false end
  | None => false
  end.

(** The options of a login are taken whatever its kind, and the keyboard
    permission that the clipboard depends on is withdrawn after that: a peer that
    may only look at the camera has the clipboard sent to it. *)
Lemma camera_is_sent_clipboard :
  let o := option_message_default <| o_disable_clipboard := Some No |> in
  let r := Demo.request "secret" (Some LoginViewCamera) in
  let lr := {| lr_username := lr_username r; lr_password := lr_password r; lr_my_id := lr_my_id r;
               lr_my_name := lr_my_name r; lr_option := Some o; lr_union := lr_union r;
               lr_video_ack_required := false; lr_session_id := 77; lr_version := "1.4.0";
               lr_os_login := None; lr_my_platform := "Linux"; lr_hwid := ""; lr_avatar := "" |} in
  let w := (on_message Demo.env (MsgLoginRequest lr) (Demo.world None)).2 in
  c_view_camera (w_conn w) = true ∧ can_sub_clipboard_service Demo.env (w_conn w) = false
  ∧ watching w CLIPBOARD_NAME = true.
Proof. vm_compute. done. Qed.

(** The connection manager's switch of the keyboard or the clipboard subscribes a
    peer that is still waiting to be let in. *)
Lemma waiting_peer_is_sent_clipboard :
  let w := (switch_permission Demo.env "clipboard" true (Demo.world None)).2 in
  c_authorized (w_conn w) = false ∧ watching w CLIPBOARD_NAME = true.
Proof. vm_compute. done. Qed.

(** Tunnels are not permitted, and a login that asks for one is refused; but a side
    switch with a wrong uuid replaces the request the user is asked about, and the
    user's click opens the tunnel. *)
Lemma tunnel_permission_bypassed :
  let no_tunnel := set_c2_options ({["enable-tunnel" := "N"]} : smap) Config2_default in
  let w0 := Demo.world None <| w_host := set_CFG2 (store no_tunnel) (w_host (Demo.world None)) |> in
  let tunnel := Demo.request "" (Some (LoginPortForward "db.internal" 5432)) in
  let ask := (on_message Demo.env (MsgLoginRequest (Demo.request "guess" None)) w0).2 in
  let w1 := (on_message Demo.env (MsgSwitchSidesResponse (Some tunnel) "wrong") ask).2 in
  let w2 := (on_input Demo.env (InCm CmAuthorize) w1).2 in
  (on_message Demo.env (MsgLoginRequest tunnel) w0).1 = false
  ∧ existsb (λ e, match e with OpenPortForward a => String.eqb a "db.internal:5432" | _ => false end) (w_log w1) = false
  ∧ existsb (λ e, match e with OpenPortForward a => String.eqb a "db.internal:5432" | _ => false end) (w_log w2) = true.
Proof. vm_compute. done. Qed.

(** The second factor stands alone: a peer that sent no login request at all gets
    in with the current code, without any password. *)
Lemma second_factor_alone_suffices :
  let w := Demo.world None <| w_conn := w_conn (Demo.world None) <| c_require_2fa := Some "123456" |> |> in
  c_authorized (w_conn w) = false
  ∧ c_authorized (w_conn (on_message Demo.env (MsgAuth2fa "123456" "") w).2) = true.
Proof. vm_compute. done. Qed.
