(* ===== verification/Session.v ===== *)
(** * Client and host together

    The two ends of a session as one: the client's answer to a challenge
    ([LoginConfig]) is what the host accepts ([Login]) when the user knows a
    password of the host, now or when the password was remembered from an earlier
    session; and the session's options at the host are those the client keeps for
    the peer. *)

From S2P Require Import Prelude Strs Version VideoQos Secret Options Password PasswordSafety HostPort Permissions Throttle Sessions Services Conn Peers LoginConfig Login LoginSafety ConnSafety.
From Stdlib Require Import Ascii String.

Local Open Scope string_scope.
#[local] Arguments String.append _ _ : simpl nomatch.

Section Session.
  Context `{F : F64} `{T : Totp} `{C : Crypto} `{!CryptoLaws C} `{J : Json}.
  Variable env : Env.
  Variable cenv : ClientEnv.
  #[local] Abbreviation World := (@World T).

(** [pw] is a password the host takes now: the one-time password, or what the
    permanent one is compared with, as the connection was given its salt. *)
Definition host_takes (w : World) (pw : string) : Prop :=
  let h := w_host w in
  let g := globals env in
  pw ≠ "" ∧
  ((temporary_enabled g (CFG2 h) = true ∧ temporary_password h = pw)
   ∨ (permanent_enabled g (CFG2 h) = true ∧ c_salt (w_conn w) = salt (mem (CONFIG h))
      ∧ matches_permanent_password_plain g (CONFIG h) pw = true)).

Lemma compute_h1 pw s : compute_permanent_password_h1 pw s = sha256 (pw ++ s).
Proof. apply str_take_all. rewrite sha256_len. done. Qed.

Lemma host_takes_ok w lr pw :
  host_takes w pw → proves w lr (salted w pw) → password_ok env w lr.
Proof.
  intros (Hne & H) Hp. unfold password_ok. destruct H as [(Ht & Hpw)|(Hen & Hs & Hm)].
  { left. rewrite Hpw. done. }
  right. split; [done|]. unfold matches_permanent_password_plain in Hm.
  rewrite is_empty_false in Hm by done.
  case_decide as Hst.
  - rewrite Hst in Hm. cbn [is_empty] in Hm. unfold get_is in Hm.
    destruct (HARD_SETTINGS (globals env) !! "password") as [v|]; [|done].
    apply String.eqb_eq in Hm as ->. eauto.
  - rewrite is_empty_false in Hm by done.
    destruct (decode_permanent_password_h1_from_storage _) as [h1|].
    + destruct (is_empty (salt _)); [done|]. apply String.eqb_eq in Hm as <-.
      rewrite compute_h1, <- Hs. done.
    + apply String.eqb_eq in Hm as ->. done.
Qed.

(** *** The client's request *)

Lemma create_login_msg_spec ou op pw c :
  ∃ lr c', create_login_msg cenv ou op pw c = (lr, c')
    ∧ lr_password lr = pw ∧ lr_os_login lr = Some (ou, op)
    ∧ lr_session_id lr = h_session_id (lch c)
    ∧ lr_username lr = match h_other_server (lch c) with Some (i, _, _) => i | None => h_id (lch c) end.
Proof.
  unfold create_login_msg.
  destruct (match h_other_server (lch c) with Some _ => _ | None => _ end) as [my pure] eqn:E.
  destruct (get_option_message _ _ _) as [o c'].
  eexists _, c'. split; [reflexivity|]. repeat split; cbn.
  destruct (h_other_server (lch c)) as [[[i s] k]|]; congruence.
Qed.

(** Everything about a request apart from the password. *)
Record admissible (w : World) (lr : LoginRequest) : Prop := {
  ad_kind : kind_permitted env w lr;
  ad_terminal : terminal_ok env lr;
  ad_reachable : reachable env lr;
  ad_desktop : desktop_ready env w lr;
  ad_addressed : addresses w (lr_username lr)
}.

(** The connection waits for a login, and none of the reasons to refuse one holds. *)
Record waiting (w : World) : Prop := {
  wt_authorized : c_authorized (w_conn w) = false;
  wt_2fa : c_require_2fa (w_conn w) = None;
  wt_click : click_only env (w_host w) = false;
  wt_throttle : not_throttled env w (w_failures w)
}.

Definition grants (lr : LoginRequest) (w : World) : Prop :=
  (on_message env (MsgLoginRequest lr) w).1 = true
  ∧ c_authorized (w_conn (on_message env (MsgLoginRequest lr) w).2) = true.

Lemma answer_grants w lr pw :
  waiting w → host_takes w pw → admissible w lr → proves w lr (salted w pw) → grants lr w.
Proof.
  intros [] Hpw [] Hp. apply valid_login_succeeds; try done.
  - unfold proves in Hp. rewrite Hp. intros E. pose proof (sha256_len (salted w pw ++ c_challenge (w_conn w))) as H.
    by rewrite E in H.
  - by eapply host_takes_ok.
Qed.

(** C20: a user who knows a password of the host gets in.  When the client was sent the
    connection's salt and challenge and the user enters the one-time password or the
    permanent one, that the host takes, the client sends one login request.  The host
    grants it if it waits for a login with no second factor, does not insist on a click
    and does not throttle the address, and the request is one it permits: the kind of
    connection is permitted, a terminal can be given to the user asked for, its target
    can be reached, the desktop is ready, and the request names the
    host by an address or by an id of at most six characters. *)
Theorem password_login_succeeds ou op pw remember c w :
  h_hash (lch c) = (c_salt (w_conn w), c_challenge (w_conn w)) →
  host_takes w pw → waiting w →
  ∃ lr c', handle_login_from_ui cenv ou op pw remember c = ([SendLogin lr], c')
    ∧ (admissible w lr → grants lr w).
Proof.
  intros Hh Hpw Hw. unfold handle_login_from_ui. rewrite is_empty_false by apply Hpw.
  set (c1 := c <| lch := _ |>).
  destruct (create_login_msg_spec ou op (sha256 (sha256 (pw ++ (h_hash (lch c)).1) ++ (h_hash (lch c)).2)) c1)
    as (lr & c' & E & Hlr & _).
  exists lr, c'. split.
  - cbn [h_hash upd] in E |- *. by rewrite E.
  - intros Had. apply (answer_grants w lr pw); try done. unfold proves, salted. rewrite Hlr, Hh. done.
Qed.

(** *** The remembered password *)

Lemma get_option_message_lch b c :
  ∃ fps, lch (get_option_message cenv b c).2 = lch c <| h_custom_fps := fps |>.
Proof.
  unfold get_option_message. assert (∃ fps, lch c = lch c <| h_custom_fps := fps |>) as Hid.
  { exists (h_custom_fps (lch c)). by destruct (lch c). }
  destruct (h_conn_type (lch c)); try exact Hid.
  all: destruct (get_image_quality_enum _ _) as [q|]; [exact Hid|].
  all: destruct (String.eqb _ "custom"); [|exact Hid].
  all: unfold load_config; destruct (load_of _ _ _) as [p f].
  all: destruct (p_options _ !! "custom-fps"); [|exact Hid].
  all: eexists; reflexivity.
Qed.

Lemma create_login_msg_lch ou op pw c :
  ∃ fps, lch (create_login_msg cenv ou op pw c).2 = lch c <| h_custom_fps := fps |>.
Proof.
  unfold create_login_msg. destruct (match h_other_server (lch c) with Some _ => _ | None => _ end) as [my pure].
  pose proof (get_option_message_lch true c) as H. by destruct (get_option_message _ _ _).
Qed.

#[local] Abbreviation wf_peer := (wf_peer (ce_globals cenv) (ce_defaults cenv)).

(** Changes that stay clear of the checked fields and the sealed options. *)
Lemma wf_peer_options p o : (∀ k, k ∈ sealed_options → o !! k = p_options p !! k) →
  wf_peer p → wf_peer (p <| p_options := o |>).
Proof.
  intros Hk [Hf Hp Ho]. split; [|exact Hp|].
  - unfold deserialize in *. destruct p; cbn in *. by injection Hf as -> -> -> -> -> -> -> -> ->.
  - intros k v Hin. cbn. rewrite (Hk k Hin). by apply Ho.
Qed.

Lemma wf_peer_option p k v : k ∉ sealed_options → wf_peer p → wf_peer (p <| p_options := <[k := v]> (p_options p) |>).
Proof. intros Hk. apply wf_peer_options. intros k' Hk'. apply lookup_insert_ne. by intros ->. Qed.

(** The fields that reading checks, and the secrets. *)
Definition checked (p : PeerConfig) :=
  (p_view_style p, p_scroll_style p, p_edge_scroll_edge_thickness p, p_image_quality p,
   p_custom_image_quality p, p_reverse_mouse_wheel p, p_displays_as_individual_windows p,
   p_use_all_my_displays_for_the_remote_session p, p_trackpad_speed p, p_password p, p_options p).

Lemma wf_peer_like p p' : checked p' = checked p → wf_peer p → wf_peer p'.
Proof.
  intros E [Hf Hp Ho]. unfold checked in E. destruct p, p'; cbn in E. injection E as -> -> -> -> -> -> -> -> -> -> ->.
  split; [|exact Hp|exact Ho]. unfold deserialize in *. cbn in *.
  by injection Hf as -> -> -> -> -> -> -> -> ->.
Qed.

Lemma wf_peer_password p pw : storable_vec pw → wf_peer p → wf_peer (p <| p_password := pw |>).
Proof.
  intros Hpw [Hf Hp Ho]. split; [|exact Hpw|exact Ho].
  unfold deserialize in *. destruct p; cbn in *. by injection Hf as -> -> -> -> -> -> -> -> ->.
Qed.

(** What is on disk for the peer of the client is the configuration it holds. *)
Definition saved (c : Client) : Prop :=
  load_of cenv (h_id (lch c)) (disk c) = (h_config (lch c), disk c).

Lemma save_config_saved p c : wf_peer p → saved (save_config cenv p c).
Proof. intros Hp. unfold saved, save_config, load_of. cbn. by rewrite load_stored. Qed.

Lemma wf_peer_route h p : wf_peer p → wf_peer (with_route h p).
Proof.
  intros Hw. unfold with_route.
  assert (∀ k v q, k ∉ sealed_options → wf_peer q → wf_peer (q <| p_options := <[k := v]> (p_options q) |>)) as Ho
    by (intros; by apply wf_peer_option).
  assert (wf_peer match h_other_server h with
                  | Some (_, b, k) => if negb (String.eqb b PUBLIC_SERVER)
                      then p <| p_options := <["other-server-key" := k]> (p_options p) |> else p
                  | None => p
                  end) as H1.
  { destruct (h_other_server h) as [[[a b] k]|]; [|done]. destruct (negb (String.eqb b _)); [|done].
    apply Ho; [by apply (bool_decide_unpack _)|done]. }
  destruct (h_force_relay h); [|exact H1]. apply Ho; [by apply (bool_decide_unpack _)|exact H1].
Qed.

Lemma told_handler_keeps pi h :
  h_id (told_handler pi h) = h_id h ∧ (∀ p, remembered_password (told_handler pi h) p = remembered_password h p).
Proof. unfold told_handler. by destruct (negb (is_empty (pim_version pi))). Qed.

Lemma with_route_password h p : p_password (with_route h p) = p_password p.
Proof.
  unfold with_route. destruct (h_other_server h) as [[[a b] k]|]; [destruct (negb (String.eqb b _))|];
    by destruct (h_force_relay h).
Qed.

Lemma handle_peer_info_saved pi c :
  let p := (load_config cenv c).1 in
  let c' := (handle_peer_info cenv pi c).2 in
  wf_peer p → storable_vec (remembered_password (lch c) (p_password p)) →
  saved c' ∧ h_id (lch c') = h_id (lch c)
  ∧ p_password (h_config (lch c')) = remembered_password (lch c) (p_password p).
Proof.
  destruct (told_handler_keeps pi (lch c)) as [Hid Hrem]. unfold handle_peer_info.
  set (h := told_handler pi (lch c)) in *. clearbody h.
  unfold load_config. cbn [lch disk upd eta_Client]. rewrite Hid.
  destruct (load_of _ _ _) as [p f]. cbn [fst snd]. intros Hw Hs.
  split; [|split].
  - apply save_config_saved. apply (wf_peer_like (with_route h (with_info pi h p))); [reflexivity|].
    apply wf_peer_route. unfold with_info. apply wf_peer_password; [by rewrite Hrem|].
    by apply (wf_peer_like p).
  - exact Hid.
  - change (p_password (with_route h (with_info pi h p)) = remembered_password (lch c) (p_password p)).
    rewrite with_route_password. cbn. apply Hrem.
Qed.

Definition pid (id : string) : string := (parse_peer_id id).1.1.

Lemma initialize_fresh id kind relay luid c :
  let c' := initialize cenv id kind None relay luid None None c in
  h_config (lch c') = (load_of cenv (pid id) (disk c)).1
  ∧ h_password (lch c') = h_password (lch c) ∧ h_switch_uuid (lch c') = None
  ∧ h_shared_password (lch c') = None ∧ h_conn_type (lch c') = kind.
Proof.
  unfold initialize, pid. destruct (parse_peer_id id) as [[i other] rel]. cbn [fst].
  assert (h_password (named_handler i kind other (lch c)) = h_password (lch c)) as Hp by (by destruct other).
  assert (h_id (named_handler i kind other (lch c)) = i) as Hi by (by destruct other).
  assert (h_conn_type (named_handler i kind other (lch c)) = kind) as Hk by (by destruct other).
  set (h0 := named_handler _ _ _ _) in *. clearbody h0.
  unfold load_config. cbn [lch disk upd eta_Client]. rewrite Hi. destruct (load_of _ _ _) as [p f]. cbn [fst].
  set (h1 := _ <| h_force_relay := _ |>).
  assert (h_config h1 = p ∧ h_password h1 = h_password (lch c) ∧ h_conn_type h1 = kind) as (E1 & E2 & E3)
    by (split_and!; [reflexivity|exact Hp|exact Hk]).
  clearbody h1.
  assert (h_config (with_server_key h1) = p ∧ h_password (with_server_key h1) = h_password (lch c)
          ∧ h_conn_type (with_server_key h1) = kind) as (F1 & F2 & F3).
  { unfold with_server_key. destruct (h_other_server h1) as [[[a b] k]|]; [|done]. by destruct (_ && _). }
  set (h2 := with_server_key h1) in *. clearbody h2. split_and!; [exact F1|exact F2|reflexivity|reflexivity|exact F3].
Qed.

Lemma handle_hash_remembered hash c :
  let p := p_password (h_config (lch c)) in
  p ≠ "" → h_password (lch c) = "" → h_switch_uuid (lch c) = None → h_shared_password (lch c) = None →
  h_conn_type (lch c) ≠ TERMINAL →
  ∃ lr c', handle_hash cenv "" hash c = ([SendLogin lr], c') ∧ lr_password lr = sha256 (p ++ hash.2).
Proof.
  intros p Hp Hpw Hu Hs Hk. unfold handle_hash. set (h := lch c <| h_hash := hash |>).
  change (h_switch_uuid h) with (h_switch_uuid (lch c)). rewrite Hu. cbn [mbind option_bind].
  assert (∃ h', choose_password cenv "" (h <| h_switch_uuid := None |>) hash.1 = (p, h')
                ∧ h_conn_type h' = h_conn_type (lch c)) as (h' & Ec & Ek).
  { unfold choose_password. set (h0 := h <| h_switch_uuid := None |>).
    change (h_password h0) with (h_password (lch c)). rewrite Hpw. cbn [is_empty negb andb].
    change (h_shared_password h0) with (h_shared_password (lch c)). rewrite Hs.
    set (h00 := h0 <| h_shared_password := None |>). change (p_password (h_config h00)) with p.
    clearbody p. destruct p as [|a q]; [done|]. eexists. split; [reflexivity|]. reflexivity. }
  rewrite Ec. set (h1 := h' <| h_password := p |>). change (h_conn_type h1) with (h_conn_type h'). rewrite Ek.
  rewrite bool_decide_eq_false_2 by done. cbn [andb]. rewrite (is_empty_false p) by done.
  destruct (create_login_msg_spec (h_get_option "os-username" h1) (h_get_option "os-password" h1)
              (sha256 (p ++ hash.2)) (c <| lch := h1 |>)) as (lr & c' & E & Hlr & _).
  rewrite E. eauto.
Qed.

(** C13: a remembered password opens the next session.  After a login with a password
    that the user entered and asked to remember (whose hash does not itself look
    encrypted), once the host has told about itself and the configuration it is written
    into is well formed, a new session with the same peer, of any kind but a terminal,
    with no password entered, preset or shared and no switch of sides asked for, answers
    the host's new challenge at once, without asking for a password, as long as the host
    keeps the salt.  That answer is granted if the host takes the password, waits for a
    login with no second factor, does not insist on a click and does not throttle the
    address, and the request is one it permits: the kind of connection is permitted, its
    target can be reached, the desktop is ready, and the request names the
    host by an address or by an id of at most six characters. *)
Theorem remembered_password_logs_in ou op pw c pi id kind relay luid fresh w :
  let h1 := sha256 (pw ++ (h_hash (lch c)).1) in
  let c1 := (handle_login_from_ui cenv ou op pw true c).2 in
  let c2 := (handle_peer_info cenv pi c1).2 in
  let c3 := initialize cenv id kind None relay luid None None {| lch := fresh; disk := disk c2 |} in
  pw ≠ "" → wf_peer (load_config cenv c1).1 → is_encrypted h1 = false →
  pid id = h_id (lch c) → h_password fresh = "" → kind ≠ TERMINAL →
  c_salt (w_conn w) = (h_hash (lch c)).1 →
  ∃ lr c4, handle_hash cenv "" (c_salt (w_conn w), c_challenge (w_conn w)) c3 = ([SendLogin lr], c4)
    ∧ (host_takes w pw → waiting w → admissible w lr → grants lr w).
Proof.
  intros h1 c1 c2 c3 Hne Hw He Hid Hfresh Hk Hs.
  assert (h_password (lch c1) = h1 ∧ h_remember (lch c1) = true ∧ h_password_source (lch c1) = Undefined
          ∧ h_id (lch c1) = h_id (lch c)) as (Hp1 & Hr1 & Hs1 & Hi1).
  { unfold c1, handle_login_from_ui. rewrite (is_empty_false pw) by done.
    set (cc := c <| lch := _ |>). set (pp := sha256 (_ ++ _)).
    destruct (create_login_msg_lch ou op pp cc) as [fps E].
    destruct (create_login_msg cenv ou op pp cc) as [lr c']. cbn [snd] in *. by rewrite E. }
  assert (h1 ≠ "") as Hh by (intros E; pose proof (sha256_len (pw ++ (h_hash (lch c)).1)) as H; fold h1 in H; by rewrite E in H).
  assert (∀ p0, remembered_password (lch c1) p0 = h1) as Hrem.
  { intros p0. unfold remembered_password. rewrite Hr1, Hp1, Hs1, is_empty_false by done. cbn [negb andb is_shared_ab].
    unfold is_shared_ab. rewrite is_empty_false by done. cbn [negb]. rewrite andb_true_r.
    destruct (String.eqb_spec h1 p0); done. }
  assert (storable_vec h1) as Hst.
  { right. split; [done|]. unfold h1. rewrite sha256_len. apply Nat.leb_le. reflexivity. }
  destruct (handle_peer_info_saved pi c1 Hw) as (Hsv & Hi2 & Hp2); [by rewrite Hrem|]. fold c2 in Hsv, Hi2, Hp2.
  destruct (initialize_fresh id kind relay luid {| lch := fresh; disk := disk c2 |}) as (Hc & Hp3 & Hu & Hsh & Hkd).
  fold c3 in Hc, Hp3, Hu, Hsh, Hkd. cbn [lch disk] in Hc, Hp3.
  unfold saved in Hsv. rewrite Hi2, Hi1, <- Hid in Hsv. rewrite Hsv in Hc. cbn [fst] in Hc.
  assert (p_password (h_config (lch c3)) = h1) as Hp4 by (by rewrite Hc, Hp2, Hrem).
  destruct (handle_hash_remembered (c_salt (w_conn w), c_challenge (w_conn w)) c3) as (lr & c4 & E & Hlr);
    try congruence.
  exists lr, c4. split; [exact E|]. intros Ht Hwt Had. apply (answer_grants w lr pw); try done.
  unfold proves, salted. rewrite Hlr, Hp4, Hs. done.
Qed.

(** *** The options of a session *)

#[local] Abbreviation Connection := (@Connection T).

(** What the host does is what the client keeps for the peer; watching only
    stands above the choices of the remote cursor, the lock and the clipboard. *)
Record follows (p : PeerConfig) (c : Connection) : Prop := {
  fo_keyboard : c_disable_keyboard c = p_view_only p;
  fo_cursor : c_show_remote_cursor c = p_view_only p || p_show_remote_cursor p;
  fo_my_cursor : c_show_my_cursor c = p_show_my_cursor p;
  fo_follow : c_follow_remote_cursor c = p_follow_remote_cursor p;
  fo_window : c_follow_remote_window c = p_follow_remote_window p;
  fo_lock : c_lock_after_session_end c = negb (p_view_only p) && p_lock_after_session_end p;
  fo_audio : c_disable_audio c = p_disable_audio p;
  fo_clipboard : c_disable_clipboard c = p_view_only p || p_disable_clipboard p
}.

(** The flags of a connection before its login. *)
Definition no_flags (c : Connection) : Prop :=
  c_disable_keyboard c = false ∧ c_show_remote_cursor c = false ∧ c_show_my_cursor c = false
  ∧ c_follow_remote_cursor c = false ∧ c_follow_remote_window c = false
  ∧ c_lock_after_session_end c = false ∧ c_disable_audio c = false ∧ c_disable_clipboard c = false.

Definition if_yes (b : bool) : Datatypes.option BoolOption := if b then Some Yes else Some NotSet.

(** The flags of the login message. *)
Record login_flags (p : PeerConfig) (o : OptionMessage) : Prop := {
  lf_keyboard : o_disable_keyboard o = if_yes (p_view_only p);
  lf_cursor : o_show_remote_cursor o = if_yes (p_view_only p || p_show_remote_cursor p);
  lf_my_cursor : o_show_my_cursor o = if_yes (p_view_only p && p_show_my_cursor p);
  lf_follow : o_follow_remote_cursor o = if_yes (p_follow_remote_cursor p);
  lf_window : o_follow_remote_window o = if_yes (p_follow_remote_window p);
  lf_lock : o_lock_after_session_end o = if_yes (negb (p_view_only p) && p_lock_after_session_end p);
  lf_audio : o_disable_audio o = if_yes (p_disable_audio p);
  lf_clipboard : o_disable_clipboard o = if_yes (p_view_only p || p_disable_clipboard p)
}.

Lemma toggle_other {A} (pr : OptionMessage → A) b f o : (∀ o, pr (f o) = pr o) → pr (with_toggle b f o) = pr o.
Proof. intros H. unfold with_toggle. by destruct b. Qed.
Lemma toggle_same (pr : OptionMessage → Datatypes.option BoolOption) b f o :
  (∀ o, pr (f o) = Some Yes) → pr o = Some NotSet → pr (with_toggle b f o) = if_yes b.
Proof. intros H H'. unfold with_toggle. by destruct b. Qed.

Lemma get_option_message_flags b c :
  h_conn_type (lch c) = DEFAULT_CONN ∨ h_conn_type (lch c) = VIEW_CAMERA →
  ∃ o c', get_option_message cenv b c = (Some o, c') ∧ login_flags (h_config (lch c)) o.
Proof.
  intros Hk. unfold get_option_message.
  set (start := match get_image_quality_enum _ _ with Some _ => _ | None => _ end).
  assert (∃ o c', start = (o, c') ∧ (∀ f, f ∈ [o_disable_keyboard; o_show_remote_cursor; o_show_my_cursor;
      o_follow_remote_cursor; o_follow_remote_window; o_lock_after_session_end; o_disable_audio;
      o_disable_clipboard] → f o = Some NotSet)) as (o & c' & -> & Ho).
  { unfold start. destruct (get_image_quality_enum _ _) as [iq|].
    { eexists _, _. split; [reflexivity|]. by apply Forall_forall; repeat constructor. }
    destruct (String.eqb _ _).
    - destruct (load_config cenv c) as [p c'].
      destruct (p_options _ !! "custom-fps"); (eexists _, _; split; [reflexivity|]);
        by apply Forall_forall; repeat constructor.
    - eexists _, _. split; [reflexivity|]. by apply Forall_forall; repeat constructor. }
  rewrite <- Forall_forall in Ho.
  repeat match goal with H : Forall _ (_ :: _) |- _ => apply Forall_cons in H as [? H] end.
  change (get_toggle_option "view-only" (lch c)) with (p_view_only (h_config (lch c))).
  change (get_toggle_option "show-remote-cursor" (lch c)) with (p_show_remote_cursor (h_config (lch c))).
  change (get_toggle_option "show-my-cursor" (lch c)) with (p_show_my_cursor (h_config (lch c))).
  change (get_toggle_option "follow-remote-cursor" (lch c)) with (p_follow_remote_cursor (h_config (lch c))).
  change (get_toggle_option "follow-remote-window" (lch c)) with (p_follow_remote_window (h_config (lch c))).
  change (get_toggle_option "lock-after-session-end" (lch c)) with (p_lock_after_session_end (h_config (lch c))).
  change (get_toggle_option "disable-audio" (lch c)) with (p_disable_audio (h_config (lch c))).
  change (get_toggle_option "disable-clipboard" (lch c)) with (p_disable_clipboard (h_config (lch c))).
  set (p := h_config (lch c)). set (copy := get_toggle_option _ (lch c)). set (dec := ce_supported_decoding cenv _).
  clearbody copy dec.
  assert (∀ (pr : OptionMessage → Datatypes.option BoolOption) o,
            (∀ o d, pr (o <| o_supported_decoding := d |>) = pr o) →
            pr (o <| o_supported_decoding := Some dec |>) = pr o) as Hdec by auto.
  destruct Hk as [-> | ->]; (eexists _, _; split; [reflexivity|]).
  all: split; rewrite Hdec by done; repeat rewrite toggle_other by done; (apply toggle_same; [done|]);
       repeat rewrite toggle_other by done; assumption.
Qed.

(** The own cursor is shown only while watching. *)
Definition cursor_watching (p : PeerConfig) : Prop := p_show_my_cursor p = true → p_view_only p = true.

(** The login sets the flags. *)
Lemma login_follows p o c : login_flags p o → cursor_watching p → no_flags c → follows p (set_options o c).
Proof.
  intros Hl Hc (H1 & H2 & H3 & H4 & H5 & H6 & H7 & H8). pose proof (set_options_flags o c) as Hs.
  split.
  - rewrite (sf_keyboard _ _ _ Hs), H1, (lf_keyboard _ _ Hl). by destruct (p_view_only p).
  - rewrite (sf_cursor _ _ _ Hs), H2, (lf_cursor _ _ Hl). by destruct (_ || _).
  - rewrite (sf_my_cursor _ _ _ Hs), H3, (lf_my_cursor _ _ Hl). unfold cursor_watching in Hc.
    destruct (p_show_my_cursor p); [by rewrite Hc|by rewrite andb_false_r].
  - rewrite (sf_follow _ _ _ Hs), H4, (lf_follow _ _ Hl). by destruct (p_follow_remote_cursor p).
  - rewrite (sf_window _ _ _ Hs), H5, (lf_window _ _ Hl). by destruct (p_follow_remote_window p).
  - rewrite (sf_lock _ _ _ Hs), H6, (lf_lock _ _ Hl). by destruct (_ && _).
  - rewrite (sf_audio _ _ _ Hs), H7, (lf_audio _ _ Hl). by destruct (p_disable_audio p).
  - rewrite (sf_clipboard _ _ _ Hs), H8, (lf_clipboard _ _ Hl). by destruct (_ || _).
Qed.

(** The switches the interface offers: while the user only watches, not the three
    that watching overrides.  Showing the own cursor is offered at any time; a click
    that shows it while the user does not only watch is two switches, of it and then of
    watching. *)
Definition offered (p : PeerConfig) (name : string) : Prop :=
  name ∉ sealed_options
  ∧ (p_view_only p = true → name ∉ ["show-remote-cursor"; "disable-clipboard"; "lock-after-session-end"]).

Lemma applied_yes_no b old : applied (yes_no b) old = b.
Proof. by destruct b. Qed.

Lemma applied_not_set old : applied (Some NotSet) old = old.
Proof. done. Qed.

Lemma toggle_follows name h p' o c :
  offered (h_config h) name → follows (h_config h) c →
  toggle_field name h (h_config h) = Some (p', o) → follows p' (set_options o c).
Proof.
  intros (_ & Hv) Hf Ht. destruct (set_options_flags o c) as [S1 S2 S3 S4 S5 S6 S7 _ S9].
  destruct Hf as [F1 F2 F3 F4 F5 F6 F7 F8].
  rewrite F6 in S1. rewrite F2 in S2. rewrite F4 in S3. rewrite F5 in S4. rewrite F7 in S5. rewrite F8 in S6.
  rewrite F1 in S7. rewrite F3 in S9. clear F1 F2 F3 F4 F5 F6 F7 F8.
  set (c' := set_options o c) in *. clearbody c'. set (p := h_config h) in *.
  unfold toggle_field in Ht. fold p in Ht. cbv zeta in Ht.
  change (get_toggle_option "disable-clipboard" h) with (p_disable_clipboard p) in Ht.
  change (get_toggle_option "show-remote-cursor" h) with (p_show_remote_cursor p) in Ht.
  clearbody p.
  repeat match type of Ht with
         | (if String.eqb ?x ?y then _ else _) = _ => let E := fresh "E" in destruct (String.eqb_spec x y) as [E|E]
         end; [..|done].
  all: try (injection Ht as <- <-; split; cbn in *; congruence).
  all: destruct (p_view_only p) eqn:Ev;
       [try (by destruct (Hv eq_refl); subst name; apply (bool_decide_unpack _))|].
  all: destruct (p_show_my_cursor p) eqn:Em.
  all: cbn in Ht; rewrite ?Ev, ?Em in Ht; injection Ht as <- <-;
       split; cbn -[negb applied yes_no orb andb] in *.
  all: rewrite ?Ev, ?Em; rewrite ?applied_yes_no, ?applied_not_set in *; cbn [orb andb negb] in *; congruence.
Qed.

Lemma toggle_wf name h p p' o : toggle_field name h p = Some (p', o) → wf_peer p → wf_peer p'.
Proof.
  intros Ht. apply wf_peer_like. unfold toggle_field in Ht. cbv zeta in Ht.
  repeat match type of Ht with
         | (if String.eqb ?x ?y then _ else _) = _ =>
             let E := fresh "E" in destruct (String.eqb_spec x y) as [E|E]; [|clear E]
         end; [..|done].
  all: try (injection Ht as <- _; reflexivity).
  destruct (negb (p_view_only p)); [injection Ht as <- _; reflexivity|].
  destruct (p_show_my_cursor _); injection Ht as <- _; reflexivity.
Qed.

(** The two ends: the user switches what the interface offers and the client
    sends the message; the user of the host switches permissions. *)
Definition toggle_and_send (name : string) (c : Client) (w : World) : Client * World :=
  let '(o, c') := toggle_option cenv name c in
  (c', match o with Some o => (on_message env (MsgOption o) w).2 | None => w end).

Inductive pair_step : Client * World → Client * World → Prop :=
| user_toggles name c w : offered (h_config (lch c)) name → pair_step (c, w) (toggle_and_send name c w)
| host_switches nm b c w : pair_step (c, w) (c, (switch_permission env nm b w).2).

Record together (cw : Client * World) : Prop := {
  to_saved : saved cw.1;
  to_wf : wf_peer (h_config (lch cw.1));
  to_follows : follows (h_config (lch cw.1)) (w_conn cw.2);
  to_authorized : c_authorized (w_conn cw.2) = true;
  to_tunnel : c_port_forward_socket (w_conn cw.2) = false
}.

Lemma switch_other {A} (pr : Connection → A) nm b w :
  (∀ c v, pr (c <| c_keyboard := v |>) = pr c) → (∀ c v, pr (c <| c_clipboard := v |>) = pr c) →
  (∀ c v, pr (c <| c_audio := v |>) = pr c) → (∀ c v, pr (c <| c_file := v |>) = pr c) →
  (∀ c v, pr (c <| c_restart := v |>) = pr c) → (∀ c v, pr (c <| c_recording := v |>) = pr c) →
  (∀ c v, pr (c <| c_block_input := v |>) = pr c) →
  pr (w_conn (switch_permission env nm b w).2) = pr (w_conn w).
Proof.
  intros Hk Hc Ha Hf Hr Hrec Hb. unfold switch_permission.
  repeat (match goal with |- context [String.eqb nm ?n] => destruct (String.eqb nm n) end;
          [rewrite !bind_run;
           first [apply Hk | apply Hc | apply Hf | apply Hr | apply Hrec | apply Hb | idtac]|]); [|done].
  cbn [self gets fst snd]. unfold when. destruct (c_authorized _); [rewrite turns_audio|]; apply Ha.
Qed.

Lemma toggle_block_input name h p p' o :
  toggle_field name h p = Some (p', o) → contains_str "block-input" name = true → p' = p.
Proof.
  intros Ht Hb. unfold toggle_field in Ht. cbv zeta in Ht.
  repeat match type of Ht with
         | (if String.eqb ?x ?y then _ else _) = _ =>
             let E := fresh "E" in destruct (String.eqb_spec x y) as [E|E];
             [first [by injection Ht as <- _ | by subst name; vm_compute in Hb]|clear E]
         end.
  done.
Qed.

(** The text options of a configuration, outside the secrets. *)
Lemma together_text name c w : together (c, w) → offered (h_config (lch c)) name →
  together (toggle_text_option cenv name c, w).
Proof.
  intros [Hs Hw Hf Ha Ht] [Hn _]. cbn [fst snd] in *. unfold toggle_text_option.
  assert (∀ o, (∀ k, k ∈ sealed_options → o !! k = p_options (h_config (lch c)) !! k) →
    let p := h_config (lch c) <| p_options := o |> in
    together (c <| lch := lch c <| h_config := p |> |>
                <| disk := peer_store (ce_machine cenv) (h_id (lch c)) p (disk c) |>, w)) as H.
  { intros o Ho p. assert (wf_peer p) as Hw' by (by apply wf_peer_options).
    split; cbn [fst snd]; [|exact Hw'|by destruct Hf|exact Ha|exact Ht].
    unfold saved, load_of. cbn. by rewrite load_stored. }
  assert (∀ k, k ∈ sealed_options → name ≠ k) as Hne by (intros k Hk ->; done).
  destruct (p_options _ !! name) as [v|]; [destruct (negb (is_empty v))|]; apply H; intros k Hk.
  - by apply lookup_delete_ne, Hne.
  - by apply lookup_insert_ne, Hne.
  - by apply lookup_insert_ne, Hne.
Qed.

Lemma toggle_together name c w : together (c, w) → offered (h_config (lch c)) name →
  together (toggle_and_send name c w).
Proof.
  intros Htg Ho. pose proof Htg as [Hs Hw Hf Ha Ht]. cbn [fst snd] in *.
  unfold toggle_and_send, toggle_option, load_config.
  rewrite Hs. replace (c <| disk := disk c |>) with c by (by destruct c).
  destruct (toggle_field name (lch c) (h_config (lch c))) as [[p' o]|] eqn:E; [|by apply together_text].
  pose proof (toggle_follows name (lch c) p' o (w_conn w) Ho Hf E) as Hf'.
  pose proof (toggle_wf _ _ _ _ _ E Hw) as Hw'.
  assert (w_conn (on_message env (MsgOption o) w).2 = set_options o (w_conn w)) as Hm.
  { cbn [on_message]. rewrite bind_run. cbn [self gets fst snd]. rewrite Ha, Ht, bind_run. apply update_options_conn. }
  destruct (contains_str "block-input" name) eqn:Eb.
  - pose proof (toggle_block_input _ _ _ _ _ E Eb) as ->.
    split; cbn [fst snd]; rewrite ?Hm; try done; by rewrite set_options_other.
  - split; cbn [fst snd]; rewrite ?Hm; try done. by apply save_config_saved.
Qed.

Lemma switch_together nm b c w : together (c, w) → together (c, (switch_permission env nm b w).2).
Proof.
  intros [Hs Hw Hf Ha Ht]. split; cbn [fst snd] in *; try done.
  - destruct Hf. split; by rewrite (switch_other _ nm b w).
  - by rewrite switch_other.
  - by rewrite switch_other.
Qed.

Lemma get_option_message_saved b c : saved c → disk (get_option_message cenv b c).2 = disk c.
Proof.
  unfold saved, get_option_message. intros Hs.
  destruct (h_conn_type (lch c)); try done.
  all: destruct (get_image_quality_enum _ _) as [q|]; [done|].
  all: destruct (String.eqb _ "custom"); [|done].
  all: unfold load_config; rewrite Hs; by destruct (p_options _ !! "custom-fps").
Qed.

Lemma together_start b c w :
  saved c → wf_peer (h_config (lch c)) → cursor_watching (h_config (lch c)) →
  h_conn_type (lch c) = DEFAULT_CONN → no_flags (w_conn w) →
  c_authorized (w_conn w) = true → c_port_forward_socket (w_conn w) = false →
  ∃ o c1, get_option_message cenv b c = (Some o, c1) ∧ together (c1, (update_options env o w).2).
Proof.
  intros Hs Hw Hc Hk Hn Ha Ht.
  destruct (get_option_message_flags b c (or_introl Hk)) as (o & c1 & E & Hl). exists o, c1. split; [exact E|].
  destruct (get_option_message_lch b c) as [fps Hlch]. pose proof (get_option_message_saved b c Hs) as Hd.
  rewrite E in Hlch, Hd. cbn [snd] in Hlch, Hd.
  split; cbn [fst snd]; rewrite ?Hlch, ?update_options_conn; try done.
  - unfold saved. rewrite Hlch, Hd. exact Hs.
  - by apply login_follows.
Qed.

(** C14: the session does what its user chose.  Let a remote-control session start with
    a configuration that is the one on disk, well formed, and shows the own cursor only
    while watching, on an authorised connection, not a tunnel, none of whose flags is
    set.  Then the options of the login message set the host's flags (keyboard and
    clipboard disabled, cursors shown and followed, the lock at the end, the audio off)
    to what the client keeps for the peer; and whatever the user then switches of what
    the interface offers, the own cursor at any time and not what watching overrides
    while only watching, each switch told before the next, and whatever permissions the
    user of the host switches in between, the flags stay those of the client's
    configuration, where watching only stands above the choices of the remote cursor,
    the lock and the clipboard, and that configuration is the one on disk. *)
Theorem session_options_follow ou op pw c w :
  saved c → wf_peer (h_config (lch c)) → cursor_watching (h_config (lch c)) →
  h_conn_type (lch c) = DEFAULT_CONN → no_flags (w_conn w) →
  c_authorized (w_conn w) = true → c_port_forward_socket (w_conn w) = false →
  ∃ lr o c1, create_login_msg cenv ou op pw c = (lr, c1) ∧ lr_option lr = Some o
    ∧ ∀ c2 w2, rtc pair_step (c1, (update_options env o w).2) (c2, w2) →
        saved c2 ∧ follows (h_config (lch c2)) (w_conn w2).
Proof.
  intros Hs Hw Hc Hk Hn Ha Ht.
  destruct (together_start true c w Hs Hw Hc Hk Hn Ha Ht) as (o & c1 & E & Htg).
  unfold create_login_msg. destruct (match h_other_server (lch c) with Some _ => _ | None => _ end) as [my pure].
  rewrite E. eexists _, o, c1. split; [reflexivity|]. split; [reflexivity|].
  intros c2 w2 Hsteps. assert (∀ x y, rtc pair_step x y → together x → together y) as Hrun.
  { intros x y. induction 1 as [|x y z Hstep _ IH]; [done|]. intros Hx. apply IH.
    destruct Hstep; [by apply toggle_together|by apply switch_together]. }
  destruct (Hrun _ _ Hsteps Htg). done.
Qed.

End Session.

(** ** A client of the concrete host *)

Module Pair.
Import Secret.Toy PasswordSafety.ToyJson ToyF64 Demo.

Definition cenv : ClientEnv := {|
  ce_globals := empty_globals; ce_machine := Toy.machine; ce_defaults := store (∅ : smap);
  ce_using_public_server := false; ce_is_proxy := false; ce_supported_decoding := λ _, "vp9";
  ce_my_id := "111222"; ce_rendezvous_server := "rs"; ce_avatar := ""; ce_display_name := "peer";
  ce_my_platform := "Linux"; ce_version := "1.4.0"; ce_hwid := "hw"; ce_random := 77;
  ce_terminal_admin_env := false; ce_read_map := λ _, None; ce_print_map := λ _, "";
  ce_access_token := ""; ce_parse_uuid := λ _, None; ce_ab := None
|}.

Definition no_files : PeerFiles := {| files := ∅; NEW_STORED_PEER_CONFIG := ∅ |}.
Definition fresh : LoginConfigHandler :=
  {| h_id := ""; h_conn_type := DEFAULT_CONN; h_is_terminal_admin := false; h_hash := ("", "");
     h_password := ""; h_remember := false;
     h_config := PeerConfig_default empty_globals (store (∅ : smap));
     h_port_forward := ("", 0%Z); h_version := 0; h_features := None; h_session_id := 0;
     h_restarting_remote_device := false; h_force_relay := false; h_direct := None; h_received := false;
     h_switch_uuid := None; h_other_server := None; h_custom_fps := None; h_adapter_luid := None;
     h_selected_windows_session_id := None; h_password_source := Undefined; h_shared_password := None;
     h_record_state := false; h_record_permission := true |}.

(** A session with the host, waiting for a password. *)
Definition client (challenge : string) : Client :=
  let c := initialize cenv "987654" DEFAULT_CONN None false None None None {| lch := fresh; disk := no_files |} in
  (handle_hash cenv "" ("salty1", challenge) c).2.

Definition told : PeerInfoMsg :=
  {| pim_username := "user"; pim_hostname := "host"; pim_platform := "Linux"; pim_version := "1.4.0";
     pim_privacy_mode := None |}.
End Pair.
Import Secret.Toy PasswordSafety.ToyJson ToyF64 Demo Pair.

Lemma takes_secret : host_takes Demo.env (Demo.world None) "secret".
Proof. split; [discriminate|]. left. split; vm_compute; reflexivity. Qed.

Lemma demo_waiting : waiting Demo.env (Demo.world None).
Proof. split; vm_compute; reflexivity. Qed.

Lemma demo_admissible lr :
  lr_union lr = None → lr_username lr = "987654" → admissible Demo.env (Demo.world None) lr.
Proof.
  intros Hu Hn. split.
  - unfold kind_permitted, kind_option. by rewrite Hu.
  - unfold terminal_ok. by rewrite Hu.
  - unfold reachable. by rewrite Hu.
  - left. reflexivity.
  - right. right. rewrite Hn. split; [reflexivity|]. split; [discriminate|]. apply Nat.leb_le. reflexivity.
Qed.

(** Configurations whose secrets are empty. *)
Lemma wf_without_secrets p :
  deserialize empty_globals (store (∅ : smap)) p = p → p_password p = "" →
  Forall (λ k, p_options p !! k = None) sealed_options → wf_peer empty_globals (store (∅ : smap)) p.
Proof.
  intros Hd Hp Ho. split; [done|by left|]. intros k v Hk Hv.
  rewrite Forall_forall in Ho. by rewrite (Ho k Hk) in Hv.
Qed.

Lemma password_login_succeeds_witness :
  ∃ lr c', handle_login_from_ui Pair.cenv "" "" "secret" true (client "ch4l") = ([SendLogin lr], c')
    ∧ grants Demo.env lr (Demo.world None).
Proof.
  destruct (password_login_succeeds Demo.env Pair.cenv "" "" "secret" true (client "ch4l") (Demo.world None)
              ltac:(vm_compute; reflexivity) takes_secret demo_waiting) as (lr & c' & E & H).
  exists lr, c'. split; [exact E|]. apply H. vm_compute in E. injection E as <- _.
  apply demo_admissible; reflexivity.
Defined.

Lemma remembered_password_logs_in_witness :
  let c1 := (handle_login_from_ui Pair.cenv "" "" "secret" true (client "first")).2 in
  let c2 := (handle_peer_info Pair.cenv told c1).2 in
  let c3 := initialize Pair.cenv "987654" DEFAULT_CONN None false None None None {| lch := fresh; disk := disk c2 |} in
  ∃ lr c4, handle_hash Pair.cenv "" ("salty1", "ch4l") c3 = ([SendLogin lr], c4)
           ∧ grants Demo.env lr (Demo.world None).
Proof.
  intros c1 c2 c3.
  assert (wf_peer empty_globals (store (∅ : smap)) (load_config Pair.cenv c1).1) as Hw
    by (apply wf_without_secrets; vm_compute; repeat constructor).
  destruct (remembered_password_logs_in Demo.env Pair.cenv "" "" "secret" (client "first") told "987654" DEFAULT_CONN
              false None fresh (Demo.world None) ltac:(discriminate) Hw ltac:(vm_compute; reflexivity)
              ltac:(vm_compute; reflexivity) ltac:(reflexivity) ltac:(discriminate) ltac:(vm_compute; reflexivity))
    as (lr & c4 & E & H).
  exists lr, c4. split; [exact E|]. apply H; [exact takes_secret|exact demo_waiting|].
  vm_compute in E. injection E as <- _. apply demo_admissible; reflexivity.
Defined.

(** The client as it is saved when the host has told about itself. *)
Definition saved_client : Client := (handle_peer_info Pair.cenv told (client "ch4l")).2.

(** The user watches only, then shows the own cursor, while the clipboard is
    switched off at the host. *)
Lemma session_options_follow_witness :
  let w := (send_logon_response_and_keep_alive Demo.env (Demo.world None)).2 in
  ∃ lr o c1, create_login_msg Pair.cenv "" "" "" saved_client = (lr, c1) ∧ lr_option lr = Some o
    ∧ ∀ c2 w2, rtc (pair_step Demo.env Pair.cenv) (c1, (update_options Demo.env o w).2) (c2, w2) →
        saved Pair.cenv c2 ∧ follows (h_config (lch c2)) (w_conn w2).
Proof.
  intros w. apply session_options_follow.
  - unfold saved. vm_compute. reflexivity.
  - apply wf_without_secrets; vm_compute; repeat constructor.
  - intros H; vm_compute in H; discriminate.
  - vm_compute; reflexivity.
  - vm_compute. done.
  - vm_compute; reflexivity.
  - vm_compute; reflexivity.
Defined.

(** The first switch of such a run. *)
Lemma watching_only :
  let w := (send_logon_response_and_keep_alive Demo.env (Demo.world None)).2 in
  let '(c, w) := toggle_and_send Demo.env Pair.cenv "view-only" saved_client w in
  c_disable_keyboard (w_conn w) = true ∧ p_view_only (h_config (lch c)) = true.
Proof. vm_compute. done. Qed.
