(* ===== verification/Dispatch.v ===== *)
(** * What an authorised peer may ask for

    [src/server/connection.rs], the second half of [on_message] and what it calls,
    on Linux: input events, clipboard, file requests, display switching and
    capture, voice calls, screenshots, terminal actions; the branches of the loop
    of [start] for the file timer, for the other messages of the connection
    manager and for the log of removed files.  [Desk] is a connection ([Conn])
    with the fields these use; what goes to the peer about files is kept with the
    reads of [Cm].  The cursor-following display, elevation, virtual displays and
    the file clipboard are other platforms' or need floating point, and are left
    out. *)

From S2P Require Import Prelude Strs Version Vfs Fs Transfer VideoQos Secret Options Cm Password Permissions Throttle Sessions Services Conn Login.
From Stdlib Require Import Ascii String.

Local Open Scope string_scope.
#[local] Abbreviation length := Datatypes.length.
#[local] Arguments String.append _ _ : simpl nomatch.

(** ** Messages

    [MiOption] is [Login.MsgOption]. *)

Record MouseEvent := { me_mask : Z; me_x : Z; me_y : Z; me_modifiers : list Z }.

Inductive KeyUnion := ControlKey (v : Z) | Chr (c : Z) | Unicode (c : Z) | Seq (s : string) | Win2WinHotkey (c : Z).
Inductive KeyboardMode := Legacy | Map | Translate | Auto.
Record KeyEvent := {
  ke_down : bool; ke_press : bool; ke_union : option KeyUnion; ke_modifiers : list Z; ke_mode : option KeyboardMode
}.

Record FileRemoveDir := { rd_id : Z; rd_path : string; rd_recursive : bool }.
Record FileRemoveFile := { rf_id : Z; rf_path : string; rf_file_num : Z }.

Inductive FileAction :=
| FaReadEmptyDirs (path : string) (include_hidden : bool)
| FaReadDir (path : string) (include_hidden : bool)
| FaAllFiles (id : Z) (path : string) (include_hidden : bool)
| FaSend (id : Z) (path : string) (file_num : Z) (include_hidden : bool) (file_type : JobType)
| FaReceive (id : Z) (path : string) (files : list FileEntry) (file_num total_size : Z)
| FaRemoveDir (d : FileRemoveDir)
| FaRemoveFile (f : FileRemoveFile)
| FaCreate (id : Z) (path : string)
| FaCancel (id : Z)
| FaSendConfirm (r : FileTransferSendConfirmRequest)
| FaRename (id : Z) (path new_name : string).

Inductive FileResponse :=
| FrBlock (b : FileTransferBlock)
| FrDone (id file_num : Z)
| FrDigest (d : FileTransferDigest)
| FrError (id file_num : Z) (error : string)
| FrOther.

Inductive Misc :=
| MiSwitchDisplay (display width height : Z)
| MiCaptureDisplays (add sub set : list Z)
| MiTogglePrivacyMode (on : bool)
| MiChatMessage (text : string)
| MiRefreshVideo (r : bool)
| MiRefreshVideoDisplay (display : Z)
| MiVideoReceived
| MiRestartRemoteDevice
| MiShutdownRemoteDevice
| MiAudioFormat
| MiSwitchSidesRequest (uuid : string)
| MiChangeResolution (width height : Z)
| MiChangeDisplayResolution (display width height : Z)
| MiAutoAdjustFps (fps : Z)
| MiClientRecordStatus (status : bool)
| MiMessageQuery (switch_display : Z)
| MiOption (o : OptionMessage).

Inductive Authed :=
| AuMouse (me : MouseEvent)
| AuPointer (event : string)
| AuKey (ke : KeyEvent)
| AuClipboard (contents : list string)            (* one, or the several of MultiClipboards *)
| AuFileAction (a : option FileAction)            (* [None]: no union *)
| AuFileResponse (r : FileResponse)
| AuMisc (m : Misc)
| AuAudioFrame
| AuVoiceCallRequest (is_connect : bool) (req_timestamp : Z)
| AuVoiceCallResponse
| AuScreenshot (display : Z) (sid : string)
| AuTerminal (action : string).

(** What goes to devices, to the connection manager and, besides files, to the
    peer. *)
Inductive Action :=
| InputMouse (me : MouseEvent) (simulate show_cursor : bool)
| InputPointer (event : string)
| InputKey (ke : KeyEvent) (press : bool)
| UpdateClipboard (contents : list string)
| CmFS (fs : FS.t)
| CmRemoveLog (path : string) (id : Z) (dir : bool)
| CmCreateLog (path : string) (id : Z)
| CmRenameLog (path new_name : string)
| CmTransferLog (jobs : list TransferJob)
| CmCancelLog (job : TransferJob)
| FileAudit (receive : bool) (path : string) (num : nat) (files : list (string * Z)) (is_file : bool)
| ToPeerDisplayChanged (display : Z) (source : VideoSource)
| ChangeResolution (name : string) (width height : Z)
| ForceReboot | Reboot | Shutdown
| CmChat (text : string)
| RefreshVideo
| FrameFetched
| StartAudio | PlayAudio
| ConnectBack (peer uuid : string)
| CmVoiceCallIncoming | CmStartVoiceCall | CmCloseVoiceCall
| SetVoiceDevice (on : bool)
| ToPeerVoiceResponse (timestamp : Z) (accepted : bool)
| ToPeerVoiceRequest (is_connect : bool)
| ToPeerSwitchBack
| TakeScreenshot (display : Z) (sid : string)
| TerminalRequest (action : string)
| ToPeerTerminal (response : string).

(** ** State *)

Record FileRemoveLogControl := mkRemoveLog {
  rl_instant : Z; rl_files : list FileRemoveFile; rl_dirs : list FileRemoveDir
}.

Section Dispatch.
  Context `{T : Totp} `{C : Crypto} `{P : Proto}.
  #[local] Abbreviation World := (@World T).
  #[local] Abbreviation Connection := (@Connection T).

Record Desk := mkDesk {
  d_world : World;
  d_read_jobs : list TransferJob;
  d_fs : vfs;
  d_reads : CmReads;                      (* cm_read_job_ids, and files to the peer *)
  d_printer_data : list (string * list Z);
  d_delayed_read_dir : option (string * bool);
  d_display_idx : Z;
  d_multi_ui_session : bool;
  d_audio_sender : bool;
  d_voice_call_request : option Z;
  d_pressed_modifiers : gset string;
  d_remove_log : FileRemoveLogControl;
  d_click_time : Z;
  d_mouse_move_time : Z;
  d_actions : list Action
}.
#[global] Instance eta_Desk : Settable Desk := λ d,
  mkDesk (d_world d) (d_read_jobs d) (d_fs d) (d_reads d) (d_printer_data d) (d_delayed_read_dir d)
    (d_display_idx d) (d_multi_ui_session d) (d_audio_sender d) (d_voice_call_request d)
    (d_pressed_modifiers d) (d_remove_log d) (d_click_time d) (d_mouse_move_time d) (d_actions d).

(** What the devices and crates answer here. *)
Record DeskEnv := {
  displays : option (list (string * Z * Z));           (* try_get_displays: name, width, height *)
  display_known : VideoSource → Z → bool;              (* make_display_changed_msg is Some *)
  keycode_to_rdev_key : Z → string;                    (* rdev::linux_key_from_code *)
  audits_files : bool;                                 (* server_audit_file is not empty *)
  terminal_action : string → option string;            (* TerminalServiceProxy::handle_action *)
  compress : list Z → list Z;
  short : nat → nat;
  dir_order : list string → list string;
  show_error : error → string
}.

Variable env : Env.
Variable denv : DeskEnv.

(** *** Programs *)

Definition D (A : Type) : Type := Desk → A * Desk.
#[global] Instance D_ret : MRet D := λ A a d, (a, d).
#[global] Instance D_bind : MBind D := λ A B f m d, let '(a, d) := m d in f a d.

Definition lift {A} (m : M A) : D A :=
  λ d, let '(a, w) := m (d_world d) in (a, d <| d_world := w |>).
Definition asks {A} (f : Desk → A) : D A := λ d, (f d, d).
Definition update (f : Desk → Desk) : D unit := λ d, (tt, f d).
Definition act (a : Action) : D unit := update (λ d, d <| d_actions := (d_actions d ++ [a])%list |>).
Definition me : D Connection := asks (λ d, w_conn (d_world d)).
Definition dwhen (b : bool) (m : D unit) : D unit := if b then m else mret tt.
Definition to_the_peer (m : FileMessage) : D unit :=
  update (λ d, d <| d_reads := to_peer_send m (d_reads d) |>).
Definition set_conn (f : Connection → Connection) : D unit := lift (modify_self f).
Definition send_fs (fs : FS.t) : D unit := act (CmFS fs).

(** *** Input *)

Definition MOUSE_TYPE_MASK : Z := 7.
Definition MOUSE_TYPE_UP : Z := 2.
Definition MOUSE_BUTTON_LEFT : Z := 1.
Definition is_left_up (e : MouseEvent) : bool :=
  ((Z.shiftr (me_mask e) 3 =? MOUSE_BUTTON_LEFT) && (Z.land (me_mask e) MOUSE_TYPE_MASK =? MOUSE_TYPE_UP))%Z.

(** [ControlKey::Return], [NumpadEnter]. *)
Definition is_enter (e : KeyEvent) : bool :=
  match ke_union e with Some (ControlKey v) => (v =? 27) || (v =? 72) | _ => false end%Z.

(** [crate::is_modifier]: Alt, Shift, Control, Meta and the right ones. *)
Definition is_modifier_event (e : KeyEvent) : bool :=
  match ke_union e with
  | Some (ControlKey v) => existsb (Z.eqb v) [1; 29; 4; 23; 75; 73; 74; 64]%Z
  | _ => false
  end.

(** [crate::keyboard::is_modifier] on the names of [rdev::Key]. *)
Definition is_modifier_key (key : string) : bool :=
  existsb (String.eqb key)
    ["ShiftLeft"; "ShiftRight"; "ControlLeft"; "ControlRight"; "MetaLeft"; "MetaRight"; "Alt"; "AltGr"].

(** The modifier a key event names by its code. *)
Definition modifier_of (e : KeyEvent) : option string :=
  let key :=
    match ke_mode e with
    | Some Map => Some (keycode_to_rdev_key denv match ke_union e with Some (Chr c) => c | _ => 0 end)%Z
    | Some Translate =>
        match ke_union e with
        | Some (Chr code) => Some (keycode_to_rdev_key denv (Z.land code 65535))
        | _ => None
        end
    | _ => None
    end in
  match key with Some k => if is_modifier_key k then Some k else None | None => None end.

Definition auto_disconnect : D unit := lift (update_auto_disconnect_timer env).

Definition handle_mouse_event (e : MouseEvent) : D unit :=
  c ← me;
  if is_authed_view_camera_conn c then mret tt else
  (if peer_keyboard_enabled c then
     (if is_left_up e then update (λ d, d <| d_click_time := time_ms env |>)
      else update (λ d, d <| d_mouse_move_time := time_ms env |>));;
     act (InputMouse e true (c_show_my_cursor c))
   else dwhen (c_show_my_cursor c) (act (InputMouse e false true)));;
  auto_disconnect.

Definition handle_pointer_event (event : string) : D unit :=
  c ← me;
  if is_authed_view_camera_conn c then mret tt else
  dwhen (peer_keyboard_enabled c)
    (update (λ d, d <| d_mouse_move_time := time_ms env |>);; act (InputPointer event));;
  auto_disconnect.

(** [cfg!(target_os = linux)]. *)
Definition key_is_press (e : KeyEvent) : bool :=
  (ke_press e || ke_down e) && negb (is_modifier_event e || bool_decide (is_Some (modifier_of e))).

Definition track_modifier (e : KeyEvent) : D unit :=
  match modifier_of e with
  | Some key =>
      update (λ d, d <| d_pressed_modifiers :=
        if key_is_press e then {[key]} ∪ d_pressed_modifiers d else d_pressed_modifiers d ∖ {[key]} |>)
  | None => mret tt
  end.

Definition handle_key_event (e : KeyEvent) : D unit :=
  c ← me;
  if is_authed_view_camera_conn c then mret tt else
  dwhen (peer_keyboard_enabled c)
    (dwhen (is_enter e) (update (λ d, d <| d_click_time := time_ms env |>));;
     update (λ d, d <| d_mouse_move_time := time_ms env |>);;
     track_modifier e;;
     act (InputKey e (key_is_press e
                      && match ke_union e with Some (Unicode _) | Some (Seq _) => false | _ => true end)));;
  auto_disconnect.

(** *** Displays *)

Definition video_source (c : Connection) : VideoSource := if c_view_camera c then Camera else Monitor.

Definition OPTION_REFRESH : string := "refresh".
Definition refresh_video_display (display : option Z) : D unit :=
  c ← me;
  act RefreshVideo;;
  lift (server_do (set_video_service_opt ((λ i, (video_source c, i)) <$> display)
                     OPTION_REFRESH SERVICE_OPTION_VALUE_TRUE)).

(** [get] with a [usize]. *)
Definition lookup_usize {A} (l : list A) (i : Z) : option A :=
  if (i <? Z.of_nat (length l))%Z then l !! Z.to_nat i else None.

Definition change_resolution (display : option Z) (width height : Z) : D unit :=
  c ← me; idx ← asks d_display_idx;
  if c_keyboard c then
    match displays denv with
    | Some ds =>
        match lookup_usize ds (default idx display) with
        | Some (name, _, _) => act (ChangeResolution name width height)
        | None => mret tt
        end
    | None => mret tt
    end
  else mret tt.

Definition ensure_video_service (source : VideoSource) (idx : Z) (s : Server) : Server :=
  if contains (get_service_name source idx) s then s else add_service (video_service_new source idx) s.

Definition switch_display_to (idx : Z) : D unit :=
  c ← me; old ← asks d_display_idx;
  let source := video_source c in
  lift (server_do (λ s,
    let s := if (idx =? PRIMARY_DISPLAY_IDX (devices env))%Z then s
             else ensure_video_service source idx s in
    let s := if is_support_multi_ui_session (lr_version (c_lr c)) then s
             else subscribe (get_service_name source old) (c_id c) false s in
    subscribe (get_service_name source idx) (c_id c) true s));;
  update (λ d, d <| d_display_idx := idx |>).

Definition display_changed (idx : Z) (source : VideoSource) : D unit :=
  dwhen (display_known denv source idx) (act (ToPeerDisplayChanged idx source)).

Definition handle_switch_display (display width height : Z) : D unit :=
  let idx := to_usize display in
  now_idx ← asks d_display_idx;
  if (now_idx =? idx)%Z then mret tt else
  srv ← lift (gets w_server);
  match srv with
  | Some _ =>
      switch_display_to idx;;
      dwhen (negb (width =? 0)%Z && negb (height =? 0)%Z) (change_resolution None width height)
  | None => mret tt
  end;;
  c ← me; idx ← asks d_display_idx;
  display_changed idx (video_source c).

Definition capture_displays_of (add sub set : list Z) : D unit :=
  c ← me;
  let source := video_source c in
  let id := c_id c in
  srv ← lift (gets w_server);
  match srv with
  | Some _ =>
      lift (server_do (λ s,
        let s := foldl (λ s i, ensure_video_service source i s) s (add ++ set)%list in
        match add, sub with
        | _ :: _, _ => capture_displays id source add true false s
        | [], _ :: _ => capture_displays id source sub false true s
        | [], [] => capture_displays id source set true true s
        end));;
      srv ← lift (gets w_server);
      let n := default O (get_subbed_displays_count id <$> srv) in
      update (λ d, d <| d_multi_ui_session := (1 <? n)%nat |>);;
      dwhen (c_follow_remote_window c)
        (lift (server_do (subscribe NAME_WINDOW_FOCUS id (negb (1 <? n)%nat))))
  | None => mret tt
  end.

Definition toggle_privacy_mode (on : bool) : D unit :=
  lift (emit (if on then TurnOnPrivacy else TurnOffPrivacy)).

(** *** Files *)

Definition get_files_for_audit (t : JobType) (files : list FileEntry) : list (string * Z) :=
  map (λ f, (match t with Printer => "Remote print" | Generic => fe_name f end, swrap 64 (fe_size f))) files.

(** [sort_by], largest first, stable. *)
Fixpoint insert_by_size (f : string * Z) (l : list (string * Z)) : list (string * Z) :=
  match l with
  | [] => [f]
  | g :: l' => if (g.2 <? f.2)%Z then f :: l else g :: insert_by_size f l'
  end.
Definition sort_by_size (l : list (string * Z)) : list (string * Z) :=
  foldl (λ acc f, insert_by_size f acc) [] l.

Definition post_file_audit (receive : bool) (path : string) (files : list (string * Z)) : D unit :=
  if negb (audits_files denv) then mret tt else
  let top := take 10 (sort_by_size files) in
  act (FileAudit receive path (length files) top
         match top with [f] => is_empty f.1 | _ => false end).

Definition process_new_read_job (job : TransferJob) (path : string) : D unit :=
  c ← me;
  let files := files job in
  to_the_peer (new_dir (Transfer.id job) path files);;
  update (λ d, d <| d_read_jobs := (d_read_jobs d
    ++ [job <| Transfer.is_remote := true |> <| Transfer.conn_id := c_id c |>])%list |>);;
  post_file_audit false (match type job with Printer => "Remote print" | Generic => path end)
    (get_files_for_audit (type job) files).

Definition create_and_start_read_job (i : Z) (t : JobType) (source : DataSource) (fn : Z)
    (include_hidden overwrite_detection : bool) (path : string) (check_file_limit : bool) : D unit :=
  v ← asks d_fs;
  match new_read (dir_order denv) v i t "" source fn include_hidden false overwrite_detection with
  | Err err => to_the_peer (new_error i err 0)
  | Ok job =>
      match (if check_file_limit
             then check_file_count_limit (globals env) (Z.of_nat (length (files job))) else Ok tt) with
      | Err msg => to_the_peer (MsgErrorText i msg (-1))
      | Ok _ => process_new_read_job job path
      end
  end.

(** The job id of a request that sends files away or changes the host's. *)
Definition one_way_job (a : FileAction) : option Z :=
  match a with
  | FaSend i _ _ _ _ | FaRename i _ _ | FaCreate i _ => Some i
  | FaRemoveFile f => Some (rf_id f)
  | FaRemoveDir d => Some (rd_id d)
  | _ => None
  end.

Definition one_way_file_transfer : bool :=
  String.eqb (get_builtin_option (globals env) "one-way-file-transfer") "Y".

(** The first printer job under this path, taken out. *)
Fixpoint take_printer_data (path : string) (l : list (string * list Z))
    : option (list Z * list (string * list Z)) :=
  match l with
  | [] => None
  | (p, data) :: l =>
      if String.eqb p path then Some (data, l)
      else match take_printer_data path l with
           | Some (x, l') => Some (x, (p, data) :: l')
           | None => None
           end
  end.

Definition set_file_transferred : D unit := set_conn (λ c, c <| c_file_transferred := true |>).

Definition overwrite_detection_of (c : Connection) : bool :=
  can_enable_overwrite_detection (get_version_number (lr_version (c_lr c))).

Definition all_files (i : Z) (path : string) (include_hidden : bool) : D unit :=
  v ← asks d_fs;
  match get_recursive_files (dir_order denv) v path include_hidden with
  | Err err => to_the_peer (new_error i err (-1))
  | Ok files =>
      match check_file_count_limit (globals env) (Z.of_nat (length files)) with
      | Err msg => to_the_peer (MsgErrorText i msg (-1))
      | Ok _ => to_the_peer (new_dir i path files)
      end
  end.

Definition send_files (i : Z) (path : string) (fn : Z) (include_hidden : bool) (t : JobType) : D unit :=
  c ← me;
  match t with
  | Generic =>
      create_and_start_read_job i t (FilePath path) fn include_hidden (overwrite_detection_of c)
        path true;;
      set_file_transferred
  | Printer =>
      data ← asks (λ d, take_printer_data path (d_printer_data d));
      match data with
      | Some (bytes, rest) =>
          update (λ d, d <| d_printer_data := rest |>);;
          create_and_start_read_job i t (MemoryCursor bytes) fn include_hidden true path false;;
          set_file_transferred
      | None => mret tt
      end
  end.

Definition receive_files (i : Z) (path : string) (files : list FileEntry) (fn total : Z) : D unit :=
  c ← me;
  send_fs (FS.NewWrite path i fn (map (λ f, (fe_name f, fe_mtime f)) files)
             (overwrite_detection_of c) total (c_id c));;
  post_file_audit true path (get_files_for_audit Generic files);;
  set_file_transferred.

Definition is_direct_child (parent child : string) : bool :=
  bool_decide (parent_components (components child) = Some (components parent)).

Definition on_remove_file (f : FileRemoveFile) : D unit :=
  update (λ d, d <| d_remove_log :=
    mkRemoveLog (now env) (rl_files (d_remove_log d) ++ [f])%list (rl_dirs (d_remove_log d)) |>).

(** The log entry it returns is dropped by the caller. *)
Definition remove_dir_logged (r : FileRemoveDir) (t : Z) (l : FileRemoveLogControl) : FileRemoveLogControl :=
  let files := List.filter (λ f, negb (is_direct_child (rf_path f) (rd_path r))) (rl_files l) in
  let dirs := List.filter (λ x, negb (is_direct_child (rd_path r) (rd_path x))) (rl_dirs l) in
  mkRemoveLog t files
    (if existsb (λ x, is_direct_child (rd_path x) (rd_path r)) dirs then dirs else (dirs ++ [r])%list).
Definition on_remove_dir (r : FileRemoveDir) : D unit :=
  update (λ d, d <| d_remove_log := remove_dir_logged r (now env) (d_remove_log d) |>).

(** [on_timer], every second. *)
Definition on_remove_timer : D unit :=
  l ← asks d_remove_log;
  if (Z.quot (now env - rl_instant l) (10 ^ 9) <? 1)%Z then mret tt else
  update (λ d, d
    <| d_remove_log := mkRemoveLog (rl_instant l) [] [] |>
    <| d_actions := (d_actions d
         ++ map (λ f, CmRemoveLog (rf_path f) (rf_id f) false) (rl_files l)
         ++ map (λ r, CmRemoveLog (rd_path r) (rd_id r) true) (rl_dirs l))%list |>).

Definition cancel_job (i : Z) : D unit :=
  c ← me;
  send_fs (FS.CancelWrite i);;
  update (λ d, d <| d_reads := forget_read i (d_reads d) |>);;
  send_fs (FS.CancelRead i (c_id c));;
  jobs ← asks d_read_jobs;
  match take_job i jobs with
  | Some (job, rest) => update (λ d, d <| d_read_jobs := rest |>);; act (CmCancelLog job)
  | None => mret tt
  end.

(** [confirm] on the connection's own job, or passed on.  [false]: it panicked. *)
Definition send_confirm (r : FileTransferSendConfirmRequest) : D bool :=
  jobs ← asks d_read_jobs; v ← asks d_fs; ids ← asks (λ d, cm_read_job_ids (d_reads d));
  c ← me;
  match with_job (cr_id r) (confirm r) jobs v with
  | Some (Panic, _, _) => mret false
  | Some (_, jobs, v) => update (λ d, d <| d_read_jobs := jobs |> <| d_fs := v |>);; mret true
  | None =>
      (if bool_decide (cr_id r ∈ ids) then
         send_fs (FS.SendConfirmForRead (cr_id r) (cr_file_num r) (skip_of r) (offset_of r) (c_id c))
       else match confirm_to_bytes r with
            | Some bytes => send_fs (FS.SendConfirm bytes)
            | None => mret tt
            end);;
      mret true
  end.

Definition file_action (a : FileAction) : D bool :=
  match a with
  | FaReadEmptyDirs path hidden => send_fs (FS.ReadEmptyDirs path hidden);; mret true
  | FaReadDir path hidden => send_fs (FS.ReadDir path hidden);; mret true
  | FaAllFiles i path hidden => all_files i path hidden;; mret true
  | FaSend i path fn hidden t => send_files i path fn hidden t;; mret true
  | FaReceive i path files fn total => receive_files i path files fn total;; mret true
  | FaRemoveDir r =>
      send_fs (FS.RemoveDir (rd_path r) (rd_id r) (rd_recursive r));; on_remove_dir r;; mret true
  | FaRemoveFile f =>
      send_fs (FS.RemoveFile (rf_path f) (rf_id f) (rf_file_num f));; on_remove_file f;; mret true
  | FaCreate i path => send_fs (FS.CreateDir path i);; act (CmCreateLog path i);; mret true
  | FaCancel i => cancel_job i;; mret true
  | FaSendConfirm r => send_confirm r
  | FaRename i path new_name =>
      send_fs (FS.Rename i path new_name);; act (CmRenameLog path new_name);; mret true
  end.

(** Whether a file action is served: on a file transfer connection, or to fetch a
    printed document. *)
Definition serves (c : Connection) (a : option FileAction) : bool :=
  bool_decide (is_Some (c_file_transfer c))
  || match a with Some (FaSend _ _ _ _ Printer) => true | _ => false end.

Definition handle_file_action (a : option FileAction) : D bool :=
  c ← me;
  if negb (serves c a) then mret true else
  delayed ← asks d_delayed_read_dir;
  match delayed with
  | Some _ =>
      match a with
      | Some (FaReadDir path hidden) =>
          update (λ d, d <| d_delayed_read_dir := Some (path, hidden) |>)
      | _ => mret tt
      end;; mret true
  | None =>
      match a with
      | None => mret true
      | Some a =>
          match (if one_way_file_transfer then one_way_job a else None) with
          | Some i => to_the_peer (MsgErrorText i "one-way-file-transfer-tip" 0);; mret true
          | None => file_action a
          end
      end
  end.

Definition handle_file_response (r : FileResponse) : D unit :=
  match r with
  | FrBlock b => send_fs (FS.WriteBlock (blk_id b) (blk_file_num b) (blk_data b) (blk_compressed b))
  | FrDone i fn => send_fs (FS.WriteDone i fn)
  | FrDigest d => send_fs (FS.CheckDigest (td_id d) (td_file_num d) (td_file_size d)
                             (td_last_modified d) true (td_is_resume d))
  | FrError i fn err => send_fs (FS.WriteError i fn err)
  | FrOther => mret tt
  end.

(** *** Voice calls *)

Definition voice_subscription (b : Connection → bool) : D unit :=
  c ← me; dwhen (is_authed_view_camera_conn c) (lift (sub AUDIO_NAME b)).

Definition handle_voice_call (accepted : bool) : D unit :=
  request ← asks d_voice_call_request;
  update (λ d, d <| d_voice_call_request := None |>);;
  match request with
  | Some ts =>
      (if accepted then act (SetVoiceDevice true);; act CmStartVoiceCall else act CmCloseVoiceCall);;
      act (ToPeerVoiceResponse ts accepted);;
      set_conn (λ c, c <| c_voice_calling := accepted |>);;
      voice_subscription (λ c, audio_enabled c && accepted)
  | None => mret tt
  end.

Definition close_voice_call : D unit :=
  act (SetVoiceDevice false);; act CmCloseVoiceCall;;
  set_conn (λ c, c <| c_voice_calling := false |>);;
  voice_subscription (λ _, false).

(** [NonZeroI64::new], or the time. *)
Definition voice_timestamp (t : Z) : Z := if (t =? 0)%Z then time_ms env else t.

(** *** The handler *)

Definition handle_misc (m : Misc) : D bool :=
  match m with
  | MiSwitchDisplay display w h => handle_switch_display display w h;; mret true
  | MiCaptureDisplays add sub set =>
      capture_displays_of (map to_usize add) (map to_usize sub) (map to_usize set);; mret true
  | MiTogglePrivacyMode on => toggle_privacy_mode on;; mret true
  | MiChatMessage text =>
      act (CmChat text);; set_conn (λ c, c <| c_chat_unanswered := true |>);;
      auto_disconnect;; mret true
  | MiRefreshVideo r => dwhen r (refresh_video_display None);; auto_disconnect;; mret true
  | MiRefreshVideoDisplay display =>
      refresh_video_display (Some (to_usize display));; auto_disconnect;; mret true
  | MiVideoReceived => act FrameFetched;; mret true
  | MiRestartRemoteDevice =>
      c ← me; dwhen (c_restart c) (act ForceReboot;; act Reboot);; mret true
  | MiShutdownRemoteDevice => c ← me; dwhen (c_restart c) (act Shutdown);; mret true
  | MiAudioFormat =>
      c ← me;
      dwhen (negb (c_disable_audio c))
        (update (λ d, d <| d_audio_sender := true |>);; act StartAudio);;
      mret true
  | MiSwitchSidesRequest uuid =>
      c ← me;
      if Nat.eqb (str_len uuid) 16 then
        act (ConnectBack (lr_my_id (c_lr c)) uuid);; lift (on_close "switch sides" false);; mret false
      else mret true
  | MiChangeResolution w h => change_resolution None w h;; mret true
  | MiChangeDisplayResolution display w h => change_resolution (Some (to_usize display)) w h;; mret true
  | MiAutoAdjustFps fps => c ← me; lift (qos_do (user_auto_adjust_fps (c_id c) fps));; mret true
  | MiClientRecordStatus status =>
      c ← me; lift (qos_do (user_record (c_id c) status));; mret true
  | MiMessageQuery idx => c ← me; display_changed (to_usize idx) (video_source c);; mret true
  | MiOption o => lift (update_options env o);; mret true
  end.

(** The branches of [on_message] behind [self.authorized]; [false]: the
    connection ends. *)
Definition on_authed (msg : Authed) : D bool :=
  match msg with
  | AuMouse e => handle_mouse_event e;; mret true
  | AuPointer e => handle_pointer_event e;; mret true
  | AuKey e => handle_key_event e;; mret true
  | AuClipboard contents => c ← me; dwhen (c_clipboard c) (act (UpdateClipboard contents));; mret true
  | AuFileAction a => handle_file_action a
  | AuFileResponse r => handle_file_response r;; mret true
  | AuMisc m => handle_misc m
  | AuAudioFrame =>
      c ← me; sender ← asks d_audio_sender;
      dwhen (negb (c_disable_audio c) && sender) (act PlayAudio);; mret true
  | AuVoiceCallRequest true ts =>
      update (λ d, d <| d_voice_call_request := Some (voice_timestamp ts) |>);;
      act CmVoiceCallIncoming;; mret true
  | AuVoiceCallRequest false _ => close_voice_call;; mret true
  | AuVoiceCallResponse => mret true
  | AuScreenshot display sid =>
      act (TakeScreenshot (to_usize display) sid);;
      refresh_video_display (Some (to_usize display));; mret true
  | AuTerminal action =>
      c ← me;
      dwhen (c_terminal_user_token c)
        (act (TerminalRequest action);;
         match terminal_action denv action with
         | Some response => act (ToPeerTerminal response)
         | None => mret tt
         end);;
      mret true
  end.

Definition on_authed_message (msg : Authed) : D bool :=
  c ← me;
  if c_authorized c then (if c_port_forward_socket c then mret true else on_authed msg)
  else mret true.

(** *** Other inputs *)

(** The messages of the connection manager that [Login.on_cm] does not serve. *)
Definition on_desk_cm (x : Data) : D unit :=
  match x with
  | VoiceCallResponse accepted => handle_voice_call accepted
  | CloseVoiceCall _ => close_voice_call;; act (ToPeerVoiceRequest false)
  | SwitchSidesBack => act ToPeerSwitchBack
  | _ => c ← me; update (λ d, d <| d_reads := on_cm_read (c_id c) x (d_reads d) |>)
  end.

(** The file timer. *)
Definition on_file_timer : D unit :=
  jobs ← asks d_read_jobs; v ← asks d_fs;
  if bool_decide (jobs = []) then mret tt else
  act (CmTransferLog jobs);;
  let '(jobs, v, out) := handle_read_jobs (compress denv) (short denv) jobs v in
  update (λ d, d <| d_read_jobs := jobs |> <| d_fs := v |>
               <| d_reads := foldl (λ r m, to_peer_send m r) (d_reads d) out |>).

Inductive DeskInput :=
| DeskMessage (m : Authed)
| DeskCm (x : Data)
| DeskFileTimer
| DeskSecondTimer
| DeskWorld (f : World → World).        (* what [Login] does meanwhile *)

Definition desk_step (i : DeskInput) (d : Desk) : Desk :=
  match i with
  | DeskMessage m => (on_authed_message m d).2
  | DeskCm x => (on_desk_cm x d).2
  | DeskFileTimer => (on_file_timer d).2
  | DeskSecondTimer => (on_remove_timer d).2
  | DeskWorld f => d <| d_world := f (d_world d) |>
  end.
End Dispatch.
