(* ===== verification/DispatchSafety.v ===== *)
(** * What an authorised peer can do

    Theorems on [Dispatch]: nothing reaches a device, a file or a terminal that
    the permissions of the session do not cover ([privileged_actions_permitted]);
    with one-way file transfer no file leaves the host and none of its files is
    touched by a command ([one_way_keeps_files]); a download that is asked for is
    served ([download_served]); and what the model shows of the handler. *)

From S2P Require Import Prelude Strs Version Vfs Fs Transfer Receive Send VideoQos Secret Options Cm CmSafety Password Permissions Throttle Sessions Services Conn Login LoginSafety ConnSafety Dispatch.
From Stdlib Require Import Ascii String.

Local Open Scope string_scope.
#[local] Abbreviation length := Datatypes.length.
#[local] Arguments String.append _ _ : simpl nomatch.

Section Safety.
  Context `{T : Totp} `{C : Crypto} `{P : Proto}.
  Variable env : Env.
  Variable denv : DeskEnv.

(** ** Programs that keep a property of the desk *)

Section Keeps.
Variable R : Desk → Prop.

Definition keeps_desk {A} (m : D A) : Prop := ∀ d, R d → R (m d).2.

Lemma keeps_ret {A} (a : A) : keeps_desk (mret a).
Proof. by intros d. Qed.

Lemma keeps_bind {A B} (m : D A) (f : A → D B) :
  keeps_desk m → (∀ a, keeps_desk (f a)) → keeps_desk (m ≫= f).
Proof.
  intros Hm Hf d Hd. pose proof (Hm d Hd) as H. unfold mbind, D_bind.
  destruct (m d) as [a d1]. by apply Hf.
Qed.

Lemma keeps_asks {A B} (f : Desk → A) (k : A → D B) :
  (∀ d, R d → R (k (f d) d).2) → keeps_desk (asks f ≫= k).
Proof. intros H d Hd. by apply H. Qed.

Lemma keeps_when b m : (b = true → keeps_desk m) → keeps_desk (dwhen b m).
Proof. destruct b; intros H; [by apply H|apply keeps_ret]. Qed.

Lemma keeps_if {A} (b : bool) (m1 m2 : D A) :
  (b = true → keeps_desk m1) → (b = false → keeps_desk m2) → keeps_desk (if b then m1 else m2).
Proof. destruct b; auto. Qed.

Lemma keeps_update f : (∀ d, R d → R (f d)) → keeps_desk (update f).
Proof. intros H d Hd. by apply H. Qed.
End Keeps.

(** ** Permissions *)

(** The fields of a connection that say what its peer may do. *)
Definition perms (c : Connection) :=
  ((c_authorized c, c_authed_conn_id c, c_file_transfer c, c_view_camera c, c_terminal c,
    c_terminal_user_token c),
   (c_keyboard c, c_clipboard c, c_audio c, c_file c, c_restart c, c_recording c, c_block_input c),
   (c_disable_keyboard c, c_disable_clipboard c, c_disable_audio c, c_show_my_cursor c)).

(** Of these, what the host grants; the others are the peer's own choices. *)
Definition grants (c : Connection) := (perms c).1.

(** What must hold of the connection for an action to be taken for its peer. *)
Definition permitted (c : Connection) (a : Action) : Prop :=
  match a with
  | InputMouse _ simulate _ =>
      is_authed_view_camera_conn c = false
      ∧ (if simulate then peer_keyboard_enabled c = true else c_show_my_cursor c = true)
  | InputPointer _ | InputKey _ _ =>
      is_authed_view_camera_conn c = false ∧ peer_keyboard_enabled c = true
  | UpdateClipboard _ => c_clipboard c = true
  | ChangeResolution _ _ _ => c_keyboard c = true
  | ForceReboot | Reboot | Shutdown => c_restart c = true
  | CmFS (FS.WriteBlock _ _ _ _ | FS.WriteDone _ _ | FS.CheckDigest _ _ _ _ _ _
          | FS.WriteError _ _ _) => True
  | CmFS _ | CmCreateLog _ _ | CmRenameLog _ _ | CmCancelLog _ => is_Some (c_file_transfer c)
  | StartAudio | PlayAudio => c_disable_audio c = false
  | TerminalRequest _ => c_terminal_user_token c = true
  | _ => True
  end.

Lemma permitted_perms c c' a : perms c = perms c' → permitted c a → permitted c' a.
Proof.
  unfold perms. intros [= E1 E2 E3 E4 E5 E6 E7 E8 E9 E10 E11 E12 E13 E14 E15 E16 E17].
  unfold permitted, is_authed_view_camera_conn, peer_keyboard_enabled.
  destruct a; repeat case_match; congruence.
Qed.

(** From [d0] on, only permitted actions were taken and no permission has changed. *)
Record within (d0 d : Desk) : Prop := {
  within_perms : perms (w_conn (d_world d)) = perms (w_conn (d_world d0));
  within_acts : ∃ acts, d_actions d = (d_actions d0 ++ acts)%list
                        ∧ Forall (permitted (w_conn (d_world d0))) acts
}.

Section Within.
Variable d0 : Desk.
#[local] Abbreviation K := (keeps_desk (within d0)).

Lemma within_act c a : perms c = perms (w_conn (d_world d0)) → permitted c a → K (act a).
Proof.
  intros Hc Ha. apply keeps_update. intros d [Hp (acts & Hd & HF)]. split; [done|].
  exists (acts ++ [a])%list. cbn. rewrite Hd, app_assoc. split; [done|].
  apply Forall_app. split; [done|]. constructor; [|done]. exact (permitted_perms _ _ _ Hc Ha).
Qed.

Lemma within_free a : permitted (w_conn (d_world d0)) a → K (act a).
Proof. by apply (within_act (w_conn (d_world d0))). Qed.

Lemma within_me {A} (f : Connection → D A) :
  (∀ c, perms c = perms (w_conn (d_world d0)) → K (f c)) → K (me ≫= f).
Proof. intros H. apply keeps_asks. intros d Hd. apply H; [|done]. by destruct Hd. Qed.

Lemma within_lift {A} (m : M A) :
  (∀ w, perms (w_conn (m w).2) = perms (w_conn w)) → K (lift m).
Proof.
  intros H d [Hp Ha]. unfold lift. specialize (H (d_world d)). destruct (m (d_world d)) as [a w].
  split; [|done]. cbn in *. congruence.
Qed.

Lemma within_update f :
  (∀ d, d_world (f d) = d_world d) → (∀ d, d_actions (f d) = d_actions d) → K (update f).
Proof.
  intros Hw Ha. apply keeps_update. intros d [Hp (acts & Hd & HF)].
  split; [by rewrite Hw|]. exists acts. by rewrite Ha.
Qed.

Lemma within_asks {A B} (f : Desk → A) (k : A → D B) : (∀ a, K (k a)) → K (asks f ≫= k).
Proof. intros H. apply keeps_asks. intros d Hd. by apply H. Qed.

Lemma within_match {A B} (o : option A) (f : A → D B) (m : D B) :
  (∀ a, K (f a)) → K m → K (match o with Some a => f a | None => m end).
Proof. destruct o; auto. Qed.

Lemma within_to_peer m : K (to_the_peer m).
Proof. by apply within_update. Qed.

Lemma within_set_conn f : (∀ c, perms (f c) = perms c) → K (set_conn f).
Proof. intros H. apply within_lift. intros w. apply H. Qed.
End Within.

(** One step through a program. *)
Ltac walk :=
  match goal with
  | |- keeps_desk _ (me ≫= _) => apply within_me; intros ? ?
  | |- keeps_desk _ (asks _ ≫= _) => apply within_asks; intros ?
  | |- keeps_desk _ (_ ≫= _) => apply keeps_bind; [|intros ?]
  | |- keeps_desk _ (mret _) => apply keeps_ret
  | |- keeps_desk _ (to_the_peer _) => apply within_to_peer
  | |- keeps_desk _ (dwhen _ _) => apply keeps_when; intros ?
  | |- keeps_desk _ (if _ then _ else _) => apply keeps_if; intros ?
  | |- keeps_desk _ (match ?x with _ => _ end) => destruct x
  | |- keeps_desk _ (update _) => apply within_update; reflexivity
  | |- keeps_desk _ (set_conn _) => apply within_set_conn; reflexivity
  | |- keeps_desk _ (lift _) => apply within_lift; reflexivity
  | |- keeps_desk _ (act _) => (eapply within_act; [eassumption|]) || apply within_free
  end.

Ltac walk_all :=
  repeat walk; cbn;
  try first [done | assumption | match goal with |- ?b = false => by destruct b end
            | match goal with H : perms ?c = perms ?c0 |- is_Some (c_file_transfer ?c) =>
                replace (c_file_transfer c) with (c_file_transfer c0)
                  by (unfold perms in H; congruence); assumption end].

Lemma perms_on_close reason lock w : perms (w_conn (on_close reason lock w).2) = perms (w_conn w).
Proof.
  unfold on_close, mbind, M_bind, self, gets, when. destruct (c_closed (w_conn w)); [done|].
  cbn. by destruct lock, (c_lock_after_session_end (w_conn w)), (c_keyboard (w_conn w)).
Qed.

Section Handlers.
Variable d0 : Desk.
#[local] Abbreviation K := (keeps_desk (within d0)).
#[local] Abbreviation c0 := (w_conn (d_world d0)).

Lemma within_mouse e : K (handle_mouse_event env e).
Proof. unfold handle_mouse_event, auto_disconnect. walk_all. Qed.

Lemma within_pointer e : K (handle_pointer_event env e).
Proof. unfold handle_pointer_event, auto_disconnect. walk_all. Qed.

Lemma within_key e : K (handle_key_event env denv e).
Proof. unfold handle_key_event, track_modifier, auto_disconnect. walk_all. Qed.

Lemma within_refresh display : K (refresh_video_display display).
Proof. unfold refresh_video_display. walk_all. Qed.

Lemma within_resolution display w h : K (change_resolution denv display w h).
Proof. unfold change_resolution. walk_all. Qed.

Lemma within_switch_display display w h : K (handle_switch_display env denv display w h).
Proof.
  unfold handle_switch_display, switch_display_to, display_changed. repeat walk; cbn; try done.
  apply within_resolution.
Qed.

Lemma within_capture add sub set : K (capture_displays_of add sub set).
Proof. unfold capture_displays_of. walk_all. Qed.

Lemma within_audit receive path files : K (post_file_audit denv receive path files).
Proof. unfold post_file_audit. walk_all. Qed.

Lemma within_read_job i t src fn hidden od path limit :
  K (create_and_start_read_job env denv i t src fn hidden od path limit).
Proof.
  unfold create_and_start_read_job, process_new_read_job. repeat walk; apply within_audit.
Qed.

Lemma within_file_action a :
  is_Some (c_file_transfer c0) ∨ is_Some (match a with FaSend i _ _ _ _ => Some i | _ => None end) →
  K (file_action env denv a).
Proof.
  intros Ha. destruct a; try destruct Ha as [Ha|[? [=]]];
    cbn [file_action]; unfold all_files, send_files, receive_files, on_remove_dir,
      on_remove_file, cancel_job, send_confirm, set_file_transferred, send_fs; walk_all;
    try apply within_audit; try apply within_read_job.
Qed.

Lemma within_handle_file_action a : K (handle_file_action env denv a).
Proof.
  unfold handle_file_action. apply within_me. intros c Hc.
  apply keeps_if; intros Hs; [walk|]. apply negb_false_iff in Hs.
  apply within_asks. intros delayed. destruct delayed; [repeat walk|].
  destruct a as [a|]; [|walk]. destruct (if one_way_file_transfer env then _ else _); [repeat walk|].
  apply within_file_action. unfold serves in Hs. apply orb_true_iff in Hs as [Hs|Hs].
  - left. apply bool_decide_eq_true_1 in Hs. unfold perms in Hc.
    replace (c_file_transfer c0) with (c_file_transfer c) by congruence. done.
  - right. by destruct a.
Qed.

Lemma within_file_response r : K (handle_file_response r).
Proof. destruct r; cbn [handle_file_response]; unfold send_fs; walk_all. Qed.

Lemma within_close_voice : K close_voice_call.
Proof. unfold close_voice_call, voice_subscription. walk_all. Qed.

(** An option message; it is the one message that changes what the peer chooses. *)
Definition option_of (msg : Authed) : option OptionMessage :=
  match msg with AuMisc (MiOption o) => Some o | _ => None end.

Lemma within_misc m : option_of (AuMisc m) = None → K (handle_misc env denv m).
Proof.
  intros Ho. destruct m; try done; cbn [handle_misc]; unfold toggle_privacy_mode, display_changed, auto_disconnect; walk_all;
    try apply within_switch_display; try apply within_capture; try apply within_refresh;
    try apply within_resolution; try (apply within_lift, perms_on_close).
Qed.

Lemma within_authed msg : option_of msg = None → K (on_authed env denv msg).
Proof.
  intros Ho. destruct msg; cbn [on_authed]; walk_all;
    try apply within_mouse; try apply within_pointer; try apply within_key;
    try apply within_handle_file_action; try apply within_file_response; try (by apply within_misc);
    try apply within_close_voice; try apply within_refresh.
Qed.
End Handlers.

(** C4: only what the permissions cover is done.  Whatever an authorised peer
    sends, in one message: mouse and key events are injected only with the
    keyboard permission and never for a camera session, the clipboard is written
    only with the clipboard permission, resolutions change only with the keyboard
    permission, the host restarts only with the restart permission, sound is
    played only when audio is not disabled, file commands and new uploads reach
    the connection manager only on a file transfer connection, and terminal
    actions only on one that was granted a terminal.  No message changes what the host
    granted; an option message changes what the peer itself disables or shows, as its
    options say, and no other message does; and a peer that is not authorised, or that
    was given a tunnel, changes nothing at all. *)
Theorem privileged_actions_permitted msg d :
  let d' := (on_authed_message env denv msg d).2 in
  let c := w_conn (d_world d) in
  let c' := w_conn (d_world d') in
  (c_authorized c = false ∨ c_port_forward_socket c = true → d' = d)
  ∧ grants c' = grants c
  ∧ perms c' = perms (match option_of msg with
                      | Some o => if c_authorized c && negb (c_port_forward_socket c) then set_options o c else c
                      | None => c
                      end)
  ∧ ∃ acts, d_actions d' = (d_actions d ++ acts)%list ∧ Forall (permitted c) acts.
Proof.
  intros d' c c'.
  assert (c_authorized c = false ∨ c_port_forward_socket c = true → d' = d) as Hout.
  { intros H. unfold d', on_authed_message, mbind, D_bind, me, asks. fold c.
    destruct H as [->| ->]; [done|]. by destruct (c_authorized c). }
  assert (∀ o, perms (set_options o c) = ((perms c).1, (perms (set_options o c)).2)) as Hset by done.
  split; [done|]. destruct (option_of msg) as [o|] eqn:Eo.
  - destruct (c_authorized c && negb (c_port_forward_socket c)) eqn:Ea.
    + apply andb_true_iff in Ea as [E1 E2%negb_true_iff].
      assert (d' = d <| d_world := (update_options env o (d_world d)).2 |>) as Ed.
      { destruct msg as [| | | | | |m| | | | |]; try done. destruct m; try done. injection Eo as ->.
        unfold d', on_authed_message, mbind, D_bind, me, asks. fold c. rewrite E1, E2. cbn.
        unfold lift, mbind, D_bind. by destruct (update_options env o (d_world d)). }
      assert (c' = set_options o c) as Ec by (unfold c'; rewrite Ed; apply update_options_conn).
      rewrite Ec. unfold grants. split_and!; [by rewrite Hset|done|]. exists []. by rewrite Ed, app_nil_r.
    + assert (d' = d) as Ed by (apply Hout; apply andb_false_iff in Ea as [?|?%negb_false_iff]; auto).
      unfold c'. rewrite Ed. split_and!; [done..|]. exists []. by rewrite app_nil_r.
  - assert (within d d') as [H1 H2].
    { assert (keeps_desk (within d) (on_authed_message env denv msg)) as H.
      { unfold on_authed_message. repeat first [by apply within_authed|walk]. }
      apply H. split; [done|]. exists []. by rewrite app_nil_r. }
    unfold grants, c'. by rewrite H1.
Qed.

(** ** One-way file transfer *)

(** A request that changes or reads the host's files at the peer's wish. *)
Definition touches_host (a : Action) : bool :=
  match a with
  | CmFS (FS.RemoveDir _ _ _ | FS.RemoveFile _ _ _ | FS.CreateDir _ _ | FS.Rename _ _ _
          | FS.ReadFile _ _ _ _ _ _) => true
  | _ => false
  end.

Definition is_block (m : CmRaw) : bool := match m with RawFile (MsgBlock _) => true | _ => false end.

Record one_way (d : Desk) : Prop := {
  ow_jobs : d_read_jobs d = [];
  ow_ids : cm_read_job_ids (d_reads d) = ∅;
  ow_peer : Forall (λ m, is_block m = false) (to_peer (d_reads d));
  ow_acts : Forall (λ a, touches_host a = false) (d_actions d)
}.
#[local] Abbreviation K1 := (keeps_desk one_way).

Lemma one_way_act a : touches_host a = false → K1 (act a).
Proof.
  intros Ha. apply keeps_update. intros d []. split; cbn; try done.
  apply Forall_app. by split; [|constructor].
Qed.

Lemma one_way_peer m : is_block (RawFile m) = false → K1 (to_the_peer m).
Proof.
  intros Hm. apply keeps_update. intros d []. split; cbn; try done.
  apply Forall_app. by split; [|constructor].
Qed.

Lemma one_way_update f :
  (∀ d, d_read_jobs (f d) = d_read_jobs d) → (∀ d, d_reads (f d) = d_reads d) →
  (∀ d, d_actions (f d) = d_actions d) → K1 (update f).
Proof.
  intros Hj Hr Ha. apply keeps_update. intros d [].
  split; rewrite ?Hj, ?Hr, ?Ha; done.
Qed.

Lemma one_way_lift {A} (m : M A) : K1 (lift m).
Proof. intros d []. unfold lift. destruct (m (d_world d)). by split. Qed.

Lemma one_way_asks {A B} (f : Desk → A) (k : A → D B) : (∀ a, K1 (k a)) → K1 (asks f ≫= k).
Proof. intros H. apply keeps_asks. intros d Hd. by apply H. Qed.

Ltac walk1 :=
  match goal with
  | |- keeps_desk _ (me ≫= _) => apply one_way_asks; intros ?
  | |- keeps_desk _ (asks _ ≫= _) => apply one_way_asks; intros ?
  | |- keeps_desk _ (_ ≫= _) => apply keeps_bind; [|intros ?]
  | |- keeps_desk _ (mret _) => apply keeps_ret
  | |- keeps_desk _ (to_the_peer _) => apply one_way_peer; reflexivity
  | |- keeps_desk _ (dwhen _ _) => apply keeps_when; intros ?
  | |- keeps_desk _ (if _ then _ else _) => apply keeps_if; intros ?
  | |- keeps_desk _ (match ?x with _ => _ end) => destruct x
  | |- keeps_desk _ (update _) => apply one_way_update; reflexivity
  | |- keeps_desk _ (set_conn _) => apply one_way_lift
  | |- keeps_desk _ (lift _) => apply one_way_lift
  | |- keeps_desk _ (act _) => apply one_way_act; reflexivity
  end.

Lemma one_way_cancel i : K1 (cancel_job i).
Proof.
  unfold cancel_job, send_fs. walk1. apply keeps_bind; [walk1|intros _].
  apply keeps_bind; [|intros _; apply keeps_bind; [walk1|intros _]].
  - apply keeps_update. intros d [Hj Hi Hp Ha]. split; cbn; try done. rewrite Hi. set_solver.
  - apply keeps_asks. intros d Hd. by rewrite (ow_jobs d Hd).
Qed.

Lemma one_way_confirm r : K1 (send_confirm r).
Proof.
  unfold send_confirm. apply keeps_asks. intros d Hd. rewrite (ow_jobs d Hd). cbn [with_job].
  assert (∀ v ids c, K1 ((if bool_decide (cr_id r ∈ (ids : gset Z))
    then send_fs (FS.SendConfirmForRead (cr_id r) (cr_file_num r) (skip_of r) (offset_of r) (c_id c))
    else match confirm_to_bytes r with
         | Some bytes => send_fs (FS.SendConfirm bytes)
         | None => mret tt
         end) ≫= λ _, (mret v : D bool))) as H.
  { intros v ids c. unfold send_fs. repeat walk1. }
  by apply (H true (cm_read_job_ids (d_reads d)) (w_conn (d_world d))).
Qed.

Lemma one_way_file_action a : one_way_job a = None → K1 (file_action env denv a).
Proof.
  intros Ha. destruct a; try done; cbn [file_action].
  - unfold send_fs. repeat walk1.
  - unfold send_fs. repeat walk1.
  - unfold all_files. repeat walk1.
  - unfold receive_files, send_fs, post_file_audit, set_file_transferred. repeat walk1.
  - apply keeps_bind; [apply one_way_cancel|intros _; walk1].
  - apply one_way_confirm.
Qed.

Lemma one_way_handle a : one_way_file_transfer env = true → K1 (handle_file_action env denv a).
Proof.
  intros Ho. unfold handle_file_action. rewrite Ho. apply one_way_asks; intros c.
  apply keeps_if; intros _; [walk1|]. apply one_way_asks; intros delayed.
  destruct delayed; [repeat walk1|]. destruct a as [a|]; [|walk1].
  destruct (one_way_job a) eqn:Ha; [repeat walk1|]. by apply one_way_file_action.
Qed.

Lemma one_way_message msg :
  one_way_file_transfer env = true → K1 (on_authed_message env denv msg).
Proof.
  intros Ho. unfold on_authed_message. walk1. walk1; [walk1; [walk1|]|walk1].
  destruct msg as [e|e|e|l|act|r|m| |[] ts| |dp sid|ac]; cbn [on_authed];
    try (by apply one_way_handle);
    try destruct r; try destruct m; cbn [handle_file_response handle_misc];
    unfold handle_mouse_event, handle_pointer_event, handle_key_event, track_modifier, auto_disconnect,
      refresh_video_display, change_resolution, handle_switch_display, switch_display_to,
      display_changed, capture_displays_of, toggle_privacy_mode, close_voice_call, voice_subscription,
      change_resolution, send_fs; repeat walk1.
Qed.

(** Messages of the connection manager: it reads no file for this connection. *)
Definition no_block (x : Data) : bool := match x with RawMessage m => negb (is_block m) | _ => true end.

Lemma one_way_cm x : no_block x = true → K1 (on_desk_cm x).
Proof.
  intros Hx.
  assert (∀ me, K1 (update (λ d, d <| d_reads := on_cm_read me x (d_reads d) |>))) as H.
  { intros c. apply keeps_update. intros d [Hj Hi Hp Ha].
    assert (∀ m, is_block m = false → Forall (λ m, is_block m = false) (to_peer (d_reads d) ++ [m]))
      as Happ by (intros m Hm; apply Forall_app; by split; [|constructor]).
    destruct x; cbn [on_cm_read]; try by split.
    - split; cbn; try done. apply Happ. by apply negb_true_iff in Hx.
    - case_match; [|by split]. unfold handle_read_job_init_result. rewrite Hi. by split.
    - case_match; [|by split]. unfold handle_file_block_from_cm. rewrite Hi. by split.
    - case_match; [|by split]. unfold handle_file_read_done. rewrite Hi. by split.
    - case_match; [|by split]. unfold handle_file_read_error. rewrite Hi. by split.
    - case_match; [|by split]. unfold handle_file_digest_from_cm. rewrite Hi. by split.
    - case_match; [|by split]. unfold handle_all_files_result.
      split; cbn; [done|repeat case_match; by cbn| |done].
      repeat case_match; cbn; by apply Happ. }
  destruct x; cbn [on_desk_cm]; try (apply one_way_asks; intros c; apply H);
    unfold handle_voice_call, close_voice_call, voice_subscription; repeat walk1.
Qed.

Lemma one_way_timer : K1 (on_file_timer denv).
Proof.
  unfold on_file_timer. apply keeps_asks. intros d Hd. rewrite (ow_jobs d Hd).
  apply (one_way_asks d_fs). { intros v. cbn. apply keeps_ret. } done.
Qed.

Lemma one_way_remove_timer : K1 (on_remove_timer env).
Proof.
  unfold on_remove_timer. walk1. walk1; [walk1|]. apply keeps_update. intros d [].
  split; cbn; try done. rewrite !Forall_app. split_and!; [done|..];
    apply Forall_map, Forall_true; done.
Qed.

(** C10: one-way transfer keeps the host's files.  With the option
    one-way-file-transfer set, whatever an authorised peer sends and however it
    interleaves with the timers, the connection manager and the rest of the
    connection: no job that reads the host's files is ever started, no block of a
    file goes to the peer, and no request to read, remove, create or rename
    reaches the connection manager. *)
Theorem one_way_keeps_files inputs d :
  one_way_file_transfer env = true → one_way d →
  Forall (λ i, match i with DeskCm x => no_block x = true | _ => True end) inputs →
  one_way (foldl (λ d i, desk_step env denv i d) d inputs).
Proof.
  intros Ho. revert d. induction inputs as [|i inputs IH]; intros d Hd HF; [done|].
  inversion HF as [|? ? Hi HF']; subst. apply IH; [|done]. destruct i; cbn [desk_step].
  - by apply one_way_message.
  - by apply one_way_cm.
  - by apply one_way_timer.
  - by apply one_way_remove_timer.
  - by destruct Hd.
Qed.

(** ** A download *)

Lemma init_jobs_fs jobs v out : (init_jobs jobs v out).1.2 = v.
Proof.
  revert out. induction jobs as [|j jobs IH]; intros out; [done|]. cbn [init_jobs].
  destruct (is_last_job j).
  - specialize (IH out). by destruct (init_jobs jobs v out) as [[js v'] o].
  - destruct (init_for_cm j v out) as (r & j1 & _ & _ & _ & ->).
    destruct r; match goal with |- context [init_jobs jobs v ?o] => specialize (IH o) end;
      by destruct (init_jobs jobs v _) as [[js v'] o].
Qed.

Lemma read_first_fs jobs v out : (read_first (compress denv) (short denv) jobs v out).1.1.2 = v.
Proof.
  revert out. induction jobs as [|j jobs IH]; intros out; [done|]. cbn [read_first].
  destruct (is_last_job j).
  - specialize (IH out). by destruct (read_first _ _ jobs v out) as [[[js v'] o] fin].
  - destruct (read_silent (compress denv) (short denv) j v out) as (r & j1 & _ & _ & _ & ->).
    destruct r as [[b|]|e|]; [done| |done|done]. by destruct (job_completed j1).
Qed.

(** Reading changes no file. *)
Lemma handle_read_jobs_fs jobs v : (handle_read_jobs (compress denv) (short denv) jobs v).1.2 = v.
Proof.
  unfold handle_read_jobs. pose proof (init_jobs_fs jobs v []) as H.
  destruct (init_jobs jobs v []) as [[js v1] out]. cbn in H. subst v1.
  pose proof (read_first_fs js v out) as H.
  by destruct (read_first _ _ js v out) as [[[js' v1] out'] fin].
Qed.

(** [n] ticks of the file timer. *)
Definition ticks (n : nat) (d : Desk) : Desk := Nat.iter n (λ d, (on_file_timer denv d).2) d.

Lemma ticks_succ n d : ticks (S n) d = ticks n (on_file_timer denv d).2.
Proof. unfold ticks. by rewrite Nat.iter_succ_r. Qed.

Lemma foldl_to_peer out r :
  foldl (λ r m, to_peer_send m r) r out
  = mkCmReads (cm_read_job_ids r) (to_peer r ++ map RawFile out)%list.
Proof.
  revert r. induction out as [|m out IH]; intros r; cbn; [by rewrite app_nil_r; destruct r|].
  rewrite IH. cbn. by rewrite <- app_assoc.
Qed.

Lemma timer_idle d : d_read_jobs d = [] → (on_file_timer denv d).2 = d.
Proof. intros H. unfold on_file_timer, mbind, D_bind, asks. by rewrite H. Qed.

Lemma ticks_idle n d : d_read_jobs d = [] → ticks n d = d.
Proof. intros H. induction n as [|n IH]; [done|]. by rewrite ticks_succ, timer_idle. Qed.

Lemma ticks_pump n d js msgs :
  pump (compress denv) (short denv) (d_fs d) n (d_read_jobs d) = (js, msgs) →
  d_read_jobs (ticks n d) = js ∧ to_peer (d_reads (ticks n d)) = (to_peer (d_reads d) ++ map RawFile msgs)%list.
Proof.
  revert d msgs. induction n as [|n IH]; intros d msgs E.
  - injection E as <- <-. by rewrite app_nil_r.
  - cbn [pump] in E. destruct (d_read_jobs d) as [|j jobs] eqn:Hj.
    + injection E as <- <-. by rewrite ticks_idle, Hj, app_nil_r.
    + pose proof (handle_read_jobs_fs (j :: jobs) (d_fs d)) as Hv.
      destruct (handle_read_jobs _ _ (j :: jobs) (d_fs d)) as [[jobs1 v1] out] eqn:Eh.
      cbn in Hv. subst v1.
      destruct (pump _ _ (d_fs d) n jobs1) as [js2 o2] eqn:Ep. injection E as <- <-.
      rewrite ticks_succ. set (d1 := (on_file_timer denv d).2).
      assert (d_fs d1 = d_fs d ∧ d_read_jobs d1 = jobs1
              ∧ to_peer (d_reads d1) = (to_peer (d_reads d) ++ map RawFile out)%list) as (Hf & Hr & Hp).
      { unfold d1, on_file_timer, mbind, D_bind, asks. rewrite Hj.
        rewrite bool_decide_false by done. cbn. rewrite Eh. cbn. by rewrite foldl_to_peer. }
      rewrite <- Hf, <- Hr in Ep. destruct (IH d1 o2 Ep) as [H1 H2]. split; [done|].
      rewrite H2, Hp, map_app, app_assoc. done.
Qed.

(** An authorised file transfer connection, on which nothing is put off. *)
Definition conn_ready (d : Desk) : Prop :=
  let c := w_conn (d_world d) in
  c_authorized c = true ∧ c_port_forward_socket c = false ∧ is_Some (c_file_transfer c)
  ∧ d_delayed_read_dir d = None.

(** There, without one-way transfer, a file action reaches its handler. *)
Lemma ready_action a d :
  conn_ready d → one_way_file_transfer env = false →
  (on_authed_message env denv (AuFileAction (Some a)) d).2 = (file_action env denv a d).2.
Proof.
  intros (Hauth & Hpf & [ft Hft] & Hdel) How.
  unfold on_authed_message, mbind, D_bind, me, asks. rewrite Hauth, Hpf. cbn [on_authed].
  unfold handle_file_action, mbind, D_bind, me, asks, serves. rewrite Hft.
  rewrite bool_decide_true by (by eexists). cbn [negb orb]. by rewrite Hdel, How.
Qed.

(** The desk after a request for a directory, on the connection itself. *)
Lemma download_started i path hidden fs d :
  let c := w_conn (d_world d) in
  conn_ready d → one_way_file_transfer env = false →
  d_read_jobs d = [] →
  get_recursive_files (dir_order denv) (d_fs d) path hidden = Ok fs →
  check_file_count_limit (globals env) (Z.of_nat (length fs)) = Ok tt →
  let d1 := (on_authed_message env denv (AuFileAction (Some (FaSend i path 0 hidden Generic))) d).2 in
  d_fs d1 = d_fs d ∧ to_peer (d_reads d1) = (to_peer (d_reads d) ++ [RawFile (new_dir i path fs)])%list
  ∧ conn_ready d1
  ∧ ∃ j, d_read_jobs d1 = [j] ∧ data_stream j = None ∧ idle j ∧ is_resume j = false
      ∧ sending i path fs (overwrite_detection_of c) j 0.
Proof.
  intros c Hready How Hjobs Hfs Hlim d1. unfold d1. rewrite ready_action by done. clear d1.
  destruct Hready as (Hauth & Hpf & Hft & Hdel). cbn [file_action].
  unfold send_files, create_and_start_read_job, mbind, D_bind, me, asks, new_read. fold c.
  rewrite Hfs. cbn [mbind result_bind files mk_job]. rewrite Hlim.
  unfold process_new_read_job, post_file_audit, mbind, D_bind, me, asks.
  destruct (audits_files denv); cbn; rewrite Hjobs; (split_and!; [done|done|done|]); eexists;
    (split_and!; [done|done|done|done|]); split; cbn; try done; lia.
Qed.

(** C11: a download is served.  On an authorised file transfer connection of a
    peer that does not detect overwrites (before 1.1.10), with nothing else
    being sent and two-way transfer, a request for a directory or file that can
    be listed, within the limit, and whose files can be opened, is answered by
    the listing; and enough ticks of the file timer, one per block and one more,
    send every block of every file, in order, then one [Done], and end the job,
    however short the reads of the system are. *)
Theorem download_served i path hidden fs contents d :
  let c := w_conn (d_world d) in
  (∀ n, 0 < n → 0 < short denv n <= n)%nat →
  c_authorized c = true → c_port_forward_socket c = false → is_Some (c_file_transfer c) →
  d_delayed_read_dir d = None → one_way_file_transfer env = false →
  overwrite_detection_of c = false → d_read_jobs d = [] →
  get_recursive_files (dir_order denv) (d_fs d) path hidden = Ok fs →
  (Z.of_nat (length fs) < 2 ^ 31)%Z →
  check_file_count_limit (globals env) (Z.of_nat (length fs)) = Ok tt →
  Forall2 (readable (d_fs d) path) fs contents →
  let d1 := (on_authed_message env denv (AuFileAction (Some (FaSend i path 0 hidden Generic))) d).2 in
  let blocks := blocks_from (compress denv) i path fs 0 (zip fs contents) in
  ∀ n, (length blocks < n)%nat →
  d_read_jobs (ticks n d1) = []
  ∧ to_peer (d_reads (ticks n d1))
    = (to_peer (d_reads d)
       ++ map RawFile (new_dir i path fs :: map MsgBlock blocks ++ [MsgDone i (Z.of_nat (length fs))]))%list.
Proof.
  intros c Hshort Hauth Hpf Hft Hdel How Hod Hjobs Hfs Hcount Hlim Hread d1 blocks n Hn.
  destruct (download_started i path hidden fs d ltac:(done) How Hjobs Hfs Hlim)
    as (Hv & Hp & _ & j & Hj & Hs & _ & _ & S). fold d1 in Hv, Hp, Hj. fold c in S. rewrite Hod in S.
  assert (n = length blocks + Datatypes.S (n - length blocks - 1))%nat as En by lia.
  pose proof (pump_files (compress denv) (short denv) Hshort (d_fs d) i path fs contents Hcount Hread
                (zip fs contents) 0 j (n - length blocks - 1) eq_refl S Hs) as E.
  fold blocks in E. rewrite <- En, <- Hj, <- Hv in E. destruct (ticks_pump _ _ _ _ E) as [H1 H2].
  split; [done|]. rewrite H2, Hp, <- app_assoc. done.
Qed.

(** ** What goes wrong *)

(** Privacy mode by its own message: no permission is asked for, while the same
    wish in an option message needs the keyboard permission. *)
Lemma privacy_needs_no_permission on d :
  c_authorized (w_conn (d_world d)) = true → c_port_forward_socket (w_conn (d_world d)) = false →
  w_log (d_world (on_authed_message env denv (AuMisc (MiTogglePrivacyMode on)) d).2)
    = (w_log (d_world d) ++ [if on then TurnOnPrivacy else TurnOffPrivacy])%list.
Proof.
  intros Ha Hp. unfold on_authed_message, mbind, D_bind, me, asks. by rewrite Ha, Hp.
Qed.

(** The set of pressed modifiers only shrinks: a press is never one of a
    modifier, so none is there to be released when the session ends. *)
Lemma modifier_never_recorded e d :
  d_pressed_modifiers (track_modifier denv e d).2 ⊆ d_pressed_modifiers d.
Proof.
  unfold track_modifier, key_is_press. destruct (modifier_of denv e) as [key|] eqn:E; [|done].
  cbn. rewrite orb_true_r, andb_false_r. set_solver.
Qed.

(** Sound is played for a peer that opens an audio stream, though no voice call
    was asked for or accepted. *)
Lemma sound_without_call d :
  let c := w_conn (d_world d) in
  c_authorized c = true → c_port_forward_socket c = false → c_disable_audio c = false →
  c_voice_calling c = false →
  let d1 := (on_authed_message env denv (AuMisc MiAudioFormat) d).2 in
  d_actions (on_authed_message env denv AuAudioFrame d1).2
    = (d_actions d ++ [StartAudio; PlayAudio])%list
  ∧ c_voice_calling (w_conn (d_world d1)) = false.
Proof.
  intros c Ha Hp Hd Hv d1.
  assert (d1 = d <| d_audio_sender := true |> <| d_actions := (d_actions d ++ [StartAudio])%list |>) as ->.
  { unfold d1, on_authed_message, mbind, D_bind, me, asks. fold c. rewrite Ha, Hp. cbn.
    unfold mbind, D_bind, me, asks. fold c. by rewrite Hd. }
  unfold on_authed_message, mbind, D_bind, me, asks. cbn. fold c. rewrite Ha, Hp. cbn.
  unfold mbind, D_bind, me, asks. cbn. fold c. rewrite Hd. cbn. by rewrite <- app_assoc.
Qed.
End Safety.

(** Files removed before their directory stay in the log: the test for a direct
    child is asked the wrong way round. *)
Lemma removed_child_stays_logged :
  let file := {| rf_id := 1; rf_path := "/a/x"; rf_file_num := 0 |} in
  let dir := {| rd_id := 1; rd_path := "/a"; rd_recursive := false |} in
  rl_files (remove_dir_logged dir 5 (mkRemoveLog 0 [file] [])) = [file]
  ∧ is_direct_child (rd_path dir) (rf_path file) = true.
Proof. split; vm_compute; reflexivity. Qed.

(** ** A concrete session *)

Module DemoDesk.
Import Secret.Toy PasswordSafety.ToyJson Demo.

#[export] Instance proto_toy : Proto := {
  confirm_to_bytes _ := None; confirm_of_bytes _ := None;
  dir_to_bytes _ := Err "no encoding"; dir_of_bytes _ := Err "no encoding"
}.

Definition denv : DeskEnv := {|
  displays := Some [("DP-1", 1920, 1080)%Z]; display_known _ _ := true;
  keycode_to_rdev_key _ := "KeyA"; audits_files := false; terminal_action _ := None;
  Dispatch.compress := demo_compress; Dispatch.short := demo_short; Dispatch.dir_order := λ l, l;
  show_error _ := "error"
|}.

(** A host on which files go one way only. *)
Definition one_way_globals : Globals :=
  {| OVERWRITE_SETTINGS := ∅; DEFAULT_SETTINGS := ∅; OVERWRITE_LOCAL_SETTINGS := ∅;
     DEFAULT_LOCAL_SETTINGS := ∅; OVERWRITE_DISPLAY_SETTINGS := ∅;
     DEFAULT_DISPLAY_SETTINGS := ∅; HARD_SETTINGS := ∅;
     BUILTIN_SETTINGS := {["one-way-file-transfer" := "Y"]};
     EXE_RENDEZVOUS_SERVER := ""; PROD_RENDEZVOUS_SERVER := ""; APP_NAME := "LDesk" |}.
Definition one_way_env : Env := {|
  now := 10 ^ 12; time_ms := 1700000000000;
  globals := one_way_globals;
  Conn.machine := Toy.machine;
  rng := λ n, Z.of_nat n; hostname := None; draw := 123456;
  devices := {| PRIMARY_DISPLAY_IDX := 0; primary_camera_exists := false |};
  is_prelogin := false; is_locked := false; is_in_privacy_mode := false;
  tcp_connect := λ _, true; active_username := "user"; is_login_screen_wayland := false;
  display_server := "x11"; sync_displays := Ok ["DP-1"]; camera_displays := [];
  display_inited_msg := false; wayland_use_rdp_input := false; is_dir := λ _, false;
  telegram_bot := false; service_specified_user := λ _, None; desktop_manager := λ _ _, "";
  fresh_service_id := "ts_1"; whiteboard_supported := true; is_headless_host := false;
  has_wallpaper_remover := false; is_server := true; main_window_open := true;
  cidr_contains := λ _ _, false; user_iter := map_to_list; display_iter := map_to_list
|}.

Definition world : World :=
  let w := Demo.world None in
  w <| w_conn := w_conn w <| c_authorized := true |> <| c_file_transfer := Some ("/s", false) |> |>.

Definition desk : Desk :=
  mkDesk world [] demo_sender (mkCmReads ∅ []) [] None 0 false false None ∅ (mkRemoveLog 0 [] []) 0 0 [].

Definition listing : list FileEntry :=
  [Build_FileEntry FFile "a.txt" false 4 0; Build_FileEntry FFile "d/b" false 0 0].
Definition ask : Authed := AuFileAction (Some (FaSend 7 "/s" 0 true Generic)).
End DemoDesk.
Import DemoDesk.

Lemma one_way_keeps_files_witness :
  one_way_file_transfer one_way_env = true
  ∧ one_way (foldl (λ d i, desk_step one_way_env denv i d) desk
               [DeskMessage ask; DeskFileTimer;
                DeskMessage (AuFileAction (Some (FaCreate 4 "/s/new"))); DeskSecondTimer]).
Proof.
  split; [vm_compute; reflexivity|].
  apply one_way_keeps_files.
  - vm_compute. reflexivity.
  - split; [reflexivity|reflexivity|apply Forall_nil; exact I|apply Forall_nil; exact I].
  - repeat constructor.
Defined.

Lemma download_served_witness :
  length listing = 2%nat
  ∧ ∃ contents, contents = [[9; 9; 9; 9]%Z; []]
      ∧ to_peer (d_reads (ticks denv 5 (on_authed_message Demo.env denv ask desk).2))
        = map RawFile (new_dir 7 "/s" listing
            :: map MsgBlock (blocks_from demo_compress 7 "/s" listing 0 (zip listing contents))
               ++ [MsgDone 7 2])%list.
Proof.
  split; [vm_compute; reflexivity|]. exists [[9; 9; 9; 9]%Z; []]. split; [reflexivity|].
  refine (proj2 (download_served Demo.env denv 7 "/s" true listing [[9; 9; 9; 9]%Z; []] desk
    _ _ _ _ _ _ _ _ _ _ _ _ 5 _)).
  - exact demo_short_law.
  - reflexivity.
  - reflexivity.
  - eexists. reflexivity.
  - reflexivity.
  - vm_compute. reflexivity.
  - vm_compute. reflexivity.
  - reflexivity.
  - vm_compute. reflexivity.
  - vm_compute. reflexivity.
  - vm_compute. reflexivity.
  - repeat constructor; eexists _, _; (split; [vm_compute; reflexivity|]);
      (split; [vm_compute; reflexivity|]); reflexivity.
  - vm_compute. lia.
Defined.
