(* ===== verification/Remote.v ===== *)
(** * The file jobs of a client's session

    [src/client/io_loop.rs]: the message loop [Remote] of the controlling side, as
    far as it moves files.  [handle_msg_from_ui] does what the user asks (send and
    fetch files, remove, create, rename, cancel, resume, decide about files that
    exist), [handle_file_response] what the peer answers; the timer drives the jobs
    that read, and [handle_job_status] both reports to the interface and drives the
    removal of a directory, file by file.

    [Remote] keeps the fields of the struct these use, the user's files, and what was
    sent to the peer, to the interface and to the loop's own queue.  What a job
    does is [Transfer]; listings and checks are [Fs]. *)

From S2P Require Import Prelude Strs Vfs Fs Transfer Version Cm Dispatch.
From Stdlib Require Import Ascii String.

Local Open Scope string_scope.
#[local] Abbreviation length := Datatypes.length.
#[local] Arguments String.append _ _ : simpl nomatch.

(** ** Data *)

(** [client::Data]. *)
Module Ui.
Inductive t :=
| SendFiles (id : Z) (ty : JobType) (path to : string) (file_num : Z) (include_hidden is_remote : bool)
| AddJob (id : Z) (ty : JobType) (path to : string) (file_num : Z) (include_hidden is_remote : bool)
| ResumeJob (id : Z) (is_remote : bool)
| SetNoConfirm (id : Z)
| ConfirmDeleteFiles (id file_num : Z)
| SetConfirmOverrideFile (id file_num : Z) (need_override remember is_upload : bool)
| RemoveDirAll (id : Z) (path : string) (is_remote include_hidden : bool)
| CancelJob (id : Z)
| RemoveDir (id : Z) (path : string)
| RemoveFile (id : Z) (path : string) (file_num : Z) (is_remote : bool)
| CreateDir (id : Z) (path : string) (is_remote : bool)
| RenameFile (id : Z) (path new_name : string) (is_remote : bool).
End Ui.

(** [file_response::Union]. *)
Inductive Response :=
| RsEmptyDirs (path : string) (empty_dirs : list FileDirectory)
| RsDir (fd : FileDirectory)
| RsDigest (d : FileTransferDigest)
| RsBlock (b : FileTransferBlock)
| RsDone (id file_num : Z)
| RsError (id file_num : Z) (error : string).

(** What goes to the peer: file actions, and the messages of a job that reads. *)
Inductive ToPeer := TpAction (a : FileAction) | TpFile (m : FileMessage).

(** Calls of the interface; a speed is bytes and the milliseconds they took. *)
Inductive UiCall :=
| JobDone (id file_num : Z)
| JobError (id : Z) (err : string) (file_num : Z)
| JobProgress (id file_num transferred elapsed finished_size : Z)
| UpdateFolderFiles (id : Z) (entries : list FileEntry) (path : string) (is_local only_count : bool)
| UpdateEmptyDirs (path : string) (empty_dirs : list FileDirectory)
| UiConfirmDelete (id i : Z) (name : string)
| OverrideFileConfirm (id file_num : Z) (to : string) (is_upload is_identical : bool).

Record RemoveJob := mkRemoveJob {
  rj_files : list FileEntry; rj_path : string; rj_sep : string; rj_is_remote : bool;
  rj_no_confirm : bool; rj_last_update : Z
}.
#[global] Instance eta_RemoveJob : Settable RemoveJob := λ j,
  mkRemoveJob (rj_files j) (rj_path j) (rj_sep j) (rj_is_remote j) (rj_no_confirm j) (rj_last_update j).

Record Remote := mkRemote {
  r_read_jobs : list TransferJob;
  r_write_jobs : list TransferJob;
  r_remove_jobs : gmap Z RemoveJob;
  r_fast : bool;                          (* the timer ticks every ms, not every 30 s *)
  r_last_update : Z;                      (* last_update_jobs_status.0 *)
  r_last_transferred : gmap Z Z;          (* last_update_jobs_status.1 *)
  r_is_connected : bool;
  r_fs : vfs;
  r_transfer : list string * list string; (* the peer configuration's read_jobs and write_jobs *)
  r_queue : list Ui.t;                    (* self.sender *)
  r_peer : list ToPeer;
  r_ui : list UiCall
}.
#[global] Instance eta_Remote : Settable Remote := λ r,
  mkRemote (r_read_jobs r) (r_write_jobs r) (r_remove_jobs r) (r_fast r) (r_last_update r)
    (r_last_transferred r) (r_is_connected r) (r_fs r) (r_transfer r) (r_queue r) (r_peer r) (r_ui r).

Section Remote.
Context (decompress compress : list Z → list Z).
Context (json_of_digest : FileDigest → list Z) (digest_of_json : list Z → option FileDigest).
Context (set_file_mtime : vfs → string → Z → vfs).
Context (short : nat → nat).
Context (dir_order : list string → list string).
(** [to_string] of an error, and [serde_json] of what is remembered of a job. *)
Context (error_text : error → string) (meta_json : TransferJobMeta → string).
(** [cfg!(windows)], [lc.version], [peer_platform]. *)
Context (windows : bool) (version : Z) (peer_platform : string).

Definition Rm (A : Type) : Type := Remote → A * Remote.
#[global] Instance Rm_ret : MRet Rm := λ A a r, (a, r).
#[global] Instance Rm_bind : MBind Rm := λ A B f m r, let '(a, r) := m r in f a r.
Definition get {A} (f : Remote → A) : Rm A := λ r, (f r, r).
Definition set_ (f : Remote → Remote) : Rm unit := λ r, (tt, f r).
Definition peer_send (m : ToPeer) : Rm unit := set_ (λ r, r <| r_peer := (r_peer r ++ [m])%list |>).
Definition ui (c : UiCall) : Rm unit := set_ (λ r, r <| r_ui := (r_ui r ++ [c])%list |>).
Definition enqueue (d : Ui.t) : Rm unit := set_ (λ r, r <| r_queue := (r_queue r ++ [d])%list |>).
Definition put_read_jobs (jobs : list TransferJob) (v : vfs) : Rm unit :=
  set_ (λ r, r <| r_read_jobs := jobs |> <| r_fs := v |>).
Definition put_write_jobs (jobs : list TransferJob) (v : vfs) : Rm unit :=
  set_ (λ r, r <| r_write_jobs := jobs |> <| r_fs := v |>).

Definition get_path_sep (is_remote : bool) : string :=
  if is_remote then (if String.eqb peer_platform "Windows" then "\" else "/")
  else if windows then "\" else "/".

(** ** The state of a job *)

Definition handle_job_status (now i fn : Z) (err : option string) : Rm unit :=
  let report := ui (match err with Some err => JobError i err fn | None => JobDone i fn end) in
  job ← get (λ r, r_remove_jobs r !! i);
  match job with
  | Some job =>
      if rj_no_confirm job then
        let n := to_usize (i32_succ fn) in
        match (if n <? Z.of_nat (length (rj_files job)) then rj_files job !! Z.to_nat n else None)%Z with
        | Some f =>
            enqueue (Ui.RemoveFile i (rj_path job ++ rj_sep job ++ fe_name f) (swrap 32 n) (rj_is_remote job));;
            if (1000 <=? swrap 32 (elapsed_ms now (rj_last_update job)))%Z then
              set_ (λ r, r <| r_remove_jobs := <[i := job <| rj_last_update := now |>]> (r_remove_jobs r) |>);;
              report
            else mret ()
        | None => set_ (λ r, r <| r_remove_jobs := delete i (r_remove_jobs r) |>);; report
        end
      else report
  | None => report
  end.

Definition update_job_status (elapsed : Z) (job : TransferJob) : Rm unit :=
  if (elapsed <=? 0)%Z then mret () else
  last ← get (λ r, default 0%Z (r_last_transferred r !! id job));
  set_ (λ r, r <| r_last_transferred := <[id job := transferred job]> (r_last_transferred r) |>);;
  ui (JobProgress (id job) (swrap 32 (file_num job - 1)) (u64 (transferred job - last)) elapsed
        (finished_size job)).

Fixpoint each_job (f : TransferJob → Rm unit) (jobs : list TransferJob) : Rm unit :=
  match jobs with [] => mret () | j :: jobs => f j;; each_job f jobs end.

Definition update_jobs_status (now : Z) : Rm unit :=
  last ← get r_last_update; reads ← get r_read_jobs; writes ← get r_write_jobs;
  let elapsed := swrap 32 (elapsed_ms now last) in
  if (1000 <=? elapsed)%Z then
    each_job (update_job_status elapsed) reads;;
    each_job (update_job_status elapsed) writes;;
    set_ (λ r, r <| r_last_update := now |>)
  else mret ().

Definition sync_jobs_status_to_local : Rm bool :=
  connected ← get r_is_connected;
  if negb connected then mret false else
  set_ (λ r, r <| r_transfer := (map (λ j, meta_json (gen_meta j)) (r_read_jobs r),
                                 map (λ j, meta_json (gen_meta j)) (r_write_jobs r)) |>);;
  mret true.

(** ** What the user asks *)

Definition to_unix (files : list FileEntry) : list FileEntry :=
  if windows && negb (String.eqb peer_platform "Windows") then transform_windows_path files else files.

Definition as_last_job (j : TransferJob) : TransferJob := j <| is_last_job := true |>.
Definition as_resumed (j : TransferJob) : TransferJob := j <| is_last_job := false |> <| is_resume := true |>.

(** [SendFiles], and [AddJob] with [last]. *)
Definition start_job (now : Z) (last : bool) (i : Z) (ty : JobType) (path to : string) (fn : Z)
    (include_hidden is_remote : bool) : Rm unit :=
  let od := can_enable_overwrite_detection version in
  let mark j := if last then as_last_job j else j in
  if is_remote then
    let dest := if negb last && bool_decide (ty = Printer) then MemoryCursor [] else FilePath to in
    set_ (λ r, r <| r_write_jobs :=
            (r_write_jobs r ++ [mark (new_write i ty path dest fn include_hidden is_remote od)])%list |>);;
    if last then mret () else peer_send (TpFile (new_send i ty path fn include_hidden))
  else
    v ← get r_fs;
    match new_read dir_order v i ty to (FilePath path) fn include_hidden is_remote od with
    | Err err => handle_job_status now i (-1) (Some (error_text err))
    | Ok job =>
        ui (UpdateFolderFiles i (files job) path true true);;
        set_ (λ r, r <| r_read_jobs := (r_read_jobs r ++ [mark job])%list |> <| r_fast := true |>);;
        if last then mret ()
        else peer_send (TpFile (new_receive i to fn (to_unix (files job)) (total_size job)))
    end.

Definition resume_job (i : Z) (is_remote : bool) : Rm unit :=
  v ← get r_fs;
  if is_remote then
    jobs ← get r_write_jobs;
    match get_job_by_id i jobs, with_job i (modify_job as_resumed) jobs v with
    | Some job, Some (_, jobs, v) =>
        put_write_jobs jobs v;;
        peer_send (TpFile (new_send i Generic (remote job) (file_num job) (show_hidden job)))
    | _, _ => mret ()
    end
  else
    jobs ← get r_read_jobs;
    match get_job_by_id i jobs,
          with_job i (modify_job (λ j, set_finished_size_on_resume (as_resumed j))) jobs v with
    | Some job, Some (_, jobs, v) =>
        match data_source job with
        | FilePath _ =>
            put_read_jobs jobs v;;
            peer_send (TpFile (new_receive i (remote job) (file_num job) (to_unix (files job)) (total_size job)))
        | MemoryCursor _ => mret ()
        end
    | _, _ => mret ()
    end.

(** The user's answer about a file that exists. *)
Definition override_answer (i fn : Z) (need_override : bool) : FileTransferSendConfirmRequest :=
  {| cr_id := i; cr_file_num := fn; cr_union := Some (if need_override then OffsetBlk 0 else Skip true) |}.

Definition decide_job (need_override remember : bool) (r : FileTransferSendConfirmRequest) : J unit :=
  modify_job (λ j, if remember then set_overwrite_strategy (Some need_override) j else j) ≫= λ _, confirm r.

Definition set_confirm_override_file (i fn : Z) (need_override remember is_upload : bool) : Rm unit :=
  let req := override_answer i fn need_override in
  v ← get r_fs;
  if is_upload then
    jobs ← get r_read_jobs;
    match with_job i (decide_job need_override remember req) jobs v with
    | Some (_, jobs, v) => put_read_jobs jobs v
    | None => mret ()
    end
  else
    jobs ← get r_write_jobs;
    match with_job i (decide_job need_override remember req) jobs v with
    | Some (_, jobs, v) => put_write_jobs jobs v;; peer_send (TpAction (FaSendConfirm req))
    | None => mret ()
    end.

Definition put_remove_job (now i : Z) (files : list FileEntry) (path : string) (is_remote : bool) : Rm unit :=
  set_ (λ r, r <| r_remove_jobs :=
    <[i := mkRemoveJob files path (get_path_sep is_remote) is_remote false now]> (r_remove_jobs r) |>).

Definition remove_dir_all (now i : Z) (path : string) (is_remote include_hidden : bool) : Rm unit :=
  if is_remote then
    peer_send (TpAction (FaAllFiles i path include_hidden));;
    put_remove_job now i [] path is_remote
  else
    v ← get r_fs;
    match get_recursive_files dir_order v path include_hidden with
    | Ok entries =>
        ui (UpdateFolderFiles i entries path true false);; put_remove_job now i entries path is_remote
    | Err err => handle_job_status now i (-1) (Some (error_text err))
    end.

Definition cancel_job (i : Z) : Rm unit :=
  peer_send (TpAction (FaCancel i));;
  writes ← get r_write_jobs; v ← get r_fs;
  match take_job i writes with
  | Some (job, rest) =>
      let '(_, _, v, _) := run_job remove_download_file job v [] in put_write_jobs rest v
  | None => mret ()
  end;;
  set_ (λ r, r <| r_read_jobs := remove_job i (r_read_jobs r) |>
               <| r_remove_jobs := delete i (r_remove_jobs r) |>).

(** A command on the user's own files: its result, and the file system it leaves. *)
Definition local_command (now i fn : Z) (run : vfs → result error unit * vfs) : Rm unit :=
  v ← get r_fs;
  let '(res, v) := run v in
  set_ (λ r, r <| r_fs := v |>);;
  match res with
  | Ok _ => handle_job_status now i fn None
  | Err err => handle_job_status now i fn (Some (error_text err))
  end.
(** Of one that changes nothing when it fails. *)
Definition leaving (res : result error vfs) (v : vfs) : result error unit * vfs :=
  (res ≫= λ _, Ok tt, ok_or_same res v).

Definition handle_msg_from_ui (now : Z) (data : Ui.t) : Rm unit :=
  match data with
  | Ui.SendFiles i ty path to fn include_hidden is_remote =>
      start_job now false i ty path to fn include_hidden is_remote
  | Ui.AddJob i ty path to fn include_hidden is_remote =>
      start_job now true i ty path to fn include_hidden is_remote
  | Ui.ResumeJob i is_remote => resume_job i is_remote
  | Ui.SetNoConfirm i =>
      set_ (λ r, r <| r_remove_jobs := alter (λ j, j <| rj_no_confirm := true |>) i (r_remove_jobs r) |>)
  | Ui.ConfirmDeleteFiles i fn =>
      job ← get (λ r, r_remove_jobs r !! i);
      match job with
      | Some job =>
          let n := to_usize fn in
          match (if n <? Z.of_nat (length (rj_files job)) then rj_files job !! Z.to_nat n else None)%Z with
          | Some f => ui (UiConfirmDelete i fn (fe_name f))
          | None => mret ()
          end
      | None => mret ()
      end
  | Ui.SetConfirmOverrideFile i fn need_override remember is_upload =>
      set_confirm_override_file i fn need_override remember is_upload
  | Ui.RemoveDirAll i path is_remote include_hidden => remove_dir_all now i path is_remote include_hidden
  | Ui.CancelJob i => cancel_job i
  | Ui.RemoveDir i path => peer_send (TpAction (FaRemoveDir {| rd_id := i; rd_path := path; rd_recursive := true |}))
  | Ui.RemoveFile i path fn is_remote =>
      if is_remote then peer_send (TpAction (FaRemoveFile {| rf_id := i; rf_path := path; rf_file_num := fn |}))
      else local_command now i fn (λ v, leaving (remove_file v path) v)
  | Ui.CreateDir i path is_remote =>
      if is_remote then peer_send (TpAction (FaCreate i path))
      else local_command now i (-1) (λ v, create_dir v path)
  | Ui.RenameFile i path new_name is_remote =>
      if is_remote then peer_send (TpAction (FaRename i path new_name))
      else local_command now i (-1) (λ v, leaving (rename_file windows v path new_name) v)
  end.

(** ** What the peer answers *)

Definition from_peer_names (entries : list FileEntry) : list FileEntry :=
  if negb windows && String.eqb peer_platform "Windows" then transform_windows_path entries else entries.

(** [job.set_files(..)]: its error is dropped. *)
Definition set_files_ignored (v : vfs) (entries : list FileEntry) (j : TransferJob) : TransferJob :=
  set_finished_size_on_resume (match set_files v entries j with Ok j => j | Err _ => j end).

Definition handle_dir (fd : FileDirectory) : Rm unit :=
  let entries := from_peer_names (fd_entries fd) in
  ui (UpdateFolderFiles (fd_id fd) entries (fd_path fd) false false);;
  jobs ← get r_write_jobs; v ← get r_fs;
  match with_job (fd_id fd) (modify_job (set_files_ignored v entries)) jobs v with
  | Some (_, jobs, v) => put_write_jobs jobs v
  | None =>
      set_ (λ r, r <| r_remove_jobs := alter (λ j, j <| rj_files := entries |>) (fd_id fd) (r_remove_jobs r) |>)
  end.

(** The strategy for a file that exists and the offset to go on from. *)
Definition overwrite_of (job : TransferJob) (d : FileTransferDigest) : option bool * Z :=
  if td_is_identical d && is_resume job && (0 <? td_transferred_size d)%Z
  then (Some true, wrap 32 (td_transferred_size d))
  else (default_overwrite_strategy job, 0%Z).

Definition digest_answer (d : FileTransferDigest) (u : ConfirmUnion) : FileTransferSendConfirmRequest :=
  {| cr_id := td_id d; cr_file_num := td_file_num d; cr_union := Some u |}.

Definition decision (overwrite : bool) (offset : Z) : ConfirmUnion :=
  if overwrite then OffsetBlk offset else Skip true.

(** [job.confirm(&req)] on a job of the list, and the message that says so. *)
Definition confirm_read (d : FileTransferDigest) (u : ConfirmUnion) : Rm unit :=
  jobs ← get r_read_jobs; v ← get r_fs;
  match with_job (td_id d) (confirm (digest_answer d u)) jobs v with
  | Some (_, jobs, v) => put_read_jobs jobs v
  | None => mret ()
  end;;
  peer_send (TpFile (new_send_confirm (digest_answer d u))).
Definition confirm_write (d : FileTransferDigest) (u : ConfirmUnion) : Rm unit :=
  jobs ← get r_write_jobs; v ← get r_fs;
  match with_job (td_id d) (confirm (digest_answer d u)) jobs v with
  | Some (_, jobs, v) => put_write_jobs jobs v
  | None => mret ()
  end;;
  peer_send (TpFile (new_send_confirm (digest_answer d u))).

Definition upload_digest (d : FileTransferDigest) : Rm unit :=
  jobs ← get r_read_jobs;
  match get_job_by_id (td_id d) jobs with
  | None => mret ()
  | Some job =>
      match entry_at job (td_file_num d), data_source job with
      | Some file, FilePath p =>
          match overwrite_of job d with
          | (Some overwrite, offset) => confirm_read d (decision overwrite offset)
          | (None, _) =>
              ui (OverrideFileConfirm (td_id d) (td_file_num d) (join p (fe_name file)) true (td_is_identical d))
          end
      | _, _ => mret ()
      end
  end.

Definition download_digest (d : FileTransferDigest) : Rm unit :=
  jobs ← get r_write_jobs; v ← get r_fs;
  match get_job_by_id (td_id d) jobs with
  | None => mret ()
  | Some job =>
      match entry_at job (td_file_num d), data_source job with
      | Some file, FilePath p =>
          let write_path := join p (fe_name file) in
          match with_job (td_id d) (modify_job (set_digest (td_file_size d) (td_last_modified d))) jobs v with
          | Some (_, jobs, v) => put_write_jobs jobs v
          | None => mret ()
          end;;
          match is_write_need_confirmation digest_of_json v
                  (is_support_file_transfer_resume_num version && is_resume job) write_path d with
          | Ok IsSame => confirm_write d (Skip true)
          | Ok (NeedConfirm d) =>
              match overwrite_of job d with
              | (Some overwrite, offset) => confirm_write d (decision overwrite offset)
              | (None, _) =>
                  ui (OverrideFileConfirm (td_id d) (td_file_num d) write_path false (td_is_identical d))
              end
          | Ok NoSuchFile => confirm_write d (OffsetBlk 0)
          | Err _ => mret ()
          end
      | _, _ => mret ()
      end
  end.

Definition handle_block (now : Z) (b : FileTransferBlock) : Rm unit :=
  jobs ← get r_write_jobs; v ← get r_fs;
  match get_job_by_id (blk_id b) jobs,
        with_job (blk_id b) (write decompress json_of_digest set_file_mtime b) jobs v with
  | Some job, Some (_, jobs, v) =>
      put_write_jobs jobs v;;
      if bool_decide (type job = Generic) then update_jobs_status now else mret ()
  | _, _ => mret ()
  end.

(** On Linux printer data is only logged. *)
Definition handle_done (now i fn : Z) : Rm unit :=
  jobs ← get r_write_jobs; v ← get r_fs;
  match take_job i jobs with
  | Some (job, rest) =>
      let '(_, job, v, _) := run_job (modify_time set_file_mtime) job v [] in
      put_write_jobs rest v;;
      match type job with
      | Generic => handle_job_status now i fn (job_error job)
      | Printer => mret ()
      end
  | None => handle_job_status now i fn None
  end.

Definition handle_error (now i fn : Z) (error : string) : Rm unit :=
  writes ← get r_write_jobs; reads ← get r_read_jobs;
  let job := match get_job_by_id i writes with Some j => Some j | None => get_job_by_id i reads end in
  match get_job_by_id i writes with
  | Some _ => set_ (λ r, r <| r_write_jobs := remove_job i writes |>)
  | None => set_ (λ r, r <| r_read_jobs := remove_job i reads |>)
  end;;
  match (match job with Some j => type j | None => Generic end) with
  | Generic => handle_job_status now i fn (Some error)
  | Printer => mret ()
  end.

Definition handle_file_response (now : Z) (fr : Response) : Rm unit :=
  match fr with
  | RsEmptyDirs path dirs => ui (UpdateEmptyDirs path dirs)
  | RsDir fd => handle_dir fd
  | RsDigest d => if td_is_upload d then upload_digest d else download_digest d
  | RsBlock b => handle_block now b
  | RsDone i fn => handle_done now i fn
  | RsError i fn error => handle_error now i fn error
  end.

(** [FileAction::SendConfirm] from the peer. *)
Definition handle_send_confirm (c : FileTransferSendConfirmRequest) : Rm unit :=
  jobs ← get r_read_jobs; v ← get r_fs;
  match with_job (cr_id c) (confirm c) jobs v with
  | Some (_, jobs, v) => put_read_jobs jobs v
  | None => mret ()
  end.

(** ** The loop *)

(** The timer, once the peer was heard of in the last 30 s. *)
Definition on_timer (now : Z) : Rm unit :=
  jobs ← get r_read_jobs; v ← get r_fs;
  if bool_decide (jobs = []) then set_ (λ r, r <| r_fast := false |>) else
  let '(jobs, v, out) := handle_read_jobs compress short jobs v in
  put_read_jobs jobs v;;
  set_ (λ r, r <| r_peer := (r_peer r ++ map TpFile out)%list |>);;
  update_jobs_status now.

(** The next of the messages the loop sends itself. *)
Definition on_queue (now : Z) : Rm unit :=
  queue ← get r_queue;
  match queue with
  | [] => mret ()
  | d :: rest => set_ (λ r, r <| r_queue := rest |>);; handle_msg_from_ui now d
  end.

Inductive RemoteInput :=
| FromUi (d : Ui.t)
| FromPeer (fr : Response)
| FromPeerConfirm (c : FileTransferSendConfirmRequest)
| OnTimer
| OnQueue.

Definition remote_step (now : Z) (i : RemoteInput) : Rm unit :=
  match i with
  | FromUi d => handle_msg_from_ui now d
  | FromPeer fr => handle_file_response now fr
  | FromPeerConfirm c => handle_send_confirm c
  | OnTimer => on_timer now
  | OnQueue => on_queue now
  end.
End Remote.
