(* ===== verification/RemoteSafety.v ===== *)
(** * What a client's file jobs keep and do

    Theorems on [Remote]: every integer of a job, of a queued message and of a report
    stays within its machine type ([remote_typed_steps]); the removal of a directory
    goes through all its files ([removal_completes]); and a listing whose names are
    refused is still reported as done. *)

From S2P Require Import Prelude Strs Vfs Fs Transfer Jobs Receive Send Version Cm Dispatch Remote.
From Stdlib Require Import Ascii String.

Local Open Scope list_scope.
#[local] Abbreviation length := Datatypes.length.
#[local] Arguments String.append _ _ : simpl nomatch.

Section Safety.
Context (decompress compress : list Z → list Z).
Context (json_of_digest : FileDigest → list Z) (digest_of_json : list Z → option FileDigest).
Context (set_file_mtime : vfs → string → Z → vfs).
Context (short : nat → nat).
Context (dir_order : list string → list string).
Context (error_text : error → string) (meta_json : TransferJobMeta → string).
Context (windows : bool) (version : Z) (peer_platform : string).
#[local] Abbreviation handle_msg_from_ui := (handle_msg_from_ui dir_order error_text windows version peer_platform).
#[local] Abbreviation handle_file_response :=
  (handle_file_response decompress json_of_digest digest_of_json set_file_mtime windows version peer_platform).
#[local] Abbreviation remote_step :=
  (remote_step decompress compress json_of_digest digest_of_json set_file_mtime short dir_order error_text
     windows version peer_platform).

(** ** Programs of the loop that keep a property *)

Section Keeps.
Context (R : Remote → Prop).
Definition rkeeps {A} (m : Rm A) : Prop := ∀ r, R r → R (m r).2.

Lemma rkeeps_ret {A} (a : A) : rkeeps (mret a).
Proof. by intros r. Qed.

Lemma rkeeps_bind {A B} (m : Rm A) (f : A → Rm B) : rkeeps m → (∀ a, rkeeps (f a)) → rkeeps (m ≫= f).
Proof.
  intros Hm Hf r Hr. unfold mbind, Rm_bind. specialize (Hm r Hr). destruct (m r) as [a r1]. by apply Hf.
Qed.

Lemma rkeeps_get {A B} (f : Remote → A) (k : A → Rm B) : (∀ r, R r → rkeeps (k (f r))) → rkeeps (Remote.get f ≫= k).
Proof. intros H r Hr. by apply (H r Hr). Qed.

Lemma rkeeps_set f : (∀ r, R r → R (f r)) → rkeeps (set_ f).
Proof. intros H r Hr. by apply H. Qed.
End Keeps.

Lemma with_job_keeps {A} P i (m : J A) jobs v r jobs' v' :
  jkeeps P m → Forall P jobs → with_job i m jobs v = Some (r, jobs', v') → Forall P jobs'.
Proof.
  intros Hm H. revert r jobs' v'. induction H as [|j jobs Hj Hjs IH]; intros r jobs' v'; cbn [with_job]; [done|].
  destruct (id j =? i)%Z.
  - destruct (run_job m j v []) as [[[r1 j1] v1] out1] eqn:E. intros [= _ <- _]. constructor; [|done].
    by eapply keeps_run.
  - destruct (with_job i m jobs v) as [[[r1 js1] v1]|]; [|done]. intros [= -> <- ->]. constructor; [done|]. by eapply IH.
Qed.

Lemma get_job_keeps P i jobs j : Forall P jobs → get_job_by_id i jobs = Some j → P j.
Proof.
  intros H E. unfold get_job_by_id in E. apply List.find_some in E as [Hin _].
  rewrite Forall_forall in H. by apply H, list_elem_of_In.
Qed.

(** ** Machine types *)

Definition i32 : Z → Prop := sint 32.
Definition u64_ok : Z → Prop := uint 64.

Definition ui_in_typed (d : Ui.t) : Prop :=
  match d with
  | Ui.SendFiles i _ _ _ fn _ _ | Ui.AddJob i _ _ _ fn _ _ | Ui.RemoveFile i _ fn _
  | Ui.ConfirmDeleteFiles i fn | Ui.SetConfirmOverrideFile i fn _ _ _ => i32 i ∧ i32 fn
  | Ui.ResumeJob i _ | Ui.SetNoConfirm i | Ui.RemoveDirAll i _ _ _ | Ui.CancelJob i | Ui.RemoveDir i _
  | Ui.CreateDir i _ _ | Ui.RenameFile i _ _ _ => i32 i
  end.

Definition response_typed (fr : Response) : Prop :=
  match fr with
  | RsEmptyDirs _ _ => True
  | RsDir fd => i32 (fd_id fd)
  | RsDigest d => i32 (td_id d) ∧ i32 (td_file_num d)
  | RsBlock b => i32 (blk_id b) ∧ i32 (blk_file_num b)
  | RsDone i fn | RsError i fn _ => i32 i ∧ i32 fn
  end.

Definition input_typed (i : RemoteInput) : Prop :=
  match i with FromUi d => ui_in_typed d | FromPeer fr => response_typed fr | _ => True end.

Definition report_typed (c : UiCall) : Prop :=
  match c with
  | JobDone i fn | JobError i _ fn | UiConfirmDelete i fn _ | OverrideFileConfirm i fn _ _ _ => i32 i ∧ i32 fn
  | JobProgress i fn transferred elapsed finished =>
      i32 i ∧ i32 fn ∧ u64_ok transferred ∧ i32 elapsed ∧ u64_ok finished
  | UpdateFolderFiles i _ _ _ _ => i32 i
  | UpdateEmptyDirs _ _ => True
  end.

Record remote_typed (r : Remote) : Prop := {
  rt_read : Forall job_typed (r_read_jobs r);
  rt_write : Forall job_typed (r_write_jobs r);
  rt_queue : Forall ui_in_typed (r_queue r);
  rt_ui : Forall report_typed (r_ui r)
}.
#[local] Abbreviation K := (rkeeps remote_typed).

Lemma typed_ui c : report_typed c → K (ui c).
Proof. intros Hc. apply rkeeps_set. intros r []. split; try done. apply Forall_app. by split; [|constructor]. Qed.

Lemma typed_send m : K (peer_send m).
Proof. apply rkeeps_set. by intros r []. Qed.

Lemma typed_put_read jobs v : Forall job_typed jobs → K (put_read_jobs jobs v).
Proof. intros Hj. apply rkeeps_set. by intros r []. Qed.

Lemma typed_put_write jobs v : Forall job_typed jobs → K (put_write_jobs jobs v).
Proof. intros Hj. apply rkeeps_set. by intros r []. Qed.

(** Steps through a program, one construct at a time. *)
Ltac rkeep :=
  repeat (match goal with
  | |- rkeeps _ (mret _) => apply rkeeps_ret
  | |- rkeeps _ (Remote.get _ ≫= _) => apply rkeeps_get; intros ? []
  | |- rkeeps _ (_ ≫= _) => apply rkeeps_bind; [|intros ?]
  | |- rkeeps _ (peer_send _) => apply typed_send
  | |- rkeeps _ (ui _) => apply typed_ui
  | |- rkeeps _ (put_read_jobs _ _) => apply typed_put_read
  | |- rkeeps _ (put_write_jobs _ _) => apply typed_put_write
  | |- rkeeps _ (set_ _) => apply rkeeps_set; intros ? []; split; try done
  | |- rkeeps _ (if _ then _ else _) => case_match
  | |- rkeeps _ (let _ := _ in _) => cbv zeta
  | |- rkeeps _ (match ?x with _ => _ end) => let E := fresh "E" in destruct x eqn:E
  end).

Lemma i32_swrap z : i32 (swrap 32 z).
Proof. apply swrap_sint. lia. Qed.
Lemma u64_wrap z : u64_ok (u64 z).
Proof. apply wrap_uint. lia. Qed.
Create HintDb typed.
Lemma i32_minus1 : i32 (-1).
Proof. split; lia. Qed.
#[local] Hint Resolve i32_swrap u64_wrap i32_minus1 : typed.

Lemma typed_status now i fn err : i32 i → i32 fn → K (handle_job_status now i fn err).
Proof.
  intros Hi Hfn. unfold handle_job_status, enqueue.
  assert (report_typed (match err with Some err => JobError i err fn | None => JobDone i fn end)) as Hr
    by (by destruct err).
  cbv zeta. rkeep; try exact Hr; apply Forall_app; (split; [done|]); (constructor; [split; [done|apply i32_swrap]|constructor]).
Qed.

Lemma typed_progress elapsed j : i32 elapsed → job_typed j → K (update_job_status elapsed j).
Proof. intros He []. unfold update_job_status. rkeep. cbn. auto 10 with typed. Qed.

Lemma typed_each elapsed jobs : i32 elapsed → Forall job_typed jobs → K (each_job (update_job_status elapsed) jobs).
Proof. intros He. induction 1; cbn [each_job]; rkeep; [|done]. by apply typed_progress. Qed.

Lemma typed_jobs_status now : K (update_jobs_status now).
Proof. unfold update_jobs_status. rkeep; apply typed_each; auto with typed. Qed.
#[local] Hint Resolve typed_status typed_jobs_status typed_send typed_put_read typed_put_write : typed.

Lemma typed_marked (last : bool) j : job_typed j → job_typed (if last then as_last_job j else j).
Proof. intros []. by destruct last. Qed.

Lemma new_read_typed v i ty to p fn hidden is_remote od job :
  i32 i → i32 fn → new_read dir_order v i ty to (FilePath p) fn hidden is_remote od = Ok job → job_typed job.
Proof.
  intros Hi Hfn. unfold new_read. rewrite bind_ok. intros (fs & _ & [= <-]). apply mk_job_typed; auto using sum_sizes_typed.
Qed.

Lemma new_write_typed i ty path dest fn hidden is_remote od :
  i32 i → i32 fn → job_typed (new_write i ty path dest fn hidden is_remote od).
Proof. intros. apply mk_job_typed; [done..|]. split; lia. Qed.

Lemma typed_start now last i ty path to fn hidden is_remote :
  i32 i → i32 fn → K (start_job dir_order error_text windows version peer_platform now last i ty path to fn hidden is_remote).
Proof.
  intros Hi Hfn. unfold start_job. rkeep; auto with typed; try done;
    apply Forall_app; (split; [done|]); (constructor; [|done]); apply (typed_marked last).
  - apply new_write_typed; [exact Hi|exact Hfn].
  - eapply new_read_typed; [exact Hi|exact Hfn|eassumption].
Qed.

(** A job of a list after an operation that keeps its types. *)
Lemma with_job_typed {A} i (m : J A) jobs v r jobs' v' :
  with_job i m jobs v = Some (r, jobs', v') → jkeeps job_typed m → Forall job_typed jobs → Forall job_typed jobs'.
Proof. intros E Hm H. by eapply with_job_keeps. Qed.

Ltac jobs_typed := match goal with E : with_job _ _ _ _ = Some _ |- Forall job_typed _ =>
  apply (with_job_typed _ _ _ _ _ _ _ E); [|done] end.

Lemma typed_resumed j : job_typed j → job_typed (as_resumed j).
Proof. by intros []. Qed.
Lemma typed_finished_size j : job_typed j → job_typed (set_finished_size_on_resume j).
Proof. intros []. unfold set_finished_size_on_resume. case_match; [|by split]. split; try done. apply sum_sizes_typed. Qed.
Lemma keeps_confirm_typed r : jkeeps job_typed (confirm r).
Proof. apply (keeps_confirm _ (sint 32)); apply job_typed_stable. Qed.
#[local] Hint Resolve typed_resumed typed_finished_size keeps_confirm_typed : typed.

Lemma typed_resume i is_remote : K (resume_job windows peer_platform i is_remote).
Proof.
  unfold resume_job. rkeep; auto with typed; jobs_typed; apply jkeeps_modify; auto with typed.
Qed.

Lemma typed_override i fn need remember is_upload : K (set_confirm_override_file i fn need remember is_upload).
Proof.
  unfold set_confirm_override_file, decide_job. rkeep; auto with typed; jobs_typed;
    (apply jkeeps_bind; [apply jkeeps_modify; intros j []; by destruct remember|auto with typed]).
Qed.

Lemma typed_remove_dir_all now i path is_remote hidden :
  i32 i → K (remove_dir_all dir_order error_text windows peer_platform now i path is_remote hidden).
Proof. intros Hi. unfold remove_dir_all, put_remove_job. rkeep; auto with typed. Qed.

Lemma take_job_typed i jobs j rest :
  take_job i jobs = Some (j, rest) → Forall job_typed jobs → Forall job_typed rest.
Proof.
  unfold take_job. case_match; [|done]. intros [= _ <-]. by apply keeps_remove_job.
Qed.

Lemma typed_cancel i : K (cancel_job i).
Proof.
  unfold cancel_job. rkeep; auto with typed.
  - subst. by eapply take_job_typed.
  - by apply keeps_remove_job.
Qed.

Lemma typed_local now i fn res : i32 i → i32 fn → K (local_command error_text now i fn res).
Proof. intros Hi Hfn. unfold local_command. rkeep; auto with typed. Qed.
#[local] Hint Resolve typed_start typed_resume typed_override typed_remove_dir_all typed_cancel typed_local : typed.

Lemma typed_from_ui now d : ui_in_typed d → K (handle_msg_from_ui now d).
Proof.
  intros Hd. destruct d; cbn in *; try (match type of Hd with _ ∧ _ => destruct Hd as [Hd Hn] end); rkeep; auto with typed; done.
Qed.

Lemma typed_dir fd : i32 (fd_id fd) → K (handle_dir windows peer_platform fd).
Proof.
  intros Hi. unfold handle_dir. rkeep; auto with typed. jobs_typed. apply jkeeps_modify. intros j Hj.
  unfold set_files_ignored. apply typed_finished_size.
  destruct (set_files _ _ _) as [j'|e] eqn:Ej; [|done].
  unfold set_files in Ej. apply bind_ok in Ej as (_ & _ & Ej). apply bind_ok in Ej as (_ & _ & [= <-]).
  destruct Hj. split; try done. apply sum_sizes_typed.
Qed.

Lemma typed_confirm_read d u : K (confirm_read d u).
Proof. unfold confirm_read. rkeep. jobs_typed. auto with typed. Qed.
Lemma typed_confirm_write d u : K (confirm_write d u).
Proof. unfold confirm_write. rkeep. jobs_typed. auto with typed. Qed.
#[local] Hint Resolve typed_dir typed_confirm_read typed_confirm_write : typed.

Lemma need_confirm_ids v is_resume p d d' :
  is_write_need_confirmation digest_of_json v is_resume p d = Ok (NeedConfirm d') →
  td_id d' = td_id d ∧ td_file_num d' = td_file_num d.
Proof.
  unfold is_write_need_confirmation. case_match; [by intros [= <-]|]. case_match; [|done].
  rewrite bind_ok. intros ([l n] & _ & E). case_match; [done|]. by simplify_eq.
Qed.

Lemma typed_digest d :
  i32 (td_id d) → i32 (td_file_num d) → K (upload_digest d) ∧ K (download_digest digest_of_json version d).
Proof.
  intros Hi Hn. split.
  - unfold upload_digest. rkeep; auto with typed. done.
  - unfold download_digest. rkeep; auto with typed.
    + jobs_typed. apply jkeeps_modify. by intros j [].
    + cbn. match goal with E : is_write_need_confirmation _ _ _ _ _ = _ |- _ =>
        apply need_confirm_ids in E as [-> ->] end. done.
Qed.

Lemma typed_response now fr : response_typed fr → K (handle_file_response now fr).
Proof.
  intros Hfr. destruct fr; cbn [Remote.handle_file_response response_typed] in *.
  - by apply typed_ui.
  - auto with typed.
  - destruct Hfr. case_match; by apply typed_digest.
  - unfold handle_block. rkeep; auto with typed. jobs_typed.
    apply (keeps_write _ _ _ _ (sint 32)); [apply job_typed_stable|apply Hfr].
  - destruct Hfr as [Hi Hn]. unfold handle_done. rkeep; auto with typed.
    subst. by eapply take_job_typed.
  - destruct Hfr as [Hi Hn]. unfold handle_error. rkeep; auto with typed; by apply keeps_remove_job.
Qed.

(** The machine types of the file jobs.  Whatever the user asks, the peer
    answers and the timer does, in any order: as long as the ids and file numbers
    that come in are 32-bit integers, the ids, file numbers and connection ids of
    all jobs stay 32-bit signed integers and their sizes 64-bit unsigned ones, and
    so do those in what the loop sends itself and in what it reports. *)
Lemma remote_typed_steps (inputs : list (Z * RemoteInput)) r :
  remote_typed r → Forall (λ i, input_typed i.2) inputs →
  remote_typed (foldl (λ r i, (remote_step i.1 i.2 r).2) r inputs).
Proof.
  intros Hr Hin. revert r Hr. induction Hin as [|[now i] inputs Hi _ IH]; intros r Hr; [done|].
  cbn [foldl]. apply IH. clear IH. cbn [fst snd] in *. revert r Hr. change (K (remote_step now i)).
  destruct i as [d|fr|c| |]; cbn [Remote.remote_step].
  - by apply typed_from_ui.
  - by apply typed_response.
  - unfold handle_send_confirm. rkeep. jobs_typed. auto with typed.
  - unfold on_timer. apply rkeeps_get. intros r0 []. apply rkeeps_get. intros r1 []. case_match; [rkeep|].
    pose proof (keeps_handle_read_jobs compress short job_typed (sint 32) (st_writable _ _ job_typed_stable)
                  job_typed_stable (r_read_jobs r0) (r_fs r1) rt_read0) as H1.
    destruct (handle_read_jobs _ _ _ _) as [[jobs v] out]. rkeep; [exact H1|apply typed_jobs_status].
  - unfold on_queue. apply rkeeps_get. intros r0 [_ _ Hq _]. destruct (r_queue r0) as [|d rest]; [apply rkeeps_ret|].
    inversion_clear Hq. rkeep. by apply typed_from_ui.
Qed.

(** ** Removing a directory *)

Definition rm_path (job : RemoveJob) (f : FileEntry) : string := (rj_path job ++ rj_sep job ++ fe_name f)%string.

(** The removal of [i] as it was asked for, whenever its status was last shown. *)
Definition removing (i : Z) (job : RemoveJob) (r : Remote) : Prop :=
  ∃ t, r_remove_jobs r !! i = Some (job <| rj_last_update := t |>).

Definition outcome_of (i k : Z) (err : option string) : UiCall :=
  match err with Some e => JobError i e k | None => JobDone i k end.

Lemma next_index k : (0 <= k < 2 ^ 31 - 1)%Z → to_usize (i32_succ k) = (k + 1)%Z ∧ swrap 32 (k + 1) = (k + 1)%Z.
Proof.
  intros Hk. assert (sint 32 (k + 1)) by (split; lia).
  unfold to_usize, i32_succ. rewrite !swrap_small by (done || lia). split; [|done].
  apply wrap_small. split; lia.
Qed.

(** A file that is not the last: the next one follows. *)
Lemma status_next now i job k f err r :
  removing i job r → rj_no_confirm job = true → (Z.of_nat (length (rj_files job)) < 2 ^ 31)%Z →
  rj_files job !! S k = Some f →
  let r' := (handle_job_status now i (Z.of_nat k) err r).2 in
  removing i job r' ∧ delete i (r_remove_jobs r') = delete i (r_remove_jobs r) ∧ r_fs r' = r_fs r
  ∧ r_queue r' = r_queue r ++ [Ui.RemoveFile i (rm_path job f) (Z.of_nat (S k)) (rj_is_remote job)]
  ∧ ∃ reports, r_ui r' = r_ui r ++ reports.
Proof.
  intros [t Ht] Hc Hn Hf r'. pose proof (lookup_lt_Some _ _ _ Hf).
  destruct (next_index (Z.of_nat k)) as [E1 E2]; [lia|].
  unfold r', handle_job_status, mbind, Rm_bind, Remote.get. rewrite Ht.
  cbv zeta. change (rj_files (job <| rj_last_update := t |>)) with (rj_files job).
  change (rj_no_confirm (job <| rj_last_update := t |>)) with (rj_no_confirm job). rewrite Hc, E1, E2.
  replace (Z.of_nat k + 1 <? Z.of_nat (length (rj_files job)))%Z with true by lia.
  replace (Z.to_nat (Z.of_nat k + 1)) with (S k) by lia. rewrite Hf.
  replace (Z.of_nat k + 1)%Z with (Z.of_nat (S k)) by lia.
  unfold enqueue, set_, ui. destruct (_ <=? _)%Z; cbn.
  - split; [exists now; cbn; by rewrite lookup_insert_eq|]. split; [by rewrite delete_insert_eq|].
    split; [done|]. split; [done|]. by eexists.
  - split; [by exists t|]. split; [done|]. split; [done|]. split; [done|]. exists []. by rewrite app_nil_r.
Qed.

(** The last file: the removal is over. *)
Lemma status_last now i job k err r :
  removing i job r → rj_no_confirm job = true → (Z.of_nat (length (rj_files job)) < 2 ^ 31)%Z →
  length (rj_files job) = S k →
  (handle_job_status now i (Z.of_nat k) err r).2
  = r <| r_remove_jobs := delete i (r_remove_jobs r) |> <| r_ui := r_ui r ++ [outcome_of i (Z.of_nat k) err] |>.
Proof.
  intros [t Ht] Hc Hn Hl. assert (to_usize (i32_succ (Z.of_nat k)) = Z.of_nat k + 1)%Z as E1.
  { unfold to_usize, i32_succ. destruct (decide (Z.of_nat k = 2 ^ 31 - 1)%Z) as [E|]; [lia|].
    apply next_index. lia. }
  unfold handle_job_status, mbind, Rm_bind, Remote.get. rewrite Ht. cbv zeta.
  change (rj_no_confirm (job <| rj_last_update := t |>)) with (rj_no_confirm job).
  change (rj_files (job <| rj_last_update := t |>)) with (rj_files job). rewrite Hc, E1.
  replace (Z.of_nat k + 1 <? Z.of_nat (length (rj_files job)))%Z with false by lia. by destruct err.
Qed.

Definition try_remove (job : RemoveJob) (v : vfs) (f : FileEntry) : vfs :=
  ok_or_same (remove_file v (rm_path job f)) v.
Definition removed (job : RemoveJob) (v : vfs) (f : FileEntry) : option string :=
  match remove_file v (rm_path job f) with Ok _ => None | Err e => Some (error_text e) end.

Definition queue_turns (ts : list Z) (r : Remote) : Remote :=
  foldl (λ r t, (on_queue dir_order error_text windows version peer_platform t r).2) r ts.

Lemma queue_turn t i p k r :
  r_queue r = [Ui.RemoveFile i p k false] →
  (on_queue dir_order error_text windows version peer_platform t r).2
  = (handle_job_status t i k (match remove_file (r_fs r) p with Ok _ => None | Err e => Some (error_text e) end)
       (r <| r_queue := [] |> <| r_fs := ok_or_same (remove_file (r_fs r) p) (r_fs r) |>)).2.
Proof.
  intros Hq. unfold on_queue, mbind, Rm_bind, Remote.get. rewrite Hq. cbn.
  unfold local_command, mbind, Rm_bind, Remote.get, set_. cbn.
  destruct (remove_file (r_fs r) p); cbn; [done|]. by destruct r.
Qed.

Lemma removal_run i job l k r ts :
  removing i job r → rj_no_confirm job = true → rj_is_remote job = false →
  (Z.of_nat (length (rj_files job)) < 2 ^ 31)%Z → drop k (rj_files job) = l →
  (∃ f, rj_files job !! k = Some f ∧ r_queue r = [Ui.RemoveFile i (rm_path job f) (Z.of_nat k) false]) →
  length ts = length l →
  let r' := queue_turns ts r in
  r_queue r' = [] ∧ r_remove_jobs r' = delete i (r_remove_jobs r)
  ∧ r_fs r' = foldl (try_remove job) (r_fs r) l
  ∧ ∃ reports f, r_ui r' = r_ui r ++ reports ++ [outcome_of i (Z.of_nat (k + length l) - 1)
                                             (removed job (foldl (try_remove job) (r_fs r) (removelast l)) f)]
     ∧ last l = Some f.
Proof.
  intros Hr Hc Hrem Hn. revert k r ts Hr. induction l as [|f l IH]; intros k r ts Hr El (f' & Hf & Hq) Hts.
  { apply (f_equal length) in El. rewrite length_drop in El. apply lookup_lt_Some in Hf. simpl in El. lia. }
  assert (f' = f) as ->.
  { rewrite <- (Nat.add_0_r k), <- lookup_drop, El in Hf. by injection Hf. }
  destruct ts as [|t ts]; [done|]. cbn [queue_turns foldl]. rewrite (queue_turn t _ _ _ _ Hq).
  fold (try_remove job (r_fs r) f). fold (removed job (r_fs r) f).
  set (r0 := r <| r_queue := [] |> <| r_fs := _ |>). assert (removing i job r0) as Hr0 by done.
  assert (drop (S k) (rj_files job) = l) as El'.
  { replace (S k) with (k + 1)%nat by lia. by rewrite <- drop_drop, El. }
  destruct l as [|f1 l].
  - assert (length (rj_files job) = S k) as Hl.
    { apply (f_equal length) in El. rewrite length_drop in El. simpl in El. apply lookup_lt_Some in Hf. lia. }
    rewrite (status_last t i job k _ r0 Hr0 Hc Hn Hl). destruct ts; [|done]. cbn.
    split_and!; [done|done|done|]. exists [], f. replace (Z.of_nat (k + 1) - 1)%Z with (Z.of_nat k) by lia. done.
  - assert (rj_files job !! S k = Some f1) as Hf1.
    { rewrite <- (Nat.add_0_r (S k)), <- lookup_drop, El'. done. }
    destruct (status_next t i job k f1 (removed job (r_fs r) f) r0 Hr0 Hc Hn Hf1) as (H1 & H2 & H3 & H4 & reports & H5).
    set (r1 := (handle_job_status _ _ _ _ _).2) in *.
    destruct (IH (S k) r1 ts H1 El') as (G1 & G2 & G3 & rs & f2 & G4 & G5).
    { exists f1. split; [done|]. rewrite H4, Hrem. done. }
    { simpl in Hts |- *. lia. }
    unfold queue_turns in *. split_and!; [done| | |].
    + rewrite G2. destruct H1 as [t1 Ht1]. rewrite H2. done.
    + rewrite G3, H3. done.
    + exists (reports ++ rs), f2. split; [|done]. rewrite G4, H5, H3, <- !app_assoc.
      replace (k + length (f :: f1 :: l))%nat with (S k + length (f1 :: l))%nat by (simpl; lia). done.
Qed.

(** C38: the removal of a directory of the user's own machine goes through.  (For one of
    the peer a turn only sends the request, and the peer's answer asks for the next.)
    Once the user need not confirm each file, and the first was asked to be removed: each turn of the loop's queue
    removes one file, or fails to, and asks for the next; after one turn per file
    every file of the directory has been tried once, in order, the queue is empty,
    the removal is forgotten, and the last report is how the last file ended. *)
Theorem removal_completes i job f r ts :
  removing i job r → rj_no_confirm job = true → rj_is_remote job = false →
  (Z.of_nat (length (rj_files job)) < 2 ^ 31)%Z →
  head (rj_files job) = Some f → r_queue r = [Ui.RemoveFile i (rm_path job f) 0 false] →
  length ts = length (rj_files job) →
  let files := rj_files job in
  let r' := queue_turns ts r in
  r_queue r' = [] ∧ r_remove_jobs r' = delete i (r_remove_jobs r)
  ∧ r_fs r' = foldl (try_remove job) (r_fs r) files
  ∧ ∃ l, last files = Some l
     ∧ last (r_ui r') = Some (outcome_of i (Z.of_nat (length files) - 1)
                                (removed job (foldl (try_remove job) (r_fs r) (removelast files)) l)).
Proof.
  intros Hr Hc Hrem Hn Hf Hq Hts files r'.
  destruct (removal_run i job files 0 r ts) as (H1 & H2 & H3 & rs & l & H4 & H5); try done.
  { exists f. split; [|done]. by rewrite <- head_lookup. }
  split_and!; [done..|]. exists l. split; [done|]. unfold r'. by rewrite H4, app_assoc, last_snoc.
Qed.

(** ** What goes wrong *)

(** A listing that is refused, for names that would leave the destination say: the
    error is dropped, nothing is received, and the transfer is reported as done. *)
Lemma refused_listing_done now now' fd fn j e r :
  r_write_jobs r = [j] → id j = fd_id fd → type j = Generic → files j = [] → file_skipped j = false →
  r_remove_jobs r !! fd_id fd = None →
  set_files (r_fs r) (from_peer_names windows peer_platform (fd_entries fd)) j = Err e →
  let r1 := (handle_file_response now (RsDir fd) r).2 in
  let r2 := (handle_file_response now' (RsDone (fd_id fd) fn) r1).2 in
  r_fs r2 = r_fs r ∧ r_write_jobs r2 = [] ∧ last (r_ui r2) = Some (JobDone (fd_id fd) fn).
Proof.
  intros Hw Hi Ht Hf Hsk Hrm He r1 r2.
  set (j1 := set_finished_size_on_resume j).
  assert (id j1 = id j ∧ type j1 = Generic ∧ files j1 = [] ∧ job_error j1 = None) as (Hi1 & Ht1 & Hf1 & He1).
  { unfold j1, set_finished_size_on_resume, job_error, job_skipped. case_match; cbn; by rewrite ?Hsk, ?Hf. }
  assert (r_write_jobs r1 = [j1] ∧ r_fs r1 = r_fs r ∧ r_remove_jobs r1 = r_remove_jobs r) as (Hw1 & Hv1 & Hrm1).
  { unfold r1. cbn [Remote.handle_file_response]. unfold handle_dir, mbind, Rm_bind, ui, set_, Remote.get.
    cbn [r_write_jobs]. cbn. rewrite Hw. cbn [with_job]. rewrite Hi, Z.eqb_refl. cbn.
    unfold set_files_ignored. by rewrite He. }
  unfold r2. cbn [Remote.handle_file_response]. unfold handle_done, mbind, Rm_bind, Remote.get.
  rewrite Hw1, Hv1. unfold take_job, get_job_by_id. cbn [List.find remove_job].
  rewrite Hi1, Hi, Z.eqb_refl. unfold run_job, modify_time, mbind, J_bind, get_job, get_fs. cbn [w_job w_fs].
  rewrite Ht1. unfold entry_at. rewrite Hf1.
  replace (to_usize (file_num j1) <? Z.of_nat (length []))%Z with false.
  2: { symmetry. apply Z.ltb_ge. apply wrap_uint. lia. }
  assert (∀ r0 : Remote, r_remove_jobs r0 = r_remove_jobs r → handle_job_status now' (fd_id fd) fn None r0
            = ((), r0 <| r_ui := r_ui r0 ++ [JobDone (fd_id fd) fn] |>)) as Hst.
  { intros r0 Hr0. unfold handle_job_status, mbind, Rm_bind, Remote.get. by rewrite Hr0, Hrm. }
  destruct (data_source j1); cbn; rewrite Ht1, He1, Hst by done; cbn; by rewrite last_snoc.
Qed.
End Safety.

(** ** Instances *)

Module DemoRemote.
Definition v : vfs := demo_dirs [(["d"], NDir 0); (["d"; "b"], NFile 1)]%string [(1%nat, {| i_data := [9%Z]; i_mtime := 0 |})] 2.
Definition empty (v : vfs) : Remote := mkRemote [] [] ∅ false 0 ∅ true v ([], []) [] [] [].
Definition entry (n : string) : FileEntry := Build_FileEntry FFile n false 0 0.
(** A directory listed as two files, of which the first is gone. *)
Definition job : RemoveJob := mkRemoveJob [entry "a"; entry "b"] "/d" "/" false true 0.
Definition remover : Remote :=
  empty v <| r_remove_jobs := {[7%Z := job]} |> <| r_queue := [Ui.RemoveFile 7 "/d/a" 0 false] |>.
Definition text (e : error) : string := "error".
End DemoRemote.
Import DemoRemote.

Lemma remote_typed_steps_witness :
  remote_typed (foldl (λ r i, (remote_step (λ x, x) (λ x, x) (λ _, []) (λ _, None) (λ v _ _, v) (λ n, n) (λ l, l)
      text false 1002000 "Linux" i.1 i.2 r).2) (empty v)
    [(0%Z, FromUi (Ui.SendFiles 7 Generic "/d" "/x" 0 true false)); (1%Z, OnTimer)]).
Proof.
  apply remote_typed_steps.
  - split; constructor.
  - repeat constructor; vm_compute; discriminate.
Defined.

Lemma removal_completes_witness :
  let r' := queue_turns (λ l, l) text false 1002000 "Linux" [1; 2]%Z remover in
  r_queue r' = [] ∧ last (r_ui r') = Some (JobDone 7 1).
Proof.
  cbv zeta.
  destruct (removal_completes (λ l, l) text false 1002000 "Linux" 7 job (entry "a") remover [1; 2]%Z)
    as (H1 & _ & _ & l & _ & H2).
  - exists 0%Z. vm_compute. reflexivity.
  - reflexivity.
  - reflexivity.
  - vm_compute. reflexivity.
  - reflexivity.
  - vm_compute. reflexivity.
  - reflexivity.
  - split; [exact H1|]. vm_compute. reflexivity.
Defined.

(** The first file could not be removed; the interface is only told that the job is done. *)
Lemma removal_error_lost :
  let r' := queue_turns (λ l, l) text false 1002000 "Linux" [1; 2]%Z remover in
  removed text job v (entry "a") = Some "error"%string ∧ r_ui r' = [JobDone 7 1].
Proof. by vm_compute. Qed.
