(* ===== verification/Download.v ===== *)
(** * A download, from the request to the files

    The two ends of a session together: the client's loop ([Remote]) and the
    connection that serves it on the host ([Dispatch]), joined by a stream that keeps
    its order.  [exchange] delivers what the host has sent, then what the client has
    sent; a [round] lets the host's file timer tick first.  With overwrites detected,
    as both ends do since 1.1.10, every file begins with a digest the client must
    answer; [download_completes] follows the whole dialogue. *)

From S2P Require Import Prelude Strs Secret Options Password Permissions Throttle Sessions Services Conn LoginConfig Login LoginSafety ConnSafety Session Version Vfs Fs Transfer Jobs Receive Send Cm CmSafety CmClients Dispatch DispatchSafety Remote RemoteSafety.
From Stdlib Require Import Ascii String.

Local Open Scope list_scope.
#[local] Abbreviation length := Datatypes.length.
#[local] Arguments String.append _ _ : simpl nomatch.
#[local] Opaque BUF_SIZE.

(** ** The messages, as the other end takes them *)

Definition as_input (text : error → string) (m : CmRaw) : option RemoteInput :=
  match m with
  | RawEmptyDirs path dirs => Some (FromPeer (RsEmptyDirs path dirs))
  | RawFile (MsgDir i path entries) =>
      Some (FromPeer (RsDir {| fd_id := i; fd_path := path; fd_entries := entries |}))
  | RawFile (MsgDigest d) => Some (FromPeer (RsDigest d))
  | RawFile (MsgBlock b) => Some (FromPeer (RsBlock b))
  | RawFile (MsgDone i fn) => Some (FromPeer (RsDone i fn))
  | RawFile (MsgError i err fn) => Some (FromPeer (RsError i fn (text err)))
  | RawFile (MsgErrorText i err fn) => Some (FromPeer (RsError i fn err))
  | RawFile (MsgSendConfirm r) => Some (FromPeerConfirm r)
  | RawFile (MsgReceive _ _ _ _ _) | RawFile (MsgSend _ _ _ _ _) => None
  end.

Definition as_authed (text : error → string) (m : ToPeer) : Authed :=
  match m with
  | TpAction a => AuFileAction (Some a)
  | TpFile (MsgSend i path hidden fn t) => AuFileAction (Some (FaSend i path fn hidden t))
  | TpFile (MsgReceive i path files fn total) => AuFileAction (Some (FaReceive i path files fn total))
  | TpFile (MsgSendConfirm r) => AuFileAction (Some (FaSendConfirm r))
  | TpFile (MsgBlock b) => AuFileResponse (FrBlock b)
  | TpFile (MsgDone i fn) => AuFileResponse (FrDone i fn)
  | TpFile (MsgDigest d) => AuFileResponse (FrDigest d)
  | TpFile (MsgError i err fn) => AuFileResponse (FrError i fn (text err))
  | TpFile (MsgErrorText i err fn) => AuFileResponse (FrError i fn err)
  | TpFile (MsgDir _ _ _) => AuFileResponse FrOther
  end.

Section Link.
Context `{T : Totp} `{C : Crypto} `{P : Proto}.
#[local] Abbreviation Desk := (@Desk T).
(** The host's environments, and the client's. *)
Variable env : Env.
Variable denv : DeskEnv.
Context (decompress ccompress : list Z → list Z).
Context (json_of_digest : FileDigest → list Z) (digest_of_json : list Z → option FileDigest).
Context (set_file_mtime : vfs → string → Z → vfs).
Context (cshort : nat → nat) (cdir_order : list string → list string).
Context (error_text : error → string) (windows : bool) (version : Z) (peer_platform : string).
#[local] Abbreviation remote_step :=
  (remote_step decompress ccompress json_of_digest digest_of_json set_file_mtime cshort cdir_order error_text
     windows version peer_platform).

Record Link := { client : Remote; host : Desk }.

Definition deliver_client (now : Z) (r : Remote) (m : CmRaw) : Remote :=
  match as_input error_text m with Some i => (remote_step now i r).2 | None => r end.
Definition deliver_host (d : Desk) (m : ToPeer) : Desk :=
  (on_authed_message env denv (as_authed error_text m) d).2.

Definition exchange (now : Z) (s : Link) : Link :=
  let h := host s in
  let c := foldl (deliver_client now) (client s) (to_peer (d_reads h)) in
  let h := h <| d_reads := mkCmReads (cm_read_job_ids (d_reads h)) [] |> in
  {| client := c <| r_peer := [] |>; host := foldl deliver_host h (r_peer c) |}.

Definition round (now : Z) (s : Link) : Link :=
  exchange now {| client := client s; host := (on_file_timer denv (host s)).2 |}.

(** The request, the listing, then a round for each moment of [ts]. *)
Definition download (now i : Z) (path to : string) (hidden : bool) (ts : list Z) (s : Link) : Link :=
  let c := (remote_step now (FromUi (Ui.SendFiles i Generic path to 0 hidden true)) (client s)).2 in
  let s := exchange now (exchange now {| client := c; host := host s |}) in
  foldl (λ s t, round t s) s ts.

(** ** The client's end *)

Section Dialogue.
Context (jid : Z) (ui0 : list UiCall).

(** Reports of a transfer under way: no error, and no question to the user. *)
Definition quiet (c : UiCall) : bool :=
  match c with JobError _ _ _ | OverrideFileConfirm _ _ _ _ _ => false | _ => true end.

Record client_at (jobs : list TransferJob) (v : vfs) (r : Remote) : Prop := {
  ca_jobs : r_write_jobs r = jobs;
  ca_fs : r_fs r = v;
  ca_remove : r_remove_jobs r !! jid = None;
  ca_ui : ∃ l, r_ui r = ui0 ++ l ∧ forallb quiet l = true
}.

Lemma client_ui jobs v r c : client_at jobs v r → quiet c = true → client_at jobs v (r <| r_ui := r_ui r ++ [c] |>).
Proof.
  intros [Hj Hv Hr (l & Hl & Hq)] Hc. split; [done..|]. exists (l ++ [c]). cbn. rewrite Hl, <- app_assoc.
  split; [done|]. rewrite forallb_app, Hq. cbn. by rewrite Hc.
Qed.

Lemma client_put jobs v jobs' v' r :
  client_at jobs v r → client_at jobs' v' (r <| r_write_jobs := jobs' |> <| r_fs := v' |>).
Proof. by intros [Hj Hv Hr Hl]. Qed.

(** Progress is shown, and nothing else changes. *)
Lemma client_progress_one jobs v r elapsed j :
  client_at jobs v r →
  client_at jobs v (update_job_status elapsed j r).2 ∧ r_peer (update_job_status elapsed j r).2 = r_peer r.
Proof.
  intros Hr. unfold update_job_status. destruct (elapsed <=? 0)%Z; [done|].
  unfold mbind, Rm_bind, Remote.get, set_, ui. cbn [snd]. split; [|done].
  by apply (client_ui jobs v (r <| r_last_transferred := _ |>)); [destruct Hr|].
Qed.

Lemma client_progress jobs v r elapsed l :
  client_at jobs v r →
  client_at jobs v (each_job (update_job_status elapsed) l r).2
  ∧ r_peer (each_job (update_job_status elapsed) l r).2 = r_peer r.
Proof.
  revert r. induction l as [|j l IH]; intros r Hr; [done|]. cbn [each_job]. unfold mbind, Rm_bind.
  destruct (client_progress_one jobs v r elapsed j Hr) as [H1 E1].
  destruct (update_job_status elapsed j r) as [[] r1]. cbn [snd] in *.
  destruct (IH r1 H1) as [H2 E2]. split; [done|]. congruence.
Qed.

Lemma client_status now jobs v r :
  client_at jobs v r →
  client_at jobs v (update_jobs_status now r).2 ∧ r_peer (update_jobs_status now r).2 = r_peer r.
Proof.
  intros Hr. unfold update_jobs_status, mbind, Rm_bind, Remote.get. destruct (_ <=? _)%Z; [|done].
  set (elapsed := swrap 32 _).
  destruct (client_progress jobs v r elapsed (r_read_jobs r) Hr) as [H1 E1].
  destruct (each_job _ _ r) as [[] r1]. cbn [snd] in *.
  destruct (client_progress jobs v r1 elapsed (r_write_jobs r) H1) as [H2 E2].
  destruct (each_job _ _ r1) as [[] r2]. cbn [snd] in *. split; [by destruct H2|]. cbn. congruence.
Qed.

Lemma client_dir now path fs j j' v r :
  client_at [j] v r → id j = jid → is_resume j' = false → set_files v fs j = Ok j' →
  from_peer_names windows peer_platform fs = fs →
  let r' := (remote_step now (FromPeer (RsDir {| fd_id := jid; fd_path := path; fd_entries := fs |})) r).2 in
  client_at [j'] v r' ∧ r_peer r' = r_peer r.
Proof.
  intros Hr Hi Hres Hs Hn r'. unfold r'. cbn [Remote.remote_step Remote.handle_file_response].
  unfold handle_dir, mbind, Rm_bind. cbn [fd_entries fd_id fd_path]. rewrite Hn. unfold Remote.get, ui, set_.
  cbn -[with_job]. pose proof (ca_jobs _ _ _ Hr) as Hj. pose proof (ca_fs _ _ _ Hr) as Hv. rewrite Hj.
  cbn [with_job]. rewrite Hi, Z.eqb_refl. cbn. rewrite Hv.
  assert (set_files_ignored v fs j = j') as ->.
  { unfold set_files_ignored, set_finished_size_on_resume. by rewrite Hs, Hres. }
  split; [|done]. by apply (client_put [j] v [j'] v (r <| r_ui := _ |>)), client_ui.
Qed.

(** The digest of a file that is not there is answered at once. *)
Lemma client_digest now k e md p j v r :
  client_at [j] v r → id j = jid → data_source j = FilePath p → entry_at j (Z.of_nat k) = Some e →
  is_resume j = false → path_exists v (join p (fe_name e)) = false →
  let d := file_digest jid k e md in
  let r' := (remote_step now (FromPeer (RsDigest d)) r).2 in
  r_peer r' = r_peer r ++ [TpFile (MsgSendConfirm (digest_answer d (OffsetBlk 0)))]
  ∧ ∃ j', client_at [j'] v r' ∧ like j j' ∧ file_num j' = file_num j ∧ data_stream j' = data_stream j
      ∧ is_resume j' = false ∧ (file_skipped j = false → file_skipped j' = false).
Proof.
  intros Hr Hi Hsrc He Hres Hex d r'. unfold r'. cbn [Remote.remote_step Remote.handle_file_response].
  change (td_is_upload d) with false. cbn iota.
  pose proof (ca_jobs _ _ _ Hr) as Hj. pose proof (ca_fs _ _ _ Hr) as Hv.
  unfold download_digest, mbind, Rm_bind, Remote.get. rewrite Hj, Hv.
  unfold get_job_by_id. cbn [List.find]. change (td_id d) with jid. rewrite Hi, Z.eqb_refl.
  change (td_file_num d) with (Z.of_nat k). rewrite He, Hsrc. cbn [with_job]. rewrite Hi, Z.eqb_refl.
  unfold run_job, modify_job. cbn [w_job w_fs w_sent]. rewrite Hres, andb_false_r.
  set (j1 := set_digest (td_file_size d) (td_last_modified d) j).
  unfold is_write_need_confirmation, resumable. cbn [andb]. rewrite Hex. cbn [andb].
  unfold put_write_jobs, set_, confirm_write, mbind, Rm_bind, Remote.get, peer_send, set_.
  cbn [r_write_jobs r_fs]. cbn -[with_job confirm]. change (td_id d) with jid.
  cbn [with_job]. change (id j1) with (id j). rewrite Hi, Z.eqb_refl. unfold run_job.
  assert (∃ j', confirm (digest_answer d (OffsetBlk 0)) (Build_world j1 v []) = (Ret tt, Build_world j' v [])
            ∧ like j j' ∧ file_num j' = file_num j ∧ data_stream j' = data_stream j ∧ is_resume j' = false
            ∧ (file_skipped j = false → file_skipped j' = false)) as (j' & E & H).
  { unfold confirm, mbind, J_bind, get_job. cbn [w_job cr_file_num cr_union digest_answer].
    destruct (_ =? _)%Z; cbn.
    - eexists. split; [reflexivity|]. done.
    - exists j1. done. }
  rewrite E. cbn. split; [done|]. exists j'. split; [|done].
  destruct Hr as [_ _ H1 H2]. by split.
Qed.

Lemma client_block now b j v j' v' r :
  client_at [j] v r → id j = jid → blk_id b = jid →
  write decompress json_of_digest set_file_mtime b (Build_world j v []) = (Ret tt, Build_world j' v' []) →
  let r' := (remote_step now (FromPeer (RsBlock b)) r).2 in
  client_at [j'] v' r' ∧ r_peer r' = r_peer r.
Proof.
  intros Hr Hi Hb E r'. unfold r'. cbn [Remote.remote_step Remote.handle_file_response].
  unfold handle_block, mbind, Rm_bind, Remote.get. rewrite (ca_jobs _ _ _ Hr), (ca_fs _ _ _ Hr), Hb.
  unfold get_job_by_id. cbn [List.find with_job]. rewrite Hi, Z.eqb_refl. unfold run_job. rewrite E.
  cbn [w_job w_fs w_sent put_write_jobs set_].
  pose proof (client_put _ _ [j'] v' r Hr) as Hr'. destruct (bool_decide _); [|done].
  destruct (client_status now _ _ _ Hr') as [H1 H2]. split; [exact H1|]. etransitivity; [exact H2|done].
Qed.

Lemma client_done now fn j v v' r :
  client_at [j] v r → id j = jid → type j = Generic → file_skipped j = false →
  modify_time set_file_mtime (Build_world j v []) = (Ret tt, Build_world j v' []) →
  let r' := (remote_step now (FromPeer (RsDone jid fn)) r).2 in
  client_at [] v' r' ∧ r_peer r' = r_peer r ∧ last (r_ui r') = Some (JobDone jid fn).
Proof.
  intros Hr Hi Ht Hsk E r'. unfold r'. cbn [Remote.remote_step Remote.handle_file_response].
  unfold handle_done, mbind, Rm_bind, Remote.get. rewrite (ca_jobs _ _ _ Hr), (ca_fs _ _ _ Hr).
  unfold take_job, get_job_by_id. cbn [List.find remove_job]. rewrite Hi, Z.eqb_refl.
  unfold run_job. rewrite E. cbn [w_job w_fs w_sent put_write_jobs set_]. rewrite Ht.
  unfold job_error, job_skipped. rewrite Hsk. cbn [andb].
  unfold handle_job_status, mbind, Rm_bind, Remote.get. cbn -[last].
  rewrite (ca_remove _ _ _ Hr). cbn -[last]. rewrite last_snoc. split; [|done].
  exact (client_ui [] v' _ (JobDone jid fn) (client_put _ _ [] v' r Hr) eq_refl).
Qed.
End Dialogue.

(** ** The host's end *)

Record host_at (jobs : list TransferJob) (v : vfs) (out : list CmRaw) (d : Desk) : Prop := {
  ha_ready : conn_ready d;
  ha_jobs : d_read_jobs d = jobs;
  ha_fs : d_fs d = v;
  ha_out : to_peer (d_reads d) = out
}.

Lemma host_tick jobs v out d jobs' v' msgs :
  host_at jobs v out d → jobs ≠ [] →
  handle_read_jobs (Dispatch.compress denv) (Dispatch.short denv) jobs v = (jobs', v', msgs) →
  host_at jobs' v' (out ++ map RawFile msgs) (on_file_timer denv d).2.
Proof.
  intros [Hr Hj Hv Ho] Hne E. unfold on_file_timer, mbind, D_bind, asks. rewrite Hj, Hv.
  rewrite bool_decide_false by done. cbn. rewrite E. cbn. rewrite foldl_to_peer. split; try done.
  cbn. by rewrite Ho.
Qed.

(** Files go both ways. *)
Hypothesis one_way : one_way_file_transfer env = false.

(** The answer to a digest starts the file. *)
Lemma host_confirm k j v out d r :
  host_at [j] v out d → id j = cr_id r → file_num j = Z.of_nat k → cr_file_num r = Z.of_nat k →
  cr_union r = Some (OffsetBlk 0) →
  host_at [set_file_confirmed true j] v out (deliver_host d (TpFile (MsgSendConfirm r))).
Proof.
  intros [Hr Hj Hv Ho] Hi Hk Hk' Hu. unfold deliver_host. cbn [as_authed]. rewrite ready_action by done.
  cbn [file_action]. unfold send_confirm, mbind, D_bind, me, asks. rewrite Hj, Hv. cbn [with_job].
  rewrite Hi, Z.eqb_refl. unfold run_job, confirm, mbind, J_bind, get_job. cbn [w_job w_fs w_sent].
  by rewrite Hk, Hk', Z.eqb_refl, Hu.
Qed.

(** ** Both *)

Section Served.
Context (jid : Z) (ui0 : list UiCall) (path : string) (fs : list FileEntry) (contents : list (list Z)) (vs : vfs).
#[local] Abbreviation compress := (Dispatch.compress denv).
#[local] Abbreviation short := (Dispatch.short denv).
Hypothesis short_law : ∀ n, (0 < n)%nat → (0 < short n <= n)%nat.
Hypothesis Hcount : (Z.of_nat (length fs) < 2 ^ 31)%Z.
#[local] Abbreviation sending := (sending jid path fs true).
#[local] Abbreviation write := (write decompress json_of_digest set_file_mtime).
#[local] Abbreviation write_all := (write_all decompress json_of_digest set_file_mtime).

Record link_at (hj cj : TransferJob) (cv : vfs) (s : Link) : Prop := {
  la_host : host_at [hj] vs [] (host s);
  la_client : client_at jid ui0 [cj] cv (client s);
  la_peer : r_peer (client s) = []
}.

(** What the client's job keeps. *)
Definition plain (j : TransferJob) : Prop := id j = jid ∧ is_resume j = false ∧ file_skipped j = false.

Lemma plain_writable : writable plain (λ _, True).
Proof. done. Qed.

Lemma write_split b bs j v w' :
  write_all (b :: bs) (Build_world j v []) = (Ret tt, w') → plain j →
  ∃ j1 v1, write b (Build_world j v []) = (Ret tt, Build_world j1 v1 [])
    ∧ write_all bs (Build_world j1 v1 []) = (Ret tt, w') ∧ plain j1.
Proof.
  intros E Hj. cbn [Receive.write_all] in E. unfold mbind, J_bind in E.
  pose proof (write_silent decompress json_of_digest set_file_mtime b (Build_world j v [])) as Hs.
  pose proof (keeps_write decompress json_of_digest set_file_mtime _ _ plain_writable b I (Build_world j v []) Hj) as Hp.
  destruct (write b (Build_world j v [])) as [[[]|e|] [j1 v1 o1]]; [|done..]. cbn in Hs, Hp. subst o1. by exists j1, v1.
Qed.

(** A round that carries a block. *)
Lemma round_block now hj hj' b cj cv cj' cv' s :
  link_at hj cj cv s → id cj = jid → blk_id b = jid →
  handle_read_jobs compress short [hj] vs = ([hj'], vs, [MsgBlock b]) →
  write b (Build_world cj cv []) = (Ret tt, Build_world cj' cv' []) →
  link_at hj' cj' cv' (round now s).
Proof.
  intros [Hh Hc Hp] Hi Hb E1 E2. unfold round, exchange. cbn [host client].
  pose proof (host_tick _ _ _ _ _ _ _ Hh ltac:(done) E1) as Hh'. rewrite (ha_out _ _ _ _ Hh').
  cbn [app map foldl deliver_client as_input].
  destruct (client_block jid ui0 now b cj cv cj' cv' (client s) Hc Hi Hb E2) as [H1 H2].
  unfold deliver_client. cbn [as_input]. rewrite H2, Hp. cbn [foldl].
  split; cbn; [by destruct Hh'|by destruct H1|done].
Qed.

(** The rounds of an open file. *)
Lemma rounds_file fuel ts hj cj cv k e d pos s cj' cv' :
  sending hj k → fs !! k = Some e → stream_at vs (data_stream hj) d pos → file_confirmed hj = true →
  is_resume hj = false → link_at hj cj cv s → plain cj → (length (drop pos d) <= fuel)%nat →
  let bs := map (data_block compress jid path fs k e) (chunks fuel (drop pos d)) ++ [end_block jid k] in
  length ts = length bs → write_all bs (Build_world cj cv []) = (Ret tt, Build_world cj' cv' []) →
  ∃ hj', link_at hj' cj' cv' (foldl (λ s t, round t s) s ts) ∧ sending hj' (S k)
    ∧ data_stream hj' = None ∧ idle hj' ∧ is_resume hj' = false ∧ plain cj'.
Proof.
  pose proof BUF_SIZE_pos as HB. revert ts hj cj cv pos s.
  induction fuel as [|fuel IH]; intros ts hj cj cv pos s S He Hs Hc Hres Hl Hpl Hf bs Ht E;
    (destruct (tick_block compress short short_law vs jid path fs Hcount true hj k e d pos S He Hs (or_intror Hc))
       as [H1 H2]); (destruct (decide (drop pos d = [])) as [Hd|Hd]).
  2: { by destruct (drop pos d); [|simpl in Hf; lia]. }
  1,2: assert (bs = [end_block jid k]) as Eb by (unfold bs; rewrite Hd; done); rewrite Eb in Ht, E;
    (destruct ts as [|t [|]]; try done); (destruct (H2 ltac:(by rewrite Hd, take_nil)) as (hj' & Eh & S' & Hs' & Hi & Hr'));
    apply write_split in E as (j1 & v1 & E1 & E2 & Hp1); [|done]; unfold mret, J_ret in E2; injection E2 as <- <-;
    exists hj'; cbn [foldl]; (split; [by apply (round_block t hj hj' (end_block jid k) cj cv j1 v1 s Hl (proj1 Hpl))|]);
    split_and!; try done; try congruence; (apply Hi || apply Hp1).
  set (buf := take BUF_SIZE (drop pos d)) in *.
  assert (length buf = (BUF_SIZE `min` length (drop pos d))%nat) as Hlb by apply length_take.
  assert (0 < length (drop pos d))%nat as Hl0 by (destruct (drop pos d); [done|simpl; lia]).
  assert (buf ≠ []) as Hbuf by (intros Eb; rewrite Eb in Hlb; simpl in Hlb; lia).
  assert (bs = data_block compress jid path fs k e buf
               :: map (data_block compress jid path fs k e) (chunks fuel (drop (pos + length buf) d)) ++ [end_block jid k])
    as Eb.
  { assert (drop (pos + length buf) d = drop BUF_SIZE (drop pos d)) as ->.
    { rewrite drop_drop. destruct (decide (BUF_SIZE <= length (drop pos d))%nat); [f_equal; lia|].
      rewrite !drop_ge; [done| |]; rewrite ?length_drop in *; lia. }
    unfold bs. by destruct (drop pos d). }
  rewrite Eb in Ht, E. destruct ts as [|t ts]; [done|].
  destruct (H1 Hbuf) as (hj1 & Eh & S1 & Hs1 & Hc1 & Hr1).
  apply write_split in E as (j1 & v1 & E1 & E2 & Hp1); [|done].
  destruct (IH ts hj1 j1 v1 (pos + length buf)%nat (round t s)) as (hj' & H); try done.
  - by destruct Hc1.
  - congruence.
  - eapply (round_block t hj hj1 _ cj cv j1 v1 s Hl (proj1 Hpl)); [| |exact E1]; [|exact Eh]. done.
  - rewrite length_drop in *. lia.
  - simpl in Ht. lia.
  - by exists hj'.
Qed.

(** The last round ends both jobs. *)
Lemma round_end now hj cj cv cv' s :
  link_at hj cj cv s → sending hj (length fs) → idle hj → plain cj → type cj = Generic →
  modify_time set_file_mtime (Build_world cj cv []) = (Ret tt, Build_world cj cv' []) →
  let s' := round now s in
  host_at [] vs [] (host s') ∧ client_at jid ui0 [] cv' (client s') ∧ r_peer (client s') = []
  ∧ last (r_ui (client s')) = Some (JobDone jid (Z.of_nat (length fs))).
Proof.
  intros [Hh Hc Hp] S Hi (Hid & _ & Hsk) Ht E s'. unfold s', round, exchange. cbn [host client].
  pose proof (tick_end compress short vs jid path fs Hcount true hj S (λ _, Hi)) as E1.
  pose proof (host_tick _ _ _ _ _ _ _ Hh ltac:(done) E1) as Hh'. rewrite (ha_out _ _ _ _ Hh').
  cbn [app map foldl].
  destruct (client_done jid ui0 now (Z.of_nat (length fs)) cj cv cv' (client s) Hc Hid Ht Hsk E) as (H1 & H2 & H3).
  unfold deliver_client. cbn [as_input]. rewrite H2, Hp. cbn [foldl]. split; [by destruct Hh'|].
  split; [by destruct H1|]. done.
Qed.

Context (base : string) (vr : vfs) (dests : list (loc * string)).
Hypothesis Hread : Forall2 (readable vs path) fs contents.
Hypothesis HP : places fs base vr dests.
Hypothesis mtime_law : ∀ v p t, times_only v (set_file_mtime v p t).
Hypothesis Hmtime : ∀ i n, inodes vs !! i = Some n → (0 <= i_mtime n)%Z.
(** None of the files is at the destination already. *)
Hypothesis Habsent : ∀ k par leaf, dests !! k = Some (par, leaf) → node_at vr (par ++ [leaf]) = None.
#[local] Abbreviation items := (mk_items compress jid path fs 0 (zip fs contents) dests).
#[local] Abbreviation before := (before decompress base items jid vr).

Lemma next_file k cj cv it :
  before k cj cv → items !! k = Some it →
  ∃ cj' cv', write_all (it_blocks it) (Build_world cj cv []) = (Ret tt, Build_world cj' cv' []) ∧ before (S k) cj' cv'.
Proof.
  apply receive_next; [done|..].
  - intros it' v. by apply (items_join compress vs jid path fs contents Hread base vr dests HP).
  - by apply (items_names compress vs jid path fs contents Hread base vr dests HP).
  - by apply (items_disjoint compress vs jid path fs contents Hread base vr dests HP).
  - by rewrite (items_length compress vs jid path fs contents Hread base vr dests HP).
  - by apply (items_blocks compress vs jid path fs contents Hread base vr dests HP).
Qed.

(** A file still to come is not there yet. *)
Lemma still_absent k cj cv e :
  before k cj cv → fs !! k = Some e → path_exists cv (join base (fe_name e)) = false.
Proof.
  intros Hb He. destruct (zip fs contents !! k) as [[e' d]|] eqn:Ez.
  2: { apply lookup_ge_None in Ez. apply lookup_lt_Some in He. rewrite (zip_length vs path fs contents Hread) in Ez. lia. }
  destruct (zip_lookup vs path fs contents Hread k e' d Ez) as [He' _]. simplify_eq.
  destruct (dests !! k) as [[par leaf]|] eqn:Ed.
  2: { apply lookup_ge_None in Ed. apply lookup_lt_Some in Ez.
       rewrite (places_length vs path fs contents Hread base vr dests HP) in Ez. lia. }
  pose proof (mk_items_lookup_2 compress jid path fs 0 _ _ k e d par leaf Ez Ed) as Hk.
  set (it := Build_item _ _ _ _) in Hk. pose proof (list_elem_of_lookup_2 _ _ _ Hk) as Hin.
  destruct (before_job _ _ _ _ _ _ _ _ Hb) as (_ & Hcl & _). specialize (Hcl it Hin).
  pose proof (items_join compress vs jid path fs contents Hread base vr dests HP it cv Hin Hcl) as Hj.
  assert (join base (fe_name e) = render (par ++ [leaf])) as ->.
  { unfold join_validated_path in Hj. cbn [it it_entry] in Hj.
    destruct (validate_file_name_no_traversal false (fe_name e)); [|done]. cbn [mbind result_bind] in Hj.
    destruct (validate_no_symlink_components cv base (fe_name e)); [|done]. cbn in Hj. by injection Hj. }
  assert (node_at cv (par ++ [leaf]) = None) as Hn.
  { rewrite (before_untouched decompress base items
      (items_disjoint compress vs jid path fs contents Hread base vr dests HP) jid vr k k it cj cv) by
      first [done|apply in_slot_leaf]. by eapply Habsent. }
  destruct (items_names compress vs jid path fs contents Hread base vr dests HP it Hin) as [Hp Hl].
  unfold path_exists. rewrite stat_plain; [by rewrite Hn|by apply names_ok_snoc|apply Hcl|by rewrite Hn].
Qed.

(** A round that asks about a file, and is answered. *)
Lemma round_check now hj cj cv k e d s :
  sending hj k → fs !! k = Some e → readable vs path e d → data_stream hj = None → is_resume hj = false →
  link_at hj cj cv s → before k cj cv → plain cj →
  ∃ hj' cj', link_at hj' cj' cv (round now s) ∧ before k cj' cv ∧ plain cj' ∧ sending hj' k
    ∧ stream_at vs (data_stream hj') d 0 ∧ file_confirmed hj' = true ∧ is_resume hj' = false.
Proof.
  intros S He Hr Hs Hres [Hh Hc Hp] Hb (Hid & Hcr & Hsk).
  destruct (tick_check compress short vs jid path fs Hcount hj k e d S He Hr Hs Hres Hmtime)
    as (hj1 & md & Eh & S1 & Hs1 & Hr1 & _).
  pose proof (host_tick _ _ _ _ _ _ _ Hh ltac:(done) Eh) as Hh'.
  destruct (before_job _ _ _ _ _ _ _ _ Hb) as ((_ & _ & Hsrc & Hf) & _ & _).
  rewrite (items_entries compress vs jid path fs contents Hread base vr dests HP) in Hf.
  assert (entry_at cj (Z.of_nat k) = Some e) as Hen.
  { unfold entry_at, to_usize. pose proof (lookup_lt_Some _ _ _ He).
    rewrite wrap_small by (unfold uint; lia). rewrite Hf, Nat2Z.id.
    by replace (Z.of_nat k <? Z.of_nat (length fs))%Z with true by lia. }
  destruct (client_digest jid ui0 now k e md base cj cv (client s) Hc Hid Hsrc Hen Hcr (still_absent k cj cv e Hb He))
    as (Hpeer & cj1 & Hc1 & L & En & Es & Hcr1 & Hsk1).
  unfold round, exchange. cbn [host client]. rewrite (ha_out _ _ _ _ Hh'). cbn [app map foldl].
  unfold deliver_client. cbn [as_input]. rewrite Hpeer, Hp. cbn [app foldl].
  exists (set_file_confirmed true hj1), cj1. split_and!.
  - split; cbn; [|by destruct Hc1|done].
    apply (host_confirm k); [by destruct Hh'|apply S1|apply S1|done|done].
  - by eapply before_same.
  - unfold plain. split_and!; [by rewrite (like_id _ _ L)|done|by apply Hsk1].
  - by destruct S1.
  - done.
  - done.
  - done.
Qed.

(** The rounds of all the files that are left. *)
Lemma rounds_files l ts k hj cj cv s :
  drop k (zip fs contents) = l → sending hj k → data_stream hj = None → idle hj → is_resume hj = false →
  link_at hj cj cv s → before k cj cv → plain cj →
  length ts = (length (blocks_from compress jid path fs k l) + length l)%nat →
  ∃ hj' cj' cv', link_at hj' cj' cv' (foldl (λ s t, round t s) s ts) ∧ sending hj' (length fs) ∧ idle hj'
    ∧ before (length fs) cj' cv' ∧ plain cj'.
Proof.
  revert ts k hj cj cv s. induction l as [|[e d] l IH]; intros ts k hj cj cv s El S Hs Hi Hres Hl Hb Hpl Ht.
  - destruct ts; [|done]. assert (k = length fs) as ->.
    { pose proof (sd_le _ _ _ _ _ _ S). apply (f_equal length) in El.
      rewrite length_drop, (zip_length vs path fs contents Hread) in El. simpl in El. lia. }
    by exists hj, cj, cv.
  - assert (zip fs contents !! k = Some (e, d)) as Hk.
    { rewrite <- (Nat.add_0_r k), <- lookup_drop, El. done. }
    destruct (zip_lookup vs path fs contents Hread k e d Hk) as [He Hr].
    destruct (dests !! k) as [[par leaf]|] eqn:Ed.
    2: { apply lookup_ge_None in Ed. apply lookup_lt_Some in Hk.
         rewrite (places_length vs path fs contents Hread base vr dests HP) in Hk. lia. }
    pose proof (mk_items_lookup_2 compress jid path fs 0 _ _ k e d par leaf Hk Ed) as Hit.
    cbn [blocks_from] in Ht. rewrite length_app in Ht. set (n := length (file_blocks compress jid path fs k e d)) in *.
    destruct ts as [|t ts]; [cbn [length] in Ht; lia|]. cbn [length] in Ht.
    destruct (round_check t hj cj cv k e d s S He Hr Hs Hres Hl Hb Hpl)
      as (hj1 & cj1 & Hl1 & Hb1 & Hp1 & S1 & Hs1 & Hc1 & Hr1).
    destruct (next_file k cj1 cv _ Hb1 Hit) as (cj2 & cv2 & Ew & Hb2). cbn [it_blocks Nat.add] in Ew.
    destruct (rounds_file (length d) (take n ts) hj1 cj1 cv k e d 0 (round t s) cj2 cv2)
      as (hj2 & Hl2 & S2 & Hs2 & Hi2 & Hr2 & Hp2); try done.
    { rewrite length_take. rewrite drop_0. change (n `min` length ts = n)%nat. lia. }
    destruct (IH (drop n ts) (Datatypes.S k) hj2 cj2 cv2 (foldl (λ s t, round t s) (round t s) (take n ts)))
      as (hj' & cj' & cv' & Hl' & H); try done.
    { replace (Datatypes.S k) with (k + 1)%nat by lia. by rewrite <- drop_drop, El. }
    { rewrite length_drop. lia. }
    exists hj', cj', cv'. split; [|done]. cbn [foldl]. rewrite <- (take_drop n ts), foldl_app. exact Hl'.
Qed.
End Served.

(** ** The beginning and the end *)

(** Nothing is left to do, and nothing more happens. *)
Lemma rounds_idle v ts s :
  host_at [] v [] (host s) → r_peer (client s) = [] → foldl (λ s t, round t s) s ts = s.
Proof.
  intros [Hr Hj Hv Ho] Hp. induction ts as [|t ts IH]; [done|]. cbn [foldl].
  assert (round t s = s) as ->; [|done]. unfold round, exchange. cbn [host client].
  unfold on_file_timer, mbind, D_bind, asks. rewrite Hj. cbn. rewrite Ho. cbn. rewrite Hp. cbn.
  destruct s as [c h]. cbn in *. destruct c, h as [? ? ? [ids out] ? ? ? ? ? ? ? ? ? ? ?]. cbn in *. by subst.
Qed.

Lemma validate_each_ok {A} (f : A → result error unit) l : (∀ x, x ∈ l → f x = Ok tt) → validate_each f l = Ok tt.
Proof.
  induction l as [|x l IH]; intros H; [done|]. cbn [validate_each]. rewrite (H x) by by left. cbn [mbind result_bind].
  apply IH. intros y Hy. apply H. by right.
Qed.

(** What the two ends must be for a download of [fs] into [to]. *)
Record serving (path : string) (hidden : bool) (fs : list FileEntry) (contents : list (list Z)) (d : Desk) : Prop := {
  sv_ready : conn_ready d;
  sv_overwrite : overwrite_detection_of (w_conn (d_world d)) = true;
  sv_idle : d_read_jobs d = [] ∧ to_peer (d_reads d) = [];
  sv_listing : get_recursive_files (dir_order denv) (d_fs d) path hidden = Ok fs;
  sv_limit : check_file_count_limit (globals env) (Z.of_nat (length fs)) = Ok tt;
  sv_readable : Forall2 (readable (d_fs d) path) fs contents;
  sv_mtimes : ∀ i n, inodes (d_fs d) !! i = Some n → (0 <= i_mtime n)%Z
}.
Record asking (i : Z) (to : string) (fs : list FileEntry) (dests : list (loc * string)) (r : Remote) : Prop := {
  as_idle : r_write_jobs r = [] ∧ r_peer r = [] ∧ r_remove_jobs r !! i = None;
  as_wf : wf (r_fs r);
  as_names : validate_transfer_file_names false fs = Ok tt;
  as_same : from_peer_names windows peer_platform fs = fs;
  as_places : places fs to (r_fs r) dests;
  as_absent : ∀ k par leaf, dests !! k = Some (par, leaf) → node_at (r_fs r) (par ++ [leaf]) = None
}.

(** The request. *)
Lemma client_asks now i path to hidden r :
  r_write_jobs r = [] → r_peer r = [] → r_remove_jobs r !! i = None →
  let cj := new_write i Generic path (FilePath to) 0 hidden true (can_enable_overwrite_detection version) in
  let r' := (remote_step now (FromUi (Ui.SendFiles i Generic path to 0 hidden true)) r).2 in
  client_at i (r_ui r) [cj] (r_fs r) r' ∧ r_peer r' = [TpFile (new_send i Generic path 0 hidden)].
Proof.
  intros Hw Hp Hrem cj r'. unfold r'. cbn. unfold mbind, Rm_bind, set_, peer_send. cbn. rewrite Hw, Hp. split; [|done]. split; try done.
  exists []. split; [by rewrite app_nil_r|done].
Qed.

(** The request and the listing: both ends have their job. *)
Lemma download_begins now i path to hidden fs contents dests s :
  (Z.of_nat (length fs) < 2 ^ 31)%Z →
  serving path hidden fs contents (host s) → asking i to fs dests (client s) →
  let c := (remote_step now (FromUi (Ui.SendFiles i Generic path to 0 hidden true)) (client s)).2 in
  let vr := r_fs (client s) in
  ∃ hj cj, link_at i (r_ui (client s)) (d_fs (host s)) hj cj vr (exchange now (exchange now {| client := c; host := host s |}))
    ∧ sending i path fs true hj 0 ∧ data_stream hj = None ∧ idle hj ∧ is_resume hj = false
    ∧ id cj = i ∧ is_resume cj = false ∧ file_skipped cj = false ∧ type cj = Generic
    ∧ data_source cj = FilePath to ∧ files cj = fs ∧ file_num cj = 0%Z ∧ data_stream cj = None.
Proof.
  intros Hcount Hsv Hsk c vr. set (h := host s) in *. set (r := client s) in *.
  destruct (sv_idle _ _ _ _ _ Hsv) as [Hj Ho]. destruct (as_idle _ _ _ _ _ Hsk) as (Hw & Hp & Hrem).
  set (cj := new_write i Generic path (FilePath to) 0 hidden true (can_enable_overwrite_detection version)).
  destruct (client_asks now i path to hidden r Hw Hp Hrem) as [Hc Hpc]. fold c in Hc, Hpc. fold cj vr in Hc. clearbody c.
  unfold exchange at 2. cbn [host client]. rewrite Ho. cbn [foldl]. rewrite Hpc. cbn [foldl].
  set (h0 := h <| d_reads := mkCmReads (cm_read_job_ids (d_reads h)) [] |>).
  destruct (download_started env denv i path hidden fs h0) as (Hf & Hout & Hready & hj & Hjobs & Hs & Hi & Hr & S).
  { apply Hsv. } { done. } { done. } { apply Hsv. } { apply Hsv. }
  change (w_conn (d_world h0)) with (w_conn (d_world h)) in S. rewrite (sv_overwrite _ _ _ _ _ Hsv) in S.
  unfold deliver_host. cbn [as_authed new_send]. set (h1 := (on_authed_message env denv _ h0).2) in *.
  unfold exchange. cbn [host client]. rewrite Hout. change (to_peer (d_reads h0)) with (@nil CmRaw).
  cbn [app foldl]. unfold deliver_client. cbn [as_input new_dir].
  set (c1 := c <| r_peer := [] |>). assert (client_at i (r_ui r) [cj] vr c1) as Hc1 by by destruct Hc.
  set (cj1 := default cj (ok_of (set_files vr fs cj))).
  assert (set_files vr fs cj = Ok cj1) as Hset.
  { unfold cj1, set_files. rewrite (as_names _ _ _ _ _ Hsk). cbn [mbind result_bind data_source cj new_write mk_job].
    rewrite validate_each_ok; [done|]. intros e [k He]%list_elem_of_lookup_1.
    destruct (Forall2_lookup_l _ _ _ _ _ (pl_each _ _ _ _ (as_places _ _ _ _ _ Hsk)) He) as ([par leaf] & _ & Hd & Hn & Hcl).
    pose proof (destination_join vr to (fe_name e) par leaf Hd Hn Hcl) as E. unfold join_validated_path in E.
    destruct (validate_file_name_no_traversal false (fe_name e)); [|done]. cbn [mbind result_bind] in E.
    by destruct (validate_no_symlink_components vr to (fe_name e)) as [[]|]. }
  assert (id cj1 = i ∧ is_resume cj1 = false ∧ file_skipped cj1 = false ∧ type cj1 = Generic
          ∧ data_source cj1 = FilePath to ∧ files cj1 = fs ∧ file_num cj1 = 0%Z ∧ data_stream cj1 = None) as Hcj.
  { unfold set_files in Hset. destruct (validate_transfer_file_names false fs); [|done]. cbn [mbind result_bind] in Hset.
    destruct (match data_source cj with FilePath _ => _ | _ => _ end); [|done]. cbn [mbind result_bind] in Hset.
    by injection Hset as <-. }
  destruct (client_dir i (r_ui r) now path fs cj cj1 vr c1 Hc1 eq_refl (proj1 (proj2 Hcj)) Hset (as_same _ _ _ _ _ Hsk))
    as [Hc2 Hp2].
  exists hj, cj1. split; [|done]. rewrite Hp2. cbn [foldl].
  split; cbn; [|by destruct Hc2|done]. by split.
Qed.

(** C2: a download completes.  Let the host be an authorised file transfer connection on
    which nothing else is read, waits or is put off, that lets files go both ways, and
    let the user ask it for a directory or file that it can list, within its limit and
    2^31 entries, and read, its files having times that are not negative.  Let both ends
    detect overwrites, and the client have none of the files and nothing else in
    progress; the names be ones it accepts and need no translation; the directory of
    each file be there and be reached through no link, and the names of the files, with
    and without [.download] and [.digest], be different and hold at most files.  Let
    decompression undo compression, the setting of a file's time change times only, and
    reads return something of what there is.  Then the request, the listing, and one
    round per block, one per file for its digest and its confirmation, and one for the
    end, are enough: neither end has a job left, every file is at its place with the
    host's contents, without [.download] or [.digest], nothing else has changed, the
    user was asked nothing, saw no error, and is told last that the job is done. *)
Theorem download_completes now i path to hidden fs contents dests ts s :
  (∀ n, 0 < n → 0 < Dispatch.short denv n <= n)%nat →
  (∀ x, decompress (Dispatch.compress denv x) = x) →
  (∀ v p t, times_only v (set_file_mtime v p t)) →
  fs ≠ [] → (Z.of_nat (length fs) < 2 ^ 31)%Z →
  serving path hidden fs contents (host s) → asking i to fs dests (client s) →
  let blocks := blocks_from (Dispatch.compress denv) i path fs 0 (zip fs contents) in
  (length blocks + length fs < length ts)%nat →
  let s' := download now i path to hidden ts s in
  d_read_jobs (host s') = [] ∧ r_write_jobs (client s') = []
  ∧ (∀ k d par leaf, contents !! k = Some d → dests !! k = Some (par, leaf) →
       content_at (r_fs (client s')) (par ++ [leaf]) d
       ∧ node_at (r_fs (client s')) (par ++ [dl leaf]) = None ∧ node_at (r_fs (client s')) (par ++ [dg leaf]) = None)
  ∧ chg (mjoin (map (λ pl, slot pl.1 pl.2) dests)) (r_fs (client s)) (r_fs (client s'))
  ∧ (∃ l, r_ui (client s') = r_ui (client s) ++ l ∧ forallb quiet l = true
       ∧ last (r_ui (client s')) = Some (JobDone i (Z.of_nat (length fs)))).
Proof.
  intros Hshort Hcd Hmt Hne Hcount Hsv Hsk blocks Hts s'. set (vr := r_fs (client s)).
  destruct (download_begins now i path to hidden fs contents dests s Hcount Hsv Hsk)
    as (hj & cj & Hl & S & Hs & Hi & Hr & Hcj).
  unfold s', download. set (s0 := exchange now (exchange now _)) in *. clearbody s0.
  destruct Hcj as (Hid & Hcr & Hcs & Hct & Hsrc & Hfs & Hnum & Hst). subst i.
  pose proof (sv_readable _ _ _ _ _ Hsv) as Hread. pose proof (as_places _ _ _ _ _ Hsk) as HP.
  set (vs := d_fs (host s)) in *. set (jid := id cj) in *.
  set (items := mk_items (Dispatch.compress denv) jid path fs 0 (zip fs contents) dests).
  assert (length items = length fs) as Hlen
    by apply (items_length (Dispatch.compress denv) vs jid path fs contents Hread to vr dests HP).
  assert (before decompress to items jid vr 0 cj vr) as Hb.
  { cbn [before]. split_and!; try done; [|by apply Hsk|].
    - split_and!; try done. unfold items.
      by rewrite (items_entries (Dispatch.compress denv) vs jid path fs contents Hread to vr dests HP).
    - by apply (items_clean (Dispatch.compress denv) vs jid path fs contents Hread to vr dests HP). }
  set (n := (length blocks + length fs)%nat) in *.
  destruct (rounds_files jid (r_ui (client s)) path fs contents vs Hshort Hcount to vr dests Hread HP Hmt
              (sv_mtimes _ _ _ _ _ Hsv) (as_absent _ _ _ _ _ Hsk) (zip fs contents) (take n ts) 0 hj cj vr s0)
    as (hj' & cj' & cv' & Hl' & S' & Hi' & Hb' & Hpl'); try done.
  { fold blocks. rewrite length_take, (zip_length vs path fs contents Hread). lia. }
  rewrite <- (take_drop n ts), foldl_app. set (s1 := foldl _ s0 (take n ts)) in *. clearbody s1.
  destruct (drop n ts) as [|t ts'] eqn:Et.
  { apply (f_equal length) in Et. rewrite length_drop in Et. simpl in Et. lia. }
  fold items in Hb'. rewrite <- Hlen in Hb'.
  destruct (receive_finish decompress set_file_mtime Hmt to items) with (jid := jid) (j := cj') (v := cv')
    (out := @nil FileMessage) (v0 := vr) as (v' & Em & Hdone & Hchg); try done.
  { intros it v. by apply (items_join (Dispatch.compress denv) vs jid path fs contents Hread to vr dests HP). }
  { by apply (items_names (Dispatch.compress denv) vs jid path fs contents Hread to vr dests HP). }
  { by apply (items_disjoint (Dispatch.compress denv) vs jid path fs contents Hread to vr dests HP). }
  { by rewrite Hlen. }
  { by apply (items_blocks (Dispatch.compress denv) vs jid path fs contents Hread to vr dests HP). }
  { intros E. rewrite E in Hlen. by destruct fs. }
  destruct (before_job _ _ _ _ _ _ _ _ Hb') as ((_ & Ht' & _) & _).
  destruct (round_end jid (r_ui (client s)) path fs vs Hcount t hj' cj' cv' v' s1 Hl' S' Hi' Hpl' Ht' Em)
    as (Hh & Hc & Hp & Hlast).
  cbn [foldl]. rewrite (rounds_idle vs ts' (round t s1) Hh Hp).
  rewrite (ca_fs _ _ _ _ _ Hc). split_and!.
  - apply Hh.
  - apply Hc.
  - by apply (items_done (Dispatch.compress denv) vs jid path fs contents Hread dests decompress v').
  - by apply (items_slots (Dispatch.compress denv) vs jid path fs contents Hread to vr dests HP).
  - destruct (ca_ui _ _ _ _ _ Hc) as (l & Hl1 & Hq). by exists l.
Qed.
End Link.

(** ** A concrete download

    The host of [DemoDesk], asked by a client of version 1.4.0 for the directory
    [/s], into [/r] of an empty machine: two files, in three blocks, and six rounds. *)

Module DemoDownload.
Import Secret.Toy PasswordSafety.ToyJson Demo DemoDesk DemoRemote.

Definition server : Desk :=
  desk <| d_world := world <| w_conn := w_conn world <| c_lr := request "" None |> |> |>.
Definition start : Link := {| client := empty demo_receiver; Download.host := server |}.
Definition contents : list (list Z) := [[9; 9; 9; 9]; []]%Z.
Definition times : list Z := [1; 2; 3; 4; 5; 6]%Z.

Lemma serves : serving Demo.env denv "/s" true listing contents server.
Proof.
  split.
  - split_and!; [reflexivity|reflexivity|by eexists|reflexivity].
  - vm_compute. reflexivity.
  - done.
  - vm_compute. reflexivity.
  - vm_compute. reflexivity.
  - repeat constructor; eexists _, _; (split; [vm_compute; reflexivity|]);
      (split; [vm_compute; reflexivity|]); reflexivity.
  - intros i n. change (inodes (d_fs server)) with (inodes demo_sender). intros H.
    assert (map_Forall (λ _ n, bool_decide (0 <= i_mtime n)%Z = true) (inodes demo_sender)) as Hm
      by (refine (bool_decide_unpack _ _); vm_compute; exact I).
    specialize (Hm _ _ H). by apply bool_decide_eq_true in Hm.
Qed.

Lemma asks : asking false "Linux" 7 "/r" listing demo_dests (empty demo_receiver).
Proof.
  split; try done.
  - exact demo_wf.
  - split; [|exact demo_disjoint].
    pose proof demo_destinations as H. inversion H as [|? ? ? ? H1 H2]; subst. inversion H2 as [|? ? ? ? H3 _]; subst.
    constructor; [exact H1|constructor; [exact H3|constructor]].
  - intros [|[|k]] par leaf [= <- <-]; reflexivity.
Qed.
End DemoDownload.
Import DemoDesk.

Lemma download_completes_witness :
  let s' := download Demo.env DemoDesk.denv demo_compress (λ x, x) (λ _, [123%Z]) (λ _, None) (λ v _ _, v) (λ n, n) (λ l, l)
              DemoRemote.text false 1002000 "Linux" 0 7 "/s" "/r" true DemoDownload.times DemoDownload.start in
  content_at (r_fs (client s')) ["r"; "a.txt"]%string [9; 9; 9; 9]%Z
  ∧ content_at (r_fs (client s')) ["r"; "d"; "b"]%string []
  ∧ last (r_ui (client s')) = Some (JobDone 7 2).
Proof.
  cbv zeta.
  destruct (download_completes Demo.env DemoDesk.denv demo_compress (λ x, x) (λ _, [123%Z]) (λ _, None) (λ v _ _, v) (λ n, n)
    (λ l, l) DemoRemote.text false 1002000 "Linux" eq_refl 0 7 "/s" "/r" true DemoDesk.listing DemoDownload.contents
    demo_dests DemoDownload.times DemoDownload.start) as (_ & _ & H & _ & l & _ & _ & Hl).
  - exact demo_short_law.
  - exact demo_compress_law.
  - intros v p t. repeat split; reflexivity.
  - discriminate.
  - vm_compute. reflexivity.
  - exact DemoDownload.serves.
  - exact DemoDownload.asks.
  - vm_compute. lia.
  - split; [exact (proj1 (H 0%nat _ ["r"]%string "a.txt"%string eq_refl eq_refl))|].
    split; [exact (proj1 (H 1%nat _ ["r"; "d"]%string "b"%string eq_refl eq_refl))|].
    exact Hl.
Defined.
