(* ===== verification/Terminal.v ===== *)
(** * Terminals of the host

    [src/server/terminal_service.rs] on Linux: services that outlive a connection,
    each with its terminals.  A terminal is a shell on a pseudo-terminal; a thread
    reads it into a channel of bounded size, another writes to it what the peer
    types.  A loop ([run]) polls all terminals of a service: output goes to the
    terminal's buffer, and to the peer while the terminal is active.  On
    reconnection the buffer is replayed and the size of the terminal is changed for
    one poll, so that the program in it draws its screen again.  Processes that
    ended are collected by a reaper.

    A session is reached only through the map of its service, so it is a value
    there; the threads are steps.  The pseudo-terminal, the processes and the order
    of a [HashMap] are an environment.  A [send] on the full input channel waits for
    room; joining a thread waits until it ends. *)

From S2P Require Import Prelude Strs.
From Stdlib Require Import Ascii String.

Local Open Scope string_scope.
#[local] Abbreviation length := Datatypes.length.
#[local] Arguments String.append _ _ : simpl nomatch.

Definition MAX_OUTPUT_BUFFER_SIZE : Z := 1024 * 1024.
Definition MAX_BUFFER_LINES : Z := 10000.
Definition MAX_SERVICES : Z := 100.
Definition SERVICE_IDLE_TIMEOUT : Z := 3600 * 10 ^ 9.
Definition CHANNEL_BUFFER_SIZE : nat := 500.
Definition COMPRESS_THRESHOLD : Z := 512.
Definition DEFAULT_RECONNECT_BUFFER_BYTES : Z := 8 * 1024.
Definition MAX_SIGWINCH_PHASE_ATTEMPTS : nat := 3.

(** ** The output buffer *)

Record OutputBuffer := mkBuffer { lines : list (list Z); total_size : Z; last_line_incomplete : bool }.
#[global] Instance eta_OutputBuffer : Settable OutputBuffer := λ b,
  mkBuffer (lines b) (total_size b) (last_line_incomplete b).

Definition buffer_new : OutputBuffer := mkBuffer [] 0 false.

Definition len (l : list Z) : Z := Z.of_nat (length l).
Definition NL : Z := 10.

(** [data.split(|&b| b == b'\n')]. *)
Fixpoint split_nl (d : list Z) : list (list Z) :=
  match d with
  | [] => [[]]
  | b :: d =>
      if (b =? NL)%Z then [] :: split_nl d
      else match split_nl d with l :: ls => (b :: l) :: ls | [] => [[b]] end
  end.

(** Up to and with the first newline, and the rest. *)
Fixpoint through_nl (d : list Z) : option (list Z * list Z) :=
  match d with
  | [] => None
  | b :: d =>
      if (b =? NL)%Z then Some ([b], d)
      else match through_nl d with Some (l, r) => Some (b :: l, r) | None => None end
  end.

Definition add_total (n : Z) (b : OutputBuffer) : OutputBuffer := b <| total_size := wrap 64 (total_size b + n) |>.
Definition push_line (l : list Z) (b : OutputBuffer) : OutputBuffer :=
  add_total (len l) b <| lines := (lines b ++ [l])%list |>.

Fixpoint push_lines (ls : list (list Z)) (ends_with_newline : bool) (b : OutputBuffer) : OutputBuffer :=
  match ls with
  | [] => b
  | line :: ls =>
      let last := bool_decide (ls = []) in
      let empty := bool_decide (line = []) in
      let b := if last && negb ends_with_newline && negb empty then b <| last_line_incomplete := true |> else b in
      let b := if negb empty || negb last
               then push_line (if negb last || ends_with_newline then line ++ [NL] else line)%list b else b in
      push_lines ls ends_with_newline b
  end.

Definition too_large (ls : list (list Z)) (total : Z) : bool :=
  (MAX_OUTPUT_BUFFER_SIZE <? total)%Z || (MAX_BUFFER_LINES <? Z.of_nat (length ls))%Z.

(** One turn of the loop that trims. *)
Definition trim_turn (b : OutputBuffer) : OutputBuffer :=
  match lines b with
  | [] => b
  | l :: ls => b <| lines := ls |> <| total_size := wrap 64 (total_size b - len l) |>
  end.

(** [None]: the loop does not end, since no line is left and the total is too large. *)
Fixpoint trim (ls : list (list Z)) (total : Z) : option (list (list Z) * Z) :=
  if too_large ls total then
    match ls with [] => None | l :: ls => trim ls (wrap 64 (total - len l)) end
  else Some (ls, total).

Definition ends_with_nl (d : list Z) : bool := match last d with Some b => (b =? NL)%Z | None => false end.

Definition append_rest (d : list Z) (b : OutputBuffer) : option OutputBuffer :=
  let b := push_lines (split_nl d) (ends_with_nl d) b in
  match trim (lines b) (total_size b) with
  | Some (ls, total) => Some (b <| lines := ls |> <| total_size := total |>)
  | None => None
  end.

Definition last_line (ls : list (list Z)) : option (list (list Z) * list Z) :=
  match last ls with Some l => Some (removelast ls, l) | None => None end.

Definition append (data : list Z) (b : OutputBuffer) : option OutputBuffer :=
  if bool_decide (data = []) then Some b else
  match (if last_line_incomplete b then last_line (lines b) else None) with
  | Some (front, l) =>
      match through_nl data with
      | Some (d, rest) =>
          append_rest rest (b <| lines := (front ++ [l ++ d])%list |> <| last_line_incomplete := false |>)
      | None => Some (add_total (len data) (b <| lines := (front ++ [l ++ data])%list |>))
      end
  | None => append_rest data b
  end.

(** Continuation bytes at the front, at most [n]. *)
Fixpoint skip_continuation (n : nat) (l : list Z) : list Z :=
  match n, l with
  | S n, b :: l' => if (Z.land b 192 =? 128)%Z then skip_continuation n l' else l
  | _, _ => l
  end.

Fixpoint recent_lines (newest_first : list (list Z)) (max size : Z) (chunks : list (list Z)) : list (list Z) :=
  match newest_first with
  | [] => chunks
  | line :: older =>
      if (max <? size + len line)%Z then
        if ((size =? 0) && (max <? len line))%Z then
          let tail := skip_continuation 3 (drop (Z.to_nat (len line - max)) line) in
          if bool_decide (tail = []) then chunks else tail :: chunks
        else chunks
      else recent_lines older max (size + len line) (line :: chunks)
  end.

Definition get_recent (max : Z) (b : OutputBuffer) : list Z :=
  if (max =? 0)%Z then [] else mjoin (recent_lines (rev (lines b)) max 0 []).

(** ** Sessions *)

Inductive SigwinchPhase := SwIdle | TempResize (retries : nat) | Restore (retries : nat).
Inductive SigwinchAction := DoTempResize | DoRestore.
Inductive SessionState := Closed | Active (pending_buffer : option (list Z)) (sigwinch : SigwinchPhase).

Record TerminalSession := mkSession {
  ts_created_at : Z;
  ts_last_activity : Z;
  pty_pair : option (Z * Z);              (* its rows and columns *)
  child : option Z;                       (* the process, by its id *)
  input_tx : bool;
  input_queue : list (list Z);
  output_rx : bool;
  output_queue : list (list Z);
  exiting : bool;
  reader_thread : option bool;            (* whether it runs *)
  writer_thread : option bool;
  typed : list (list Z);                  (* what the writer wrote *)
  output_buffer : OutputBuffer;
  title : string;
  pid : Z;
  rows : Z;
  cols : Z;
  closed_message_sent : bool;
  ts_state : SessionState
}.
#[global] Instance eta_TerminalSession : Settable TerminalSession := λ s,
  mkSession (ts_created_at s) (ts_last_activity s) (pty_pair s) (child s) (input_tx s) (input_queue s)
    (output_rx s) (output_queue s) (exiting s) (reader_thread s) (writer_thread s) (typed s)
    (output_buffer s) (title s) (pid s) (rows s) (cols s) (closed_message_sent s) (ts_state s).

Definition session_new (now i rows cols : Z) : TerminalSession :=
  mkSession now now None None false [] false [] false None None [] buffer_new
    ("Terminal " ++ show_Z i) 0 rows cols false Closed.

(** [stop], also run by [Drop]; the child it killed goes to the reaper. *)
Definition stop (s : TerminalSession) : TerminalSession * list Z :=
  (s <| ts_state := Closed |> <| exiting := true |> <| input_tx := false |>
     <| input_queue := if input_tx s then (input_queue s ++ [[13; 10]%Z])%list else input_queue s |>
     <| output_rx := false |> <| pty_pair := None |> <| reader_thread := None |> <| writer_thread := None |>
     <| child := None |>,
   match child s with Some c => [c] | None => [] end).

(** The thread that reads the pseudo-terminal got [n > 0] bytes. *)
Definition reader_got (data : list Z) (s : TerminalSession) : TerminalSession :=
  match reader_thread s with
  | Some true =>
      if exiting s || negb (output_rx s) then s <| reader_thread := Some false |>
      else if (length (output_queue s) <? CHANNEL_BUFFER_SIZE)%nat
      then s <| output_queue := (output_queue s ++ [data])%list |>
      else s
  | _ => s
  end.
Definition reader_ended (s : TerminalSession) : TerminalSession :=
  match reader_thread s with Some _ => s <| reader_thread := Some false |> | None => s end.

(** The thread that writes it takes a message; [false]: the write failed. *)
Definition writer_turn (ok : bool) (s : TerminalSession) : TerminalSession :=
  match writer_thread s, input_queue s with
  | Some true, d :: q =>
      if ok then s <| input_queue := q |> <| typed := (typed s ++ [d])%list |>
      else s <| input_queue := q |> <| writer_thread := Some false |>
  | Some true, [] => if input_tx s then s else s <| writer_thread := Some false |>
  | _, _ => s
  end.

Record PersistentTerminalService := mkTermService {
  service_id : string;
  sessions : gmap Z TerminalSession;
  sv_created_at : Z;
  sv_last_activity : Z;
  is_persistent : bool;
  needs_session_sync : bool;
  is_specified_user : bool
}.
#[global] Instance eta_TermService : Settable PersistentTerminalService := λ s,
  mkTermService (service_id s) (sessions s) (sv_created_at s) (sv_last_activity s) (is_persistent s)
    (needs_session_sync s) (is_specified_user s).

Definition service_new (now : Z) (sid : string) (persistent specified : bool) : PersistentTerminalService :=
  mkTermService sid ∅ now now persistent false specified.

Definition reset_status (persistent : bool) (v : PersistentTerminalService) : PersistentTerminalService :=
  v <| is_persistent := persistent |> <| needs_session_sync := true |>
    <| sessions := (λ s, s <| ts_state := Closed |>) <$> sessions v |>.

(** [TERMINAL_SERVICES] and [TERMINAL_TASKS]. *)
Record TermWorld := mkTermWorld { services : gmap string PersistentTerminalService; tasks : list Z }.
#[global] Instance eta_TermWorld : Settable TermWorld := λ w, mkTermWorld (services w) (tasks w).

(** ** Messages *)

Inductive TerminalAction :=
| TaOpen (terminal_id rows cols : Z)
| TaResize (terminal_id rows cols : Z)
| TaData (terminal_id : Z) (data : list Z)
| TaClose (terminal_id : Z)
| TaNone.

Inductive TerminalResponse :=
| TrOpened (terminal_id : Z) (success : bool) (message : string) (pid : Z) (service_id : string)
    (persistent_sessions : list Z)
| TrData (terminal_id : Z) (data : list Z) (compressed : bool)
| TrClosed (terminal_id exit_code : Z)
| TrError (terminal_id : Z) (message : string).

(** What the system answers during one call. *)
Inductive WaitStatus := Running | Exited (code : Z) | WaitFailed.
Record TermEnv := {
  te_now : Z;
  te_spawn : result string Z;                    (* the shell on a new pseudo-terminal *)
  te_pipes : result string unit;                 (* [take_writer], then [try_clone_reader] *)
  te_resize : Z → Z → result string unit;
  te_kill : Z → result string unit;
  te_wait : Z → WaitStatus;
  te_busy : Z → bool;                            (* another thread holds the session *)
  te_compress : list Z → list Z;
  te_ids : gmap Z TerminalSession → list Z       (* the order of a [HashMap] *)
}.

Definition get_default_shell (shell_var : option string) (exists_ : string → bool) : string :=
  match shell_var with
  | Some shell => if is_empty shell then default "/bin/sh" (List.find exists_ ["/bin/bash"; "/bin/zsh"; "/bin/sh"])
                  else shell
  | None => default "/bin/sh" (List.find exists_ ["/bin/bash"; "/bin/zsh"; "/bin/sh"])
  end.

(** ** Services *)

Section Terminal.
Variable env : TermEnv.

Definition get_service (sid : string) (w : TermWorld) : option PersistentTerminalService := services w !! sid.
Definition put_service (sid : string) (v : PersistentTerminalService) (w : TermWorld) : TermWorld :=
  w <| services := <[sid := v]> (services w) |>.
Definition add_to_reaper (cs : list Z) (w : TermWorld) : TermWorld := w <| tasks := (tasks w ++ cs)%list |>.

Definition is_service_specified_user (sid : string) (w : TermWorld) : option bool :=
  is_specified_user <$> get_service sid w.

Definition get_or_create_service (sid : string) (persistent specified : bool) (w : TermWorld)
    : result string unit * TermWorld :=
  if (match services w !! sid with None => true | Some _ => false end
      && (MAX_SERVICES <=? Z.of_nat (size (services w)))%Z)
  then (Err ("Maximum number of terminal services (" ++ show_Z MAX_SERVICES ++ ") reached"), w)
  else
    let v := default (service_new (te_now env) sid persistent specified) (services w !! sid) in
    (Ok tt, put_service sid (reset_status persistent v) w).

Definition remove_service (sid : string) (w : TermWorld) : TermWorld :=
  match services w !! sid with
  | None => w
  | Some v =>
      let ended := mjoin (map (λ i, match sessions v !! i with Some s => (stop s).2 | None => [] end)
                            (te_ids env (sessions v))) in
      add_to_reaper ended (w <| services := delete sid (services w) |>)
  end.

Definition idle_for (v : PersistentTerminalService) : Z := Z.max 0 (te_now env - sv_last_activity v).
Definition is_inactive (v : PersistentTerminalService) : bool :=
  if is_persistent v then bool_decide (sessions v = ∅) && (SERVICE_IDLE_TIMEOUT * 2 <? idle_for v)%Z
  else (SERVICE_IDLE_TIMEOUT <? idle_for v)%Z.
Definition cleanup_inactive_services (w : TermWorld) : TermWorld :=
  foldl (λ w kv, if is_inactive kv.2 then remove_service kv.1 w else w) w (map_to_list (services w)).

(** A process that ended, or cannot be asked, is dropped. *)
Definition check_zombie_terminals (w : TermWorld) : TermWorld :=
  w <| tasks := List.filter (λ c, match te_wait env c with Running => true | _ => false end) (tasks w) |>.

Definition get_terminal_session_count (include_zombie_tasks : bool) (w : TermWorld) : Z :=
  Z.of_nat (size (services w) + if include_zombie_tasks then length (tasks w) else 0).

Definition set_persistent (sid : string) (persistent : bool) (w : TermWorld) : result string unit * TermWorld :=
  match get_service sid w with
  | Some v => (Ok tt, put_service sid (v <| is_persistent := persistent |>) w)
  | None => (Err ("Service " ++ sid ++ " not found"), w)
  end.

(** ** Actions *)

Fixpoint min_id (ids : list Z) : option Z :=
  match ids with
  | [] => None
  | i :: ids => Some (match min_id ids with Some k => Z.min i k | None => i end)
  end.

(** The surviving session with the lowest id takes the place of one that is not there. *)
Definition remap (i : Z) (v : PersistentTerminalService) : PersistentTerminalService :=
  match sessions v !! i with
  | Some _ => v
  | None =>
      if needs_session_sync v then
        match min_id (te_ids env (sessions v)) with
        | Some low =>
            match sessions v !! low with
            | Some s => v <| sessions := <[i := s]> (delete low (sessions v)) |>
            | None => v
            end
        | None => v
        end
      else v
  end.

Definition pending_of (s : TerminalSession) : option (list Z) :=
  let buffer := get_recent DEFAULT_RECONNECT_BUFFER_BYTES (output_buffer s) in
  if bool_decide (buffer = []) then None else Some buffer.

Definition reconnect_session (s : TerminalSession) : TerminalSession :=
  s <| ts_state := Active (pending_of s) (TempResize MAX_SIGWINCH_PHASE_ATTEMPTS) |>.

Definition handle_open (sid : string) (i r c : Z) (v : PersistentTerminalService)
    : result string (option TerminalResponse) * PersistentTerminalService :=
  let v := remap i v in
  match sessions v !! i with
  | Some s =>
      let others := if needs_session_sync v
                    then List.filter (λ k, negb (k =? i)%Z) (te_ids env (sessions v)) else [] in
      (Ok (Some (TrOpened i true "Reconnected to existing terminal" (pid s) sid others)),
       v <| sessions := <[i := reconnect_session s]> (sessions v) |> <| needs_session_sync := false |>)
  | None =>
      match te_spawn env with
      | Err e => (Err e, v)
      | Ok p =>
          match te_pipes env with
          | Err e => (Err e, v)                  (* the process runs, nobody has it *)
          | Ok _ =>
              let r := wrap 16 r in let c := wrap 16 c in
              let s := session_new (te_now env) i r c
                         <| pid := p |> <| pty_pair := Some (r, c) |> <| child := Some p |>
                         <| input_tx := true |> <| output_rx := true |> <| reader_thread := Some true |>
                         <| writer_thread := Some true |> <| ts_state := Active None SwIdle |> in
              let others := if needs_session_sync v then te_ids env (sessions v) else [] in
              (Ok (Some (TrOpened i true "Terminal opened" p (service_id v) others)),
               v <| sessions := <[i := s]> (sessions v) |> <| needs_session_sync := false |>)
          end
      end
  end.

Definition resize_pty (r c : Z) (s : TerminalSession) : result string TerminalSession :=
  match pty_pair s with
  | Some _ => match te_resize env r c with Ok _ => Ok (s <| pty_pair := Some (r, c) |>) | Err e => Err e end
  | None => Ok s
  end.

Definition handle_resize (r c : Z) (s : TerminalSession) : result string unit * TerminalSession :=
  let r := wrap 16 r in let c := wrap 16 c in
  let s := s <| ts_last_activity := te_now env |> <| rows := r |> <| cols := c |> in
  match resize_pty r c s with Ok s => (Ok tt, s) | Err e => (Err e, s) end.

Definition handle_data (data : list Z) (s : TerminalSession) : TerminalSession :=
  let s := s <| ts_last_activity := te_now env |> in
  match writer_thread s with
  | Some true => if input_tx s then s <| input_queue := (input_queue s ++ [data])%list |> else s
  | _ => s
  end.

(** The session is dropped in any case. *)
Definition handle_close (i : Z) (v : PersistentTerminalService)
    : result string (option TerminalResponse) * PersistentTerminalService * list Z :=
  match sessions v !! i with
  | None => (Ok None, v, [])
  | Some s =>
      let v := v <| sessions := delete i (sessions v) |> in
      match child s with
      | Some c =>
          match te_kill env c with
          | Ok _ => (Ok (Some (TrClosed i (-1))), v, [c])
          | Err e => (Err e, v, [])
          end
      | None => (Ok (Some (TrClosed i 0)), v, [])
      end
  end.

Definition handle_action (sid : string) (a : TerminalAction) (w : TermWorld)
    : result string (option TerminalResponse) * TermWorld :=
  match get_service sid w with
  | None => (Ok (Some (TrError 0 ("Terminal service " ++ sid ++ " not found"))), w)
  | Some v =>
      let v := v <| sv_last_activity := te_now env |> in
      match a with
      | TaOpen i r c => let '(res, v) := handle_open sid i r c v in (res, put_service sid v w)
      | TaResize i r c =>
          match sessions v !! i with
          | Some s =>
              let '(res, s) := handle_resize r c s in
              (match res with Ok _ => Ok None | Err e => Err e end,
               put_service sid (v <| sessions := <[i := s]> (sessions v) |>) w)
          | None => (Ok None, put_service sid v w)
          end
      | TaData i data =>
          (Ok None, put_service sid (v <| sessions := alter (handle_data data) i (sessions v) |>) w)
      | TaClose i =>
          let '(res, v, ended) := handle_close i v in (res, add_to_reaper ended (put_service sid v w))
      | TaNone => (Ok None, put_service sid v w)
      end
  end.

(** ** Polling *)

Definition sigwinch_rows (a : SigwinchAction) (r : Z) : Z :=
  match a with
  | DoTempResize => if (2 <? r)%Z then r - 1 else Z.min 65535 (r + 1)
  | DoRestore => r
  end.

Definition do_sigwinch_resize (a : SigwinchAction) (s : TerminalSession) : bool * TerminalSession :=
  if ((rows s =? 0) || (cols s =? 0))%Z then (false, s) else
  match pty_pair s with
  | Some _ =>
      match te_resize env (sigwinch_rows a (rows s)) (cols s) with
      | Ok _ => (true, s <| pty_pair := Some (sigwinch_rows a (rows s), cols s) |>)
      | Err _ => (false, s)
      end
  | None => (false, s)
  end.

Definition create_terminal_data_response (i : Z) (data : list Z) : TerminalResponse :=
  if (COMPRESS_THRESHOLD <? len data)%Z then
    let compressed := te_compress env data in
    if (len compressed <? len data)%Z then TrData i compressed true else TrData i data false
  else TrData i data false.

(** The action of the current phase, and the phase left behind. *)
Definition take_sigwinch (p : SigwinchPhase) : option SigwinchAction * SigwinchPhase :=
  match p with
  | TempResize O | Restore O => (None, SwIdle)
  | TempResize (S n) => (Some DoTempResize, TempResize n)
  | Restore (S n) => (Some DoRestore, Restore n)
  | SwIdle => (None, SwIdle)
  end.
Definition after_resize (a : SigwinchAction) (ok : bool) (p : SigwinchPhase) : SigwinchPhase :=
  match a, ok with
  | DoTempResize, true => Restore MAX_SIGWINCH_PHASE_ATTEMPTS
  | DoRestore, true => SwIdle
  | _, false => p
  end.

Fixpoint append_all (chunks : list (list Z)) (b : OutputBuffer) : option OutputBuffer :=
  match chunks with
  | [] => Some b
  | d :: chunks => match append d b with Some b => append_all chunks b | None => None end
  end.

Definition poll_sigwinch (p : SigwinchPhase) (s : TerminalSession) : TerminalSession :=
  let '(action, p) := take_sigwinch p in
  match action with
  | None => s <| ts_state := Active None p |>
  | Some a =>
      let '(ok, s) := do_sigwinch_resize a s in s <| ts_state := Active None (after_resize a ok p) |>
  end.

(** One session: what is sent, whether its reader ended.  [None]: it never returns. *)
Definition poll_session (i : Z) (s : TerminalSession) : option (list TerminalResponse * TerminalSession * bool) :=
  let ended := negb (closed_message_sent s) && match reader_thread s with Some false => true | _ => false end in
  let s := if ended then s <| closed_message_sent := true |> else s in
  let received := if output_rx s then output_queue s else [] in
  let s := if output_rx s then s <| output_queue := [] |> else s in
  let s := if bool_decide (received = []) then s else s <| ts_last_activity := te_now env |> in
  match append_all received (output_buffer s) with
  | None => None
  | Some b =>
      let s := s <| output_buffer := b |> in
      match ts_state s with
      | Closed => Some ([], s, ended)
      | Active pending p =>
          let replay := match pending with
                        | Some (x :: l) => [create_terminal_data_response i (x :: l)]
                        | _ => [] end in
          Some ((replay ++ map (create_terminal_data_response i) received)%list, poll_sigwinch p s, ended)
      end
  end.

Fixpoint poll_sessions (ids : list Z) (m : gmap Z TerminalSession)
    : option (list TerminalResponse * gmap Z TerminalSession * list Z) :=
  match ids with
  | [] => Some ([], m, [])
  | i :: ids =>
      match m !! i with
      | Some s =>
          if te_busy env i then poll_sessions ids m else
          match poll_session i s with
          | None => None
          | Some (out, s, ended) =>
              match poll_sessions ids (<[i := s]> m) with
              | Some (out', m, closed) => Some ((out ++ out')%list, m, if ended then i :: closed else closed)
              | None => None
              end
          end
      | None => poll_sessions ids m
      end
  end.

Definition exit_code_of (s : TerminalSession) : Z :=
  match child s with
  | Some c => match te_wait env c with Exited code => swrap 32 code | _ => 0 end
  | None => 0
  end.

(** The terminals whose reader ended. *)
Fixpoint clean_closed (persistent : bool) (closed : list Z) (m : gmap Z TerminalSession)
    : list TerminalResponse * gmap Z TerminalSession * list Z :=
  match closed with
  | [] => ([], m, [])
  | i :: closed =>
      match m !! i with
      | Some s =>
          let ended := match child s with Some c => [c] | None => [] end in
          let m := if persistent then <[i := s <| child := None |>]> m else delete i m in
          let '(out, m, ended') := clean_closed persistent closed m in
          (TrClosed i (exit_code_of s) :: out, m, (ended ++ ended')%list)
      | None =>
          let '(out, m, ended') := clean_closed persistent closed m in (TrClosed i 0 :: out, m, ended')
      end
  end.

(** [persistent]: what the proxy was told, or took from the service. *)
Definition read_outputs (persistent : bool) (sid : string) (w : TermWorld)
    : option (list TerminalResponse * TermWorld) :=
  match get_service sid w with
  | None => Some ([], w)
  | Some v =>
      match poll_sessions (te_ids env (sessions v)) (sessions v) with
      | None => None
      | Some (out, m, closed) =>
          let '(out', m, ended) := clean_closed persistent closed m in
          Some ((out ++ out')%list, add_to_reaper ended (put_service sid (v <| sessions := m |>) w))
      end
  end.

(** One turn of [run]; the proxy is new each time. *)
Definition run_turn (sid : string) (w : TermWorld) : option (list TerminalResponse * TermWorld) :=
  read_outputs (match get_service sid w with Some v => is_persistent v | None => false end) sid w.

(** The loop ended, because the connection is gone. *)
Definition run_end (sid : string) (w : TermWorld) : TermWorld :=
  match get_service sid w with
  | Some v => if is_persistent v then w else remove_service sid w
  | None => w
  end.

Definition on_disconnect (persistent : bool) (sid : string) (w : TermWorld) : TermWorld :=
  if persistent then w else remove_service sid w.

(** What [list_services] tells of a service. *)
Definition list_services (w : TermWorld) : list (string * Z * Z * bool) :=
  map (λ kv, (kv.1, sv_created_at kv.2, Z.of_nat (size (sessions kv.2)), is_persistent kv.2))
    (map_to_list (services w)).

Definition list_terminals (v : PersistentTerminalService) : list (Z * string * Z * Z) :=
  mjoin (map (λ i, match sessions v !! i with
                   | Some s => [(i, title s, pid s, ts_created_at s)] | None => [] end) (te_ids env (sessions v))).
Definition get_terminal_buffer (i max : Z) (v : PersistentTerminalService) : option (list Z) :=
  (λ s, get_recent max (output_buffer s)) <$> sessions v !! i.
Definition get_terminal_info (i : Z) (v : PersistentTerminalService) : option (Z * Z * list Z) :=
  (λ s, (rows s, cols s, get_recent DEFAULT_RECONNECT_BUFFER_BYTES (output_buffer s))) <$> sessions v !! i.
Definition has_active_terminals (v : PersistentTerminalService) : bool := negb (bool_decide (sessions v = ∅)).

(** ** Steps *)

Inductive TermInput :=
| TiNew (sid : string) (persistent specified : bool)
| TiAction (sid : string) (a : TerminalAction)
| TiPersistent (sid : string) (persistent : bool)
| TiPoll (sid : string)
| TiEnd (sid : string)
| TiReaderGot (sid : string) (i : Z) (data : list Z)
| TiReaderEnded (sid : string) (i : Z)
| TiWriter (sid : string) (i : Z) (ok : bool)
| TiReap
| TiCleanup.

Definition on_session (sid : string) (i : Z) (f : TerminalSession → TerminalSession) (w : TermWorld) : TermWorld :=
  w <| services := alter (λ v, v <| sessions := alter f i (sessions v) |>) sid (services w) |>.

(** What a step sends, and the world it leaves; [None]: it never ends. *)
Definition term_step (x : TermInput) (w : TermWorld) : option (list TerminalResponse * TermWorld) :=
  match x with
  | TiNew sid persistent specified => Some ([], (get_or_create_service sid persistent specified w).2)
  | TiAction sid a =>
      let '(res, w) := handle_action sid a w in
      Some (match res with Ok (Some r) => [r] | _ => [] end, w)
  | TiPersistent sid persistent => Some ([], (set_persistent sid persistent w).2)
  | TiPoll sid => run_turn sid w
  | TiEnd sid => Some ([], run_end sid w)
  | TiReaderGot sid i data => Some ([], on_session sid i (reader_got data) w)
  | TiReaderEnded sid i => Some ([], on_session sid i reader_ended w)
  | TiWriter sid i ok => Some ([], on_session sid i (writer_turn ok) w)
  | TiReap => Some ([], check_zombie_terminals w)
  | TiCleanup => Some ([], cleanup_inactive_services w)
  end.
End Terminal.
