(* ===== verification/TerminalSafety.v ===== *)
(** * Theorems on the terminals of the host

    The output buffer keeps the end of what a terminal wrote; what it wrote reaches
    the peer in order, and what the peer types reaches the terminal ([Terminal]); a
    terminal is found again after a reconnection; a process that was started is looked
    after until it ended.  Last, where it goes wrong. *)

From Stdlib Require Import Ascii String.
From S2P Require Import Prelude Strs Terminal.

Local Open Scope list_scope.
#[local] Abbreviation length := Datatypes.length.
#[local] Arguments String.append _ _ : simpl nomatch.

(** ** The output buffer *)

Definition content (b : OutputBuffer) : list Z := mjoin (lines b).

(** The pieces with newlines between them. *)
Fixpoint unsplit (ls : list (list Z)) : list Z :=
  match ls with
  | [] => []
  | [l] => l
  | l :: ls => l ++ NL :: unsplit ls
  end.

Lemma split_nl_nonempty d : split_nl d ≠ [].
Proof. induction d as [|b d IH]; [done|]. cbn [split_nl]. case_match; [done|]. by case_match. Qed.

Lemma split_nl_cons b d :
  split_nl (b :: d) = if (b =? NL)%Z then [] :: split_nl d
                      else match split_nl d with l :: ls => (b :: l) :: ls | [] => [[b]] end.
Proof. done. Qed.

Lemma unsplit_split d : unsplit (split_nl d) = d.
Proof.
  induction d as [|b d IH]; [done|]. rewrite split_nl_cons. pose proof (split_nl_nonempty d) as Hne.
  destruct (Z.eqb_spec b NL) as [->|Hb].
  - destruct (split_nl d); [done|]. cbn [unsplit app] in *. by rewrite IH.
  - destruct (split_nl d) as [|l [|l' ls]]; [done|..]; cbn [unsplit app] in *; by rewrite IH.
Qed.

(** The last piece has no newline. *)
Lemma split_nl_last d : ∃ pre l, last (split_nl d) = Some l ∧ d = pre ++ l ∧ NL ∉ l.
Proof.
  induction d as [|b d (pre & l & E & Hd & Hl)]; [exists [], []; split_and!; [done..|by apply not_elem_of_nil]|].
  rewrite split_nl_cons. pose proof (split_nl_nonempty d) as Hne. destruct (Z.eqb_spec b NL) as [->|Hb].
  - exists (NL :: pre), l. split_and!; [|by rewrite Hd|done]. destruct (split_nl d); [done|exact E].
  - pose proof (unsplit_split d) as Hu. destruct (split_nl d) as [|l1 [|l2 ls]]; [done|..].
    + injection E as ->. cbn in Hu. exists [], (b :: l). split_and!; [done|by rewrite <- Hu|].
      apply not_elem_of_cons. done.
    + exists (b :: pre), l. split_and!; [exact E|by rewrite Hd|done].
Qed.

Lemma split_nl_ends d : ends_with_nl d = true → last (split_nl d) = Some [].
Proof.
  destruct (split_nl_last d) as (pre & l & -> & Hd & Hl). unfold ends_with_nl. rewrite Hd.
  destruct (decide (l = [])) as [->|Hne]; [done|].
  destruct (exists_last Hne) as (l1 & x & ->). rewrite app_assoc, last_snoc. intros ->%Z.eqb_eq.
  exfalso. apply Hl, elem_of_app. right. by apply list_elem_of_here.
Qed.

Lemma len_app a c : len (a ++ c) = (len a + len c)%Z.
Proof. unfold len. rewrite length_app. lia. Qed.

Lemma join_cons {A} (l : list A) ls : mjoin (l :: ls) = l ++ mjoin ls.
Proof. done. Qed.

Lemma mjoin_snoc {A} (ls : list (list A)) l : mjoin (ls ++ [l]) = mjoin ls ++ l.
Proof. rewrite join_app. cbn. by rewrite app_nil_r. Qed.

(** Pushing the pieces adds the data, and counts it. *)
Lemma push_lines_spec ls e b :
  ls ≠ [] → (e = true → last ls = Some []) →
  let b' := push_lines ls e b in
  content b' = content b ++ unsplit ls ∧ total_size b' = (if bool_decide (unsplit ls = []) then total_size b
                                                          else wrap 64 (total_size b + len (unsplit ls)))
  ∧ last_line_incomplete b' = last_line_incomplete b || (negb e && negb (bool_decide (last ls = Some []))).
Proof.
  intros Hne He b'. unfold b'. clear b'. revert b. induction ls as [|l ls IH]; intros b; [done|].
  cbn [push_lines]. destruct (decide (ls = [])) as [->|Hls].
  - change (bool_decide (@nil (list Z) = [])) with true. cbn [andb negb orb last unsplit].
    destruct (decide (l = [])) as [->|Hl].
    + change (bool_decide (@nil Z = [])) with true. cbn [negb orb push_lines]. rewrite andb_false_r, app_nil_r.
      split_and!; [done..|]. by rewrite andb_false_r, orb_false_r.
    + rewrite !(bool_decide_false (l = [])) by done. cbn [negb orb push_lines andb].
      assert (e = false) as -> by (destruct e; [|done]; specialize (He eq_refl); cbn in He; congruence).
      cbn [negb andb]. unfold push_line, add_total, content. cbn. rewrite mjoin_snoc.
      rewrite bool_decide_false by congruence. split_and!; [done|done|by rewrite orb_true_r].
  - rewrite (bool_decide_false (ls = [])) by done. cbn [andb negb orb]. rewrite orb_true_r.
    destruct (IH Hls) with (b := push_line (l ++ [NL]) b) as (H1 & H2 & H3).
    { intros E. specialize (He E). by destruct ls. }
    assert (unsplit (l :: ls) = (l ++ [NL]) ++ unsplit ls) as -> by (destruct ls; [done|]; cbn; by rewrite <- app_assoc).
    rewrite H1, H2, H3. unfold push_line, add_total, content. cbn [lines total_size last_line_incomplete upd eta eta_OutputBuffer].
    rewrite mjoin_snoc. split_and!.
    + by rewrite <- app_assoc.
    + rewrite (bool_decide_false ((l ++ [NL]) ++ unsplit ls = [])) by by destruct l.
      rewrite (len_app (l ++ [NL])). destruct (decide (unsplit ls = [])) as [E|E].
      { rewrite E. change (bool_decide (@nil Z = [])) with true. cbn [length]. f_equal. unfold len. cbn. lia. }
      rewrite (bool_decide_false (unsplit ls = [])) by done.
      unfold wrap. rewrite Zplus_mod_idemp_l. f_equal. lia.
    + by destruct ls.
Qed.

Lemma too_large_spec ls t :
  too_large ls t = false ↔ (t <= MAX_OUTPUT_BUFFER_SIZE ∧ Z.of_nat (length ls) <= MAX_BUFFER_LINES)%Z.
Proof. unfold too_large. rewrite orb_false_iff, !Z.ltb_ge. done. Qed.

Lemma trim_step ls t :
  trim ls t = if too_large ls t then match ls with [] => None | l :: ls => trim ls (wrap 64 (t - len l)) end
              else Some (ls, t).
Proof. by destruct ls. Qed.

Lemma trim_suffix ls t ls' t' :
  trim ls t = Some (ls', t') → (∃ dropped, ls = dropped ++ ls') ∧ too_large ls' t' = false.
Proof.
  revert t. induction ls as [|l ls IH]; intros t; rewrite trim_step; (destruct (too_large _ t) eqn:E).
  - done.
  - intros [= <- <-]. split; [by exists []|done].
  - intros H. destruct (IH _ H) as [[dropped ->] H']. split; [by exists (l :: dropped)|done].
  - intros [= <- <-]. split; [by exists []|done].
Qed.

(** With the total counted right, the loop ends. *)
Lemma trim_exact ls :
  (len (mjoin ls) < 2 ^ 64)%Z → ∃ ls', trim ls (len (mjoin ls)) = Some (ls', len (mjoin ls')).
Proof.
  induction ls as [|l ls IH]; intros Hl; rewrite trim_step; (destruct (too_large _ _) eqn:E).
  - by apply not_false_iff_true in E; exfalso; apply E; apply too_large_spec.
  - by exists [].
  - change (mjoin (l :: ls)) with (l ++ mjoin ls) in *. rewrite len_app in *.
    replace (len l + len (mjoin ls) - len l)%Z with (len (mjoin ls)) by lia.
    rewrite wrap_small by (unfold uint, len in *; lia). apply IH. unfold len in *. lia.
  - by eexists.
Qed.

(** [None] is a loop without end. *)
Lemma trim_spins ls t : trim ls t = None →
  ∀ n, let b := Nat.iter n trim_turn (mkBuffer ls t false) in too_large (lines b) (total_size b) = true.
Proof.
  intros H n. revert ls t H. induction n as [|n IH]; intros ls t; rewrite trim_step;
    (destruct (too_large ls t) eqn:E; [|done]); intros H; [exact E|].
  rewrite Nat.iter_succ_r. destruct ls as [|l ls]; [|by apply IH].
  apply (IH [] t). by rewrite trim_step, E.
Qed.

(** ** Appending *)

Definition exact (b : OutputBuffer) : Prop := total_size b = len (content b).

Lemma through_nl_spec d l r : through_nl d = Some (l, r) → d = l ++ r.
Proof.
  revert l. induction d as [|b d IH]; intros l; [done|]. cbn [through_nl]. case_match; [by intros [= <- <-]|].
  destruct (through_nl d) as [[l' r']|]; [|done]. intros [= <- <-]. by rewrite (IH l' eq_refl).
Qed.

Lemma last_line_spec ls front l : last_line ls = Some (front, l) → ls = front ++ [l].
Proof.
  unfold last_line. destruct (decide (ls = [])) as [->|Hne]; [done|].
  destruct (exists_last Hne) as (l1 & x & ->). rewrite last_snoc, removelast_last. by intros [= <- <-].
Qed.

Lemma append_rest_content d b b' :
  append_rest d b = Some b' →
  (∃ dropped, content b ++ d = dropped ++ content b') ∧ too_large (lines b') (total_size b') = false.
Proof.
  unfold append_rest. destruct (push_lines_spec (split_nl d) (ends_with_nl d) b) as (H1 & _ & _);
    [apply split_nl_nonempty|apply split_nl_ends|]. rewrite unsplit_split in H1.
  set (b1 := push_lines _ _ _) in *. destruct (trim _ _) as [[ls t]|] eqn:E; [|done]. intros [= <-].
  destruct (trim_suffix _ _ _ _ E) as [[dropped Hd] Hs]. split; [|done]. exists (mjoin dropped).
  unfold content in *. rewrite <- H1, Hd, join_app. done.
Qed.

Lemma append_rest_exact d b :
  exact b → (total_size b + len d < 2 ^ 64)%Z → ∃ b', append_rest d b = Some b' ∧ exact b'.
Proof.
  intros Hb Hlt. unfold append_rest.
  destruct (push_lines_spec (split_nl d) (ends_with_nl d) b) as (H1 & H2 & _);
    [apply split_nl_nonempty|apply split_nl_ends|]. rewrite unsplit_split in H1, H2.
  set (b1 := push_lines _ _ _) in *. assert (total_size b1 = len (mjoin (lines b1))) as E.
  { unfold content in H1. rewrite H1. unfold exact in Hb. rewrite H2. case_bool_decide as Hd; [subst d; by rewrite app_nil_r|].
    rewrite wrap_small; [rewrite len_app, Hb; done|]. unfold uint, len in *. lia. }
  destruct (trim_exact (lines b1)) as [ls Hls].
  { unfold content in H1. rewrite H1, len_app. unfold exact, content in Hb. lia. }
  rewrite E, Hls. by eexists.
Qed.

(** What the buffer holds is the end of what was written, whatever is counted. *)
Lemma append_content data b b' : append data b = Some b' → ∃ dropped, content b ++ data = dropped ++ content b'.
Proof.
  unfold append. case_bool_decide as Hd; [intros [= <-]; exists []; by rewrite Hd, app_nil_r|].
  destruct (if last_line_incomplete b then last_line (lines b) else None) as [[front l]|] eqn:El.
  2: { by intros [H _]%append_rest_content. }
  destruct (last_line_incomplete b); [|done]. apply last_line_spec in El.
  destruct (through_nl data) as [[d rest]|] eqn:Et.
  - apply through_nl_spec in Et as ->. intros [(dropped & H) _]%append_rest_content. exists dropped. rewrite <- H.
    unfold content. rewrite El. cbn [lines upd eta eta_OutputBuffer]. by rewrite !mjoin_snoc, <- !app_assoc.
  - intros [= <-]. exists []. unfold content. rewrite El. cbn. by rewrite !mjoin_snoc, <- app_assoc.
Qed.

(** An unfinished line is not finished by a newline: then everything is counted. *)
Lemma append_exact data b :
  exact b → (last_line_incomplete b = true → through_nl data = None) → (total_size b + len data < 2 ^ 64)%Z →
  ∃ b', append data b = Some b' ∧ exact b'.
Proof.
  intros Hb Hnl Hlt. unfold append. case_bool_decide as Hd; [by eexists|].
  destruct (last_line_incomplete b); [|by apply append_rest_exact].
  destruct (last_line (lines b)) as [[front l]|] eqn:El; [|by apply append_rest_exact].
  rewrite (Hnl eq_refl). eexists. split; [done|]. apply last_line_spec in El.
  unfold exact, content in *. cbn [add_total upd eta eta_OutputBuffer total_size lines].
  rewrite El in Hb. rewrite mjoin_snoc, len_app in *. rewrite len_app.
  rewrite wrap_small; unfold uint, len in *; lia.
Qed.

(** ** What is replayed *)

Lemma skip_continuation_suffix n l : ∃ pre, l = pre ++ skip_continuation n l.
Proof.
  revert l. induction n as [|n IH]; intros l; [by exists []|]. destruct l as [|b l]; [by exists []|].
  cbn [skip_continuation]. case_match; [|by exists []]. destruct (IH l) as [pre E]. exists (b :: pre). cbn. by rewrite <- E.
Qed.

Lemma len_nonneg l : (0 <= len l)%Z.
Proof. unfold len. lia. Qed.
#[local] Hint Resolve len_nonneg : core.

Lemma recent_lines_spec newest max chunks :
  (len (mjoin chunks) <= max)%Z →
  let r := recent_lines newest max (len (mjoin chunks)) chunks in
  (∃ older, mjoin (rev newest) ++ mjoin chunks = older ++ mjoin r) ∧ (len (mjoin r) <= max)%Z.
Proof.
  revert chunks. induction newest as [|l newest IH]; intros chunks Hc; cbn [recent_lines rev].
  - split; [by exists []|done].
  - rewrite mjoin_snoc. destruct (Z.ltb_spec max (len (mjoin chunks) + len l)) as [Hlt|Hle].
    + assert (∃ older, (mjoin (rev newest) ++ l) ++ mjoin chunks = older ++ mjoin chunks) as Hall by by eexists.
      destruct (Z.eqb_spec (len (mjoin chunks)) 0) as [H0|H0]; [|by split]. cbn [andb].
      destruct (Z.ltb_spec max (len l)) as [Hl|Hl]; [|by split].
      set (tl := skip_continuation 3 _). case_bool_decide as Ht; [by split|].
      destruct (skip_continuation_suffix 3 (drop (Z.to_nat (len l - max)) l)) as [pre E]. fold tl in E.
      assert (mjoin chunks = []) as Hm by (destruct (mjoin chunks); [done|unfold len in H0; cbn in H0; lia]).
      assert (mjoin (tl :: chunks) = tl) as -> by (change (mjoin (tl :: chunks)) with (tl ++ mjoin chunks); by rewrite Hm, app_nil_r).
      rewrite Hm, app_nil_r. split.
      * exists (mjoin (rev newest) ++ take (Z.to_nat (len l - max)) l ++ pre).
        rewrite <- (take_drop (Z.to_nat (len l - max)) l) at 1. by rewrite E, <- !app_assoc.
      * apply (f_equal len) in E. rewrite len_app in E. unfold len in *. rewrite length_drop in E. lia.
    + destruct (IH (l :: chunks)) as [(older & H1) H2].
      { change (mjoin (l :: chunks)) with (l ++ mjoin chunks). rewrite len_app. lia. }
      change (mjoin (l :: chunks)) with (l ++ mjoin chunks) in *. rewrite len_app in *.
      rewrite (Z.add_comm (len l)) in H1, H2.
      split; [|exact H2]. exists older. by rewrite <- app_assoc.
Qed.

Lemma get_recent_spec max b :
  (0 <= max)%Z → (∃ older, content b = older ++ get_recent max b) ∧ (len (get_recent max b) <= max)%Z.
Proof.
  intros Hm. unfold get_recent. destruct (Z.eqb_spec max 0) as [->|].
  - split; [exists (content b); by rewrite app_nil_r|done].
  - destruct (recent_lines_spec (rev (lines b)) max []) as [(older & H1) H2]; [done|].
    rewrite rev_involutive, app_nil_r in H1. split; [by exists older|done].
Qed.

(** Everything, when it fits. *)
Lemma recent_lines_all newest max chunks :
  (len (mjoin (rev newest)) + len (mjoin chunks) <= max)%Z →
  recent_lines newest max (len (mjoin chunks)) chunks = rev newest ++ chunks.
Proof.
  revert chunks. induction newest as [|l newest IH]; intros chunks Hc; [done|]. cbn [recent_lines rev] in *.
  rewrite mjoin_snoc, len_app in Hc. pose proof (len_nonneg (mjoin (rev newest))).
  replace (max <? len (mjoin chunks) + len l)%Z with false by lia.
  replace (len (mjoin chunks) + len l)%Z with (len (mjoin (l :: chunks)))
    by (change (mjoin (l :: chunks)) with (l ++ mjoin chunks); rewrite len_app; lia).
  rewrite IH; [by rewrite <- app_assoc|]. change (mjoin (l :: chunks)) with (l ++ mjoin chunks). rewrite len_app. lia.
Qed.

Lemma get_recent_all max b : (len (content b) <= max)%Z → get_recent max b = content b.
Proof.
  intros Hm. unfold get_recent. destruct (Z.eqb_spec max 0) as [->|].
  - unfold content in *. destruct (mjoin (lines b)); [done|]. unfold len in Hm. cbn in Hm. lia.
  - unfold content in *. pose proof (recent_lines_all (rev (lines b)) max []) as E.
    rewrite rev_involutive, app_nil_r in E. change (len (mjoin [])) with 0%Z in E. rewrite E; [done|]. lia.
Qed.

(** ** Polling *)

(** What is asked of the environments: an order of a map lists its keys. *)
Definition env_ok (env : TermEnv) : Prop := ∀ m, te_ids env m ≡ₚ (map_to_list m).*1.

Lemma ids_nodup env m : env_ok env → NoDup (te_ids env m).
Proof. intros H. rewrite (H m). apply NoDup_fst_map_to_list. Qed.
Lemma elem_of_ids env m i : env_ok env → i ∈ te_ids env m ↔ is_Some (m !! i).
Proof.
  intros H. rewrite (H m), list_elem_of_fmap. split.
  - intros ([k s] & -> & Hin). apply elem_of_map_to_list in Hin. by exists s.
  - intros [s Hs]. exists (i, s). split; [done|]. by apply elem_of_map_to_list.
Qed.

Definition session_at (sid : string) (i : Z) (w : TermWorld) : option TerminalSession :=
  services w !! sid ≫= λ v, sessions v !! i.

Section Stream.
Context (decompress : list Z → list Z).

(** The data for one terminal among some responses. *)
Definition data_of_response (i : Z) (r : TerminalResponse) : list Z :=
  match r with
  | TrData k d c => if (k =? i)%Z then (if c then decompress d else d) else []
  | _ => []
  end.
Definition data_for (i : Z) (out : list TerminalResponse) : list Z := mjoin (map (data_of_response i) out).

Lemma data_for_app i a b : data_for i (a ++ b) = data_for i a ++ data_for i b.
Proof. unfold data_for. by rewrite map_app, join_app. Qed.

Section Env.
Context (env : TermEnv) (Henv : env_ok env) (Hcomp : ∀ d, decompress (te_compress env d) = d).

Lemma data_for_response i d : data_for i [create_terminal_data_response env i d] = d.
Proof.
  unfold data_for, create_terminal_data_response. cbn [map mjoin list_join foldr].
  repeat case_match; cbn; rewrite Z.eqb_refl, app_nil_r; [apply Hcomp|done..].
Qed.
Lemma data_for_other i k d : k ≠ i → data_for i [create_terminal_data_response env k d] = [].
Proof.
  intros Hk. unfold data_for, create_terminal_data_response. apply Z.eqb_neq in Hk.
  repeat case_match; cbn; by rewrite Hk.
Qed.
Lemma data_for_responses i ds : data_for i (map (create_terminal_data_response env i) ds) = mjoin ds.
Proof.
  induction ds as [|d ds IH]; [done|]. cbn [map]. change (?x :: ?l) with ([x] ++ l).
  by rewrite data_for_app, data_for_response, IH.
Qed.
Lemma data_for_others i k ds : k ≠ i → data_for i (map (create_terminal_data_response env k) ds) = [].
Proof.
  intros Hk. induction ds as [|d ds IH]; [done|]. cbn [map]. change (?x :: ?l) with ([x] ++ l).
  by rewrite data_for_app, data_for_other, IH.
Qed.

Definition pending (s : TerminalSession) : list Z :=
  match ts_state s with Active (Some d) _ => d | _ => [] end.

(** Whatever else it does, a poll keeps these. *)
Record same_terminal (s s' : TerminalSession) : Prop := {
  sm_child : child s' = child s;
  sm_input : input_tx s' = input_tx s ∧ input_queue s' = input_queue s;
  sm_threads : reader_thread s' = reader_thread s ∧ writer_thread s' = writer_thread s;
  sm_typed : typed s' = typed s;
  sm_output : output_rx s' = output_rx s ∧ exiting s' = exiting s;
  sm_size : rows s' = rows s ∧ cols s' = cols s ∧ pid s' = pid s
}.

Lemma resize_same a s : same_terminal s (do_sigwinch_resize env a s).2.
Proof. unfold do_sigwinch_resize. repeat case_match; done. Qed.

Lemma poll_sigwinch_same p s : same_terminal s (poll_sigwinch env p s).
Proof.
  unfold poll_sigwinch. destruct (take_sigwinch p) as [[a|] p']; [|done].
  pose proof (resize_same a s) as H. destruct (do_sigwinch_resize env a s) as [ok s']. by destruct H.
Qed.

Lemma poll_sigwinch_keeps p s :
  output_queue (poll_sigwinch env p s) = output_queue s ∧ (∃ p', ts_state (poll_sigwinch env p s) = Active None p')
  ∧ output_buffer (poll_sigwinch env p s) = output_buffer s.
Proof.
  unfold poll_sigwinch, do_sigwinch_resize. destruct (take_sigwinch p) as [[a|] p']; repeat case_match; simplify_eq; cbn;
    split_and!; try done; by eexists.
Qed.

Definition replay (i : Z) (p : option (list Z)) : list TerminalResponse :=
  match p with Some (x :: l) => [create_terminal_data_response env i (x :: l)] | _ => [] end.
Definition received (s : TerminalSession) : list (list Z) := if output_rx s then output_queue s else [].

(** The session before its phase is looked at. *)
Lemma poll_session_inv i s out s' ended :
  poll_session env i s = Some (out, s', ended) →
  ∃ s0, same_terminal s s0 ∧ pty_pair s0 = pty_pair s ∧ (output_rx s = true → output_queue s0 = [])
    ∧ ended = (negb (closed_message_sent s) && match reader_thread s with Some false => true | _ => false end)
    ∧ match ts_state s with
      | Closed => out = [] ∧ s' = s0
      | Active p ph => out = replay i p ++ map (create_terminal_data_response env i) (received s) ∧ s' = poll_sigwinch env ph s0
      end.
Proof.
  unfold poll_session. set (e := negb _ && _). set (s1 := if e then _ else s).
  set (got := if output_rx s1 then _ else _). set (s2 := if output_rx s1 then _ else s1).
  set (s3 := if bool_decide (got = []) then s2 else _).
  destruct (append_all got (output_buffer s3)) as [b|]; [|done].
  assert (same_terminal s s3 ∧ pty_pair s3 = pty_pair s ∧ ts_state s3 = ts_state s
          ∧ (output_rx s = true → output_queue s3 = []) ∧ got = received s) as (Hs & Hpty & Hst & Hq & Hgot).
  { assert (same_terminal s s1 ∧ pty_pair s1 = pty_pair s ∧ ts_state s1 = ts_state s ∧ output_rx s1 = output_rx s
            ∧ output_queue s1 = output_queue s) as (H1 & H2 & H3 & H4 & H5) by by unfold s1; destruct e.
    assert (same_terminal s s2 ∧ pty_pair s2 = pty_pair s ∧ ts_state s2 = ts_state s ∧ (output_rx s = true → output_queue s2 = []))
      as (H6 & H7 & H8 & H9).
    { unfold s2. rewrite H4. clearbody s1. destruct (output_rx s); [|by split]. split; [by destruct H1|]. by split. }
    assert (got = received s) as H10 by (unfold got, received; by rewrite H4, H5).
    unfold s3. clearbody s2 got. destruct (bool_decide _); [by split_and!|]. split; [by destruct H6|]. by split_and!. }
  set (s4 := s3 <| output_buffer := b |>). change (ts_state s4) with (ts_state s3). rewrite Hst, Hgot. intros E.
  exists s4. split; [by destruct Hs|]. split; [done|]. split; [done|].
  destruct (ts_state s); injection E as <- <- <-; done.
Qed.

Lemma poll_session_same i s out s' ended : poll_session env i s = Some (out, s', ended) → same_terminal s s'.
Proof.
  intros (s0 & Hs & _ & _ & _ & H)%poll_session_inv. destruct (ts_state s) as [|p ph]; destruct H as [_ ->]; [done|].
  pose proof (poll_sigwinch_same ph s0) as H1. destruct Hs, H1. split; intuition congruence.
Qed.

(** One session: its queue is emptied, and sent when it is active. *)
Lemma poll_session_spec i s out s' ended :
  poll_session env i s = Some (out, s', ended) →
  same_terminal s s' ∧ (∀ k, k ≠ i → data_for k out = [])
  ∧ (output_rx s = true → output_queue s' = [])
  ∧ (∀ p ph, ts_state s = Active p ph → output_rx s = true →
       data_for i out = pending s ++ mjoin (output_queue s) ∧ ∃ ph', ts_state s' = Active None ph')
  ∧ ended = (negb (closed_message_sent s) && match reader_thread s with Some false => true | _ => false end).
Proof.
  intros E. split; [by eapply poll_session_same|]. apply poll_session_inv in E as (s0 & _ & _ & Hq & He & H).
  unfold received in H. destruct (ts_state s) as [|p ph] eqn:Est; destruct H as [-> ->].
  - by split_and!.
  - destruct (poll_sigwinch_keeps ph s0) as (Hq0 & Hst & _). split_and!.
    + intros k Hk. rewrite data_for_app, data_for_others by done. rewrite app_nil_r.
      destruct p as [[|x l]|]; [done| |done]. by apply data_for_other.
    + intros Ho. rewrite Hq0. by apply Hq.
    + intros p0 ph0 [= <- <-] ->. split; [|done]. rewrite data_for_app, data_for_responses. f_equal.
      unfold pending. rewrite Est. destruct p as [[|x l]|]; [done| |done]. apply data_for_response.
    + done.
Qed.

Lemma poll_sessions_other ids m out m' closed i :
  poll_sessions env ids m = Some (out, m', closed) → i ∉ ids ∨ te_busy env i = true →
  m' !! i = m !! i ∧ data_for i out = [] ∧ i ∉ closed.
Proof.
  revert m out m' closed. induction ids as [|k ids IH]; intros m out m' closed; cbn [poll_sessions].
  { intros [= <- <- <-] _. split_and!; [done|done|apply not_elem_of_nil]. }
  intros E Hi. assert (i ∉ ids ∨ te_busy env i = true) as Hi' by (rewrite not_elem_of_cons in Hi; naive_solver).
  destruct (m !! k) as [s|]; [|by apply IH]. destruct (te_busy env k) eqn:Hb; [by apply IH|].
  assert (k ≠ i) as Hk by (destruct Hi as [Hi|Hi]; [by apply not_elem_of_cons in Hi as [? _]|congruence]).
  destruct (poll_session env k s) as [[[o s1] e]|] eqn:Ep; [|done].
  destruct (poll_sessions env ids _) as [[[o' m1] c]|] eqn:Er; [|done]. injection E as <- <- <-.
  destruct (IH _ _ _ _ Er Hi') as (H1 & H2 & H3). apply poll_session_spec in Ep as (_ & Ho & _).
  split_and!.
  - by rewrite H1, lookup_insert_ne.
  - by rewrite data_for_app, H2, Ho.
  - destruct e; [|done]. by apply not_elem_of_cons.
Qed.

Lemma poll_sessions_at ids m out m' closed i s :
  poll_sessions env ids m = Some (out, m', closed) → NoDup ids → i ∈ ids → m !! i = Some s → te_busy env i = false →
  ∃ o s' ended, poll_session env i s = Some (o, s', ended) ∧ m' !! i = Some s' ∧ data_for i out = data_for i o
    ∧ (ended = false → i ∉ closed).
Proof.
  revert m out m' closed. induction ids as [|k ids IH]; intros m out m' closed E Hn Hi Hs Hb.
  { by apply not_elem_of_nil in Hi. }
  cbn [poll_sessions] in E. apply NoDup_cons in Hn as [Hk Hn]. apply elem_of_cons in Hi as [->|Hi].
  - rewrite Hs, Hb in E. destruct (poll_session env k s) as [[[o s1] e]|] eqn:Ep; [|done].
    destruct (poll_sessions env ids _) as [[[o' m1] c]|] eqn:Er; [|done]. injection E as <- <- <-.
    destruct (poll_sessions_other _ _ _ _ _ k Er (or_introl Hk)) as (H1 & H2 & H3).
    exists o, s1, e. split_and!; [done|by rewrite H1, lookup_insert_eq|by rewrite data_for_app, H2, app_nil_r|].
    intros ->. done.
  - assert (k ≠ i) as Hne by (intros ->; done).
    destruct (m !! k) as [sk|]; [|by apply (IH m)]. destruct (te_busy env k); [by apply (IH m)|].
    destruct (poll_session env k sk) as [[[o s1] e]|] eqn:Ep; [|done].
    destruct (poll_sessions env ids _) as [[[o' m1] c]|] eqn:Er; [|done]. injection E as <- <- <-.
    destruct (IH _ _ _ _ Er Hn Hi) as (o2 & s2 & e2 & H1 & H2 & H3 & H4); [by rewrite lookup_insert_ne|done|].
    apply poll_session_spec in Ep as (_ & Ho & _). exists o2, s2, e2. split_and!; [done|done| |].
    + by rewrite data_for_app, Ho, H3.
    + intros He. destruct e; [apply not_elem_of_cons; split; [done|]|]; by apply H4.
Qed.

Lemma clean_closed_other p closed m i :
  i ∉ closed → (clean_closed env p closed m).1.2 !! i = m !! i ∧ data_for i (clean_closed env p closed m).1.1 = [].
Proof.
  revert m. induction closed as [|k closed IH]; intros m Hi; [done|]. apply not_elem_of_cons in Hi as [Hk Hi].
  cbn [clean_closed]. destruct (m !! k) as [s|] eqn:Es.
  - set (m1 := if p then _ else _). destruct (IH m1 Hi) as [H1 H2].
    destruct (clean_closed env p closed m1) as [[o m2] e]. cbn [fst snd] in *. split; [|exact H2].
    rewrite H1. unfold m1. destruct p; [by apply lookup_insert_ne|by apply lookup_delete_ne].
  - destruct (IH m Hi) as [H1 H2]. destruct (clean_closed env p closed m) as [[o m2] e]. by split.
Qed.

(** A poll of a service, seen from one of its sessions. *)
Lemma run_turn_session sid i w s out w' :
  run_turn env sid w = Some (out, w') → session_at sid i w = Some s →
  (reader_thread s = Some true ∨ closed_message_sent s = true) →
  ∃ s', session_at sid i w' = Some s'
    ∧ if te_busy env i then s' = s ∧ data_for i out = []
      else ∃ o ended, poll_session env i s = Some (o, s', ended) ∧ data_for i out = data_for i o.
Proof.
  unfold run_turn, read_outputs, session_at, get_service. destruct (services w !! sid) as [v|] eqn:Ev; [|done].
  cbn [mbind option_bind]. intros E Hs Halive. destruct (poll_sessions env _ _) as [[[o m] closed]|] eqn:Ep; [|done].
  assert (i ∈ te_ids env (sessions v)) as Hin by (apply elem_of_ids; [done|by eexists]).
  assert (∃ s', m !! i = Some s' ∧ i ∉ closed ∧ (if te_busy env i then s' = s ∧ data_for i o = []
      else ∃ o' ended, poll_session env i s = Some (o', s', ended) ∧ data_for i o = data_for i o')) as (s' & Hm & Hcl & H).
  { destruct (te_busy env i) eqn:Hb.
    - destruct (poll_sessions_other _ _ _ _ _ i Ep (or_intror Hb)) as (H1 & H2 & H3). exists s. by rewrite H1.
    - destruct (poll_sessions_at _ _ _ _ _ i s Ep (ids_nodup env _ Henv) Hin Hs Hb) as (o' & s' & e & H1 & H2 & H3 & H4).
      exists s'. split_and!; [done| |by exists o', e]. apply H4.
      apply poll_session_spec in H1 as (_ & _ & _ & _ & ->). by destruct Halive as [-> | ->]; rewrite ?andb_false_r. }
  destruct (clean_closed_other (is_persistent v) closed m i Hcl) as [H1 H2].
  destruct (clean_closed env (is_persistent v) closed m) as [[o2 m2] e2]. cbn [fst snd] in *. injection E as <- <-.
  exists s'. cbn. rewrite lookup_insert_eq. cbn. rewrite H1. split; [done|]. by rewrite data_for_app, H2, app_nil_r.
Qed.
End Env.

(** ** A run of the host *)

Fixpoint term_run (xs : list (TermEnv * TermInput)) (w : TermWorld)
    : option (list (TermInput * list TerminalResponse) * TermWorld) :=
  match xs with
  | [] => Some ([], w)
  | (env, x) :: xs =>
      match term_step env x w with
      | None => None
      | Some (out, w) =>
          match term_run xs w with
          | Some (outs, w) => Some ((x, out) :: outs, w)
          | None => None
          end
      end
  end.

Section Watched.
Context (sid : string) (i : Z).

(** A terminal that is open, with both its threads running. *)
Record streaming (s : TerminalSession) : Prop := {
  st_active : ∃ p ph, ts_state s = Active p ph;
  st_output : output_rx s = true ∧ exiting s = false ∧ reader_thread s = Some true;
  st_input : input_tx s = true ∧ writer_thread s = Some true
}.

(** Steps that do not open or close it, take it for another, end its service or its
    threads, or give its service to a new connection. *)
Definition calm (env : TermEnv) (x : TermInput) (w : TermWorld) : bool :=
  match x with
  | TiNew sid' _ _ => negb (String.eqb sid' sid)
  | TiEnd sid' => negb (String.eqb sid' sid)
                  || match get_service sid w with Some v => is_persistent v | None => false end
  | TiAction sid' (TaOpen i' _ _) =>
      negb (String.eqb sid' sid)
      || negb (i' =? i)%Z && match get_service sid w with
                             | Some v => negb (needs_session_sync v) || bool_decide (is_Some (sessions v !! i'))
                             | None => false
                             end
  | TiAction sid' (TaClose i') | TiReaderEnded sid' i' => negb (String.eqb sid' sid && (i' =? i)%Z)
  | TiWriter sid' i' ok => ok || negb (String.eqb sid' sid && (i' =? i)%Z)
  | TiCleanup => match get_service sid w with Some v => negb (is_inactive env v) | None => false end
  | _ => true
  end.
Fixpoint calm_run (xs : list (TermEnv * TermInput)) (w : TermWorld) : bool :=
  match xs with
  | [] => true
  | (env, x) :: xs => calm env x w && match term_step env x w with Some (_, w) => calm_run xs w | None => true end
  end.

(** What the terminal wrote in a step, and what was typed for it. *)
Definition written (x : TermInput) : list (list Z) :=
  match x with TiReaderGot sid' i' d => if String.eqb sid' sid && (i' =? i)%Z then [d] else [] | _ => [] end.
Definition typed_in (x : TermInput) : list Z :=
  match x with TiAction sid' (TaData i' d) => if String.eqb sid' sid && (i' =? i)%Z then d else [] | _ => [] end.
(** What its peer gets from it. *)
Definition delivered (xo : TermInput * list TerminalResponse) : list Z :=
  match xo.1 with TiPoll sid' => if String.eqb sid' sid then data_for i xo.2 else [] | _ => [] end.

Definition to_send (s : TerminalSession) : list Z := pending s ++ mjoin (output_queue s).
Definition input_of (s : TerminalSession) : list Z := mjoin (typed s) ++ mjoin (input_queue s).

Lemma session_at_put sid' v w :
  session_at sid i (put_service sid' v w) = if String.eqb sid' sid then sessions v !! i else session_at sid i w.
Proof.
  unfold session_at, put_service. cbn. destruct (String.eqb_spec sid' sid) as [->|Hne].
  - by rewrite lookup_insert_eq.
  - by rewrite lookup_insert_ne.
Qed.

Lemma session_at_on sid' i' f w :
  session_at sid i (on_session sid' i' f w)
  = (if String.eqb sid' sid && (i' =? i)%Z then f else λ s, s) <$> session_at sid i w.
Proof.
  unfold session_at, on_session. cbn. destruct (String.eqb_spec sid' sid) as [->|Hne].
  - rewrite lookup_alter_eq. destruct (services w !! sid) as [v|]; [|done]. cbn.
    destruct (Z.eqb_spec i' i) as [->|Hi]; [by rewrite lookup_alter_eq|].
    rewrite lookup_alter_ne by done. by destruct (sessions v !! i).
  - rewrite lookup_alter_ne by done. cbn. by destruct (services w !! sid ≫= _).
Qed.

Lemma session_at_remove env sid' w :
  sid' ≠ sid → session_at sid i (remove_service env sid' w) = session_at sid i w.
Proof.
  intros Hne. unfold remove_service, session_at. destruct (services w !! sid'); [|done]. cbn. by rewrite lookup_delete_ne.
Qed.

(** What a step is to the terminal: nothing but its own. *)
Definition effect (env : TermEnv) (x : TermInput) (s s' : TerminalSession) (out : list TerminalResponse) : Prop :=
  delivered (x, out) ++ to_send s' = to_send s ++ mjoin (if (length (output_queue s) <? CHANNEL_BUFFER_SIZE)%nat then written x else [])
  ∧ input_of s' = input_of s ++ typed_in x
  ∧ (length (output_queue s') <= match x with
       | TiPoll sid' => if String.eqb sid' sid && negb (te_busy env i) then 0 else length (output_queue s)
       | _ => length (output_queue s) + length (written x)
       end)%nat.

Lemma effect_none env x s out :
  delivered (x, out) = [] → written x = [] → typed_in x = [] →
  (match x with TiPoll sid' => String.eqb sid' sid && negb (te_busy env i) = false | _ => True end) → effect env x s s out.
Proof.
  intros H1 H2 H3 H4. unfold effect. rewrite H1, H2, H3. split_and!.
  - destruct (_ <? _)%nat; cbn; by rewrite app_nil_r.
  - by rewrite app_nil_r.
  - destruct x; first [rewrite H4; lia|lia].
Qed.

Lemma get_or_create_other env sid' p sp w :
  sid' ≠ sid → session_at sid i (get_or_create_service env sid' p sp w).2 = session_at sid i w.
Proof.
  intros Hne. unfold get_or_create_service. case_match; [done|]. cbn [snd]. rewrite session_at_put.
  by apply String.eqb_neq in Hne as ->.
Qed.

Lemma join_if_nil (c : bool) : mjoin (if c then [] else []) = @nil Z.
Proof. by destruct c. Qed.

Lemma resize_effect env sid' i' r c s :
  streaming s → let s' := (handle_resize env r c s).2 in
  streaming s' ∧ effect env (TiAction sid' (TaResize i' r c)) s s' [].
Proof.
  intros Hst. unfold handle_resize, resize_pty. set (s1 := s <| ts_last_activity := _ |> <| rows := _ |> <| cols := _ |>).
  assert (streaming s1 ∧ effect env (TiAction sid' (TaResize i' r c)) s s1 []) as [H1 H2].
  { split; [by destruct Hst|]. by apply (effect_none env _ s []). }
  destruct (pty_pair s1); [|done]. destruct (te_resize _ _ _); [|done]. cbn [snd]. split; [by destruct H1|exact H2].
Qed.

(** Opening another terminal, when none is to be taken for it. *)
Lemma open_other env i' r c v s :
  i' ≠ i → negb (needs_session_sync v) || bool_decide (is_Some (sessions v !! i')) = true → sessions v !! i = Some s →
  sessions (handle_open env sid i' r c v).2 !! i = Some s.
Proof.
  intros Hne Hsync Hs. unfold handle_open. assert (remap env i' v = v) as ->.
  { unfold remap. apply orb_true_iff in Hsync as [->%negb_true_iff|[s' ->]%bool_decide_eq_true]; [by case_match|done]. }
  repeat case_match; cbn; by rewrite ?lookup_insert_ne.
Qed.

(** The removal of idle services spares one that is not. *)
Lemma cleanup_spares env w v :
  services w !! sid = Some v → is_inactive env v = false →
  session_at sid i (cleanup_inactive_services env w) = session_at sid i w.
Proof.
  intros Hv Hi. unfold cleanup_inactive_services.
  assert (∀ kv, kv ∈ map_to_list (services w) → kv.1 = sid → is_inactive env kv.2 = false) as H.
  { intros [k v'] Hin Hk. cbn in Hk. subst k. apply elem_of_map_to_list in Hin. cbn in *. congruence. }
  revert H. generalize (map_to_list (services w)). intros l. clear Hv. revert w.
  induction l as [|kv l IH]; intros w H; [done|]. cbn [foldl]. rewrite IH by (intros; apply H; [by right|done]).
  destruct (is_inactive env kv.2) eqn:E; [|done]. apply session_at_remove. intros Hk.
  rewrite (H kv) in E; [done|by left|done].
Qed.

(** Actions on other services, or on other terminals, or that neither open nor close. *)
Lemma action_effect env sid' a w s :
  calm env (TiAction sid' a) w = true → session_at sid i w = Some s → streaming s →
  ∃ s', session_at sid i (handle_action env sid' a w).2 = Some s' ∧ streaming s'
    ∧ effect env (TiAction sid' a) s s' [].
Proof.
  intros Hc Hs Hst. unfold handle_action, get_service.
  assert (typed_in (TiAction sid' a) = [] → effect env (TiAction sid' a) s s []) as Hnone
    by (intros; by apply effect_none).
  destruct (String.eqb_spec sid' sid) as [->|Hne].
  2: { assert (∀ v', session_at sid i (put_service sid' v' w) = Some s) as Hput.
       { intros v'. rewrite session_at_put. by apply String.eqb_neq in Hne as ->. }
       apply String.eqb_neq in Hne. exists s.
       assert (typed_in (TiAction sid' a) = []) as Ht by (destruct a; cbn [typed_in]; rewrite ?Hne; done).
       split_and!; [|done|by apply Hnone]. destruct (services w !! sid') as [v|]; [|done]. destruct a; cbn [snd].
       - destruct (handle_open _ _ _ _ _ _) as [res v']. apply Hput.
       - case_match; [|apply Hput]. destruct (handle_resize _ _ _ _) as [res s']. apply Hput.
       - apply Hput.
       - destruct (handle_close _ _ _) as [[res v'] e]. unfold add_to_reaper. apply Hput.
       - apply Hput. }
  unfold session_at in Hs. destruct (services w !! sid) as [v|] eqn:Ev; [|done]. cbn in Hs.
  destruct a as [i' r c | i' r c | i' d | i' | ]; cbn [calm] in Hc; unfold get_service in Hc;
    rewrite ?String.eqb_refl, ?Ev in Hc; cbn [negb orb andb] in Hc; cbn [sessions upd eta eta_TermService].
  - apply andb_prop in Hc as [Hi%negb_true_iff%Z.eqb_neq Hsync].
    destruct (handle_open _ _ _ _ _ _) as [res v'] eqn:Eo.
    assert (sessions v' !! i = Some s) as Ho.
    { change v' with (res, v').2. rewrite <- Eo. by apply open_other. }
    cbn [snd]. exists s.
    rewrite session_at_put, String.eqb_refl. split_and!; [done|done|by apply Hnone].
  - destruct (Z.eq_dec i' i) as [->|Hi].
    + rewrite Hs. destruct (resize_effect env sid i r c s Hst) as [H1 H2]. destruct (handle_resize env r c s) as [res s'].
      cbn [snd] in *. exists s'. rewrite session_at_put, String.eqb_refl. cbn. by rewrite lookup_insert_eq.
    + exists s. destruct (sessions v !! i') as [s0|]; [destruct (handle_resize _ _ _ _)|]; cbn [snd];
        rewrite session_at_put, String.eqb_refl; cbn; [rewrite lookup_insert_ne by done|]; split_and!; try done; by apply Hnone.
  - cbn [snd]. rewrite session_at_put, String.eqb_refl. cbn. destruct (Z.eqb_spec i' i) as [->|Hi].
    + rewrite lookup_alter_eq, Hs. cbn. exists (handle_data env d s). split; [done|].
      unfold handle_data. cbn. destruct (st_input _ Hst) as [Hi Hw]. rewrite Hi, Hw. split; [by destruct Hst|].
      unfold effect, delivered, to_send, pending, input_of, typed_in, written. cbn -[mjoin CHANNEL_BUFFER_SIZE]. rewrite String.eqb_refl, Z.eqb_refl. cbn [andb].
      split_and!; [by rewrite join_if_nil, app_nil_r|by rewrite mjoin_snoc, app_assoc|lia].
    + rewrite lookup_alter_ne by done. exists s. split_and!; [done|done|]. apply Hnone. cbn.
      rewrite String.eqb_refl. by apply Z.eqb_neq in Hi as ->.
  - apply negb_true_iff, Z.eqb_neq in Hc.
    destruct (handle_close _ _ _) as [[res v'] e] eqn:Eo.
    assert (sessions v' !! i = Some s) as Hd.
    { change v' with (res, v', e).1.2. rewrite <- Eo. unfold handle_close.
      repeat case_match; cbn; by rewrite ?lookup_delete_ne. }
    cbn [snd]. exists s.
    split_and!; [|done|by apply Hnone]. unfold add_to_reaper, session_at. cbn. by rewrite lookup_insert_eq.
  - exists s. cbn [snd]. rewrite session_at_put, String.eqb_refl. split_and!; [done|done|by apply Hnone].
Qed.

Lemma run_turn_other env sid' w out w' :
  sid' ≠ sid → run_turn env sid' w = Some (out, w') → session_at sid i w' = session_at sid i w.
Proof.
  intros Hne. unfold run_turn, read_outputs, get_service. destruct (services w !! sid') as [v|]; [|by intros [= _ <-]].
  destruct (poll_sessions _ _ _) as [[[o m] closed]|]; [|done]. destruct (clean_closed _ _ _ _) as [[o' m'] e].
  intros [= _ <-]. unfold session_at. cbn. by rewrite lookup_insert_ne.
Qed.

Lemma reader_effect env d s :
  streaming s → streaming (reader_got d s) ∧ effect env (TiReaderGot sid i d) s (reader_got d s) [].
Proof.
  intros Hst. pose proof (st_output _ Hst) as (Ho & He & Hr). unfold reader_got. rewrite Hr, He, Ho. cbn [orb negb].
  unfold effect, delivered, input_of, typed_in, written. cbn [fst snd].
  rewrite String.eqb_refl, Z.eqb_refl. cbn [andb].
  destruct (length (output_queue s) <? CHANNEL_BUFFER_SIZE)%nat eqn:E; rewrite app_nil_r.
  - split; [by destruct Hst|]. split_and!; [|done|cbn [output_queue upd eta eta_TerminalSession]; rewrite length_app; cbn; lia].
    unfold to_send, pending. cbn [output_queue ts_state upd eta eta_TerminalSession]. rewrite mjoin_snoc.
    change (mjoin [d]) with (d ++ []). by rewrite app_nil_r, <- app_assoc.
  - split; [done|]. split_and!; [first [done|by rewrite app_nil_r]..|cbn; lia].
Qed.

Lemma writer_effect env s :
  streaming s → streaming (writer_turn true s) ∧ effect env (TiWriter sid i true) s (writer_turn true s) [].
Proof.
  intros Hst. pose proof (st_input _ Hst) as (Hi & Hw). unfold writer_turn. rewrite Hw, Hi.
  destruct (input_queue s) as [|d q] eqn:Eq; [split; [done|by apply (effect_none env)]|]. split; [by destruct Hst|].
  unfold effect, delivered, input_of, typed_in, written. cbn [fst snd]. rewrite join_if_nil, !app_nil_r.
  split_and!; [done| |cbn; lia]. cbn [typed input_queue upd eta eta_TerminalSession]. rewrite mjoin_snoc, <- app_assoc.
  by rewrite Eq.
Qed.

Lemma poll_effect env s out w w' :
  env_ok env → (∀ d, decompress (te_compress env d) = d) →
  session_at sid i w = Some s → streaming s → run_turn env sid w = Some (out, w') →
  ∃ s', session_at sid i w' = Some s' ∧ streaming s' ∧ effect env (TiPoll sid) s s' out.
Proof.
  intros Henv Hcomp Hs Hst E. pose proof (st_output _ Hst) as (Ho & He & Hr).
  destruct (run_turn_session env Henv Hcomp sid i w s out w' E Hs (or_introl Hr)) as (s' & Hs' & H).
  exists s'. split; [done|]. destruct (te_busy env i) eqn:Hb.
  - destruct H as [-> Hd]. split; [done|]. apply effect_none; try done; unfold delivered; cbn [fst snd].
    + by rewrite String.eqb_refl.
    + by rewrite Hb, andb_false_r.
  - destruct H as (o & ended & Ep & Hd).
    destruct (poll_session_spec env Hcomp _ _ _ _ _ Ep) as ([Hch Hin Hth Hty Hout Hsz] & _ & Hq & Hdata & _).
    destruct (st_active _ Hst) as (p & ph & Hact). destruct (Hdata p ph Hact Ho) as [H1 (ph' & H2)].
    split; [split; [by eexists _, _|intuition congruence|destruct (st_input _ Hst); intuition congruence]|].
    unfold effect, delivered, input_of, typed_in, written. cbn [fst snd]. rewrite String.eqb_refl, Hb, join_if_nil, !app_nil_r.
    split_and!.
    + rewrite Hd, H1. unfold to_send. rewrite (Hq Ho). unfold pending at 2. rewrite H2. cbn. by rewrite app_nil_r.
    + by rewrite Hty, (proj2 Hin).
    + rewrite (Hq Ho). cbn. lia.
Qed.

Lemma calm_step env x w s out w' :
  env_ok env → (∀ d, decompress (te_compress env d) = d) →
  calm env x w = true → session_at sid i w = Some s → streaming s → term_step env x w = Some (out, w') →
  ∃ s', session_at sid i w' = Some s' ∧ streaming s' ∧ effect env x s s' out.
Proof.
  intros Henv Hcomp Hc Hs Hst E.
  assert (∀ sid' i' f x, w' = on_session sid' i' f w → out = [] →
     (String.eqb sid' sid && (i' =? i)%Z = true → streaming (f s) ∧ effect env x s (f s) []) →
     (String.eqb sid' sid && (i' =? i)%Z = false → effect env x s s []) →
     ∃ s', session_at sid i w' = Some s' ∧ streaming s' ∧ effect env x s s' out) as Hon.
  { intros sid' i' f x' -> -> H1 H2. rewrite session_at_on, Hs. cbn. eexists. split; [done|].
    destruct (String.eqb sid' sid && (i' =? i)%Z); [by apply H1|]. split; [done|by apply H2]. }
  destruct x as [sid' p sp | sid' a | sid' p | sid' | sid' | sid' i' d | sid' i' | sid' i' ok | |]; cbn [term_step] in E.
  - injection E as <- <-. cbn [calm] in Hc. apply negb_true_iff, String.eqb_neq in Hc.
    exists s. rewrite get_or_create_other by done. split_and!; [done|done|by apply effect_none].
  - destruct (action_effect env sid' a w s Hc Hs Hst) as (s' & H1 & H2 & H3).
    destruct (handle_action env sid' a w) as [res w1]. injection E as <- <-. exists s'. split_and!; [done|done|].
    destruct H3 as (H3 & H4 & H5). done.
  - injection E as <- <-. exists s. split_and!; [|done|by apply effect_none]. unfold set_persistent, get_service.
    destruct (services w !! sid') as [v|] eqn:Ev; [|done]. cbn [snd]. rewrite session_at_put.
    destruct (String.eqb_spec sid' sid) as [->|]; [|done]. unfold session_at in Hs. by rewrite Ev in Hs.
  - destruct (String.eqb_spec sid' sid) as [->|Hne]; [by eapply poll_effect|].
    exists s. rewrite (run_turn_other _ _ _ _ _ Hne E). apply String.eqb_neq in Hne.
    split_and!; [done|done|]. apply effect_none; try done; [|by rewrite Hne]. unfold delivered. cbn. by rewrite Hne.
  - injection E as <- <-. cbn [calm] in Hc. exists s.
    assert (session_at sid i (run_end env sid' w) = Some s) as ->.
    { unfold run_end. destruct (get_service sid' w) as [v|] eqn:Ev; [|done]. destruct (is_persistent v) eqn:Ep; [done|].
      rewrite session_at_remove; [done|]. intros ->. by rewrite String.eqb_refl, Ev, Ep in Hc. }
    split_and!; [done|done|by apply effect_none].
  - injection E as <- <-. eapply Hon; [done|done| |].
    + intros [->%String.eqb_eq ->%Z.eqb_eq]%andb_prop. by apply reader_effect.
    + intros Hne. apply effect_none; try done. unfold written. by rewrite Hne.
  - injection E as <- <-. cbn [calm] in Hc. apply negb_true_iff in Hc. eapply Hon; [done|done| |].
    + congruence.
    + intros _. by apply effect_none.
  - injection E as <- <-. eapply Hon; [done|done| |].
    + intros Heq. cbn [calm] in Hc. rewrite Heq, orb_false_r in Hc. subst ok.
      apply andb_prop in Heq as [->%String.eqb_eq ->%Z.eqb_eq]. by apply writer_effect.
    + intros _. by apply effect_none.
  - injection E as <- <-. exists s. split_and!; [done|done|by apply effect_none].
  - injection E as <- <-. cbn [calm] in Hc. destruct (get_service sid w) as [v|] eqn:Ev; [|done].
    exists s. rewrite (cleanup_spares env w v); [|done|by apply negb_true_iff in Hc].
    split_and!; [done|done|by apply effect_none].
Qed.

(** Never more chunks from the terminal between two polls than its channel holds. *)
Fixpoint paced (n : nat) (xs : list (TermEnv * TermInput)) : bool :=
  match xs with
  | [] => true
  | (env, x) :: xs =>
      match x with
      | TiReaderGot _ _ _ =>
          if bool_decide (written x = []) then paced n xs else (n <? CHANNEL_BUFFER_SIZE)%nat && paced (S n) xs
      | TiPoll sid' => paced (if String.eqb sid' sid && negb (te_busy env i) then 0 else n) xs
      | _ => paced n xs
      end
  end.
End Watched.

(** C21: a terminal's stream is whole.  While a terminal is open with both its threads
    running, its service is polled before its channel of 500 chunks is full, and the loop
    that trims a history ends ([output_hangs] is an output with which it does not), its
    peer gets exactly what the terminal wrote, in order, up to what is still queued
    (first what was to be replayed), and the terminal gets exactly what was typed for
    it, up to what is still queued.  Other connections, services and terminals, also of
    the same service, may do anything in between, be opened, closed and removed;
    excluded ([calm]) are only opening or closing this terminal, a request that takes
    it for another, a new connection to its service, the end or the removal as idle of
    its service, and the end of its threads. *)
Theorem terminal_stream sid i xs w s outs w' :
  Forall (λ ex, env_ok ex.1 ∧ (∀ d, decompress (te_compress ex.1 d) = d)) xs → calm_run sid i xs w = true →
  session_at sid i w = Some s → streaming s → paced sid i (length (output_queue s)) xs = true →
  term_run xs w = Some (outs, w') →
  ∃ s', session_at sid i w' = Some s' ∧ streaming s'
    ∧ mjoin (map (delivered sid i) outs) ++ to_send s' = to_send s ++ mjoin (map (λ ex, mjoin (written sid i ex.2)) xs)
    ∧ input_of s' = input_of s ++ mjoin (map (λ ex, typed_in sid i ex.2) xs).
Proof.
  intros Hxs Hcalm Hs Hst Hp. assert (∃ n, length (output_queue s) <= n ∧ paced sid i n xs = true)%nat as (n & Hn & Hp')
    by (exists (length (output_queue s)); split; [lia|done]). clear Hp.
  revert w s outs n Hcalm Hs Hst Hn Hp'. induction Hxs as [|[env x] xs (Henv & Hcomp) _ IH]; intros w s outs n Hcalm Hs Hst Hn Hp.
  { intros [= <- <-]. exists s. cbn. by rewrite !app_nil_r. }
  cbn [fst] in Henv, Hcomp. cbn [calm_run] in Hcalm. apply andb_prop in Hcalm as [Hc Hcalm].
  cbn [term_run]. destruct (term_step env x w) as [[out w1]|] eqn:E; [|done].
  destruct (term_run xs w1) as [[outs1 w2]|] eqn:Er; [|done]. intros [= <- <-].
  destruct (calm_step sid i env x w s out w1 Henv Hcomp Hc Hs Hst E) as (s1 & Hs1 & Hst1 & H1 & H2 & H3).
  assert (∃ n1, length (output_queue s1) <= n1 ∧ paced sid i n1 xs = true
          ∧ mjoin (if (length (output_queue s) <? CHANNEL_BUFFER_SIZE)%nat then written sid i x else []) = mjoin (written sid i x))%nat
    as (n1 & Hn1 & Hp1 & Hw).
  { destruct x; cbn [paced] in Hp;
      try (exists n; cbn [written length] in H3; split_and!; [lia|exact Hp|apply join_if_nil]).
    - exists (if String.eqb sid0 sid && negb (te_busy env i) then 0 else n). split_and!; [|exact Hp|apply join_if_nil].
      destruct (_ && _); lia.
    - case_bool_decide as Hw.
      + exists n. rewrite Hw in *. split_and!; [cbn in H3; lia|exact Hp|apply join_if_nil].
      + apply andb_prop in Hp as [Hlt%Nat.ltb_lt Hp]. exists (S n). split_and!; [|exact Hp|].
        * unfold written in H3. destruct (_ && _); cbn in H3; lia.
        * replace (length (output_queue s) <? CHANNEL_BUFFER_SIZE)%nat with true; [done|]. symmetry. apply Nat.ltb_lt. lia. }
  destruct (IH w1 s1 outs1 n1 Hcalm Hs1 Hst1 Hn1 Hp1 Er) as (s' & Hs' & Hst' & H4 & H5).
  exists s'. split_and!; [done|done| |].
  - cbn [map]. rewrite !join_cons. cbn [snd]. by rewrite <- app_assoc, H4, app_assoc, H1, Hw, <- app_assoc.
  - cbn [map]. rewrite join_cons. cbn [snd]. by rewrite H5, H2, <- app_assoc.
Qed.
End Stream.

(** ** Reconnecting *)

Section Reconnect.
Context (env : TermEnv).

(** The phase and the size after a poll, from those before it. *)
Lemma poll_session_phase i s out s' ended p ph :
  poll_session env i s = Some (out, s', ended) → ts_state s = Active p ph →
  ∃ s0, pty_pair s0 = pty_pair s ∧ rows s0 = rows s ∧ cols s0 = cols s
    ∧ pty_pair s' = pty_pair (poll_sigwinch env ph s0) ∧ ts_state s' = ts_state (poll_sigwinch env ph s0).
Proof.
  intros (s0 & Hs & Hp & _ & _ & H)%poll_session_inv Est. rewrite Est in H. destruct H as [_ ->].
  exists s0. destruct (sm_size _ _ Hs) as (H1 & H2 & _). by split_and!.
Qed.

Lemma poll_sigwinch_ok ph a s x :
  take_sigwinch ph = (Some a, x) → pty_pair s ≠ None → (0 < rows s)%Z → (0 < cols s)%Z → (∀ r c, te_resize env r c = Ok tt) →
  pty_pair (poll_sigwinch env ph s) = Some (sigwinch_rows a (rows s), cols s)
  ∧ ts_state (poll_sigwinch env ph s) = Active None (after_resize a true x).
Proof.
  intros E Hp Hr Hc Hok. unfold poll_sigwinch. rewrite E. unfold do_sigwinch_resize.
  replace ((rows s =? 0) || (cols s =? 0))%Z with false by lia. destruct (pty_pair s); [|done]. by rewrite Hok.
Qed.

(** How many polls the redrawing still takes at most. *)
Definition redraw (ph : SigwinchPhase) : nat :=
  match ph with SwIdle => 0 | TempResize n => match n with O => 1 | S _ => n + 4 end | Restore n => S n end.

Lemma redraw_decreases ph s :
  ∃ ph', ts_state (poll_sigwinch env ph s) = Active None ph' ∧ (redraw ph' <= pred (redraw ph))%nat.
Proof.
  unfold poll_sigwinch. destruct ph as [|[|n]|[|n]]; cbn [take_sigwinch]; try (by eexists; split; [done|simpl; lia]);
    destruct (do_sigwinch_resize env _ s) as [[] s1]; eexists; (split; [done|]); cbn [after_resize redraw];
    unfold MAX_SIGWINCH_PHASE_ATTEMPTS; try destruct n; lia.
Qed.
End Reconnect.

(** Polls of one session, as the service's loop makes them. *)
Fixpoint polls (envs : list TermEnv) (i : Z) (s : TerminalSession) : option TerminalSession :=
  match envs with
  | [] => Some s
  | env :: envs => match poll_session env i s with Some (_, s, _) => polls envs i s | None => None end
  end.

Lemma polls_idle envs i s s' p ph :
  ts_state s = Active p ph → (redraw ph <= length envs)%nat → polls envs i s = Some s' →
  ∃ p', ts_state s' = Active p' SwIdle ∧ (p = None ∨ envs ≠ [] → p' = None).
Proof.
  revert s p ph. induction envs as [|env envs IH]; intros s p ph Hst Hn E.
  - injection E as <-. destruct ph as [|[|n]|n]; simpl in Hn; try lia. exists p. split; [done|]. by intros [|].
  - cbn [polls] in E. destruct (poll_session env i s) as [[[o s1] e]|] eqn:Ep; [|done].
    destruct (poll_session_phase env i s o s1 e p ph Ep Hst) as (s0 & _ & _ & _ & _ & Hs1).
    destruct (redraw_decreases env ph s0) as (ph' & Hph & Hle). rewrite Hph in Hs1.
    destruct (IH s1 None ph' Hs1) as (p' & H1 & H2); [simpl in Hn; lia|done|]. exists p'. split; [done|]. intros _. auto.
Qed.

(** Making the program draw again ends.  Whatever becomes of the attempts to
    change the size of a terminal and to restore it, seven polls after the
    reconnection nothing more is attempted. *)
Lemma redraw_ends envs i s s' p :
  ts_state s = Active p (TempResize MAX_SIGWINCH_PHASE_ATTEMPTS) → (7 <= length envs)%nat → polls envs i s = Some s' →
  ts_state s' = Active None SwIdle.
Proof.
  intros Hst Hn E. destruct (polls_idle envs i s s' p _ Hst Hn E) as (p' & -> & Hp). rewrite Hp; [done|].
  right. by destruct envs; [simpl in Hn; lia|].
Qed.

(** The session a reconnecting peer gets: the one it names, or the lowest. *)
Definition found (i t : Z) (v : PersistentTerminalService) : Prop :=
  is_Some (sessions v !! t) ∧ (t = i ∨ sessions v !! i = None ∧ ∀ k, is_Some (sessions v !! k) → (t <= k)%Z).

Lemma min_id_spec ids : ids ≠ [] → ∃ m, min_id ids = Some m ∧ m ∈ ids ∧ ∀ k, k ∈ ids → (m <= k)%Z.
Proof.
  induction ids as [|i ids IH]; [done|]. intros _. cbn [min_id]. destruct (decide (ids = [])) as [->|Hne].
  - exists i. split_and!; [done|by left|]. intros k [->|Hk]%elem_of_cons; [lia|by apply not_elem_of_nil in Hk].
  - destruct (IH Hne) as (m & -> & Hm & Hle). exists (Z.min i m). split_and!; [done| |].
    + destruct (Z.min_spec i m) as [[_ ->]|[_ ->]]; [by left|by right].
    + intros k [->|Hk]%elem_of_cons; [lia|]. specialize (Hle k Hk). lia.
Qed.

(** The map after the remapping. *)
Lemma remap_spec env i t v :
  env_ok env → needs_session_sync v = true → found i t v →
  ∃ s, sessions v !! t = Some s ∧ remap env i v = v <| sessions := <[i := s]> (delete t (sessions v)) |>.
Proof.
  intros Henv Hsync [[s Hs] Ht]. exists s. split; [done|]. unfold remap.
  destruct (sessions v !! i) as [s'|] eqn:Ei.
  - destruct Ht as [->|[? _]]; [|done]. rewrite Hs in Ei. simplify_eq.
    assert (<[i := s']> (delete i (sessions v)) = sessions v) as -> by by rewrite insert_delete_id. by destruct v.
  - destruct Ht as [->|[_ Hle]]; [congruence|]. rewrite Hsync.
    assert (t ∈ te_ids env (sessions v)) as Hin by (apply elem_of_ids; [done|by eexists]).
    destruct (min_id_spec (te_ids env (sessions v))) as (m & -> & Hm & Hmin).
    { intros E. rewrite E in Hin. by apply not_elem_of_nil in Hin. }
    apply elem_of_ids in Hm; [|done]. specialize (Hle m Hm). specialize (Hmin t Hin). assert (m = t) as -> by lia. by rewrite Hs.
Qed.

Section Reconnection.
Context (decompress : list Z → list Z) (sid : string) (i : Z).

(** A terminal whose peer went away: its shell and its threads are still there. *)
Record detached (s : TerminalSession) : Prop := {
  dt_pty : pty_pair s ≠ None;
  dt_size : (0 < rows s)%Z ∧ (0 < cols s)%Z;
  dt_output : output_rx s = true ∧ reader_thread s = Some true
}.

Lemma new_connection env p sp w v :
  services w !! sid = Some v →
  (get_or_create_service env sid p sp w).2 = put_service sid (reset_status p v) w.
Proof. intros Ev. unfold get_or_create_service. by rewrite Ev. Qed.

(** The answer to the request to open it. *)
Lemma reopen env t r c w v s :
  env_ok env → services w !! sid = Some v → needs_session_sync v = true → found i t v → sessions v !! t = Some s →
  ∃ others w1, handle_action env sid (TaOpen i r c) w
      = (Ok (Some (TrOpened i true "Reconnected to existing terminal" (pid s) sid others)), w1)
    ∧ NoDup others ∧ (∀ k, k ∈ others ↔ k ≠ i ∧ k ≠ t ∧ is_Some (sessions v !! k))
    ∧ session_at sid i w1 = Some (reconnect_session s).
Proof.
  intros Henv Ev Hsync Hf Hs. unfold handle_action, get_service. rewrite Ev.
  set (v1 := v <| sv_last_activity := te_now env |>).
  destruct (remap_spec env i t v1 Henv Hsync Hf) as (s1 & Hs1 & Hr). change (sessions v1) with (sessions v) in *.
  rewrite Hs in Hs1. injection Hs1 as <-. unfold handle_open. rewrite Hr. cbn [sessions upd eta eta_TermService].
  rewrite lookup_insert_eq. change (needs_session_sync (v1 <| sessions := _ |>)) with (needs_session_sync v). rewrite Hsync.
  set (m := <[i := s]> (delete t (sessions v))).
  eexists (List.filter (λ k, negb (k =? i)%Z) (te_ids env m)), _. split; [done|]. split_and!.
  - apply NoDup_ListNoDup, List.NoDup_filter, NoDup_ListNoDup. by apply ids_nodup.
  - intros k. rewrite list_elem_of_In, List.filter_In, <- list_elem_of_In, elem_of_ids by done.
    rewrite negb_true_iff, Z.eqb_neq. unfold m. destruct (decide (k = i)) as [->|Hk]; [naive_solver|].
    rewrite lookup_insert_ne by done. destruct (decide (k = t)) as [->|Hkt].
    + rewrite lookup_delete_eq. split; [|naive_solver]. by intros [[? ?] _].
    + rewrite lookup_delete_ne by done. naive_solver.
  - rewrite session_at_put, String.eqb_refl. cbn. by rewrite lookup_insert_eq.
Qed.

End Reconnection.

(** ** Processes *)

Definition in_map (c : Z) (m : gmap Z TerminalSession) : Prop := ∃ i s, m !! i = Some s ∧ child s = Some c.
(** A process somebody will kill or collect: a terminal has it, or the reaper. *)
Definition in_care (c : Z) (w : TermWorld) : Prop :=
  c ∈ tasks w ∨ ∃ sid v, services w !! sid = Some v ∧ in_map c (sessions v).

Lemma in_map_insert c i s s' m : m !! i = Some s → child s' = child s → in_map c m → in_map c (<[i := s']> m).
Proof.
  intros Hs Hc (k & sk & Hk & Hck). destruct (decide (k = i)) as [->|Hne].
  - exists i, s'. rewrite lookup_insert_eq. split; [done|]. congruence.
  - exists k, sk. by rewrite lookup_insert_ne.
Qed.

Lemma in_map_fresh c i s' m : m !! i = None → in_map c m → in_map c (<[i := s']> m).
Proof. intros Hi (k & sk & Hk & Hck). exists k, sk. rewrite lookup_insert_ne; [done|]. congruence. Qed.

Lemma in_map_alter c i f m : (∀ s, child (f s) = child s) → in_map c m → in_map c (alter f i m).
Proof.
  intros Hf (k & sk & Hk & Hck). destruct (decide (k = i)) as [->|Hne].
  - exists i, (f sk). rewrite lookup_alter_eq, Hk. split; [done|]. by rewrite Hf.
  - exists k, sk. by rewrite lookup_alter_ne.
Qed.

Lemma care_put c sid v v' w w' :
  services w !! sid = Some v → services w' = <[sid := v']> (services w) → (∀ c, c ∈ tasks w → c ∈ tasks w') →
  (in_map c (sessions v) → in_map c (sessions v') ∨ c ∈ tasks w') → in_care c w → in_care c w'.
Proof.
  intros Ev Es Ht Hm [H|(sid' & v0 & Hv0 & H)]; [left; auto|]. destruct (decide (sid' = sid)) as [->|Hne].
  - rewrite Ev in Hv0. injection Hv0 as <-. destruct (Hm H) as [H'|H']; [|by left]. right. exists sid, v'.
    by rewrite Es, lookup_insert_eq.
  - right. exists sid', v0. by rewrite Es, lookup_insert_ne.
Qed.

Section Care.
Context (env : TermEnv) (Henv : env_ok env).

Lemma care_remove c sid w : in_care c w → in_care c (remove_service env sid w).
Proof.
  unfold remove_service. destruct (services w !! sid) as [v|] eqn:Ev; [|done]. intros [H|(sid' & v0 & Hv0 & H)].
  { left. cbn. apply elem_of_app. by left. }
  destruct (decide (sid' = sid)) as [->|Hne].
  - rewrite Ev in Hv0. injection Hv0 as <-. left. cbn. apply elem_of_app. right. destruct H as (i & s & Hs & Hc).
    apply list_elem_of_join. exists [c]. split; [by left|]. apply list_elem_of_fmap. exists i. rewrite Hs. cbn. rewrite Hc.
    split; [done|]. apply elem_of_ids; [done|by eexists].
  - right. exists sid', v0. cbn. by rewrite lookup_delete_ne.
Qed.

Lemma care_cleanup c w : in_care c w → in_care c (cleanup_inactive_services env w).
Proof.
  unfold cleanup_inactive_services. generalize (map_to_list (services w)). intros l. revert w.
  induction l as [|kv l IH]; intros w H; [done|]. cbn [foldl]. apply IH. case_match; [by apply care_remove|done].
Qed.

Lemma care_open c sid i r k v : in_map c (sessions v) → in_map c (sessions (handle_open env sid i r k v).2).
Proof.
  intros H. unfold handle_open. assert (in_map c (sessions (remap env i v))) as H1.
  { unfold remap. destruct (sessions v !! i) eqn:Ei; [done|]. destruct (needs_session_sync v); [|done].
    destruct (min_id _) as [low|]; [|done]. destruct (sessions v !! low) as [sl|] eqn:El; [|done]. cbn.
    destruct H as (q & s & Hq & Hc). destruct (decide (q = low)) as [->|Hne].
    - exists i, sl. rewrite lookup_insert_eq. split; [done|]. congruence.
    - exists q, s. rewrite lookup_insert_ne by congruence. by rewrite lookup_delete_ne. }
  destruct (sessions (remap env i v) !! i) as [s|] eqn:Ei; cbn [snd].
  - cbn. by eapply in_map_insert.
  - destruct (te_spawn env), (te_pipes env); cbn; try done. by apply in_map_fresh.
Qed.

Lemma care_poll_sessions c ids m out m' closed :
  poll_sessions env ids m = Some (out, m', closed) → in_map c m → in_map c m'.
Proof.
  revert m out m' closed. induction ids as [|i ids IH]; intros m out m' closed; cbn [poll_sessions].
  { by intros [= _ <- _]. }
  destruct (m !! i) as [s|] eqn:Es; [|by apply IH]. destruct (te_busy env i); [by apply IH|].
  destruct (poll_session env i s) as [[[o s1] e]|] eqn:Ep; [|done].
  destruct (poll_sessions env ids _) as [[[o' m1] c']|] eqn:Er; [|done]. intros [= _ <- _] H.
  eapply IH; [exact Er|]. eapply in_map_insert; [exact Es| |done].
  by apply poll_session_same, sm_child in Ep.
Qed.

Lemma care_clean c p closed m :
  in_map c m → in_map c (clean_closed env p closed m).1.2 ∨ c ∈ (clean_closed env p closed m).2.
Proof.
  revert m. induction closed as [|i closed IH]; intros m H; [by left|]. cbn [clean_closed].
  destruct (m !! i) as [s|] eqn:Es.
  - set (m1 := if p then _ else _). assert (in_map c m1 ∨ child s = Some c) as H1.
    { destruct H as (q & sq & Hq & Hc). destruct (decide (q = i)) as [->|Hne]; [right; congruence|]. left. exists q, sq.
      unfold m1. destruct p; [by rewrite lookup_insert_ne|by rewrite lookup_delete_ne]. }
    destruct H1 as [H1|H1].
    + specialize (IH m1 H1). destruct (clean_closed env p closed m1) as [[o m2] e]. cbn [fst snd] in *.
      destruct IH as [IH|IH]; [by left|right; apply elem_of_app; by right].
    + destruct (clean_closed env p closed m1) as [[o m2] e]. right. cbn. rewrite H1. by left.
  - specialize (IH m H). destruct (clean_closed env p closed m) as [[o m2] e]. exact IH.
Qed.

Lemma care_session c sid i f w : (∀ s, child (f s) = child s) → in_care c w → in_care c (on_session sid i f w).
Proof.
  intros Hf [H|(sid' & v & Hv & H)]; [by left|]. right. unfold on_session. cbn. destruct (decide (sid' = sid)) as [->|Hne].
  - exists sid, (v <| sessions := alter f i (sessions v) |>). rewrite lookup_alter_eq, Hv. split; [done|]. by apply in_map_alter.
  - exists sid', v. by rewrite lookup_alter_ne.
Qed.

(** How a process may go: collected after it ended or could not be asked, its terminal
    closed though it could not be killed, or left alone because the ends of its
    terminal could not be had. *)
Definition gone (c : Z) (x : TermInput) : Prop :=
  (x = TiReap ∧ te_wait env c ≠ Running) ∨ (∃ sid i e, x = TiAction sid (TaClose i) ∧ te_kill env c = Err e)
  ∨ ∃ sid i r k e, x = TiAction sid (TaOpen i r k) ∧ te_spawn env = Ok c ∧ te_pipes env = Err e.

Lemma care_action c sid a w :
  in_care c w → in_care c (handle_action env sid a w).2 ∨ gone c (TiAction sid a).
Proof.
  intros H. unfold handle_action, get_service. destruct (services w !! sid) as [v|] eqn:Ev; [|by left].
  destruct a as [i r k|i r k|i d|i|].
  - left. pose proof (λ c, care_open c sid i r k (v <| sv_last_activity := te_now env |>)) as Ho.
    destruct (handle_open env sid i r k _) as [res v']. cbn [snd] in *.
    eapply (care_put c sid v v' w); [done|done|done| |done]. intros Hm. left. by apply Ho.
  - left. cbn [sessions upd eta eta_TermService]. destruct (sessions v !! i) as [s|] eqn:Es.
    2: { eapply (care_put c sid v); [done|done|done|by left|done]. }
    assert (child (handle_resize env r k s).2 = child s) as Hc.
    { unfold handle_resize, resize_pty. repeat case_match; simplify_eq; done. }
    destruct (handle_resize env r k s) as [res s']. cbn [snd] in *.
    eapply (care_put c sid v); [done|done|done| |done]. intros Hm. left. cbn. by eapply in_map_insert.
  - left. cbn [snd]. eapply (care_put c sid v); [done|done|done| |done]. intros Hm. left. cbn. apply in_map_alter; [|done].
    intros s. unfold handle_data. cbn. repeat case_match; done.
  - unfold handle_close. cbn [sessions upd eta eta_TermService]. destruct (sessions v !! i) as [s|] eqn:Es.
    2: { left. cbn [snd]. eapply (care_put c sid v); [done|done| |by left|done]. intros c' Hc'. cbn. rewrite app_nil_r. done. }
    assert (in_map c (sessions v) → in_map c (delete i (sessions v)) ∨ child s = Some c) as Hd.
    { intros (q & sq & Hq & Hc). destruct (decide (q = i)) as [->|Hne]; [right; congruence|left]. exists q, sq.
      by rewrite lookup_delete_ne. }
    destruct (child s) as [c0|] eqn:Ec.
    + destruct (te_kill env c0) as [|e] eqn:Ek; cbn [snd].
      * left. eapply (care_put c sid v); [done|done|intros c' Hc'; cbn; apply elem_of_app; by left| |done].
        intros Hm. destruct (Hd Hm) as [Hm'|[= ->]]; [by left|right]. cbn. apply elem_of_app. right. by left.
      * destruct (decide (c0 = c)) as [->|Hne]; [right; right; left; by exists sid, i, e|]. left.
        eapply (care_put c sid v); [done|done|intros c' Hc'; cbn; by rewrite app_nil_r| |done].
        intros Hm. destruct (Hd Hm) as [Hm'|Hm']; [by left|congruence].
    + left. cbn [snd]. eapply (care_put c sid v); [done|done|intros c' Hc'; cbn; by rewrite app_nil_r| |done].
      intros Hm. destruct (Hd Hm) as [Hm'|Hm']; [by left|done].
  - left. cbn [snd]. eapply (care_put c sid v); [done|done|done|by left|done].
Qed.

Lemma care_step c x w out w' :
  term_step env x w = Some (out, w') → in_care c w → in_care c w' ∨ gone c x.
Proof.
  intros E H. destruct x as [sid p sp | sid a | sid p | sid | sid | sid i d | sid i | sid i ok | |]; cbn [term_step] in E.
  - injection E as <- <-. left. unfold get_or_create_service. destruct (services w !! sid) as [v|] eqn:Ev; cbn [andb].
    + cbn [snd default]. eapply (care_put c sid v); [done|done|done| |done]. intros (q & s & Hq & Hc). left.
      exists q, (s <| ts_state := Closed |>). cbn. by rewrite lookup_fmap, Hq.
    + case_match; [done|]. cbn [snd default]. destruct H as [H|(sid' & v & Hv & H)]; [by left|]. right. exists sid', v.
      cbn. by rewrite lookup_insert_ne by congruence.
  - pose proof (care_action c sid a w H) as Ha. destruct (handle_action env sid a w) as [res w1]. injection E as <- <-. exact Ha.
  - injection E as <- <-. left. unfold set_persistent, get_service. destruct (services w !! sid) as [v|] eqn:Ev; [|done].
    eapply (care_put c sid v); [done|done|done|by left|done].
  - left. revert E. unfold run_turn, read_outputs, get_service. destruct (services w !! sid) as [v|] eqn:Ev; [|by intros [= _ <-]].
    destruct (poll_sessions _ _ _) as [[[o m] closed]|] eqn:Ep; [|done].
    pose proof (λ Hm, care_clean c (is_persistent v) closed m (care_poll_sessions c _ _ _ _ _ Ep Hm)) as Hcl.
    destruct (clean_closed _ _ _ _) as [[o' m'] e]. intros [= _ <-]. cbn [fst snd] in *.
    eapply (care_put c sid v); [done|done|intros c' Hc'; cbn; apply elem_of_app; by left| |done].
    intros Hm. destruct (Hcl Hm) as [H1|H1]; [by left|right]. cbn. apply elem_of_app. by right.
  - injection E as <- <-. left. unfold run_end, get_service. destruct (services w !! sid) as [v|]; [|done].
    destruct (is_persistent v); [done|by apply care_remove].
  - injection E as <- <-. left. apply care_session; [|done]. intros s. unfold reader_got. repeat case_match; done.
  - injection E as <- <-. left. apply care_session; [|done]. intros s. unfold reader_ended. repeat case_match; done.
  - injection E as <- <-. left. apply care_session; [|done]. intros s. unfold writer_turn. repeat case_match; done.
  - injection E as <- <-. destruct H as [H|H]; [|left; by right].
    destruct (te_wait env c) eqn:Ew; [|right; left; split; [done|congruence]..]. left. left. cbn.
    apply list_elem_of_In, List.filter_In. rewrite Ew. split; [by apply list_elem_of_In|done].
  - injection E as <- <-. left. by apply care_cleanup.
Qed.

(** The process that a step starts. *)
Definition spawns (x : TermInput) (w : TermWorld) : option Z :=
  match x with
  | TiAction sid (TaOpen i _ _) =>
      match get_service sid w with
      | Some v =>
          match sessions (remap env i (v <| sv_last_activity := te_now env |>)) !! i, te_spawn env with
          | None, Ok p => Some p
          | _, _ => None
          end
      | None => None
      end
  | _ => None
  end.

Lemma spawned_in_care c x w out w' :
  term_step env x w = Some (out, w') → spawns x w = Some c → in_care c w' ∨ gone c x.
Proof.
  intros E Hp. destruct x as [|sid [i r k| | | |]| | | | | | | |]; try done.
  cbn [spawns term_step] in *. unfold handle_action in E. destruct (get_service sid w) as [v|]; [|done].
  unfold handle_open in E. destruct (sessions (remap env i _) !! i) as [s|]; [done|].
  destruct (te_spawn env) as [p|e] eqn:Es; [|done]. injection Hp as ->.
  destruct (te_pipes env) as [[]|e] eqn:Ep; [left|right; do 2 right; by eexists _, _, _, _, _].
  injection E as <- <-. right. eexists sid, _. split; [cbn; by rewrite lookup_insert_eq|].
  eexists i, _. cbn. by rewrite lookup_insert_eq.
Qed.

(** The number of services. *)
Lemma size_remove sid w : (size (services (remove_service env sid w)) <= size (services w))%nat.
Proof.
  unfold remove_service. destruct (services w !! sid) eqn:E; [|done]. cbn. rewrite map_size_delete, E. lia.
Qed.

Lemma size_put sid v v' w : services w !! sid = Some v → size (<[sid := v']> (services w)) = size (services w).
Proof. intros E. by rewrite map_size_insert, E. Qed.

Lemma size_step x w out w' :
  (Z.of_nat (size (services w)) <= MAX_SERVICES)%Z → term_step env x w = Some (out, w') →
  (Z.of_nat (size (services w')) <= MAX_SERVICES)%Z.
Proof.
  intros H E. assert (∀ f sid, size (alter f sid (services w)) = size (services w)) as Halter.
  { intros f sid. by rewrite <- !size_dom, dom_alter_L. }
  destruct x as [sid p sp | sid a | sid p | sid | sid | sid i d | sid i | sid i ok | |]; cbn [term_step] in E.
  - injection E as <- <-. unfold get_or_create_service. destruct (services w !! sid) as [v|] eqn:Ev; cbn [andb].
    + cbn [snd]. unfold put_service. cbn. by rewrite (size_put sid v).
    + destruct (Z.leb_spec MAX_SERVICES (Z.of_nat (size (services w)))) as [Hle|Hlt]; [done|].
      cbn. rewrite map_size_insert, Ev. lia.
  - assert (size (services (handle_action env sid a w).2) = size (services w)) as Hs.
    { unfold handle_action, get_service. destruct (services w !! sid) as [v|] eqn:Ev; [|done].
      destruct a; cbn [snd].
      - destruct (handle_open _ _ _ _ _ _). cbn. by rewrite (size_put sid v).
      - destruct (sessions _ !! terminal_id); [destruct (handle_resize _ _ _ _)|]; cbn; by rewrite (size_put sid v).
      - cbn. by rewrite (size_put sid v).
      - destruct (handle_close _ _ _) as [[? ?] ?]. cbn. by rewrite (size_put sid v).
      - cbn. by rewrite (size_put sid v). }
    destruct (handle_action env sid a w) as [res w1]. injection E as <- <-. cbn in Hs. lia.
  - injection E as <- <-. unfold set_persistent, get_service. destruct (services w !! sid) as [v|] eqn:Ev; [|done].
    cbn. by rewrite (size_put sid v).
  - revert E. unfold run_turn, read_outputs, get_service. destruct (services w !! sid) as [v|] eqn:Ev; [|by intros [= _ <-]].
    destruct (poll_sessions _ _ _) as [[[o m] closed]|]; [|done]. destruct (clean_closed _ _ _ _) as [[o' m'] e].
    intros [= _ <-]. cbn. by rewrite (size_put sid v).
  - injection E as <- <-. unfold run_end. destruct (get_service sid w); [|done]. case_match; [done|].
    pose proof (size_remove sid w). lia.
  - injection E as <- <-. unfold on_session. cbn. by rewrite Halter.
  - injection E as <- <-. unfold on_session. cbn. by rewrite Halter.
  - injection E as <- <-. unfold on_session. cbn. by rewrite Halter.
  - injection E as <- <-. done.
  - injection E as <- <-. unfold cleanup_inactive_services. clear Halter. generalize (map_to_list (services w)). intros l.
    revert w H. induction l as [|kv l IH]; intros w H; [done|]. cbn [foldl]. apply IH. case_match; [|done].
    pose proof (size_remove kv.1 w). lia.
Qed.
End Care.

Lemma size_run xs w outs w' :
  (Z.of_nat (size (services w)) <= MAX_SERVICES)%Z → term_run xs w = Some (outs, w') →
  (Z.of_nat (size (services w')) <= MAX_SERVICES)%Z.
Proof.
  revert w outs. induction xs as [|[env x] xs IH]; intros w outs Hn E; [by injection E as _ <-|].
  cbn [term_run] in E. destruct (term_step env x w) as [[out w1]|] eqn:E1; [|done].
  destruct (term_run xs w1) as [[outs1 w2]|] eqn:Er; [|done]. injection E as _ <-.
  eapply IH; [|exact Er]. by eapply (size_step env).
Qed.

(** A process that was started in the course of a run. *)
Fixpoint spawned (c : Z) (xs : list (TermEnv * TermInput)) (w : TermWorld) : Prop :=
  match xs with
  | [] => False
  | (env, x) :: xs =>
      spawns env x w = Some c ∨ match term_step env x w with Some (_, w) => spawned c xs w | None => False end
  end.


(** ** The history *)

Lemma append_all_content ds b b' : append_all ds b = Some b' → ∃ dropped, content b ++ mjoin ds = dropped ++ content b'.
Proof.
  revert b. induction ds as [|d ds IH]; intros b; cbn [append_all].
  - intros [= <-]. exists []. by rewrite app_nil_r.
  - destruct (append d b) as [b1|] eqn:E; [|done]. intros H. destruct (append_content _ _ _ E) as [d1 H1].
    destruct (IH _ H) as [d2 H2]. exists (d1 ++ d2). rewrite join_cons, app_assoc, H1, <- !app_assoc. by rewrite H2.
Qed.

(** The history is what was written last.  Whatever a terminal wrote, in
    whatever pieces: what is replayed is the end of it, at most as long as asked
    for, and all of it when the buffer holds no more.  Adding to the buffer ends,
    with every byte counted, as long as no newline comes to finish a line that was
    begun by an earlier piece. *)
Lemma history_is_recent ds max b b' :
  (0 <= max)%Z → append_all ds b = Some b' →
  (∃ older, content b ++ mjoin ds = older ++ get_recent max b') ∧ (len (get_recent max b') <= max)%Z
  ∧ ((len (content b') <= max)%Z → get_recent max b' = content b')
  ∧ ∀ d, exact b' → (last_line_incomplete b' = true → through_nl d = None) → (total_size b' + len d < 2 ^ 64)%Z →
      ∃ b1, append d b' = Some b1 ∧ exact b1.
Proof.
  intros Hm E. destruct (append_all_content _ _ _ E) as [d1 H1]. destruct (get_recent_spec max b' Hm) as [[d2 H2] H3].
  split_and!; [exists (d1 ++ d2); by rewrite H1, H2 at 1; rewrite <- app_assoc|done|apply get_recent_all|].
  intros d Hx Hnl Hlt. by apply append_exact.
Qed.

(** ** What goes wrong *)

(** Once the total has fallen below zero, the loop that trims never ends. *)
Lemma trim_underflow ls t :
  (MAX_OUTPUT_BUFFER_SIZE + len (mjoin ls) < t < 2 ^ 64)%Z → trim ls t = None.
Proof.
  revert t. induction ls as [|l ls IH]; intros t Ht; rewrite trim_step.
  - replace (too_large [] t) with true; [done|]. symmetry. unfold too_large. change (len (mjoin [])) with 0%Z in Ht.
    replace (MAX_OUTPUT_BUFFER_SIZE <? t)%Z with true by lia. done.
  - rewrite join_cons, len_app in Ht. pose proof (len_nonneg l). pose proof (len_nonneg (mjoin ls)).
    replace (too_large (l :: ls) t) with true.
    2: { symmetry. unfold too_large. replace (MAX_OUTPUT_BUFFER_SIZE <? t)%Z with true by lia. done. }
    rewrite wrap_small; [apply IH; lia|]. unfold uint, MAX_OUTPUT_BUFFER_SIZE in *. lia.
Qed.

(** Bytes that finish a line are not counted, but subtracted when it goes. *)
Lemma finishing_uncounted b front l data d :
  last_line_incomplete b = true → last_line (lines b) = Some (front, l) → through_nl data = Some (d, []) →
  too_large (lines b) (total_size b) = false →
  append data b = Some (mkBuffer (front ++ [l ++ d]) (total_size b) false).
Proof.
  intros Hi Hl Hd Hs. unfold append. assert (data ≠ []) as Hne by by destruct data.
  rewrite (bool_decide_false _ Hne), Hi, Hl, Hd. unfold append_rest. cbn [split_nl push_lines]. cbn [ends_with_nl last].
  change (bool_decide (@nil (list Z) = [])) with true. change (bool_decide (@nil Z = [])) with true. cbn [andb negb orb].
  cbn [lines total_size upd eta eta_OutputBuffer last_line_incomplete]. rewrite trim_step.
  replace (too_large (front ++ [l ++ d]) (total_size b)) with false; [done|].
  apply last_line_spec in Hl. rewrite Hl in Hs. unfold too_large in *. by rewrite !length_app in *.
Qed.

Lemma through_nl_replicate n : through_nl (replicate n 98%Z ++ [NL]) = Some (replicate n 98%Z ++ [NL], []).
Proof. induction n as [|n IH]; [done|]. cbn [replicate app through_nl]. by rewrite IH. Qed.

Lemma push_newlines n b :
  lines (push_lines (split_nl (replicate n NL)) true b) = lines b ++ replicate n [NL]
  ∧ total_size (push_lines (split_nl (replicate n NL)) true b) = (if decide (n = 0%nat) then total_size b else wrap 64 (total_size b + Z.of_nat n)).
Proof.
  split.
  - revert b. induction n as [|n IH]; intros b; cbn [replicate split_nl].
    + cbn. by rewrite app_nil_r.
    + change (NL =? NL)%Z with true. cbn iota. cbn [push_lines]. rewrite (bool_decide_false (split_nl _ = [])) by apply split_nl_nonempty.
      cbn [andb negb orb]. rewrite orb_true_r. rewrite IH. cbn. by rewrite <- app_assoc.
  - destruct (push_lines_spec (split_nl (replicate n NL)) true b) as (_ & H & _); [apply split_nl_nonempty| |].
    { intros _. destruct n; [done|]. apply split_nl_ends. unfold ends_with_nl. rewrite replicate_S_end, last_snoc. done. }
    rewrite H, unsplit_split. unfold len. rewrite length_replicate. destruct n; [done|]. by rewrite decide_False.
Qed.

Lemma join_replicate_nl n : len (mjoin (replicate n [NL])) = Z.of_nat n.
Proof. induction n as [|n IH]; [done|]. cbn [replicate]. rewrite join_cons, len_app, IH. change (len [NL]) with 1%Z. lia. Qed.

Lemma wrap_negative z : (- 2 ^ 64 <= z < 0)%Z → wrap 64 z = (z + 2 ^ 64)%Z.
Proof. intros H. unfold wrap. symmetry. apply (Z.mod_unique_pos _ _ (-1)); lia. Qed.

(** A buffer that counts less than its first line has: newlines that push this line
    out leave the loop without an end. *)
Lemma uncounted_hangs l n total :
  (0 < n)%nat → Z.of_nat n = MAX_BUFFER_LINES → (0 <= total)%Z → (total + Z.of_nat n < len l)%Z → (len l < 2 ^ 60)%Z →
  append (replicate n NL) (mkBuffer [l] total false) = None.
Proof.
  intros Hn Hmax H0 Hlt Hl. unfold append. rewrite bool_decide_false by by destruct n. cbn [last_line_incomplete].
  unfold append_rest. assert (ends_with_nl (replicate n NL) = true) as ->.
  { destruct n; [lia|]. unfold ends_with_nl. rewrite replicate_S_end, last_snoc. done. }
  destruct (push_newlines n (mkBuffer [l] total false)) as [-> ->]. rewrite decide_False by lia. cbn [lines total_size app].
  rewrite trim_step. unfold MAX_BUFFER_LINES in Hmax. rewrite (wrap_small 64 (total + _)) by (unfold uint; lia).
  replace (too_large _ _) with true.
  2: { symmetry. unfold too_large, MAX_BUFFER_LINES. cbn [Datatypes.length]. rewrite length_replicate. apply orb_true_iff. right. apply Z.ltb_lt. lia. }
  rewrite trim_underflow; [done|]. rewrite join_replicate_nl, Hmax, wrap_negative by lia. unfold MAX_OUTPUT_BUFFER_SIZE. lia.
Qed.

(** The output of an ordinary program, in three pieces, and the poll of its terminal
    never ends: a line that came in two pieces counts as its first piece, and is
    subtracted whole when the lines become too many. *)
Lemma output_hangs :
  ∃ b1 b2, append [97%Z] buffer_new = Some b1 ∧ append (replicate (Z.to_nat 20000) 98%Z ++ [NL]) b1 = Some b2
    ∧ append (replicate (Z.to_nat 10000) NL) b2 = None.
Proof.
  eexists (mkBuffer [[97%Z]] 1 true), _. split; [done|]. split.
  { by apply (finishing_uncounted (mkBuffer [[97%Z]] 1 true) [] [97%Z] _ _ eq_refl eq_refl (through_nl_replicate _)). }
  cbn [app total_size]. apply uncounted_hangs; [lia|by rewrite Z2Nat.id|done|..];
    unfold len; cbn [Datatypes.length]; rewrite length_app, length_replicate; cbn [Datatypes.length]; lia.
Qed.

(** A line without an end is kept whole, however long it is: the limit on the buffer
    is not applied to it. *)
Lemma endless_line n :
  append_all (replicate (S n) [97%Z]) buffer_new
  = Some (mkBuffer [replicate (S n) 97%Z] (wrap 64 (Z.of_nat (S n))) true).
Proof.
  induction n as [|n IH]; [done|]. rewrite replicate_S_end.
  assert (∀ a d b, append_all (a ++ [d]) b = append_all a b ≫= append d) as Happ.
  { clear. intros a d. induction a as [|x a IHa]; intros b; cbn; [by destruct (append d b)|].
    destruct (append x b); [apply IHa|done]. }
  rewrite Happ, IH. cbn [mbind option_bind]. unfold append. cbn [last_line_incomplete lines last_line last removelast].
  change (bool_decide ([97%Z] = [])) with false. change (through_nl [97%Z]) with (@None (list Z * list Z)). cbn iota.
  unfold add_total. cbn [upd eta eta_OutputBuffer lines total_size last_line_incomplete app]. rewrite <- replicate_S_end.
  unfold wrap. rewrite Zplus_mod_idemp_l. unfold len. cbn [Datatypes.length].
  replace (Z.of_nat (S n) + Z.of_nat 1)%Z with (Z.of_nat (S (S n))) by lia. done.
Qed.

(** A terminal whose shell ended stays in a persistent service, which is never removed
    for being idle; who opens it again is told that it was found. *)
Lemma dead_terminal_reopened env sid i r c w v s :
  services w !! sid = Some v → sessions v !! i = Some s → is_persistent v = true →
  child s = None → reader_thread s = Some false → closed_message_sent s = true →
  (∃ others w', handle_action env sid (TaOpen i r c) w
     = (Ok (Some (TrOpened i true "Reconnected to existing terminal" (pid s) sid others)), w'))
  ∧ ∀ env, is_inactive env v = false.
Proof.
  intros Hv Hs Hp _ _ _. split.
  - unfold handle_action, get_service. rewrite Hv. unfold handle_open, remap. cbn. rewrite Hs. cbn. rewrite Hs. eauto.
  - intros env'. unfold is_inactive. rewrite Hp, bool_decide_false; [done|]. intros E. by rewrite E, lookup_empty in Hs.
Qed.

(** Output does not count as activity of its service: a terminal that only shows
    something for more than an hour is stopped while its peer watches. *)
Lemma watched_service_removed env env' sid w v out w' :
  services w !! sid = Some v → is_persistent v = false →
  (SERVICE_IDLE_TIMEOUT < te_now env' - sv_last_activity v)%Z → run_turn env sid w = Some (out, w') →
  ∃ v', services w' !! sid = Some v' ∧ is_inactive env' v' = true.
Proof.
  intros Hv Hp Hlt. unfold run_turn, read_outputs, get_service. rewrite Hv.
  destruct (poll_sessions _ _ _) as [[[o m] closed]|]; [|done]. destruct (clean_closed _ _ _ _) as [[o' m'] e].
  intros [= _ <-]. eexists. split; [cbn; by rewrite lookup_insert_eq|]. unfold is_inactive, idle_for. cbn. rewrite Hp.
  apply Z.ltb_lt. lia.
Qed.

(** ** Examples *)

Module DemoTerminal.
Local Open Scope Z_scope.
Definition env (now : Z) : TermEnv := {|
  te_now := now; te_spawn := Ok 4711%Z; te_pipes := Ok tt; te_resize := λ _ _, Ok tt; te_kill := λ _, Ok tt;
  te_wait := λ _, Running; te_busy := λ _, false; te_compress := λ d, d;
  te_ids := λ m, (map_to_list m).*1 |}.
Definition ended (now : Z) : TermEnv := {|
  te_now := now; te_spawn := Err "no"; te_pipes := Ok tt; te_resize := λ _ _, Err "no"; te_kill := λ _, Err "no";
  te_wait := λ _, Exited 0; te_busy := λ _, false; te_compress := λ d, d;
  te_ids := λ m, (map_to_list m).*1 |}.
Lemma env_good n : env_ok (env n). Proof. by intros m. Qed.
Lemma ended_good n : env_ok (ended n). Proof. by intros m. Qed.

Definition start : list (TermEnv * TermInput) :=
  [(env 1, TiNew "ts" true false); (env 2, TiAction "ts" (TaOpen 1 24 80)); (env 3, TiReaderGot "ts" 1 [36; 32]%Z)].
Definition world : TermWorld := match term_run start (mkTermWorld ∅ []) with Some (_, w) => w | None => mkTermWorld ∅ [] end.
Definition session : TerminalSession :=
  Eval vm_compute in match session_at "ts" 1 world with Some s => s | None => session_new 0 0 0 0 end.
Lemma session_there : session_at "ts" 1 world = Some session. Proof. by vm_compute. Qed.
Definition use : list (TermEnv * TermInput) :=
  [(env 4, TiAction "ts" (TaData 1 [108; 115; 10]%Z)); (env 4, TiPoll "ts"); (env 5, TiWriter "ts" 1 true);
   (env 5, TiNew "other" false false); (env 5, TiAction "ts" (TaOpen 2 24 80)); (env 5, TiAction "ts" (TaClose 2));
   (env 5, TiCleanup); (env 6, TiReaderGot "ts" 1 [97; 10]%Z); (env 7, TiPoll "ts")].
(** The connection is lost, another comes and asks for terminal 7. *)
Definition back : list (TermEnv * TermInput) :=
  [(env 8, TiNew "ts" true false); (env 9, TiAction "ts" (TaOpen 7 24 80)); (env 10, TiPoll "ts")].
Definition service : PersistentTerminalService :=
  match services world !! "ts" with Some v => v | None => service_new 0 "" false false end.
Definition closing : list (TermEnv * TermInput) :=
  (start ++ [(env 11, TiAction "ts" (TaClose 1)); (env 12, TiReap); (ended 13, TiReap)])%list.
End DemoTerminal.

Lemma terminal_stream_witness :
  ∃ outs w' s', term_run DemoTerminal.use DemoTerminal.world = Some (outs, w') ∧ session_at "ts" 1 w' = Some s' ∧
    mjoin (map (delivered (λ d, d) "ts" 1) outs) ++ to_send s' = [36; 32; 97; 10]%Z.
Proof.
  destruct (term_run DemoTerminal.use DemoTerminal.world) as [[outs w']|] eqn:E.
  2: { exfalso. revert E. vm_compute. discriminate. }
  destruct (terminal_stream (λ d, d) "ts" 1 DemoTerminal.use DemoTerminal.world DemoTerminal.session outs w')
    as (s' & H1 & _ & H2 & _).
  - repeat (constructor; [split; [by intros m|done]|]). constructor.
  - by vm_compute.
  - exact DemoTerminal.session_there.
  - constructor; [exists None, SwIdle; reflexivity|split_and!; reflexivity..].
  - by vm_compute.
  - exact E.
  - exists outs, w', s'. split_and!; [done|exact H1|]. rewrite H2. by vm_compute.
Defined.


Lemma redraw_ends_witness :
  ∃ s', polls (replicate 7 (DemoTerminal.ended 1)) 1 (reconnect_session DemoTerminal.session) = Some s'
    ∧ ts_state s' = Active None SwIdle.
Proof.
  destruct (polls (replicate 7 (DemoTerminal.ended 1)) 1 (reconnect_session DemoTerminal.session)) as [s'|] eqn:E.
  2: { exfalso. revert E. vm_compute. discriminate. }
  exists s'. split; [done|]. apply (redraw_ends (replicate 7 (DemoTerminal.ended 1)) 1 (reconnect_session DemoTerminal.session) s'
    (pending_of DemoTerminal.session)); [reflexivity|cbn; lia|exact E].
Defined.

(** A failure to get an end of the terminal leaves its shell to nobody: it is neither
    killed nor collected. *)
Lemma started_shell_lost :
  let env := {| te_now := 2; te_spawn := Ok 4711%Z; te_pipes := Err "Failed to get writer"; te_resize := λ _ _, Ok tt;
                te_kill := λ _, Ok tt; te_wait := λ _, Running; te_busy := λ _, false; te_compress := λ d, d;
                te_ids := λ m, (map_to_list m).*1 |} in
  ∃ w', term_run [(env, TiNew "ts" true false); (env, TiAction "ts" (TaOpen 1 24 80))] (mkTermWorld ∅ [])
        = Some ([(TiNew "ts" true false, []); (TiAction "ts" (TaOpen 1 24 80), [])], w')
    ∧ spawned 4711 [(env, TiNew "ts" true false); (env, TiAction "ts" (TaOpen 1 24 80))] (mkTermWorld ∅ [])
    ∧ ¬ in_care 4711 w'.
Proof.
  intros env. eexists. split; [reflexivity|]. split; [vm_compute; right; left; reflexivity|].
  match goal with |- ¬ in_care _ ?w => assert (map_Forall (λ _ v, size (sessions v) = 0%nat) (services w)) as Hnone end.
  { apply (bool_decide_unpack _). vm_compute. exact I. }
  intros [H|(sid & v & Hv & i & s & Hs & _)]; [by apply not_elem_of_nil in H|].
  apply Hnone, map_size_empty_iff in Hv. rewrite Hv in Hs. by rewrite lookup_empty in Hs.
Qed.


Lemma history_is_recent_witness :
  ∃ b, append_all [[97; 98]; [99; 10; 100]; [101]]%Z buffer_new = Some b ∧ (len (get_recent 3 b) <= 3)%Z.
Proof.
  destruct (append_all [[97; 98]; [99; 10; 100]; [101]]%Z buffer_new) as [b|] eqn:E.
  2: { exfalso. revert E. vm_compute. discriminate. }
  exists b. split; [done|]. apply (history_is_recent [[97; 98]; [99; 10; 100]; [101]]%Z 3 buffer_new b); [done|exact E].
Defined.
