(* ===== verification/Input.v ===== *)
(** * Key and mouse events on the host

    [src/server/input_service.rs] on Linux, and [handle_input] of
    [src/server/connection.rs], the thread that takes a connection's events: the
    three keyboard modes, modifiers that are pressed for one event and released
    after it, the lock keys that are switched to the peer's state while a key is
    simulated, the table of keys held down and its timeout, the mouse and its
    relative mode.

    What is simulated goes to a log of the devices, newest first; the state of a key
    is what the system answers after that log, and so is whether pressing a key
    works.  Sleeps are left out, as is the order of a [HashMap], which releases keys
    in any order. *)

From S2P Require Import Prelude Strs Dispatch.
From Stdlib Require Import Ascii String.

Local Open Scope string_scope.
#[local] Abbreviation length := Datatypes.length.
#[local] Arguments String.append _ _ : simpl nomatch.

(** ** Characters *)

(** [char::from_u32]. *)
Definition is_char (c : Z) : bool :=
  (((0 <=? c) && (c <? 55296)) || ((57344 <=? c) && (c <=? 1114111)))%Z.

Definition byte_of (b : Z) : ascii := ascii_of_N (Z.to_N b).

(** [char::to_string], in UTF-8. *)
Definition char_to_string (c : Z) : string :=
  if (c <? 128)%Z then String (byte_of c) ""
  else if (c <? 2048)%Z then
    String (byte_of (192 + Z.shiftr c 6)) (String (byte_of (128 + Z.land c 63)) "")
  else if (c <? 65536)%Z then
    String (byte_of (224 + Z.shiftr c 12))
      (String (byte_of (128 + Z.land (Z.shiftr c 6) 63)) (String (byte_of (128 + Z.land c 63)) ""))
  else
    String (byte_of (240 + Z.shiftr c 18))
      (String (byte_of (128 + Z.land (Z.shiftr c 12) 63))
        (String (byte_of (128 + Z.land (Z.shiftr c 6) 63)) (String (byte_of (128 + Z.land c 63)) ""))).

Definition code_of (c : ascii) : Z := Z.of_N (N_of_ascii c).

(** [str::chars]; a [str] is valid UTF-8. *)
Fixpoint chars (s : string) : list Z :=
  match s with
  | "" => []
  | String a s =>
      let b := code_of a in
      if (b <? 128)%Z then b :: chars s
      else if (b <? 224)%Z then
        match s with
        | String c1 s => (Z.shiftl (Z.land b 31) 6 + Z.land (code_of c1) 63)%Z :: chars s
        | _ => []
        end
      else if (b <? 240)%Z then
        match s with
        | String c1 (String c2 s) =>
            (Z.shiftl (Z.land b 15) 12 + Z.shiftl (Z.land (code_of c1) 63) 6 + Z.land (code_of c2) 63)%Z :: chars s
        | _ => []
        end
      else
        match s with
        | String c1 (String c2 (String c3 s)) =>
            (Z.shiftl (Z.land b 7) 18 + Z.shiftl (Z.land (code_of c1) 63) 12
             + Z.shiftl (Z.land (code_of c2) 63) 6 + Z.land (code_of c3) 63)%Z :: chars s
        | _ => []
        end
  end.

(** ** Keys *)

(** [enigo::Key]. *)
Inductive Key := Named (name : string) | Layout (c : Z) | Raw (code : Z).
#[global] Instance Key_eq : EqDecision Key.
Proof. solve_decision. Defined.
#[global] Instance Key_countable : Countable Key.
Proof.
  refine (inj_countable'
    (λ k, match k with Named s => inl s | Layout c => inr (inl c) | Raw c => inr (inr c) end)
    (λ x, match x with inl s => Named s | inr (inl c) => Layout c | inr (inr c) => Raw c end) _).
  by intros [].
Defined.

(** [KEY_MAP], by the numbers of [ControlKey]. *)
Definition KEY_MAP : list (Z * string) :=
  [(1, "Alt"); (2, "Backspace"); (3, "CapsLock"); (4, "Control"); (5, "Delete"); (6, "DownArrow"); (7, "End");
   (8, "Escape"); (9, "F1"); (10, "F10"); (11, "F11"); (12, "F12"); (13, "F2"); (14, "F3"); (15, "F4"); (16, "F5");
   (17, "F6"); (18, "F7"); (19, "F8"); (20, "F9"); (21, "Home"); (22, "LeftArrow"); (23, "Meta"); (24, "Option");
   (25, "PageDown"); (26, "PageUp"); (27, "Return"); (28, "RightArrow"); (29, "Shift"); (30, "Space"); (31, "Tab");
   (32, "UpArrow"); (33, "Numpad0"); (34, "Numpad1"); (35, "Numpad2"); (36, "Numpad3"); (37, "Numpad4");
   (38, "Numpad5"); (39, "Numpad6"); (40, "Numpad7"); (41, "Numpad8"); (42, "Numpad9"); (43, "Cancel");
   (44, "Clear"); (45, "Alt"); (46, "Pause"); (47, "Kana"); (48, "Hangul"); (49, "Junja"); (50, "Final");
   (51, "Hanja"); (52, "Kanji"); (53, "Convert"); (54, "Select"); (55, "Print"); (56, "Execute"); (57, "Snapshot");
   (58, "Insert"); (59, "Help"); (60, "Sleep"); (61, "Separator"); (62, "Scroll"); (63, "NumLock"); (64, "RWin");
   (65, "Apps"); (66, "Multiply"); (67, "Add"); (68, "Subtract"); (69, "Decimal"); (70, "Divide"); (71, "Equals");
   (72, "NumpadEnter"); (73, "RightShift"); (74, "RightControl"); (75, "RightAlt")]%Z.

(** [control_key_value_to_key]. *)
Definition control_key_value_to_key (v : Z) : option Key :=
  (λ kv, Named kv.2) <$> List.find (λ kv, (kv.1 =? v)%Z) KEY_MAP.

Definition char_value_to_key (c : Z) : Key := Layout (if is_char c then c else 0).

Definition ck_Alt : Z := 1.
Definition ck_CapsLock : Z := 3.
Definition ck_Control : Z := 4.
Definition ck_Meta : Z := 23.
Definition ck_Return : Z := 27.
Definition ck_Shift : Z := 29.
Definition ck_Tab : Z := 31.
Definition ck_NumLock : Z := 63.
Definition ck_RWin : Z := 64.
Definition ck_RShift : Z := 73.
Definition ck_RControl : Z := 74.
Definition ck_RAlt : Z := 75.
Definition ck_CtrlAltDel : Z := 100.
Definition ck_LockScreen : Z := 101.

(** [RawKey] on Linux is a keycode of X. *)
Inductive KeysDown := RdevKey (code : Z) | EnigoKey (record : Z).
#[global] Instance KeysDown_eq : EqDecision KeysDown.
Proof. solve_decision. Defined.
#[global] Instance KeysDown_countable : Countable KeysDown.
Proof.
  refine (inj_countable' (λ k, match k with RdevKey c => inl c | EnigoKey c => inr c end)
    (λ x, match x with inl c => RdevKey c | inr c => EnigoKey c end) _).
  by intros [].
Defined.

Definition KEY_CHAR_START : Z := 9999.
Definition record_key_is_control_key (r : Z) : bool := (r <? KEY_CHAR_START)%Z.
Definition record_key_to_key (r : Z) : option Key :=
  if record_key_is_control_key r then control_key_value_to_key (swrap 32 r)
  else Some (char_value_to_key (wrap 32 (r - KEY_CHAR_START))).

(** ** The devices *)

Inductive MouseButton := MbLeft | MbRight | MbMiddle | MbBack | MbForward.

Inductive InputAct :=
| AKeyDown (k : Key) (ok : bool)
| AKeyUp (k : Key)
| AKeyClick (k : Key)
| ASequence (s : string)
| ASimulate (press : bool) (code : Z)           (* rdev, a raw key *)
| ARelease (name : string)                      (* rdev, a named key *)
| ASetClipboard (text : string)
| AClearRemapped
| AMouseMoveTo (x y : Z)
| AMouseMoveRelative (x y : Z)
| AMouseDown (b : MouseButton)
| AMouseUp (b : MouseButton)
| AScrollX (x : Z)
| AScrollY (y : Z)
| AWhiteboard (conn x y btns : Z)
| ALockScreen.

(** [LATEST_PEER_INPUT_CURSOR]. *)
Record Input := mkInputPos { in_conn : Z; in_time : Z; in_x : Z; in_y : Z }.

Record InputWorld := mkInput {
  i_log : list InputAct;
  KEYS_DOWN : gmap KeysDown Z;
  LATEST_PEER_INPUT_CURSOR : Input;
  RELATIVE_MOUSE_CONNS : gset Z;
  EXITING : bool
}.
#[global] Instance eta_InputWorld : Settable InputWorld := λ w,
  mkInput (i_log w) (KEYS_DOWN w) (LATEST_PEER_INPUT_CURSOR w) (RELATIVE_MOUSE_CONNS w) (EXITING w).
Definition input_new : InputWorld := mkInput [] ∅ (mkInputPos 0 0 0 0) ∅ false.

Record InputEnv := {
  ie_now : Z;                                            (* in milliseconds *)
  ie_x11 : bool;
  ie_is_server : bool;
  ie_key_state : list InputAct → Key → bool;             (* Enigo::get_key_state *)
  ie_key_down_ok : list InputAct → Key → bool;
  ie_clipboard_ok : string → bool;
  ie_to_uppercase : string → string;
  ie_cursor_pos : option (Z * Z);
  ie_rdev_key : Z → string                               (* rdev::linux_key_from_code *)
}.

Section InputService.
Variable env : InputEnv.

(** ** Programs over the devices *)

Definition I (A : Type) : Type := InputWorld → A * InputWorld.
#[global] Instance I_ret : MRet I := λ A a w, (a, w).
#[global] Instance I_bind : MBind I := λ A B f m w, let '(a, w) := m w in f a w.

Definition iget {A} (f : InputWorld → A) : I A := λ w, (f w, w).
Definition iput (f : InputWorld → InputWorld) : I unit := λ w, (tt, f w).
Definition iwhen (b : bool) (m : I unit) : I unit := if b then m else mret tt.
Definition do_ (a : InputAct) : I unit := iput (λ w, w <| i_log := a :: i_log w |>).
Fixpoint ieach {A} (f : A → I unit) (l : list A) : I unit :=
  match l with [] => mret tt | x :: l => f x;; ieach f l end.

Definition wayland_use_uinput : bool := negb (ie_x11 env) && ie_is_server env.
Definition wayland_use_rdp_input : bool := negb (ie_x11 env) && negb (ie_is_server env).

Definition get_key_state (k : Key) : I bool := iget (λ w, ie_key_state env (i_log w) k).
(** Whether it worked. *)
Definition key_down (k : Key) : I bool :=
  ok ← iget (λ w, ie_key_down_ok env (i_log w) k);
  do_ (AKeyDown k ok);; mret ok.
Definition key_up (k : Key) : I unit := do_ (AKeyUp k).
Definition key_click (k : Key) : I unit := do_ (AKeyClick k).
Definition key_sequence (s : string) : I unit := do_ (ASequence s).

(** ** Modifiers *)

(** The key on the other side of the keyboard. *)
Definition other_side (k : Key) : option Key :=
  match k with
  | Named n =>
      (λ kv : string * string, Named kv.2) <$> List.find (λ kv, String.eqb kv.1 n)
        [("Shift", "RightShift"); ("Control", "RightControl"); ("Alt", "RightAlt"); ("Meta", "RWin");
         ("RightShift", "Shift"); ("RightControl", "Control"); ("RightAlt", "Alt"); ("RWin", "Meta")]
  | _ => None
  end.

Definition get_modifier_state (k : Key) : I bool :=
  x ← get_key_state k;
  match other_side k with
  | Some k' => if (x : bool) then mret true else get_key_state k'
  | None => mret x
  end.
Definition is_pressed (k : Key) : I bool := get_modifier_state k.

Definition MODIFIERS : list Key :=
  map Named ["Shift"; "Control"; "Alt"; "Meta"; "RightShift"; "RightControl"; "RightAlt"; "RWin"].
Definition release_device_modifiers : I unit :=
  ieach (λ k, b ← get_modifier_state k; iwhen b (key_up k)) MODIFIERS.

Definition has_modifier (modifiers : list Z) (v : Z) : bool := existsb (Z.eqb v) modifiers.

Definition fix_modifier (modifiers : list Z) (key0 : Z) (key1 : Key) : I unit :=
  b ← get_modifier_state key1;
  iwhen (b && negb (has_modifier modifiers key0)) (key_up key1).

Definition fix_modifiers (modifiers : list Z) (ck : Z) : I unit :=
  ieach (λ x, let '(own, key0, key1) := x in
              iwhen (negb (ck =? own)%Z) (fix_modifier modifiers key0 (Named key1)))
    [(ck_Shift, ck_Shift, "Shift"); (ck_RShift, ck_Shift, "RightShift");
     (ck_Alt, ck_Alt, "Alt"); (ck_RAlt, ck_Alt, "RightAlt");
     (ck_Control, ck_Control, "Control"); (ck_RControl, ck_Control, "RightControl");
     (ck_Meta, ck_Meta, "Meta"); (ck_RWin, ck_Meta, "RWin")].

Definition is_hotkey_modifier_pressed : I bool :=
  (fix go l := match l with
               | [] => mret false
               | k :: l => b ← get_modifier_state (Named k); if (b : bool) then mret true else go l
               end) ["Control"; "RightControl"; "Alt"; "RightAlt"; "Meta"; "RWin"].

Definition get_control_key_value (e : KeyEvent) : Z :=
  match ke_union e with Some (ControlKey v) => v | _ => -1 end.

(** Control, the right one, Meta, the right one, Alt, the right one. *)
Definition has_hotkey_modifiers (e : KeyEvent) : bool :=
  existsb (λ v, existsb (Z.eqb v) [ck_Control; ck_RControl; ck_Meta; ck_RWin; ck_Alt; ck_RAlt]) (ke_modifiers e).

Definition release_unpressed_modifiers (e : KeyEvent) : I unit :=
  fix_modifiers (ke_modifiers e) (get_control_key_value e).

(** It looks for the number of the control key among the keycodes of X. *)
Definition is_altgr_pressed : I bool :=
  iget (λ w, bool_decide (is_Some (KEYS_DOWN w !! RdevKey ck_RAlt))).

(** What has to be released afterwards. *)
Fixpoint press_modifiers (modifiers : list Z) (to_release : list Key) : I (list Key) :=
  match modifiers with
  | [] => mret to_release
  | ck :: modifiers =>
      match control_key_value_to_key ck with
      | Some key =>
          p ← is_pressed key;
          if (p : bool) then press_modifiers modifiers to_release else
          altgr ← (if bool_decide (key = Named "Alt") then is_altgr_pressed else mret false);
          if (altgr : bool) then press_modifiers modifiers to_release else
          _ ← key_down key;
          press_modifiers modifiers (to_release ++ [key])%list
      | None => press_modifiers modifiers to_release
      end
  end.

Definition sync_modifiers (e : KeyEvent) : I (list Key) :=
  if ke_down e then release_unpressed_modifiers e;; press_modifiers (ke_modifiers e) [] else mret [].

Definition release_keys (to_release : list Key) : I unit := ieach key_up to_release.

(** ** Lock keys *)

Definition is_legacy_mode (e : KeyEvent) : bool :=
  match ke_mode e with None | Some Legacy => true | _ => false end.

Record LockModesHandler := mkLocks { caps_lock_changed : bool; num_lock_changed : bool }.

Definition locks_new (e : KeyEvent) (is_numpad_key : bool) : I LockModesHandler :=
  let event_caps := has_modifier (ke_modifiers e) ck_CapsLock in
  local_caps ← get_key_state (Named "CapsLock");
  let caps := negb (Bool.eqb event_caps local_caps) in
  iwhen caps (key_click (Named "CapsLock"));;
  num ← (if is_numpad_key then
           local_num ← get_key_state (Named "NumLock");
           mret (negb (Bool.eqb (has_modifier (ke_modifiers e) ck_NumLock) local_num))
         else mret false);
  iwhen num (key_click (Named "NumLock"));;
  mret (mkLocks caps num).

Definition locks_drop (l : LockModesHandler) : I unit :=
  if wayland_use_uinput then mret tt else
  iwhen (caps_lock_changed l) (key_click (Named "CapsLock"));;
  iwhen (num_lock_changed l) (key_click (Named "NumLock")).

Definition skip_led_sync_control_key (v : Z) : bool :=
  existsb (Z.eqb v) [ck_Control; ck_RControl; ck_Meta; ck_Shift; ck_RShift; ck_Alt; ck_RAlt; ck_Tab; ck_Return].
(** Numpad0 to Numpad9, NumpadEnter. *)
Definition is_numpad_control_key (v : Z) : bool := ((33 <=? v) && (v <=? 42) || (v =? 72))%Z.
Definition skip_led_sync_rdev_key (k : string) : bool :=
  existsb (String.eqb k) ["ControlLeft"; "ControlRight"; "MetaLeft"; "MetaRight"; "ShiftLeft"; "ShiftRight";
                          "Alt"; "AltGr"; "Tab"; "Return"].
Definition is_numpad_rdev_key (k : string) : bool :=
  existsb (String.eqb k) ["Kp0"; "Kp1"; "Kp2"; "Kp3"; "Kp4"; "Kp5"; "Kp6"; "Kp7"; "Kp8"; "Kp9"; "KpMinus";
                          "KpMultiply"; "KpDivide"; "KpPlus"; "KpDecimal"].

(** Whether the lock keys follow the peer's for this event, and as on the numeric pad. *)
Definition lock_mode_of (e : KeyEvent) : option bool :=
  match ke_union e with
  | Some (Unicode _) | Some (Seq _) => Some false
  | Some (ControlKey v) => if skip_led_sync_control_key v then None else Some (is_numpad_control_key v)
  | Some (Chr c) =>
      if is_legacy_mode e then Some false
      else let k := ie_rdev_key env c in
           if skip_led_sync_rdev_key k then None else Some (is_numpad_rdev_key k)
  | _ => None
  end.

(** ** The table of keys held down *)

Definition record_pressed_key (k : KeysDown) (down : bool) : I unit :=
  iput (λ w, w <| KEYS_DOWN := if down then <[k := ie_now env]> (KEYS_DOWN w) else delete k (KEYS_DOWN w) |>).

Definition release_record_key (k : KeysDown) : I unit :=
  match k with
  | RdevKey code => do_ (ASimulate false code)
  | EnigoKey r => match record_key_to_key r with Some key => key_up key | None => mret tt end
  end.

Definition fix_key_down_timeout (force : bool) : I unit :=
  cloned ← iget (λ w, map_to_list (KEYS_DOWN w));
  ieach (λ kv, iwhen (force || (360000 <=? ie_now env - kv.2)%Z)
                 (record_pressed_key kv.1 false;; release_record_key kv.1)) cloned.

Definition fix_key_down_timeout_at_exit : I unit :=
  e ← iget EXITING;
  iwhen (negb e) (iput (λ w, w <| EXITING := true |>);; fix_key_down_timeout true).

(** ** Characters through the clipboard *)

Definition XKB_KEY_INSERT : Z := 118.

Definition set_clipboard_for_paste_sync (text : string) : I bool :=
  do_ (ASetClipboard text);; mret (ie_clipboard_ok env text).

Definition input_text_via_clipboard_server (text : string) : I unit :=
  if is_empty text then mret tt else
  ok ← set_clipboard_for_paste_sync text;
  iwhen ok
    (ok ← key_down (Named "Shift");
     iwhen ok
       (ok ← key_down (Raw XKB_KEY_INSERT);
        if (ok : bool) then key_up (Raw XKB_KEY_INSERT);; key_up (Named "Shift")
        else key_up (Named "Shift"))).

Definition input_char_via_clipboard_server (c : Z) : I unit := input_text_via_clipboard_server (char_to_string c).

(** ** Keyboard modes *)

Definition need_to_uppercase : I bool :=
  s ← get_modifier_state (Named "Shift");
  if (s : bool) then mret true else get_modifier_state (Named "CapsLock").

Definition process_control_key (v : Z) (down : bool) : I unit :=
  match control_key_value_to_key v with
  | Some key => if down then key_down key;; mret tt else key_up key
  | None => mret tt
  end.

(** Without the way through the clipboard. *)
Definition process_chr_key (chr : Z) (down : bool) : I unit :=
  let key := char_value_to_key chr in
  if down then
    ok ← key_down key;
    iwhen (negb ok && is_char chr)
      (up ← need_to_uppercase;
       key_sequence (if (up : bool) then ie_to_uppercase env (char_to_string chr) else char_to_string chr))
  else key_up key.

Definition process_chr (chr : Z) (down : bool) : I unit :=
  if wayland_use_uinput then
    hotkey ← is_hotkey_modifier_pressed;
    if (hotkey : bool) then process_chr_key chr down
    else iwhen (down && is_char chr) (input_char_via_clipboard_server chr)
  else process_chr_key chr down.

Definition process_unicode (chr : Z) : I unit :=
  iwhen (is_char chr)
    (if wayland_use_uinput then input_char_via_clipboard_server chr else key_sequence (char_to_string chr)).

Definition process_seq (s : string) : I unit :=
  if wayland_use_uinput then input_text_via_clipboard_server s else key_sequence s.

(** The lock screen is asked for in a thread of its own ([lock_screen]). *)
Definition is_function_key (v : Z) : I bool :=
  if (v =? ck_CtrlAltDel)%Z then mret true
  else if (v =? ck_LockScreen)%Z then do_ ALockScreen;; mret true
  else mret false.

Definition release_shift (name rdev_name : string) : I unit :=
  b ← get_modifier_state (Named name);
  iwhen b (if ie_x11 env then do_ (ARelease rdev_name) else key_up (Named name)).

Definition release_shift_for_char_input : I unit :=
  hotkey ← is_hotkey_modifier_pressed;
  iwhen (negb hotkey) (release_shift "Shift" "ShiftLeft";; release_shift "RightShift" "ShiftRight").

Definition legacy_keyboard_mode (e : KeyEvent) : I unit :=
  to_release ← sync_modifiers e;
  match ke_union e with
  | Some (ControlKey v) =>
      f ← is_function_key v;
      if (f : bool) then mret tt else
      record_pressed_key (EnigoKey (wrap 64 v)) (ke_down e);;
      process_control_key v (ke_down e);;
      release_keys to_release
  | Some (Chr c) =>
      release_shift_for_char_input;;
      record_pressed_key (EnigoKey (c + KEY_CHAR_START)) (ke_down e);;
      process_chr c (ke_down e);;
      release_keys to_release
  | Some (Unicode c) => release_shift_for_char_input;; process_unicode c;; release_keys to_release
  | Some (Seq s) => process_seq s;; release_keys to_release
  | _ => release_keys to_release
  end.

Definition sim_rdev_rawkey_position (code : Z) (keydown : bool) : I unit :=
  record_pressed_key (RdevKey code) keydown;; do_ (ASimulate keydown code).

(** It is not recorded. *)
Definition wayland_send_raw_key (code : Z) (down : bool) : I unit :=
  if down then key_down (Raw code);; mret tt else key_up (Raw code).

Definition chr_of (e : KeyEvent) : Z := match ke_union e with Some (Chr c) => c | _ => 0 end.

Definition raw_key (code : Z) (down : bool) : I unit :=
  if ie_x11 env then sim_rdev_rawkey_position code down else wayland_send_raw_key (wrap 16 code) down.

Definition map_keyboard_mode (e : KeyEvent) : I unit := raw_key (chr_of e) (ke_down e).

Definition translate_seq (s : string) : I unit :=
  if negb (ie_x11 env) then
    hotkey ← is_hotkey_modifier_pressed;
    if (hotkey : bool) then ieach (λ c, key_click (Layout c)) (chars s)
    else release_shift_for_char_input;; input_text_via_clipboard_server s
  else
    release_shift_for_char_input;; ieach (λ c, key_click (Layout c)) (chars s).

Definition translate_keyboard_mode (e : KeyEvent) : I unit :=
  match ke_union e with
  | Some (Seq s) => translate_seq s
  | Some (Chr _) => raw_key (chr_of e) (ke_down e)
  | _ => mret tt
  end.

Definition keyboard_mode (e : KeyEvent) : I unit :=
  match ke_mode e with
  | Some Map => map_keyboard_mode e
  | Some Translate => translate_keyboard_mode e
  | _ => legacy_keyboard_mode e
  end.

(** [handle_key], [handle_key_]. *)
Definition handle_key (e : KeyEvent) : I unit :=
  exiting ← iget EXITING;
  if (exiting : bool) then mret tt else
  locks ← match lock_mode_of e with
          | Some numpad => l ← locks_new e numpad; mret (Some l)
          | None => mret None
          end;
  keyboard_mode e;;
  match locks with Some l => locks_drop l | None => mret tt end.

(** Meta and [l], down and up. *)
Definition lock_screen : I unit :=
  let e down := {| ke_down := down; ke_press := false; ke_union := Some (Chr 108);
                   ke_modifiers := [ck_Meta]; ke_mode := Some Legacy |} in
  handle_key (e true);; handle_key (e false).

(** ** The mouse *)

Definition MOUSE_TYPE_MOVE : Z := 0.
Definition MOUSE_TYPE_DOWN : Z := 1.
Definition MOUSE_TYPE_WHEEL : Z := 3.
Definition MOUSE_TYPE_TRACKPAD : Z := 4.
Definition MOUSE_TYPE_MOVE_RELATIVE : Z := 5.
Definition MAX_RELATIVE_MOUSE_DELTA : Z := 10000.

(** [MOUSE_BUTTON_LEFT] and the others. *)
Definition button_of (buttons : Z) : option MouseButton :=
  if (buttons =? 1)%Z then Some MbLeft
  else if (buttons =? 2)%Z then Some MbRight
  else if (buttons =? 4)%Z then Some MbMiddle
  else if (buttons =? 8)%Z then Some MbBack
  else if (buttons =? 16)%Z then Some MbForward
  else None.

Definition set_relative_mouse_active (conn : Z) (active : bool) : I unit :=
  iput (λ w, w <| RELATIVE_MOUSE_CONNS :=
    if active then {[conn]} ∪ RELATIVE_MOUSE_CONNS w else RELATIVE_MOUSE_CONNS w ∖ {[conn]} |>).
Definition is_relative_mouse_active (conn : Z) : I bool := iget (λ w, bool_decide (conn ∈ RELATIVE_MOUSE_CONNS w)).
Definition clear_relative_mouse_active (conn : Z) : I unit := set_relative_mouse_active conn false.

Definition set_input_pos (conn x y : Z) : I unit :=
  iput (λ w, w <| LATEST_PEER_INPUT_CURSOR := mkInputPos conn (ie_now env) x y |>).
Definition update_latest_input_cursor_time (conn : Z) : I unit :=
  iput (λ w, w <| LATEST_PEER_INPUT_CURSOR :=
    mkInputPos conn (ie_now env) (in_x (LATEST_PEER_INPUT_CURSOR w)) (in_y (LATEST_PEER_INPUT_CURSOR w)) |>).
Definition get_last_input_cursor_pos : I (Z * Z) :=
  iget (λ w, (in_x (LATEST_PEER_INPUT_CURSOR w), in_y (LATEST_PEER_INPUT_CURSOR w))).

Definition clamp (lo hi x : Z) : Z := Z.max lo (Z.min hi x).

(** The modifiers of a button that is pressed. *)
Fixpoint mouse_modifiers (modifiers : list Z) (to_release : list Key) : I (list Key) :=
  match modifiers with
  | [] => mret to_release
  | ck :: modifiers =>
      match control_key_value_to_key ck with
      | Some key =>
          if bool_decide (key = Named "CapsLock") || bool_decide (key = Named "NumLock")
          then mouse_modifiers modifiers to_release else
          p ← get_modifier_state key;
          if (p : bool) then mouse_modifiers modifiers to_release else
          _ ← key_down key;
          mouse_modifiers modifiers (to_release ++ [key])%list
      | None => mouse_modifiers modifiers to_release
      end
  end.

Definition mouse_act (e : MouseEvent) (conn : Z) : I unit :=
  let buttons := Z.shiftr (me_mask e) 3 in
  let evt_type := Z.land (me_mask e) MOUSE_TYPE_MASK in
  if (evt_type =? MOUSE_TYPE_MOVE)%Z then
    set_relative_mouse_active conn false;;
    do_ (AMouseMoveTo (me_x e) (me_y e));;
    set_input_pos conn (me_x e) (me_y e)
  else if (evt_type =? MOUSE_TYPE_MOVE_RELATIVE)%Z then
    set_relative_mouse_active conn true;;
    do_ (AMouseMoveRelative (clamp (- MAX_RELATIVE_MOUSE_DELTA) MAX_RELATIVE_MOUSE_DELTA (me_x e))
                            (clamp (- MAX_RELATIVE_MOUSE_DELTA) MAX_RELATIVE_MOUSE_DELTA (me_y e)));;
    match ie_cursor_pos env with Some (x, y) => set_input_pos conn x y | None => mret tt end
  else if (evt_type =? MOUSE_TYPE_DOWN)%Z then
    match button_of buttons with Some b => do_ (AMouseDown b) | None => mret tt end
  else if (evt_type =? MOUSE_TYPE_UP)%Z then
    match button_of buttons with Some b => do_ (AMouseUp b) | None => mret tt end
  else if ((evt_type =? MOUSE_TYPE_WHEEL) || (evt_type =? MOUSE_TYPE_TRACKPAD))%Z then
    let x := swrap 32 (- me_x e) in
    let y := swrap 32 (- me_y e) in
    iwhen (negb (y =? 0)%Z) (do_ (AScrollY y));;
    iwhen (negb (x =? 0)%Z) (do_ (AScrollX x))
  else mret tt.

Definition handle_mouse_simulation (e : MouseEvent) (conn : Z) : I unit :=
  exiting ← iget EXITING;
  if (exiting : bool) then mret tt else
  to_release ← (if (Z.land (me_mask e) MOUSE_TYPE_MASK =? MOUSE_TYPE_DOWN)%Z
                then fix_modifiers (me_modifiers e) 0;; mouse_modifiers (me_modifiers e) []
                else mret []);
  mouse_act e conn;;
  release_keys to_release.

Definition handle_mouse_show_cursor (e : MouseEvent) (conn : Z) : I unit :=
  let buttons := Z.shiftr (me_mask e) 3 in
  let evt_type := Z.land (me_mask e) MOUSE_TYPE_MASK in
  if (evt_type =? MOUSE_TYPE_MOVE)%Z then do_ (AWhiteboard conn (me_x e) (me_y e) 0)
  else
    iwhen ((evt_type =? MOUSE_TYPE_UP)%Z && (buttons =? MOUSE_BUTTON_LEFT)%Z)
      (xy ← (if ((me_x e =? 0) && (me_y e =? 0))%Z then get_last_input_cursor_pos else mret (me_x e, me_y e));
       do_ (AWhiteboard conn xy.1 xy.2 buttons)).

Definition handle_mouse (e : MouseEvent) (conn : Z) (simulate show_cursor : bool) : I unit :=
  iwhen simulate (handle_mouse_simulation e conn);;
  rel ← is_relative_mouse_active conn;
  iwhen (show_cursor && negb rel && negb (Z.land (me_mask e) MOUSE_TYPE_MASK =? MOUSE_TYPE_MOVE_RELATIVE)%Z)
    (handle_mouse_show_cursor e conn).

(** ** The thread of a connection *)

(** [BlockOn] and [BlockOff] do nothing on Linux, nor do pointer events. *)
Inductive MessageInput :=
| InMouse (e : MouseEvent) (conn : Z) (simulate show_cursor : bool)
| InKey (e : KeyEvent) (press : bool)
| InPointer
| InBlock (on : bool).

Definition with_down (e : KeyEvent) (down : bool) : KeyEvent :=
  {| ke_down := down; ke_press := false; ke_union := ke_union e; ke_modifiers := ke_modifiers e; ke_mode := ke_mode e |}.

Definition handle_input (m : MessageInput) : I unit :=
  match m with
  | InMouse e conn simulate show_cursor => handle_mouse e conn simulate show_cursor
  | InKey e press =>
      handle_key (with_down e (press || ke_down e));;
      iwhen press (handle_key (with_down e false))
  | InPointer | InBlock _ => mret tt
  end.

(** The channel of the connection is closed. *)
Definition handle_input_ends : I unit := do_ AClearRemapped.

(** What the threads of the process do to the devices. *)
Inductive InputStep :=
| IsInput (m : MessageInput)
| IsThreadEnds
| IsLockScreen
| IsTimeout                      (* fix_key_down_timeout_loop, every ten seconds *)
| IsCursorReset                  (* the cursor service has no subscriber left *)
| IsExit
| IsReleaseModifiers
| IsClearRelative (conn : Z).

Definition input_step (s : InputStep) : I unit :=
  match s with
  | IsInput m => handle_input m
  | IsThreadEnds => handle_input_ends
  | IsLockScreen => lock_screen
  | IsTimeout => fix_key_down_timeout false
  | IsCursorReset => fix_key_down_timeout true
  | IsExit => fix_key_down_timeout_at_exit
  | IsReleaseModifiers => release_device_modifiers
  | IsClearRelative conn => clear_relative_mouse_active conn
  end.
End InputService.

(** The messages a connection sends to its thread, from what it does ([Dispatch]). *)
Definition input_of_action (conn : Z) (a : Action) : option MessageInput :=
  match a with
  | InputMouse e simulate show_cursor => Some (InMouse e conn simulate show_cursor)
  | InputKey e press => Some (InKey e press)
  | InputPointer _ => Some InPointer
  | _ => None
  end.
