(* ===== verification/InputSafety.v ===== *)
(** * Theorems on keys and mouse

    Every key held down for a peer is in the table, so that the reset, the timeout
    and the exit release it; a key is simulated under the peer's CapsLock, and the
    host's is put back ([Input]).  Both hold under X11. *)

From Stdlib Require Import Ascii String.
From S2P Require Import Prelude Strs Dispatch Input.

Local Open Scope list_scope.
#[local] Abbreviation length := Datatypes.length.
#[local] Arguments String.append _ _ : simpl nomatch.

(** ** Reasoning on programs *)

Definition triple {A} (P : InputWorld → Prop) (m : I A) (Q : A → InputWorld → Prop) : Prop :=
  ∀ w, P w → Q (m w).1 (m w).2.

Create HintDb input.

Lemma triple_ret {A} (a : A) P (Q : A → InputWorld → Prop) : (∀ w, P w → Q a w) → triple P (mret a : I A) Q.
Proof. intros H w Hw. by apply H. Qed.

Lemma triple_bind {A B} (m : I A) (f : A → I B) P R Q :
  triple P m R → (∀ a, triple (R a) (f a) Q) → triple P (m ≫= f) Q.
Proof.
  intros Hm Hf w Hw. unfold mbind, I_bind. specialize (Hm w Hw). destruct (m w) as [a w1]. by apply Hf.
Qed.

Lemma triple_weaken {A} (m : I A) (P P' : InputWorld → Prop) (Q Q' : A → InputWorld → Prop) :
  triple P' m Q' → (∀ w, P w → P' w) → (∀ a w, Q' a w → Q a w) → triple P m Q.
Proof. intros H HP HQ w Hw. by apply HQ, H, HP. Qed.

Lemma triple_get {A} (f : InputWorld → A) P : triple P (iget f) (λ a w, P w ∧ a = f w).
Proof. by intros w Hw. Qed.

Lemma triple_when (b : bool) m (P : InputWorld → Prop) (Q : unit → InputWorld → Prop) :
  (b = true → triple P m Q) → (b = false → ∀ w, P w → Q tt w) → triple P (iwhen b m) Q.
Proof. intros H1 H2. destruct b; [by apply H1|]. intros w Hw. by apply H2. Qed.

Lemma ibind {A B} (m : I A) (f : A → I B) w : (m ≫= f) w = f (m w).1 (m w).2.
Proof. unfold mbind, I_bind. by destruct (m w). Qed.

Lemma triple_assoc {A B C} (m : I A) (f : A → I B) (g : B → I C) P Q :
  triple P ((m ≫= f) ≫= g) Q → triple P (m ≫= λ a, f a ≫= g) Q.
Proof. intros H w Hw. specialize (H w Hw). unfold mbind, I_bind in *. by destruct (m w) as [a w1]. Qed.

(** A property every step of a loop keeps. *)
Lemma triple_each {A} (f : A → I unit) l (P : InputWorld → Prop) :
  (∀ x, x ∈ l → triple P (f x) (λ _, P)) → triple P (ieach f l) (λ _, P).
Proof.
  induction l as [|x l IH]; intros H; cbn [ieach]; [by intros w Hw|].
  eapply triple_bind; [apply H; by left|]. intros ?. apply IH. intros y Hy. apply H. by right.
Qed.

(** Programs that only look, or only add to the log. *)
Definition keeps {A} (P : InputWorld → Prop) (m : I A) : Prop := triple P m (λ _, P).

Lemma ikeeps_ret {A} (a : A) P : keeps P (mret a : I A). Proof. by intros w Hw. Qed.
Lemma ikeeps_bind {A B} (m : I A) (f : A → I B) P : keeps P m → (∀ a, keeps P (f a)) → keeps P (m ≫= f).
Proof. intros Hm Hf. eapply triple_bind; [exact Hm|exact Hf]. Qed.
Lemma keeps_get {A} (f : InputWorld → A) P : keeps P (iget f). Proof. by intros w Hw. Qed.
Lemma ikeeps_when (b : bool) m P : (b = true → keeps P m) → keeps P (iwhen b m).
Proof. intros H. apply triple_when; [done|]. by intros _ w. Qed.
Lemma keeps_each {A} (f : A → I unit) l P : (∀ x, x ∈ l → keeps P (f x)) → keeps P (ieach f l).
Proof. apply triple_each. Qed.

Lemma keeps_modifier_state env k P : keeps P (get_modifier_state env k).
Proof.
  unfold get_modifier_state, get_key_state. apply ikeeps_bind; [apply keeps_get|]. intros x.
  destruct (other_side k); [destruct x|]; first [apply ikeeps_ret|apply keeps_get].
Qed.

Lemma keeps_hotkey env P : keeps P (is_hotkey_modifier_pressed env).
Proof.
  unfold is_hotkey_modifier_pressed.
  repeat (apply ikeeps_bind; [apply keeps_modifier_state|]; intros []; [apply ikeeps_ret|]). apply ikeeps_ret.
Qed.

(** Taking a program apart, with what is known of its parts. *)
#[export] Hint Resolve ikeeps_ret keeps_get keeps_modifier_state keeps_hotkey : input.
Ltac keep :=
  repeat first
    [ progress intros
    | progress (cbn beta iota)
    | solve [auto with input]
    | apply ikeeps_when
    | apply keeps_each
    | match goal with
      | |- keeps _ (match ?x with _ => _ end) => destruct x eqn:?
      | |- keeps _ (mbind _ _) => apply ikeeps_bind
      | |- triple ?P ?m (λ _, ?P) => change (keeps P m)
      end ].

(** ** What is held down *)

Fixpoint held (l : list InputAct) : gset Key :=
  match l with
  | [] => ∅
  | AKeyDown k true :: l => {[k]} ∪ held l
  | AKeyUp k :: l | AKeyClick k :: l => held l ∖ {[k]}
  | _ :: l => held l
  end.

Fixpoint held_raw (l : list InputAct) : gset Z :=
  match l with
  | [] => ∅
  | ASimulate true c :: l => {[c]} ∪ held_raw l
  | ASimulate false c :: l => held_raw l ∖ {[c]}
  | _ :: l => held_raw l
  end.

Definition recorded (w : InputWorld) (k : Key) : Prop :=
  ∃ r, is_Some (KEYS_DOWN w !! EnigoKey r) ∧ record_key_to_key r = Some k.

(** Each key held down is in the table, or among the keys [T] that this event will
    release. *)
Record accounted_but (T : list Key) (w : InputWorld) : Prop := {
  ac_keys : ∀ k, k ∈ held (i_log w) → recorded w k ∨ k ∈ T;
  ac_raw : ∀ c, c ∈ held_raw (i_log w) → is_Some (KEYS_DOWN w !! RdevKey c)
}.
Definition accounted : InputWorld → Prop := accounted_but [].

(** An action that holds nothing down. *)
Definition harmless (a : InputAct) : bool :=
  match a with AKeyDown _ true | ASimulate true _ => false | _ => true end.

Lemma held_harmless a l : harmless a = true → held (a :: l) ⊆ held l ∧ held_raw (a :: l) ⊆ held_raw l.
Proof. destruct a as [k []|k|k| |[] c| | | | | | | | | | |]; cbn; try done; intros _; set_solver. Qed.

Lemma keeps_harmless T a : harmless a = true → keeps (accounted_but T) (do_ a).
Proof.
  intros Ha w [H1 H2]. destruct (held_harmless a (i_log w) Ha) as [K1 K2]. split; cbn [do_ iput fst snd i_log].
  - intros k Hk. apply H1, K1, Hk.
  - intros c Hc. apply H2, K2, Hc.
Qed.

Lemma keeps_key_up T k : keeps (accounted_but T) (key_up k).
Proof. by apply keeps_harmless. Qed.
Lemma keeps_key_click T k : keeps (accounted_but T) (key_click k).
Proof. by apply keeps_harmless. Qed.
Lemma keeps_sequence T s : keeps (accounted_but T) (key_sequence s).
Proof. by apply keeps_harmless. Qed.
#[export] Hint Resolve keeps_key_up keeps_key_click keeps_sequence : input.
#[export] Hint Extern 1 (keeps (accounted_but _) (do_ _)) => apply keeps_harmless; reflexivity : input.

(** A key pressed has to be released. *)
Lemma press_later env T k : triple (accounted_but T) (key_down env k) (λ _, accounted_but (T ++ [k])).
Proof.
  intros w [H1 H2]. unfold key_down, mbind, I_bind, iget, do_, iput. cbn. split; cbn [i_log KEYS_DOWN].
  - intros k' Hk. assert (k' = k ∨ k' ∈ held (i_log w)) as [->|Hk'] by (cbn in Hk; destruct (ie_key_down_ok env (i_log w) k); set_solver).
    + right. set_solver.
    + destruct (H1 k' Hk'); [by left|right; set_solver].
  - intros c Hc. apply H2. cbn in Hc. by destruct (ie_key_down_ok env (i_log w) k).
Qed.

Lemma release_pressed T k : triple (accounted_but (k :: T)) (key_up k) (λ _, accounted_but T).
Proof.
  intros w [H1 H2]. split; cbn.
  - intros k' Hk. apply elem_of_difference in Hk as [Hk Hne]. destruct (H1 k' Hk) as [|[->|]%elem_of_cons]; [by left|set_solver|by right].
  - intros c Hc. by apply H2.
Qed.

Lemma release_all T : triple (accounted_but T) (release_keys T) (λ _, accounted).
Proof.
  unfold release_keys. induction T as [|k T IH]; cbn [ieach]; [by intros w Hw|].
  eapply triple_bind; [apply release_pressed|]. intros ?. exact IH.
Qed.

(** Pressing a key that is recorded. *)
Lemma press_recorded env T k :
  triple (λ w, accounted_but T w ∧ recorded w k) (key_down env k) (λ _, accounted_but T).
Proof.
  intros w [H Hr]. destruct (press_later env T k w H) as [H1 H2]. split; [|done].
  intros k' Hk. destruct (H1 k' Hk) as [?|[?| ->%list_elem_of_singleton]%elem_of_app]; [by left|by right|].
  left. destruct Hr as (r & Hr & Hk'). by exists r.
Qed.

Lemma keeps_fix_modifiers env mods ck T : keeps (accounted_but T) (fix_modifiers env mods ck).
Proof.
  unfold fix_modifiers. apply keeps_each. intros [[own k0] k1] _. unfold fix_modifier. keep.
Qed.

Lemma keeps_release_shift env T : keeps (accounted_but T) (release_shift_for_char_input env).
Proof. unfold release_shift_for_char_input, release_shift. keep. Qed.

Lemma keeps_locks env e n T : keeps (accounted_but T) (locks_new env e n).
Proof. unfold locks_new, get_key_state. keep. Qed.

Lemma keeps_locks_drop env l T : keeps (accounted_but T) (locks_drop env l).
Proof. unfold locks_drop. keep. Qed.
#[export] Hint Resolve keeps_fix_modifiers keeps_release_shift keeps_locks keeps_locks_drop : input.

Lemma press_modifiers_later env mods tr :
  triple (accounted_but tr) (press_modifiers env mods tr) (λ tr', accounted_but tr').
Proof.
  revert tr. induction mods as [|v mods IH]; intros tr; cbn [press_modifiers]; [by apply triple_ret|].
  destruct (control_key_value_to_key v) as [key|]; [|apply IH].
  eapply triple_bind; [apply keeps_modifier_state|]. intros []; [apply IH|].
  eapply (triple_bind _ _ _ (λ _, accounted_but tr)).
  { destruct (bool_decide (key = Named "Alt")); [apply keeps_get|apply ikeeps_ret]. }
  intros []; [apply IH|]. eapply triple_bind; [apply press_later|]. intros ?. apply IH.
Qed.

Lemma mouse_modifiers_later env mods tr :
  triple (accounted_but tr) (mouse_modifiers env mods tr) (λ tr', accounted_but tr').
Proof.
  revert tr. induction mods as [|v mods IH]; intros tr; cbn [mouse_modifiers]; [by apply triple_ret|].
  destruct (control_key_value_to_key v) as [key|]; [|apply IH].
  destruct (_ || _); [apply IH|].
  eapply triple_bind; [apply keeps_modifier_state|]. intros []; [apply IH|].
  eapply triple_bind; [apply press_later|]. intros ?. apply IH.
Qed.

(** ** The table *)

Lemma record_control v key :
  control_key_value_to_key v = Some key → record_key_to_key (wrap 64 v) = Some key.
Proof.
  intros H. assert (1 <= v <= 75)%Z as Hv.
  { unfold control_key_value_to_key in H. destruct (List.find _ KEY_MAP) as [kv|] eqn:E; [|done].
    apply List.find_some in E as [Hin Hv%Z.eqb_eq]. subst v. revert kv Hin H.
    assert (Forall (λ kv, 1 <= kv.1 <= 75)%Z KEY_MAP) as HF by (repeat (constructor; [cbn; lia|]); constructor).
    intros kv Hin _. rewrite Forall_forall in HF. apply HF. by apply list_elem_of_In. }
  unfold record_key_to_key, record_key_is_control_key, KEY_CHAR_START. rewrite wrap_small by (unfold uint; lia).
  replace (v <? 9999)%Z with true by lia. by rewrite swrap_small by (unfold sint; lia).
Qed.

Lemma record_chr c : uint 32 c → record_key_to_key (c + KEY_CHAR_START) = Some (char_value_to_key c).
Proof.
  intros [H1 H2]. unfold record_key_to_key, record_key_is_control_key, KEY_CHAR_START.
  replace (c + 9999 <? 9999)%Z with false by lia. by rewrite Z.add_simpl_r, wrap_small.
Qed.

Lemma record_down env r key T :
  record_key_to_key r = Some key →
  triple (accounted_but T) (record_pressed_key env (EnigoKey r) true) (λ _ w, accounted_but T w ∧ recorded w key).
Proof.
  intros Hr w [H1 H2]. unfold record_pressed_key, iput. cbn [fst snd]. split; [split|].
  - intros k Hk. destruct (H1 k Hk) as [(r' & Hs & Hk')|]; [left|by right]. exists r'. split; [|done]. cbn.
    destruct (decide (r' = r)) as [->|]; [by rewrite lookup_insert_eq|]. rewrite lookup_insert_ne by congruence. done.
  - intros c Hc. cbn. rewrite lookup_insert_ne by done. by apply H2.
  - exists r. cbn. by rewrite lookup_insert_eq.
Qed.

(** What a key is when its record is taken away: still to be released. *)
Lemma record_up env r T :
  triple (accounted_but T) (record_pressed_key env (EnigoKey r) false)
    (λ _, accounted_but (match record_key_to_key r with Some key => key :: T | None => T end)).
Proof.
  intros w [H1 H2]. unfold record_pressed_key, iput. cbn [fst snd]. split.
  - intros k Hk. destruct (H1 k Hk) as [(r' & Hs & Hk')|].
    + destruct (decide (r' = r)) as [->|Hne]; [rewrite Hk'; right; by left|].
      left. exists r'. split; [|done]. cbn. rewrite lookup_delete_ne by congruence. done.
    + right. destruct (record_key_to_key r); [by right|done].
  - intros c Hc. cbn. rewrite lookup_delete_ne by done. by apply H2.
Qed.

Lemma record_any env r down T :
  record_key_to_key r = None → keeps (accounted_but T) (record_pressed_key env (EnigoKey r) down).
Proof.
  intros Hr w H. destruct down.
  - destruct H as [H1 H2]. split; cbn.
    + intros k Hk. destruct (H1 k Hk) as [(r' & Hs & Hk')|]; [left|by right]. exists r'. split; [|done]. cbn.
      rewrite lookup_insert_ne by congruence. done.
    + intros c Hc. rewrite lookup_insert_ne by done. by apply H2.
  - pose proof (record_up env r T w H) as H'. by rewrite Hr in H'.
Qed.

Lemma raw_position env c down T : keeps (accounted_but T) (sim_rdev_rawkey_position env c down).
Proof.
  intros w [H1 H2]. unfold sim_rdev_rawkey_position, record_pressed_key, do_, iput, mbind, I_bind. cbn. destruct down; split; cbn.
  - intros k Hk. destruct (H1 k Hk) as [(r & Hs & Hk')|]; [left|by right]. exists r. split; [|done]. cbn.
    by rewrite lookup_insert_ne.
  - intros c' [->%elem_of_singleton|Hc]%elem_of_union; [by rewrite lookup_insert_eq|].
    destruct (decide (c' = c)) as [->|]; [by rewrite lookup_insert_eq|]. rewrite lookup_insert_ne by congruence. by apply H2.
  - intros k Hk. destruct (H1 k Hk) as [(r & Hs & Hk')|]; [left|by right]. exists r. split; [|done]. cbn.
    by rewrite lookup_delete_ne.
  - intros c' [Hc Hne]%elem_of_difference. rewrite lookup_delete_ne by set_solver. by apply H2.
Qed.

(** ** Events *)

(** The fields of a message have their types, and the number of a control key is not
    among those that stand for characters in the table. *)
Definition event_typed (e : KeyEvent) : Prop :=
  match ke_union e with
  | Some (Chr c) => uint 32 c
  | Some (ControlKey v) => (0 <= v < KEY_CHAR_START)%Z
  | _ => True
  end.

(** Not a function key that comes with modifiers. *)
Definition plain (e : KeyEvent) : bool :=
  match ke_union e with
  | Some (ControlKey v) => negb ((v =? ck_CtrlAltDel) || (v =? ck_LockScreen))%Z || bool_decide (ke_modifiers e = [])
  | _ => true
  end.

Lemma sync_later env e : triple accounted (sync_modifiers env e) (λ tr, accounted_but tr).
Proof.
  unfold sync_modifiers. destruct (ke_down e); [|by apply triple_ret].
  eapply triple_bind; [apply keeps_fix_modifiers|]. intros ?. apply press_modifiers_later.
Qed.

Lemma then_release {A} (m : I A) tr :
  keeps (accounted_but tr) m → triple (accounted_but tr) (m;; release_keys tr) (λ _, accounted).
Proof. intros H. eapply triple_bind; [exact H|]. intros ?. apply release_all. Qed.

Section X11.
Context (env : InputEnv) (Hx : ie_x11 env = true).

Lemma x11_no_uinput : wayland_use_uinput env = false.
Proof. unfold wayland_use_uinput. by rewrite Hx. Qed.

(** A key that is recorded, then pressed or released. *)
Lemma record_then r key down T (m : I unit) :
  record_key_to_key r = Some key →
  (down = true → triple (λ w, accounted_but T w ∧ recorded w key) m (λ _, accounted_but T)) →
  (down = false → m = key_up key) →
  keeps (accounted_but T) (record_pressed_key env (EnigoKey r) down;; m).
Proof.
  intros Hr Hd Hu. destruct down.
  - eapply triple_bind; [by eapply record_down|]. intros ?. by apply Hd.
  - rewrite (Hu eq_refl). eapply triple_bind; [apply record_up|]. intros ?. rewrite Hr. apply release_pressed.
Qed.

Lemma control_key_kept v down T :
  (0 <= v < KEY_CHAR_START)%Z →
  keeps (accounted_but T) (record_pressed_key env (EnigoKey (wrap 64 v)) down;; process_control_key env v down).
Proof.
  intros Hv. unfold process_control_key. destruct (control_key_value_to_key v) as [key|] eqn:Ek.
  - apply (record_then _ key); [by apply record_control| |by intros ->].
    intros ->. eapply triple_bind; [apply press_recorded|]. intros ?. by apply triple_ret.
  - apply ikeeps_bind; [apply record_any|keep]. unfold KEY_CHAR_START in Hv.
    unfold record_key_to_key, record_key_is_control_key, KEY_CHAR_START. rewrite wrap_small by (unfold uint; lia).
    replace (v <? 9999)%Z with true by lia. by rewrite swrap_small by (unfold sint; lia).
Qed.

Lemma chr_key_kept c down T :
  uint 32 c →
  keeps (accounted_but T) (record_pressed_key env (EnigoKey (c + KEY_CHAR_START)) down;; process_chr env c down).
Proof.
  intros Hc. unfold process_chr. rewrite x11_no_uinput. unfold process_chr_key.
  apply (record_then _ (char_value_to_key c)); [by apply record_chr| |by intros ->].
  intros ->. eapply triple_bind; [apply press_recorded|]. intros ok. unfold need_to_uppercase. keep.
Qed.

Lemma keeps_raw_key c down T : keeps (accounted_but T) (raw_key env c down).
Proof. unfold raw_key. rewrite Hx. apply raw_position. Qed.

Lemma keeps_translate_seq s T : keeps (accounted_but T) (translate_seq env s).
Proof. unfold translate_seq. rewrite Hx. cbn [negb]. keep. Qed.

Lemma legacy_kept e : event_typed e → plain e = true → keeps accounted (legacy_keyboard_mode env e).
Proof.
  intros Ht Hp. unfold legacy_keyboard_mode. destruct (ke_union e) as [[v|c|c|s|c]|] eqn:Eu.
  - unfold is_function_key. unfold plain in Hp. rewrite Eu in Hp.
    destruct ((v =? ck_CtrlAltDel)%Z || (v =? ck_LockScreen)%Z) eqn:Ef.
    + cbn [negb orb] in Hp. apply bool_decide_eq_true in Hp. unfold sync_modifiers. rewrite Hp.
      eapply (triple_bind _ _ _ (λ _, accounted)).
      { destruct (ke_down e); [|apply ikeeps_ret]. cbn [press_modifiers]. unfold release_unpressed_modifiers, accounted. keep. }
      intros tr. unfold accounted.
      destruct (v =? ck_CtrlAltDel)%Z; [by intros w|]. cbn in Ef. rewrite Ef.
      intros w Hw. by apply (keeps_harmless [] ALockScreen eq_refl w Hw).
    + apply orb_false_elim in Ef as [-> ->]. eapply triple_bind; [apply sync_later|]. intros tr.
      change (triple (accounted_but tr) (record_pressed_key env (EnigoKey (wrap 64 v)) (ke_down e);;
        (process_control_key env v (ke_down e);; release_keys tr)) (λ _, accounted)).
      apply triple_assoc, then_release, control_key_kept. unfold event_typed in Ht. by rewrite Eu in Ht.
  - eapply triple_bind; [apply sync_later|]. intros tr. eapply triple_bind; [apply keeps_release_shift|]. intros ?.
    apply triple_assoc, then_release, chr_key_kept. unfold event_typed in Ht. by rewrite Eu in Ht.
  - eapply triple_bind; [apply sync_later|]. intros tr. eapply triple_bind; [apply keeps_release_shift|]. intros ?.
    apply then_release. unfold process_unicode. rewrite x11_no_uinput. keep.
  - eapply triple_bind; [apply sync_later|]. intros tr. apply then_release. unfold process_seq. rewrite x11_no_uinput. keep.
  - eapply triple_bind; [apply sync_later|]. intros tr. apply release_all.
  - eapply triple_bind; [apply sync_later|]. intros tr. apply release_all.
Qed.

Lemma handle_key_kept e : event_typed e → plain e = true → keeps accounted (handle_key env e).
Proof.
  intros Ht Hp. pose proof (legacy_kept e Ht Hp) as Hl. unfold handle_key, keyboard_mode, map_keyboard_mode, translate_keyboard_mode, accounted.
  pose proof (λ c d T, keeps_raw_key c d T) as Hr. pose proof (λ s T, keeps_translate_seq s T) as Hs.
  apply ikeeps_bind; [apply keeps_get|]. intros []; [apply ikeeps_ret|].
  apply ikeeps_bind; [destruct (lock_mode_of env e); keep|]. intros l.
  apply ikeeps_bind; [destruct (ke_mode e) as [[]|]; first [exact Hl|apply Hr|idtac]|keep].
  destruct (ke_union e) as [[]|]; first [apply Hr|apply Hs|keep].
Qed.
End X11.

Lemma keeps_pure T (f : InputWorld → InputWorld) :
  (∀ w, i_log (f w) = i_log w ∧ KEYS_DOWN (f w) = KEYS_DOWN w) → keeps (accounted_but T) (iput f).
Proof.
  intros Hf w [H1 H2]. destruct (Hf w) as [E1 E2]. split; cbn [iput fst snd]; unfold recorded; rewrite E1, ?E2; [apply H1|apply H2].
Qed.
#[export] Hint Extern 1 (keeps (accounted_but _) (iput _)) => apply keeps_pure; by intros w : input.

Lemma keeps_mouse_act env e conn T : keeps (accounted_but T) (mouse_act env e conn).
Proof. unfold mouse_act, set_relative_mouse_active, set_input_pos. keep. Qed.

Lemma mouse_kept env e conn simulate show : keeps accounted (handle_mouse env e conn simulate show).
Proof.
  unfold handle_mouse, handle_mouse_show_cursor, is_relative_mouse_active, get_last_input_cursor_pos, accounted.
  assert (keeps (accounted_but []) (handle_mouse_simulation env e conn)) as H; [|keep].
  unfold handle_mouse_simulation. apply ikeeps_bind; [keep|]. intros []; [keep|].
  eapply (triple_bind _ _ _ (λ tr, accounted_but tr)).
  - destruct (_ =? _)%Z; [|by apply triple_ret].
    eapply triple_bind; [apply keeps_fix_modifiers|]. intros ?. apply mouse_modifiers_later.
  - intros tr. apply then_release, keeps_mouse_act.
Qed.

(** *** Releasing what is recorded *)

Definition young (env : InputEnv) (force : bool) (t : Z) : bool := negb force && (ie_now env - t <? 360000)%Z.

Lemma release_record_kept env (kv : KeysDown * Z) :
  keeps accounted (record_pressed_key env kv.1 false;; release_record_key kv.1).
Proof.
  destruct kv as [[c|r] t]; cbn [fst].
  - apply (raw_position env c false []).
  - eapply triple_bind; [apply record_up|]. intros ?. cbn [release_record_key].
    destruct (record_key_to_key r); [apply release_pressed|by intros w].
Qed.

Lemma fix_timeout_kept env force : keeps accounted (fix_key_down_timeout env force).
Proof.
  unfold fix_key_down_timeout. apply ikeeps_bind; [apply keeps_get|]. intros l.
  apply keeps_each. intros kv _. apply ikeeps_when. intros _. apply release_record_kept.
Qed.

(** What it does to the table. *)
Lemma release_table env (kv : KeysDown * Z) w :
  KEYS_DOWN ((record_pressed_key env kv.1 false;; release_record_key kv.1) w).2 = delete kv.1 (KEYS_DOWN w).
Proof.
  destruct kv as [[c|r] t]; cbn; [done|]. by destruct (record_key_to_key r).
Qed.

Lemma fix_each_table env force l w :
  KEYS_DOWN (ieach (λ kv : KeysDown * Z, iwhen (force || (360000 <=? ie_now env - kv.2)%Z)
                 (record_pressed_key env kv.1 false;; release_record_key kv.1)) l w).2
  = foldl (λ m (kv : KeysDown * Z), if young env force kv.2 then m else delete kv.1 m) (KEYS_DOWN w) l.
Proof.
  revert w. induction l as [|kv l IH]; intros w; [done|]. cbn [ieach foldl].
  set (m := iwhen _ _). assert (KEYS_DOWN (m w).2 = if young env force kv.2 then KEYS_DOWN w else delete kv.1 (KEYS_DOWN w)) as E.
  { unfold m, young. replace (360000 <=? ie_now env - kv.2)%Z with (negb (ie_now env - kv.2 <? 360000)%Z)
      by (rewrite <- Z.leb_antisym; done).
    destruct force, (ie_now env - kv.2 <? 360000)%Z; cbn [orb andb negb iwhen]; first [done|apply release_table]. }
  unfold mbind at 1, I_bind at 1. destruct (m w) as [a w1]. cbn [snd] in E. rewrite IH, E. done.
Qed.

Lemma fix_timeout_table env force w k t :
  KEYS_DOWN (fix_key_down_timeout env force w).2 !! k = Some t → KEYS_DOWN w !! k = Some t ∧ young env force t = true.
Proof.
  unfold fix_key_down_timeout, iget, mbind at 1, I_bind at 1. cbn. rewrite fix_each_table.
  set (l := map_to_list (KEYS_DOWN w)). assert (∀ kv, kv ∈ l → KEYS_DOWN w !! kv.1 = Some kv.2) as Hl.
  { intros [k' t'] Hin. by apply elem_of_map_to_list in Hin. }
  assert (∀ (l' : list (KeysDown * Z)) m, m ⊆ KEYS_DOWN w → (∀ kv, kv ∈ l' → KEYS_DOWN w !! kv.1 = Some kv.2) →
    foldl (λ m (kv : KeysDown * Z), if young env force kv.2 then m else delete kv.1 m) m l' !! k = Some t →
    m !! k = Some t ∧ ∀ kv, kv ∈ l' → kv.1 = k → young env force kv.2 = true) as Hf.
  { clear l Hl. induction l' as [|kv l' IH]; intros m Hm Hl; cbn [foldl]; [intros ->; split; [done|by intros kv ?%not_elem_of_nil]|].
    intros H. destruct (IH (if young env force kv.2 then m else delete kv.1 m)) as [H1 H2]; [| |exact H|].
    - destruct (young _ _ _); [done|]. by etrans; [apply delete_subseteq|].
    - intros kv' Hin. apply Hl. by right.
    - destruct (young env force kv.2) eqn:Ey.
      + split; [done|]. intros kv' [->|Hin]%elem_of_cons Hk; [done|by apply H2].
      + apply lookup_delete_Some in H1 as [Hne H1]. split; [done|]. intros kv' [->|Hin]%elem_of_cons Hk; [done|by apply H2]. }
  intros H. destruct (Hf l (KEYS_DOWN w)) as [H1 H2]; [done|done|done|]. split; [done|].
  apply (H2 (k, t)); [by apply elem_of_map_to_list|done].
Qed.

(** *** After the exit nothing is pressed *)

Definition idle (w : InputWorld) : Prop := held (i_log w) = ∅ ∧ held_raw (i_log w) = ∅ ∧ EXITING w = true.

Lemma idle_do a : harmless a = true → keeps idle (do_ a).
Proof.
  intros Ha w (H1 & H2 & H3). destruct (held_harmless a (i_log w) Ha) as [K1 K2]. rewrite H1 in K1. rewrite H2 in K2.
  split_and!; cbn; [set_solver|set_solver|done].
Qed.
Lemma idle_put f : (∀ w, i_log (f w) = i_log w ∧ EXITING (f w) = EXITING w) → keeps idle (iput f).
Proof. intros Hf w (H1 & H2 & H3). destruct (Hf w) as [E1 E2]. unfold idle. cbn. by rewrite E1, E2. Qed.
Lemma idle_up k : keeps idle (key_up k). Proof. by apply idle_do. Qed.
#[export] Hint Resolve idle_up : input.
#[export] Hint Extern 1 (keeps idle (do_ _)) => apply idle_do; reflexivity : input.
#[export] Hint Extern 1 (keeps idle (iput _)) => apply idle_put; by intros w : input.

Lemma idle_then {A} (m : I A) : keeps idle (exiting ← iget EXITING; if (exiting : bool) then mret tt else (m;; mret tt)).
Proof. intros w (H1 & H2 & H3). unfold mbind, I_bind, iget. cbn. rewrite H3. done. Qed.

Lemma idle_key env e : keeps idle (handle_key env e).
Proof. intros w Hw. unfold handle_key, mbind, I_bind, iget. cbn. destruct Hw as (H1 & H2 & H3). by rewrite H3. Qed.

Lemma idle_mouse env e conn simulate show : keeps idle (handle_mouse env e conn simulate show).
Proof.
  unfold handle_mouse, handle_mouse_show_cursor, is_relative_mouse_active, get_last_input_cursor_pos.
  assert (keeps idle (handle_mouse_simulation env e conn)) as H; [|keep].
  intros w Hw. unfold handle_mouse_simulation, mbind, I_bind, iget. cbn. destruct Hw as (H1 & H2 & H3). by rewrite H3.
Qed.

Lemma idle_fix env force : keeps idle (fix_key_down_timeout env force).
Proof.
  unfold fix_key_down_timeout, release_record_key, record_pressed_key. keep.
Qed.
#[export] Hint Resolve idle_key idle_mouse idle_fix : input.

Lemma idle_step env s : keeps idle (input_step env s).
Proof.
  destruct s; cbn [input_step];
    unfold handle_input, handle_input_ends, lock_screen, fix_key_down_timeout_at_exit, release_device_modifiers,
      clear_relative_mouse_active, set_relative_mouse_active; keep.
  - by intros w (H1 & H2 & _).
Qed.

(** ** Every sequence of steps *)

Definition input_run (xs : list (InputEnv * InputStep)) (w : InputWorld) : InputWorld :=
  foldl (λ w x, (input_step x.1 x.2 w).2) w xs.

(** A host on X11, and key events whose fields have their types. *)
Definition good_step (x : InputEnv * InputStep) : Prop :=
  ie_x11 x.1 = true
  ∧ match x.2 with IsInput (InKey e _) => event_typed e ∧ plain e = true | _ => True end.

Definition safe (w : InputWorld) : Prop := accounted w ∧ (EXITING w = true → idle w).

Lemma lock_screen_kept env : ie_x11 env = true → keeps accounted (lock_screen env).
Proof.
  intros Hx. unfold lock_screen. apply ikeeps_bind; [|intros ?]; (apply handle_key_kept; [done| |done]);
    cbn; unfold uint; lia.
Qed.

Lemma released_all env w : accounted w →
  held (i_log (fix_key_down_timeout env true w).2) = ∅ ∧ held_raw (i_log (fix_key_down_timeout env true w).2) = ∅.
Proof.
  intros H. apply (fix_timeout_kept env true) in H as [H1 H2]. set (w' := (fix_key_down_timeout env true w).2) in *.
  assert (∀ k, ¬ is_Some (KEYS_DOWN w' !! k)) as Hn.
  { intros k [t Ht]. apply fix_timeout_table in Ht as [_ Ht]. done. }
  split; apply set_eq; intros x; split; [|set_solver| |set_solver]; intros Hx; exfalso.
  - destruct (H1 x Hx) as [(r & Hr & _)|[]%not_elem_of_nil]. by apply (Hn (EnigoKey r)).
  - by apply (Hn (RdevKey x)), H2.
Qed.

(** Only the exit sets [EXITING]. *)
Definition exit_is (b : bool) (w : InputWorld) : Prop := EXITING w = b.

Lemma exit_press env b m tr : keeps (exit_is b) (press_modifiers env m tr).
Proof.
  revert tr. induction m as [|v m IH]; intros tr; cbn [press_modifiers]; unfold is_altgr_pressed, is_pressed, key_down, do_; keep; by intros w.
Qed.
Lemma exit_mouse env b m tr : keeps (exit_is b) (mouse_modifiers env m tr).
Proof. revert tr. induction m as [|v m IH]; intros tr; cbn [mouse_modifiers]; unfold key_down, do_; keep; by intros w. Qed.
#[export] Hint Resolve exit_press exit_mouse : input.
#[export] Hint Extern 1 (keeps (exit_is _) (iput _)) => by intros ? : input.

Lemma exit_key env e b : keeps (exit_is b) (handle_key env e).
Proof.
  unfold handle_key, keyboard_mode, locks_new, locks_drop, get_key_state, map_keyboard_mode, translate_keyboard_mode, raw_key,
    sim_rdev_rawkey_position, wayland_send_raw_key, translate_seq, legacy_keyboard_mode, release_shift_for_char_input, release_shift,
    sync_modifiers,
    release_unpressed_modifiers, fix_modifiers, fix_modifier, is_function_key, process_control_key, process_chr,
    process_chr_key, process_unicode, process_seq, input_char_via_clipboard_server, input_text_via_clipboard_server,
    set_clipboard_for_paste_sync, need_to_uppercase, release_keys, record_pressed_key, key_up, key_down, key_click,
    key_sequence, do_.
  keep.
Qed.
#[export] Hint Resolve exit_key : input.

Lemma exit_step env s b : s ≠ IsExit → keeps (exit_is b) (input_step env s).
Proof.
  intros Hs. destruct s; cbn [input_step]; try done;
    unfold handle_input, handle_mouse, handle_mouse_show_cursor, handle_mouse_simulation, mouse_act, fix_modifiers, fix_modifier,
      is_relative_mouse_active, get_last_input_cursor_pos, set_input_pos, release_keys, lock_screen, handle_input_ends,
      fix_key_down_timeout, release_record_key, record_pressed_key, release_device_modifiers, clear_relative_mouse_active,
      set_relative_mouse_active, key_up, do_; keep.
Qed.

Lemma step_kept env s : good_step (env, s) → keeps accounted (input_step env s).
Proof.
  intros [Hx Hg]. cbn [fst snd] in *. destruct s as [[e conn sim show|e press| |on]| | | | | | |conn]; cbn [input_step handle_input].
  - apply mouse_kept.
  - destruct Hg as [Ht Hp]. unfold accounted. apply ikeeps_bind; [|intros ?; apply ikeeps_when; intros _];
      by apply handle_key_kept.
  - apply ikeeps_ret.
  - apply ikeeps_ret.
  - by apply keeps_harmless.
  - by apply lock_screen_kept.
  - apply fix_timeout_kept.
  - apply fix_timeout_kept.
  - unfold fix_key_down_timeout_at_exit, accounted. apply ikeeps_bind; [keep|]. intros b. apply ikeeps_when. intros _.
    apply ikeeps_bind; [keep|]. intros ?. apply fix_timeout_kept.
  - unfold release_device_modifiers, accounted. keep.
  - unfold clear_relative_mouse_active, set_relative_mouse_active, accounted. keep.
Qed.

Lemma step_safe env s w : good_step (env, s) → safe w → safe (input_step env s w).2.
Proof.
  intros Hg [Ha Hi]. split; [by apply step_kept|]. intros He.
  destruct (EXITING w) eqn:Ew; [apply idle_step; auto|].
  assert (s = IsExit ∨ s ≠ IsExit) as [->|Hs] by (destruct s; (by left) || (by right)).
  2: { pose proof (exit_step env s false Hs w Ew) as Hf. congruence. }
  cbn in *. unfold fix_key_down_timeout_at_exit, mbind, I_bind, iget in *. cbn in *. rewrite Ew in *. cbn in *.
  set (w1 := w <| EXITING := true |>) in *.
  assert (accounted w1) as H1 by (destruct Ha as [K1 K2]; by split).
  destruct (released_all env w1 H1) as [R1 R2]. split_and!; done.
Qed.

(** C24: no key stays down under X11.  Let the host run X11, and let the key events that
    come be of known keys (control keys by a number below that of the characters, 9999,
    characters as 32-bit numbers), and Ctrl+Alt+Del and LockScreen come without modifiers.
    Then in any interleaving of the input threads of the connections, the timers, the
    reset of the cursor service and the exit, each key held down for a peer is known to
    the host.  So the reset and the exit release all of them, the timeout those that are
    down for six minutes, and after the exit none is pressed again.  What becomes of the
    others is in [wayland_key_stays_down], [function_key_keeps_modifiers] and
    [unknown_number_hides_key]. *)
Theorem no_key_stays_down xs w :
  Forall good_step xs → safe w →
  let w' := input_run xs w in
  accounted w' ∧ (EXITING w' = true → held (i_log w') = ∅ ∧ held_raw (i_log w') = ∅)
  ∧ (∀ env, held (i_log (input_step env IsCursorReset w').2) = ∅
            ∧ held_raw (i_log (input_step env IsCursorReset w').2) = ∅)
  ∧ ∀ env k, k ∈ held (i_log (input_step env IsTimeout w').2) →
      ∃ r t, KEYS_DOWN w' !! EnigoKey r = Some t ∧ record_key_to_key r = Some k ∧ (ie_now env - t < 360000)%Z.
Proof.
  intros Hxs Hs. assert (safe (input_run xs w)) as Hw.
  { revert w Hs. induction Hxs as [|[env s] xs Hx _ IH]; intros w Hs; [done|]. apply IH. by apply step_safe. }
  clear Hs. destruct Hw as [Ha Hi]. split_and!; [done| |intros env; by apply released_all|].
  - intros He. by destruct (Hi He) as (? & ? & _).
  - intros env k Hk. destruct (fix_timeout_kept env false _ Ha) as [H1 _].
    destruct (H1 k Hk) as [(r & [t Ht] & Hr)|[]%not_elem_of_nil]. apply fix_timeout_table in Ht as [Ht Hy].
    exists r, t. split_and!; [done|done|]. unfold young in Hy. apply Z.ltb_lt. by destruct (_ <? _)%Z.
Qed.

(** ** Lock keys *)

(** What switches CapsLock; [raw]: the keycodes that do. *)
Definition toggles_caps (raw : Z → bool) (a : InputAct) : bool :=
  match a with
  | AKeyClick k | AKeyDown k true => bool_decide (k = Named "CapsLock")
  | ASimulate true c => raw c
  | _ => false
  end.

Definition caps_of (env : InputEnv) (l : list InputAct) : bool := ie_key_state env l (Named "CapsLock").
(** CapsLock is switched by being pressed and by nothing else. *)
Definition caps_law (raw : Z → bool) (env : InputEnv) : Prop :=
  ∀ a l, caps_of env (a :: l) = xorb (toggles_caps raw a) (caps_of env l).

(** The event is CapsLock itself. *)
Definition own_caps (raw : Z → bool) (e : KeyEvent) : bool :=
  raw (chr_of e) || match ke_union e with Some (ControlKey v) => (v =? ck_CapsLock)%Z | _ => false end.

Section Locks.
Context (raw : Z → bool) (env : InputEnv) (Hlaw : caps_law raw env) (Hx : ie_x11 env = true).

(** Since the log [l0], nothing switched CapsLock. *)
Definition since (l0 : list InputAct) (w : InputWorld) : Prop :=
  ∃ new, i_log w = new ++ l0 ∧ Forall (λ a, toggles_caps raw a = false) new.

Lemma since_caps l0 w : since l0 w → caps_of env (i_log w) = caps_of env l0.
Proof.
  intros (new & -> & Hn). induction Hn as [|a new Ha _ IH]; [done|]. cbn. by rewrite Hlaw, Ha, xorb_false_l.
Qed.

Lemma since_do l0 a : toggles_caps raw a = false → keeps (since l0) (do_ a).
Proof. intros Ha w (new & E & Hn). exists (a :: new). cbn. rewrite E. split; [done|by constructor]. Qed.
Lemma since_put l0 f : (∀ w, i_log (f w) = i_log w) → keeps (since l0) (iput f).
Proof. intros Hf w (new & E & Hn). exists new. cbn. by rewrite Hf. Qed.
Lemma since_up l0 k : keeps (since l0) (key_up k). Proof. by apply since_do. Qed.
Lemma since_seq l0 s : keeps (since l0) (key_sequence s). Proof. by apply since_do. Qed.
Lemma since_down l0 k : k ≠ Named "CapsLock" → keeps (since l0) (key_down env k).
Proof.
  intros Hk. unfold key_down. apply ikeeps_bind; [apply keeps_get|]. intros ok. apply ikeeps_bind; [|intros ?; apply ikeeps_ret].
  apply since_do. destruct ok; cbn; [by apply bool_decide_eq_false|done].
Qed.
Hint Resolve since_up since_seq : input.
Hint Extern 1 (keeps (since _) (do_ _)) => apply since_do; reflexivity : input.
Hint Extern 1 (keeps (since _) (iput _)) => apply since_put; by intros : input.

Lemma since_press l0 mods tr :
  (has_modifier mods ck_CapsLock = true → caps_of env l0 = true) → keeps (since l0) (press_modifiers env mods tr).
Proof.
  revert tr. induction mods as [|v mods IH]; intros tr Hc; cbn [press_modifiers]; [apply ikeeps_ret|].
  assert (∀ tr, keeps (since l0) (press_modifiers env mods tr)) as IH'.
  { intros tr'. apply IH. intros H. apply Hc. unfold has_modifier in *. cbn. by rewrite H, orb_true_r. }
  destruct (control_key_value_to_key v) as [key|] eqn:Ek; [|apply IH'].
  destruct (decide (key = Named "CapsLock")) as [->|Hk].
  - intros w Hw. pose proof (since_caps l0 w Hw) as Hcw. rewrite Hc in Hcw.
    2: { unfold has_modifier. cbn. assert (v = ck_CapsLock) as ->; [|done]. unfold control_key_value_to_key in Ek.
         destruct (List.find _ KEY_MAP) as [kv|] eqn:E; [|done]. apply List.find_some in E as [Hin Hv%Z.eqb_eq].
         subst v. cbn in Ek. injection Ek as Ek. revert Hin Ek. clear. cbn. intros Hin.
         repeat (destruct Hin as [<-|Hin]; [cbn; intros Ek; done|]). done. }
    unfold is_pressed, get_modifier_state, get_key_state, iget, mbind, I_bind. cbn. unfold caps_of in Hcw. rewrite Hcw.
    by apply IH'.
  - unfold is_pressed, is_altgr_pressed. keep; try apply IH'. by apply since_down.
Qed.

Lemma since_chr l0 c down : keeps (since l0) (process_chr env c down).
Proof.
  unfold process_chr, wayland_use_uinput. rewrite Hx. cbn [negb andb]. unfold process_chr_key, need_to_uppercase.
  destruct down; [|keep]. apply ikeeps_bind; [by apply since_down|]. keep.
Qed.

Lemma since_shift l0 : keeps (since l0) (release_shift_for_char_input env).
Proof. unfold release_shift_for_char_input, release_shift. keep. Qed.

Lemma since_sync l0 e :
  (has_modifier (ke_modifiers e) ck_CapsLock = true → caps_of env l0 = true) → keeps (since l0) (sync_modifiers env e).
Proof.
  intros Hc. unfold sync_modifiers, release_unpressed_modifiers, fix_modifiers, fix_modifier. keep. by apply since_press.
Qed.

Lemma since_mode l0 e :
  own_caps raw e = false → (has_modifier (ke_modifiers e) ck_CapsLock = true → caps_of env l0 = true) →
  keeps (since l0) (keyboard_mode env e).
Proof.
  intros Ho Hc. pose proof (since_sync l0 e Hc) as Hs. pose proof (since_shift l0) as Hsh.
  assert (∀ tr, keeps (since l0) (release_keys tr)) as Hr by (intros tr; unfold release_keys; keep).
  assert (keeps (since l0) (legacy_keyboard_mode env e)) as Hl.
  { unfold legacy_keyboard_mode. apply ikeeps_bind; [done|]. intros tr.
    unfold process_unicode, process_seq, wayland_use_uinput, is_function_key, record_pressed_key. rewrite Hx. cbn [negb andb].
    destruct (ke_union e) as [[v|c|c|s|c]|] eqn:Eu; [|keep..]; [|apply since_chr].
    assert (keeps (since l0) (process_control_key env v (ke_down e))) as Hp; [|keep].
    unfold process_control_key. destruct (control_key_value_to_key v) as [key|] eqn:Ek; [|keep].
    destruct (ke_down e); [|keep]. apply ikeeps_bind; [apply since_down|keep]. intros ->.
    unfold own_caps in Ho. rewrite Eu in Ho. apply orb_false_elim in Ho as [_ Ho]. unfold control_key_value_to_key in Ek.
    destruct (List.find _ KEY_MAP) as [kv|] eqn:E; [|done]. apply List.find_some in E as [Hin Hv%Z.eqb_eq].
    subst v. cbn in Ek. injection Ek as Ek. revert Hin Ek Ho. clear. cbn. intros Hin.
    repeat (destruct Hin as [<-|Hin]; [cbn; intros Ek; done|]). done. }
  assert (keeps (since l0) (raw_key env (chr_of e) (ke_down e))) as Hk.
  { unfold raw_key. rewrite Hx. unfold sim_rdev_rawkey_position, record_pressed_key. apply ikeeps_bind; [keep|]. intros ?.
    apply since_do. cbn. apply orb_false_elim in Ho as [Ho _]. by destruct (ke_down e). }
  unfold keyboard_mode, map_keyboard_mode, translate_keyboard_mode, translate_seq. rewrite Hx. cbn [negb].
  destruct (ke_mode e) as [[]|]; [exact Hl|exact Hk| |exact Hl|exact Hl].
  destruct (ke_union e) as [[v|c|c|s|c]|]; [keep|exact Hk|keep| |keep|keep].
  keep. apply since_do. cbn. by apply bool_decide_eq_false.
Qed.

Lemma mode_caps e w :
  own_caps raw e = false → caps_of env (i_log w) = has_modifier (ke_modifiers e) ck_CapsLock →
  ∃ typed, i_log (keyboard_mode env e w).2 = typed ++ i_log w ∧ Forall (λ a, toggles_caps raw a = false) typed.
Proof.
  intros Ho Hc. apply (since_mode (i_log w) e Ho); [by rewrite Hc|]. by exists [].
Qed.

Lemma quiet_caps pre l :
  Forall (λ a, toggles_caps raw a = false) pre → caps_of env (pre ++ l) = caps_of env l.
Proof. intros H. apply (since_caps l (mkInput (pre ++ l) ∅ (mkInputPos 0 0 0 0) ∅ false)). by exists pre. Qed.
End Locks.

(** Switching a lock key. *)
Definition is_lock_click (a : InputAct) : Prop := a = AKeyClick (Named "CapsLock") ∨ a = AKeyClick (Named "NumLock").

Definition differs (env : InputEnv) (e : KeyEvent) (ck : Z) (name : string) (l : list InputAct) : bool :=
  negb (Bool.eqb (has_modifier (ke_modifiers e) ck) (ie_key_state env l (Named name))).
Definition clicks (b : bool) (name : string) : list InputAct := if b then [AKeyClick (Named name)] else [].

Lemma locks_new_eq env e numpad w :
  let c := differs env e ck_CapsLock "CapsLock" (i_log w) in
  let l1 := clicks c "CapsLock" ++ i_log w in
  let n := numpad && differs env e ck_NumLock "NumLock" l1 in
  locks_new env e numpad w = (mkLocks c n, w <| i_log := clicks n "NumLock" ++ l1 |>).
Proof.
  cbv zeta. unfold locks_new, get_key_state, iget, mbind, I_bind, differs. destruct w as [l k p r x]. cbn [i_log].
  destruct (negb (Bool.eqb (has_modifier (ke_modifiers e) ck_CapsLock) (ie_key_state env l (Named "CapsLock"))));
    destruct numpad; cbn; try (destruct (negb (Bool.eqb _ _)); cbn); reflexivity.
Qed.

Lemma locks_drop_eq env c n w :
  ie_x11 env = true →
  i_log (locks_drop env (mkLocks c n) w).2 = clicks n "NumLock" ++ clicks c "CapsLock" ++ i_log w.
Proof. intros Hx. unfold locks_drop, wayland_use_uinput. rewrite Hx. by destruct c, n. Qed.

(** C32: under X11 keys are typed under the peer's CapsLock, and the host's is put back.
    For an event that follows the lock keys and is not CapsLock itself, on a host that is
    not exiting, everything the keyboard mode simulates is simulated while CapsLock is as
    the peer has it; before and after it only lock keys are clicked, and at the end
    CapsLock is as it was.  CapsLock changes with the clicks and presses that stand for
    it, and with nothing else.  (Under Wayland the host's is not put back.) *)
Theorem typed_under_peer_caps raw env e numpad w :
  caps_law raw env → ie_x11 env = true → EXITING w = false → lock_mode_of env e = Some numpad → own_caps raw e = false →
  ∃ before typed after,
    i_log (handle_key env e w).2 = after ++ typed ++ before ++ i_log w
    ∧ i_log (keyboard_mode env e (w <| i_log := before ++ i_log w |>)).2 = typed ++ before ++ i_log w
    ∧ (∀ pre, suffix pre typed → caps_of env (pre ++ before ++ i_log w) = has_modifier (ke_modifiers e) ck_CapsLock)
    ∧ caps_of env (i_log (handle_key env e w).2) = caps_of env (i_log w)
    ∧ Forall is_lock_click before ∧ Forall is_lock_click after.
Proof.
  intros Hlaw Hx He Hm Ho. set (v := has_modifier (ke_modifiers e) ck_CapsLock).
  set (c := differs env e ck_CapsLock "CapsLock" (i_log w)). set (l1 := clicks c "CapsLock").
  set (n := numpad && differs env e ck_NumLock "NumLock" (l1 ++ i_log w)). set (l2 := clicks n "NumLock").
  set (w1 := w <| i_log := l2 ++ l1 ++ i_log w |>).
  assert (∀ b, Forall (λ a, toggles_caps raw a = false) (clicks b "NumLock")) as Hnum by (intros []; repeat constructor).
  assert (∀ x, x = v → caps_of env (clicks c "CapsLock" ++ i_log w) = x) as Hflip.
  { intros x ->. unfold c, differs. fold v. fold (caps_of env (i_log w)).
    destruct v, (caps_of env (i_log w)) eqn:Ec; cbn; rewrite ?Hlaw, Ec; done. }
  assert (caps_of env (i_log w1) = v) as Hv.
  { unfold w1. cbn. rewrite (quiet_caps raw env Hlaw) by apply Hnum. by apply Hflip. }
  destruct (mode_caps raw env Hlaw Hx e w1 Ho Hv) as (typed & Ht & Hq).
  assert (i_log (handle_key env e w).2 = (clicks n "NumLock" ++ clicks c "CapsLock") ++ typed ++ (l2 ++ l1) ++ i_log w) as Hl.
  { unfold handle_key. rewrite ibind. cbn [iget fst snd]. rewrite He, Hm, !ibind.
    rewrite (locks_new_eq env e numpad w). fold c l1 n l2 w1. cbn [mret I_ret fst snd].
    rewrite locks_drop_eq by done. rewrite Ht. unfold w1. cbn. by rewrite <- !app_assoc. }
  exists (l2 ++ l1), typed, (clicks n "NumLock" ++ clicks c "CapsLock"). split_and!.
  - exact Hl.
  - rewrite <- app_assoc. exact Ht.
  - intros pre [d Hd]. rewrite <- app_assoc, (quiet_caps raw env Hlaw); [exact Hv|]. rewrite Hd in Hq. by apply Forall_app in Hq as [_ Hq].
  - rewrite Hl, <- !app_assoc, (quiet_caps raw env Hlaw) by apply Hnum.
    assert (caps_of env (typed ++ l2 ++ l1 ++ i_log w) = v) as Hv2 by by rewrite (quiet_caps raw env Hlaw).
    unfold c, differs. fold v. fold (caps_of env (i_log w)).
    destruct v, (caps_of env (i_log w)) eqn:Ec; cbn; rewrite ?Hlaw, Hv2; done.
  - unfold l2, l1, clicks. destruct n, c; repeat (constructor; [by (left + right)|]); constructor.
  - unfold clicks. destruct n, c; repeat (constructor; [by (left + right)|]); constructor.
Qed.

(** ** Examples *)

Module DemoInput.
Local Open Scope Z_scope.
Definition switched (name : string) (l : list InputAct) : bool :=
  foldr (λ a b, xorb (match a with AKeyClick k | AKeyDown k true => bool_decide (k = Named name) | _ => false end) b) false l.
Definition state (l : list InputAct) (k : Key) : bool :=
  if bool_decide (k = Named "CapsLock") then switched "CapsLock" l
  else if bool_decide (k = Named "NumLock") then switched "NumLock" l
  else bool_decide (k ∈ held l).
Definition env (x11 : bool) : InputEnv := {|
  ie_now := 0; ie_x11 := x11; ie_is_server := true; ie_key_state := state; ie_key_down_ok := λ _ _, true;
  ie_clipboard_ok := λ _, true; ie_to_uppercase := λ s, s; ie_cursor_pos := None; ie_rdev_key := λ _, "KeyA"%string |}.
Definition later (t : Z) : InputEnv := {|
  ie_now := t; ie_x11 := true; ie_is_server := true; ie_key_state := state; ie_key_down_ok := λ _ _, true;
  ie_clipboard_ok := λ _, true; ie_to_uppercase := λ s, s; ie_cursor_pos := None; ie_rdev_key := λ _, "KeyA"%string |}.
Definition key (down : bool) (u : KeyUnion) (mods : list Z) (mode : KeyboardMode) : KeyEvent :=
  {| ke_down := down; ke_press := false; ke_union := Some u; ke_modifiers := mods; ke_mode := Some mode |}.
Definition down (u : KeyUnion) (mods : list Z) (mode : KeyboardMode) : InputStep := IsInput (InKey (key true u mods mode) false).
Definition click (u : KeyUnion) (mods : list Z) (mode : KeyboardMode) : InputStep := IsInput (InKey (key true u mods mode) true).
Definition run (x11 : bool) (steps : list InputStep) : InputWorld := input_run (map (pair (env x11)) steps) input_new.
(** Ctrl held down, "c" typed with it, Shift held down by its keycode. *)
Definition typing : list InputStep :=
  [down (ControlKey 4) [] Legacy; click (Chr 99) [4] Legacy; down (Chr 50) [] Map].
End DemoInput.

Lemma demo_caps_law : caps_law (λ _, false) (DemoInput.env true).
Proof. intros a l. unfold caps_of. cbn. by destruct a as [k []|k|k| |[] c| | | | | | | | | | |]. Qed.

(** ** What goes wrong *)

(** The key for the lock screen returns before the modifiers pressed for it are
    released; they are not in the table, so they stay down. *)
Lemma function_key_keeps_modifiers :
  let w := DemoInput.run true [DemoInput.click (ControlKey ck_LockScreen) [ck_Control] Legacy; IsCursorReset] in
  Named "Control" ∈ held (i_log w).
Proof. apply (bool_decide_unpack _). by vm_compute. Qed.

(** On Wayland the keys of the map mode are not in the table: Shift held down when the
    peer is lost stays down. *)
Lemma wayland_key_stays_down :
  let w := DemoInput.run false [DemoInput.down (Chr 50) [] Map; IsCursorReset] in Raw 50 ∈ held (i_log w).
Proof. apply (bool_decide_unpack _). by vm_compute. Qed.

(** On Wayland with uinput, Ctrl and a character sent as one click: the character is
    pressed as a key while Ctrl is down, but Ctrl is up again when it should be
    released, so it takes the way through the clipboard and stays down, unrecorded. *)
Lemma hotkey_stays_down :
  let w := DemoInput.run false [DemoInput.click (Chr 99) [ck_Control] Legacy; IsCursorReset] in
  Layout 99 ∈ held (i_log w).
Proof. apply (bool_decide_unpack _). by vm_compute. Qed.

(** AltGr is looked for under the protocol's number of the key, 75, which is no keycode
    of X but that of another key: with that key down, Alt is not pressed for an event
    that has it; with AltGr down (keycode 108), it is. *)
Lemma altgr_mistaken :
  let alt_pressed code :=
    existsb (λ a, bool_decide (a = Named "Alt"))
      (press_modifiers (DemoInput.env true) [ck_Alt] [] (DemoInput.run true [DemoInput.down (Chr code) [] Map])).1 in
  alt_pressed ck_RAlt = false ∧ alt_pressed 108%Z = true.
Proof. by vm_compute. Qed.

(** Minus on the numeric pad in the legacy mode, with the peer's NumLock: it is not
    among the keys for which NumLock is switched and put back, so it is pressed as a
    modifier, and the host's stays on. *)
Lemma numlock_left_on :
  let w := DemoInput.run true [DemoInput.click (ControlKey 68) [ck_NumLock] Legacy] in
  DemoInput.state [] (Named "NumLock") = false ∧ DemoInput.state (i_log w) (Named "NumLock") = true.
Proof. by vm_compute. Qed.

(** A control key of an unknown number takes a character out of the table that is still
    down. *)
Lemma unknown_number_hides_key :
  let w := DemoInput.run true [DemoInput.down (Chr 97) [] Legacy;
             IsInput (InKey (DemoInput.key false (ControlKey (KEY_CHAR_START + 97)) [] Legacy) false); IsCursorReset] in
  Layout 97 ∈ held (i_log w).
Proof. apply (bool_decide_unpack _). by vm_compute. Qed.

(** ** Witnesses *)

Lemma no_key_stays_down_witness :
  let w := DemoInput.run true DemoInput.typing in
  Named "Control" ∈ held (i_log w) ∧ (50 ∈ held_raw (i_log w))%Z
  ∧ held (i_log (input_step (DemoInput.env true) IsCursorReset w).2) = ∅.
Proof.
  split_and!; [apply (bool_decide_unpack _); by vm_compute|apply (bool_decide_unpack _); by vm_compute|].
  refine (proj1 (proj1 (proj2 (proj2 (no_key_stays_down (map (pair (DemoInput.env true)) DemoInput.typing) input_new _ _))) _)).
  - repeat (constructor; [split; [done|cbn; split; [unfold event_typed, uint, KEY_CHAR_START; cbn; lia|reflexivity]]|]). constructor.
  - split; [split; [intros k Hk; by apply not_elem_of_empty in Hk|intros c Hc; by apply not_elem_of_empty in Hc]|done].
Defined.

Lemma typed_under_peer_caps_witness :
  ∃ before typed after,
    i_log (handle_key (DemoInput.env true) (DemoInput.key true (Chr 97) [ck_CapsLock] Legacy) input_new).2
      = after ++ typed ++ before ++ []
    ∧ ∀ pre, suffix pre typed → caps_of (DemoInput.env true) (pre ++ before ++ []) = true.
Proof.
  destruct (typed_under_peer_caps (λ _, false) (DemoInput.env true) (DemoInput.key true (Chr 97) [ck_CapsLock] Legacy) false input_new)
    as (before & typed & after & H1 & _ & H2 & _); [exact demo_caps_law|reflexivity..|].
  exists before, typed, after. split; [exact H1|exact H2].
Defined.
