(* ===== verification/Cursor.v ===== *)
(** * What the host tells of its cursor

    [src/server/input_service.rs]: the services of the cursor's image, its position
    and the focused display, with the part of [src/server/service.rs] that runs them
    ([repeat], [snapshot]) and the subscribers of the image ([MouseCursorSub]), which
    send an image once and then its number.

    The loop of the image's service is split where it lets go of the lock: the poll,
    the sending of the snapshot to the new subscribers, and their move to the others,
    so that a connection may subscribe between any two of them.  A message is sent to
    a connection's id; compression and the answers of the display server are
    arguments. *)

From S2P Require Import Prelude Strs Services Input.
From Stdlib Require Import Ascii String.

Local Open Scope string_scope.
#[local] Abbreviation length := Datatypes.length.
#[local] Arguments String.append _ _ : simpl nomatch.

(** ** The image *)

Record CursorData := mkCursor { cd_id : Z; cd_hot : Z * Z; cd_size : Z * Z; cd_colors : list Z }.
(** [CmNone]: a message without a union. *)
Inductive CursorMsg := CmData (cd : CursorData) | CmId (id : Z) | CmNone.

(** [MouseCursorSub]: the ids in [cached]. *)
Definition MouseCursorSub : Type := gset Z.

(** [send]: what goes to the connection, and the subscriber. *)
Definition sub_send (msg : CursorMsg) (cached : MouseCursorSub) : CursorMsg * MouseCursorSub :=
  match msg with
  | CmData cd => if bool_decide (cd_id cd ∈ cached) then (CmId (cd_id cd), cached) else (msg, {[cd_id cd]} ∪ cached)
  | _ => (msg, cached)
  end.

Record StateCursor := mkStateCursor { hcursor : Z; cursor_data : CursorMsg; cached_cursor_data : gmap Z CursorMsg }.
#[global] Instance eta_StateCursor : Settable StateCursor := λ s,
  mkStateCursor (hcursor s) (cursor_data s) (cached_cursor_data s).
Definition state_cursor_default : StateCursor := mkStateCursor 0 CmNone ∅.

(** Where the loop of the service is. *)
Inductive LoopAt := AtTurn | AtSnapshot | AtSwap.

Record CursorService := mkCursorService {
  c_subscribes : gmap Z MouseCursorSub;
  c_new_subscribes : gmap Z MouseCursorSub;
  c_state : StateCursor;
  c_may_reset : bool;
  c_at : LoopAt;
  c_sent : list (Z * CursorMsg)                 (* in the order it was sent *)
}.
#[global] Instance eta_CursorService : Settable CursorService := λ s,
  mkCursorService (c_subscribes s) (c_new_subscribes s) (c_state s) (c_may_reset s) (c_at s) (c_sent s).
Definition cursor_service_new : CursorService := mkCursorService ∅ ∅ state_cursor_default false AtTurn [].

Section Cursor.
Variable compress : list Z → list Z.

Definition c_on_subscribe (id : Z) (s : CursorService) : CursorService :=
  match c_subscribes s !! id with
  | Some _ => s
  | None => s <| c_new_subscribes := <[id := ∅]> (c_new_subscribes s) |>
  end.
Definition c_on_unsubscribe (id : Z) (s : CursorService) : CursorService :=
  match c_subscribes s !! id with
  | Some _ => s <| c_subscribes := delete id (c_subscribes s) |>
  | None => s <| c_new_subscribes := delete id (c_new_subscribes s) |>
  end.
Definition c_has_subscribes (s : CursorService) : bool :=
  negb (bool_decide (c_subscribes s = ∅)) || negb (bool_decide (c_new_subscribes s = ∅)).

(** Sending to all of them: what goes out, and they afterwards. *)
Definition send_all (msg : CursorMsg) (subs : gmap Z MouseCursorSub) : list (Z * CursorMsg) * gmap Z MouseCursorSub :=
  (map (λ kv, (kv.1, (sub_send msg kv.2).1)) (map_to_list subs), (λ c, (sub_send msg c).2) <$> subs).

Definition c_send_shared (msg : CursorMsg) (s : CursorService) : CursorService :=
  let '(out, subs) := send_all msg (c_subscribes s) in
  s <| c_subscribes := subs |> <| c_sent := (c_sent s ++ out)%list |>.
Definition c_send_new_subscribes (msg : CursorMsg) (s : CursorService) : CursorService :=
  let '(out, subs) := send_all msg (c_new_subscribes s) in
  s <| c_new_subscribes := subs |> <| c_sent := (c_sent s ++ out)%list |>.
Definition c_swap_new_subscribes (s : CursorService) : CursorService :=
  s <| c_subscribes := c_new_subscribes s ∪ c_subscribes s |> <| c_new_subscribes := ∅ |>.

(** [run_cursor] up to the snapshot; [get_cursor] and [get_cursor_data] are what the
    display server answers. *)
Definition run_cursor (get_cursor : result string (option Z)) (get_cursor_data : Z → result string CursorData)
    (s : CursorService) : result string unit * CursorService :=
  match get_cursor with
  | Err e => (Err e, s)
  | Ok None => (Ok tt, s)
  | Ok (Some h) =>
      if (h =? hcursor (c_state s))%Z then (Ok tt, s) else
      match cached_cursor_data (c_state s) !! h with
      | Some msg =>
          let s := s <| c_state := c_state s <| hcursor := h |> |> in
          let s := c_send_shared msg s in
          (Ok tt, s <| c_state := c_state s <| cursor_data := msg |> |>)
      | None =>
          match get_cursor_data h with
          | Err e => (Err e, s)
          | Ok data =>
              let msg := CmData (mkCursor (cd_id data) (cd_hot data) (cd_size data) (compress (cd_colors data))) in
              let s := s <| c_state := c_state s
                                <| cached_cursor_data := <[h := msg]> (cached_cursor_data (c_state s)) |>
                                <| hcursor := h |> |> in
              let s := c_send_shared msg s in
              (Ok tt, s <| c_state := c_state s <| cursor_data := msg |> |>)
          end
      end
  end.

Inductive CursorStep :=
| CsSubscribe (id : Z)
| CsUnsubscribe (id : Z)
| CsTurn (get_cursor : result string (option Z)) (get_cursor_data : Z → result string CursorData)
| CsSnapshot
| CsSwap.

(** A turn of [repeat], with [reset] when nobody listens any more (it also resets the
    keys held down: [Input.IsCursorReset]); [snapshot] and the end of [ServiceSwap]. *)
Definition cursor_step (x : CursorStep) (s : CursorService) : CursorService :=
  match x, c_at s with
  | CsSubscribe id, _ => c_on_subscribe id s
  | CsUnsubscribe id, _ => c_on_unsubscribe id s
  | CsTurn g d, AtTurn =>
      if c_has_subscribes s then
        let s := s <| c_may_reset := true |> in
        match run_cursor g d s with
        | (Ok _, s) => s <| c_at := AtSnapshot |>
        | (Err _, s) => s
        end
      else if c_may_reset s then s <| c_state := state_cursor_default |> <| c_may_reset := false |>
      else s
  | CsSnapshot, AtSnapshot =>
      if bool_decide (c_new_subscribes s = ∅) then s <| c_at := AtTurn |>
      else c_send_new_subscribes (cursor_data (c_state s)) s <| c_at := AtSwap |>
  | CsSwap, AtSwap => c_swap_new_subscribes s <| c_at := AtTurn |>
  | _, _ => s
  end.

Definition cursor_run (xs : list CursorStep) (s : CursorService) : CursorService := foldl (λ s x, cursor_step x s) s xs.
End Cursor.

(** ** The position *)

Definition INVALID_CURSOR_POS : Z := -2147483648.

(** [LATEST_SYS_CURSOR_POS]: when the cursor was last seen at a new place. *)
Definition update_last_cursor_pos (now x y : Z) (p : option Z * (Z * Z)) : option Z * (Z * Z) :=
  if bool_decide (p.2 = (x, y)) then p else (Some now, (x, y)).

Definition pos_is_valid (p : Z * Z) : bool := negb (p.1 =? INVALID_CURSOR_POS)%Z.
Definition is_moved (x y : Z) (p : Z * Z) : bool := pos_is_valid p && (negb (p.1 =? x)%Z || negb (p.2 =? y)%Z).

(** A turn of [run_pos]: the position sent, with the connection that does not get it,
    and the state. *)
Definition run_pos (now : Z) (sys : Z * Z) (peer : Input) (state : Z * Z) : option (Z * Z * Z) * (Z * Z) :=
  let '(x, y) := sys in
  if ((x =? INVALID_CURSOR_POS) || (y =? INVALID_CURSOR_POS))%Z then (None, state) else
  let exclude := if (now - in_time peer <? 300)%Z then in_conn peer else 0%Z in
  (if is_moved x y state then Some (x, y, exclude) else None, (x, y)).

(** Who gets it. *)
Definition pos_receivers (exclude : Z) (s : ServiceInner) : gset Z := send_without exclude s.

(** ** The focused display *)

Definition INVALID_DISPLAY_IDX : Z := -1.
Definition is_changed (disp_idx : Z) (state : Z) : bool :=
  negb (state =? INVALID_DISPLAY_IDX)%Z && negb (state =? disp_idx)%Z.

(** A turn of [run_window_focus]: the display to follow, and the state. *)
Definition run_window_focus (displays : nat) (focused : option Z) (state : Z) : option Z * Z :=
  if (displays <=? 1)%nat then (None, state) else
  match focused with
  | Some idx => (if is_changed idx state then Some idx else None, idx)
  | None => (None, state)
  end.
