(* ===== verification/CursorSafety.v ===== *)
(** * Theorems on the cursor

    Every connection that listens shows the host's cursor, though each image is sent
    to it only once; the position is not echoed to the peer that moved the cursor
    ([Cursor]). *)

From S2P Require Import Prelude Strs Services Input Cursor.

Local Open Scope list_scope.
#[local] Abbreviation length := Datatypes.length.

(** ** A client *)

(** What a client does with the messages: it keeps every image under its number. *)
Record Viewer := mkViewer { v_cache : gmap Z CursorData; v_shown : option CursorData }.
Definition view (v : Viewer) (m : CursorMsg) : Viewer :=
  match m with
  | CmData cd => mkViewer (<[cd_id cd := cd]> (v_cache v)) (Some cd)
  | CmId i => mkViewer (v_cache v) (v_cache v !! i)
  | CmNone => v
  end.
Definition for_id (id : Z) (sent : list (Z * CursorMsg)) : list CursorMsg :=
  (λ x, x.2) <$> filter (λ x, x.1 = id) sent.
Definition viewer (id : Z) (sent : list (Z * CursorMsg)) : Viewer := foldl view (mkViewer ∅ None) (for_id id sent).

#[local] Arguments for_id : simpl never.
#[local] Arguments viewer : simpl never.

Lemma for_id_app id a b : for_id id (a ++ b) = for_id id a ++ for_id id b.
Proof. unfold for_id. by rewrite filter_app, fmap_app. Qed.

Lemma viewer_app id a b : viewer id (a ++ b) = foldl view (viewer id a) (for_id id b).
Proof. unfold viewer. by rewrite for_id_app, foldl_app. Qed.

Lemma for_id_cons id k m l : for_id id ((k, m) :: l) = (if decide (k = id) then [m] else []) ++ for_id id l.
Proof. unfold for_id. rewrite filter_cons. cbn. by destruct (decide (k = id)). Qed.

Lemma for_id_map id (g : MouseCursorSub → CursorMsg) (l : list (Z * MouseCursorSub)) :
  NoDup l.*1 →
  (∀ c, (id, c) ∈ l → for_id id (map (λ kv, (kv.1, g kv.2)) l) = [g c])
  ∧ (id ∉ l.*1 → for_id id (map (λ kv, (kv.1, g kv.2)) l) = []).
Proof.
  induction l as [|[k c] l IH]; [intros _; split; [by intros ? ?%not_elem_of_nil|done]|]. rewrite fmap_cons.
  intros [Hk Hn]%NoDup_cons. destruct (IH Hn) as [IH1 IH2]. cbn [map fst snd]. rewrite for_id_cons. split.
  - intros c' [[= <- <-]|Hin]%elem_of_cons.
    + rewrite decide_True by done. by rewrite (IH2 Hk).
    + rewrite decide_False; [by apply IH1|]. intros ->. apply Hk. apply list_elem_of_fmap. by exists (id, c').
  - intros Hni. rewrite decide_False; [apply IH2|]; set_solver.
Qed.

(** Sending to all sends to each of them once. *)
Lemma send_all_for id msg subs :
  for_id id (send_all msg subs).1 = match subs !! id with Some c => [(sub_send msg c).1] | None => [] end.
Proof.
  cbn. destruct (for_id_map id (λ c, (sub_send msg c).1) (map_to_list subs)) as [H1 H2]; [apply NoDup_fst_map_to_list|].
  destruct (subs !! id) as [c|] eqn:E; [apply H1; by apply elem_of_map_to_list|].
  apply H2. intros ([k c] & Hk & Hin)%list_elem_of_fmap. cbn in Hk. subst k. apply elem_of_map_to_list in Hin. congruence.
Qed.

(** ** The invariant *)

Section Cursor.
Context (compress : list Z → list Z).

Definition shows (s : CursorService) (id : Z) : Prop :=
  ∀ cd, cursor_data (c_state s) = CmData cd → v_shown (viewer id (c_sent s)) = Some cd.

(** A subscriber of [id] that sent these images. *)
Definition knows (s : CursorService) (id : Z) (cached : MouseCursorSub) : Prop :=
  ∀ x, x ∈ cached → ∃ cd, cached_cursor_data (c_state s) !! x = Some (CmData cd) ∧ v_cache (viewer id (c_sent s)) !! x = Some cd.

Definition good_state (st : StateCursor) : Prop :=
  (∀ h m, cached_cursor_data st !! h = Some m → ∃ cd, m = CmData cd ∧ cd_id cd = h)
  ∧ (∀ cd, cursor_data st = CmData cd → cached_cursor_data st !! cd_id cd = Some (CmData cd))
  ∧ (∀ i, cursor_data st ≠ CmId i)
  ∧ (hcursor st = 0%Z ∨ ∃ cd, cursor_data st = CmData cd ∧ cd_id cd = hcursor st).

Record cursor_ok (s : CursorService) : Prop := {
  ck_state : good_state (c_state s);
  ck_disjoint : c_subscribes s ##ₘ c_new_subscribes s;
  ck_subs : ∀ id c, c_subscribes s !! id = Some c → knows s id c ∧ shows s id;
  ck_news : ∀ id c, c_new_subscribes s !! id = Some c → knows s id c ∧ (c_at s = AtSwap → shows s id)
}.

Lemma sub_send_views s id c msg cd :
  msg = CmData cd → cached_cursor_data (c_state s) !! cd_id cd = Some (CmData cd) → knows s id c →
  let v := view (viewer id (c_sent s)) (sub_send msg c).1 in
  v_shown v = Some cd
  ∧ ∀ x, x ∈ (sub_send msg c).2 → ∃ cd', cached_cursor_data (c_state s) !! x = Some (CmData cd') ∧ v_cache v !! x = Some cd'.
Proof.
  intros -> Hc Hk. cbn. case_bool_decide as Hin; cbn.
  - destruct (Hk _ Hin) as (cd' & H1 & H2). rewrite Hc in H1. injection H1 as <-. split; [done|]. intros x Hx. by apply Hk.
  - split; [done|]. intros x [->%elem_of_singleton|Hx]%elem_of_union; [exists cd; by rewrite lookup_insert_eq|].
    destruct (Hk x Hx) as (cd' & H1 & H2). exists cd'. split; [done|].
    rewrite lookup_insert_ne; [done|]. intros <-. done.
Qed.

(** Nothing sent to [id], nothing changes for it. *)
Lemma knows_sent s s' id c :
  for_id id (c_sent s') = for_id id (c_sent s) →
  (∀ x m, cached_cursor_data (c_state s) !! x = Some m → cached_cursor_data (c_state s') !! x = Some m) →
  knows s id c → knows s' id c.
Proof.
  intros Hs Hc Hk x Hx. destruct (Hk x Hx) as (cd & H1 & H2). exists cd. split; [by apply Hc|]. unfold viewer in *. by rewrite Hs.
Qed.

Definition law (x : CursorStep) : Prop :=
  match x with CsTurn _ d => ∀ h cd, d h = Ok cd → cd_id cd = h | _ => True end.

(** Subscribing does not fall between the snapshot and the move. *)
Definition unhurried_step (x : CursorStep) (s : CursorService) : bool :=
  match x, c_at s with CsSubscribe _, AtSwap => false | _, _ => true end.

Lemma send_subs_ok msg cd s s1 :
  (∀ h m, cached_cursor_data (c_state s) !! h = Some m → ∃ cd, m = CmData cd ∧ cd_id cd = h) → c_subscribes s ##ₘ c_new_subscribes s → c_at s = AtTurn →
  (∀ id c, c_subscribes s !! id = Some c → knows s id c) → (∀ id c, c_new_subscribes s !! id = Some c → knows s id c) →
  msg = CmData cd → cached_cursor_data (c_state s) !! cd_id cd = Some msg → hcursor (c_state s) = cd_id cd →
  s1 = c_send_shared msg s <| c_state := c_state s <| cursor_data := msg |> |> → cursor_ok s1.
Proof.
  intros Hg Hd Hat Hs Hn Hm Hc Hh ->. subst msg.
  assert (∀ id, for_id id (c_sent (c_send_shared (CmData cd) s)) = for_id id (c_sent s)
    ++ match c_subscribes s !! id with Some c => [(sub_send (CmData cd) c).1] | None => [] end) as Hf.
  { intros id. unfold c_send_shared. pose proof (send_all_for id (CmData cd) (c_subscribes s)) as Ha.
    destruct (send_all _ _) as [out subs]. cbn in *. by rewrite for_id_app, Ha. }
  split; unfold c_send_shared in *; cbn in *.
  - split_and!; cbn; [done| |done|].
    + intros cd' [= <-]. done.
    + right. by exists cd.
  - intros id. specialize (Hd id). rewrite lookup_fmap. by destruct (c_subscribes s !! id), (c_new_subscribes s !! id).
  - intros id c'. rewrite lookup_fmap. destruct (c_subscribes s !! id) as [c|] eqn:Ec; [|done]. intros [= <-].
    destruct (sub_send_views s id c (CmData cd) cd eq_refl Hc (Hs id c Ec)) as [V1 V2]. specialize (Hf id). rewrite Ec in Hf. split.
    + intros x Hx. cbn in *. destruct (V2 x Hx) as (cd' & K1 & K2). exists cd'. split; [done|].
      unfold viewer in *. by rewrite Hf, foldl_app.
    + intros cd' [= <-]. cbn. unfold viewer in *. rewrite Hf, foldl_app. exact V1.
  - intros id c' Hc'. split; [|by rewrite Hat]. eapply (knows_sent s); [|done|by apply Hn]. cbn. rewrite Hf.
    specialize (Hd id). rewrite Hc' in Hd. destruct (c_subscribes s !! id); [done|by rewrite app_nil_r].
Qed.

Lemma subscribe_ok id s : c_at s ≠ AtSwap → cursor_ok s → cursor_ok (c_on_subscribe id s).
Proof.
  intros Hat [H1 H2 H3 H4]. unfold c_on_subscribe. destruct (c_subscribes s !! id) as [c|] eqn:E; [by split|].
  split; cbn; [done| |done|].
  - by apply map_disjoint_insert_r.
  - intros k c. destruct (decide (k = id)) as [->|]; [|rewrite lookup_insert_ne by done; by apply H4].
    rewrite lookup_insert_eq. intros [= <-]. split; [|done]. by intros x Hx%not_elem_of_empty.
Qed.

Lemma unsubscribe_ok id s : cursor_ok s → cursor_ok (c_on_unsubscribe id s).
Proof.
  intros [H1 H2 H3 H4]. unfold c_on_unsubscribe. destruct (c_subscribes s !! id) as [c|] eqn:E; split; cbn; try done.
  - by apply map_disjoint_delete_l.
  - intros k c' [_ Hk]%lookup_delete_Some. by apply H3.
  - by apply map_disjoint_delete_r.
  - intros k c' [_ Hk]%lookup_delete_Some. by apply H4.
Qed.

Lemma turn_ok g d s :
  (∀ h cd, d h = Ok cd → cd_id cd = h) → c_at s = AtTurn → cursor_ok s → cursor_ok (run_cursor compress g d s).2.
Proof.
  intros Hl Hat Hs. pose proof Hs as [H1 H2 H3 H4]. pose proof H1 as (G1 & G2 & G3 & G4).
  unfold run_cursor. destruct g as [[h|]|e]; [|done..].
  destruct (Z.eqb_spec h (hcursor (c_state s))) as [_|Hne]; [done|].
  destruct (cached_cursor_data (c_state s) !! h) as [m|] eqn:Eh.
  - destruct (G1 h m Eh) as (cd & -> & Hid). cbn [snd].
    set (s1 := s <| c_state := c_state s <| hcursor := h |> |>).
    apply (send_subs_ok (CmData cd) cd s1); cbn; [done|done|done| | |done|by rewrite Hid|done|done]; intros id c Hc;
      (eapply (knows_sent s); [done|done|]); [by apply H3|by apply H4].
  - destruct (d h) as [data|e] eqn:Ed; [|done]. cbn [snd]. pose proof (Hl h data Ed) as Hid.
    set (msg := CmData _). set (s1 := s <| c_state := _ |>).
    assert (∀ id c, knows s id c → knows s1 id c) as Hk.
    { intros id c. apply knows_sent; [done|]. intros x m Hx. cbn. rewrite lookup_insert_ne; [done|]. intros <-. congruence. }
    apply (send_subs_ok msg (mkCursor (cd_id data) (cd_hot data) (cd_size data) (compress (cd_colors data))) s1); cbn;
      [|done|done| | |done|by rewrite Hid, lookup_insert_eq|done|done].
    + intros h' m [[<- <-]|[_ Hm]]%lookup_insert_Some; [by eexists|by apply G1].
    + intros id c Hc. by apply Hk, H3.
    + intros id c Hc. by apply Hk, H4.
Qed.

Lemma snapshot_ok s : c_at s = AtSnapshot → cursor_ok s →
  cursor_ok (c_send_new_subscribes (cursor_data (c_state s)) s <| c_at := AtSwap |>).
Proof.
  intros Hat [H1 H2 H3 H4]. pose proof H1 as (G1 & G2 & G3 & G4). set (msg := cursor_data (c_state s)) in *.
  assert (∀ id, for_id id (c_sent (c_send_new_subscribes msg s)) = for_id id (c_sent s)
    ++ match c_new_subscribes s !! id with Some c => [(sub_send msg c).1] | None => [] end) as Hf.
  { intros id. unfold c_send_new_subscribes. pose proof (send_all_for id msg (c_new_subscribes s)) as Ha.
    destruct (send_all _ _) as [out subs]. cbn in *. by rewrite for_id_app, Ha. }
  split; unfold c_send_new_subscribes in *; cbn in *; [done| | |].
  - intros id. specialize (H2 id). rewrite lookup_fmap. by destruct (c_subscribes s !! id), (c_new_subscribes s !! id).
  - intros id c Hc. destruct (H3 id c Hc) as [K1 K2].
    assert (for_id id (c_sent s ++ (send_all msg (c_new_subscribes s)).1) = for_id id (c_sent s)) as Hs.
    { cbn. rewrite Hf. specialize (H2 id). rewrite Hc in H2. destruct (c_new_subscribes s !! id); [done|by rewrite app_nil_r]. }
    split; [by eapply (knows_sent s)|]. intros cd Hcd. unfold viewer. cbn in *. rewrite Hs. by apply K2.
  - intros id c'. rewrite lookup_fmap. destruct (c_new_subscribes s !! id) as [c|] eqn:Ec; [|done]. intros [= <-].
    destruct (H4 id c Ec) as [K1 _]. specialize (Hf id). rewrite Ec in Hf.
    destruct msg as [cd|i|] eqn:Em; [|by destruct (G3 i)|].
    + destruct (sub_send_views s id c (CmData cd) cd eq_refl (G2 cd eq_refl) K1) as [V1 V2]. split.
      * intros x Hx. cbn in *. destruct (V2 x Hx) as (cd' & L1 & L2). exists cd'. split; [done|].
        unfold viewer in *. by rewrite Hf, foldl_app.
      * intros _ cd' Hcd'. unfold msg in Em. cbn in *. assert (cd' = cd) as -> by congruence. unfold viewer in *. rewrite Hf, foldl_app. exact V1.
    + split; [|intros _ cd' Hcd'; unfold msg in Em; cbn in *; congruence].
      intros x Hx. cbn in *. destruct (K1 x Hx) as (cd & L1 & L2). exists cd. split; [done|].
      unfold viewer in *. by rewrite Hf, foldl_app.
Qed.

Lemma step_ok x s : law x → unhurried_step x s = true → cursor_ok s → cursor_ok (cursor_step compress x s).
Proof.
  intros Hl Hu Hs. pose proof Hs as [H1 H2 H3 H4]. destruct x as [id|id|g d| |]; cbn [cursor_step].
  - destruct (c_at s) eqn:Hat; [..|by cbn in Hu; rewrite Hat in Hu]; apply subscribe_ok; congruence || done.
  - by apply unsubscribe_ok.
  - destruct (c_at s) eqn:Hat; [|done|done]. destruct (c_has_subscribes s) eqn:Eh.
    + set (s0 := s <| c_may_reset := true |>). assert (cursor_ok s0) as H0 by exact (Build_cursor_ok s0 (ck_state s Hs) (ck_disjoint s Hs) (ck_subs s Hs) (ck_news s Hs)).
      pose proof (turn_ok g d s0 Hl Hat H0) as Ht. assert (c_at (run_cursor compress g d s0).2 = AtTurn) as Ha.
      { unfold run_cursor. repeat case_match; done. }
      destruct (run_cursor compress g d s0) as [[[]|e] s1]; cbn in *; [|done].
      destruct Ht as [T1 T2 T3 T4]. split; cbn; [done|done|done|]. intros id c Hc. by destruct (T4 id c Hc).
    + destruct (c_may_reset s); [|done]. unfold c_has_subscribes in Eh. apply orb_false_elim in Eh as [E1 E2].
      apply negb_false_iff, bool_decide_eq_true in E1, E2. split; cbn; [by split_and!; [| | |left]|done|..];
        rewrite ?E1, ?E2; intros id c Hc; by rewrite lookup_empty in Hc.
  - destruct (c_at s) eqn:Hat; [done| |done]. case_bool_decide as Hn; [|by apply snapshot_ok].
    split; cbn; [done|done|done|]. intros id c Hc. by destruct (H4 id c Hc).
  - destruct (c_at s) eqn:Hat; [done|done|]. split; cbn; [done| | |].
    + apply map_disjoint_empty_r.
    + intros id c Hc. apply lookup_union_Some in Hc as [Hc|Hc]; [|by apply H3|by apply map_disjoint_sym].
      destruct (H4 id c Hc) as [K1 K2]. split; [done|]. by apply K2.
    + intros id c Hc. by rewrite lookup_empty in Hc.
Qed.

Fixpoint unhurried (xs : list CursorStep) (s : CursorService) : bool :=
  match xs with [] => true | x :: xs => unhurried_step x s && unhurried xs (cursor_step compress x s) end.

Lemma new_ok : cursor_ok cursor_service_new.
Proof.
  split; cbn; [by split_and!; [| | |left]|apply map_disjoint_empty_l|..]; intros id c Hc; by rewrite lookup_empty in Hc.
Qed.

Lemma run_ok xs s : Forall law xs → unhurried xs s = true → cursor_ok s → cursor_ok (cursor_run compress xs s).
Proof.
  intros Hl. revert s. induction Hl as [|x xs Hx _ IH]; intros s Hu Hs; [done|]. cbn in Hu.
  apply andb_true_iff in Hu as [Hu1 Hu2]. apply IH; [done|]. by apply step_ok.
Qed.

(** A turn that finds the cursor [h] leaves its image as the current one. *)
Lemma turn_finds h d s :
  good_state (c_state s) → h ≠ 0%Z → (∀ h cd, d h = Ok cd → cd_id cd = h) → is_Some (ok_of (d h)) →
  let r := run_cursor compress (Ok (Some h)) d s in
  r.1 = Ok tt ∧ (∃ cd, cursor_data (c_state r.2) = CmData cd ∧ cd_id cd = h)
  ∧ (∀ id, is_Some (c_subscribes s !! id) → is_Some (c_subscribes r.2 !! id))
  ∧ c_new_subscribes r.2 = c_new_subscribes s.
Proof.
  intros (G1 & G2 & G3 & G4) Hh Hd [data Hdata] r. unfold r, run_cursor.
  destruct (Z.eqb_spec h (hcursor (c_state s))) as [He|Hne].
  { split_and!; [done| |done|done]. destruct G4 as [G4|(cd & G4 & G5)]; [congruence|]. exists cd. by rewrite He. }
  assert (∀ msg s1, c_subscribes s1 = c_subscribes s → c_new_subscribes s1 = c_new_subscribes s →
    (∀ id, is_Some (c_subscribes s !! id) → is_Some (c_subscribes (c_send_shared msg s1) !! id))
    ∧ c_new_subscribes (c_send_shared msg s1) = c_new_subscribes s) as Hsend.
  { intros msg s1 E1 E2. unfold c_send_shared. cbn. rewrite E1, E2. split; [|done]. intros id [c Hc].
    rewrite lookup_fmap, Hc. by eexists. }
  destruct (cached_cursor_data (c_state s) !! h) as [m|] eqn:Eh.
  - destruct (G1 h m Eh) as (cd & -> & Hid). destruct (Hsend (CmData cd) (s <| c_state := c_state s <| hcursor := h |> |>)) as [S1 S2];
      [done|done|]. split_and!; [done|by exists cd|exact S1|exact S2].
  - destruct (d h) as [data'|e] eqn:Ed; [|done]. cbn zeta.
    split_and!; [done|eexists; split; [reflexivity|cbn; by apply (Hd h)]|..]; apply Hsend; done.
Qed.

(** C25: everybody sees the host's cursor.  However connections subscribe and leave and
    whatever the display server answers, as long as no connection subscribes between
    the snapshot and the move that ends it: each listening client shows the current
    image of the host, although an image it had before is only named to it.  After a
    turn that finds the cursor [h], all that listened, the new ones too, show [h]. *)
Theorem cursor_shown xs h d s :
  Forall law xs → unhurried xs cursor_service_new = true → s = cursor_run compress xs cursor_service_new →
  (∀ id c, c_subscribes s !! id = Some c → shows s id)
  ∧ (c_at s = AtTurn → h ≠ 0%Z → (∀ h cd, d h = Ok cd → cd_id cd = h) → is_Some (ok_of (d h)) →
     let s' := cursor_run compress [CsTurn (Ok (Some h)) d; CsSnapshot; CsSwap] s in
     ∀ id, is_Some (c_subscribes s !! id) ∨ is_Some (c_new_subscribes s !! id) →
       is_Some (c_subscribes s' !! id) ∧ ∃ cd, cd_id cd = h ∧ v_shown (viewer id (c_sent s')) = Some cd).
Proof.
  intros Hl Hu ->. pose proof (run_ok xs _ Hl Hu new_ok) as Hs. set (s := cursor_run _ _ _) in *.
  split; [intros id c Hc; by destruct (ck_subs s Hs id c Hc)|]. intros Hat Hh Hd [data Hdata] s' id Hid.
  assert (c_has_subscribes s = true) as Hsub.
  { unfold c_has_subscribes. apply orb_true_iff. destruct Hid as [[c Hc]|[c Hc]]; [left|right];
      apply negb_true_iff, bool_decide_eq_false; intros E; by rewrite E, lookup_empty in Hc. }
  set (s0 := s <| c_may_reset := true |>).
  destruct (turn_finds h d s0 (ck_state s Hs) Hh Hd) as (T1 & (cd & T2 & T3) & T4 & T5); [by eexists|].
  set (s1 := (run_cursor compress (Ok (Some h)) d s0).2) in *.
  assert (cursor_step compress (CsTurn (Ok (Some h)) d) s = s1 <| c_at := AtSnapshot |>) as E1.
  { cbn [cursor_step]. rewrite Hat, Hsub. fold s0. unfold s1. destruct (run_cursor _ _ _ s0) as [[[]|] s2]; cbn in T1; [done|done]. }
  assert (cursor_ok s') as Hs'.
  { unfold s'. apply run_ok; [|  |exact Hs]; [by repeat constructor|]. cbn [unhurried unhurried_step]. by destruct (c_at _). }
  assert (cursor_data (c_state s') = CmData cd ∧ is_Some (c_subscribes s' !! id)) as [D1 [c D2]].
  { unfold s', cursor_run. cbn [foldl]. rewrite E1. cbn [cursor_step c_at].
    change (c_new_subscribes (s1 <| c_at := AtSnapshot |>)) with (c_new_subscribes s1).
    case_bool_decide as Hn; cbn.
    - split; [done|]. destruct Hid as [Hid|Hid]; [by apply T4|]. rewrite T5 in Hn. unfold s0 in Hn. cbn in Hn.
      rewrite Hn, lookup_empty in Hid. by destruct Hid.
    - split; [done|]. destruct Hid as [Hid|Hid].
      + destruct (T4 id Hid) as [c Hc]. destruct (((λ c, (sub_send (cursor_data (c_state s1)) c).2) <$> c_new_subscribes s1) !! id) as [c'|] eqn:En.
        * exists c'. by apply lookup_union_Some_l.
        * exists c. rewrite lookup_union_r; done.
      + rewrite T5. destruct Hid as [c Hc]. eexists. apply lookup_union_Some_l. rewrite lookup_fmap. unfold s0. cbn. by rewrite Hc. }
  split; [by exists c|]. exists cd. split; [done|]. by destruct (ck_subs s' Hs' id c D2) as [_ Hsh]; apply Hsh.
Qed.
End Cursor.

(** ** The position *)

(** The peer that moved the cursor within the last 300 ms is the only one that is not
    told where it is, and nobody is told twice of the same place. *)
Lemma pos_not_echoed now sys peer state x y ex s id :
  (run_pos now sys peer state).1 = Some (x, y, ex) → id ∈ subscribes s → id ≠ 0%Z →
  (x, y) = sys ∧ sys ≠ state
  ∧ (id ∈ pos_receivers ex s ↔ ¬ (id = in_conn peer ∧ (now - in_time peer < 300)%Z)).
Proof.
  unfold run_pos. destruct sys as [sx sy]. destruct (_ || _); [done|]. cbn. destruct (is_moved sx sy state) eqn:Em; [|done].
  intros [= <- <- <-] Hid H0. split_and!; [done| |].
  - intros <-. unfold is_moved in Em. cbn in Em. rewrite !Z.eqb_refl, andb_false_r in Em. done.
  - unfold pos_receivers, send_without. rewrite elem_of_filter. destruct (Z.ltb_spec (now - in_time peer) 300) as [Hlt|Hge].
    + split; [intros [Hne _] [-> _]; by apply Hne|]. intros Hn. split; [|done]. intros <-. by apply Hn.
    + split; [intros _ [_ ?]; lia|]. intros _. split; [|done]. intros <-. by apply H0.
Qed.

(** ** What goes wrong *)

Module DemoCursor.
Local Open Scope Z_scope.
Definition image (h : Z) : result string CursorData := Ok (mkCursor h (0, 0) (1, 1) [h]).
Definition turn (h : Z) : list CursorStep := [CsTurn (Ok (Some h)) image; CsSnapshot; CsSwap].
Definition steps : list CursorStep :=
  [CsSubscribe 1] ++ turn 5 ++ [CsSubscribe 2] ++ turn 6 ++ turn 5 ++ [CsUnsubscribe 1; CsSubscribe 3].
(** Connection 2 subscribes between the snapshot and the move. *)
Definition race : list CursorStep :=
  [CsSubscribe 1; CsTurn (Ok (Some 5)) image; CsSnapshot; CsSubscribe 2; CsSwap] ++ turn 5 ++ turn 5.
End DemoCursor.

(** A connection that subscribes while the snapshot is being sent to others is moved
    with them: it gets no image until the cursor changes. *)
Lemma snapshot_missed :
  let s := cursor_run (λ d, d) DemoCursor.race cursor_service_new in
  is_Some (c_subscribes s !! 2%Z) ∧ cursor_data (c_state s) = CmData (mkCursor 5 (0, 0)%Z (1, 1)%Z [5%Z])
  ∧ v_shown (viewer 2 (c_sent s)) = None.
Proof. vm_compute. split_and!; [by eexists|done|done]. Qed.

Lemma cursor_shown_witness :
  let s := cursor_run (λ d, d) DemoCursor.steps cursor_service_new in
  let s' := cursor_run (λ d, d) (DemoCursor.turn 6) s in
  for_id 2 (c_sent s') = [CmData (mkCursor 6 (0, 0)%Z (1, 1)%Z [6%Z]); CmData (mkCursor 5 (0, 0)%Z (1, 1)%Z [5%Z]); CmId 6]
  ∧ ∃ cd, cd_id cd = 6%Z ∧ v_shown (viewer 3 (c_sent s')) = Some cd.
Proof.
  split; [by vm_compute|].
  refine (proj2 (proj2 (cursor_shown (λ d, d) DemoCursor.steps 6 DemoCursor.image _ _ _ eq_refl) _ _ _ _ 3%Z _)).
  - repeat (constructor; [first [done|intros h cd [= <-]; done]|]). constructor.
  - by vm_compute.
  - by vm_compute.
  - done.
  - by intros h cd [= <-].
  - by eexists.
  - right. vm_compute. by eexists.
Defined.
