(* ===== verification/Codecs.v ===== *)
(** * Which codec the pictures are sent in

    [libs/scrap/src/common/codec.rs], with the bit rates of [vpxcodec.rs], [aom.rs] and
    [hwcodec.rs]: every peer tells what it can decode and what it would like
    ([supported_decodings]); the host keeps the answers and after each change picks
    one format for all of them ([update]).  The format is global: encoders that fail
    change it as well.

    The build is for Linux, where pictures are not encoded from textures ([vram]); the
    feature [hwcodec] is an argument, and so are what the hardware offers and the
    order in which a [HashMap] is read. *)

From S2P Require Import Prelude Strs F32 Options.
From Stdlib Require Import Ascii String.

Local Open Scope string_scope.
#[local] Abbreviation length := Datatypes.length.
#[local] Arguments String.append _ _ : simpl nomatch.

(** ** Formats and what peers say of them *)

Inductive CodecFormat := VP8 | VP9 | AV1 | H264 | H265 | Unknown.
#[global] Instance CodecFormat_eq_dec : EqDecision CodecFormat. Proof. solve_decision. Defined.

(** [PreferCodec] and [Chroma] travel as their numbers. *)
Definition PREFER_AUTO : Z := 0.
Definition prefer_value (f : CodecFormat) : Z :=
  match f with VP9 => 1 | H264 => 2 | H265 => 3 | VP8 => 4 | AV1 => 5 | Unknown => 0 end.
(** [enum_value_or(PreferCodec::Auto)]; [Unknown] stands for [Auto]. *)
Definition prefer_of_value (v : Z) : CodecFormat :=
  match v with 1 => VP9 | 2 => H264 | 3 => H265 | 4 => VP8 | 5 => AV1 | _ => Unknown end%Z.

Definition CHROMA_I420 : Z := 0.
Definition CHROMA_I444 : Z := 1.

Record CodecAbility := { ca_vp9 : bool; ca_av1 : bool }.
Definition CodecAbility_default : CodecAbility := {| ca_vp9 := false; ca_av1 := false |}.

Record SupportedDecoding := mkDecoding {
  ability_vp9 : Z; ability_h264 : Z; ability_h265 : Z; prefer : Z;
  ability_vp8 : Z; ability_av1 : Z; i444 : option CodecAbility; prefer_chroma : Z
}.
#[global] Instance eta_SupportedDecoding : Settable SupportedDecoding := λ d,
  mkDecoding (ability_vp9 d) (ability_h264 d) (ability_h265 d) (prefer d)
    (ability_vp8 d) (ability_av1 d) (i444 d) (prefer_chroma d).
Definition SupportedDecoding_default : SupportedDecoding := mkDecoding 0 0 0 0 0 0 None 0.

Record SupportedEncoding := mkEncoding {
  se_h264 : bool; se_h265 : bool; se_vp8 : bool; se_av1 : bool; se_i444 : option CodecAbility
}.

(** What the [hwcodec] library knows of an encoder or decoder, as far as it is used. *)
Record CodecInfo := { ci_name : string; ci_mc_name : option string }.
(** [HwCodecConfig]: what the check process found. *)
Record HwCodecConfig := mkHwConfig { ram_encode : list CodecInfo; ram_decode : list CodecInfo }.
#[global] Instance eta_HwCodecConfig : Settable HwCodecConfig := λ c, mkHwConfig (ram_encode c) (ram_decode c).

(** [CodecInfos]: the best of them for each format. *)
Record CodecInfos := { ci_h264 : option CodecInfo; ci_h265 : option CodecInfo }.

Record CodecEnv := {
  cfg_hwcodec : bool;                            (* the feature *)
  pointer_size : Z;                              (* of [usize], in bytes *)
  cfg_option : string → string;                  (* [Config::get_option] *)
  total_memory : Z;                              (* of [System] *)
  prioritized : list CodecInfo → CodecInfos;     (* of [hwcodec] *)
  soft : CodecInfos
}.

(** The globals: [PEER_DECODINGS], [ENCODE_CODEC_FORMAT], [USABLE_ENCODING] and [CONFIG]. *)
Record CodecState := mkCodecState {
  PEER_DECODINGS : gmap Z SupportedDecoding;
  ENCODE_CODEC_FORMAT : CodecFormat;
  USABLE_ENCODING : option SupportedEncoding;
  CONFIG : option HwCodecConfig
}.
#[global] Instance eta_CodecState : Settable CodecState := λ s,
  mkCodecState (PEER_DECODINGS s) (ENCODE_CODEC_FORMAT s) (USABLE_ENCODING s) (CONFIG s).
Definition codec_state_new : CodecState := mkCodecState ∅ VP9 None None.

Inductive EncodingUpdate :=
| Update (id : Z) (decoding : SupportedDecoding)
| Remove (id : Z)
| NewOnlyVP9 (id : Z)
| Check.

(** ** Configurations of encoders *)

Inductive VpxVideoCodecId := IdVP8 | IdVP9.
Inductive EncoderCfg :=
| VPX (width height : Z) (quality : f32) (codec : VpxVideoCodecId) (keyframe_interval : option Z)
| AOM (width height : Z) (quality : f32) (keyframe_interval : option Z)
| HWRAM (name : string) (mc_name : option string) (width height : Z) (quality : f32) (keyframe_interval : option Z).

(** ** Counting preferences *)

Fixpoint bump (pref : Z) (counts : list (Z * Z)) : list (Z * Z) :=
  match counts with
  | [] => [(pref, 1%Z)]
  | (p, n) :: counts => if (p =? pref)%Z then (p, (n + 1)%Z) :: counts else (p, n) :: bump pref counts
  end.
Definition tally (preferences : list Z) : list (Z * Z) := foldl (λ counts p, bump p counts) [] preferences.
Definition max_count (counts : list (Z * Z)) : Z := foldr (λ c m, Z.max c.2 m) 0%Z counts.
(** The first of the most frequent ones. *)
Definition most_frequent (preferences : list Z) : Z :=
  let counts := tally preferences in
  match List.find (λ c, (c.2 =? max_count counts)%Z) counts with Some (p, _) => p | None => PREFER_AUTO end.

Section Codecs.
Variable env : CodecEnv.
(** [HashMap::iter], in the order of the table. *)
Variable iter : gmap Z SupportedDecoding → list (Z * SupportedDecoding).

Definition disable_av1 : bool := (pointer_size env =? 4)%Z.
Definition OPTION_ENABLE_HWCODEC : string := "enable-hwcodec".
Definition OPTION_AV1_TEST : string := "av1-test".
Definition enable_hwcodec_option : bool := option2bool OPTION_ENABLE_HWCODEC (cfg_option env OPTION_ENABLE_HWCODEC).

(** [HwCodecConfig::get] on Linux. *)
Definition hw_config (s : CodecState) : HwCodecConfig := default (mkHwConfig [] []) (CONFIG s).

Definition info_of (f : CodecFormat) (infos : CodecInfos) : option CodecInfo :=
  match f with H264 => ci_h264 infos | H265 => ci_h265 infos | _ => None end.

(** [HwRamEncoder::try_get] and [HwRamDecoder::try_get]. *)
Definition encoder_try_get (f : CodecFormat) (s : CodecState) : option CodecInfo :=
  info_of f (prioritized env (ram_encode (hw_config s))).
Definition decoder_try_get (f : CodecFormat) (s : CodecState) : option CodecInfo :=
  let info := info_of f (soft env) in
  if enable_hwcodec_option then
    match info_of f (prioritized env (ram_decode (hw_config s))) with Some i => Some i | None => info end
  else info.

(** [Encoder::update]: the first part, what the peers say; [useable f] is what the
    source calls [vp8_useable] and so on. *)
Definition update_decodings (u : EncodingUpdate) (d : gmap Z SupportedDecoding) : gmap Z SupportedDecoding :=
  match u with
  | Update id decoding => <[id := decoding]> d
  | Remove id => delete id d
  | NewOnlyVP9 id => <[id := SupportedDecoding_default <| ability_vp9 := 1%Z |>]> d
  | Check => d
  end.

Definition all_support (ability : SupportedDecoding → Z) (decodings : gmap Z SupportedDecoding) : bool :=
  (0 <? length (iter decodings))%nat && forallb (λ d, (0 <? ability d.2)%Z) (iter decodings).

Definition hw_encoding (f : CodecFormat) (ability : SupportedDecoding → Z) (s : CodecState) : option string :=
  if cfg_hwcodec env && enable_hwcodec_option && all_support ability (PEER_DECODINGS s)
  then ci_name <$> encoder_try_get f s else None.

Definition useable (f : CodecFormat) (s : CodecState) : bool :=
  let decodings := PEER_DECODINGS s in
  match f with
  | VP8 => all_support ability_vp8 decodings
  | AV1 => all_support ability_av1 decodings && negb disable_av1
  | H264 => all_support ability_h264 decodings && bool_decide (is_Some (hw_encoding H264 ability_h264 s))
  | H265 => all_support ability_h265 decodings && bool_decide (is_Some (hw_encoding H265 ability_h265 s))
  | _ => false
  end.

(** A preference is counted when it can be met; [VP9] always is. *)
Definition counted (s : CodecState) (pref : Z) : bool :=
  (pref =? prefer_value VP9)%Z
  || (pref =? prefer_value VP8)%Z && useable VP8 s
  || (pref =? prefer_value AV1)%Z && useable AV1 s
  || (pref =? prefer_value H264)%Z && useable H264 s
  || (pref =? prefer_value H265)%Z && useable H265 s.
Definition preferences (s : CodecState) : list Z :=
  List.filter (counted s) (map (λ d, prefer d.2) (iter (PEER_DECODINGS s))).

Definition auto_codec (s : CodecState) : CodecFormat :=
  let av1_test := negb (String.eqb (cfg_option env OPTION_AV1_TEST) "N") in
  let auto := if useable AV1 s && av1_test then AV1 else VP9 in
  let auto := if useable H264 s then H264 else auto in
  let auto := if useable H265 s then H265 else auto in
  if bool_decide (auto = VP9) || bool_decide (auto = AV1) then
    if useable VP8 s && (total_memory env <=? 4 * 1024 * 1024 * 1024)%Z then VP8 else auto
  else auto.

Definition choose (s : CodecState) : CodecFormat :=
  match prefer_of_value (most_frequent (preferences s)) with
  | VP8 => VP8
  | VP9 => VP9
  | AV1 => AV1
  | H264 => if bool_decide (is_Some (hw_encoding H264 ability_h264 s)) then H264 else auto_codec s
  | H265 => if bool_decide (is_Some (hw_encoding H265 ability_h265 s)) then H265 else auto_codec s
  | Unknown => auto_codec s
  end.

Definition update (u : EncodingUpdate) (s : CodecState) : CodecState :=
  let s := s <| PEER_DECODINGS := update_decodings u (PEER_DECODINGS s) |> in
  let usable := mkEncoding (useable H264 s) (useable H265 s) (useable VP8 s) (useable AV1 s) None in
  s <| USABLE_ENCODING := Some usable |> <| ENCODE_CODEC_FORMAT := choose s |>.

Definition negotiated_codec (s : CodecState) : CodecFormat := ENCODE_CODEC_FORMAT s.

Definition supported_encoding (s : CodecState) : SupportedEncoding :=
  let hw f := cfg_hwcodec env && enable_hwcodec_option && bool_decide (is_Some (encoder_try_get f s)) in
  mkEncoding (hw H264) (hw H265) true (negb disable_av1) (Some {| ca_vp9 := true; ca_av1 := true |}).

Definition usable_encoding (s : CodecState) : option SupportedEncoding := USABLE_ENCODING s.

(** [update_supported_encoding] of [connection.rs]: what a connection sends, and
    remembers, when what can be used changed. *)
Definition update_supported_encoding (last : option SupportedEncoding) (s : CodecState) : option SupportedEncoding :=
  match last, usable_encoding s with
  | Some last, Some usable =>
      if negb (Bool.eqb (se_vp8 usable) (se_vp8 last)) || negb (Bool.eqb (se_av1 usable) (se_av1 last))
         || negb (Bool.eqb (se_h264 usable) (se_h264 last)) || negb (Bool.eqb (se_h265 usable) (se_h265 last))
      then Some (mkEncoding (se_h264 usable) (se_h265 usable) (se_vp8 usable) (se_av1 usable) (se_i444 last))
      else None
  | _, _ => None
  end.

(** The format an encoder of this configuration makes, as [set_fallback] reads it. *)
Definition cfg_format (config : EncoderCfg) : CodecFormat :=
  match config with
  | VPX _ _ _ IdVP8 _ => VP8
  | VPX _ _ _ IdVP9 _ => VP9
  | AOM _ _ _ _ => AV1
  | HWRAM name _ _ _ _ _ =>
      let name := to_lower name in
      if contains_str "vp8" name then VP8
      else if contains_str "vp9" name then VP9
      else if contains_str "av1" name then AV1
      else if contains_str "h264" name then H264
      else H265
  end.
Definition set_fallback (config : EncoderCfg) (s : CodecState) : CodecState :=
  let format := cfg_format config in
  if bool_decide (ENCODE_CODEC_FORMAT s = format) then s else s <| ENCODE_CODEC_FORMAT := format |>.

Definition use_i444 (config : EncoderCfg) (s : CodecState) : bool :=
  let decodings := iter (PEER_DECODINGS s) in
  let able d := default CodecAbility_default (i444 d) in
  let prefer_i444 := forallb (λ d, (prefer_chroma d.2 =? CHROMA_I444)%Z) decodings in
  let i444_useable :=
    match config with
    | VPX _ _ _ IdVP8 _ => false
    | VPX _ _ _ IdVP9 _ => forallb (λ d, ca_vp9 (able d.2)) decodings
    | AOM _ _ _ _ => forallb (λ d, ca_av1 (able d.2)) decodings
    | HWRAM _ _ _ _ _ _ => false
    end in
  prefer_i444 && i444_useable && negb (bool_decide (PEER_DECODINGS s = ∅)).

(** [HwCodecConfig::clear(false, encode)]. *)
Definition clear (encode : bool) (s : CodecState) : CodecState :=
  let s := match CONFIG s with
           | Some c => s <| CONFIG := Some (if encode then c <| ram_encode := [] |> else c <| ram_decode := [] |>) |>
           | None => s
           end in
  update Check s.

(** [Encoder::new]; [created] is what the library of the codec says. *)
Definition encoder_new (config : EncoderCfg) (created : result string unit) (s : CodecState)
    : result string unit * CodecState :=
  match config, created with
  | _, Ok _ => (Ok tt, s)
  | HWRAM _ _ _ _ _ _, Err e => (Err e, clear true s <| ENCODE_CODEC_FORMAT := VP9 |>)
  | _, Err e => (Err e, s)
  end.

(** [disable] of an encoder: of the hardware's only. *)
Definition encoder_disable (config : EncoderCfg) (s : CodecState) : CodecState :=
  match config with HWRAM _ _ _ _ _ _ => clear true s | _ => s end.

(** ** The side that looks *)

Definition preference (id : option string) (options : string → gmap string string) : Z * Z :=
  let id := default "" id in
  if is_empty id then (PREFER_AUTO, CHROMA_I420) else
  let options := options id in
  let codec := default "" (options !! "codec-preference") in
  let codec :=
    if String.eqb codec "vp8" then prefer_value VP8
    else if String.eqb codec "vp9" then prefer_value VP9
    else if String.eqb codec "av1" then prefer_value AV1
    else if String.eqb codec "h264" then prefer_value H264
    else if String.eqb codec "h265" then prefer_value H265
    else PREFER_AUTO in
  (codec, if bool_decide (options !! "i444" = Some "Y") then CHROMA_I444 else CHROMA_I420).

Definition forbid (d : SupportedDecoding) (f : CodecFormat) : SupportedDecoding :=
  match f with
  | VP8 => d <| ability_vp8 := 0%Z |>
  | VP9 => d <| ability_vp9 := 0%Z |>
  | AV1 => d <| ability_av1 := 0%Z |>
  | H264 => d <| ability_h264 := 0%Z |>
  | H265 => d <| ability_h265 := 0%Z |>
  | Unknown => d
  end.

Definition supported_decodings (id : option string) (options : string → gmap string string)
    (mark_unsupported : list CodecFormat) (s : CodecState) : SupportedDecoding :=
  let '(prefer, prefer_chroma) := preference id options in
  let hw f := if cfg_hwcodec env && bool_decide (is_Some (decoder_try_get f s)) then 1%Z else 0%Z in
  let decoding := mkDecoding 1 (hw H264) (hw H265) prefer 1 (if disable_av1 then 0 else 1)
                    (Some {| ca_vp9 := true; ca_av1 := true |}) prefer_chroma in
  foldl forbid decoding mark_unsupported.

(** ** Bit rates and threads *)

Definition RESOLUTION_PRESETS : list (Z * Z * Z) :=
  [(640, 480, 400); (800, 600, 500); (1024, 768, 800); (1280, 720, 1000); (1366, 768, 1100);
   (1440, 900, 1300); (1600, 900, 1500); (1920, 1080, 2073); (2048, 1080, 2200); (2560, 1440, 3000);
   (3440, 1440, 4000); (3840, 2160, 5000); (7680, 4320, 12000)]%Z.

(** [min_by_key]: the first with the least key. *)
Fixpoint min_by_key {A} (key : A → Z) (l : list A) : option A :=
  match l with
  | [] => None
  | a :: l => match min_by_key key l with
              | Some b => Some (if (key b <? key a)%Z then b else a)
              | None => Some a
              end
  end.

Definition base_bitrate (width height : Z) : Z :=
  let pixels := wrap 32 (width * height) in
  let '(preset_pixels, preset_bitrate) :=
    default (1920 * 1080, 2073)%Z
      (min_by_key (λ p, Z.abs (p.1 - pixels)) (map (λ p, (p.1.1 * p.1.2, p.2)%Z) RESOLUTION_PRESETS)) in
  f32_round_to_u32 (f32_mul (f32_of_Z preset_bitrate) (f32_div (f32_of_Z pixels) (f32_of_Z preset_pixels))).

(** [VpxEncoder::bitrate] and [AomEncoder::bitrate]. *)
Definition vpx_bitrate (width height : Z) (ratio : f32) : Z :=
  f32_to_u32 (f32_mul (f32_of_Z (base_bitrate width height)) ratio).

(** [HwRamEncoder::calc_bitrate], not on Android. *)
Definition calc_bitrate (width height : Z) (ratio : f32) (h264 : bool) : Z :=
  let base := f32_mul (f32_of_Z (base_bitrate width height)) ratio in
  let threshold := f32_of_Z 2000 in
  let decay_rate := f32_lit 1 1000 in
  let one := f32_of_Z 1 in
  let curve n := f32_add one (f32_div n (f32_add one (f32_mul (f32_sub base threshold) decay_rate))) in
  let factor :=
    if h264 then if f32_lt threshold base then curve one else f32_of_Z 2
    else if f32_lt threshold base then curve (f32_lit 1 2) else f32_lit 3 2 in
  f32_to_u32 (f32_mul base factor).
Definition hw_bitrate (name : string) (width height : Z) (ratio : f32) : Z :=
  calc_bitrate width height ratio (contains_str "h264" name).

(** [calc_q_values]: the quantizers between which an encoder stays, as the ratio goes
    from the bounds [q_min1], [q_max1] at 0 to [q_min2], [q_max2] at 2. *)
Definition q_mix (b q1 q2 : Z) : Z :=
  let t := f32_div (f32_of_Z b) (f32_of_Z 200) in
  f32_round_to_u32 (f32_add (f32_mul (f32_sub (f32_of_Z 1) t) (f32_of_Z q1)) (f32_mul t (f32_of_Z q2))).
Definition q_values (q_min1 q_min2 q_max1 q_max2 : Z) (ratio : f32) : Z * Z :=
  let b := Z.min (f32_to_u32 (f32_mul ratio (f32_of_Z 100))) 200 in
  (Zclamp q_min2 q_min1 (q_mix b q_min1 q_min2), Zclamp q_max2 q_max1 (q_mix b q_max1 q_max2)).
Definition vpx_calc_q_values : f32 → Z * Z := q_values 36 0 56 37.
Definition aom_calc_q_values : f32 → Z * Z := q_values 24 5 45 25.

(** [get_cpu_speed] and [get_super_block_size] of [aom.rs]; [true]: blocks of 64 by 64. *)
Definition get_cpu_speed (width height : Z) : Z :=
  if (wrap 32 (width * height) <=? 320 * 180)%Z then 8
  else if (wrap 32 (width * height) <=? 640 * 360)%Z then 9 else 10.
Definition get_super_block_size (width height threads : Z) : bool :=
  let resolution := wrap 32 (width * height) in
  (4 <=? threads)%Z && (960 * 540 <=? resolution)%Z && (resolution <? 1920 * 1080)%Z.

(** [codec_thread_num]; [idle_half] is half of the processors that are not loaded,
    rounded, [max] their number and [memory] the free gigabytes. *)
Definition codec_thread_num (idle_half max memory limit : Z) : Z :=
  (let res := Z.min (Z.min idle_half (max / 2)) (memory / 2) in
  let res := if (64 <=? res) then 64 else if (32 <=? res) then 32 else if (16 <=? res) then 16
             else if (8 <=? res) then 8 else if (4 <=? res) then 4 else if (2 <=? res) then 2 else 1 in
  Z.min res limit)%Z.

End Codecs.
