(* ===== verification/CodecsSafety.v ===== *)
(** * The codec all peers can decode

    What [Codecs] promises: the format is one that every peer declared, or VP9; the
    most wanted of the formats that can be used wins, in whatever order the peers are
    read; a format that failed on a peer is given up.  The bounds of the encoders'
    parameters.  Last, where the code does not do what it means to. *)

From S2P Require Import Prelude Strs F32 Options Codecs.
From Stdlib Require Import Ascii String.

Local Open Scope string_scope.
#[local] Abbreviation length := Datatypes.length.
#[local] Arguments String.append _ _ : simpl nomatch.

(** ** Counting *)

Definition votes (p : Z) (l : list Z) : Z := Z.of_nat (count_occ Z.eq_dec l p).

Lemma votes_app p l1 l2 : votes p (l1 ++ l2) = (votes p l1 + votes p l2)%Z.
Proof. unfold votes. rewrite count_occ_app. lia. Qed.

Lemma votes_pos p l : p ∈ l ↔ (0 < votes p l)%Z.
Proof. unfold votes. rewrite list_elem_of_In, (count_occ_In Z.eq_dec). lia. Qed.

Lemma bump_keys p counts : ∀ q, q ∈ (bump p counts).*1 ↔ q = p ∨ q ∈ counts.*1.
Proof.
  induction counts as [|[k n] counts IH]; intros q; cbn; [set_solver|].
  destruct (Z.eqb_spec k p) as [->|Hk]; cbn; [set_solver|]. rewrite !elem_of_cons, IH. naive_solver.
Qed.

Lemma bump_nodup p counts : NoDup counts.*1 → NoDup (bump p counts).*1.
Proof.
  induction counts as [|[k n] counts IH]; cbn; intros H; [repeat constructor; set_solver|].
  apply NoDup_cons in H as [Hk Hn]. destruct (Z.eqb_spec k p) as [->|Hp]; cbn; apply NoDup_cons; [done|].
  split; [|auto]. rewrite bump_keys. naive_solver.
Qed.

Lemma bump_spec p counts q n : NoDup counts.*1 →
  (q, n) ∈ bump p counts ↔
    (q ≠ p ∧ (q, n) ∈ counts) ∨ (q = p ∧ ((∃ m, (p, m) ∈ counts ∧ n = (m + 1)%Z) ∨ (p ∉ counts.*1 ∧ n = 1%Z))).
Proof.
  induction counts as [|[k m] counts IH]; cbn; intros H.
  { rewrite list_elem_of_singleton. split; [intros [= -> ->]; right; set_solver|set_solver]. }
  apply NoDup_cons in H as [Hk Hn]. specialize (IH Hn).
  destruct (Z.eqb_spec k p) as [->|Hp]; setoid_rewrite elem_of_cons.
  - assert (∀ x, (p, x) ∈ counts → False) as Hno by (intros x Hx; apply Hk; apply list_elem_of_fmap; by exists (p, x)).
    split.
    + intros [[= -> ->]|Hq]; [right; split; [done|left; exists m; set_solver]|].
      left. split; [intros ->; by eapply Hno|by right].
    + intros [[Hq [[= -> ->]|Hin]]|[-> [(x & [[= ->]|Hx] & ->)|[Hx _]]]]; [done|by right|by left|by destruct (Hno _ Hx)|set_solver].
  - rewrite IH. split.
    + intros [[= -> ->]|[[Hq Hin]|[-> [(x & Hx & ->)|[Hx ->]]]]];
        [left; split; [done|by left]|left; split; [done|by right]|right; split; [done|left; exists x; split; [by right|done]]|].
      right. split; [done|]. right. set_solver.
    + intros [[Hq [[= -> ->]|Hin]]|[-> [(x & [[= <- ->]|Hx] & ->)|[Hx ->]]]];
        [by left|right; left; done|done|right; right; split; [done|left; by exists x]|right; right; split; [done|right; set_solver]].
Qed.

Lemma tally_snoc l p : tally (l ++ [p]) = bump p (tally l).
Proof. unfold tally. by rewrite foldl_app. Qed.

Lemma tally_spec l : NoDup (tally l).*1 ∧ ∀ p n, (p, n) ∈ tally l ↔ p ∈ l ∧ n = votes p l.
Proof.
  induction l as [|x l [IH1 IH2]] using rev_ind; [split; [constructor|set_solver]|].
  rewrite tally_snoc. split; [by apply bump_nodup|]. intros p n. rewrite bump_spec by done.
  assert (∀ y, y ∉ (tally l).*1 ↔ y ∉ l) as Hkeys.
  { intros y. split; intros Hy Hin; apply Hy.
    - apply list_elem_of_fmap. exists (y, votes y l). by rewrite IH2.
    - apply list_elem_of_fmap in Hin as ([y' m] & -> & Hm). by apply IH2 in Hm as []. }
  assert (∀ y, votes y [x] = if decide (x = y) then 1%Z else 0%Z) as Hone.
  { intros y. unfold votes. cbn. destruct (Z.eq_dec x y), (decide (x = y)); lia. }
  rewrite IH2, elem_of_app, list_elem_of_singleton, votes_app, Hone. split.
  - intros [[Hp [Hin ->]]|[-> [(m & Hm & ->)|[Hx ->]]]].
    + split; [by left|]. rewrite decide_False by done. lia.
    + apply IH2 in Hm as [_ ->]. split; [by right|]. by rewrite decide_True.
    + split; [by right|]. rewrite decide_True by done. apply Hkeys in Hx.
      pose proof (votes_pos x l) as Hv. unfold votes in *. assert (¬ (0 < Z.of_nat (count_occ Z.eq_dec l x))%Z) by tauto. lia.
  - intros [Hin ->]. destruct (decide (x = p)) as [->|Hne].
    + right. split; [done|]. destruct (decide (p ∈ l)) as [Hp|Hp].
      * left. exists (votes p l). by rewrite IH2.
      * right. split; [by apply Hkeys|]. pose proof (votes_pos p l) as Hv.
        unfold votes in *. assert (¬ (0 < Z.of_nat (count_occ Z.eq_dec l p))%Z) by tauto. lia.
    + left. split; [done|]. split; [naive_solver|lia].
Qed.

Lemma max_count_ge counts p n : (p, n) ∈ counts → (n <= max_count counts)%Z.
Proof. unfold max_count. induction counts as [|c counts IH]; [set_solver|]. intros [<-|Hin]%elem_of_cons; cbn; [lia|]. apply IH in Hin. lia. Qed.

Lemma max_count_in counts : counts ≠ [] → Forall (λ c, (0 < c.2)%Z) counts → ∃ p, (p, max_count counts) ∈ counts.
Proof.
  induction counts as [|[p n] counts IH]; [done|]. intros _ [Hp Hf]%Forall_cons. cbn in Hp.
  destruct counts as [|c counts]; [exists p; cbn; rewrite Z.max_l by lia; set_solver|].
  destruct IH as [q Hq]; [done..|]. change (max_count ((p, n) :: c :: counts)) with (Z.max n (max_count (c :: counts))).
  destruct (Z.max_spec n (max_count (c :: counts))) as [[? ->]|[? ->]];
    [exists q; by right|exists p; by left].
Qed.

(** The winner got at least as many votes as anybody. *)
Lemma most_frequent_spec l : l ≠ [] → most_frequent l ∈ l ∧ ∀ q, (votes q l <= votes (most_frequent l) l)%Z.
Proof.
  intros Hl. destruct (tally_spec l) as [_ Ht]. unfold most_frequent. set (counts := tally l) in *.
  assert (counts ≠ []) as Hne.
  { destruct l as [|x l]; [done|]. intros E. destruct (Ht x (votes x (x :: l))) as [_ H].
    rewrite E in H. assert (x ∈ x :: l) by set_solver. set_solver. }
  assert (Forall (λ c, (0 < c.2)%Z) counts) as Hpos.
  { apply Forall_forall. intros [p n] Hin. apply Ht in Hin as [Hp ->]. by apply votes_pos. }
  destruct (max_count_in counts Hne Hpos) as [p Hp].
  destruct (List.find _ counts) as [[q n]|] eqn:Ef.
  - apply find_some in Ef as [Hin Hq]. cbn in Hq. apply Z.eqb_eq in Hq. apply list_elem_of_In in Hin.
    pose proof (proj1 (Ht q n) Hin) as [Hql ->]. split; [done|]. intros r. rewrite Hq.
    destruct (decide (r ∈ l)) as [Hr|Hr]; [apply (max_count_ge counts r); by apply Ht|].
    pose proof (votes_pos r l). assert (¬ (0 < votes r l)%Z) by tauto. apply votes_pos in Hql. lia.
  - apply list_elem_of_In in Hp. apply (find_none _ _ Ef) in Hp as Hx. cbn in Hx. by rewrite Z.eqb_refl in Hx.
Qed.


(** ** The choice *)

Definition ability_of (f : CodecFormat) (d : SupportedDecoding) : Z :=
  match f with
  | VP8 => ability_vp8 d | VP9 => ability_vp9 d | AV1 => ability_av1 d
  | H264 => ability_h264 d | H265 => ability_h265 d | Unknown => 0
  end.
Definition can_decode (f : CodecFormat) (d : SupportedDecoding) : Prop := (0 < ability_of f d)%Z.

(** How many peers would like a format. *)
Definition votes_for (f : CodecFormat) (s : CodecState) : Z :=
  votes (prefer_value f) (prefer <$> (map_to_list (PEER_DECODINGS s)).*2).

Lemma prefer_of_value_of f : prefer_of_value (prefer_value f) = f.
Proof. by destruct f. Qed.

Section Choice.
  Variable env : CodecEnv.
  Variable iter : gmap Z SupportedDecoding → list (Z * SupportedDecoding).
  Hypothesis iter_perm : ∀ m, iter m ≡ₚ map_to_list m.

Lemma all_support_spec ability m :
  all_support iter ability m = true ↔ m ≠ ∅ ∧ ∀ id d, m !! id = Some d → (0 < ability d)%Z.
Proof.
  unfold all_support. rewrite andb_true_iff, Nat.ltb_lt, forallb_forall.
  assert (∀ x, In x (iter m) ↔ m !! x.1 = Some x.2) as Hin.
  { intros [i d]. by rewrite <- list_elem_of_In, iter_perm, elem_of_map_to_list. }
  assert (length (iter m) = base.size m) as Hl.
  { rewrite iter_perm. by rewrite length_map_to_list. }
  rewrite Hl. split; intros [H1 H2]; (split; [|]).
  - intros ->. rewrite map_size_empty in H1. lia.
  - intros id d Hd. specialize (H2 (id, d)). rewrite Hin in H2. by apply Z.ltb_lt, H2.
  - pose proof (map_size_empty_iff m). destruct (base.size m); [tauto|lia].
  - intros [i d] Hd. apply Hin in Hd. apply Z.ltb_lt. by eapply H2.
Qed.

Lemma useable_decodes f s : useable env iter f s = true →
  ∀ id d, PEER_DECODINGS s !! id = Some d → can_decode f d.
Proof.
  unfold useable, can_decode. destruct f; cbn; intros H; try done; [|apply andb_true_iff in H as [H _]..];
    apply all_support_spec in H as [_ H]; exact H.
Qed.

Lemma useable_peers f s : useable env iter f s = true → PEER_DECODINGS s ≠ ∅.
Proof.
  unfold useable. destruct f; cbn; intros H; try done; [|apply andb_true_iff in H as [H _]..];
    by apply all_support_spec in H as [? _].
Qed.

(** A hardware format comes with an encoder for it. *)
Lemma useable_encoder f s : f = H264 ∨ f = H265 → useable env iter f s = true →
  is_Some (encoder_try_get env f s).
Proof.
  intros [-> | ->] [_ H]%andb_true_iff; apply bool_decide_eq_true in H as [n Hn]; unfold hw_encoding in Hn;
    (destruct (_ && _) in Hn; [|done]); apply fmap_Some in Hn as (c & -> & _); by eexists.
Qed.

(** Only a preference that can be met is counted. *)
Lemma counted_cases s p : counted env iter s p = true →
  ∃ f, p = prefer_value f ∧ f ≠ Unknown ∧ (f = VP9 ∨ useable env iter f s = true).
Proof.
  unfold counted. rewrite !orb_true_iff, !andb_true_iff, !Z.eqb_eq.
  intros [[[[->|[-> H]]|[-> H]]|[-> H]]|[-> H]]; [exists VP9|exists VP8|exists AV1|exists H264|exists H265]; auto.
Qed.

Lemma useable_hw f ability s : (f = H264 ∧ ability = ability_h264) ∨ (f = H265 ∧ ability = ability_h265) →
  useable env iter f s = true → bool_decide (is_Some (hw_encoding env iter f ability s)) = true.
Proof. by intros [[-> ->]|[-> ->]] [_ H]%andb_true_iff. Qed.

Lemma auto_cases s : auto_codec env iter s = VP9 ∨ useable env iter (auto_codec env iter s) s = true.
Proof.
  unfold auto_codec. set (u f := useable env iter f s).
  change (useable env iter VP8 s) with (u VP8). change (useable env iter AV1 s) with (u AV1).
  change (useable env iter H264 s) with (u H264). change (useable env iter H265 s) with (u H265).
  destruct (u H265) eqn:E5; [by right|]. destruct (u H264) eqn:E4; [by right|].
  destruct (u AV1) eqn:E1, (negb _); cbn [andb]; destruct (u VP8) eqn:E8; cbn; repeat case_match; auto.
Qed.

Lemma preferences_elem s p : p ∈ preferences env iter s ↔
  counted env iter s p = true ∧ p ∈ prefer <$> (map_to_list (PEER_DECODINGS s)).*2.
Proof.
  unfold preferences. rewrite list_elem_of_In, filter_In, <- list_elem_of_In, <- list_fmap_compose.
  unfold compose. change (List.map ?f ?l) with (f <$> l). rewrite iter_perm. tauto.
Qed.

Lemma votes_preferences s p : counted env iter s p = true →
  votes p (preferences env iter s) = votes p (prefer <$> (map_to_list (PEER_DECODINGS s)).*2).
Proof.
  intros Hc. unfold votes. f_equal. rewrite <- list_fmap_compose.
  transitivity (count_occ Z.eq_dec ((prefer ∘ snd) <$> iter (PEER_DECODINGS s)) p).
  - unfold preferences. change (List.map ?f ?l) with (f <$> l). induction (iter _) as [|[i d] l IH]; [done|].
    cbn. destruct (counted env iter s (prefer d)) eqn:E; cbn; destruct (Z.eq_dec (prefer d) p) as [<-|];
      rewrite ?IH; unfold compose; congruence.
  - apply Permutation_count_occ. by rewrite iter_perm.
Qed.

(** The chosen format: what most of those want whose wish can be met. *)
Lemma choose_spec s : let f := choose env iter s in
  (f = VP9 ∨ useable env iter f s = true)
  ∧ (preferences env iter s ≠ [] → f ≠ Unknown ∧ prefer_value f = most_frequent (preferences env iter s)).
Proof.
  unfold choose. destruct (decide (preferences env iter s = [])) as [->|Hne].
  { split; [apply auto_cases|done]. }
  destruct (most_frequent_spec _ Hne) as [Hin _]. apply preferences_elem in Hin as [Hc _].
  apply counted_cases in Hc as (g & Hg & Hk & Hu). rewrite Hg, prefer_of_value_of. cbn zeta.
  destruct g; try done; destruct Hu as [?|Hu]; try done; try (by auto);
    (rewrite (useable_hw H264 ability_h264 s) || rewrite (useable_hw H265 ability_h265 s)); auto.
Qed.

(** C29: one format for everybody.  After any change of what the peers say, the format
    is VP9 or one that every peer declared and that the host can encode; and if a
    format that can be used is wanted by more peers than any other that can be used,
    it is the one, in whatever order the table of the peers is read. *)
Theorem format_negotiated u s :
  let s' := update env iter u s in let f := ENCODE_CODEC_FORMAT s' in
  (f = VP9 ∨ ∀ id d, PEER_DECODINGS s' !! id = Some d → can_decode f d)
  ∧ (f = H264 ∨ f = H265 → is_Some (encoder_try_get env f s'))
  ∧ (∀ g, counted env iter s' (prefer_value g) = true →
       (0 < votes_for g s')%Z →
       (∀ h, h ≠ g → counted env iter s' (prefer_value h) = true → (votes_for h s' < votes_for g s')%Z) → f = g).
Proof.
  set (s1 := s <| PEER_DECODINGS := update_decodings u (PEER_DECODINGS s) |>).
  intros s' f. destruct (choose_spec s1) as [H1 H2].
  assert (f = choose env iter s1) as Ef by done. rewrite Ef. clear Ef f.
  split_and!; [|intros Hf; destruct H1 as [E|H1]; [rewrite E in Hf; naive_solver|by apply (useable_encoder _ s1)]|].
  - destruct H1 as [H1|H1]; [by left|right]. exact (useable_decodes _ s1 H1).
  - intros g Hg Hv Hmax. change (counted env iter s1 (prefer_value g) = true) in Hg.
    assert (prefer_value g ∈ preferences env iter s1) as Hin.
    { apply preferences_elem. split; [exact Hg|]. by apply votes_pos. }
    assert (preferences env iter s1 ≠ []) as Hne by (intros E; rewrite E in Hin; set_solver).
    destruct (H2 Hne) as [Hk Hp]. destruct (most_frequent_spec _ Hne) as [Hmin Hmost].
    destruct (decide (choose env iter s1 = g)) as [|Hng]; [done|]. exfalso.
    rewrite <- Hp in Hmin, Hmost. apply preferences_elem in Hmin as [Hc _].
    specialize (Hmax _ Hng Hc). specialize (Hmost (prefer_value g)).
    rewrite !votes_preferences in Hmost by done. unfold votes_for in Hmax.
    change (PEER_DECODINGS s') with (PEER_DECODINGS s1) in Hmax. lia.
Qed.

Lemma format_negotiated_cases u s : let s' := update env iter u s in
  ENCODE_CODEC_FORMAT s' = VP9 ∨ ∀ id d, PEER_DECODINGS s' !! id = Some d → can_decode (ENCODE_CODEC_FORMAT s') d.
Proof.
  intros s'. destruct (choose_spec (s <| PEER_DECODINGS := update_decodings u (PEER_DECODINGS s) |>)) as [[H|H] _]; [by left|right].
  exact (useable_decodes _ _ H).
Qed.

(** A format given up by a peer stays out of use, except VP9. *)
Lemma marked_format_given_up u s id d f :
  PEER_DECODINGS (update env iter u s) !! id = Some d → ability_of f d = 0%Z → f ≠ VP9 →
  ENCODE_CODEC_FORMAT (update env iter u s) ≠ f.
Proof.
  intros Hd Hf H9 E. set (s1 := s <| PEER_DECODINGS := update_decodings u (PEER_DECODINGS s) |>).
  change (choose env iter s1 = f) in E. destruct (choose_spec s1) as [[H|H] _]; [congruence|]. rewrite E in H.
  pose proof (useable_decodes f s1 H id d Hd) as Hc. unfold can_decode in Hc. lia.
Qed.

Lemma update_shape u s :
  ENCODE_CODEC_FORMAT (update env iter u s) = choose env iter (s <| PEER_DECODINGS := update_decodings u (PEER_DECODINGS s) |>).
Proof. done. Qed.

(** Without peers it is VP9. *)
Lemma nobody_vp9 s : PEER_DECODINGS s = ∅ → choose env iter s = VP9.
Proof. intros E. destruct (choose_spec s) as [[?|H] _]; [done|]. by apply useable_peers in H. Qed.

End Choice.

(** ** What a peer declares *)

Lemma forbid_keeps f g d : ability_of f d = 0%Z → ability_of f (forbid d g) = 0%Z.
Proof. by destruct f, g. Qed.
Lemma forbid_foldl f l d : f ∈ l ∨ ability_of f d = 0%Z → ability_of f (foldl forbid d l) = 0%Z.
Proof.
  revert d; induction l as [|g l IH]; intros d H; cbn; [set_solver|]. apply IH.
  destruct H as [[->|H]%elem_of_cons|H]; [right; by destruct g|by left|right; by apply forbid_keeps].
Qed.

(** What was marked is not declared. *)
Lemma marked_not_declared env id options marks s f :
  f ∈ marks → ability_of f (supported_decodings env id options marks s) = 0%Z.
Proof. intros H. unfold supported_decodings. destruct (preference id options). apply forbid_foldl. by left. Qed.

(** The abilities are bits. *)
Lemma ability_bit env id options marks s f :
  (0 <= ability_of f (supported_decodings env id options marks s) <= 1)%Z.
Proof.
  unfold supported_decodings. destruct (preference id options) as [p c].
  set (d := mkDecoding _ _ _ _ _ _ _ _).
  assert (0 <= ability_of f d <= 1)%Z as H by (destruct f; cbn; repeat case_match; lia).
  clearbody d. revert d H. induction marks as [|g marks IH]; intros d H; cbn; [done|].
  apply IH. destruct f, g; cbn in *; lia.
Qed.

(** ** Parameters of the encoders *)

Lemma q_mix_below : forallb (λ b, let q1 := Zclamp 0 36 (q_mix b 36 0) in let q2 := Zclamp 37 56 (q_mix b 56 37) in
    let a1 := Zclamp 5 24 (q_mix b 24 5) in let a2 := Zclamp 25 45 (q_mix b 45 25) in
    (q1 <? q2)%Z && (a1 <? a2)%Z && (q_mix b 36 0 <=? 36)%Z && (q_mix b 56 37 <=? 56)%Z)
  (seqZ 0 201) = true.
Proof. vm_compute. reflexivity. Qed.

Lemma f32_to_u32_nonneg x : (0 <= f32_to_u32 x)%Z.
Proof. unfold f32_to_u32, Zclamp. repeat case_match; lia. Qed.

(** The quantizers are ordered and within what the libraries take, for every ratio
    (not a number included). *)
Lemma quantizers_ordered r :
  (0 <= (vpx_calc_q_values r).1 < (vpx_calc_q_values r).2 ∧ (vpx_calc_q_values r).2 <= 63
   ∧ 0 <= (aom_calc_q_values r).1 < (aom_calc_q_values r).2 ∧ (aom_calc_q_values r).2 <= 63)%Z.
Proof.
  pose proof q_mix_below as Hall. rewrite forallb_forall in Hall.
  unfold vpx_calc_q_values, aom_calc_q_values, q_values. cbn [fst snd].
  set (b := Z.min _ _). assert (In b (seqZ 0 201)) as Hb.
  { apply list_elem_of_In, elem_of_seqZ. pose proof (f32_to_u32_nonneg (f32_mul r (f32_of_Z 100))). unfold b. lia. }
  specialize (Hall b Hb). cbv zeta in Hall. rewrite !andb_true_iff, !Z.ltb_lt in Hall.
  destruct Hall as [[[H1 H2] _] _]. unfold Zclamp in *. lia.
Qed.

Lemma codec_thread_num_bounds idle max memory limit : (1 <= limit)%Z →
  (1 <= codec_thread_num idle max memory limit <= Z.min 64 limit)%Z.
Proof. intros H. unfold codec_thread_num. repeat case_match; lia. Qed.

(** ** What goes wrong *)

Definition sample_h264 : CodecInfo := {| ci_name := "h264_vaapi"; ci_mc_name := None |}.
Definition named (f : CodecFormat) (c : CodecInfo) : bool :=
  bool_decide (cfg_format (HWRAM (ci_name c) None 0 0 (f32_of_Z 0) None) = f).
Definition sample_codec_env (option : string → string) (memory : Z) : CodecEnv := {|
  cfg_hwcodec := true; pointer_size := 8; cfg_option := option; total_memory := memory;
  prioritized := λ l, {| ci_h264 := List.find (named H264) l; ci_h265 := List.find (named H265) l |};
  soft := {| ci_h264 := Some sample_h264; ci_h265 := None |}
|}.
Definition sample_codec_state : CodecState :=
  mkCodecState ∅ VP9 None (Some (mkHwConfig [sample_h264] [])).
Definition slow_av1 (o : string) : string := if String.eqb o "av1-test" then "N" else "".

(** A peer that cannot decode VP9, and says so, is sent VP9 when nothing else was
    asked for, although VP8 can be used: [ability_vp9] is never read. *)
Lemma vp9_not_asked_for :
  let env := sample_codec_env slow_av1 (2 ^ 34) in
  let d := supported_decodings env (Some "1") (λ _, ∅) [VP9; H264] sample_codec_state in
  let s := update env map_to_list (Update 1 d) sample_codec_state in
  ability_vp9 d = 0%Z ∧ useable env map_to_list VP8 s = true ∧ ENCODE_CODEC_FORMAT s = VP9.
Proof. vm_compute. done. Qed.

(** Between two formats with as many votes the order of the hash table decides. *)
Lemma tie_depends_on_table :
  let env := sample_codec_env (λ _, "") (2 ^ 34) in
  let like v := mkDecoding 1 0 0 v 1 1 None 0 in
  let s0 := update env map_to_list (Update 1 (like 1%Z)) sample_codec_state in
  ENCODE_CODEC_FORMAT (update env map_to_list (Update 2 (like 4%Z)) s0)
  ≠ ENCODE_CODEC_FORMAT (update env (λ m, rev (map_to_list m)) (Update 2 (like 4%Z)) s0).
Proof. vm_compute. done. Qed.

Lemma format_negotiated_witness :
  let env := sample_codec_env (λ _, "") (2 ^ 34) in
  let s0 := update env map_to_list (Update 1 (mkDecoding 1 1 0 2 1 1 None 0)) sample_codec_state in
  ENCODE_CODEC_FORMAT s0 = H264
  ∧ let s' := update env map_to_list (NewOnlyVP9 2) s0 in
    (ENCODE_CODEC_FORMAT s' = VP9 ∨ ∀ id d, PEER_DECODINGS s' !! id = Some d → can_decode (ENCODE_CODEC_FORMAT s') d)
    ∧ (ENCODE_CODEC_FORMAT s' = H264 ∨ ENCODE_CODEC_FORMAT s' = H265 → is_Some (encoder_try_get env (ENCODE_CODEC_FORMAT s') s'))
    ∧ (∀ g, counted env map_to_list s' (prefer_value g) = true → (0 < votes_for g s')%Z →
         (∀ h, h ≠ g → counted env map_to_list s' (prefer_value h) = true → (votes_for h s' < votes_for g s')%Z) →
         ENCODE_CODEC_FORMAT s' = g).
Proof.
  intros env s0. split; [vm_compute; reflexivity|].
  exact (format_negotiated env map_to_list (λ m, reflexivity _) (NewOnlyVP9 2) s0).
Defined.
