(* ===== verification/Displays.v ===== *)
(** * What the host tells of its displays

    [src/server/display_service.rs] on Linux under X11: the list of displays the peers
    see ([SYNC_DISPLAYS]), the service that sends it when it changed, and what the
    video services ask of it.

    The loop of the service ([run]) is split where it lets go of a lock, so that a
    connection may subscribe, and another thread read the displays anew, between any
    two of its steps.  A peer gets the list first with the answer to its login, and
    subscribes later.  Only Windows sets [TEMP_IGNORE_DISPLAYS_CHANGED]; it is left out. *)

From S2P Require Import Prelude Strs Services.
From Stdlib Require Import Ascii String.
From stdpp Require Import sets.

Local Open Scope string_scope.
#[local] Abbreviation length := Datatypes.length.
#[local] Arguments String.append _ _ : simpl nomatch.

(** A display of the system, [scrap::Display]. *)
Record Display := {
  dp_origin : Z * Z; dp_width : Z; dp_height : Z; dp_name : string; dp_online : bool; dp_primary : bool
}.
Record DisplayInfo := mkDisplayInfo {
  di_x : Z; di_y : Z; di_width : Z; di_height : Z; di_name : string; di_online : bool; di_original : Z * Z
}.
#[global] Instance DisplayInfo_eq_dec : EqDecision DisplayInfo. Proof. solve_decision. Defined.

(** [SyncDisplaysInfo]. *)
Record SyncDisplaysInfo := mkSync { sync_displays : list DisplayInfo; is_synced : bool }.
Definition sync_default : SyncDisplaysInfo := mkSync [] false.

(** The loop stops at the first display that differs. *)
Fixpoint differs (new old : list DisplayInfo) : bool :=
  match new, old with
  | d :: new, e :: old => negb (bool_decide (d = e)) || differs new old
  | _, _ => false
  end.
Definition check_changed (displays : list DisplayInfo) (s : SyncDisplaysInfo) : SyncDisplaysInfo :=
  if negb (length (sync_displays s) =? length displays)%nat then mkSync displays false
  else if differs displays (sync_displays s) then mkSync displays false
  else s.
Definition get_update_sync_displays (s : SyncDisplaysInfo) : option (list DisplayInfo) * SyncDisplaysInfo :=
  if is_synced s then (None, s) else (Some (sync_displays s), mkSync (sync_displays s) true).

(** [CHANGED_RESOLUTIONS]: the resolution a display had and the one it was given. *)
Definition Resolutions : Type := gmap string ((Z * Z) * (Z * Z)).

Definition set_last_changed_resolution (name : string) (original changed : Z * Z) (r : Resolutions) : Resolutions :=
  match r !! name with
  | Some (o, _) => <[name := (o, changed)]> r
  | None => <[name := (original, changed)]> r
  end.
(** The calls of [change_resolution], and no records left. *)
Definition restore_resolutions (r : Resolutions) : list (string * (Z * Z)) * Resolutions :=
  (map (λ kv, (kv.1, kv.2.1)) (map_to_list r), ∅).
Definition get_original_resolution (r : Resolutions) (name : string) (w h : Z) : Z * Z :=
  match r !! name with Some (original, _) => original | None => (w, h) end.

(** [check_update_displays]: the scale is 1 under X11. *)
Definition display_info (r : Resolutions) (d : Display) : DisplayInfo :=
  mkDisplayInfo (dp_origin d).1 (dp_origin d).2 (dp_width d) (dp_height d) (dp_name d) (dp_online d)
    (get_original_resolution r (dp_name d) (dp_width d) (dp_height d)).
Definition check_update_displays (r : Resolutions) (all : list Display) (s : SyncDisplaysInfo) : SyncDisplaysInfo :=
  check_changed (map (display_info r) all) s.

(** [check_displays_changed]; [all] is what [Display::all] answers. *)
Definition check_displays_changed (r : Resolutions) (all : result string (list Display)) (s : SyncDisplaysInfo)
    : result string unit * SyncDisplaysInfo :=
  match all with
  | Ok all => (Ok tt, check_update_displays r all s)
  | Err e => (Err e, s)
  end.
Definition update_get_sync_displays_on_login (r : Resolutions) (all : result string (list Display)) (s : SyncDisplaysInfo)
    : result string (list DisplayInfo) * SyncDisplaysInfo :=
  match all with
  | Ok all => let s := check_update_displays r all s in (Ok (sync_displays s), s)
  | Err e => (Err e, s)
  end.

Definition get_display_info (idx : Z) (s : SyncDisplaysInfo) : option DisplayInfo :=
  if (idx <? 0)%Z then None else sync_displays s !! Z.to_nat idx.

Definition get_primary_2 (all : list Display) : Z :=
  match list_find (λ d, dp_primary d = true) all with Some (i, _) => Z.of_nat i | None => 0 end.
Definition get_primary (all : result string (list Display)) : Z :=
  match all with Ok all => get_primary_2 all | Err _ => 0 end.

(** [check_display_changed]: the display a capturer captures, if it is no longer what
    the capturer was made for; sizes are compared as [i32]. *)
Definition check_display_changed (ndisplay idx : Z) (xywh : Z * Z * Z * Z) (s : SyncDisplaysInfo) : option DisplayInfo :=
  let '(x, y, w, h) := xywh in
  match get_display_info idx s with
  | None => None
  | Some d =>
      if negb (ndisplay =? Z.of_nat (length (sync_displays s)))%Z then Some d
      else if negb ((di_x d =? x) && (di_y d =? y) && (di_width d =? swrap 32 w) && (di_height d =? swrap 32 h))%Z
      then Some d else None
  end.

(** ** The service *)

(** Where [run] is: outside of its loop; at its head; in [snapshot], before the callback
    and before the swap (with what the callback answered: [true] is an error); at the
    reading of the displays; with a message to send. *)
Inductive DisplayAt :=
| DaRest | DaTop | DaCallback | DaSwap (failed : bool) | DaGet | DaSend (displays : list DisplayInfo).

Record DisplayWorld := mkDisplayWorld {
  dw_svc : ServiceInner;
  dw_at : DisplayAt;
  dw_sync : SyncDisplaysInfo;
  dw_changed : Resolutions;
  dw_sent : list (list DisplayInfo * gset Z)
}.
#[global] Instance eta_DisplayWorld : Settable DisplayWorld := λ w,
  mkDisplayWorld (dw_svc w) (dw_at w) (dw_sync w) (dw_changed w) (dw_sent w).
Definition display_world_new : DisplayWorld := mkDisplayWorld (service_new "display" true) DaRest sync_default ∅ [].

Inductive DisplayStep :=
| DsLogin (id : Z) (all : result string (list Display))   (* the answer to a login *)
| DsSubscribe (id : Z)
| DsUnsubscribe (id : Z)
| DsElsewhere (all : list Display)                   (* another thread reads the displays *)
| DsResolution (name : string) (original changed : Z * Z)
| DsRestore
| DsTurn (all : result string (list Display)).       (* the service goes on by one step *)

Definition display_turn (all : result string (list Display)) (w : DisplayWorld) : DisplayWorld :=
  let svc := dw_svc w in
  match dw_at w with
  | DaRest => if ok svc then w <| dw_at := DaTop |> else w
  | DaTop =>
      if negb (ok svc) then w <| dw_at := DaRest |>
      else if bool_decide (new_subscribes svc = ∅) then w <| dw_at := DaGet |>
      else w <| dw_at := DaCallback |>
  | DaCallback =>
      if swap_has_subscribes svc
      then w <| dw_sync := mkSync (sync_displays (dw_sync w)) false |> <| dw_at := DaSwap true |>
      else w <| dw_at := DaSwap false |>
  | DaSwap failed => w <| dw_svc := swap_new_subscribes svc |> <| dw_at := if failed then DaRest else DaGet |>
  | DaGet =>
      match check_displays_changed (dw_changed w) all (dw_sync w) with
      | (Err _, _) => w <| dw_at := DaTop |>
      | (Ok _, s) =>
          match get_update_sync_displays s with
          | (Some displays, s) => w <| dw_sync := s |> <| dw_at := DaSend displays |>
          | (None, s) => w <| dw_sync := s |> <| dw_at := DaTop |>
          end
      end
  | DaSend displays =>
      w <| dw_sent := (dw_sent w ++ [(displays, send_shared svc)])%list |> <| dw_at := DaTop |>
  end.

Definition display_step (x : DisplayStep) (w : DisplayWorld) : DisplayWorld :=
  match x with
  | DsLogin id all =>
      match update_get_sync_displays_on_login (dw_changed w) all (dw_sync w) with
      | (Ok displays, s) => w <| dw_sync := s |> <| dw_sent := (dw_sent w ++ [(displays, {[id]})])%list |>
      | (Err _, s) => w <| dw_sync := s |>
      end
  | DsSubscribe id => w <| dw_svc := on_subscribe id (dw_svc w) |>
  | DsUnsubscribe id => w <| dw_svc := on_unsubscribe id (dw_svc w) |>
  | DsElsewhere all => w <| dw_sync := check_update_displays (dw_changed w) all (dw_sync w) |>
  | DsResolution name original changed =>
      w <| dw_changed := set_last_changed_resolution name original changed (dw_changed w) |>
  | DsRestore => w <| dw_changed := (restore_resolutions (dw_changed w)).2 |>
  | DsTurn all => display_turn all w
  end.
Definition display_run (xs : list DisplayStep) (w : DisplayWorld) : DisplayWorld := foldl (λ w x, display_step x w) w xs.

(** ** Everybody knows the displays *)

(** A peer that subscribes while nobody is subscribed does so when the loop is not
    between [snapshot]'s callback and the end of its turn, and what it was told at its
    login is the list there still is, or the change is marked as not synced; and the
    last subscriber does not leave others waiting. *)
Definition between_turns (a : DisplayAt) : bool :=
  match a with DaRest | DaTop | DaCallback => true | DaSwap _ | DaGet | DaSend _ => false end.
Definition patient_step (x : DisplayStep) (w : DisplayWorld) : bool :=
  let svc := dw_svc w in
  match x with
  | DsSubscribe id =>
      negb (bool_decide (subscribes svc = ∅))
      || between_turns (dw_at w)
         && (negb (is_synced (dw_sync w)) || bool_decide (last (received id (dw_sent w)) = Some (sync_displays (dw_sync w))))
  | DsUnsubscribe id =>
      bool_decide (subscribes svc = ∅) || negb (bool_decide (subscribes svc ∖ {[id]} = ∅))
      || bool_decide (new_subscribes svc = ∅)
  | _ => true
  end.
Fixpoint patient (xs : list DisplayStep) (w : DisplayWorld) : bool :=
  match xs with [] => true | x :: xs => patient_step x w && patient xs (display_step x w) end.

Definition told (w : DisplayWorld) (id : Z) (l : list DisplayInfo) : Prop := last (received id (dw_sent w)) = Some l.

Lemma differs_false new old : length new = length old → differs new old = false → new = old.
Proof.
  revert old; induction new as [|d new IH]; intros [|e old]; cbn; try done. intros [= Hl] H.
  apply orb_false_iff in H as [H1 H2]. apply negb_false_iff, bool_decide_eq_true in H1 as ->. f_equal. auto.
Qed.

(** After [check_changed] the list is the new one, and in sync only if it was the same. *)
Lemma check_changed_spec displays s :
  let s' := check_changed displays s in
  sync_displays s' = displays ∧ (is_synced s' = true → s' = s).
Proof.
  unfold check_changed. destruct (Nat.eqb_spec (length (sync_displays s)) (length displays)) as [Hl|]; cbn; [|done].
  destruct (differs displays (sync_displays s)) eqn:E; cbn; [done|].
  apply differs_false in E; [|done]. by subst.
Qed.

Record told_ok (w : DisplayWorld) : Prop := {
  to_snapshot : need_snapshot (dw_svc w) = true;
  to_active : active (dw_svc w) = true;
  to_subs : ∀ id, id ∈ subscribes (dw_svc w) → is_synced (dw_sync w) = true →
            match dw_at w with DaSend l => True | _ => told w id (sync_displays (dw_sync w)) end;
  to_wait : subscribes (dw_svc w) = ∅ → ∀ id, id ∈ new_subscribes (dw_svc w) → is_synced (dw_sync w) = true →
            told w id (sync_displays (dw_sync w));
  to_at : match dw_at w with
          | DaSwap true => is_synced (dw_sync w) = false
          | DaSwap false => subscribes (dw_svc w) = ∅
          | DaGet => subscribes (dw_svc w) = ∅ → new_subscribes (dw_svc w) = ∅
          | DaSend l => (is_synced (dw_sync w) = true → l = sync_displays (dw_sync w))
                        ∧ (subscribes (dw_svc w) = ∅ → new_subscribes (dw_svc w) = ∅)
          | _ => True
          end
}.

Lemma told_ok_new : told_ok display_world_new.
Proof. by split. Qed.

Lemma received_snoc {M} id out (l : M) (X : gset Z) :
  last (received id (out ++ [(l, X)])) = if bool_decide (id ∈ X) then Some l else last (received id out).
Proof. rewrite received_app. cbn. case_bool_decide; cbn; [by rewrite last_snoc|by rewrite app_nil_r]. Qed.

Lemma no_subscribers svc : has_subscribes svc = false → subscribes svc = ∅ ∧ new_subscribes svc = ∅.
Proof.
  unfold has_subscribes. rewrite orb_false_iff, !negb_false_iff, !bool_decide_eq_true. done.
Qed.

Lemma display_turn_ok all w : told_ok w → told_ok (display_turn all w).
Proof.
  intros [H1 H2 H3 H5 H4]. unfold display_turn. destruct w as [svc at_ sync ch sent]; cbn in *.
  destruct at_ as [| | |failed| |l]; cbn.
  - destruct (ok svc); by split.
  - destruct (ok svc); cbn; [case_bool_decide as En|]; split; cbn; auto.
  - unfold swap_has_subscribes. case_bool_decide as Es; cbn; split; cbn; auto; try done; intros; congruence.
  - destruct failed.
    + split; cbn; try done. intros. congruence.
    + split; cbn; try done.
      intros id Hid Hs. apply H5; [done| |done]. rewrite H4 in Hid. set_solver.
  - unfold check_displays_changed, check_update_displays. destruct all as [all|e]; cbn; [|by split].
    pose proof (check_changed_spec (map (display_info ch) all) sync) as [E1 E2].
    set (sync' := check_changed _ sync) in *. unfold get_update_sync_displays.
    destruct (is_synced sync') eqn:Es; cbn; split; cbn; try done.
    + intros id Hid Hs. rewrite E2 in Hs |- * by done. by apply H3.
    + intros E id Hid Hs. rewrite E2 in Hs |- * by done. by apply H5.
    + intros E id Hid. rewrite (H4 E) in Hid. set_solver.
  - destruct H4 as [H4 H6]. split; cbn; try done.
    + intros id Hid Hs. rewrite <- (H4 Hs). change (last (received id (sent ++ [(l, send_shared svc)])) = Some l).
      rewrite received_snoc. unfold send_shared. by rewrite bool_decide_true.
    + intros E id Hid. rewrite (H6 E) in Hid. set_solver.
Qed.

(** Who reads the displays anew leaves those told alone, or marks a change. *)
Lemma reread_ok all w out : told_ok w →
  let s := check_update_displays (dw_changed w) all (dw_sync w) in
  (∀ id, last (received id out) = last (received id (dw_sent w)) ∨ last (received id out) = Some (sync_displays s)) →
  told_ok (w <| dw_sync := s |> <| dw_sent := out |>).
Proof.
  intros [H1 H2 H3 H5 H4]. destruct w as [svc at_ sync ch sent]; cbn in *.
  pose proof (check_changed_spec (map (display_info ch) all) sync) as [E1 E2]. cbv zeta in E1, E2.
  unfold check_update_displays. set (sync' := check_changed _ sync) in *. clearbody sync'. intros Hout.
  assert (is_synced sync' = true → ∀ id, last (received id sent) = Some (sync_displays sync) →
          last (received id out) = Some (sync_displays sync')) as Hkeep.
  { intros Hs id Hid. destruct (Hout id) as [-> | ->]; [by rewrite E2|done]. }
  split; cbn; try done.
  - intros id Hid Hs. pose proof Hs as Hs'. rewrite E2 in Hs' by done. specialize (H3 id Hid Hs').
    destruct at_; try done; by apply Hkeep.
  - intros E id Hid Hs. pose proof Hs as Hs'. rewrite E2 in Hs' by done. apply Hkeep; [done|]. by apply H5.
  - destruct at_ as [| | |[]| |]; try done.
    + destruct (is_synced sync') eqn:Es; [|done]. rewrite E2 in Es by done. congruence.
    + destruct H4 as [H4 H6]. split; [|done]. intros Hs. rewrite E2 in Hs |- * by done. by apply H4.
Qed.

Lemma display_step_ok x w : told_ok w → patient_step x w = true → told_ok (display_step x w).
Proof.
  intros Hw Hp. destruct x as [id all|id|id|all|n o c| |all]; cbn; [| | | | | |by apply display_turn_ok].
  - unfold update_get_sync_displays_on_login. destruct all as [all|e]; [|by destruct Hw, w].
    apply (reread_ok all); [done|]. intros i. rewrite received_snoc. case_bool_decide; auto.
  - destruct Hw as [H1 H2 H3 H5 H4]. unfold on_subscribe. case_bool_decide as Hin; [by split|]. rewrite H1.
    destruct w as [svc at_ sync ch sent]; cbn in *. apply orb_true_iff in Hp.
    assert (subscribes svc = ∅ → between_turns at_ = true ∧ (is_synced sync = true → last (received id sent) = Some (sync_displays sync))) as Hlaw.
    { intros E. destruct Hp as [Hp|Hp]; [by rewrite bool_decide_true in Hp|]. apply andb_true_iff in Hp as [P1 P2]. split; [done|].
      intros Hs. rewrite Hs in P2. by apply bool_decide_eq_true in P2. }
    split; cbn; try done.
    + intros E i Hi Hs. destruct (Hlaw E) as [_ Hl]. destruct (decide (i = id)) as [->|]; [by apply Hl|].
      apply H5; [done|set_solver|done].
    + destruct at_ as [| | |[]| |]; try done.
      * intros E. by destruct (Hlaw E).
      * split; [apply H4|]. intros E. by destruct (Hlaw E).
  - destruct Hw as [H1 H2 H3 H5 H4]. destruct w as [svc at_ sync ch sent]; cbn in *.
    rewrite !orb_true_iff, negb_true_iff, !bool_decide_eq_true, bool_decide_eq_false in Hp.
    unfold on_unsubscribe. case_bool_decide as Hin; split; cbn; try done.
    + intros i Hi. apply H3. set_solver.
    + intros E i Hi. destruct Hp as [[Hp|Hp]|Hp]; [set_solver|done|set_solver].
    + destruct at_ as [| | |[]| |]; try done; [set_solver|set_solver|]. destruct H4 as [H4 H6]. split; [done|]. set_solver.
    + intros E i Hi. apply H5; [done|set_solver].
    + destruct at_ as [| | |[]| |]; try done; [set_solver|]. destruct H4 as [H4 H6]. split; [done|]. set_solver.
  - pose proof (reread_ok all w (dw_sent w) Hw (λ i, or_introl eq_refl)) as H. by destruct w.
  - by destruct Hw.
  - by destruct Hw.
Qed.

Lemma display_run_ok xs w : told_ok w → patient xs w = true → told_ok (display_run xs w).
Proof.
  revert w; induction xs as [|x xs IH]; intros w Hw Hp; [done|]. cbn in Hp. apply andb_true_iff in Hp as [H1 H2].
  cbn. apply IH; [by apply display_step_ok|done].
Qed.

(** The loop at work, with nothing new to tell. *)
Definition steady (svc : ServiceInner) (l : list DisplayInfo) (w : DisplayWorld) : Prop :=
  dw_svc w = svc ∧ dw_sync w = mkSync l true ∧ (dw_at w = DaTop ∨ dw_at w = DaGet).

Lemma check_changed_same l b : check_changed l (mkSync l b) = mkSync l b.
Proof.
  unfold check_changed. cbn. rewrite Nat.eqb_refl. cbn.
  assert (differs l l = false) as ->; [|done]. induction l as [|d l IH]; cbn; [done|]. by rewrite bool_decide_true, IH.
Qed.

Lemma steady_turn svc l all w : ok svc = true → new_subscribes svc = ∅ → l = map (display_info (dw_changed w)) all →
  steady svc l w → let w' := display_turn (Ok all) w in steady svc l w' ∧ dw_changed w' = dw_changed w.
Proof.
  intros Hok Hn -> (E1 & E2 & E3). destruct w as [svc' at_ sync ch sent]; cbn in *. subst svc' sync.
  unfold display_turn, check_update_displays. cbn. destruct E3 as [-> | ->].
  - rewrite Hok, Hn. unfold steady. cbn. auto.
  - unfold check_update_displays. rewrite check_changed_same. unfold steady. cbn. auto.
Qed.

Lemma steady_turns svc l all n w : ok svc = true → new_subscribes svc = ∅ → l = map (display_info (dw_changed w)) all →
  steady svc l w → steady svc l (display_run (replicate n (DsTurn (Ok all))) w).
Proof.
  intros Hok Hn. revert w; induction n as [|n IH]; intros w Hl Hs; [done|]. cbn.
  destruct (steady_turn svc l all w Hok Hn Hl Hs) as [H1 H2]. apply IH; [by rewrite H2|done].
Qed.

Lemma turns_changed xs w : Forall (λ x, ∃ all, x = DsTurn all) xs → dw_changed (display_run xs w) = dw_changed w.
Proof.
  intros H. revert w. induction H as [|x xs [all ->] _ IH]; intros w; [done|].
  change (dw_changed (display_run xs (display_turn all w)) = dw_changed w). rewrite IH.
  unfold display_turn. repeat case_match; done.
Qed.

Lemma patient_turns xs w : Forall (λ x, ∃ all, x = DsTurn all) xs → patient xs w = true.
Proof. intros H. revert w. induction H as [|x xs [all ->] _ IH]; intros w; [done|]. cbn. apply IH. Qed.

Lemma turns_only all n : Forall (λ x, ∃ all, x = DsTurn all) (replicate n (DsTurn all)).
Proof. apply Forall_replicate. by exists all. Qed.

(** From the reading of the displays, without new subscribers, two turns suffice. *)
Lemma get_steady svc all sync ch sent : ok svc = true → new_subscribes svc = ∅ →
  steady svc (map (display_info ch) all) (display_run (replicate 2 (DsTurn (Ok all))) (mkDisplayWorld svc DaGet sync ch sent)).
Proof.
  intros Hok Hn. cbn [replicate display_run foldl display_step]. unfold display_turn at 2. cbn. unfold check_update_displays.
  pose proof (check_changed_spec (map (display_info ch) all) sync) as [E1 E2].
  destruct (check_changed _ sync) as [l b] eqn:Ec. cbn in E1. subst l. unfold get_update_sync_displays. cbn.
  destruct b; cbn; [|unfold steady; cbn; auto].
  unfold display_turn. cbn. rewrite Hok, Hn. unfold steady. cbn. auto.
Qed.

Lemma ok_swap svc : ok svc = true → ok (swap_new_subscribes svc) = true.
Proof.
  unfold ok. rewrite !andb_true_iff. intros [Ha Hs]. split; [done|]. unfold has_subscribes in *.
  apply orb_true_iff in Hs. apply orb_true_iff. left. cbn. apply negb_true_iff, bool_decide_eq_false.
  destruct Hs as [Hs|Hs]; apply negb_true_iff, bool_decide_eq_false in Hs; set_solver.
Qed.

(** The steps of the loop, one by one. *)
Lemma turn_rest svc all sync ch sent : ok svc = true →
  display_turn (Ok all) (mkDisplayWorld svc DaRest sync ch sent) = mkDisplayWorld svc DaTop sync ch sent.
Proof. intros Hok. unfold display_turn. cbn. by rewrite Hok. Qed.
Lemma turn_top_new svc all sync ch sent : ok svc = true → new_subscribes svc ≠ ∅ →
  display_turn (Ok all) (mkDisplayWorld svc DaTop sync ch sent) = mkDisplayWorld svc DaCallback sync ch sent.
Proof. intros Hok Hn. unfold display_turn. cbn. rewrite Hok. cbn. by rewrite bool_decide_false. Qed.
Lemma turn_top_old svc all sync ch sent : ok svc = true → new_subscribes svc = ∅ →
  display_turn (Ok all) (mkDisplayWorld svc DaTop sync ch sent) = mkDisplayWorld svc DaGet sync ch sent.
Proof. intros Hok Hn. unfold display_turn. cbn. rewrite Hok. cbn. by rewrite bool_decide_true. Qed.
Lemma turn_callback svc all sync ch sent :
  display_turn (Ok all) (mkDisplayWorld svc DaCallback sync ch sent)
  = if swap_has_subscribes svc
    then mkDisplayWorld svc (DaSwap true) (mkSync (sync_displays sync) false) ch sent
    else mkDisplayWorld svc (DaSwap false) sync ch sent.
Proof. done. Qed.
Lemma turn_swap svc failed all sync ch sent :
  display_turn (Ok all) (mkDisplayWorld svc (DaSwap failed) sync ch sent)
  = mkDisplayWorld (swap_new_subscribes svc) (if failed then DaRest else DaGet) sync ch sent.
Proof. done. Qed.

(** A subscriber that waits beside others is let in by a restart of the loop; one that
    waits alone without. *)
Lemma rest_to_get svc all sync ch sent : ok svc = true →
  ∃ k sync', (k <= 6)%nat ∧
    display_run (replicate k (DsTurn (Ok all))) (mkDisplayWorld svc DaRest sync ch sent)
    = mkDisplayWorld (swap_new_subscribes svc) DaGet sync' ch sent.
Proof.
  intros Hok. destruct (decide (new_subscribes svc = ∅)) as [Hn|Hn].
  { exists 2%nat, sync. split; [lia|]. cbn [replicate display_run foldl display_step].
    rewrite turn_rest, turn_top_old by done. f_equal.
    unfold swap_new_subscribes, upd. destruct svc; cbn in *. subst. by rewrite (right_id_L ∅ (∪)). }
  destruct (swap_has_subscribes svc) eqn:Es.
  - exists 6%nat, (mkSync (sync_displays sync) false). split; [lia|].
    cbn [replicate display_run foldl display_step].
    rewrite turn_rest, turn_top_new, turn_callback, Es, turn_swap by done.
    by rewrite turn_rest, turn_top_old by (done || by apply ok_swap).
  - exists 4%nat, sync. split; [lia|]. cbn [replicate display_run foldl display_step].
    by rewrite turn_rest, turn_top_new, turn_callback, Es, turn_swap by done.
Qed.

Lemma display_run_app xs ys w : display_run (xs ++ ys) w = display_run ys (display_run xs w).
Proof. apply foldl_app. Qed.

Lemma round_steady all w : dw_at w = DaRest → ok (dw_svc w) = true →
  steady (swap_new_subscribes (dw_svc w)) (map (display_info (dw_changed w)) all)
    (display_run (replicate 8 (DsTurn (Ok all))) w).
Proof.
  destruct w as [svc at_ sync ch sent]. intros Hat Hok. change (at_ = DaRest) in Hat. subst at_.
  change (ok svc = true) in Hok. destruct (rest_to_get svc all sync ch sent Hok) as (k & sync' & Hk & Ek).
  assert (∀ x : DisplayStep, replicate 8 x = (replicate k x ++ replicate 2 x ++ replicate (6 - k) x)%list) as ->.
  { intros x. rewrite <- !replicate_add. f_equal. lia. }
  rewrite !display_run_app, Ek.
  pose proof (get_steady (swap_new_subscribes svc) all sync' ch sent (ok_swap svc Hok) eq_refl) as Hs.
  apply steady_turns; [by apply ok_swap|done| |exact Hs]. by rewrite turns_changed by apply turns_only.
Qed.


(** ** What goes wrong *)

Definition sample_display : Display :=
  {| dp_origin := (0, 0)%Z; dp_width := 1920; dp_height := 1080; dp_name := "eDP-1"; dp_online := true; dp_primary := true |}.
Definition sample_turns (n : nat) : list DisplayStep := replicate n (DsTurn (Ok [sample_display])).

(** A peer that logs in and subscribes after the only other one has left and before the
    loop has noticed: the loop reads a change of the displays, tells nobody and marks
    it as synced, and the peer keeps the displays of its login. *)
Lemma replacement_untold :
  let other := {| dp_origin := (0, 0)%Z; dp_width := 800; dp_height := 600; dp_name := "eDP-1"; dp_online := true; dp_primary := true |} in
  let xs := ([DsLogin 1 (Ok [sample_display]); DsSubscribe 1] ++ sample_turns 9
             ++ [DsUnsubscribe 1; DsLogin 2 (Ok [sample_display]); DsSubscribe 2]
             ++ replicate 20 (DsTurn (Ok [other])))%list in
  let w := display_run xs display_world_new in
  bool_decide (2 ∈ subscribes (dw_svc w))%Z = true ∧ dw_sync w = mkSync [display_info ∅ other] true
  ∧ received 2 (dw_sent w) = [[display_info ∅ sample_display]].
Proof. vm_compute. done. Qed.

