(* ===== verification/Video.v ===== *)
(** * The pictures of the host

    [src/server/video_service.rs] on Linux under X11: the services that capture the
    displays and cameras, encode what they see and send it to the connections
    subscribed to them, with the thread that runs each of them ([run] of
    [src/server/service.rs]); screenshots; the acknowledgements of frames.

    A service's loop is split where other threads can change what it reads: the format
    all of them share ([Codecs]), their subscribers ([Services]), the controller of the
    quality ([VideoQos]), the displays ([Displays]).  Each phase of the loop is a value
    of [VideoAt] with the local variables of [run].  What the libraries answer
    (capturers, encoders) comes with the step. A frame bears the number of the encoder
    that made it and how many it had made before; both are of the model. *)

From S2P Require Import Prelude Strs F32 VideoQos Options Services Displays Codecs.
From Stdlib Require Import Ascii String FloatOps SpecFloat.
From stdpp Require Import gmap sets.

Local Open Scope string_scope.
#[local] Abbreviation length := Datatypes.length.
#[local] Arguments String.append _ _ : simpl nomatch.

Definition OPTION_REFRESH : string := "refresh".
Definition INVALID_PRIVACY_MODE_CONN_ID : Z := 0.

(** ** Capturers *)

Record CapturerInfo := mkCapturer {
  cap_origin : Z * Z; cap_width : Z; cap_height : Z; cap_ndisplay : Z; cap_current : Z; cap_privacy_mode_id : Z
}.

(** What the system answers to [get_capturer]. *)
Inductive CaptureSource :=
| FromDisplays (all : result string (list Display)) (created : result string unit)
| FromCameras (cameras : list DisplayInfo) (created : result string unit).

Definition get_capturer_monitor (current : Z) (all : result string (list Display)) (created : result string unit)
    (privacy : option Z) : result string CapturerInfo :=
  match all with
  | Err e => Err e
  | Ok displays =>
      match (if (current <? 0)%Z then None else displays !! Z.to_nat current) with
      | None => Err ("Failed to get display " ++ show_Z current ++ ", displays len: " ++ show_Z (Z.of_nat (length displays)))
      | Some d =>
          match created with
          | Err e => Err e
          | Ok _ => Ok (mkCapturer (dp_origin d) (dp_width d) (dp_height d) (Z.of_nat (length displays)) current
                          (default INVALID_PRIVACY_MODE_CONN_ID privacy))
          end
      end
  end.

Definition get_capturer_camera (current : Z) (cameras : list DisplayInfo) (created : result string unit)
    (privacy : option Z) : result string CapturerInfo :=
  match (if (current <? 0)%Z then None else cameras !! Z.to_nat current) with
  | None => Err ("Failed to get camera " ++ show_Z current ++ ", cameras len: " ++ show_Z (Z.of_nat (length cameras)))
  | Some c =>
      match created with
      | Err e => Err e
      | Ok _ => Ok (mkCapturer (di_x c, di_y c) (di_width c) (di_height c) (Z.of_nat (length cameras)) current
                      (default INVALID_PRIVACY_MODE_CONN_ID privacy))
      end
  end.

(** [get_capturer]; the source and the answer belong together. *)
Definition get_capturer (current : Z) (answer : CaptureSource) (privacy : option Z) : result string CapturerInfo :=
  match answer with
  | FromDisplays all created => get_capturer_monitor current all created privacy
  | FromCameras cameras created => get_capturer_camera current cameras created privacy
  end.

(** ** Screenshots *)

Inductive Pixfmt := BGRA | RGBA | RGB565LE.
#[global] Instance Pixfmt_eq_dec : EqDecision Pixfmt. Proof. solve_decision. Defined.
Record PixelBuffer := { pb_data : list Z; pb_pixfmt : Pixfmt; pb_width : nat; pb_height : nat; pb_stride : list nat }.
(** [PixelBuffer::new] of [x11.rs]: the stride is calculated. *)
Definition pixel_buffer_new (data : list Z) (fmt : Pixfmt) (width height : nat) : PixelBuffer :=
  {| pb_data := data; pb_pixfmt := fmt; pb_width := width; pb_height := height; pb_stride := [(length data / height)%nat] |}.

(** One pixel of the second branch of [get_rgba_from_pixelbuf]; [None]: an index is out
    of range, a panic. *)
Definition flip_pixel (data : list Z) (i : nat) : option (list Z) :=
  r ← data !! (i + 2)%nat; g ← data !! (i + 1)%nat; b ← data !! i; a ← data !! (i + 3)%nat; Some [r; g; b; a].

Record Screenshot := { ss_sid : string; ss_tx : Z }.
(** A [ScreenshotResponse]. *)
Record ScreenshotResponse := { sr_sid : string; sr_msg : string; sr_data : list Z }.

(** ** Messages *)

Record EncodedFrame := mkFrame {
  f_display : Z; f_format : CodecFormat; f_key : bool; f_encoder : nat; f_seq : nat
}.
Inductive VideoMsg :=
| VmFrame (f : EncodedFrame)
| VmSwitchDisplay (display : Z) (d : DisplayInfo) (resolutions : list (Z * Z))
| VmPrivacyOnByOther
| VmScreenshot (r : ScreenshotResponse).

(** ** The loop *)

(** The local variables of [run]; [r_yuv]: the buffer is not empty. *)
Record RunState := mkRun {
  r_cap : CapturerInfo; r_cfg : EncoderCfg; r_format : CodecFormat; r_i444 : bool;
  r_quality : f32; r_spf : Z; r_client_record : bool; r_bitrate : Z;
  r_send_counter : Z; r_second_instant : Z; r_last_check : Z;
  r_repeat : nat; r_fail : nat; r_first : bool; r_yuv : bool; r_encoder : nat; r_made : nat
}.
#[global] Instance eta_RunState : Settable RunState := λ r,
  mkRun (r_cap r) (r_cfg r) (r_format r) (r_i444 r) (r_quality r) (r_spf r) (r_client_record r) (r_bitrate r)
    (r_send_counter r) (r_second_instant r) (r_last_check r) (r_repeat r) (r_fail r) (r_first r) (r_yuv r)
    (r_encoder r) (r_made r).

(** What [setup_encoder] needs, and whether it is the second try. *)
Record SetupState := mkSetup {
  s_cap : CapturerInfo; s_cfg : EncoderCfg; s_quality : f32; s_spf : Z; s_record : bool; s_second : bool
}.

(** Outside of [run]; with an encoder's configuration; after [set_fallback]; at the head
    of the loop; before the capture; in [handle_one_frame] before [snapshot], before its
    callback, before its swap (with what the callback answered), before the encoding;
    at the foot of the loop; after an error; after a panic. *)
Inductive VideoAt :=
| AtRest
| AtSetup (s : SetupState)
| AtRead (s : SetupState)
| AtTop (r : RunState)
| AtCapture (r : RunState)
| AtLook (r : RunState)
| AtCallback (r : RunState)
| AtSwap (r : RunState) (failed : bool)
| AtEncode (r : RunState)
| AtBottom (r : RunState)
| AtError
| AtPanic.

Record VideoSvc := mkVideoSvc {
  v_sp : ServiceInner; v_source : VideoSource; v_idx : Z; v_at : VideoAt; v_error_timeout : Z
}.
#[global] Instance eta_VideoSvc : Settable VideoSvc := λ s,
  mkVideoSvc (v_sp s) (v_source s) (v_idx s) (v_at s) (v_error_timeout s).

Record VideoWorld := mkVideoWorld {
  w_svcs : gmap string VideoSvc;                         (* by the name of the service *)
  w_codec : CodecState;
  w_qos : VideoQoS;
  w_sync : SyncDisplaysInfo;
  w_changed : Resolutions;
  w_privacy : option Z;                                  (* [get_privacy_mode_conn_id] *)
  w_notifiers : gmap Z (list (Z * option Z));            (* [FRAME_FETCHED_NOTIFIERS]: their channels *)
  w_conn_ids : gmap Z (gset Z);                          (* [DISPLAY_CONN_IDS] *)
  w_screenshots : gmap Z Screenshot;                     (* [SCREENSHOTS] *)
  w_encoders : nat;
  w_sent : list ((string * VideoMsg) * gset Z)           (* the service, the message and who receives it *)
}.
#[global] Instance eta_VideoWorld : Settable VideoWorld := λ w,
  mkVideoWorld (w_svcs w) (w_codec w) (w_qos w) (w_sync w) (w_changed w) (w_privacy w) (w_notifiers w)
    (w_conn_ids w) (w_screenshots w) (w_encoders w) (w_sent w).

Record VideoEnv := {
  ve_codec : CodecEnv;
  ve_iter : gmap Z SupportedDecoding → list (Z * SupportedDecoding);
  ve_users : gmap Z UserData → list (Z * UserData);
  ve_displays : gmap string DisplayData → list (string * DisplayData);
  ve_resolutions : string → list (Z * Z);                (* of the platform *)
  ve_record_incoming : bool;                             (* "allow-auto-record-incoming" *)
  ve_convert : PixelBuffer → result string (list Z);     (* [scrap::convert] to RGBA *)
  ve_png : Z → Z → list Z → result string (list Z)
}.

(** What a capture gives. *)
Inductive Captured :=
| CapFrame (valid : bool) (pixels : PixelBuffer) (converted : result string unit)
| CapWouldBlock
| CapError (e : string).

Definition ENCODE_NEED_SWITCH : string := "ENCODE_NEED_SWITCH".
Definition SWITCH : string := "SWITCH".

(** What kind of encoder a configuration gives. *)
Definition is_hardware (c : EncoderCfg) : bool := match c with HWRAM _ _ _ _ _ _ => true | _ => false end.
Definition enc_support_changing_quality (c : EncoderCfg) : bool :=
  match c with HWRAM name _ _ _ _ _ => negb (contains_str "vaapi" name) | _ => true end.
Definition latency_free (c : EncoderCfg) : bool :=
  match c with
  | HWRAM name _ _ _ _ _ => negb (contains_str "mediacodec" name) && negb (contains_str "videotoolbox" name)
  | _ => true
  end.
Definition cfg_bitrate (c : EncoderCfg) (ratio : f32) : Z :=
  match c with
  | VPX w h _ _ _ | AOM w h _ _ => vpx_bitrate w h ratio
  | HWRAM name _ w h _ _ => hw_bitrate name w h ratio
  end.
Definition cfg_quality (c : EncoderCfg) : f32 :=
  match c with VPX _ _ q _ _ | AOM _ _ q _ | HWRAM _ _ _ _ q _ => q end.

(** [encoder.set_quality(ratio)] and [encoder.bitrate()] afterwards; [accepted]: the
    library took the new parameters. *)
Definition set_quality (accepted : bool) (c : EncoderCfg) (ratio : f32) (bitrate : Z) : Z :=
  let b := cfg_bitrate c ratio in
  if is_hardware c then if (0 <? b)%Z then b else bitrate
  else if accepted then b else bitrate.

(** ** Who is told that a frame arrived *)

(** [VideoFrameController::set_send], with the set of the turn before. *)
Definition set_send (idx : Z) (before conn_ids : gset Z) (m : gmap Z (gset Z)) : gmap Z (gset Z) :=
  if bool_decide (conn_ids = ∅) || bool_decide (conn_ids = before) then m else <[idx := conn_ids]> m.

Definition notify_video_frame_fetched (idx id : Z) (tm : option Z) (n : gmap Z (list (Z * option Z)))
    : gmap Z (list (Z * option Z)) :=
  alter (λ chan, (chan ++ [(id, tm)])%list) idx n.
Definition notify_video_frame_fetched_by_conn_id (id : Z) (tm : option Z) (conn_ids : gmap Z (gset Z))
    (n : gmap Z (list (Z * option Z))) : gmap Z (list (Z * option Z)) :=
  let idxs := (filter (λ kv : Z * gset Z, id ∈ kv.2) (map_to_list conn_ids)).*1 in
  foldl (λ n idx, notify_video_frame_fetched idx id tm n) n idxs.

Section Video.
Variable env : VideoEnv.

(** [get_rgba_from_pixelbuf]: [None] is a panic. *)
Definition get_rgba_from_pixelbuf (p : PixelBuffer) : option (result string (list Z)) :=
  match pb_stride p with
  | [] => Some (Err "Invalid pixel buf stride.")
  | s :: _ =>
      if (s =? pb_width p * 4)%nat then Some (ve_convert env p)
      else
        rows ← mapM (λ y, mapM (λ x, flip_pixel (pb_data p) (s * y + 4 * x)%nat) (seq 0 (pb_width p))) (seq 0 (pb_height p));
        Some (Ok (concat (concat rows)))
  end.

(** [handle_screenshot]. *)
Definition handle_screenshot (s : Screenshot) (msg : string) (w h : Z) (data : list Z) : ScreenshotResponse :=
  let response msg data := {| sr_sid := ss_sid s; sr_msg := msg; sr_data := data |} in
  if is_empty msg then
    if bool_decide (data = []) then response "Failed to take screenshot, please try again later." []
    else match ve_png env w h data with
         | Ok png => response "" png
         | Err e => response ("Error encoding png: " ++ e) []
         end
  else response msg [].

(** ** Setting up an encoder *)

Definition get_encoder_config (cap : CapturerInfo) (quality : f32) (record : bool) (s : CodecState) : EncoderCfg :=
  let keyframe_interval := Some (if record then 240 else 120)%Z in
  let w := cap_width cap in let h := cap_height cap in
  let vpx id := VPX w h quality id keyframe_interval in
  match negotiated_codec s with
  | (H264 | H265) as f =>
      match (if cfg_hwcodec (ve_codec env) then encoder_try_get (ve_codec env) f s else None) with
      | Some hw => HWRAM (ci_name hw) (ci_mc_name hw) w h quality keyframe_interval
      | None => vpx IdVP9
      end
  | VP8 => vpx IdVP8
  | VP9 => vpx IdVP9
  | AV1 => AOM w h quality keyframe_interval
  | Unknown => vpx IdVP9
  end.

(** ** What the loop asks of the controller of the quality *)

(** [check_qos]: [None] is a panic of the controller. *)
Definition check_qos (now : Z) (name : string) (accepted : bool) (r : RunState) (q : VideoQoS)
    : option (result string RunState * VideoQoS) :=
  s ← spf q;
  let r := r <| r_spf := s |> in
  let '(rt, q) := ratio q in
  let '(res, r, q) :=
    if SFeqb (r_quality r) rt then (Ok tt, r, q)
    else
      let r := r <| r_quality := rt |> in
      if enc_support_changing_quality (r_cfg r) then
        let b := set_quality accepted (r_cfg r) rt (r_bitrate r) in
        (Ok tt, r <| r_bitrate := b |>, store_bitrate b q)
      else if negb (in_vbr_state (ve_displays env) q)
              && negb (match latest_quality (ve_users env) q with Custom _ => true | _ => false end)
      then (Err SWITCH, r, q) else (Ok tt, r, q) in
  match res with
  | Err e => Some (Err e, q)
  | Ok _ =>
      if negb (Bool.eqb (r_client_record r) (record (ve_users env) q)) then Some (Err SWITCH, q)
      else if (10 ^ 9 <? Z.max 0 (now - r_second_instant r))%Z then
        q ← update_display_data (ve_users env) (ve_displays env) name (r_send_counter r) now q;
        Some (Ok (r <| r_second_instant := now |> <| r_send_counter := 0%Z |>), q)
      else Some (Ok r, q)
  end.

(** ** Steps of the loop

    Each acts on the world and the service [s] called [name], which is put back. *)

Definition put (name : string) (s : VideoSvc) (w : VideoWorld) : VideoWorld :=
  w <| w_svcs := <[name := s]> (w_svcs w) |>.
Definition send_to_svc (name : string) (m : VideoMsg) (receivers : gset Z) (w : VideoWorld) : VideoWorld :=
  w <| w_sent := (w_sent w ++ [((name, m), receivers)])%list |>.

(** The end of [run], with [Drop] of [Raii]. *)
Definition leave (name : string) (s : VideoSvc) (at_ : VideoAt) (w : VideoWorld) : VideoWorld :=
  put name (s <| v_at := at_ |>)
    (w <| w_qos := remove_display name (w_qos w) |>
       <| w_conn_ids := delete (v_idx s) (w_conn_ids w) |>
       <| w_notifiers := delete (v_idx s) (w_notifiers w) |>).

(** [make_display_changed_msg] for a display. *)
Definition make_display_changed_msg (idx : Z) (d : DisplayInfo) : VideoMsg :=
  VmSwitchDisplay idx d (if is_empty (di_name d) then [] else ve_resolutions env (di_name d)).

(** [try_broadcast_display_changed]: whether it ends the loop, and the service. *)
Definition try_broadcast_display_changed (name : string) (cap : CapturerInfo) (refresh : bool)
    (all : result string (list Display)) (s : VideoSvc) (w : VideoWorld) : bool * VideoSvc * VideoWorld :=
  let w := if refresh then w <| w_sync := (check_displays_changed (w_changed w) all (w_sync w)).2 |> else w in
  match check_display_changed (cap_ndisplay cap) (cap_current cap)
          ((cap_origin cap).1, (cap_origin cap).2, cap_width cap, cap_height cap) (w_sync w) with
  | None => (false, s, w)
  | Some d =>
      let m := make_display_changed_msg (v_idx s) d in
      let w := send_to_svc name m (send_shared (v_sp s)) w in
      if bool_decide (new_subscribes (v_sp s) = ∅) then (true, s, w)
      else (true, s <| v_sp := swap_new_subscribes (v_sp s) |>, send_to_svc name m (send_new_subscribes (v_sp s)) w)
  end.

Definition is_monitor (s : VideoSvc) : bool := match v_source s with Monitor => true | Camera => false end.

(** The start of [run], up to the encoder's configuration. *)
Definition step_enter (name : string) (answer : CaptureSource) (s : VideoSvc) (w : VideoWorld) : VideoWorld :=
  if negb (ok (v_sp s)) then w else
  let w := w <| w_qos := new_display name (w_qos w) |> in
  match get_capturer (v_idx s) answer (w_privacy w) with
  | Err _ => leave name s AtError w
  | Ok cap =>
      match spf (w_qos w) with
      | None => leave name s AtPanic w
      | Some f =>
          let '(quality, q) := ratio (w_qos w) in
          let rec := record (ve_users env) q in
          let cfg := get_encoder_config cap quality (rec || ve_record_incoming env) (w_codec w) in
          put name (s <| v_at := AtSetup (mkSetup cap cfg quality f rec false) |>) (w <| w_qos := q |>)
      end
  end.

Definition step_setup (name : string) (st : SetupState) (s : VideoSvc) (w : VideoWorld) : VideoWorld :=
  put name (s <| v_at := AtRead st |>) (w <| w_codec := set_fallback (s_cfg st) (w_codec w) |>).

(** The rest of [setup_encoder] and of what comes before the loop; [created] is the
    answer of the encoder's library. *)
Definition step_read (name : string) (now : Z) (created : result string unit) (st : SetupState) (s : VideoSvc)
    (w : VideoWorld) : VideoWorld :=
  let format := negotiated_codec (w_codec w) in
  let i := use_i444 (ve_iter env) (s_cfg st) (w_codec w) in
  match encoder_new (ve_codec env) (ve_iter env) (s_cfg st) created (w_codec w) with
  | (Ok _, c) =>
      let b := cfg_bitrate (s_cfg st) (s_quality st) in
      let q := set_support_changing_quality name (enc_support_changing_quality (s_cfg st)) (store_bitrate b (w_qos w)) in
      let sp := if is_option_true OPTION_REFRESH (v_sp s) then set_option_bool OPTION_REFRESH false (v_sp s) else v_sp s in
      let r := mkRun (s_cap st) (s_cfg st) format i (s_quality st) (s_spf st) (s_record st) b 0 now now
                 0 0 true false (w_encoders w) 0 in
      put name (s <| v_sp := sp |> <| v_at := AtTop r |>)
        (w <| w_codec := c |> <| w_qos := q |> <| w_encoders := S (w_encoders w) |>)
  | (Err _, c) =>
      let w := w <| w_codec := c |> in
      if s_second st then leave name s AtError w
      else
        let cap := s_cap st in
        let c := set_fallback (VPX (cap_width cap) (cap_height cap) (s_quality st) IdVP9 None) c in
        let cfg := get_encoder_config cap (s_quality st) (s_record st || ve_record_incoming env) c in
        put name (s <| v_at := AtSetup (mkSetup cap cfg (s_quality st) (s_spf st) (s_record st) true) |>)
          (w <| w_codec := c |>)
  end.

(** [check_privacy_mode_changed]: whether it ends the loop. *)
Definition check_privacy_mode_changed (name : string) (cap : CapturerInfo) (all : result string (list Display))
    (s : VideoSvc) (w : VideoWorld) : bool * VideoSvc * VideoWorld :=
  let id2 := default INVALID_PRIVACY_MODE_CONN_ID (w_privacy w) in
  if (cap_privacy_mode_id cap =? id2)%Z then (false, s, w)
  else
    let w := if (id2 =? INVALID_PRIVACY_MODE_CONN_ID)%Z then w
             else send_to_svc name VmPrivacyOnByOther (send_to_others id2 (v_sp s)) w in
    let '(_, s, w) := try_broadcast_display_changed name cap true all s w in
    (true, s, w).

(** The checks at the head of the loop. *)
Definition step_top (name : string) (now : Z) (accepted : bool) (all : result string (list Display)) (r : RunState)
    (s : VideoSvc) (w : VideoWorld) : VideoWorld :=
  if negb (ok (v_sp s)) then leave name s AtRest w else
  match check_qos now name accepted r (w_qos w) with
  | None => leave name s AtPanic w
  | Some (Err _, q) => leave name s AtError (w <| w_qos := q |>)
  | Some (Ok r, q) =>
      let w := w <| w_qos := q |> in
      if is_option_true OPTION_REFRESH (v_sp s) then
        if is_monitor s then
          let '(_, s, w) := try_broadcast_display_changed name (r_cap r) true all s w in leave name s AtError w
        else leave name s AtError w
      else if negb (bool_decide (r_format r = negotiated_codec (w_codec w))) then leave name s AtError w
      else if negb (Bool.eqb (use_i444 (ve_iter env) (r_cfg r) (w_codec w)) (r_i444 r)) then leave name s AtError w
      else if is_monitor s then
        let '(failed, s, w) := check_privacy_mode_changed name (r_cap r) all s w in
        if failed then leave name s AtError w
        else if (1000 <? elapsed_ms now (r_last_check r))%Z then
          let '(failed, s, w) := try_broadcast_display_changed name (r_cap r) false all s w in
          if failed then leave name s AtError w
          else put name (s <| v_at := AtCapture (r <| r_last_check := now |>) |>) w
        else put name (s <| v_at := AtCapture r |>) w
      else put name (s <| v_at := AtCapture r |>) w
  end.

(** The answer to a screenshot, from the frame; [None] is a panic. *)
Definition answer_screenshot (p : PixelBuffer) (ss : Screenshot) : option ScreenshotResponse :=
  rgba ← get_rgba_from_pixelbuf p;
  Some match rgba with
       | Ok data => handle_screenshot ss "" (Z.of_nat (pb_width p)) (Z.of_nat (pb_height p)) data
       | Err e => handle_screenshot ss ("Convert pixfmt: " ++ e) 0 0 []
       end.

(** The capture, up to [handle_one_frame]. *)
Definition step_capture (name : string) (c : Captured) (all : result string (list Display)) (r : RunState)
    (s : VideoSvc) (w : VideoWorld) : VideoWorld :=
  match c with
  | CapFrame valid p converted =>
      let r := r <| r_repeat := 0%nat |> in
      if negb valid then put name (s <| v_at := AtBottom r |>) w else
      let ss := w_screenshots w !! v_idx s in
      let w := w <| w_screenshots := delete (v_idx s) (w_screenshots w) |> in
      match ss with
      | Some ss =>
          match answer_screenshot p ss with
          | None => leave name s AtPanic w
          | Some resp =>
              let w := send_to_svc name (VmScreenshot resp) {[ss_tx ss]} w in
              match converted with
              | Ok _ => put name (s <| v_at := AtLook (r <| r_yuv := true |>) |>) w
              | Err _ => leave name s AtError w
              end
          end
      | None =>
          match converted with
          | Ok _ => put name (s <| v_at := AtLook (r <| r_yuv := true |>) |>) w
          | Err _ => leave name s AtError w
          end
      end
  | CapWouldBlock =>
      if negb (latency_free (r_cfg r)) && r_yuv r && (r_repeat r <? 3)%nat
      then put name (s <| v_at := AtLook (r <| r_repeat := S (r_repeat r) |>) |>) w
      else put name (s <| v_at := AtBottom r |>) w
  | CapError _ =>
      if is_monitor s then
        let '(_, s, w) := try_broadcast_display_changed name (r_cap r) true all s w in leave name s AtError w
      else leave name s AtError w
  end.

(** [handle_one_frame], after its [snapshot]. *)
Definition step_encode (name : string) (res : result string bool) (r : RunState) (s : VideoSvc) (w : VideoWorld)
    : VideoWorld :=
  let first := r_first r in
  let r := r <| r_first := false |> <| r_send_counter := wrap 64 (r_send_counter r + 1) |> in
  match res with
  | Ok key =>
      let f := mkFrame (v_idx s) (cfg_format (r_cfg r)) key (r_encoder r) (r_made r) in
      let '(receivers, conn_ids) := send_video_frame_shared (v_sp s) in
      put name (s <| v_at := AtBottom (r <| r_fail := 0%nat |> <| r_made := S (r_made r) |>) |>)
        (send_to_svc name (VmFrame f) receivers (w <| w_conn_ids := set_send (v_idx s) ∅ conn_ids (w_conn_ids w) |>))
  | Err e =>
      let r := r <| r_fail := S (r_fail r) |> in
      let disable w := w <| w_codec := encoder_disable (ve_codec env) (ve_iter env) (r_cfg r) (w_codec w) |> in
      let again := (first && latency_free (r_cfg r)) || (3 <=? r_fail r)%nat in
      let r := if again then r <| r_fail := 0%nat |> else r in
      if again && is_hardware (r_cfg r) then leave name s AtError (disable w)
      else if String.eqb e ENCODE_NEED_SWITCH then leave name s AtError (disable w)
      else put name (s <| v_at := AtBottom r |>) w
  end.

(** The foot of the loop. *)
Definition step_bottom (name : string) (r : RunState) (s : VideoSvc) (w : VideoWorld) : VideoWorld :=
  put name (s <| v_at := AtTop r |>) (w <| w_conn_ids := delete (v_idx s) (w_conn_ids w) |>).

(** ** The world's steps *)

(** What the next step of a service is told. *)
Record Answers := {
  a_now : Z; a_source : CaptureSource; a_created : result string unit; a_accepted : bool;
  a_all : result string (list Display); a_captured : Captured; a_encoded : result string bool; a_slow : bool
}.

Definition svc_turn (name : string) (a : Answers) (s : VideoSvc) (w : VideoWorld) : VideoWorld :=
  match v_at s with
  | AtRest => step_enter name (a_source a) s w
  | AtSetup st => step_setup name st s w
  | AtRead st => step_read name (a_now a) (a_created a) st s w
  | AtTop r => step_top name (a_now a) (a_accepted a) (a_all a) r s w
  | AtCapture r => step_capture name (a_captured a) (a_all a) r s w
  | AtLook r =>
      put name (s <| v_at := if bool_decide (new_subscribes (v_sp s) = ∅) then AtEncode r else AtCallback r |>) w
  | AtCallback r => put name (s <| v_at := AtSwap r (swap_has_subscribes (v_sp s)) |>) w
  | AtSwap r failed =>
      let s := s <| v_sp := swap_new_subscribes (v_sp s) |> in
      if failed then leave name s AtError w else put name (s <| v_at := AtEncode r |>) w
  | AtEncode r => step_encode name (a_encoded a) r s w
  | AtBottom r => step_bottom name r s w
  | AtError =>
      put name (s <| v_error_timeout := error_pause (a_slow a) (v_error_timeout s) |> <| v_at := AtRest |>) w
  | AtPanic => w
  end.

Inductive VideoStep :=
| VsNew (source : VideoSource) (idx : Z)               (* [new] *)
| VsSubscribe (name : string) (id : Z)
| VsUnsubscribe (name : string) (id : Z)
| VsOption (name opt value : string)
| VsJoin (name : string)
| VsCodec (u : EncodingUpdate)
| VsHwConfig (c : HwCodecConfig)                       (* [HwCodecConfig::set] *)
| VsQos (e : Event)
| VsDisplays (all : list Display)
| VsPrivacy (id : option Z)
| VsScreenshot (idx : Z) (sid : string) (tx : Z)
| VsReceived (id : Z) (tm : option Z)                  (* [VideoReceived] *)
| VsTurn (name : string) (a : Answers).

Definition set_take_screenshot (idx : Z) (sid : string) (tx : Z) (w : VideoWorld) : VideoWorld :=
  w <| w_screenshots := <[idx := {| ss_sid := sid; ss_tx := tx |}]> (w_screenshots w) |>.

Definition on_svc (name : string) (f : ServiceInner → ServiceInner) (w : VideoWorld) : VideoWorld :=
  w <| w_svcs := alter (λ s, s <| v_sp := f (v_sp s) |>) name (w_svcs w) |>.

Definition video_step (x : VideoStep) (w : VideoWorld) : VideoWorld :=
  match x with
  | VsNew source idx =>
      let name := get_service_name source idx in
      match w_svcs w !! name with
      | Some _ => w                                    (* [contains] *)
      | None =>
          put name (mkVideoSvc (service_new name true) source idx AtRest HIBERNATE_TIMEOUT)
            (w <| w_notifiers := match w_notifiers w !! idx with
                                 | Some _ => w_notifiers w
                                 | None => <[idx := []]> (w_notifiers w)
                                 end |>)
      end
  | VsSubscribe name id => on_svc name (on_subscribe id) w
  | VsUnsubscribe name id => on_svc name (on_unsubscribe id) w
  | VsOption name opt value => on_svc name (λ s, (svc_set_option opt value s).2) w
  | VsJoin name => on_svc name Services.join w
  | VsCodec u => w <| w_codec := update (ve_codec env) (ve_iter env) u (w_codec w) |>
  | VsHwConfig c => w <| w_codec := w_codec w <| CONFIG := Some c |> |>
  | VsQos e => match qos_step (ve_users env) (ve_displays env) true e (w_qos w) with
               | Some q => w <| w_qos := q |>
               | None => w
               end
  | VsDisplays all => w <| w_sync := check_update_displays (w_changed w) all (w_sync w) |>
  | VsPrivacy id => w <| w_privacy := id |>
  | VsScreenshot idx sid tx => set_take_screenshot idx sid tx w
  | VsReceived id tm => w <| w_notifiers := notify_video_frame_fetched_by_conn_id id tm (w_conn_ids w) (w_notifiers w) |>
  | VsTurn name a => match w_svcs w !! name with Some s => svc_turn name a s w | None => w end
  end.
Definition video_run (xs : list VideoStep) (w : VideoWorld) : VideoWorld := foldl (λ w x, video_step x w) w xs.

Definition video_world_new (codec : CodecState) (qos : VideoQoS) : VideoWorld :=
  mkVideoWorld ∅ codec qos sync_default ∅ None ∅ ∅ ∅ 0 [].

(** What of a message matters to a decoder: the frame, or that the display changed. *)
Inductive Arrival := ArFrame (f : EncodedFrame) | ArSwitch.
Definition arrival_of (m : VideoMsg) : option Arrival :=
  match m with VmFrame f => Some (ArFrame f) | VmSwitchDisplay _ _ _ => Some ArSwitch | _ => None end.
(** What a connection got of a service, in order. *)
Definition arrivals (name : string) (id : Z) (w : VideoWorld) : list Arrival :=
  omap (λ m, if String.eqb m.1 name then arrival_of m.2 else None) (received id (w_sent w)).
(** The frames of it. *)
Definition frames (name : string) (id : Z) (w : VideoWorld) : list EncodedFrame :=
  omap (λ m, match m with (n, VmFrame f) => if String.eqb n name then Some f else None | _ => None end)
    (received id (w_sent w)).
End Video.
