(* ===== verification/VideoSafety.v ===== *)
(** * Every peer can decode what it is sent

    The services of [Video], the format they share ([Codecs]) and their subscribers:
    of what a connection receives from a service each frame is a key frame or follows
    the frame before it from the same encoder, in the same format and with no change of
    the display between them, and the format of each is VP9 or one that the peer
    declared.  A connection that subscribes while the last other one has left, in the
    middle of a turn, is not among them.  Last, where it goes wrong. *)

From S2P Require Import Prelude Strs F32 VideoQos Options Services Displays Codecs CodecsSafety Video.
From Stdlib Require Import Ascii String SpecFloat.
From stdpp Require Import gmap sets.

Local Open Scope string_scope.
#[local] Abbreviation length := Datatypes.length.
#[local] Arguments String.append _ _ : simpl nomatch.

(** ** Streams of frames *)

Definition follows (p f : EncodedFrame) : Prop :=
  f_encoder p = f_encoder f ∧ f_format p = f_format f ∧ f_seq f = S (f_seq p).
(** Each frame is a key frame or follows what is right before it. *)
Definition chained (l : list Arrival) : Prop :=
  ∀ i f, l !! i = Some (ArFrame f) → f_key f = true ∨ ∃ j p, i = S j ∧ l !! j = Some (ArFrame p) ∧ follows p f.

Lemma chained_nil : chained [].
Proof. intros i f. by rewrite lookup_nil. Qed.

Lemma chained_app l l' : chained l → (∀ i f, l' !! i = Some (ArFrame f) → f_key f = true ∨
    ∃ p, match i with O => last l | S j => l' !! j end = Some (ArFrame p) ∧ follows p f) → chained (l ++ l').
Proof.
  intros Hl Hl' i f Hi. apply lookup_app_Some in Hi as [Hi|[Hge Hi]].
  - destruct (Hl i f Hi) as [?|(j & p & -> & Hj & Hp)]; [by left|right]. exists j, p.
    split_and!; [done|by apply lookup_app_l_Some|done].
  - destruct (Hl' _ _ Hi) as [?|(p & Hp & Hfo)]; [by left|right]. destruct (i - length l)%nat as [|j] eqn:E.
    + rewrite last_lookup in Hp. exists (pred (length l)), p. destruct l as [|x l]; [done|]. cbn in *.
      split_and!; [lia| |done]. change (((x :: l) ++ l')%list !! length l = Some (ArFrame p)). by rewrite lookup_app_l by (cbn; lia).
    + exists (pred i), p. split_and!; [lia| |done]. rewrite lookup_app_r by lia. replace (pred i - length l)%nat with j by lia. done.
Qed.

Lemma chained_snoc l f : chained l → f_key f = true ∨ (∃ p, last l = Some (ArFrame p) ∧ follows p f) → chained (l ++ [ArFrame f]).
Proof.
  intros Hl Hf. apply chained_app; [done|]. intros i g Hi. by apply list_lookup_singleton_Some in Hi as [-> [= <-]].
Qed.

Lemma chained_switches l k : chained l → chained (l ++ replicate k ArSwitch).
Proof. intros Hl. apply chained_app; [done|]. intros i f Hi. by apply lookup_replicate in Hi as [? _]. Qed.

(** ** What a frame goes with *)

Section Safety.
  Variable env : VideoEnv.
#[local] Abbreviation cenv := (ve_codec env).
#[local] Abbreviation iter := (ve_iter env).
  Hypothesis iter_perm : ∀ m, iter m ≡ₚ map_to_list m.
  (** An encoder found for a format bears its name. *)
  Hypothesis names_tell : ∀ l f c mc w h q k, info_of f (prioritized cenv l) = Some c →
    cfg_format (HWRAM (ci_name c) mc w h q k) = f.
  (** What the peers declare. *)
  Variable D : Z → SupportedDecoding → Prop.

(** A format all peers decode, and one that a peer declared. *)
Definition common (f : CodecFormat) (c : CodecState) : Prop :=
  f = VP9 ∨ ∀ id d, PEER_DECODINGS c !! id = Some d → can_decode f d.
Definition fmt_ok (id : Z) (f : CodecFormat) : Prop := f = VP9 ∨ ∃ d, D id d ∧ can_decode f d.

Definition running (name : string) (w : VideoWorld) (sp : ServiceInner) (r : RunState) : Prop :=
  r_format r = cfg_format (r_cfg r)
  ∧ ∀ id, id ∈ subscribes sp → (0 < r_made r)%nat →
      ∃ p, last (arrivals name id w) = Some (ArFrame p)
        ∧ f_encoder p = r_encoder r ∧ f_format p = cfg_format (r_cfg r) ∧ S (f_seq p) = r_made r.
(** A frame in a format the connection can decode. *)
Definition ar_ok (id : Z) (x : Arrival) : Prop := match x with ArFrame f => fmt_ok id (f_format f) | ArSwitch => True end.
Definition fresh (sp : ServiceInner) (r : RunState) : Prop := ∀ id, id ∈ subscribes sp → fmt_ok id (cfg_format (r_cfg r)).
(** Who waits while nobody is subscribed is let in without a restart: then the encoder
    has made nothing, and its format suits them ([fresh_all]). *)
Definition unled (sp : ServiceInner) (r : RunState) : Prop :=
  subscribes sp = ∅ → new_subscribes sp ≠ ∅ → r_made r = 0%nat.
Definition fresh_all (sp : ServiceInner) (r : RunState) : Prop :=
  fresh sp r ∧ (subscribes sp = ∅ → ∀ id, id ∈ new_subscribes sp → fmt_ok id (cfg_format (r_cfg r))).

Definition at_ok (name : string) (w : VideoWorld) (sp : ServiceInner) (a : VideoAt) : Prop :=
  match a with
  | AtSetup st => common (cfg_format (s_cfg st)) (w_codec w)
  | AtRead st => ENCODE_CODEC_FORMAT (w_codec w) = cfg_format (s_cfg st)
  | AtTop r | AtBottom r => running name w sp r ∧ unled sp r
  | AtCapture r | AtLook r | AtCallback r => running name w sp r ∧ unled sp r ∧ fresh_all sp r
  | AtSwap r failed => running name w sp r ∧ unled sp r ∧ fresh_all sp r ∧ (failed = false → subscribes sp = ∅)
  | AtEncode r => running name w sp r ∧ fresh sp r ∧ (subscribes sp = ∅ → new_subscribes sp = ∅)
  | AtRest | AtError | AtPanic => True
  end.

Definition registered (c : CodecState) (sp : ServiceInner) : Prop :=
  ∀ id, id ∈ subscribes sp ∪ new_subscribes sp → is_Some (PEER_DECODINGS c !! id).

Record svc_ok (name : string) (w : VideoWorld) (s : VideoSvc) : Prop := {
  so_snap : need_snapshot (v_sp s) = true;
  so_reg : registered (w_codec w) (v_sp s);
  so_at : at_ok name w (v_sp s) (v_at s)
}.

Record video_ok (w : VideoWorld) : Prop := {
  vo_format : common (ENCODE_CODEC_FORMAT (w_codec w)) (w_codec w);
  vo_declared : ∀ id d, PEER_DECODINGS (w_codec w) !! id = Some d → D id d;
  vo_svcs : ∀ name s, w_svcs w !! name = Some s → svc_ok name w s;
  vo_chained : ∀ name id, chained (arrivals name id w);
  vo_formats : ∀ name id, Forall (ar_ok id) (arrivals name id w)
}.

(** *** Steps that send no frame and leave the codec alone *)

Definition same_codec (c c' : CodecState) : Prop :=
  PEER_DECODINGS c' = PEER_DECODINGS c ∧ ENCODE_CODEC_FORMAT c' = ENCODE_CODEC_FORMAT c.
Definition quiet (w w' : VideoWorld) : Prop :=
  same_codec (w_codec w) (w_codec w') ∧ ∀ name id, arrivals name id w' = arrivals name id w.
Definition silent (w w' : VideoWorld) : Prop := quiet w w' ∧ w_svcs w' = w_svcs w.

Lemma silent_refl w : silent w w.
Proof. by split_and!. Qed.
Lemma silent_trans w1 w2 w3 : silent w1 w2 → silent w2 w3 → silent w1 w3.
Proof.
  intros [[[A1 A0] A2] A3] [[[B1 B0] B2] B3]. split; [split; [split; congruence|]|congruence]. intros n i. by rewrite B2.
Qed.

Lemma arrivals_send n m X name id w :
  arrivals name id (send_to_svc n m X w)
  = (arrivals name id w ++ if String.eqb n name then if bool_decide (id ∈ X) then option_list (arrival_of m) else [] else [])%list.
Proof.
  unfold arrivals. change (w_sent (send_to_svc n m X w)) with (w_sent w ++ [((n, m), X)])%list. rewrite received_app, omap_app. f_equal. unfold received. cbn.
  case_bool_decide; cbn; destruct (String.eqb n name); try done; by destruct m.
Qed.

Lemma silent_send n m X w : arrival_of m = None → silent w (send_to_svc n m X w).
Proof.
  intros Hm. split; [split; [done|]|done]. intros name id. rewrite arrivals_send, Hm. cbn.
  destruct (String.eqb _ _); [case_bool_decide|]; by rewrite app_nil_r.
Qed.

(** At most the change of a display was told, by a service. *)
Definition announced (name : string) (w w' : VideoWorld) : Prop :=
  same_codec (w_codec w) (w_codec w') ∧ w_svcs w' = w_svcs w
  ∧ (∀ n id, n ≠ name → arrivals n id w' = arrivals n id w)
  ∧ ∀ id, ∃ k, arrivals name id w' = (arrivals name id w ++ replicate k ArSwitch)%list.

Lemma silent_announced name w w' : silent w w' → announced name w w'.
Proof.
  intros [[H1 H2] H3]. split_and!; [done..|by intros|]. intros id. exists 0%nat. by rewrite H2, app_nil_r.
Qed.
Lemma announced_trans name w1 w2 w3 : announced name w1 w2 → announced name w2 w3 → announced name w1 w3.
Proof.
  intros ([A1 A2] & A3 & A4 & A5) ([B1 B2] & B3 & B4 & B5). split_and!; [split; congruence|congruence| |].
  - intros n id Hn. by rewrite B4, A4.
  - intros id. destruct (A5 id) as [k Hk], (B5 id) as [j Hj]. exists (k + j)%nat.
    by rewrite Hj, Hk, replicate_add, (assoc_L (++)).
Qed.
Lemma announced_send name idx d l X w : announced name w (send_to_svc name (VmSwitchDisplay idx d l) X w).
Proof.
  split_and!; [done|done| |].
  - intros n id Hn. rewrite arrivals_send. destruct (String.eqb_spec name n) as [->|]; [done|by rewrite app_nil_r].
  - intros id. rewrite arrivals_send, String.eqb_refl. case_bool_decide; [by exists 1%nat|by exists 0%nat].
Qed.

Lemma at_ok_quiet name w w' sp a : quiet w w' → at_ok name w sp a → at_ok name w' sp a.
Proof.
  intros ([E1 E2] & E3). assert (∀ r, running name w sp r → running name w' sp r) as Hr.
  { intros r [H1 H2]. split; [done|]. intros id. rewrite E3. apply H2. }
  destruct a; cbn; unfold common; rewrite ?E1, ?E2; naive_solver.
Qed.
Lemma svc_ok_quiet name w w' s : quiet w w' → svc_ok name w s → svc_ok name w' s.
Proof.
  intros Hs [H1 H2 H3]. split; [done| |by eapply at_ok_quiet]. unfold registered. by destruct Hs as [[-> _] _].
Qed.

Lemma silent_ok w w' : silent w w' → video_ok w → video_ok w'.
Proof.
  intros [Hs Ew] [H1 H0 H2 H3 H4]. pose proof Hs as ([E1 E2] & E3). split.
  - unfold common. by rewrite E1, E2.
  - by rewrite E1.
  - intros name s. rewrite Ew. intros H. eapply svc_ok_quiet; eauto.
  - intros name id. by rewrite E3.
  - intros name id. by rewrite E3.
Qed.

Lemma put_ok name s w : video_ok w → svc_ok name w s → video_ok (put name s w).
Proof.
  intros [H1 H0 H2 H3 H4] Hs. assert (quiet w (put name s w)) as Hq by done. split; try done.
  intros n s'. unfold put. cbn. intros Hn. destruct (decide (n = name)) as [->|Hne].
  - rewrite lookup_insert_eq in Hn. injection Hn as <-. by eapply svc_ok_quiet.
  - rewrite lookup_insert_ne in Hn by done. eapply svc_ok_quiet; [exact Hq|auto].
Qed.

(** A service that left [run], with the same subscribers or those let in. *)
Definition same_subs (sp sp' : ServiceInner) : Prop :=
  need_snapshot sp' = need_snapshot sp ∧ subscribes sp' ∪ new_subscribes sp' ⊆ subscribes sp ∪ new_subscribes sp.
Lemma same_subs_refl sp : same_subs sp sp.
Proof. by split. Qed.
Lemma same_subs_swap sp : same_subs sp (swap_new_subscribes sp).
Proof. split; [done|]. cbn. set_solver. Qed.

Definition outside (a : VideoAt) : Prop := match a with AtRest | AtError | AtPanic => True | _ => False end.

Lemma outside_ok name w s s' : svc_ok name w s → same_subs (v_sp s) (v_sp s') → outside (v_at s') → svc_ok name w s'.
Proof.
  intros [H1 H2 H3] [E1 E2] Ho. split; [congruence| |by destruct (v_at s')]. intros id Hid. apply H2. set_solver.
Qed.

Lemma at_ok_arrivals name w w' sp a : same_codec (w_codec w) (w_codec w') → (∀ id, arrivals name id w' = arrivals name id w) →
  at_ok name w sp a → at_ok name w' sp a.
Proof.
  intros [E1 E2] E3. assert (∀ r, running name w sp r → running name w' sp r) as Hr.
  { intros r [H1 H2]. split; [done|]. intros id. rewrite E3. apply H2. }
  destruct a; cbn; unfold common; rewrite ?E1, ?E2; naive_solver.
Qed.

(** Whoever leaves [run] may have told a change of the display: the next frame is the
    first of a new encoder. *)
Lemma leave_announced name s s' a w0 w : video_ok w0 → svc_ok name w0 s → announced name w0 w → same_subs (v_sp s) (v_sp s') → outside a →
  video_ok (leave name s' a w).
Proof.
  intros [H1 H0 H2 H3 H4] Hs Han He Ho. unfold leave.
  set (w1 := w <| w_qos := _ |> <| w_conn_ids := _ |> <| w_notifiers := _ |>).
  assert (announced name w0 w1) as ([E1 E2] & E3 & E4 & E5) by done. clearbody w1.
  split; cbn.
  - unfold common. by rewrite E1, E2.
  - by rewrite E1.
  - intros n s2. unfold put. cbn. rewrite E3. intros Hn. destruct (decide (n = name)) as [->|Hne].
    + rewrite lookup_insert_eq in Hn. injection Hn as <-. destruct Hs as [A1 A2 A3], He as [F1 F2].
      split; [cbn; congruence| |by destruct a]. intros id Hid. cbn in Hid. change (is_Some (PEER_DECODINGS (w_codec w1) !! id)).
      rewrite E1. apply A2. set_solver.
    + rewrite lookup_insert_ne in Hn by done. destruct (H2 n s2 Hn) as [A1 A2 A3].
      split; [done|unfold registered; cbn; by rewrite E1|]. eapply (at_ok_arrivals n w0); [done|by intros; apply E4|exact A3].
  - intros n id. change (chained (arrivals n id w1)). destruct (decide (n = name)) as [->|Hne]; [|by rewrite E4].
    destruct (E5 id) as [k ->]. by apply chained_switches.
  - intros n id. change (Forall (ar_ok id) (arrivals n id w1)). destruct (decide (n = name)) as [->|Hne]; [|by rewrite E4].
    destruct (E5 id) as [k ->]. apply Forall_app_2; [done|]. by apply Forall_replicate.
Qed.

Lemma leave_ok name s s' a w0 w : video_ok w0 → svc_ok name w0 s → silent w0 w → same_subs (v_sp s) (v_sp s') → outside a →
  video_ok (leave name s' a w).
Proof. intros Hw Hs Hsi. by apply (leave_announced name s s' a w0), silent_announced. Qed.

(** [try_broadcast_display_changed] sends no frame; if it does not end the loop it
    told nothing and leaves the service as it was. *)
Lemma broadcast_spec name cap refresh all s w b s' w' :
  try_broadcast_display_changed env name cap refresh all s w = (b, s', w') →
  announced name w w' ∧ same_subs (v_sp s) (v_sp s') ∧ (b = false → s' = s ∧ silent w w').
Proof.
  unfold try_broadcast_display_changed. set (w1 := if refresh then _ else w).
  assert (silent w w1) as H1 by (by destruct refresh). clearbody w1.
  pose proof (silent_announced name _ _ H1) as H2.
  destruct (check_display_changed _ _ _ _) as [d|]; [|by intros [= <- <- <-]].
  case_bool_decide; intros [= <- <- <-]; split_and!; try done.
  - eapply announced_trans; [exact H2|]. apply announced_send.
  - eapply announced_trans; [exact H2|]. eapply announced_trans; apply announced_send.
  - apply same_subs_swap.
Qed.

Lemma privacy_spec name cap all s w b s' w' :
  check_privacy_mode_changed env name cap all s w = (b, s', w') →
  announced name w w' ∧ same_subs (v_sp s) (v_sp s') ∧ (b = false → s' = s ∧ silent w w').
Proof.
  unfold check_privacy_mode_changed. destruct (_ =? _)%Z; [intros [= <- <- <-]; split_and!; done || by apply silent_announced|].
  set (w1 := if (_ =? _)%Z then w else _).
  assert (silent w w1) as H1 by (unfold w1; destruct (_ =? _)%Z; [done|by apply silent_send]). clearbody w1.
  destruct (try_broadcast_display_changed _ _ _ _ _ _ _) as [[b2 s2] w2] eqn:E. intros [= <- <- <-].
  apply broadcast_spec in E as (E1 & E2 & _). split_and!; [|done|done].
  eapply announced_trans; [by apply silent_announced|done].
Qed.

(** *** Entering [run] *)

Lemma negotiated_cfg cap q rec c : common (ENCODE_CODEC_FORMAT c) c → common (cfg_format (get_encoder_config env cap q rec c)) c.
Proof.
  intros Hc. unfold get_encoder_config. unfold negotiated_codec. destruct (ENCODE_CODEC_FORMAT c) eqn:E; try exact Hc; try (by left).
  all: destruct (cfg_hwcodec _); [|by left]; destruct (encoder_try_get _ _ _) as [i|] eqn:Ei; [|by left];
    unfold encoder_try_get in Ei; by rewrite (names_tell _ _ _ _ _ _ _ _ Ei).
Qed.

Lemma step_enter_ok name answer s w : video_ok w → svc_ok name w s → v_at s = AtRest → video_ok (step_enter env name answer s w).
Proof.
  intros Hw Hs Hat. unfold step_enter. destruct (negb _); [done|].
  set (w1 := w <| w_qos := new_display name (w_qos w) |>). assert (silent w w1) as H1 by done.
  destruct (get_capturer _ _ _) as [cap|e]; [|apply (leave_ok name s s AtError w); done || apply same_subs_refl].
  destruct (spf _) as [f|]; [|apply (leave_ok name s s AtPanic w); done || apply same_subs_refl].
  destruct (ratio _) as [q qos]. set (w2 := w1 <| w_qos := qos |>). assert (silent w w2) as H2 by done.
  apply put_ok; [by eapply silent_ok|]. apply (svc_ok_quiet name w); [exact (proj1 H2)|].
  destruct Hs as [A1 A2 A3]. split; [done..|]. cbn. apply negotiated_cfg, Hw.
Qed.

(** *** Steps that change the format *)

Definition in_setup (a : VideoAt) : bool := match a with AtSetup _ | AtRead _ => true | _ => false end.
Definition alone (name : string) (w : VideoWorld) : Prop :=
  ∀ n s, w_svcs w !! n = Some s → n ≠ name → in_setup (v_at s) = false.

Lemma update_common u c : common (ENCODE_CODEC_FORMAT (update cenv iter u c)) (update cenv iter u c).
Proof. destruct (format_negotiated_cases cenv iter iter_perm u c) as [H|H]; [by left|by right]. Qed.

Lemma clear_common e c : PEER_DECODINGS (clear cenv iter e c) = PEER_DECODINGS c
  ∧ common (ENCODE_CODEC_FORMAT (clear cenv iter e c)) (clear cenv iter e c).
Proof. unfold clear. split; [by destruct (CONFIG c)|apply update_common]. Qed.

Lemma set_fallback_spec cfg c : PEER_DECODINGS (set_fallback cfg c) = PEER_DECODINGS c
  ∧ ENCODE_CODEC_FORMAT (set_fallback cfg c) = cfg_format cfg.
Proof. unfold set_fallback. by case_bool_decide. Qed.

Lemma encoder_new_spec cfg created c res c' : common (ENCODE_CODEC_FORMAT c) c →
  encoder_new cenv iter cfg created c = (res, c') →
  PEER_DECODINGS c' = PEER_DECODINGS c ∧ common (ENCODE_CODEC_FORMAT c') c' ∧ (res = Ok tt → c' = c).
Proof.
  intros Hc. unfold encoder_new. destruct cfg, created; intros [= <- <-]; split_and!; try done.
  - by destruct (clear_common true c).
  - by left.
Qed.

Lemma encoder_disable_spec cfg c : common (ENCODE_CODEC_FORMAT c) c →
  PEER_DECODINGS (encoder_disable cenv iter cfg c) = PEER_DECODINGS c
  ∧ common (ENCODE_CODEC_FORMAT (encoder_disable cenv iter cfg c)) (encoder_disable cenv iter cfg c).
Proof. intros Hc. destruct cfg; [done..|exact (clear_common true c)]. Qed.

Lemma same_peers f c c' : PEER_DECODINGS c' = PEER_DECODINGS c → common f c → common f c'.
Proof. unfold common. by intros ->. Qed.

Lemma at_ok_recodec name w w' sp a : (∀ n id, arrivals n id w' = arrivals n id w) → in_setup a = false →
  at_ok name w sp a → at_ok name w' sp a.
Proof.
  intros Hf Ha. assert (∀ r, running name w sp r → running name w' sp r) as Hr.
  { intros r [H1 H2]. split; [done|]. intros id. rewrite Hf. apply H2. }
  destruct a; cbn in *; try done; naive_solver.
Qed.

Lemma recodec_ok name s w w' : video_ok w → alone name w →
  (∀ n id, arrivals n id w' = arrivals n id w) → w_svcs w' = w_svcs w →
  PEER_DECODINGS (w_codec w') = PEER_DECODINGS (w_codec w) → common (ENCODE_CODEC_FORMAT (w_codec w')) (w_codec w') →
  svc_ok name w' s → video_ok (put name s w').
Proof.
  intros [H1 H0 H2 H3 H4] Ha Hf Hsv Hp Hc Hs.
  assert (quiet w' (put name s w')) as Hq by done. split; [done|change (∀ id d, PEER_DECODINGS (w_codec w') !! id = Some d → D id d); by rewrite Hp| |intros n id; change (chained (arrivals n id w')); by rewrite Hf|
    intros n id; change (Forall (ar_ok id) (arrivals n id w')); by rewrite Hf].
  intros n s'. unfold put. cbn. intros Hn. destruct (decide (n = name)) as [->|Hne].
  - rewrite lookup_insert_eq in Hn. injection Hn as <-. by eapply svc_ok_quiet.
  - rewrite lookup_insert_ne in Hn by done. rewrite Hsv in Hn. eapply svc_ok_quiet; [exact Hq|].
    destruct (H2 n s' Hn) as [A1 A2 A3]. split; [done| |].
    + unfold registered. by rewrite Hp.
    + eapply at_ok_recodec; [exact Hf|by eapply Ha|exact A3].
Qed.

Lemma registered_peers c c' sp : PEER_DECODINGS c' = PEER_DECODINGS c → registered c sp → registered c' sp.
Proof. unfold registered. by intros ->. Qed.

Lemma step_setup_ok name st s w : video_ok w → alone name w → svc_ok name w s → v_at s = AtSetup st →
  video_ok (step_setup name st s w).
Proof.
  intros Hw Ha [A1 A2 A3] Hat. rewrite Hat in A3. cbn in A3. destruct (set_fallback_spec (s_cfg st) (w_codec w)) as [E1 E2].
  unfold step_setup. apply (recodec_ok name _ w); try done; cbn.
  - rewrite E2. by eapply same_peers.
  - split; [done|by eapply registered_peers|by cbn].
Qed.

Lemma leave_recodec_ok name s w w' c : video_ok w → alone name w → svc_ok name w s → silent w w' →
  PEER_DECODINGS c = PEER_DECODINGS (w_codec w) → common (ENCODE_CODEC_FORMAT c) c →
  video_ok (leave name s AtError (w' <| w_codec := c |>)).
Proof.
  intros Hw Ha [A1 A2 A3] [[_ E2] E3] Hp Hc. unfold leave. apply (recodec_ok name _ w); try done.
  split; [done| |done]. cbn. by eapply registered_peers.
Qed.

Lemma step_read_ok name now created st s w : video_ok w → alone name w → svc_ok name w s → v_at s = AtRead st →
  video_ok (step_read env name now created st s w).
Proof.
  intros Hw Ha Hs Hat. pose proof Hs as [A1 A2 A3]. rewrite Hat in A3. cbn in A3. unfold step_read.
  destruct (encoder_new _ _ _ _ _) as [[[]|e] c] eqn:E; apply encoder_new_spec in E as (E1 & E2 & E3); try apply Hw.
  - apply (recodec_ok name _ w); try done. split; [by case_match|..].
    + cbn. destruct (is_option_true _ _); by eapply registered_peers.
    + cbn. split; [|done]. split; [exact A3|]. intros id _ Hr. cbn in Hr. lia.
  - destruct (s_second st); [by apply (leave_recodec_ok name s w w)|].
    set (c2 := set_fallback _ c). destruct (set_fallback_spec (VPX (cap_width (s_cap st)) (cap_height (s_cap st)) (s_quality st) IdVP9 None) c) as [F1 F2].
    fold c2 in F1, F2. assert (PEER_DECODINGS c2 = PEER_DECODINGS (w_codec w)) as Hp by congruence.
    clearbody c2. apply (recodec_ok name _ w); try done; cbn.
    + left. by rewrite F2.
    + split; [done|eapply registered_peers; [exact Hp|exact A2]|]. cbn. apply negotiated_cfg. rewrite F2. by left.
Qed.

(** *** The loop *)

Lemma check_qos_same now name accepted r q r' q' : check_qos env now name accepted r q = Some (Ok r', q') →
  r_cfg r' = r_cfg r ∧ r_format r' = r_format r ∧ r_made r' = r_made r ∧ r_encoder r' = r_encoder r ∧ r_i444 r' = r_i444 r.
Proof.
  unfold check_qos. destruct (spf q) as [sp|]; [|done]. cbn -[update_display_data]. destruct (ratio q) as [rt q1].
  destruct (SFeqb _ _); [|destruct (enc_support_changing_quality _); [|destruct (_ && _)]]; cbn -[update_display_data]; try done;
    (destruct (negb _); [done|]; destruct (_ <? _)%Z; [destruct (update_display_data _ _ _ _ _ _) as [q2|]; [|done]|]);
    intros [= <- <-]; done.
Qed.

Lemma running_same name w sp r r' : r_cfg r' = r_cfg r → r_format r' = r_format r → r_made r' = r_made r → r_encoder r' = r_encoder r →
  running name w sp r → running name w sp r'.
Proof. unfold running. by intros -> -> -> ->. Qed.

(** A running service that goes on. *)
Lemma goes_on name s w0 w a : video_ok w0 → svc_ok name w0 s → silent w0 w → at_ok name w0 (v_sp s) a →
  video_ok (put name (s <| v_at := a |>) w).
Proof.
  intros Hw [A1 A2 A3] Hsi Ha. apply put_ok; [by eapply silent_ok|]. eapply svc_ok_quiet; [exact (proj1 Hsi)|].
  by split.
Qed.

Lemma step_top_ok name now accepted all r s w : video_ok w → svc_ok name w s → v_at s = AtTop r →
  video_ok (step_top env name now accepted all r s w).
Proof.
  intros Hw Hs Hat. pose proof (so_at _ _ _ Hs) as Hr. rewrite Hat in Hr. cbn in Hr. destruct Hr as [Hr Hun]. unfold step_top.
  destruct (negb (ok _)); [by apply (leave_ok name s s AtRest w)|].
  destruct (check_qos _ _ _ _ _ _) as [[[r'|e] q]|] eqn:Eq; [|by apply (leave_ok name s s AtError w)|by apply (leave_ok name s s AtPanic w)].
  apply check_qos_same in Eq as (Q1 & Q2 & Q3 & Q4 & Q5). set (w1 := w <| w_qos := q |>).
  assert (silent w w1) as H1 by done. clearbody w1. pose proof H1 as [[[_ Hc1] _] _].
  assert (running name w (v_sp s) r') as Hr' by (by eapply running_same).
  destruct (is_option_true _ _).
  { destruct (is_monitor s); [|by apply (leave_ok name s s AtError w)].
    destruct (try_broadcast_display_changed _ _ _ _ _ _ _) as [[b s2] w2] eqn:E. apply broadcast_spec in E as (E1 & E2 & _).
    apply (leave_announced name s s2 AtError w); [done..|eapply announced_trans; [by apply silent_announced|done]|done|done]. }
  case_bool_decide as Hf; cbn [negb]; [|by apply (leave_ok name s s AtError w)].
  destruct (negb _); [by apply (leave_ok name s s AtError w)|].
  assert (∀ r2, r_cfg r2 = r_cfg r' → r_format r2 = r_format r' → r_made r2 = r_made r' → r_encoder r2 = r_encoder r' →
            ∀ w2, silent w w2 → video_ok (put name (s <| v_at := AtCapture r2 |>) w2)) as Hgo.
  { intros r2 G1 G2 G3 G4 w2 Hw2. apply (goes_on name s w); [done..|].
    assert (∀ id, id ∈ subscribes (v_sp s) ∪ new_subscribes (v_sp s) → fmt_ok id (cfg_format (r_cfg r2))) as Hall.
    { intros id Hid. rewrite G1. destruct Hr' as [Hr' _]. rewrite <- Hr', Hf. unfold negotiated_codec. rewrite Hc1.
      destruct (vo_format w Hw) as [Hv|Hv]; [by left|right]. destruct (so_reg _ _ _ Hs id) as [d Hd]; [done|].
      exists d. split; [by apply (vo_declared w Hw)|by eapply Hv]. }
    cbn. split_and!; [by eapply running_same|unfold unled in *; by rewrite G3, Q3|].
    split; [intros id Hid|intros _ id Hid]; apply Hall; set_solver. }
  destruct (is_monitor s); [|by apply Hgo].
  destruct (check_privacy_mode_changed _ _ _ _ _ _) as [[b s2] w2] eqn:E. apply privacy_spec in E as (E1 & E2 & E3).
  destruct b; [apply (leave_announced name s s2 AtError w); try done;
                 eapply announced_trans; [by apply silent_announced|done]|].
  destruct (E3 eq_refl) as [-> E4]. assert (silent w w2) as H2 by (by eapply silent_trans). clear E1 E3.
  destruct (_ <? _)%Z; [|by apply Hgo].
  destruct (try_broadcast_display_changed _ _ _ _ _ _ _) as [[b s2] w3] eqn:E. apply broadcast_spec in E as (F1 & F2 & F3).
  destruct b; [apply (leave_announced name s s2 AtError w); try done;
                 eapply announced_trans; [by apply silent_announced|done]|].
  destruct (F3 eq_refl) as [-> F4]. apply Hgo; try done. by eapply silent_trans.
Qed.

Lemma step_capture_ok name c all r s w : video_ok w → svc_ok name w s → v_at s = AtCapture r →
  video_ok (step_capture env name c all r s w).
Proof.
  intros Hw Hs Hat. pose proof (so_at _ _ _ Hs) as Ha. rewrite Hat in Ha. cbn in Ha. destruct Ha as (Hr & Hun & Hf).
  assert (∀ r2 w2, r_cfg r2 = r_cfg r → r_format r2 = r_format r → r_made r2 = r_made r → r_encoder r2 = r_encoder r →
    silent w w2 → video_ok (put name (s <| v_at := AtLook r2 |>) w2) ∧ video_ok (put name (s <| v_at := AtBottom r2 |>) w2)) as Hgo.
  { intros r2 w2 G1 G2 G3 G4 H2. assert (running name w (v_sp s) r2) by (by eapply running_same).
    assert (unled (v_sp s) r2) by (unfold unled in *; by rewrite G3).
    split; apply (goes_on name s w); try done. split_and!; [done..|]. unfold fresh_all, fresh in *. by rewrite G1. }
  assert (∀ a w2, outside a → silent w w2 → video_ok (leave name s a w2)) as Hleave.
  { intros a w2 Ho H2. by apply (leave_ok name s s a w). }
  unfold step_capture. destruct c as [valid p converted| |e].
  - destruct (negb valid); [by apply Hgo|]. set (w1 := w <| w_screenshots := _ |>). assert (silent w w1) as H1 by done.
    destruct (w_screenshots w !! v_idx s) as [ss|].
    + destruct (answer_screenshot env p ss) as [resp|]; [|by apply Hleave].
      assert (silent w (send_to_svc name (VmScreenshot resp) {[ss_tx ss]} w1)) as H2
        by (eapply silent_trans; [exact H1|by apply silent_send]).
      destruct converted; [by apply Hgo|by apply Hleave].
    + destruct converted; [by apply Hgo|by apply Hleave].
  - destruct (_ && _); by apply Hgo.
  - destruct (is_monitor s); [|by apply Hleave].
    destruct (try_broadcast_display_changed _ _ _ _ _ _ _) as [[b s2] w2] eqn:E. apply broadcast_spec in E as (E1 & E2 & _).
    by apply (leave_announced name s s2 AtError w).
Qed.

(** A frame goes to the subscribers and changes what they got from this service. *)
Lemma step_encode_ok name res r s w : video_ok w → svc_ok name w s → v_at s = AtEncode r → w_svcs w !! name = Some s →
  (is_hardware (r_cfg r) = true → alone name w) → (∀ k, res = Ok k → r_made r = 0%nat → k = true) →
  video_ok (step_encode env name res r s w).
Proof.
  intros Hw Hs Hat Hn Hal Hkey. pose proof (so_at _ _ _ Hs) as Ha. rewrite Hat in Ha. cbn in Ha. destruct Ha as (Hr & Hf & Hnn).
  unfold step_encode. destruct res as [key|e].
  - unfold send_video_frame_shared. set (f := mkFrame _ _ _ _ _).
    set (w1 := w <| w_conn_ids := _ |>). assert (silent w w1) as H1 by done. clearbody w1.
    set (X := subscribes (v_sp s)). set (w2 := send_to_svc name (VmFrame f) X w1). pose proof H1 as [[[Hp1 Hc1] Hfr1] Hsv1].
    assert (∀ n id, arrivals n id w2 = (arrivals n id w ++ if String.eqb name n then if bool_decide (id ∈ X) then [ArFrame f] else [] else [])%list) as Hfr.
    { intros n id. unfold w2. by rewrite arrivals_send, Hfr1. }
    assert (∀ id, id ∈ X → arrivals name id w2 = (arrivals name id w ++ [ArFrame f])%list) as Hmine.
    { intros id Hid. by rewrite Hfr, String.eqb_refl, bool_decide_true by done. }
    assert (∀ n id, n ≠ name ∨ id ∉ X → arrivals n id w2 = arrivals n id w) as Hother.
    { intros n id Hno. rewrite Hfr. destruct (String.eqb_spec name n) as [->|]; [|by rewrite app_nil_r].
      destruct Hno; [done|]. by rewrite bool_decide_false, app_nil_r by done. }
    assert (same_codec (w_codec w) (w_codec w2) ∧ w_svcs w2 = w_svcs w) as [[Hp2 Hc2] Hsv2] by done. clearbody w2.
    set (s' := s <| v_at := _ |>). split; cbn.
    + unfold common. rewrite Hc2, Hp2. apply Hw.
    + rewrite Hp2. apply Hw.
    + intros n s2. unfold put. cbn. rewrite Hsv2. intros Hn2. destruct (decide (n = name)) as [->|Hne].
      * rewrite lookup_insert_eq in Hn2. injection Hn2 as <-. split; [apply Hs|unfold registered; cbn; rewrite Hp2; apply Hs|].
        cbn. destruct Hr as [Hr1 Hr2]. split; [|intros E1 E2; by destruct E2, Hnn]. split; [done|]. intros id Hid _. exists f.
        change (last (arrivals name id w2) = Some (ArFrame f) ∧ r_encoder r = r_encoder r ∧ cfg_format (r_cfg r) = cfg_format (r_cfg r) ∧ S (r_made r) = S (r_made r)).
        by rewrite (Hmine id Hid), last_snoc.
      * rewrite lookup_insert_ne in Hn2 by done. destruct (vo_svcs w Hw n s2 Hn2) as [A1 A2 A3].
        split; [done|unfold registered; cbn; by rewrite Hp2|]. eapply at_ok_arrivals; [| |exact A3]; [done|]. intros id. apply Hother. by left.
    + intros n id. change (chained (arrivals n id w2)). destruct (decide (n = name ∧ id ∈ X)) as [[-> Hid]|Hno].
      * rewrite (Hmine id Hid). apply chained_snoc; [apply Hw|]. destruct (r_made r) as [|m] eqn:Em; [left; by apply Hkey|right].
        destruct Hr as [_ Hr2]. destruct (Hr2 id Hid) as (p & P1 & P2 & P3 & P4); [lia|]. exists p. split; [done|].
        split_and!; cbn; [done|done|lia].
      * rewrite Hother by (destruct (decide (n = name)); [right|left]; naive_solver). apply Hw.
    + intros n id. change (Forall (ar_ok id) (arrivals n id w2)). destruct (decide (n = name ∧ id ∈ X)) as [[-> Hid]|Hno].
      * rewrite (Hmine id Hid). apply Forall_app_2; [apply Hw|]. constructor; [by apply Hf|done].
      * rewrite Hother by (destruct (decide (n = name)); [right|left]; naive_solver). apply Hw.
  - assert (video_ok (leave name s AtError
      (w <| w_codec := encoder_disable (ve_codec env) (ve_iter env) (r_cfg r) (w_codec w) |>))) as Hdis.
    { destruct (is_hardware (r_cfg r)) eqn:Ehw.
      - destruct (encoder_disable_spec (r_cfg r) (w_codec w) (vo_format w Hw)) as [E1 E2].
        by apply (leave_recodec_ok name s w w); auto.
      - assert (∀ c, encoder_disable (ve_codec env) (ve_iter env) (r_cfg r) c = c) as Hid by (by destruct (r_cfg r)).
        rewrite Hid. by apply (leave_ok name s s AtError w). }
    cbv zeta. set (again := _ || _). destruct (again && is_hardware _); [exact Hdis|]. destruct (String.eqb _ _); [exact Hdis|].
    apply (goes_on name s w); [done..|]. cbn. split; [destruct again; by eapply running_same|].
    intros E1 E2. by destruct E2, Hnn.
Qed.

Lemma svc_turn_ok name a s w : video_ok w → w_svcs w !! name = Some s →
  (match v_at s with
   | AtSetup _ | AtRead _ => alone name w
   | AtEncode r => (is_hardware (r_cfg r) = true → alone name w) ∧ (∀ k, a_encoded a = Ok k → r_made r = 0%nat → k = true)
   | _ => True
   end) → video_ok (svc_turn env name a s w).
Proof.
  intros Hw Hn Hlaw. pose proof (vo_svcs w Hw name s Hn) as Hs. pose proof (so_at _ _ _ Hs) as Ha.
  unfold svc_turn. destruct (v_at s) as [|st|st|r|r|r|r|r failed|r|r| |] eqn:Eat; cbn in Ha.
  - by apply step_enter_ok.
  - by apply step_setup_ok.
  - by apply step_read_ok.
  - by apply step_top_ok.
  - by apply step_capture_ok.
  - apply (goes_on name s w); [done..|]. destruct Ha as (H1 & H2 & H3 & H4). case_bool_decide; [by split_and!|by split_and!].
  - apply (goes_on name s w); [done..|]. destruct Ha as (H1 & H2 & H3). cbn. split_and!; [done..|].
    intros Hf. by apply negb_false_iff, bool_decide_eq_true in Hf.
  - destruct Ha as (H1 & H2 & [H3 H4] & H5). destruct failed; [apply (leave_ok name s _ AtError w); done || apply same_subs_swap|].
    specialize (H5 eq_refl). apply put_ok; [done|]. assert (subscribes (swap_new_subscribes (v_sp s)) = new_subscribes (v_sp s)) as Es.
    { cbn. rewrite H5. by rewrite (left_id_L ∅ (∪)). }
    split; [apply Hs| |].
    + cbn. intros id Hid. apply (so_reg _ _ _ Hs). cbn in Hid. set_solver.
    + cbn. split_and!; [destruct H1 as [R1 R2]; split; [done|]| |done]; intros id; rewrite Es.
      * intros Hid Hm. rewrite H2 in Hm; [lia|done|set_solver].
      * by apply H4.
  - destruct Hlaw. by apply step_encode_ok.
  - apply (goes_on name s (w)); done.
  - apply put_ok; [done|]. by apply (outside_ok name w s).
  - done.
Qed.

(** *** The others *)

(** In the loop of [run], with an encoder. *)
Definition in_loop (a : VideoAt) : bool :=
  match a with
  | AtTop _ | AtCapture _ | AtLook _ | AtCallback _ | AtSwap _ _ | AtEncode _ | AtBottom _ => true
  | AtRest | AtSetup _ | AtRead _ | AtError | AtPanic => false
  end.
(** Where a connection that joins while nobody is subscribed would be given the encoder
    of those who left, or one whose format it has not seen agreed on. *)
Definition replaces (a : VideoAt) : bool :=
  match a with
  | AtTop r | AtBottom r => negb (r_made r =? 0)%nat
  | AtCapture _ | AtLook _ | AtCallback _ | AtSwap _ _ | AtEncode _ => true
  | AtRest | AtSetup _ | AtRead _ | AtError | AtPanic => false
  end.

Lemma on_svc_ok name g w : video_ok w →
  (∀ s, w_svcs w !! name = Some s → svc_ok name w s → svc_ok name w (s <| v_sp := g (v_sp s) |>)) →
  video_ok (on_svc name g w).
Proof.
  intros [H1 H0 H2 H3 H4] Hg. assert (quiet w (on_svc name g w)) as Hq by done. split; try done.
  intros n s. unfold on_svc. cbn. intros Hn. destruct (decide (n = name)) as [->|Hne].
  - rewrite lookup_alter_eq in Hn. apply fmap_Some in Hn as (s0 & Hs0 & ->). eapply svc_ok_quiet; [exact Hq|auto].
  - rewrite lookup_alter_ne in Hn by done. eapply svc_ok_quiet; [exact Hq|auto].
Qed.

(** With the same or fewer subscribers: the last does not leave the loop to others who
    wait. *)
Lemma fewer_subs_ok name w s sp : svc_ok name w s → need_snapshot sp = true →
  subscribes sp ⊆ subscribes (v_sp s) → new_subscribes sp ⊆ new_subscribes (v_sp s) →
  (in_loop (v_at s) = true → subscribes sp = ∅ → subscribes (v_sp s) = ∅ ∨ new_subscribes sp = ∅) →
  svc_ok name w (s <| v_sp := sp |>).
Proof.
  intros [A1 A2 A3] Hs H1 H2 H3. split; [done|intros id Hid; apply A2; cbn in Hid; set_solver|].
  assert (∀ r, running name w (v_sp s) r → running name w sp r) as Hr.
  { intros r [R1 R2]. split; [done|]. intros id Hid. apply R2. set_solver. }
  assert (∀ r, fresh (v_sp s) r → fresh sp r) as Hf by (intros r Hf id Hid; apply Hf; set_solver).
  assert (in_loop (v_at s) = true → ∀ r, unled (v_sp s) r → unled sp r) as Hu.
  { intros Hl r Hu E1 E2. destruct (H3 Hl E1) as [E|E]; [|done]. apply Hu; [done|set_solver]. }
  assert (in_loop (v_at s) = true → ∀ r, fresh_all (v_sp s) r → fresh_all sp r) as Hg.
  { intros Hl r [F1 F2]. split; [by apply Hf|]. intros E id Hid. destruct (H3 Hl E) as [E'|E']; [|set_solver].
    apply F2; [done|set_solver]. }
  assert (in_loop (v_at s) = true → (subscribes (v_sp s) = ∅ → new_subscribes (v_sp s) = ∅) →
            subscribes sp = ∅ → new_subscribes sp = ∅) as Hn.
  { intros Hl Hn E. destruct (H3 Hl E) as [E'|E']; [|done]. specialize (Hn E'). set_solver. }
  cbn. destruct (v_at s); cbn in *; try done; try (by auto); destruct_and?; split_and!; auto.
  intros E. specialize (Hr r). set_solver.
Qed.

Lemma vsubscribe_ok name id w s : svc_ok name w s → is_Some (PEER_DECODINGS (w_codec w) !! id) →
  (subscribes (v_sp s) = ∅ → replaces (v_at s) = false) → svc_ok name w (s <| v_sp := on_subscribe id (v_sp s) |>).
Proof.
  intros [A1 A2 A3] Hd Hat. unfold on_subscribe. rewrite A1. case_bool_decide; [by destruct s|].
  split; [done| |].
  - intros i Hi. cbn in Hi. destruct (decide (i = id)) as [->|]; [done|]. apply A2. set_solver.
  - cbn. destruct (v_at s) as [| | |r|r|r|r|r failed|r|r| |]; cbn in *; try done; unfold unled, fresh_all in *; cbn;
      destruct_and?; (try split_and!; try done); try (by intros E; specialize (Hat E)).
    all: intros E _; specialize (Hat E); by apply negb_false_iff, Nat.eqb_eq in Hat.
Qed.

(** A change of what the peers say, while no encoder is set up. *)
Lemma codec_ok u w : video_ok w → (∀ n s, w_svcs w !! n = Some s → in_setup (v_at s) = false) →
  (∀ n s, w_svcs w !! n = Some s → registered (update cenv iter u (w_codec w)) (v_sp s)) →
  (∀ id d, PEER_DECODINGS (update cenv iter u (w_codec w)) !! id = Some d → D id d) →
  video_ok (w <| w_codec := update cenv iter u (w_codec w) |>).
Proof.
  intros [H1 H0 H2 H3 H4] Hset Hreg HD. set (w' := w <| w_codec := _ |>). split; try done; [apply update_common|].
  intros n s Hn. change (w_svcs w !! n = Some s) in Hn. destruct (H2 n s Hn) as [A1 A2 A3].
  split; [done|by apply (Hreg n)|]. eapply (at_ok_recodec n w w'); [done|by eapply Hset|exact A3].
Qed.

(** *** Lawful runs *)

Definition setting_up (w : VideoWorld) (but : option string) : bool :=
  existsb (λ kv : string * VideoSvc, negb (bool_decide (but = Some kv.1)) && in_setup (v_at kv.2)) (map_to_list (w_svcs w)).
Definition subscribed (id : Z) (w : VideoWorld) : bool :=
  existsb (λ kv : string * VideoSvc, is_subed id (v_sp kv.2)) (map_to_list (w_svcs w)).

(** A connection tells what it decodes before it subscribes and leaves before it is
    forgotten; no connection takes the place of the last one before the loop has
    noticed that it left; and from the choice of an encoder's configuration until the
    encoder is there nothing else changes the format or what the peers decode. *)
Definition calm_step (x : VideoStep) (w : VideoWorld) : bool :=
  match x with
  | VsSubscribe name id =>
      bool_decide (is_Some (PEER_DECODINGS (w_codec w) !! id))
      && match w_svcs w !! name with
         | Some s => negb (bool_decide (subscribes (v_sp s) = ∅)) || negb (replaces (v_at s))
         | None => true
         end
  | VsUnsubscribe name id =>
      match w_svcs w !! name with
      | Some s => negb (in_loop (v_at s)) || bool_decide (subscribes (v_sp s) = ∅)
                  || negb (bool_decide (subscribes (v_sp s) ∖ {[id]} = ∅)) || bool_decide (new_subscribes (v_sp s) = ∅)
      | None => true
      end
  | VsCodec (Remove id) => negb (setting_up w None) && negb (subscribed id w)
  | VsCodec _ => negb (setting_up w None)
  | VsTurn name a =>
      match v_at <$> w_svcs w !! name with
      | Some (AtSetup _ | AtRead _) => negb (setting_up w (Some name))
      | Some (AtEncode r) => negb (is_hardware (r_cfg r)) || negb (setting_up w (Some name))
      | _ => true
      end
  | _ => true
  end.

(** The first frame of an encoder is a key frame. *)
Definition keyed_step (x : VideoStep) (w : VideoWorld) : bool :=
  match x with
  | VsTurn name a =>
      match v_at <$> w_svcs w !! name, a_encoded a with
      | Some (AtEncode r), Ok k => k || negb (r_made r =? 0)%nat
      | _, _ => true
      end
  | _ => true
  end.

Lemma setting_up_spec w but : setting_up w but = false →
  ∀ n s, w_svcs w !! n = Some s → but ≠ Some n → in_setup (v_at s) = false.
Proof.
  intros H n s Hn Hb. destruct (in_setup (v_at s)) eqn:E; [|done]. rewrite <- not_true_iff_false in H. exfalso. apply H.
  apply existsb_exists. exists (n, s). split; [by apply list_elem_of_In, elem_of_map_to_list|]. cbn.
  by rewrite bool_decide_false, E by done.
Qed.

Lemma subscribed_spec id w : subscribed id w = false → ∀ n s, w_svcs w !! n = Some s → id ∉ subscribes (v_sp s) ∪ new_subscribes (v_sp s).
Proof.
  intros H n s Hn Hid. rewrite <- not_true_iff_false in H. apply H. apply existsb_exists. exists (n, s).
  split; [by apply list_elem_of_In, elem_of_map_to_list|]. cbn. unfold is_subed. apply orb_true_iff.
  rewrite !bool_decide_eq_true. by apply elem_of_union.
Qed.

(** What a step declares for a connection. *)
Definition declared_by (x : VideoStep) (id : Z) (d : SupportedDecoding) : Prop :=
  x = VsCodec (Update id d) ∨ (x = VsCodec (NewOnlyVP9 id) ∧ d = SupportedDecoding_default <| ability_vp9 := 1%Z |>).

Lemma registered_update u c sp : registered c sp → (∀ id, u = Remove id → id ∉ subscribes sp ∪ new_subscribes sp) →
  registered (update cenv iter u c) sp.
Proof.
  intros Hc Hr id Hid. specialize (Hc id Hid).
  change (is_Some (update_decodings u (PEER_DECODINGS c) !! id)). destruct u as [i d'|i|i|]; cbn; [| | |done].
  - destruct (decide (i = id)) as [->|]; [rewrite lookup_insert_eq; by eexists|by rewrite lookup_insert_ne].
  - rewrite lookup_delete_ne; [done|]. intros ->. by destruct (Hr id eq_refl).
  - destruct (decide (i = id)) as [->|]; [rewrite lookup_insert_eq; by eexists|by rewrite lookup_insert_ne].
Qed.

Lemma declared_update u c : (∀ id d, PEER_DECODINGS c !! id = Some d → D id d) →
  (∀ id d, declared_by (VsCodec u) id d → D id d) →
  ∀ id d, PEER_DECODINGS (update cenv iter u c) !! id = Some d → D id d.
Proof.
  intros Hc HD id d. change (PEER_DECODINGS (update cenv iter u c)) with (update_decodings u (PEER_DECODINGS c)).
  destruct u as [i d'|i|i|]; cbn; [| | |apply Hc].
  - destruct (decide (i = id)) as [->|]; [rewrite lookup_insert_eq; intros [= ->]; apply HD; by left|].
    rewrite lookup_insert_ne by done. apply Hc.
  - intros [_ ?]%lookup_delete_Some. by apply Hc.
  - destruct (decide (i = id)) as [->|]; [rewrite lookup_insert_eq; intros [= <-]; apply HD; by right|].
    rewrite lookup_insert_ne by done. apply Hc.
Qed.

Lemma video_step_ok x w : video_ok w → (∀ id d, declared_by x id d → D id d) →
  calm_step x w = true → keyed_step x w = true → video_ok (video_step env x w).
Proof.
  intros Hw HD Hc Hk. destruct x as [source idx|name id|name id|name opt v|name|u|c|e|all|id|idx sid tx|id tm|name a]; cbn [video_step].
  - destruct (w_svcs w !! get_service_name source idx) as [s|] eqn:E; [done|].
    set (w1 := w <| w_notifiers := _ |>). assert (silent w w1) as H1 by done. apply put_ok; [by eapply silent_ok|].
    split; [done| |done]. intros id Hid. cbn in Hid. set_solver.
  - cbn in Hc. apply andb_true_iff in Hc as [Hd Hat]. apply bool_decide_eq_true in Hd as [d Hd].
    apply on_svc_ok; [done|]. intros s Hs Hok. apply vsubscribe_ok; [done|by eexists|].
    intros E. rewrite Hs, E in Hat. by apply negb_true_iff.
  - apply on_svc_ok; [done|]. intros s Hs Hok. cbn in Hc. rewrite Hs in Hc. unfold on_unsubscribe.
    destruct (bool_decide (id ∈ subscribes (v_sp s))).
    + apply fewer_subs_ok; cbn; [done|apply Hok|set_solver|done|]. intros Hl E. rewrite Hl in Hc. cbn in Hc.
      rewrite (bool_decide_true (subscribes (v_sp s) ∖ {[id]} = ∅)) in Hc by done. cbn in Hc. rewrite orb_false_r in Hc.
      apply orb_true_iff in Hc as [Hc%bool_decide_eq_true|Hc%bool_decide_eq_true]; auto.
    + apply fewer_subs_ok; cbn; [done|apply Hok|done|set_solver|by auto].
  - apply on_svc_ok; [done|]. intros s Hs Hok. apply fewer_subs_ok; cbn; try apply Hok; set_solver.
  - apply on_svc_ok; [done|]. intros s Hs Hok. apply fewer_subs_ok; cbn; try apply Hok; set_solver.
  - assert (setting_up w None = false) as Hset.
    { apply negb_true_iff. cbn in Hc. destruct u; [done|by apply andb_true_iff in Hc as [? _]|done..]. }
    apply codec_ok; [done| | |apply declared_update; [apply Hw|done]].
    + intros n s Hn. by eapply setting_up_spec.
    + intros n s Hn. apply registered_update; [apply (vo_svcs w Hw n s Hn)|]. intros id ->. cbn in Hc.
      apply andb_true_iff in Hc as [_ Hs]. apply negb_true_iff in Hs. by eapply subscribed_spec.
  - by apply (silent_ok w).
  - destruct (qos_step _ _ _ _ _); [|done]. by apply (silent_ok w).
  - by apply (silent_ok w).
  - by apply (silent_ok w).
  - by apply (silent_ok w).
  - by apply (silent_ok w).
  - destruct (w_svcs w !! name) as [s|] eqn:E; [|done]. apply svc_turn_ok; [done..|].
    cbn in Hc, Hk. rewrite E in Hc, Hk. cbn in Hc, Hk. destruct (v_at s) as [|st|st|r|r|r|r|r failed|r|r| |]; try done.
    + intros n s2 Hn Hne. apply negb_true_iff in Hc. eapply setting_up_spec; [exact Hc|done|congruence].
    + intros n s2 Hn Hne. apply negb_true_iff in Hc. eapply setting_up_spec; [exact Hc|done|congruence].
    + split.
      * intros Hh n s2 Hn Hne. rewrite Hh in Hc. cbn in Hc. apply negb_true_iff in Hc.
        eapply setting_up_spec; [exact Hc|done|congruence].
      * intros k Hek Hm. rewrite Hek, Hm in Hk. cbn in Hk. by rewrite orb_false_r in Hk.
Qed.

End Safety.

Fixpoint lawful (law : VideoStep → VideoWorld → bool) (env : VideoEnv) (xs : list VideoStep) (w : VideoWorld) : bool :=
  match xs with [] => true | x :: xs => law x w && lawful law env xs (video_step env x w) end.

Section Runs.
  Variable env : VideoEnv.
  Hypothesis iter_perm : ∀ m, ve_iter env m ≡ₚ map_to_list m.
  Hypothesis names_tell : ∀ l f c mc w h q k, info_of f (prioritized (ve_codec env) l) = Some c →
    cfg_format (HWRAM (ci_name c) mc w h q k) = f.

Lemma video_run_ok D xs w : video_ok D w → (∀ x id d, x ∈ xs → declared_by x id d → D id d) →
  lawful calm_step env xs w = true → lawful keyed_step env xs w = true → video_ok D (video_run env xs w).
Proof.
  revert w; induction xs as [|x xs IH]; intros w Hw HD Hc Hk; [done|]. cbn in Hc, Hk.
  apply andb_true_iff in Hc as [C1 C2]. apply andb_true_iff in Hk as [K1 K2].
  change (video_ok D (video_run env xs (video_step env x w))). apply IH; [|intros y id d Hy; apply HD; by right|done..].
  apply video_step_ok; try done. intros id d. apply HD. by left.
Qed.

Lemma video_new_ok D c q : PEER_DECODINGS c = ∅ → video_ok D (video_world_new c q).
Proof.
  intros E. split; cbn; [right; rewrite E; by intros id d ?%lookup_empty_Some|rewrite E; by intros id d ?%lookup_empty_Some|
    by intros name s ?%lookup_empty_Some|intros name id; apply chained_nil|intros name id; by apply Forall_nil].
Qed.

(** C26: every peer can decode what it is sent.  Connections come, go, change what they
    can decode, ask for refreshes and screenshots, and capturers and encoders answer
    whatever they like, under these laws, which are conditions on the order of events
    ([calm_step], [keyed_step]) and on the encoders there are:
    - a connection tells what it decodes before it subscribes, and is forgotten only
      after it has left;
    - while the loop has an encoder, nobody takes the place of the last connection
      before the loop has noticed that it left ([replacement_gets_delta] is what happens
      otherwise), and the last subscriber does not leave others waiting;
    - from the choice of an encoder's configuration until the encoder is there nothing
      else changes the format or what the peers decode ([fallback_overwrites_format] is
      what happens otherwise);
    - the first frame of an encoder is a key frame, and a hardware encoder's name tells
      its format.
    Then each frame that a connection gets from a service is a key frame or follows, in
    the same format, the frame right before it from the same encoder, with no change of
    the display told between them, and each is in VP9 or in a format that the connection
    declared. *)
Theorem peers_can_decode xs c q w :
  PEER_DECODINGS c = ∅ → w = video_run env xs (video_world_new c q) →
  lawful calm_step env xs (video_world_new c q) = true → lawful keyed_step env xs (video_world_new c q) = true →
  ∀ name id, chained (arrivals name id w)
    ∧ ∀ f, ArFrame f ∈ arrivals name id w → f_format f = VP9 ∨ ∃ x d, x ∈ xs ∧ declared_by x id d ∧ can_decode (f_format f) d.
Proof.
  intros Hc -> H1 H2 name id. set (D id d := ∃ x, x ∈ xs ∧ declared_by x id d).
  assert (video_ok D (video_run env xs (video_world_new c q))) as Hw.
  { apply video_run_ok; [by apply video_new_ok| |done..]. intros x i d Hx Hd. by exists x. }
  split; [apply Hw|]. intros f Hf. pose proof (vo_formats _ _ Hw name id) as Hall. rewrite Forall_forall in Hall.
  destruct (Hall _ Hf) as [?|(d & (x & Hx & Hd) & Hcan)]; [by left|right]. by exists x, d.
Qed.

End Runs.

(** ** Concrete runs *)

Definition sample_video_env : VideoEnv := {|
  ve_codec := sample_codec_env (λ _, "") (2 ^ 34); ve_iter := map_to_list; ve_users := map_to_list; ve_displays := map_to_list;
  ve_resolutions := λ _, []; ve_record_incoming := false; ve_convert := λ p, Ok (pb_data p); ve_png := λ _ _ d, Ok d
|}.
Definition sample_pixels : PixelBuffer := pixel_buffer_new [10; 20; 30; 255; 11; 21; 31; 255]%Z BGRA 2 1.
Definition sample_answers (t : Z) : Answers := {|
  a_now := t; a_source := FromDisplays (Ok [sample_display]) (Ok tt); a_created := Ok tt; a_accepted := true;
  a_all := Ok [sample_display]; a_captured := CapFrame true sample_pixels (Ok tt); a_encoded := Ok true; a_slow := false
|}.
Definition turns (name : string) (n : nat) : list VideoStep := replicate n (VsTurn name (sample_answers 0)).
Definition sample_video_world : VideoWorld := video_world_new sample_codec_state (qos_default 0).
(** Decodes VP8, VP9 and AV1 and would like the last, or decodes VP8 and VP9. *)
Definition likes_av1 : SupportedDecoding := mkDecoding 1 0 0 5 1 1 None 0.
Definition no_av1 : SupportedDecoding := mkDecoding 1 0 0 0 1 0 None 0.
Definition video_start : list VideoStep :=
  [VsNew Monitor 0; VsCodec (Update 1 likes_av1); VsSubscribe "monitor0" 1].

Lemma sample_names_tell option memory l f c mc w h q k :
  info_of f (prioritized (sample_codec_env option memory) l) = Some c → cfg_format (HWRAM (ci_name c) mc w h q k) = f.
Proof.
  assert (∀ g, cfg_format (HWRAM (ci_name c) None 0 0 (f32_of_Z 0) None) = g → cfg_format (HWRAM (ci_name c) mc w h q k) = g) as Hc by done.
  destruct f; cbn; try done; intros H; apply find_some in H as [_ H]; apply bool_decide_eq_true in H; by apply Hc.
Qed.

(** Another peer joins, which cannot decode AV1; the first frame it gets comes from an
    encoder that was set up for both. *)
Lemma peers_can_decode_witness :
  let xs := (video_start ++ turns "monitor0" 17 ++ [VsCodec (Update 2 no_av1); VsSubscribe "monitor0" 2]
             ++ turns "monitor0" 20)%list in
  let w := video_run sample_video_env xs sample_video_world in
  f_format <$> frames "monitor0" 1 w = [AV1; AV1; VP9; VP9] ∧ f_seq <$> frames "monitor0" 2 w = [0; 1]%nat
  ∧ ∀ f, ArFrame f ∈ arrivals "monitor0" 2 w → f_format f = VP9 ∨ ∃ x d, x ∈ xs ∧ declared_by x 2 d ∧ can_decode (f_format f) d.
Proof.
  intros xs w. split; [vm_compute; reflexivity|]. split; [vm_compute; reflexivity|].
  refine (proj2 (peers_can_decode sample_video_env (λ m, reflexivity _) (sample_names_tell _ _) xs sample_codec_state
    (qos_default 0) w eq_refl eq_refl _ _ "monitor0" 2%Z)); vm_compute; reflexivity.
Defined.

(** *** What goes wrong *)

(** A peer joins between the choice of the encoder's configuration and
    [set_fallback], which writes the old format over the one chosen for the peer: from
    then on the peer is sent AV1, which it never declared, and nothing notices. *)
Lemma fallback_overwrites_format :
  let xs := (video_start ++ turns "monitor0" 1 ++ [VsCodec (Update 2 no_av1); VsSubscribe "monitor0" 2]
             ++ turns "monitor0" 60)%list in
  let w := video_run sample_video_env xs sample_video_world in
  useable (ve_codec sample_video_env) map_to_list AV1 (w_codec w) = false
  ∧ negotiated_codec (w_codec w) = AV1
  ∧ forallb (λ f, bool_decide (f_format f = AV1)) (frames "monitor0" 2 w) = true ∧ frames "monitor0" 2 w ≠ [].
Proof. vm_compute. done. Qed.

(** A peer that takes the place of the only other one before the loop has noticed that
    it left is let in without a restart, because [has_subscribes] of a snapshot does not
    count those who wait: the first frame it gets builds on frames it never got. *)
Definition delta_answers : Answers := let a := sample_answers 0 in
  Build_Answers (a_now a) (a_source a) (a_created a) (a_accepted a) (a_all a) (a_captured a) (Ok false) (a_slow a).
Lemma replacement_gets_delta :
  let xs := (video_start ++ turns "monitor0" 12 ++ replicate 10 (VsTurn "monitor0" delta_answers)
             ++ [VsUnsubscribe "monitor0" 1; VsCodec (Update 2 likes_av1); VsSubscribe "monitor0" 2]
             ++ replicate 20 (VsTurn "monitor0" delta_answers))%list in
  let w := video_run sample_video_env xs sample_video_world in
  lawful keyed_step sample_video_env xs sample_video_world = true
  ∧ (λ f, (f_key f, f_seq f)) <$> frames "monitor0" 2 w = [(false, 3); (false, 4); (false, 5); (false, 6)]%nat.
Proof. vm_compute. done. Qed.

(** A screenshot of a display of 16 bits per pixel reads past the end of the frame: the
    thread of the service dies. *)
Definition pixels_565 : PixelBuffer := pixel_buffer_new [1; 2; 3; 4]%Z RGB565LE 2 1.
Lemma screenshot_of_16_bits_panics :
  let a := sample_answers 0 in
  let dark := Build_Answers (a_now a) (a_source a) (a_created a) (a_accepted a) (a_all a)
                (CapFrame true pixels_565 (Ok tt)) (a_encoded a) (a_slow a) in
  let xs := (video_start ++ turns "monitor0" 4 ++ [VsScreenshot 0 "s" 1; VsTurn "monitor0" dark])%list in
  let w := video_run sample_video_env xs sample_video_world in
  v_at <$> w_svcs w !! "monitor0" = Some AtPanic
  ∧ received 1 (w_sent (video_run sample_video_env (turns "monitor0" 50) w)) = [].
Proof. vm_compute. done. Qed.

(** Of two peers that ask for a screenshot before the next frame only the last gets one. *)
Lemma screenshot_request_lost :
  let xs := (video_start ++ turns "monitor0" 4 ++ [VsScreenshot 0 "a" 1; VsScreenshot 0 "b" 2] ++ turns "monitor0" 30)%list in
  let w := video_run sample_video_env xs sample_video_world in
  length (List.filter (λ m, match m.2 with VmScreenshot _ => true | _ => false end) (received 2 (w_sent w))) = 1%nat
  ∧ List.filter (λ m, match m.2 with VmScreenshot _ => true | _ => false end) (received 1 (w_sent w)) = [].
Proof. vm_compute. done. Qed.

(** A screenshot of a display is answered with the picture of the camera of the same
    number. *)
Definition camera_answers : Answers := let a := sample_answers 0 in
  Build_Answers (a_now a) (FromCameras [display_info ∅ sample_display] (Ok tt)) (a_created a) (a_accepted a) (a_all a)
    (CapFrame true (pixel_buffer_new [9; 9; 9; 9]%Z RGBA 1 1) (Ok tt)) (a_encoded a) (a_slow a).
Lemma screenshot_of_camera :
  let xs := ([VsNew Camera 0; VsCodec (Update 3 no_av1); VsSubscribe "camera0" 3] ++ video_start
             ++ [VsScreenshot 0 "desk" 1] ++ replicate 5 (VsTurn "camera0" camera_answers))%list in
  let w := video_run sample_video_env xs sample_video_world in
  (λ m, (m.1, match m.2 with VmScreenshot r => sr_data r | _ => [] end)) <$> received 1 (w_sent w)
  = [("camera0", [9; 9; 9; 9]%Z)].
Proof. vm_compute. done. Qed.

(** A service forgets the channel of the acknowledgements when its loop ends for the
    first time, which it does at the second subscriber, and never has one again. *)
Lemma acknowledgements_dropped :
  let w1 := video_run sample_video_env (video_start ++ turns "monitor0" 8)%list sample_video_world in
  let w2 := video_run sample_video_env ([VsCodec (Update 2 likes_av1); VsSubscribe "monitor0" 2] ++ turns "monitor0" 40)%list w1 in
  w_notifiers w1 !! 0%Z = Some [] ∧ w_notifiers w2 !! 0%Z = None
  ∧ w_notifiers (video_step sample_video_env (VsReceived 1 None) w2) = ∅.
Proof. vm_compute. done. Qed.
