(* ===== verification/VideoLive.v ===== *)
(** * The picture arrives

    A connection that waits at a service of [Video] gets a key frame: the loop restarts
    for it and the new encoder begins with one.  While the system answers and nothing
    else interferes, sixteen steps of the service are enough. *)

From S2P Require Import Prelude Strs F32 VideoQos Options Services Displays Codecs CodecsSafety Video VideoSafety.
From Stdlib Require Import Ascii String SpecFloat.
From stdpp Require Import gmap sets.

Local Open Scope string_scope.
#[local] Abbreviation length := Datatypes.length.
#[local] Arguments String.append _ _ : simpl nomatch.

(** ** The controller of the quality stands still *)

Lemma SFeqb_refl x : f32_is_nan x = false → SFeqb x x = true.
Proof.
  destruct x as [s|s| |s m e]; try done; unfold SFeqb; cbn; [by destruct s|].
  destruct s; by rewrite Z.compare_refl, Pos.compare_refl.
Qed.

Lemma f32_le_right_nan x y : f32_le x y = true → f32_is_nan y = false.
Proof. destruct y; try done. by destruct x as [[]|[]| |[] ? ?]. Qed.

Definition settled (users : gmap Z UserData → list (Z * UserData)) (q : VideoQoS) (quality : f32) (rec : bool) : Prop :=
  qos_ok q ∧ ratio q = (quality, q) ∧ f32_is_nan quality = false ∧ VideoQos.record users q = rec.

Lemma ratio_settles users q : qos_ok q → settled users (ratio q).2 (ratio q).1 (VideoQos.record users (ratio q).2).
Proof.
  intros Hq. assert (f32_is_nan (q_ratio q) = false) as Hn.
  { destruct Hq as (_ & [H _] & _). by eapply f32_le_right_nan. }
  split_and!; [by apply ratio_snd_ok| | |done]; unfold ratio; cbv zeta;
    destruct (f32_lt (q_ratio q) BR_MIN_HIGH_RESOLUTION || f32_lt BR_MAX (q_ratio q)) eqn:E; cbn [fst snd]; try done.
  by rewrite E.
Qed.

(** What does not touch the ratio leaves it settled. *)
Lemma ratio_same q q' x : q_ratio q' = q_ratio q → ratio q = (x, q) → ratio q' = (x, q').
Proof.
  unfold ratio. cbv zeta. intros Hr. rewrite Hr. destruct (_ || _) eqn:E; [|intros [= Hx]; congruence].
  intros H. exfalso. apply (f_equal (λ p, q_ratio p.2)) in H. change (BR_BALANCED = q_ratio q) in H.
  rewrite <- H in E. vm_compute in E. done.
Qed.

Lemma settled_store users b q x rec : settled users q x rec → settled users (store_bitrate b q) x rec.
Proof.
  intros (H1 & H2 & H3 & H4). split_and!; [done| |done|done]. by apply (ratio_same q).
Qed.

Lemma settled_support users n b q x rec : settled users q x rec → settled users (set_support_changing_quality n b q) x rec.
Proof.
  unfold set_support_changing_quality. destruct (displays q !! n) as [d|]; [|done].
  intros (H1 & H2 & H3 & H4). split_and!; [done| |done|done]. by apply (ratio_same q).
Qed.

Lemma check_qos_settled env now name b r q : settled (ve_users env) q (r_quality r) (r_client_record r) →
  r_second_instant r = now → ∃ r', check_qos env now name b r q = Some (Ok r', q)
    ∧ r' = r <| r_spf := r_spf r' |>.
Proof.
  intros (H1 & H2 & H3 & H4) Hs. unfold check_qos. destruct (spf_bounds q) as (sp & -> & _); [apply H1|].
  cbn -[update_display_data ratio VideoQos.record SFeqb]. rewrite H2, (SFeqb_refl _ H3), H4, Bool.eqb_reflx.
  cbn -[update_display_data].
  rewrite Hs, Z.sub_diag. cbn. eexists. by split.
Qed.

(** A frame goes to the subscribers and changes what they got from this service. *)
Lemma frame_sent name f X w n id :
  frames n id (send_to_svc name (VmFrame f) X w)
  = (frames n id w ++ if String.eqb name n then if bool_decide (id ∈ X) then [f] else [] else [])%list.
Proof.
  unfold frames. change (w_sent (send_to_svc name (VmFrame f) X w)) with (w_sent w ++ [((name, VmFrame f), X)])%list.
  rewrite received_app, omap_app. f_equal. unfold received. cbn. case_bool_decide; cbn; by destruct (String.eqb name n).
Qed.

Section Live.
  Variable env : VideoEnv.
  Variable name : string.
  (** What the system answers, always the same. *)
  Variable a : Answers.
  Variable ds : list Display.
  Variable d : Display.
  Variable pixels : PixelBuffer.
  Hypothesis a_src : a_source a = FromDisplays (Ok ds) (Ok tt).
  Hypothesis a_enc : a_created a = Ok tt.
  Hypothesis a_cap : a_captured a = CapFrame true pixels (Ok tt).
  Hypothesis a_key : a_encoded a = Ok true.

Definition turn (w : VideoWorld) : VideoWorld := video_step env (VsTurn name a) w.

(** The service runs, and nobody has asked for a screenshot. *)
Record ready (w : VideoWorld) (s : VideoSvc) : Prop := {
  rd_svc : w_svcs w !! name = Some s;
  rd_ok : ok (v_sp s) = true;
  rd_display : (0 <= v_idx s)%Z ∧ ds !! Z.to_nat (v_idx s) = Some d;
  rd_qos : qos_ok (w_qos w);
  rd_shot : w_screenshots w !! v_idx s = None
}.

Definition cap_fits (w : VideoWorld) (cap : CapturerInfo) : Prop :=
  cap_privacy_mode_id cap = default INVALID_PRIVACY_MODE_CONN_ID (w_privacy w).
Definition setup_fits (w : VideoWorld) (st : SetupState) : Prop :=
  cap_fits w (s_cap st) ∧ settled (ve_users env) (w_qos w) (s_quality st) (s_record st).
Definition top_fits (w : VideoWorld) (sp : ServiceInner) (r : RunState) : Prop :=
  cap_fits w (r_cap r) ∧ settled (ve_users env) (w_qos w) (r_quality r) (r_client_record r)
  ∧ r_format r = negotiated_codec (w_codec w) ∧ use_i444 (ve_iter env) (r_cfg r) (w_codec w) = r_i444 r
  ∧ r_second_instant r = a_now a ∧ r_last_check r = a_now a ∧ r_made r = 0%nat ∧ is_option_true OPTION_REFRESH sp = false.

Definition fits (w : VideoWorld) (s : VideoSvc) : Prop :=
  let ne := negb (bool_decide (new_subscribes (v_sp s) = ∅)) in
  match v_at s with
  | AtRest => True
  | AtSetup st | AtRead st => setup_fits w st
  | AtTop r => top_fits w (v_sp s) r
  | AtCapture r | AtLook r | AtCallback r | AtSwap r _ => r_made r = 0%nat
  | AtEncode r => r_made r = 0%nat ∧ ne = false
  | AtError => ne = false
  | AtBottom _ | AtPanic => False
  end.

(** How many steps until a frame is encoded; a connection that waits costs nine more. *)
Definition rank (s : VideoSvc) : nat :=
  let extra := if bool_decide (new_subscribes (v_sp s) = ∅) then 0%nat else 9%nat in
  match v_at s with
  | AtRest => 6 + extra | AtSetup _ => 5 + extra | AtRead _ => 4 + extra | AtTop _ => 3 + extra
  | AtCapture _ => 2 + extra | AtLook _ => 1 + extra
  | AtCallback _ => 9 | AtSwap _ _ => 8 | AtError => 7
  | _ => 0
  end.

Definition everybody (s : VideoSvc) : gset Z := subscribes (v_sp s) ∪ new_subscribes (v_sp s).

(** One step nearer, with the same connections. *)
Definition nearer (w : VideoWorld) (s : VideoSvc) (w' : VideoWorld) : Prop :=
  ∃ s', ready w' s' ∧ fits w' s' ∧ (rank s' < rank s)%nat ∧ everybody s' = everybody s.

Lemma ready_put w w' s s' : ready w s → v_idx s' = v_idx s → ok (v_sp s') = true →
  qos_ok (w_qos w') → w_screenshots w' !! v_idx s = None → ready (put name s' w') s'.
Proof.
  intros [H1 H2 H3 H4 H5] Ei Ho Hq Hs. split; cbn; try done.
  - by rewrite lookup_insert_eq.
  - by rewrite Ei.
  - by rewrite Ei.
Qed.

Lemma turn_eq w s : ready w s → turn w = svc_turn env name a s w.
Proof. intros H. unfold turn. cbn. by rewrite (rd_svc _ _ H). Qed.

Lemma vturn_rest w s : ready w s → v_at s = AtRest → nearer w s (turn w).
Proof.
  intros Hr Hat. rewrite (turn_eq w s Hr). unfold svc_turn. rewrite Hat. unfold step_enter.
  rewrite (rd_ok _ _ Hr), a_src. cbn [negb get_capturer]. unfold get_capturer_monitor.
  destruct (rd_display _ _ Hr) as [Hi Hd]. destruct (Z.ltb_spec (v_idx s) 0); [lia|]. rewrite Hd. cbn zeta.
  set (q := new_display name (w_qos w)). assert (qos_ok q) as Hq by apply (rd_qos _ _ Hr).
  change (w_qos (w <| w_qos := q |>)) with q. destruct (spf_bounds q) as (f & -> & _); [apply Hq|].
  pose proof (ratio_settles (ve_users env) q Hq) as Hset. destruct (ratio q) as [quality q'] eqn:Eq. cbn in Hset.
  eexists. split; [eapply (ready_put w); [exact Hr|done|apply Hr|apply Hset|apply Hr]|]. split; [|split].
  - cbn. split; [done|exact Hset].
  - unfold rank. rewrite Hat. cbn. lia.
  - done.
Qed.

Lemma turn_setup w s st : ready w s → v_at s = AtSetup st → fits w s → nearer w s (turn w).
Proof.
  intros Hr Hat Hf. rewrite (turn_eq w s Hr). unfold svc_turn, fits in *. rewrite Hat in *.
  eexists. split; [eapply (ready_put w); [exact Hr|done|apply Hr..]|]. split; [exact Hf|].
  split; [|done]. unfold rank. rewrite Hat. cbn. lia.
Qed.

Lemma ok_same sp sp' : active sp' = active sp → subscribes sp' = subscribes sp → new_subscribes sp' = new_subscribes sp →
  ok sp' = ok sp.
Proof. unfold ok, has_subscribes. by intros -> -> ->. Qed.

Lemma refresh_reset sp : let sp' := if is_option_true OPTION_REFRESH sp then set_option_bool OPTION_REFRESH false sp else sp in
  ok sp' = ok sp ∧ subscribes sp' = subscribes sp ∧ new_subscribes sp' = new_subscribes sp
  ∧ is_option_true OPTION_REFRESH sp' = false.
Proof.
  cbn zeta. destruct (is_option_true OPTION_REFRESH sp) eqn:E; [|done]. split_and!; [by apply ok_same|done..|].
  unfold is_option_true, svc_get_option, set_option_bool, svc_set_option. cbn. by rewrite lookup_insert_eq.
Qed.

Lemma turn_read w s st : ready w s → v_at s = AtRead st → fits w s → nearer w s (turn w).
Proof.
  intros Hr Hat Hf. rewrite (turn_eq w s Hr). unfold svc_turn, fits in *. rewrite Hat in *. destruct Hf as [Hc Hs].
  unfold step_read. rewrite a_enc. destruct (refresh_reset (v_sp s)) as (R1 & R2 & R3 & R4).
  set (sp' := if is_option_true _ _ then _ else _) in *.
  assert (encoder_new (ve_codec env) (ve_iter env) (s_cfg st) (Ok tt) (w_codec w) = (Ok tt, w_codec w)) as ->
    by (by destruct (s_cfg st)).
  eexists. split; [eapply (ready_put w); [exact Hr|done| | |]|].
  - cbn. rewrite R1. apply Hr.
  - cbn. unfold set_support_changing_quality. destruct (_ !! name); apply Hr.
  - apply Hr.
  - split; [|split].
    + cbn. split_and!; try done. apply settled_support, settled_store, Hs.
    + unfold rank. rewrite Hat. cbn. rewrite R3. lia.
    + unfold everybody. cbn. by rewrite R2, R3.
Qed.

Lemma turn_top w s r : ready w s → v_at s = AtTop r → fits w s → nearer w s (turn w).
Proof.
  intros Hr Hat Hf. rewrite (turn_eq w s Hr). unfold svc_turn, fits in *. rewrite Hat in *.
  destruct Hf as (Hc & Hs & Hfm & Hi & Hsec & Hlast & Hm & Href).
  unfold step_top. rewrite (rd_ok _ _ Hr). cbn [negb].
  destruct (check_qos_settled env (a_now a) name (a_accepted a) r (w_qos w) Hs Hsec) as (r' & -> & Er). rewrite Href.
  assert (w <| w_qos := w_qos w |> = w) as -> by (by destruct w).
  assert (r_format r' = r_format r ∧ r_cfg r' = r_cfg r ∧ r_i444 r' = r_i444 r ∧ r_cap r' = r_cap r
          ∧ r_last_check r' = r_last_check r ∧ r_made r' = r_made r) as (E1 & E2 & E3 & E4 & E5 & E6) by (by rewrite Er).
  rewrite E1, E2, E3, E4, E5, bool_decide_true, Hi, Bool.eqb_reflx by done. cbn [negb].
  assert (check_privacy_mode_changed env name (r_cap r) (a_all a) s w = (false, s, w)) as Hp.
  { unfold check_privacy_mode_changed. rewrite Hc, Z.eqb_refl. done. }
  rewrite Hp. assert (elapsed_ms (a_now a) (r_last_check r) = 0%Z) as ->.
  { rewrite Hlast. unfold elapsed_ms. by rewrite Z.sub_diag. }
  assert (nearer w s (put name (s <| v_at := AtCapture r' |>) w)); [|by destruct (is_monitor s)].
  eexists. split; [eapply (ready_put w); [exact Hr|done|apply Hr..]|]. split; [|split]; [cbn; congruence| |done].
  unfold rank. rewrite Hat. cbn. lia.
Qed.

Lemma turn_capture w s r : ready w s → v_at s = AtCapture r → fits w s → nearer w s (turn w).
Proof.
  intros Hr Hat Hf. rewrite (turn_eq w s Hr). unfold svc_turn, fits in *. rewrite Hat in *.
  unfold step_capture. rewrite a_cap, (rd_shot _ _ Hr). cbn [negb].
  eexists. split; [eapply (ready_put w); [exact Hr|done|apply Hr|apply Hr|cbn; by rewrite lookup_delete_eq]|].
  split; [exact Hf|]. split; [|done]. unfold rank. rewrite Hat. cbn. lia.
Qed.

Lemma turn_look w s r : ready w s → v_at s = AtLook r → fits w s → nearer w s (turn w).
Proof.
  intros Hr Hat Hf. rewrite (turn_eq w s Hr). unfold svc_turn, fits in *. rewrite Hat in *.
  eexists. split; [eapply (ready_put w); [exact Hr|done|apply Hr..]|].
  unfold rank, everybody. rewrite Hat. cbn. by case_bool_decide; cbn; split_and!; try done; try lia; case_bool_decide.
Qed.

Lemma vturn_callback w s r : ready w s → v_at s = AtCallback r → fits w s → nearer w s (turn w).
Proof.
  intros Hr Hat Hf. rewrite (turn_eq w s Hr). unfold svc_turn, fits in *. rewrite Hat in *.
  eexists. split; [eapply (ready_put w); [exact Hr|done|apply Hr..]|]. unfold rank. rewrite Hat. cbn.
  split_and!; [done|lia|done].
Qed.

Lemma vturn_swap w s r failed : ready w s → v_at s = AtSwap r failed → fits w s → nearer w s (turn w).
Proof.
  intros Hr Hat Hf. rewrite (turn_eq w s Hr). unfold svc_turn, fits in *. rewrite Hat in *. destruct failed; unfold leave;
    (eexists; split; [eapply (ready_put w); [exact Hr|done|by apply ok_swap, Hr|apply Hr|apply Hr]|]);
    unfold rank, everybody; rewrite Hat; cbn; split_and!; (done || lia || by rewrite (right_id_L ∅ (∪))).
Qed.

Lemma turn_error w s : ready w s → v_at s = AtError → fits w s → nearer w s (turn w).
Proof.
  intros Hr Hat Hf. rewrite (turn_eq w s Hr). unfold svc_turn, fits in *. rewrite Hat in *.
  eexists. split; [eapply (ready_put w); [exact Hr|done|apply Hr..]|]. unfold rank, everybody. rewrite Hat. cbn.
  split_and!; [done| |done]. apply negb_false_iff in Hf. rewrite Hf. lia.
Qed.

(** The frame. *)
Lemma turn_encode w s r id : ready w s → v_at s = AtEncode r → fits w s → id ∈ everybody s →
  last (frames name id (turn w)) = Some (mkFrame (v_idx s) (cfg_format (r_cfg r)) true (r_encoder r) 0).
Proof.
  intros Hr Hat Hf Hid. rewrite (turn_eq w s Hr). unfold svc_turn, fits, everybody in *. rewrite Hat in *.
  destruct Hf as [Hm Hn]. apply negb_false_iff, bool_decide_eq_true in Hn. rewrite Hn, (right_id_L ∅ (∪)) in Hid.
  unfold step_encode. rewrite a_key. unfold send_video_frame_shared.
  match goal with |- last (frames name id (put name ?s' ?w')) = _ => change (frames name id (put name s' w')) with (frames name id w') end.
  rewrite frame_sent, String.eqb_refl, bool_decide_true, last_snoc by done. cbn. by rewrite Hm.
Qed.

Lemma rank_pos w s : fits w s → rank s ≠ 0%nat ∨ ∃ r, v_at s = AtEncode r.
Proof. unfold fits, rank. destruct (v_at s); cbn; try done; try (left; lia); try (by right; eexists). Qed.

Lemma nearer_turn w s : ready w s → fits w s → rank s ≠ 0%nat → nearer w s (turn w).
Proof.
  intros Hr Hf Hk. destruct (v_at s) eqn:Hat; try (unfold rank in Hk; rewrite Hat in Hk; done).
  - by apply vturn_rest.
  - by eapply turn_setup.
  - by eapply turn_read.
  - by eapply turn_top.
  - by eapply turn_capture.
  - by eapply turn_look.
  - by eapply vturn_callback.
  - by eapply vturn_swap.
  - by apply turn_error.
Qed.

Lemma frame_comes k w s : ready w s → fits w s → (rank s <= k)%nat →
  ∃ n, (n <= S k)%nat ∧ ∀ id, id ∈ everybody s →
    ∃ f, last (frames name id (Nat.iter n turn w)) = Some f ∧ f_key f = true ∧ f_seq f = 0%nat.
Proof.
  revert w s; induction k as [|k IH]; intros w s Hr Hf Hk.
  - destruct (rank_pos w s Hf) as [?|[r Hat]]; [lia|]. exists 1%nat. split; [lia|]. intros id Hid.
    eexists. split; [by eapply turn_encode|done].
  - destruct (decide (rank s = 0%nat)) as [E|E].
    { destruct (rank_pos w s Hf) as [?|[r Hat]]; [done|]. exists 1%nat. split; [lia|]. intros id Hid.
      eexists. split; [by eapply turn_encode|done]. }
    destruct (nearer_turn w s Hr Hf E) as (s' & Hr' & Hf' & Hk' & Ee).
    destruct (IH (turn w) s' Hr' Hf') as (n & Hn & Hall); [lia|]. exists (S n). split; [lia|]. intros id Hid.
    rewrite Nat.iter_succ_r. apply Hall. by rewrite Ee.
Qed.

(** C28: the picture arrives.  A service that is outside of its loop and has somebody to
    send to, whether subscribed or waiting, sends all of them the first frame of a new
    encoder, a key frame, within sixteen of its steps, on these conditions.  At every one
    of the sixteen the service is the only one to move and gets the same answers at the
    same instant: the capturer of a display opens and captures a frame at once, the
    encoder opens and makes key frames.  The service's display is one of those listed,
    it has not panicked, the state of the quality is well formed, and no screenshot is
    waiting. *)
Theorem picture_arrives w s : ready w s → v_at s = AtRest →
  ∃ n, (n <= 16)%nat ∧ ∀ id, id ∈ everybody s →
    ∃ f, last (frames name id (video_run env (replicate n (VsTurn name a)) w)) = Some f ∧ f_key f = true ∧ f_seq f = 0%nat.
Proof.
  intros Hr Hat. destruct (frame_comes 15 w s Hr) as (n & Hn & Hall); [by unfold fits; rewrite Hat| |].
  { unfold rank. rewrite Hat. case_bool_decide; lia. }
  exists n. split; [lia|]. intros id Hid. specialize (Hall id Hid).
  assert (∀ m w0, video_run env (replicate m (VsTurn name a)) w0 = Nat.iter m turn w0) as ->; [|done].
  induction m as [|m IH]; intros w0; [done|]. rewrite Nat.iter_succ_r. apply IH.
Qed.

End Live.

Lemma picture_arrives_witness :
  let w := video_run sample_video_env video_start sample_video_world in
  ∃ n, (n <= 16)%nat ∧ ∃ f, last (frames "monitor0" 1 (video_run sample_video_env (turns "monitor0" n) w)) = Some f
    ∧ f_key f = true ∧ f_seq f = 0%nat.
Proof.
  intros w. set (s := mkVideoSvc (on_subscribe 1 (service_new "monitor0" true)) Monitor 0 AtRest HIBERNATE_TIMEOUT).
  destruct (picture_arrives sample_video_env "monitor0" (sample_answers 0) [sample_display] sample_display sample_pixels
    eq_refl eq_refl eq_refl eq_refl w s) as (n & Hn & Hall).
  - split; [vm_compute; reflexivity|vm_compute; reflexivity|by vm_compute|apply qos_default_ok|vm_compute; reflexivity].
  - reflexivity.
  - exists n. split; [exact Hn|]. apply Hall. apply elem_of_union_r. apply (bool_decide_unpack _). vm_compute. exact I.
Defined.
