(* ===== verification/Viewer.v ===== *)
(** * The pictures at the client

    What the client does with the pictures of the host: the part of the loop of
    [src/client/io_loop.rs] that receives frames, asks for others and sets the rate of
    them ([fps_control]), and the threads of [src/client.rs] that decode, one per
    display ([start_video_thread], [VideoHandler]).

    The loop and the threads share a bounded queue of frames per display, a channel and
    some flags; a step is one message of the loop or one message of a thread.  What
    travels from the interface to the loop goes through another channel, which the
    threads use too.  A decoder of the libraries is what it was opened for and the
    frames it was given since; what it answers is a function of them.  Instants are
    nanoseconds. *)

From S2P Require Import Prelude Strs Version Codecs Video.
From Stdlib Require Import Ascii String.
From stdpp Require Import gmap.

Local Open Scope string_scope.
#[local] Abbreviation length := Datatypes.length.
#[local] Arguments String.append _ _ : simpl nomatch.

Definition VIDEO_QUEUE_SIZE : nat := 120.
Definition MAX_DECODE_FAIL_COUNTER : Z := 3.
Definition PRIVACY_MODE_IMPL_WIN_VIRTUAL_DISPLAY : string := "privacy_mode_impl_virtual_display".

(** ** Messages *)

(** The union of a [VideoFrame]: of the encoded kinds, or RGB or YUV. *)
Inductive VfUnion := VfEncoded (f : EncodedFrame) | VfRaw.
Record VideoFrame := mkVf { vf_display : Z; vf_union : option VfUnion }.
(** What the host's frame is on the wire. *)
Definition wire (f : EncodedFrame) : VideoFrame := mkVf (f_display f) (Some (VfEncoded f)).

Definition CodecFormat_from (vf : VideoFrame) : CodecFormat :=
  match vf_union vf with Some (VfEncoded f) => f_format f | _ => Unknown end.
Definition contains_key_frame (vf : VideoFrame) : bool :=
  match vf_union vf with Some (VfEncoded f) => f_key f | _ => false end.

Inductive PeerMsg :=
| PmRefreshVideo
| PmRefreshVideoDisplay (display : Z)
| PmCustomFps (fps : Z)
| PmImageQuality (quality : Z)
| PmSupportedDecoding (d : SupportedDecoding)
| PmClientRecordStatus (start : bool)
| PmScreenshotRequest (display : Z) (sid : string)
| PmToggleVirtualDisplay (display : Z)
| PmTogglePrivacyMode (impl_key : string).

(** The messages of the interface to the loop ([Data]) that concern pictures. *)
Inductive UiData :=
| UdMessage (m : PeerMsg)
| UdResetDecoder (display : option Z)
| UdRecordScreen (start : bool)
| UdTakeScreenshot (display : Z) (sid : string).

Inductive MediaData :=
| MdVideoQueue
| MdVideoFrame (vf : VideoFrame)
| MdReset
| MdRecordScreen (start : bool).

(** ** Decoders *)

Record Decoder := mkDecoder { d_format : CodecFormat; d_valid : bool; d_fed : list EncodedFrame }.

(** [vh_recorder]: what the recorder has written. *)
Record VideoHandler := mkHandler {
  vh_decoder : Decoder; vh_recorder : option (list VfUnion); vh_record : bool; vh_fail_counter : Z; vh_first_frame : bool
}.
#[global] Instance eta_VideoHandler : Settable VideoHandler := λ h,
  mkHandler (vh_decoder h) (vh_recorder h) (vh_record h) (vh_fail_counter h) (vh_first_frame h).

(** The locals of the thread that [fps_calculate] works on. *)
Record FpsCount := mkFpsCount { fc_count : Z; fc_duration : Z; fc_skip : Z }.
Definition fps_count_new : FpsCount := mkFpsCount 0 0 0.

Record FpsControl := mkControl {
  refresh_times : Z; last_refresh_instant : option Z; idle_counter : Z; inactive_counter : Z
}.
#[global] Instance eta_FpsControl : Settable FpsControl := λ c,
  mkControl (refresh_times c) (last_refresh_instant c) (idle_counter c) (inactive_counter c).
Definition FpsControl_default : FpsControl := mkControl 0 None 0 0.

(** A [VideoThread] of the loop, and the locals of the thread it talks to:
    [vt_handler] and [vt_count]; [vt_shown]: the frames given to [video_callback]. *)
Record VideoThread := mkThread {
  vt_queue : list VideoFrame; vt_chan : list MediaData; vt_decode_fps : option Z; vt_frame_count : Z;
  vt_discard : bool; vt_ctl : FpsControl; vt_created : Z;
  vt_handler : option VideoHandler; vt_count : FpsCount; vt_shown : list VideoFrame
}.
#[global] Instance eta_VideoThread : Settable VideoThread := λ t,
  mkThread (vt_queue t) (vt_chan t) (vt_decode_fps t) (vt_frame_count t) (vt_discard t) (vt_ctl t) (vt_created t)
    (vt_handler t) (vt_count t) (vt_shown t).

(** Of [LoginConfigHandler] and the session. *)
Record ViewerLc := mkLc {
  mark_unsupported : list CodecFormat; lc_record_state : bool; lc_record_permission : bool;
  last_auto_fps : option Z; lc_custom_fps : option Z
}.
#[global] Instance eta_ViewerLc : Settable ViewerLc := λ l,
  mkLc (mark_unsupported l) (lc_record_state l) (lc_record_permission l) (last_auto_fps l) (lc_custom_fps l).

(** [vw_data]: the channel of [Data]; [vw_out]: what went to the peer. *)
Record ViewerWorld := mkViewer {
  vw_threads : gmap Z VideoThread; vw_first_frame : bool; vw_video_format : CodecFormat;
  vw_last_record_state : bool; vw_lc : ViewerLc; vw_data : list UiData; vw_out : list PeerMsg
}.
#[global] Instance eta_ViewerWorld : Settable ViewerWorld := λ w,
  mkViewer (vw_threads w) (vw_first_frame w) (vw_video_format w) (vw_last_record_state w) (vw_lc w) (vw_data w) (vw_out w).

Record ViewerEnv := {
  vi_opens : CodecFormat → bool;                    (* whether a decoder can be opened *)
  vi_decode : CodecFormat → list EncodedFrame → EncodedFrame → result string bool;
                                                    (* what one that was given frames answers to the next *)
  vi_force_push : VideoFrame → list VideoFrame → option VideoFrame * list VideoFrame;
                                                    (* of [ArrayQueue]: what it replaced, and the queue *)
  vi_iter : gmap Z VideoThread → list (Z * VideoThread);
  vi_version : Z;                                   (* of the peer *)
  vi_codec : CodecEnv; vi_codec_state : CodecState; (* what this side can decode *)
  vi_id : string; vi_options : string → gmap string string;
  vi_auto_record : bool;                            (* "allow-auto-record-outgoing" *)
  vi_option : string → string;                      (* [get_option] of the session *)
  vi_privacy_mode : bool;                           (* its option "privacy-mode" *)
  vi_platform : string; vi_installed : bool; vi_idd_impl : string  (* [ParsedPeerInfo] *)
}.

Section Viewer.
Variable env : ViewerEnv.

(** ** [VideoHandler] *)

(** [Decoder::new]. *)
Definition Decoder_new (f : CodecFormat) : Decoder :=
  mkDecoder f (match f with Unknown => false | _ => vi_opens env f end) [].

Definition not_available (f : CodecFormat) : string :=
  match f with
  | VP8 => "vp8 decoder not available"
  | VP9 => "vp9 decoder not available"
  | AV1 => "av1 decoder not available"
  | H264 => "don't support h264!"
  | H265 => "don't support h265!"
  | Unknown => "unsupported video frame type!"
  end.

(** [Decoder::handle_video_frame]: a decoder that is not valid has no codec, and none
    has a codec of another format than its own. *)
Definition handle_video_frame (u : VfUnion) (d : Decoder) : result string bool * Decoder :=
  match u with
  | VfRaw => (Err (not_available Unknown), d)
  | VfEncoded f =>
      if d_valid d && bool_decide (f_format f = d_format d)
      then (vi_decode env (d_format d) (d_fed d) f, mkDecoder (d_format d) (d_valid d) (d_fed d ++ [f]))
      else (Err (not_available (f_format f)), d)
  end.

Definition VideoHandler_new (f : CodecFormat) : VideoHandler := mkHandler (Decoder_new f) None false 0 true.

Definition reset (f : option CodecFormat) (h : VideoHandler) : VideoHandler :=
  h <| vh_decoder := Decoder_new (default (d_format (vh_decoder h)) f) |> <| vh_fail_counter := 0%Z |>
    <| vh_first_frame := true |>.

Definition handle_frame (vf : VideoFrame) (h : VideoHandler) : result string bool * VideoHandler :=
  let format := CodecFormat_from vf in
  let h := if bool_decide (format = d_format (vh_decoder h)) then h else reset (Some format) h in
  match vf_union vf with
  | None => (Ok false, h)
  | Some u =>
      let '(res, d) := handle_video_frame u (vh_decoder h) in
      let h := h <| vh_decoder := d |> in
      let fails :=
        match res with
        | Ok true => 0%Z
        | _ =>
            if (vh_fail_counter h <? 2 ^ 64 - 1)%Z then
              if vh_first_frame h && (vh_fail_counter h <? MAX_DECODE_FAIL_COUNTER)%Z then MAX_DECODE_FAIL_COUNTER
              else (vh_fail_counter h + 1)%Z
            else vh_fail_counter h
        end in
      let h := h <| vh_fail_counter := fails |> <| vh_first_frame := false |> in
      (res, if vh_record h then h <| vh_recorder := (λ l, l ++ [u])%list <$> vh_recorder h |> else h)
  end.

(** [created]: whether the recorder could be created. *)
Definition record_screen (start created : bool) (h : VideoHandler) : VideoHandler :=
  h <| vh_recorder := if start && created then Some [] else None |> <| vh_record := start |>.

(** [elapsed]: how long the frame took. *)
Definition fps_calculate (format_changed : bool) (elapsed : Z) (c : FpsCount) (fps : option Z) : FpsCount * option Z :=
  let c := if format_changed then fps_count_new else c in
  if (fc_skip c <? 3)%Z then (mkFpsCount (fc_count c) (fc_duration c) (fc_skip c + 1), fps)
  else
    let duration := (fc_duration c + elapsed)%Z in
    let count := (fc_count c + 1)%Z in
    let ms := (duration / 10 ^ 6)%Z in
    let fps := if (count mod 10 =? 0)%Z && (0 <? ms)%Z then Some (count * 1000 / ms)%Z else fps in
    (if (30 <=? count)%Z then mkFpsCount 0 0 (fc_skip c) else mkFpsCount count duration (fc_skip c), fps).

(** ** The session *)

Definition push_data (d : UiData) (w : ViewerWorld) : ViewerWorld := w <| vw_data := (vw_data w ++ [d])%list |>.
Definition send_peer (m : PeerMsg) (w : ViewerWorld) : ViewerWorld := w <| vw_out := (vw_out w ++ [m])%list |>.
Definition put_thread (d : Z) (t : VideoThread) (w : ViewerWorld) : ViewerWorld := w <| vw_threads := <[d := t]> (vw_threads w) |>.
Definition on_threads (f : VideoThread → VideoThread) (w : ViewerWorld) : ViewerWorld := w <| vw_threads := f <$> vw_threads w |>.
Definition on_thread (d : Z) (f : VideoThread → VideoThread) (w : ViewerWorld) : ViewerWorld :=
  w <| vw_threads := alter f d (vw_threads w) |>.
Definition send_media (m : MediaData) (t : VideoThread) : VideoThread := t <| vt_chan := (vt_chan t ++ [m])%list |>.

(** [refresh_display], [refresh]. *)
Definition refresh_message (display : Z) : PeerMsg :=
  if is_support_multi_ui_session_num (vi_version env) then PmRefreshVideoDisplay (swrap 32 (wrap 64 display)) else PmRefreshVideo.
(** [Session::refresh_video], of the display of a thread. *)
Definition refresh_video (display : Z) (w : ViewerWorld) : ViewerWorld :=
  push_data (UdMessage (refresh_message (swrap 32 display))) w.

Definition update_supported_decodings (lc : ViewerLc) : PeerMsg :=
  PmSupportedDecoding
    (supported_decodings (vi_codec env) (Some (vi_id env)) (vi_options env) (mark_unsupported lc) (vi_codec_state env)).

Definition update_record_state (w : ViewerWorld) : ViewerWorld :=
  let permission := lc_record_permission (vw_lc w) in
  let w := if permission then w else w <| vw_lc := vw_lc w <| lc_record_state := false |> |> in
  let start := lc_record_state (vw_lc w) && permission in
  if Bool.eqb (vw_last_record_state w) start then w
  else push_data (UdMessage (PmClientRecordStatus start))
         (on_threads (send_media (MdRecordScreen start)) (w <| vw_last_record_state := start |>)).

(** ** The loop *)

Definition new_video_thread (now display : Z) (w : ViewerWorld) : ViewerWorld :=
  let w := put_thread display (mkThread [] [] None 0 false FpsControl_default now None fps_count_new []) w in
  if (base.size (vw_threads w) =? 1)%nat
  then update_record_state (w <| vw_lc := vw_lc w <| lc_record_state := vi_auto_record env |> |>)
  else w.

Definition is_support_virtual_display : bool :=
  vi_installed env && String.eqb (vi_platform env) "Windows"
  && (String.eqb (vi_idd_impl env) "luoda_idd" || String.eqb (vi_idd_impl env) "amyuni_idd").

Definition send_toggle_virtual_display_msg (w : ViewerWorld) : ViewerWorld :=
  if negb is_support_virtual_display then w
  else foldl (λ w d, match parse_i32 d with Some i => send_peer (PmToggleVirtualDisplay i) w | None => w end) w
         (split_on "," (vi_option env "virtual-display")).

Definition send_toggle_privacy_mode_msg (w : ViewerWorld) : ViewerWorld :=
  if (get_version_number "1.2.4" <=? vi_version env)%Z && vi_privacy_mode env then
    let impl_key := vi_option env "privacy-mode-impl-key" in
    if String.eqb impl_key PRIVACY_MODE_IMPL_WIN_VIRTUAL_DISPLAY && negb is_support_virtual_display then w
    else send_peer (PmTogglePrivacyMode impl_key) w
  else w.

(** A frame for the thread of its display. *)
Definition give_frame (vf : VideoFrame) (display : Z) (t : VideoThread) (w : ViewerWorld) : ViewerWorld :=
  if contains_key_frame vf then put_thread display (send_media (MdVideoFrame vf) t) w
  else
    let '(old, q) := vi_force_push env vf (vt_queue t) in
    let t := t <| vt_queue := q |> in
    match old with
    | Some _ => refresh_video display (put_thread display t w)
    | None => put_thread display (send_media MdVideoQueue t) w
    end.

(** [handle_msg_from_peer], of a frame. *)
Definition on_video_frame (now : Z) (vf : VideoFrame) (w : ViewerWorld) : ViewerWorld :=
  let w := if vw_first_frame w then w
           else send_toggle_privacy_mode_msg (send_toggle_virtual_display_msg (w <| vw_first_frame := true |>)) in
  let w := w <| vw_video_format := CodecFormat_from vf |> in
  let display := wrap 64 (vf_display vf) in
  let w := match vw_threads w !! display with Some _ => w | None => new_video_thread now display w end in
  match vw_threads w !! display with Some t => give_frame vf display t w | None => w end.

(** [handle_msg_from_peer], of [SwitchDisplay]. *)
Definition on_switch_display (display : Z) (w : ViewerWorld) : ViewerWorld :=
  on_thread (wrap 64 display) (send_media MdReset) w.
(** Of the permission to record. *)
Definition on_record_permission (enabled : bool) (w : ViewerWorld) : ViewerWorld :=
  update_record_state (w <| vw_lc := vw_lc w <| lc_record_permission := enabled |> |>).

Definition discard (t : VideoThread) : VideoThread := t <| vt_discard := true |>.

Definition handle_msg_from_ui (d : UiData) (w : ViewerWorld) : ViewerWorld :=
  match d with
  | UdMessage m =>
      let w := match m with
               | PmRefreshVideo => on_threads discard w
               | PmRefreshVideoDisplay display => on_thread (wrap 64 display) discard w
               | _ => w
               end in
      send_peer m w
  | UdResetDecoder (Some display) => on_thread display (send_media MdReset) w
  | UdResetDecoder None => on_threads (send_media MdReset) w
  | UdRecordScreen start => update_record_state (w <| vw_lc := vw_lc w <| lc_record_state := start |> |>)
  | UdTakeScreenshot display sid => send_peer (PmScreenshotRequest display sid) w
  end.

(** ** The rate of the frames *)

(** The least of some options; [None] is less than any other. *)
Definition min_opt (l : list (option Z)) : option Z :=
  match l with
  | [] => None
  | x :: l => foldl (λ m y, match m, y with Some a, Some b => Some (Z.min a b) | _, _ => None end) x l
  end.

Definition len (t : VideoThread) : Z := Z.of_nat (length (vt_queue t)).
Definition inactive_threshold : Z := 15.

Definition count_inactive (real_fps : Z) (t : VideoThread) : VideoThread :=
  t <| vt_ctl := vt_ctl t <| inactive_counter := if (real_fps =? 0)%Z then (inactive_counter (vt_ctl t) + 1)%Z else 0%Z |> |>.

(** Whether the thread may be refreshed again. *)
Definition may_refresh (now : Z) (c : FpsControl) : bool :=
  (refresh_times c <? 20)%Z
  && ((refresh_times c =? 0)%Z
      || match last_refresh_instant c with Some t => (10 <? elapsed_ms now t / 1000)%Z | None => false end).

(** Requests a refresh of the threads chosen, in the order they are in. *)
Definition refresh_threads (now : Z) (chosen : VideoThread → bool) (w : ViewerWorld) : ViewerWorld :=
  foldl (λ w dt, on_thread dt.1
                   (λ t, t <| vt_ctl := vt_ctl t <| refresh_times := (refresh_times (vt_ctl t) + 1)%Z |>
                                                 <| last_refresh_instant := Some now |> |>)
                   (refresh_video dt.1 w))
    w (List.filter (λ dt, chosen dt.2) (vi_iter env (vw_threads w))).

Definition no_frame_yet (now : Z) (t : VideoThread) : bool :=
  (3 * 10 ^ 9 <? Z.max 0 (now - vt_created t))%Z && may_refresh now (vt_ctl t).

(** The closure [fps_trending]. *)
Definition fps_trending (last limited_fps : Z) (t : VideoThread) : option bool * VideoThread :=
  match vt_decode_fps t with
  | None => (None, t)
  | Some decode_fps =>
      let idle n := t <| vt_ctl := vt_ctl t <| idle_counter := n |> |> in
      if (inactive_threshold <? inactive_counter (vt_ctl t))%Z then (None, t)
      else if ((1 <? len t)%Z && (limited_fps <? last)%Z) || (Z.max 1 (decode_fps / 2) <? len t)%Z then (Some false, idle 0%Z)
      else if (len t <=? 1)%Z then
        let n := (idle_counter (vt_ctl t) + 1)%Z in
        (if (3 <? n)%Z && (last + 3 <=? limited_fps)%Z then Some true else None, idle n)
      else (None, idle 0%Z)
  end.

(** The rate a slow or a fast decoder leads to. *)
Definition auto_fps (limited_fps max_queue_len : Z) (should_decrease : bool) : Z :=
  Z.max 1 (if should_decrease && (limited_fps <? max_queue_len)%Z then limited_fps / 2 else limited_fps).

Definition custom_fps_of (lc : ViewerLc) : Z :=
  let c := default 30%Z (lc_custom_fps lc) in if (c <? 5)%Z || (120 <? c)%Z then 30%Z else c.

Definition set_auto_fps (fps : Z) (w : ViewerWorld) : ViewerWorld :=
  if bool_decide (Some fps = last_auto_fps (vw_lc w)) then w
  else push_data (UdMessage (PmCustomFps (swrap 32 fps))) w <| vw_lc := vw_lc w <| last_auto_fps := Some fps |> |>.

Definition fps_control (now : Z) (direct : bool) (real_fps : gmap Z Z) (w : ViewerWorld) : ViewerWorld :=
  let w := w <| vw_threads := map_imap (λ d t, Some (count_inactive (default 0%Z (real_fps !! d)) t)) (vw_threads w) |> in
  let custom_fps := custom_fps_of (vw_lc w) in
  let threads := map snd (vi_iter env (vw_threads w)) in
  let max_queue_len := foldr (λ t m, Z.max (len t) m) 0%Z threads in
  match min_opt (map vt_decode_fps (List.filter (λ t, inactive_counter (vt_ctl t) <? inactive_threshold)%Z threads)) with
  | None => refresh_threads now (no_frame_yet now) w
  | Some min_decode_fps =>
      let limited_fps := Z.min (if direct then min_decode_fps * 9 / 10 else min_decode_fps * 4 / 5) custom_fps in
      let last := last_auto_fps (vw_lc w) in
      let trend t := fps_trending (default custom_fps last) limited_fps t in
      let trendings := map (λ t, (trend t).1) threads in
      let w := on_threads (λ t, (trend t).2) w in
      let should_decrease := existsb (λ v, bool_decide (v = Some false)) trendings in
      let should_increase := negb should_decrease && existsb (λ v, bool_decide (v = Some true)) trendings in
      let w := if bool_decide (last = None) || should_decrease || should_increase
               then set_auto_fps (auto_fps limited_fps max_queue_len should_decrease) w else w in
      refresh_threads now
        (λ t, (Z.min min_decode_fps (Z.of_nat VIDEO_QUEUE_SIZE / 2) <? len t)%Z && may_refresh now (vt_ctl t)) w
  end.

(** The tick of [status_timer], [elapsed] milliseconds after the one before. *)
Definition on_status (now elapsed : Z) (direct : bool) (w : ViewerWorld) : ViewerWorld :=
  if (elapsed <? 1000)%Z then w
  else
    let fps := (λ t, swrap 32 (swrap 32 (vt_frame_count t) * 1000) ÷ swrap 32 elapsed)%Z <$> vw_threads w in
    fps_control now direct fps (on_threads (λ t, t <| vt_frame_count := 0%Z |>) w).

(** ** The thread of a display *)

(** The check of [start_video_thread] for decoders that do not work. *)
Definition check_decoder (h : VideoHandler) (w : ViewerWorld) : ViewerWorld :=
  let format := d_format (vh_decoder h) in
  if (negb (d_valid (vh_decoder h)) || (MAX_DECODE_FAIL_COUNTER <=? vh_fail_counter h)%Z)
     && negb (bool_decide (format ∈ mark_unsupported (vw_lc w)))
  then
    let w := w <| vw_lc := vw_lc w <| mark_unsupported := (mark_unsupported (vw_lc w) ++ [format])%list |> |> in
    push_data (UdMessage (update_supported_decodings (vw_lc w))) w
  else w.

(** A frame in the thread [key]; [created]: whether a recorder can be created. *)
Definition decode_frame (key : Z) (vf : VideoFrame) (elapsed : Z) (created : bool) (t : VideoThread) (w : ViewerWorld) : ViewerWorld :=
  let format := CodecFormat_from vf in
  let h := match vt_handler t with
           | Some h => h
           | None =>
               let h := VideoHandler_new format in
               if lc_record_state (vw_lc w) && lc_record_permission (vw_lc w) then record_screen true created h else h
           end in
  let format_changed := negb (bool_decide (d_format (vh_decoder h) = format)) in
  let '(res, h) := handle_frame vf h in
  let t := t <| vt_handler := Some h |> in
  let w := match res with
           | Ok true =>
               let '(count, fps) := fps_calculate format_changed elapsed (vt_count t) (vt_decode_fps t) in
               put_thread key (t <| vt_frame_count := (vt_frame_count t + 1)%Z |> <| vt_shown := (vt_shown t ++ [vf])%list |>
                                 <| vt_count := count |> <| vt_decode_fps := fps |>) w
           | Ok false => put_thread key t w
           | Err _ => refresh_video (wrap 64 (vf_display vf)) (put_thread key t w)
           end in
  check_decoder h w.

(** A message in the thread [key]. *)
Definition thread_step (key elapsed : Z) (created : bool) (w : ViewerWorld) : ViewerWorld :=
  match vw_threads w !! key with
  | None => w
  | Some t =>
      match vt_chan t with
      | [] => w
      | m :: chan =>
          let t := t <| vt_chan := chan |> in
          match m with
          | MdVideoFrame vf => decode_frame key vf elapsed created (t <| vt_discard := false |>) w
          | MdVideoQueue =>
              match vt_queue t with
              | [] => put_thread key t w
              | vf :: q =>
                  let t := t <| vt_queue := q |> in
                  if vt_discard t then put_thread key t w else decode_frame key vf elapsed created t w
              end
          | MdReset => put_thread key (t <| vt_handler := reset None <$> vt_handler t |>) w
          | MdRecordScreen start => put_thread key (t <| vt_handler := record_screen start created <$> vt_handler t |>) w
          end
      end
  end.

(** ** What the user sets *)

(** [LoginConfigHandler::set_custom_fps], whose message is sent at once. *)
Definition set_custom_fps (fps : Z) (w : ViewerWorld) : ViewerWorld :=
  push_data (UdMessage (PmCustomFps fps)) (w <| vw_lc := vw_lc w <| lc_custom_fps := Some (wrap 64 fps) |> |>).

(** [get_image_quality_enum], with the default among them. *)
Definition quality_value (value : string) : option Z :=
  if String.eqb value "low" then Some 2%Z
  else if String.eqb value "best" then Some 4%Z
  else if String.eqb value "balanced" then Some 3%Z
  else None.

(** [Session::save_image_quality]. *)
Definition save_quality (value : string) (w : ViewerWorld) : ViewerWorld :=
  let w := match quality_value value with Some q => push_data (UdMessage (PmImageQuality q)) w | None => w end in
  if negb (String.eqb value "custom") && (30 <=? default (2 ^ 64 - 1) (last_auto_fps (vw_lc w)))%Z
  then set_custom_fps 30 w else w.

(** ** Steps *)

Inductive ViewerStep :=
| VwFrame (now : Z) (vf : VideoFrame)
| VwSwitchDisplay (display : Z)
| VwRecordPermission (enabled : bool)
| VwAsk (d : UiData)                                 (* the interface sends to the loop *)
| VwUi                                               (* the loop receives it *)
| VwCustomFps (fps : Z)                              (* the user sets the rate *)
| VwQuality (value : string)                         (* the user chooses a quality *)
| VwStatus (now elapsed : Z) (direct : bool)
| VwThread (key elapsed : Z) (created : bool).

Definition viewer_step (x : ViewerStep) (w : ViewerWorld) : ViewerWorld :=
  match x with
  | VwFrame now vf => on_video_frame now vf w
  | VwSwitchDisplay display => on_switch_display display w
  | VwRecordPermission enabled => on_record_permission enabled w
  | VwAsk d => push_data d w
  | VwUi => match vw_data w with [] => w | d :: ds => handle_msg_from_ui d (w <| vw_data := ds |>) end
  | VwCustomFps fps => set_custom_fps fps w
  | VwQuality value => save_quality value w
  | VwStatus now elapsed direct => on_status now elapsed direct w
  | VwThread key elapsed created => thread_step key elapsed created w
  end.
Definition viewer_run (xs : list ViewerStep) (w : ViewerWorld) : ViewerWorld := foldl (λ w x, viewer_step x w) w xs.

Definition viewer_new (marked : list CodecFormat) (custom : option Z) : ViewerWorld :=
  mkViewer ∅ false Unknown false (mkLc marked false true None custom) [] [].
End Viewer.
