(* ===== verification/ViewerSafety.v ===== *)
(** * What the client shows

    Theorems on [Viewer]: as long as the queue of a display has room, its decoder is
    given frames it can decode and the frames are shown in the order they arrive;
    with [VideoSafety], what the host encodes for a peer is what the peer shows.  The
    rate and the refreshes the client asks for stay within their bounds.  Last, where
    it goes wrong. *)

From S2P Require Import Prelude Strs F32 VideoQos Version Options Services Displays Codecs CodecsSafety Video VideoSafety Viewer.
From Stdlib Require Import Ascii String.
From stdpp Require Import gmap.

Local Open Scope string_scope.
#[local] Abbreviation length := Datatypes.length.
#[local] Arguments String.append _ _ : simpl nomatch.

(** ** What arrives and what waits *)

Definition encoded (vf : VideoFrame) : option EncodedFrame :=
  match vf_union vf with Some (VfEncoded f) => Some f | _ => None end.
Definition item (vf : VideoFrame) : Arrival := match encoded vf with Some f => ArFrame f | None => ArSwitch end.
Definition told_of (d : Z) (x : ViewerStep) : option Arrival :=
  match x with
  | VwFrame _ vf => if bool_decide (wrap 64 (vf_display vf) = d) then Some (item vf) else None
  | VwSwitchDisplay s => if bool_decide (wrap 64 s = d) then Some ArSwitch else None
  | _ => None
  end.
(** What a run tells of a display. *)
Definition told (d : Z) (xs : list ViewerStep) : list Arrival := omap (told_of d) xs.
Definition ar_frames (l : list Arrival) : list EncodedFrame :=
  omap (λ x, match x with ArFrame f => Some f | ArSwitch => None end) l.
(** The frames a display has shown. *)
Definition shown_frames (t : VideoThread) : list EncodedFrame := omap encoded (vt_shown t).

(** What waits in a channel and its queue, in the order the thread will find it. *)
Fixpoint pend (chan : list MediaData) (q : list VideoFrame) : list Arrival :=
  match chan with
  | [] => []
  | MdVideoFrame vf :: chan => item vf :: pend chan q
  | MdVideoQueue :: chan => match q with vf :: q => item vf :: pend chan q | [] => pend chan [] end
  | MdReset :: chan => ArSwitch :: pend chan q
  | MdRecordScreen _ :: chan => pend chan q
  end.
Definition tokens (chan : list MediaData) : nat :=
  length (List.filter (λ m, match m with MdVideoQueue => true | _ => false end) chan).

Lemma tokens_app c c' : tokens (c ++ c') = (tokens c + tokens c')%nat.
Proof. unfold tokens. by rewrite List.filter_app, length_app. Qed.

Lemma pend_app c c' q q' : tokens c = length q → pend (c ++ c') (q ++ q') = (pend c q ++ pend c' q')%list.
Proof.
  unfold tokens.
  revert q; induction c as [|m c IH]; intros q H.
  - by destruct q.
  - destruct m; cbn in *; try (by rewrite IH). destruct q as [|vf q]; [done|]. cbn in *. rewrite IH by lia. done.
Qed.

Lemma ar_frames_app l l' : ar_frames (l ++ l') = (ar_frames l ++ ar_frames l')%list.
Proof. apply omap_app. Qed.

Lemma chained_prefix l l' : chained (l ++ l') → chained l.
Proof.
  intros H i f Hi. destruct (H i f) as [?|(j & p & -> & Hj & Hp)]; [by apply lookup_app_l_Some|by left|right].
  exists j, p. split_and!; [done| |done]. apply lookup_lt_Some in Hi. by rewrite lookup_app_l in Hj by lia.
Qed.

(** What a chain says of the item after a prefix. *)
Lemma chained_next P f l : chained (P ++ ArFrame f :: l) →
  f_key f = true ∨ ∃ p, last P = Some (ArFrame p) ∧ follows p f.
Proof.
  intros H. destruct (H (length P) f) as [?|(j & p & Hj & Hl & Hp)]; [by apply list_lookup_middle|by left|right].
  exists p. split; [|done]. rewrite last_lookup, Hj. cbn. by rewrite lookup_app_l in Hl by lia.
Qed.

(** ** Decoders that do their work *)

(** Frames that build on each other, all of a format. *)
Definition stream (format : CodecFormat) (l : list EncodedFrame) : Prop :=
  chained (ArFrame <$> l) ∧ Forall (λ f, f_format f = format) l.

Section Decoders.
  Variable env : ViewerEnv.
  (** A decoder decodes what is encoded for it. *)
  Hypothesis decodes : ∀ format l f, stream format (l ++ [f]) → vi_decode env format l f = Ok true.
  (** A queue that is not full takes a frame. *)
  Hypothesis pushes : ∀ vf q, (length q < VIDEO_QUEUE_SIZE)%nat → vi_force_push env vf q = (None, q ++ [vf])%list.

Definition openable (f : CodecFormat) : bool := d_valid (Decoder_new env f).

Definition sound (h : VideoHandler) : Prop :=
  d_valid (vh_decoder h) = true ∧ vh_fail_counter h = 0%Z ∧ stream (d_format (vh_decoder h)) (d_fed (vh_decoder h)).
(** A frame that a handler, if there is one, can decode. *)
Definition fit (h : option VideoHandler) (f : EncodedFrame) : Prop :=
  f_key f = true ∨ ∃ h0 p, h = Some h0 ∧ last (d_fed (vh_decoder h0)) = Some p ∧ follows p f.

Lemma stream_snoc format l f : stream format l → f_format f = format →
  f_key f = true ∨ (∃ p, last l = Some p ∧ follows p f) → stream format (l ++ [f]).
Proof.
  intros [H1 H2] Hf Hk. split; [|apply Forall_app_2; [done|by constructor]]. rewrite fmap_app. cbn.
  apply chained_snoc; [done|]. destruct Hk as [?|(p & Hp & Hfo)]; [by left|right]. exists p. by rewrite fmap_last, Hp.
Qed.

Lemma new_sound f : openable f = true → sound (VideoHandler_new env f).
Proof. intros H. split_and!; [done..|]. split; [apply chained_nil|constructor]. Qed.

Lemma reset_sound f h : openable (default (d_format (vh_decoder h)) f) = true → sound (reset env f h).
Proof. intros H. split_and!; [done..|]. split; [apply chained_nil|constructor]. Qed.

Lemma record_sound start created h : sound (record_screen start created h) ↔ sound h.
Proof. done. Qed.

Lemma handle_frame_sound vf f h : sound h → encoded vf = Some f → openable (f_format f) = true → fit (Some h) f →
  ∃ h', handle_frame env vf h = (Ok true, h') ∧ sound h' ∧ last (d_fed (vh_decoder h')) = Some f.
Proof.
  intros Hs Hvf Ho Hfit. unfold encoded in Hvf. destruct (vf_union vf) as [[g|]|] eqn:Eu; try done. injection Hvf as ->.
  unfold handle_frame, CodecFormat_from. rewrite Eu. set (h1 := if bool_decide _ then h else _).
  assert (sound h1 ∧ d_format (vh_decoder h1) = f_format f
          ∧ (f_key f = true ∨ ∃ p, last (d_fed (vh_decoder h1)) = Some p ∧ follows p f)) as (H1 & H2 & H3).
  { unfold h1. case_bool_decide as E; [split_and!; [done..|]; destruct Hfit as [?|(h0 & p & [= <-] & Hp)]; [by left|right; by exists p]|].
    split_and!; [by apply reset_sound|done|]. destruct Hfit as [?|(h0 & p & [= <-] & Hp & Hf)]; [by left|].
    destruct Hs as (_ & _ & _ & Hall). destruct E. destruct Hf as (_ & <- & _). rewrite Forall_forall in Hall.
    apply Hall, last_Some_elem_of, Hp. }
  clearbody h1. destruct H1 as (V1 & V2 & V3). unfold handle_video_frame. rewrite V1, H2, bool_decide_true by done. cbn [andb].
  assert (stream (f_format f) (d_fed (vh_decoder h1) ++ [f])) as Hst by (apply stream_snoc; congruence).
  rewrite decodes by done. cbv zeta. eexists. split; [reflexivity|].
  destruct (vh_record _); cbn; (split; [split_and!; done|by rewrite last_snoc]).
Qed.

(** ** The thread *)

Definition vf_ok (vf : VideoFrame) : Prop := ∃ f, encoded vf = Some f ∧ openable (f_format f) = true.
Definition is_refresh (m : PeerMsg) : bool :=
  match m with PmRefreshVideo | PmRefreshVideoDisplay _ => true | _ => false end.
Definition refreshed (w : ViewerWorld) : bool := existsb is_refresh (vw_out w).

(** [P]: what the thread has been through. *)
Record through (A : list Arrival) (r : bool) (t : VideoThread) (P : list Arrival) : Prop := {
  th_all : A = (P ++ pend (vt_chan t) (vt_queue t))%list;
  th_tokens : tokens (vt_chan t) = length (vt_queue t);
  th_chan : ∀ vf, MdVideoFrame vf ∈ vt_chan t → vf_ok vf;
  th_queue : ∀ vf, vf ∈ vt_queue t → vf_ok vf;
  th_key : ∀ vf f, MdVideoFrame vf ∈ vt_chan t → encoded vf = Some f → f_key f = true;
  th_sound : ∀ h, vt_handler t = Some h → sound h ∧ openable (d_format (vh_decoder h)) = true;
  th_sync : vt_discard t = false → ∀ p, last P = Some (ArFrame p) →
    ∃ h, vt_handler t = Some h ∧ last (d_fed (vh_decoder h)) = Some p;
  th_shown : shown_frames t `sublist_of` ar_frames P;
  th_exact : r = false → vt_discard t = false ∧ shown_frames t = ar_frames P
}.
Definition thread_ok (A : list Arrival) (r : bool) (t : VideoThread) : Prop := ∃ P, through A r t P.

(** What the invariant is about. *)
Definition core (t : VideoThread) := (vt_queue t, vt_chan t, vt_discard t, vt_handler t, vt_shown t).

Lemma thread_ok_core A r t t' : core t' = core t → thread_ok A r t → thread_ok A r t'.
Proof.
  unfold core. intros [= E1 E2 E3 E4 E5] [P [H1 H2 H3 H4 H5 H6 H7 H8 H9]]. exists P.
  split; unfold shown_frames; rewrite ?E1, ?E2, ?E3, ?E4, ?E5; done.
Qed.

Lemma thread_ok_refreshed A r r' t : (r' = false → r = false) → thread_ok A r t → thread_ok A r' t.
Proof. intros Hr [P [H1 H2 H3 H4 H5 H6 H7 H8 H9]]. exists P. split; auto. Qed.

(** Another message is sent to the thread. *)
Lemma thread_ok_send A r t m q' x : thread_ok A r t →
  pend [m] q' = x → tokens [m] = length q' → (∀ vf, vf ∈ q' → vf_ok vf) →
  (∀ vf, m = MdVideoFrame vf → vf_ok vf ∧ ∀ f, encoded vf = Some f → f_key f = true) →
  thread_ok (A ++ x) r (send_media m (t <| vt_queue := (vt_queue t ++ q')%list |>)).
Proof.
  intros [P [H1 H2 H3 H4 H5 H6 H7 H8 H9]] Hx Ht Hq Hm. exists P. split; try done; cbn.
  - by rewrite pend_app, H1, Hx, (assoc_L (++)) by done.
  - change (tokens (vt_chan t ++ [m])%list = length (vt_queue t ++ q')%list). by rewrite tokens_app, length_app, H2, Ht.
  - intros vf [?|Hin]%elem_of_app; [auto|]. apply list_elem_of_singleton in Hin. by apply Hm.
  - intros vf [?|?]%elem_of_app; auto.
  - intros vf f [?|Hin]%elem_of_app; [eauto|]. apply list_elem_of_singleton in Hin. by apply Hm.
Qed.

(** A frame that fits is shown, and nothing else happens. *)
Lemma decode_frame_fits key vf f elapsed created t w :
  (∀ h, vt_handler t = Some h → sound h ∧ openable (d_format (vh_decoder h)) = true) →
  encoded vf = Some f → openable (f_format f) = true → fit (vt_handler t) f →
  ∃ t' h', decode_frame env key vf elapsed created t w = put_thread key t' w
    ∧ vt_handler t' = Some h' ∧ sound h' ∧ openable (d_format (vh_decoder h')) = true ∧ last (d_fed (vh_decoder h')) = Some f
    ∧ vt_queue t' = vt_queue t ∧ vt_chan t' = vt_chan t ∧ vt_discard t' = vt_discard t
    ∧ vt_shown t' = (vt_shown t ++ [vf])%list.
Proof.
  intros Hh Hvf Ho Hfit. unfold decode_frame. set (h := match vt_handler t with Some h => h | None => _ end).
  assert (sound h ∧ fit (Some h) f) as [Hs Hf].
  { unfold h. destruct (vt_handler t) as [h0|]; [split; [by apply Hh|done]|]. split.
    - assert (openable (CodecFormat_from vf) = true) as Ho'.
      { unfold CodecFormat_from. unfold encoded in Hvf. destruct (vf_union vf) as [[g|]|]; try done. by injection Hvf as ->. }
      destruct (_ && _); [apply record_sound|]; by apply new_sound.
    - destruct Hfit as [?|(h0 & p & ? & _)]; [by left|done]. }
  clearbody h. destruct (handle_frame_sound vf f h Hs Hvf Ho Hf) as (h' & E & Hs' & Hl). rewrite E.
  destruct (fps_calculate _ _ _ _) as [count fps]. set (t' := _ <| vt_decode_fps := fps |>). exists t', h'.
  assert (openable (d_format (vh_decoder h')) = true) as Ho'.
  { destruct Hs' as (_ & _ & _ & Hall). rewrite Forall_forall in Hall. by rewrite <- (Hall f) by (by apply last_Some_elem_of). }
  split_and!; try done. unfold check_decoder. destruct Hs' as (-> & -> & _). done.
Qed.

Lemma last_snoc_item P vf f p : encoded vf = Some f → last (P ++ [item vf]) = Some (ArFrame p) → p = f.
Proof. intros E. rewrite last_snoc. unfold item. rewrite E. by intros [= ->]. Qed.

(** A message of the channel. *)
Lemma thread_step_ok A r key elapsed created w t :
  chained A → vw_threads w !! key = Some t → thread_ok A r t →
  ∃ t', thread_step env key elapsed created w = put_thread key t' w ∧ thread_ok A r t'
    ∧ length (vt_chan t') = pred (length (vt_chan t)).
Proof.
  intros HA Hk [P Ht]. pose proof Ht as [H1 H2 H3 H4 H5 H6 H7 H8 H9]. unfold thread_step. rewrite Hk.
  destruct (vt_chan t) as [|m chan] eqn:Ec.
  { exists t. rewrite Ec. split_and!; [|by exists P|done]. destruct w. unfold put_thread. cbn in *. by rewrite insert_id. }
  assert (∀ vf f t1, pend (m :: chan) (vt_queue t) = item vf :: pend chan (vt_queue t1) →
            encoded vf = Some f → openable (f_format f) = true → fit (vt_handler t) f →
            vt_chan t1 = chan → tokens chan = length (vt_queue t1) → (∀ v, v ∈ vt_queue t1 → v ∈ vt_queue t) →
            vt_handler t1 = vt_handler t → vt_shown t1 = vt_shown t → vt_discard t1 = false →
            ∃ t', decode_frame env key vf elapsed created t1 w = put_thread key t' w ∧ thread_ok A r t'
              ∧ length (vt_chan t') = length chan) as Hdec.
  { intros vf f t1 Ep Evf Ho Hfit C1 C2 C3 C4 C5 C6. rewrite <- C4 in Hfit.
    destruct (decode_frame_fits key vf f elapsed created t1 w) as (t' & h' & E & D1 & D2 & D3 & D4 & D5 & D6 & D7 & D8);
      [by rewrite C4|done..|]. exists t'. split_and!; [done| |by rewrite D6, C1]. exists (P ++ [item vf])%list.
    assert (shown_frames t' = (shown_frames t ++ [f])%list) as Esh.
    { unfold shown_frames. rewrite D8, omap_app, C5. f_equal. cbn. by rewrite Evf. }
    assert (ar_frames (P ++ [item vf]) = (ar_frames P ++ [f])%list) as Ear.
    { rewrite ar_frames_app. unfold item. by rewrite Evf. }
    split; rewrite ?D5, ?D6, ?D7, ?C1, ?Esh, ?Ear; try done.
    - by rewrite H1, Ep, <- (assoc_L (++)).
    - intros v Hv. apply H3. by right.
    - intros v Hv. auto.
    - intros v g Hv. apply H5. by right.
    - rewrite D1. by intros h [= <-].
    - intros _ p Hp. apply (last_snoc_item _ _ f) in Hp; [|done]. subst p. by exists h'.
    - by apply sublist_app.
    - intros Hr. split; [done|]. by rewrite (proj2 (H9 Hr)). }
  assert (∀ t1 x, pend (m :: chan) (vt_queue t) = (x ++ pend chan (vt_queue t1))%list → tokens chan = length (vt_queue t1) →
            (∀ v, v ∈ vt_queue t1 → v ∈ vt_queue t) → vt_chan t1 = chan → vt_discard t1 = vt_discard t → vt_shown t1 = vt_shown t →
            (∀ h, vt_handler t1 = Some h → sound h ∧ openable (d_format (vh_decoder h)) = true) →
            (vt_discard t = false → ∀ p, last (P ++ x) = Some (ArFrame p) →
              ∃ h, vt_handler t1 = Some h ∧ last (d_fed (vh_decoder h)) = Some p) →
            (r = false → ar_frames x = []) →
            ∃ t', put_thread key t1 w = put_thread key t' w ∧ thread_ok A r t' ∧ length (vt_chan t') = length chan) as Hskip.
  { intros t1 x Ep C1 C2 C3 C4 C5 C6 C7 C8. exists t1. split_and!; [done| |by rewrite C3]. exists (P ++ x)%list.
    split; unfold shown_frames; rewrite ?C3, ?C4, ?C5; try done.
    - by rewrite H1, Ep, <- (assoc_L (++)).
    - intros v Hv. apply H3. by right.
    - auto.
    - intros v g Hv. apply H5. by right.
    - rewrite ar_frames_app. by apply sublist_inserts_r.
    - intros Hr. destruct (H9 Hr) as [? E]. split; [done|]. fold (shown_frames t). by rewrite E, ar_frames_app, (C8 Hr), app_nil_r. }
  destruct m as [|vf| |start].
  - change (vt_queue (t <| vt_chan := chan |>)) with (vt_queue t).
    destruct (vt_queue t) as [|vf q] eqn:Eq; [done|]. destruct (H4 vf) as (f & Evf & Ho); [by left|].
    change (vt_discard (t <| vt_chan := chan |> <| vt_queue := q |>)) with (vt_discard t). destruct (vt_discard t) eqn:Ed.
    + apply (Hskip _ [item vf]); try done; [exact (eq_add_S _ _ H2)|intros v Hv; by right|].
      intros Hr. by destruct (H9 Hr).
    + apply (Hdec vf f); try done; [|exact (eq_add_S _ _ H2)|intros v Hv; by right].
      unfold fit. destruct (chained_next P f (pend chan q)) as [?|(p & Hp & Hfo)]; [|by left|right].
      { rewrite H1 in HA. cbn in HA. unfold item in HA. by rewrite Evf in HA. }
      destruct (H7 eq_refl p Hp) as (h & Eh & Hl). by exists h, p.
  - destruct (H3 vf) as (f & Evf & Ho); [by left|]. apply (Hdec vf f); try done. left. apply (H5 vf); [by left|done].
  - apply (Hskip _ [ArSwitch]); try done.
    + intros h Hh. apply fmap_Some in Hh as (h0 & Hh0 & ->). destruct (H6 h0 Hh0) as [_ Ho]. split; [by apply reset_sound|done].
    + intros _ p. by rewrite last_snoc.
  - apply (Hskip _ []); try done.
    + intros h Hh. apply fmap_Some in Hh as (h0 & Hh0 & ->). exact (H6 h0 Hh0).
    + intros Hd p. rewrite app_nil_r. intros Hp. destruct (H7 Hd p Hp) as (h & Eh & Hl). exists (record_screen start created h).
      split; [|done]. cbn. by rewrite Eh.
Qed.

(** ** The loop *)

(** The formats given up, the requests of the interface, and the threads, to which was
    told [T]. *)
Record viewer_ok (marked : list CodecFormat) (T : Z → list Arrival) (w : ViewerWorld) : Prop := {
  vo_marked : mark_unsupported (vw_lc w) = marked;
  vo_resets : ∀ o, UdResetDecoder o ∉ vw_data w;
  vo_threads : ∀ d t, vw_threads w !! d = Some t → thread_ok (T d) (refreshed w) t;
  vo_absent : ∀ d, vw_threads w !! d = None → ar_frames (T d) = []
}.

(** What keeps all of it, whatever was told. *)
Record keeps (w w' : ViewerWorld) : Prop := {
  ke_marked : mark_unsupported (vw_lc w') = mark_unsupported (vw_lc w);
  ke_resets : ∀ o, UdResetDecoder o ∈ vw_data w' → UdResetDecoder o ∈ vw_data w;
  ke_threads : ∀ d, option_Forall2 (λ t t', ∀ A, thread_ok A (refreshed w) t → thread_ok A (refreshed w') t')
                 (vw_threads w !! d) (vw_threads w' !! d)
}.

Lemma keeps_refl w : keeps w w.
Proof. split; try done. intros d. destruct (vw_threads w !! d); by constructor. Qed.
Lemma keeps_trans w1 w2 w3 : keeps w1 w2 → keeps w2 w3 → keeps w1 w3.
Proof.
  intros [A1 A2 A3] [B1 B2 B3]. split; [congruence|auto|]. intros d.
  specialize (A3 d). specialize (B3 d). destruct A3; inversion B3; constructor; auto.
Qed.
Lemma keeps_ok marked T w w' : keeps w w' → viewer_ok marked T w → viewer_ok marked T w'.
Proof.
  intros [A1 A2 A3] [B1 B2 B3 B4]. split; [congruence|intros o Ho; by eapply B2, A2| |].
  - intros d t' Hd. specialize (A3 d). rewrite Hd in A3. inversion A3 as [t t'' H E|]; subst. apply H, B3. by rewrite E.
  - intros d Hd. apply B4. specialize (A3 d). rewrite Hd in A3. by inversion A3.
Qed.

(** The loop changes threads it does not look into. *)
Lemma keeps_threads w w' (f : Z → VideoThread → VideoThread) : mark_unsupported (vw_lc w') = mark_unsupported (vw_lc w) →
  vw_data w' = vw_data w → vw_out w' = vw_out w → (∀ d, vw_threads w' !! d = f d <$> vw_threads w !! d) →
  (∀ d A r t, thread_ok A r t → thread_ok A r (f d t)) → keeps w w'.
Proof.
  intros E1 E2 E3 E4 Hf. split; [done|by rewrite E2|]. intros d. rewrite E4. unfold refreshed. rewrite E3.
  destruct (vw_threads w !! d); constructor. auto.
Qed.
Lemma keeps_same w w' : mark_unsupported (vw_lc w') = mark_unsupported (vw_lc w) → vw_data w' = vw_data w → vw_out w' = vw_out w →
  vw_threads w' = vw_threads w → keeps w w'.
Proof. intros E1 E2 E3 E4. apply (keeps_threads _ _ (λ _ t, t)); try done. intros d. rewrite E4. by destruct (_ !! d). Qed.

Lemma keeps_push d w : (∀ o, d ≠ UdResetDecoder o) → keeps w (push_data d w).
Proof.
  intros Hd. split; [done| |].
  - intros o [?|Ho]%elem_of_app; [done|]. apply list_elem_of_singleton in Ho. by destruct (Hd o).
  - intros i. cbn. destruct (vw_threads w !! i); by constructor.
Qed.
Lemma refreshed_out m w : refreshed (send_peer m w) = refreshed w || is_refresh m.
Proof. unfold refreshed. cbn. rewrite existsb_app. cbn. by rewrite orb_false_r. Qed.
Lemma keeps_out m w : keeps w (send_peer m w).
Proof.
  split; [done|done|]. intros d. change (vw_threads (send_peer m w)) with (vw_threads w).
  destruct (vw_threads w !! d); constructor. intros A. apply thread_ok_refreshed. rewrite refreshed_out. by intros [? _]%orb_false_iff.
Qed.

Lemma thread_ok_record start A r t : thread_ok A r t → thread_ok A r (send_media (MdRecordScreen start) t).
Proof.
  intros H. apply (thread_ok_send _ _ _ (MdRecordScreen start) [] []) in H; try done; [|by intros vf ?%elem_of_nil].
  rewrite app_nil_r in H. eapply thread_ok_core; [|exact H]. unfold core. cbn. by rewrite app_nil_r.
Qed.

Lemma keeps_record_state w : keeps w (update_record_state w).
Proof.
  unfold update_record_state. set (w1 := if lc_record_permission _ then w else _).
  assert (keeps w w1) as H1 by (unfold w1; destruct (lc_record_permission _); [apply keeps_refl|by apply keeps_same]).
  clearbody w1. cbv zeta. set (start := lc_record_state _ && _). destruct (Bool.eqb _ _); [done|].
  eapply keeps_trans; [exact H1|]. eapply keeps_trans; [|by apply keeps_push].
  apply (keeps_threads _ _ (λ _, send_media (MdRecordScreen start))); try done; [|intros; by apply thread_ok_record].
  intros d. cbn. apply lookup_fmap.
Qed.

Lemma keeps_foldl {A} (f : ViewerWorld → A → ViewerWorld) l w : (∀ w a, keeps w (f w a)) → keeps w (foldl f w l).
Proof. intros Hf. revert w; induction l as [|a l IH]; intros w; [apply keeps_refl|]. cbn. eapply keeps_trans; [apply Hf|apply IH]. Qed.

Lemma keeps_on_thread d f w : (∀ t, core (f t) = core t) → keeps w (on_thread d f w).
Proof.
  intros Hf. apply (keeps_threads _ _ (λ i t, if decide (i = d) then f t else t)); try done.
  - intros i. unfold on_thread. cbn. destruct (decide (i = d)) as [->|]; [by rewrite lookup_alter_eq|].
    rewrite lookup_alter_ne by done. by destruct (_ !! i).
  - intros i A r t. destruct (decide _); [apply thread_ok_core, Hf|done].
Qed.

Lemma keeps_refresh_threads now p w : keeps w (refresh_threads env now p w).
Proof.
  apply keeps_foldl. intros w0 dt. eapply keeps_trans; [|by apply keeps_on_thread]. by apply keeps_push.
Qed.

Lemma keeps_cores w w' (f : Z → VideoThread → VideoThread) : mark_unsupported (vw_lc w') = mark_unsupported (vw_lc w) →
  vw_data w' = vw_data w → vw_out w' = vw_out w → (∀ d, vw_threads w' !! d = f d <$> vw_threads w !! d) →
  (∀ d t, core (f d t) = core t) → keeps w w'.
Proof. intros E1 E2 E3 E4 Hf. apply (keeps_threads _ _ f); try done. intros d A r t. apply thread_ok_core, Hf. Qed.

Lemma core_trending last limited t : core (fps_trending last limited t).2 = core t.
Proof. unfold fps_trending. destruct (vt_decode_fps t); [|done]. by repeat case_match. Qed.

Lemma keeps_fps_control now direct fps w : keeps w (fps_control env now direct fps w).
Proof.
  unfold fps_control. set (w1 := w <| vw_threads := _ |>).
  assert (keeps w w1) as H1.
  { apply (keeps_cores _ _ (λ d, count_inactive (default 0%Z (fps !! d)))); try done. intros d. unfold w1. cbn.
    rewrite map_lookup_imap. by destruct (_ !! d). }
  clearbody w1. destruct (min_opt _) as [m|]; [|eapply keeps_trans; [exact H1|apply keeps_refresh_threads]].
  eapply keeps_trans; [exact H1|]. clear H1. cbv zeta. set (w2 := on_threads _ w1). assert (keeps w1 w2) as H2.
  { unfold w2. match goal with |- keeps _ (on_threads ?f _) => apply (keeps_cores _ _ (λ _, f)) end; try done.
    - intros d. apply lookup_fmap.
    - intros d t. apply core_trending. }
  clearbody w2. eapply keeps_trans; [exact H2|]. eapply keeps_trans; [|apply keeps_refresh_threads].
  destruct (_ || _ || _); [|apply keeps_refl]. unfold set_auto_fps. case_bool_decide; [apply keeps_refl|].
  match goal with |- keeps _ (?w3 <| vw_lc := _ |>) => apply (keeps_trans _ w3) end; [by apply keeps_push|by apply keeps_same].
Qed.

Lemma keeps_status now elapsed direct w : keeps w (on_status env now elapsed direct w).
Proof.
  unfold on_status. destruct (_ <? _)%Z; [apply keeps_refl|]. eapply keeps_trans; [|apply keeps_fps_control].
  apply (keeps_cores _ _ (λ _ t, t <| vt_frame_count := 0%Z |>)); try done. intros d. apply lookup_fmap.
Qed.

(** A refresh makes the threads drop what waits. *)
Lemma keeps_discard m w w' (f : Z → VideoThread → VideoThread) : is_refresh m = true →
  vw_lc w' = vw_lc w → vw_data w' = vw_data w → (∀ d, vw_threads w' !! d = f d <$> vw_threads w !! d) →
  (∀ d t, f d t = discard t ∨ f d t = t) → keeps w (send_peer m w').
Proof.
  intros Hm E1 E2 E4 Hf. split; [cbn; by rewrite E1|cbn; by rewrite E2|]. intros d.
  change (vw_threads (send_peer m w')) with (vw_threads w'). rewrite E4, refreshed_out, Hm, orb_true_r.
  destruct (vw_threads w !! d) as [t|]; constructor. intros A Ht. apply (thread_ok_refreshed _ _ true) in Ht; [|done].
  destruct (Hf d t) as [->| ->]; [|done]. destruct Ht as [P [H1 H2 H3 H4 H5 H6 H7 H8 H9]]. by exists P; split.
Qed.

Lemma keeps_ui d w : (∀ o, d ≠ UdResetDecoder o) → keeps w (handle_msg_from_ui d w).
Proof.
  intros Hd. destruct d as [m|o|start|display sid]; cbn [handle_msg_from_ui].
  - destruct m as [|display| | | | | | |]; try apply keeps_out.
    + apply (keeps_discard _ _ _ (λ _, discard)); try done; [|by left]. intros d. apply lookup_fmap.
    + apply (keeps_discard _ _ _ (λ d t, if decide (d = wrap 64 display) then discard t else t)); try done.
      * intros d. unfold on_thread. cbn. destruct (decide _) as [->|]; [by rewrite lookup_alter_eq|].
        rewrite lookup_alter_ne by done. by destruct (_ !! d).
      * intros d t. destruct (decide _); auto.
  - by destruct (Hd o).
  - eapply keeps_trans; [|apply keeps_record_state]. by apply keeps_same.
  - apply keeps_out.
Qed.

Lemma keeps_greeting w : keeps w (send_toggle_privacy_mode_msg env (send_toggle_virtual_display_msg env w)).
Proof.
  apply (keeps_trans _ (send_toggle_virtual_display_msg env w)).
  - unfold send_toggle_virtual_display_msg. destruct (negb _); [apply keeps_refl|]. apply keeps_foldl. intros w0 d.
    destruct (parse_i32 d); [apply keeps_out|apply keeps_refl].
  - unfold send_toggle_privacy_mode_msg. cbv zeta. repeat case_match; first [apply keeps_refl|apply keeps_out].
Qed.

Lemma keeps_custom_fps fps w : keeps w (set_custom_fps fps w).
Proof. unfold set_custom_fps. eapply keeps_trans; [|by apply keeps_push]. by apply keeps_same. Qed.

Lemma keeps_quality value w : keeps w (save_quality value w).
Proof.
  unfold save_quality. set (w1 := match quality_value value with Some _ => _ | None => w end).
  assert (keeps w w1) as H1 by (unfold w1; destruct (quality_value value); [by apply keeps_push|apply keeps_refl]).
  clearbody w1. cbv zeta. case_match; [|done]. eapply keeps_trans; [exact H1|apply keeps_custom_fps].
Qed.

(** ** Every step *)

(** With more told of a display. *)
Definition tell (d : Z) (x : list Arrival) (T : Z → list Arrival) : Z → list Arrival :=
  λ i, if decide (i = d) then (T i ++ x)%list else T i.

Lemma viewer_ok_ext marked T T' w : (∀ d, T d = T' d) → viewer_ok marked T w → viewer_ok marked T' w.
Proof. intros HT [H1 H2 H3 H4]. split; try done; intros d; rewrite <- HT; auto. Qed.

Lemma put_thread_ok marked T w d t x : viewer_ok marked T w → thread_ok (T d ++ x) (refreshed w) t →
  viewer_ok marked (tell d x T) (put_thread d t w).
Proof.
  intros [H1 H2 H3 H4] Ht. split; [done|done| |]; intros i; unfold tell; destruct (decide (i = d)) as [->|Hne]; cbn.
  - rewrite lookup_insert_eq. intros t' [= <-]. exact Ht.
  - rewrite lookup_insert_ne by done. apply H3.
  - by rewrite lookup_insert_eq.
  - rewrite lookup_insert_ne by done. apply H4.
Qed.

Lemma new_thread_ok marked T w now d : viewer_ok marked T w → vw_threads w !! d = None →
  viewer_ok marked T (new_video_thread env now d w) ∧ is_Some (vw_threads (new_video_thread env now d w) !! d).
Proof.
  intros Hw Hd. unfold new_video_thread. set (t := mkThread [] [] None 0 false FpsControl_default now None fps_count_new []).
  assert (viewer_ok marked T (put_thread d t w)) as H1.
  { apply (viewer_ok_ext _ (tell d [] T)); [intros i; unfold tell; destruct (decide _); [apply app_nil_r|done]|].
    apply put_thread_ok; [done|]. exists (T d). pose proof (vo_absent _ _ _ Hw d Hd) as He.
    split; try done; cbn; try (by intros ? ?%elem_of_nil); try (by intros ? ? ?%elem_of_nil).
    - intros _ p Hp. exfalso. rewrite last_lookup in Hp. apply list_elem_of_lookup_2 in Hp.
      assert (p ∈ ar_frames (T d)) as Hin by (apply list_elem_of_omap; by exists (ArFrame p)). rewrite He in Hin. by apply elem_of_nil in Hin.
    - by rewrite He. }
  assert (is_Some (vw_threads (put_thread d t w) !! d)) as H2 by (cbn; rewrite lookup_insert_eq; by eexists).
  cbv zeta. destruct (_ =? _)%nat; [|done]. set (w1 := put_thread d t w) in *.
  match goal with |- viewer_ok _ _ (update_record_state ?w2) ∧ _ => assert (keeps w1 (update_record_state w2)) as Hk end.
  { eapply keeps_trans; [|apply keeps_record_state]. by apply keeps_same. }
  split; [by eapply keeps_ok|]. destruct H2 as [t2 H2]. destruct Hk as [_ _ Hk]. specialize (Hk d). rewrite H2 in Hk. inversion Hk. by eexists.
Qed.

Lemma give_frame_ok marked T w d t vf f : viewer_ok marked T w → vw_threads w !! d = Some t →
  encoded vf = Some f → openable (f_format f) = true → f_key f || (length (vt_queue t) <? VIDEO_QUEUE_SIZE)%nat = true →
  viewer_ok marked (tell d [item vf] T) (give_frame env vf d t w).
Proof.
  intros Hw Hd Evf Ho Hroom. pose proof (vo_threads _ _ _ Hw d t Hd) as Ht. unfold give_frame.
  assert (contains_key_frame vf = f_key f) as ->.
  { unfold contains_key_frame. unfold encoded in Evf. destruct (vf_union vf) as [[g|]|]; try done. by injection Evf as ->. }
  destruct (f_key f) eqn:Ek.
  - apply put_thread_ok; [done|]. apply (thread_ok_send _ _ _ (MdVideoFrame vf) [] [item vf]) in Ht; try done; [|by intros v ?%elem_of_nil|].
    + eapply thread_ok_core; [|exact Ht]. unfold core. cbn. by rewrite app_nil_r.
    + intros v [= <-]. split; [by exists f|]. intros g Hg. congruence.
  - cbn [orb] in Hroom. rewrite pushes by by apply Nat.ltb_lt. apply put_thread_ok; [done|].
    apply (thread_ok_send _ _ _ MdVideoQueue [vf] [item vf]) in Ht; try done.
    intros v ->%list_elem_of_singleton. by exists f.
Qed.

(** What a run must not do: fill a queue, send what cannot be decoded, or open the
    decoders anew. *)
Definition smooth_step (x : ViewerStep) (w : ViewerWorld) : bool :=
  match x with
  | VwFrame _ vf =>
      match encoded vf with
      | Some f =>
          openable (f_format f)
          && (f_key f || match vw_threads w !! wrap 64 (vf_display vf) with
                         | Some t => length (vt_queue t) <? VIDEO_QUEUE_SIZE
                         | None => true
                         end)%nat
      | None => false
      end
  | VwAsk (UdResetDecoder _) => false
  | _ => true
  end.
Fixpoint smooth (xs : list ViewerStep) (w : ViewerWorld) : bool :=
  match xs with [] => true | x :: xs => smooth_step x w && smooth xs (viewer_step env x w) end.

Lemma told_snoc d xs x : told d (xs ++ [x]) = (told d xs ++ option_list (told_of d x))%list.
Proof. unfold told. rewrite omap_app. cbn. by destruct (told_of d x). Qed.

Lemma video_frame_ok marked T w now vf : viewer_ok marked T w → smooth_step (VwFrame now vf) w = true →
  viewer_ok marked (tell (wrap 64 (vf_display vf)) [item vf] T) (on_video_frame env now vf w).
Proof.
  intros Hw Hsm. cbn in Hsm. destruct (encoded vf) as [f|] eqn:Evf; [|done]. apply andb_true_iff in Hsm as [Ho Hroom].
  unfold on_video_frame. set (d := wrap 64 _) in *. set (w1 := if vw_first_frame w then w else _).
  assert (keeps w w1 ∧ vw_threads w1 = vw_threads w) as [H1 E1].
  { unfold w1. destruct (vw_first_frame w); [split; [apply keeps_refl|done]|]. split.
    - eapply keeps_trans; [|apply keeps_greeting]. by apply keeps_same.
    - set (w0 := w <| vw_first_frame := true |>). unfold send_toggle_privacy_mode_msg, send_toggle_virtual_display_msg.
      assert (∀ l w', vw_threads (foldl (λ w d, match parse_i32 d with Some i => send_peer (PmToggleVirtualDisplay i) w | None => w end) w' l)
                = vw_threads w') as Hf.
      { induction l as [|s l IH]; intros w'; [done|]. cbn. rewrite IH. by destruct (parse_i32 s). }
      assert (vw_threads (if negb (is_support_virtual_display env) then w0
         else foldl (λ w d, match parse_i32 d with Some i => send_peer (PmToggleVirtualDisplay i) w | None => w end) w0
                (split_on "," (vi_option env "virtual-display"))) = vw_threads w0) as E0.
      { destruct (negb _); [done|apply Hf]. }
      cbv zeta. repeat case_match; exact E0. }
  clearbody w1. cbv zeta. set (w2 := w1 <| vw_video_format := _ |>). assert (keeps w w2) as H2 by (eapply keeps_trans; [exact H1|by apply keeps_same]).
  assert (vw_threads w2 = vw_threads w) as E2 by exact E1. clearbody w2. apply (keeps_ok _ _ _ _ H2) in Hw.
  rewrite E2. destruct (vw_threads w !! d) as [t|] eqn:Ed.
  - rewrite E2, Ed. by apply (give_frame_ok _ _ _ _ _ _ f); [|by rewrite E2|..].
  - rewrite <- E2 in Ed. destruct (new_thread_ok _ _ _ now d Hw Ed) as [Hw3 [t Et]]. rewrite Et.
    apply (give_frame_ok _ _ _ _ _ _ f); try done. apply orb_true_iff. right.
    assert (vt_queue t = []) as ->; [|done]. unfold new_video_thread in Et. cbv zeta in Et. destruct (_ =? _)%nat.
    + unfold update_record_state in Et. cbv zeta in Et. repeat case_match; cbn in Et; rewrite ?lookup_fmap in Et;
        rewrite lookup_insert_eq in Et; cbn in Et; by injection Et as <-.
    + cbn in Et. rewrite lookup_insert_eq in Et. by injection Et as <-.
Qed.

Lemma switch_display_ok marked T w s : viewer_ok marked T w →
  viewer_ok marked (tell (wrap 64 s) [ArSwitch] T) (on_switch_display s w).
Proof.
  intros [H1 H2 H3 H4]. unfold on_switch_display. split; [done|done| |]; intros i; unfold on_thread, tell; cbn.
  - intros t. destruct (decide (i = wrap 64 s)) as [->|Hne]; [rewrite lookup_alter_eq|rewrite lookup_alter_ne by done; apply H3].
    intros Ht. apply fmap_Some in Ht as (t0 & Ht0 & ->). specialize (H3 _ _ Ht0).
    apply (thread_ok_send _ _ _ MdReset [] [ArSwitch]) in H3; try done; [|by intros vf ?%elem_of_nil].
    eapply thread_ok_core; [|exact H3]. unfold core. cbn. by rewrite app_nil_r.
  - destruct (decide (i = wrap 64 s)) as [->|Hne]; [rewrite lookup_alter_eq|rewrite lookup_alter_ne by done; apply H4].
    intros Ht. apply fmap_None in Ht. by rewrite ar_frames_app, (H4 _ Ht).
Qed.

Lemma viewer_step_ok marked T x w : (∀ d, chained (T d)) → viewer_ok marked T w → smooth_step x w = true →
  viewer_ok marked (λ d, T d ++ option_list (told_of d x))%list (viewer_step env x w).
Proof.
  intros HT Hw Hsm.
  assert (∀ i x', (∀ d, option_list (told_of d x) = if decide (d = i) then x' else []) →
            ∀ w', viewer_ok marked (tell i x' T) w' → viewer_ok marked (λ d, T d ++ option_list (told_of d x))%list w') as Htell.
  { intros i x' E w'. apply viewer_ok_ext. intros d. unfold tell. rewrite E. destruct (decide _); by rewrite ?app_nil_r. }
  assert ((∀ d, told_of d x = None) → ∀ w', keeps w w' → viewer_ok marked (λ d, T d ++ option_list (told_of d x))%list w') as Hkeep.
  { intros E w' Hk. apply (viewer_ok_ext _ T); [|by eapply keeps_ok]. intros d. by rewrite E, app_nil_r. }
  destruct x as [now vf|s|enabled|d| |fps|value|now elapsed direct|key elapsed created]; cbn [viewer_step].
  - eapply Htell; [|by apply video_frame_ok]. intros d. cbn. repeat case_decide || case_bool_decide; try done; congruence.
  - eapply Htell; [|by apply switch_display_ok]. intros d. cbn. repeat case_decide || case_bool_decide; try done; congruence.
  - apply Hkeep; [done|]. eapply keeps_trans; [|apply keeps_record_state]. by apply keeps_same.
  - apply Hkeep; [done|]. apply keeps_push. intros o ->. done.
  - apply Hkeep; [done|]. destruct (vw_data w) as [|d ds] eqn:Ed; [apply keeps_refl|].
    apply (keeps_trans _ (w <| vw_data := ds |>)); [|apply keeps_ui; intros o ->; apply (vo_resets _ _ _ Hw o); rewrite Ed; by left].
    split; [done|intros o Ho; rewrite Ed; by right|]. intros i. cbn. destruct (vw_threads w !! i); by constructor.
  - apply Hkeep; [done|]. apply keeps_custom_fps.
  - apply Hkeep; [done|]. apply keeps_quality.
  - apply Hkeep; [done|]. apply keeps_status.
  - apply (viewer_ok_ext _ (tell key [] T)); [intros d; unfold tell; cbn; case_decide; by rewrite ?app_nil_r|].
    destruct (vw_threads w !! key) as [t|] eqn:Et.
    + destruct (thread_step_ok (T key) (refreshed w) key elapsed created w t) as (t' & -> & Ht' & _);
        [done|done|by apply Hw|]. apply put_thread_ok; [done|by rewrite app_nil_r].
    + unfold thread_step. rewrite Et. apply (viewer_ok_ext _ T); [|done]. intros d. unfold tell. case_decide; by rewrite ?app_nil_r.
Qed.

Lemma viewer_run_ok marked xs ys w : (∀ d, chained (told d (ys ++ xs))) → viewer_ok marked (λ d, told d ys) w →
  smooth xs w = true → viewer_ok marked (λ d, told d (ys ++ xs)) (viewer_run env xs w).
Proof.
  revert ys w; induction xs as [|x xs IH]; intros ys w HT Hw Hsm.
  { apply (viewer_ok_ext _ (λ d, told d ys)); [|done]. intros d. by rewrite app_nil_r. }
  cbn in Hsm. apply andb_true_iff in Hsm as [S1 S2]. assert (ys ++ x :: xs = (ys ++ [x]) ++ xs)%list as E by by rewrite <- (assoc_L (++)).
  change (viewer_ok marked (λ d, told d (ys ++ x :: xs)) (viewer_run env xs (viewer_step env x w))).
  rewrite E in HT |- *. apply IH; [done| |done].
  apply (viewer_ok_ext _ (λ d, told d ys ++ option_list (told_of d x))%list); [intros d; by rewrite told_snoc|].
  apply viewer_step_ok; [|done..]. intros d. specialize (HT d). unfold told in HT. rewrite !omap_app in HT.
  apply chained_prefix in HT. by apply chained_prefix in HT.
Qed.

Lemma viewer_new_ok marked custom : viewer_ok marked (λ d, told d []) (viewer_new marked custom).
Proof. split; cbn; [done|intros o; apply not_elem_of_nil|intros d t ?%lookup_empty_Some; done|done]. Qed.

(** ** What is shown in the end *)

Lemma put_put d t t' w : put_thread d t' (put_thread d t w) = put_thread d t' w.
Proof. unfold put_thread. cbn. by rewrite insert_insert_eq. Qed.
Lemma put_same d t w : vw_threads w !! d = Some t → put_thread d t w = w.
Proof. intros H. destruct w. unfold put_thread. cbn in *. by rewrite insert_id. Qed.

(** A thread that has as many turns as messages wait is through with them. *)
Lemma drained A key elapsed created n w t : chained A → vw_threads w !! key = Some t → thread_ok A (refreshed w) t →
  (length (vt_chan t) <= n)%nat →
  ∃ t', viewer_run env (replicate n (VwThread key elapsed created)) w = put_thread key t' w
    ∧ thread_ok A (refreshed w) t' ∧ vt_chan t' = [].
Proof.
  intros HA. revert w t; induction n as [|n IH]; intros w t Hk Ht Hn.
  - exists t. split_and!; [by rewrite put_same|done|]. by destruct (vt_chan t); [|cbn in Hn; lia].
  - destruct (thread_step_ok A (refreshed w) key elapsed created w t HA Hk Ht) as (t1 & E & Ht1 & Hl).
    destruct (IH (put_thread key t1 w) t1) as (t2 & E2 & Ht2 & Hc); [cbn; apply lookup_insert_eq|done|lia|].
    exists t2. split_and!; try done. cbn [replicate]. unfold viewer_run. cbn [foldl viewer_step]. rewrite E.
    unfold viewer_run in E2. by rewrite E2, put_put.
Qed.

Lemma through_empty A r t : thread_ok A r t → vt_chan t = [] → r = false → shown_frames t = ar_frames A.
Proof.
  intros [P [H1 H2 H3 H4 H5 H6 H7 H8 H9]] Hc Hr. rewrite Hc in H1. cbn in H1. rewrite app_nil_r in H1. subst A. by apply H9.
Qed.
Lemma shown_sublist A r t : thread_ok A r t → shown_frames t `sublist_of` ar_frames A.
Proof.
  intros [P [H1 H2 H3 H4 H5 H6 H7 H8 H9]]. rewrite H1, ar_frames_app. by apply sublist_inserts_r.
Qed.

(** [smooth], but for the decoders that can be opened. *)
Definition roomy_step (x : ViewerStep) (w : ViewerWorld) : bool :=
  match x with
  | VwFrame _ vf =>
      match encoded vf with
      | Some f => f_key f || match vw_threads w !! wrap 64 (vf_display vf) with
                             | Some t => length (vt_queue t) <? VIDEO_QUEUE_SIZE
                             | None => true
                             end%nat
      | None => false
      end
  | VwAsk (UdResetDecoder _) => false
  | _ => true
  end.
Fixpoint roomy (xs : list ViewerStep) (w : ViewerWorld) : bool :=
  match xs with [] => true | x :: xs => roomy_step x w && roomy xs (viewer_step env x w) end.

Lemma roomy_smooth xs w : (∀ d f, ArFrame f ∈ told d xs → openable (f_format f) = true) → roomy xs w = true → smooth xs w = true.
Proof.
  revert w; induction xs as [|x xs IH]; intros w Ho Hr; [done|]. cbn in Hr |- *. apply andb_true_iff in Hr as [R1 R2].
  apply andb_true_iff. split.
  - destruct x as [now vf| | | | | | | |]; try done. unfold roomy_step in R1. unfold smooth_step. destruct (encoded vf) as [f|] eqn:E; [|done].
    rewrite (Ho (wrap 64 (vf_display vf)) f); [exact R1|]. unfold told. cbn. rewrite bool_decide_true by done.
    unfold item. rewrite E. by left.
  - apply IH; [|done]. intros d f Hf. apply (Ho d f). unfold told in Hf |- *. cbn. destruct (told_of d x); [by right|done].
Qed.
End Decoders.

(** ** From the host to the screen *)

Lemma frames_arrivals name id w : frames name id w = ar_frames (arrivals name id w).
Proof.
  unfold frames, arrivals, ar_frames. induction (received id (w_sent w)) as [|[n m] l IH]; [done|]. cbn.
  destruct (String.eqb n name); cbn; [|by destruct m]. destruct m; cbn; by rewrite ?IH.
Qed.

Section Pictures.
  Variable env : VideoEnv.
  Hypothesis iter_perm : ∀ m, ve_iter env m ≡ₚ map_to_list m.
  Hypothesis names_tell : ∀ l f c mc w h q k, info_of f (prioritized (ve_codec env) l) = Some c →
    cfg_format (HWRAM (ci_name c) mc w h q k) = f.
  Variable client : ViewerEnv.
  Hypothesis decodes : ∀ format l f, stream format (l ++ [f]) → vi_decode client format l f = Ok true.
  Hypothesis pushes : ∀ vf q, (length q < VIDEO_QUEUE_SIZE)%nat → vi_force_push client vf q = (None, q ++ [vf])%list.

(** C27: the picture of the host is the picture of the client.  Let the host run under
    the laws of [peers_can_decode] (in short: connections tell what they decode first
    and leave before they are forgotten, nobody takes the place of the last connection
    unnoticed, nothing interferes with the set-up of an encoder, encoders begin with a
    key frame and bear their format in their name), and let a client get, display by
    display, what the services sent it, or the first part of that, in order.  Suppose
    that the client can open VP9 and the decoders it declared, that a decoder decodes
    any frames that build on each other in its format, that a queue that is not full
    takes a frame, that none of its queues overflows and that its decoders are not
    opened anew for another reason.  Then it gives up no format; what a display shows is
    frames the host encoded for it, in their order; and unless the client asked for a
    refresh, it shows all those that arrived once its thread has had a turn for each
    message that waits. *)
Theorem pictures_end_to_end xs c q w source id ys marked custom v :
  PEER_DECODINGS c = ∅ → w = video_run env xs (video_world_new c q) →
  lawful calm_step env xs (video_world_new c q) = true → lawful keyed_step env xs (video_world_new c q) = true →
  (∀ d, told d ys `prefix_of` arrivals (get_service_name source d) id w) →
  (∀ f, f = VP9 ∨ (∃ x d, x ∈ xs ∧ declared_by x id d ∧ can_decode f d) → openable client f = true) →
  roomy client ys (viewer_new marked custom) = true → v = viewer_run client ys (viewer_new marked custom) →
  mark_unsupported (vw_lc v) = marked
  ∧ ∀ d t, vw_threads v !! d = Some t →
      shown_frames t `sublist_of` frames (get_service_name source d) id w
      ∧ (refreshed v = false → ∀ elapsed created, ∃ t',
           vw_threads (viewer_run client (replicate (length (vt_chan t)) (VwThread d elapsed created)) v) !! d = Some t'
           ∧ shown_frames t' = ar_frames (told d ys)).
Proof.
  intros Hc -> H1 H2 Hpre Hopen Hroom ->. set (D i d := ∃ x, x ∈ xs ∧ declared_by x i d).
  set (w := video_run env xs (video_world_new c q)) in *.
  assert (video_ok D w) as Hw.
  { apply (video_run_ok env iter_perm names_tell); [by apply video_new_ok| |done..]. intros x i d Hx Hd. by exists x. }
  assert (∀ d, chained (told d ys)) as Hch.
  { intros d. destruct (Hpre d) as [l El]. apply (chained_prefix _ l). rewrite <- El. apply Hw. }
  assert (smooth client ys (viewer_new marked custom) = true) as Hsm.
  { apply roomy_smooth; [|done]. intros d f Hf. apply Hopen. pose proof (vo_formats _ _ Hw (get_service_name source d) id) as Hall.
    rewrite Forall_forall in Hall. destruct (Hpre d) as [l El]. destruct (Hall (ArFrame f)) as [?|(d0 & (x & Hx & Hd) & Hcan)];
      [rewrite El; apply elem_of_app; by left|by left|right; by exists x, d0]. }
  pose proof (viewer_run_ok client decodes pushes marked ys [] _ Hch (viewer_new_ok client marked custom) Hsm) as Hv. cbn in Hv.
  set (v := viewer_run client ys _) in *. split; [apply Hv|]. intros d t Ht. pose proof (vo_threads _ _ _ _ Hv d t Ht) as Hok.
  split.
  - etrans; [by apply (shown_sublist client _ _ _ Hok)|]. rewrite frames_arrivals. destruct (Hpre d) as [l ->].
    rewrite ar_frames_app. by apply sublist_inserts_r.
  - intros Hr elapsed created. destruct (drained client decodes (told d ys) d elapsed created (length (vt_chan t)) v t) as (t' & E & Ht' & Hc');
      [done..|]. exists t'. rewrite E. split; [cbn; apply lookup_insert_eq|]. by apply (through_empty client _ _ _ Ht').
Qed.
End Pictures.

(** ** Concrete runs *)

(** A decoder that needs a key frame first and misses no frame after. *)
Definition strict_decode (format : CodecFormat) (fed : list EncodedFrame) (f : EncodedFrame) : result string bool :=
  if f_key f then Ok true
  else match last fed with
       | Some p =>
           if bool_decide (f_encoder p = f_encoder f ∧ f_format p = f_format f ∧ f_seq f = S (f_seq p)) then Ok true
           else Err "missing reference"
       | None => Err "no key frame"
       end.

Lemma strict_decodes format l f : stream format (l ++ [f]) → strict_decode format l f = Ok true.
Proof.
  intros [H _]. rewrite fmap_app in H. unfold strict_decode. destruct (chained_next (ArFrame <$> l) f []) as [->|(p & Hp & Hf)]; [done..|].
  rewrite fmap_last in Hp. destruct (last l) as [p'|]; [|done]. injection Hp as ->. rewrite bool_decide_true by exact Hf. by destruct (f_key f).
Qed.

(** [force_push] as it is documented. *)
Definition replace_oldest (vf : VideoFrame) (q : list VideoFrame) : option VideoFrame * list VideoFrame :=
  if (length q <? VIDEO_QUEUE_SIZE)%nat then (None, q ++ [vf])%list
  else match q with old :: q => (Some old, q ++ [vf])%list | [] => (None, q) end.
Lemma replace_oldest_pushes vf q : (length q < VIDEO_QUEUE_SIZE)%nat → replace_oldest vf q = (None, q ++ [vf])%list.
Proof. intros H%Nat.ltb_lt. unfold replace_oldest. by rewrite H. Qed.

Definition sample_client : ViewerEnv := {|
  vi_opens := λ _, true; vi_decode := strict_decode; vi_force_push := replace_oldest; vi_iter := map_to_list; vi_version := get_version_number "1.4.0";
  vi_codec := sample_codec_env (λ _, "") (2 ^ 34); vi_codec_state := sample_codec_state; vi_id := "1"; vi_options := λ _, ∅;
  vi_auto_record := false; vi_option := λ _, ""; vi_privacy_mode := false;
  vi_platform := "Linux"; vi_installed := true; vi_idd_impl := ""
|}.
Definition sample_viewer : ViewerWorld := viewer_new [] None.
(** A frame of the display 0, at the start. *)
Definition see (format : CodecFormat) (encoder seq : nat) : ViewerStep :=
  VwFrame 0 (wire (mkFrame 0 format (seq =? 0)%nat encoder seq)).
Definition see_all (format : CodecFormat) (encoder n : nat) : list ViewerStep := see format encoder <$> seq 0 n.
(** Turns of its thread, of ten milliseconds each. *)
Definition looks (n : nat) : list ViewerStep := replicate n (VwThread 0 (10 ^ 7) true).

(** Of five frames four have arrived and one has been shown; three wait. *)
Lemma pictures_end_to_end_witness :
  let xs := (video_start ++ turns "monitor0" 12 ++ replicate 20 (VsTurn "monitor0" delta_answers))%list in
  let w := video_run sample_video_env xs sample_video_world in
  let ys := (see_all AV1 0 4 ++ looks 1)%list in
  let v := viewer_run sample_client ys sample_viewer in
  length (frames "monitor0" 1 w) = 5%nat
  ∧ mark_unsupported (vw_lc v) = []
  ∧ ∀ t, vw_threads v !! 0%Z = Some t →
      length (shown_frames t) = 1%nat ∧ ∃ t',
        vw_threads (viewer_run sample_client (replicate (length (vt_chan t)) (VwThread 0 0 true)) v) !! 0%Z = Some t'
        ∧ f_seq <$> shown_frames t' = [0; 1; 2; 3]%nat.
Proof.
  intros xs w ys v. split; [vm_compute; reflexivity|].
  destruct (pictures_end_to_end sample_video_env (λ m, reflexivity _) (sample_names_tell _ _) sample_client strict_decodes replace_oldest_pushes xs
              sample_codec_state (qos_default 0) w Monitor 1 ys [] None v) as [H1 H2].
  - reflexivity.
  - reflexivity.
  - vm_compute; reflexivity.
  - vm_compute; reflexivity.
  - intros d. destruct (decide (d = 0%Z)) as [->|Hd].
    + vm_compute. eexists [ArFrame _]. reflexivity.
    + assert (told d ys = []) as ->; [|apply prefix_nil]. unfold ys, told, see_all. cbn.
      change (wrap 64 0) with 0%Z. by rewrite !bool_decide_false by done.
  - intros f [->|(x & d & _ & _ & Hf)]; [reflexivity|]. destruct f; try reflexivity. by apply Z.lt_irrefl in Hf.
  - vm_compute; reflexivity.
  - reflexivity.
  - split; [exact H1|]. intros t Ht. destruct (H2 0%Z t Ht) as [_ H3]. split.
    + vm_compute in Ht. injection Ht as <-. vm_compute. reflexivity.
    + destruct (H3 ltac:(vm_compute; reflexivity) 0%Z true) as (t' & E1 & E2). exists t'. split; [exact E1|].
      rewrite E2. vm_compute. reflexivity.
Defined.

(** *** What goes wrong *)

(** A queue that overflows drops its first frame, but the channel says only that a frame
    waits: what follows is decoded one key frame too early.  Here a new format is given
    to a decoder before its key frame, which fails and gives the format up for the rest
    of the session, although the loop had asked for a refresh and dropped what waited
    until the next key frame. *)
Lemma overflow_gives_up_format :
  let xs := (see_all VP9 1 61 ++ see_all VP9 2 61 ++ see_all AV1 3 2 ++ [VwUi] ++ looks 122)%list in
  let v := viewer_run sample_client xs sample_viewer in
  refreshed v = true ∧ mark_unsupported (vw_lc v) = [AV1].
Proof. vm_compute. done. Qed.

(** The answer to a switch of displays ([handle_switch_display] of the host) opens the
    decoder anew; if it comes after the key frame, the next frame fails and the format
    is given up. *)
Lemma switch_after_key_gives_up_format :
  let xs := ([see AV1 1 0; VwSwitchDisplay 0; see AV1 1 1] ++ looks 3)%list in
  mark_unsupported (vw_lc (viewer_run sample_client xs sample_viewer)) = [AV1].
Proof. vm_compute. done. Qed.

(** So it is when the user changes how textures are rendered
    ([use_texture_render_changed]), which opens the decoders anew before it asks for a
    key frame. *)
Lemma reset_before_refresh_gives_up_format :
  let asks := [VwAsk (UdResetDecoder None); VwAsk (UdMessage PmRefreshVideo)] in
  let xs := ([see AV1 1 0] ++ looks 1 ++ asks ++ [VwUi; see AV1 1 1] ++ looks 2 ++ [VwUi])%list in
  mark_unsupported (vw_lc (viewer_run sample_client xs sample_viewer)) = [AV1].
Proof. vm_compute. done. Qed.

(** A display that shows every frame it got is refreshed because it got only a few of
    them, and with it one that shows thirty frames a second. *)
Lemma shown_displays_refreshed :
  let on1 := VwFrame 0 (wire (mkFrame 1 VP9 true 2 0)) in
  let xs := (see_all VP9 1 20 ++ looks 20 ++ [on1; VwThread 1 (10 ^ 7) true; VwStatus (4 * 10 ^ 9) 4000 true])%list in
  let v := viewer_run sample_client xs sample_viewer in
  (λ t, (length (vt_shown t), vt_decode_fps t)) <$> vw_threads v = {[ 0%Z := (20%nat, Some 100%Z); 1%Z := (1%nat, None) ]}
  ∧ vw_data v = (λ d, UdMessage (PmRefreshVideoDisplay d)) <$> (map_to_list (vw_threads v)).*1.
Proof. vm_compute. done. Qed.

(** A picture that does not change is asked for again and again. *)
Lemma still_display_refreshed :
  let ticks := (λ n, VwStatus (Z.of_nat n * 10 ^ 9) 1000 true) <$> seq 1 400 in
  let v := viewer_run sample_client (see_all VP9 1 20 ++ looks 20 ++ ticks)%list sample_viewer in
  length (List.filter (λ d, match d with UdMessage m => is_refresh m | _ => false end) (vw_data v)) = 20%nat
  ∧ (refresh_times ∘ vt_ctl) <$> vw_threads v !! 0%Z = Some 20%Z.
Proof. vm_compute. done. Qed.
