(* ===== verification/ViewerRate.v ===== *)
(** * The rate and the refreshes a client asks for

    [fps_control] of [Viewer]: whatever the decoders do and however the host sends, a
    rate told to the host is one the user chose or lies between one frame and the most
    that [fps_control] allows; from one choice of the user to the next the last rate
    that [fps_control] told is the one the client remembers; and no display is refreshed
    for the rate's sake more than twenty times.  Last, what a choice of the user does to
    what the client remembers. *)

From S2P Require Import Prelude Strs Version Codecs Video Viewer.
From S2P Require Import VideoSafety ViewerSafety.
From Stdlib Require Import Ascii String.
From stdpp Require Import gmap.

Local Open Scope string_scope.
#[local] Abbreviation length := Datatypes.length.
#[local] Arguments String.append _ _ : simpl nomatch.

(** The rates among messages; those told to the peer and those about to be. *)
Definition rate_of (m : PeerMsg) : option Z := match m with PmCustomFps n => Some n | _ => None end.
Definition rate_asked (d : UiData) : option Z := match d with UdMessage m => rate_of m | _ => None end.
Definition rates (w : ViewerWorld) : list Z := (omap rate_of (vw_out w) ++ omap rate_asked (vw_data w))%list.

Section Rate.
  Variable env : ViewerEnv.
  Hypothesis iter_perm : ∀ m, vi_iter env m ≡ₚ map_to_list m.

Section Invariant.
Definition times (t : VideoThread) : Z := refresh_times (vt_ctl t).

(** The rates the user chooses, and what is said of the last rate. *)
Variable U : Z → Prop.
Variable L : list Z → option Z → Prop.
Hypothesis L_set : ∀ l fps, L (l ++ [fps]) (Some fps).

Record rate_ok (w : ViewerWorld) : Prop := {
  ra_bounds : Forall (λ n, U n ∨ 1 <= n <= 120)%Z (rates w);
  ra_last : L (rates w) (last_auto_fps (vw_lc w));
  ra_times : ∀ d t, vw_threads w !! d = Some t → (0 <= times t <= 20)%Z
}.

(** Nothing about rates and refreshes. *)
Record idle (w w' : ViewerWorld) : Prop := {
  id_rates : rates w' = rates w;
  id_last : last_auto_fps (vw_lc w') = last_auto_fps (vw_lc w);
  id_times : ∀ d t', vw_threads w' !! d = Some t' →
    times t' = 0%Z ∨ ∃ t, vw_threads w !! d = Some t ∧ times t' = times t
}.

Lemma idle_refl w : idle w w.
Proof. split; try done. intros d t Ht. right. by exists t. Qed.
Lemma idle_trans w1 w2 w3 : idle w1 w2 → idle w2 w3 → idle w1 w3.
Proof.
  intros [A1 A2 A3] [B1 B2 B3]. split; [congruence..|]. intros d t3 H3. destruct (B3 d t3 H3) as [?|(t2 & H2 & E2)]; [by left|].
  destruct (A3 d t2 H2) as [?|(t1 & H1 & E1)]; [left; congruence|right]. exists t1. split; [done|congruence].
Qed.
Lemma idle_ok w w' : idle w w' → rate_ok w → rate_ok w'.
Proof.
  intros [A1 A2 A3] [B1 B2 B3]. split; [by rewrite A1|by rewrite A1, A2|]. intros d t' H'.
  destruct (A3 d t' H') as [->|(t & H & ->)]; [lia|eauto].
Qed.

Lemma idle_threads w w' (f : Z → VideoThread → VideoThread) : vw_data w' = vw_data w → vw_out w' = vw_out w →
  last_auto_fps (vw_lc w') = last_auto_fps (vw_lc w) →
  (∀ d, vw_threads w' !! d = f d <$> vw_threads w !! d) → (∀ d t, times (f d t) = times t) → idle w w'.
Proof.
  intros E1 E2 E3 E4 Hf. split; [unfold rates; by rewrite E1, E2|done|]. intros d t'. rewrite E4. intros (t & Ht & ->)%fmap_Some.
  right. by exists t.
Qed.
Lemma idle_same w w' : vw_data w' = vw_data w → vw_out w' = vw_out w → last_auto_fps (vw_lc w') = last_auto_fps (vw_lc w) →
  vw_threads w' = vw_threads w → idle w w'.
Proof. intros E1 E2 E3 E4. apply (idle_threads _ _ (λ _ t, t)); try done. intros d. rewrite E4. by destruct (_ !! d). Qed.
Lemma idle_put_thread d t t' w : vw_threads w !! d = Some t → times t' = times t → idle w (put_thread d t' w).
Proof.
  intros Hd Ht. split; [done|done|]. intros i t2. cbn. destruct (decide (i = d)) as [->|].
  - rewrite lookup_insert_eq. intros [= <-]. right. by exists t.
  - rewrite lookup_insert_ne by done. intros Hi. right. by exists t2.
Qed.
Lemma idle_on_threads f w : (∀ t, times (f t) = times t) → idle w (on_threads f w).
Proof. intros Hf. apply (idle_threads _ _ (λ _, f)); try done. intros d. apply lookup_fmap. Qed.
Lemma idle_on_thread d f w : (∀ t, times (f t) = times t) → idle w (on_thread d f w).
Proof.
  intros Hf. apply (idle_threads _ _ (λ i t, if decide (i = d) then f t else t)); try done; [|intros i t; by destruct (decide _)].
  intros i. unfold on_thread. cbn. destruct (decide (i = d)) as [->|]; [by rewrite lookup_alter_eq|].
  rewrite lookup_alter_ne by done. by destruct (_ !! i).
Qed.
Lemma idle_push d w : rate_asked d = None → idle w (push_data d w).
Proof.
  intros Hd. split; [|done|intros i t Ht; right; by exists t]. unfold rates. cbn. rewrite omap_app. cbn. by rewrite Hd, app_nil_r.
Qed.
Lemma idle_out m w : rate_of m = None → idle w (send_peer m w).
Proof.
  intros Hm. split; [|done|intros i t Ht; right; by exists t]. unfold rates. cbn. rewrite omap_app. cbn. by rewrite Hm, app_nil_r.
Qed.

Lemma refresh_no_rate d : rate_of (refresh_message env d) = None.
Proof. unfold refresh_message. by destruct (is_support_multi_ui_session_num _). Qed.
Lemma idle_refresh d w : idle w (refresh_video env d w).
Proof. apply idle_push. apply refresh_no_rate. Qed.

Lemma idle_record w : idle w (update_record_state w).
Proof.
  unfold update_record_state. set (w1 := if lc_record_permission _ then w else _).
  assert (idle w w1) as H1 by (unfold w1; destruct (lc_record_permission _); [apply idle_refl|by apply idle_same]).
  clearbody w1. cbv zeta. destruct (Bool.eqb _ _); [done|]. eapply idle_trans; [exact H1|].
  eapply idle_trans; [|by apply idle_push]. eapply idle_trans; [|by apply idle_on_threads]. by apply idle_same.
Qed.

Lemma idle_greeting w : idle w (send_toggle_privacy_mode_msg env (send_toggle_virtual_display_msg env w)).
Proof.
  apply (idle_trans _ (send_toggle_virtual_display_msg env w)).
  - unfold send_toggle_virtual_display_msg. destruct (negb _); [apply idle_refl|]. generalize (split_on "," (vi_option env "virtual-display")).
    intros l. revert w; induction l as [|s l IH]; intros w; [apply idle_refl|]. cbn. eapply idle_trans; [|apply IH].
    destruct (parse_i32 s); [by apply idle_out|apply idle_refl].
  - unfold send_toggle_privacy_mode_msg. cbv zeta. repeat case_match; first [apply idle_refl|by apply idle_out].
Qed.

Lemma idle_frame now vf w : idle w (on_video_frame env now vf w).
Proof.
  unfold on_video_frame. set (w1 := if vw_first_frame w then w else _).
  assert (idle w w1) as H1.
  { unfold w1. destruct (vw_first_frame w); [apply idle_refl|]. eapply idle_trans; [|apply idle_greeting]. by apply idle_same. }
  clearbody w1. cbv zeta. set (w2 := w1 <| vw_video_format := _ |>). assert (idle w w2) as H2 by (eapply idle_trans; [exact H1|by apply idle_same]).
  clearbody w2. set (d := wrap 64 _). set (w3 := match vw_threads w2 !! d with Some _ => w2 | None => _ end).
  assert (idle w w3) as H3.
  { unfold w3. destruct (vw_threads w2 !! d) eqn:Ed; [done|]. eapply idle_trans; [exact H2|]. unfold new_video_thread.
    set (w4 := put_thread d _ w2). assert (idle w2 w4) as H4.
    { split; [done|done|]. intros i t. unfold w4. cbn. destruct (decide (i = d)) as [->|].
      - rewrite lookup_insert_eq. intros [= <-]. by left.
      - rewrite lookup_insert_ne by done. intros Hi. right. by exists t. }
    cbv zeta. destruct (_ =? _)%nat; [|done]. eapply idle_trans; [exact H4|]. eapply idle_trans; [|apply idle_record]. by apply idle_same. }
  clearbody w3. destruct (vw_threads w3 !! d) as [t|] eqn:Ed; [|done]. eapply idle_trans; [exact H3|]. unfold give_frame.
  destruct (contains_key_frame vf); [by eapply idle_put_thread|]. destruct (vi_force_push env vf (vt_queue t)) as [[old|] q].
  - eapply idle_trans; [|apply idle_refresh]. by eapply idle_put_thread.
  - by eapply idle_put_thread.
Qed.

Lemma idle_thread key elapsed created w : idle w (thread_step env key elapsed created w).
Proof.
  unfold thread_step. destruct (vw_threads w !! key) as [t|] eqn:Ek; [|apply idle_refl].
  assert (∀ vf t1, times t1 = times t → idle w (decode_frame env key vf elapsed created t1 w)) as Hdec.
  { intros vf t1 Ht. unfold decode_frame. destruct (handle_frame _ _ _) as [res h].
    assert (∀ w', idle w w' → idle w (check_decoder env h w')) as Hc.
    { intros w' H'. unfold check_decoder. destruct (_ && _); [|done]. eapply idle_trans; [exact H'|]. cbv zeta.
      eapply idle_trans; [|by apply idle_push]. by apply idle_same. }
    apply Hc. destruct res as [[|]|e].
    - destruct (fps_calculate _ _ _ _). by eapply idle_put_thread.
    - by eapply idle_put_thread.
    - eapply idle_trans; [|apply idle_refresh]. by eapply idle_put_thread. }
  destruct (vt_chan t) as [|[|vf| |start] chan]; [apply idle_refl| |by apply Hdec|by eapply idle_put_thread..].
  cbv zeta. change (vt_queue (t <| vt_chan := chan |>)) with (vt_queue t). destruct (vt_queue t) as [|vf q]; [by eapply idle_put_thread|].
  change (vt_discard (t <| vt_chan := chan |> <| vt_queue := q |>)) with (vt_discard t).
  destruct (vt_discard t); [by eapply idle_put_thread|by apply Hdec].
Qed.

(** The loop hands the message on. *)
Lemma idle_ui d ds w : vw_data w = d :: ds → idle w (handle_msg_from_ui d (w <| vw_data := ds |>)).
Proof.
  intros Ed. set (w0 := w <| vw_data := ds |>).
  assert (∀ w1, idle w0 w1 → rate_asked d = None → idle w w1) as Hno.
  { intros w1 H1 Hd. eapply idle_trans; [|exact H1]. split; [|done|intros i t Ht; right; by exists t].
    unfold rates. cbn. rewrite Ed. cbn. by rewrite Hd. }
  destruct d as [m|[display|]|start|display sid]; cbn [handle_msg_from_ui].
  - set (w1 := match m with PmRefreshVideo => _ | PmRefreshVideoDisplay _ => _ | _ => _ end).
    assert (idle w0 w1 ∧ vw_data w1 = ds ∧ vw_out w1 = vw_out w) as ([A1 A2 A3] & E2 & E3).
    { unfold w1. destruct m; (split; [|done]); first [apply idle_refl|by apply idle_on_threads|by apply idle_on_thread]. }
    split; [|exact A2|exact A3]. unfold rates. cbn. rewrite E2, E3, Ed, omap_app. cbn. destruct (rate_of m); cbn; by rewrite <- (assoc_L (++)).
  - by apply Hno; [apply idle_on_thread|].
  - by apply Hno; [apply idle_on_threads|].
  - apply Hno; [|done]. eapply idle_trans; [|apply idle_record]. by apply idle_same.
  - by apply Hno; [apply idle_out|].
Qed.

(** ** The tick *)

Lemma list_filter_sublist {A} (p : A → bool) l : List.filter p l `sublist_of` l.
Proof. induction l as [|x l IH]; [constructor|]. cbn. destruct (p x); by constructor. Qed.

(** Each of the threads chosen is refreshed once. *)
Lemma refreshed_times now l w : NoDup l.*1 →
  let w' := foldl (λ w (dt : Z * VideoThread), on_thread dt.1
                   (λ t, t <| vt_ctl := vt_ctl t <| refresh_times := (refresh_times (vt_ctl t) + 1)%Z |>
                                                 <| last_refresh_instant := Some now |> |>)
                   (refresh_video env dt.1 w)) w l in
  rates w' = rates w ∧ vw_lc w' = vw_lc w
  ∧ ∀ d t', vw_threads w' !! d = Some t' → ∃ t, vw_threads w !! d = Some t
      ∧ times t' = (times t + if decide (d ∈ l.*1) then 1 else 0)%Z.
Proof.
  revert w; induction l as [|[d0 t0] l IH]; intros w Hnd; cbn [foldl].
  { split_and!; [done..|]. intros d t Ht. exists t. split; [done|]. rewrite decide_False by apply not_elem_of_nil. lia. }
  apply NoDup_cons in Hnd as [Hnin Hnd]. cbn [fst]. set (w1 := on_thread d0 _ _).
  destruct (IH w1 Hnd) as (I1 & I2 & I3). assert (rates w1 = rates w) as E1 by exact (id_rates _ _ (idle_refresh d0 w)).
  split_and!; [congruence|done|]. intros d t' Ht'. destruct (I3 d t' Ht') as (t1 & Ht1 & ->). unfold w1, on_thread in Ht1. cbn in Ht1.
  destruct (decide (d = d0)) as [->|Hne].
  - rewrite lookup_alter_eq in Ht1. apply fmap_Some in Ht1 as (t & Ht & ->). exists t. split; [done|]. unfold times. cbn.
    rewrite decide_False by done. rewrite decide_True by (cbn; by left). lia.
  - rewrite lookup_alter_ne in Ht1 by done. exists t1. split; [done|]. cbn.
    rewrite (decide_ext (d ∈ d0 :: l.*1) (d ∈ l.*1)); [done|]. rewrite elem_of_cons. naive_solver.
Qed.

Lemma refresh_threads_ok now p w : (∀ t, p t = true → (times t < 20)%Z) → rate_ok w → rate_ok (refresh_threads env now p w).
Proof.
  intros Hp [H1 H2 H3]. unfold refresh_threads. set (l := List.filter _ _).
  assert (∀ d t, (d, t) ∈ l → vw_threads w !! d = Some t ∧ p t = true) as Hl.
  { intros d t Hin. apply list_elem_of_In, filter_In in Hin as [Hin Hpt]. split; [|done].
    apply list_elem_of_In in Hin. rewrite iter_perm in Hin. by apply elem_of_map_to_list. }
  assert (NoDup l.*1) as Hnd.
  { pose proof (fmap_sublist fst _ _ (list_filter_sublist (λ dt : Z * VideoThread, p dt.2) (vi_iter env (vw_threads w)))) as Hs. eapply sublist_NoDup; [|exact Hs]. rewrite iter_perm. apply NoDup_fst_map_to_list. }
  destruct (refreshed_times now l w Hnd) as (E1 & E2 & E3). split; [by rewrite E1|by rewrite E1, E2|].
  intros d t' Ht'. destruct (E3 d t' Ht') as (t & Ht & ->). specialize (H3 d t Ht). destruct (decide _) as [Hin|]; [|lia].
  apply list_elem_of_fmap in Hin as ([d2 t2] & -> & Hin). apply Hl in Hin as [Hd Hpt]. cbn in *. rewrite Ht in Hd. injection Hd as <-.
  specialize (Hp t Hpt). lia.
Qed.

Lemma may_refresh_times now t : may_refresh now (vt_ctl t) = true → (times t < 20)%Z.
Proof. unfold may_refresh, times. intros [H _]%andb_true_iff. lia. Qed.

Lemma auto_fps_bounds m max dec custom : (5 <= custom <= 120)%Z → (1 <= auto_fps (Z.min m custom) max dec <= 120)%Z.
Proof. intros Hc. unfold auto_fps. destruct (_ && _); [|lia]. pose proof (Z.div_le_upper_bound (Z.min m custom) 2 60). lia. Qed.
Lemma custom_fps_bounds lc : (5 <= custom_fps_of lc <= 120)%Z.
Proof. unfold custom_fps_of. destruct (_ || _) eqn:E; [lia|]. apply orb_false_iff in E as [? ?]. lia. Qed.

Lemma set_auto_fps_ok fps w : (1 <= fps <= 120)%Z → rate_ok w → rate_ok (set_auto_fps fps w).
Proof.
  intros Hf [H1 H2 H3]. unfold set_auto_fps. case_bool_decide; [done|]. rewrite swrap_small by (unfold sint; lia).
  set (w' := _ <| vw_lc := _ |>). assert (rates w' = rates w ++ [fps])%list as E.
  { unfold rates. cbn. rewrite omap_app. cbn. by rewrite (assoc_L (++)). }
  split; [rewrite E; apply Forall_app_2; [done|constructor; [by right|done]]|rewrite E; apply L_set|done].
Qed.

Lemma times_trending last limited t : times (fps_trending last limited t).2 = times t.
Proof. unfold fps_trending. destruct (vt_decode_fps t); [|done]. by repeat case_match. Qed.

Lemma status_ok now elapsed direct w : rate_ok w → rate_ok (on_status env now elapsed direct w).
Proof.
  intros Hw. unfold on_status. destruct (_ <? _)%Z; [done|]. unfold fps_control. set (w1 := on_threads (λ t, t <| vt_frame_count := _ |>) w).
  set (fps := _ <$> vw_threads w). set (w2 := w1 <| vw_threads := _ |>). assert (idle w w2) as H2.
  { eapply (idle_trans _ w1); [by apply idle_on_threads|].
    apply (idle_threads _ _ (λ d, count_inactive (default 0%Z (fps !! d)))); try done. intros d. unfold w2. cbn.
    rewrite map_lookup_imap. by destruct (_ !! d). }
  clearbody w2. apply (idle_ok _ _ H2) in Hw. clear w1 fps H2. cbv zeta. destruct (min_opt _) as [m|].
  - set (w3 := on_threads _ w2). assert (idle w2 w3) as H3 by (apply idle_on_threads; intros t; apply times_trending).
    clearbody w3. apply (idle_ok _ _ H3) in Hw.
    apply refresh_threads_ok; [intros t [_ Ht]%andb_true_iff; by eapply may_refresh_times|].
    destruct (_ || _ || _); [|done]. apply set_auto_fps_ok; [|done]. apply auto_fps_bounds, custom_fps_bounds.
  - apply refresh_threads_ok; [|done]. intros t [_ Ht]%andb_true_iff. by eapply may_refresh_times.
Qed.

(** ** What the user does *)

(** The rate that a step of the user tells the host. *)
Definition user_rate (x : ViewerStep) : option Z :=
  match x with
  | VwAsk d => rate_asked d
  | VwCustomFps fps => Some fps
  | VwQuality value => if String.eqb value "custom" then None else Some 30%Z
  | _ => None
  end.

(** A rate of the user is told as it is; [fps_control] does not hear of it. *)
Lemma push_rate_ok m w : (∀ n, rate_of m = Some n → U n ∧ ∀ l o, L l o) → rate_ok w → rate_ok (push_data (UdMessage m) w).
Proof.
  intros Hm Hw. destruct (rate_of m) as [n|] eqn:E; [|by eapply idle_ok; [by apply idle_push|]].
  destruct (Hm n eq_refl) as [Hn HL], Hw as [H1 H2 H3]. set (w' := push_data _ w). assert (rates w' = rates w ++ [n])%list as Er.
  { unfold rates. cbn. rewrite omap_app. cbn. by rewrite E, (assoc_L (++)). }
  split; [rewrite Er; apply Forall_app_2; [done|constructor; [by left|done]]|apply HL|done].
Qed.

Lemma set_custom_fps_ok fps w : U fps → (∀ l o, L l o) → rate_ok w → rate_ok (set_custom_fps fps w).
Proof. intros Hu HL Hw. apply push_rate_ok; [by intros n [= <-]|]. eapply idle_ok; [|exact Hw]. by apply idle_same. Qed.

Lemma rate_step_ok x w : (∀ n, user_rate x = Some n → U n ∧ ∀ l o, L l o) → rate_ok w → rate_ok (viewer_step env x w).
Proof.
  intros Hx Hw. destruct x as [now vf|s|enabled|d| |fps|value|now elapsed direct|key elapsed created]; cbn [viewer_step].
  - eapply idle_ok; [apply idle_frame|done].
  - eapply idle_ok; [by apply idle_on_thread|done].
  - eapply idle_ok; [|exact Hw]. unfold on_record_permission. eapply idle_trans; [|apply idle_record]. by apply idle_same.
  - destruct d as [m| | |]; [by apply push_rate_ok|by eapply idle_ok; [by apply idle_push|]..].
  - destruct (vw_data w) as [|d ds] eqn:Ed; [done|]. eapply idle_ok; [by apply idle_ui|done].
  - destruct (Hx fps eq_refl). by apply set_custom_fps_ok.
  - unfold save_quality. cbn in Hx. set (w1 := match quality_value value with Some _ => _ | None => w end).
    assert (rate_ok w1) as H1 by (unfold w1; destruct (quality_value value); [by apply push_rate_ok|done]).
    clearbody w1. destruct (String.eqb value "custom"); [done|]. destruct (Hx _ eq_refl). case_match; [by apply set_custom_fps_ok|done].
  - by apply status_ok.
  - eapply idle_ok; [apply idle_thread|done].
Qed.

Lemma rate_run_ok xs w : (∀ x n, x ∈ xs → user_rate x = Some n → U n ∧ ∀ l o, L l o) → rate_ok w → rate_ok (viewer_run env xs w).
Proof.
  revert w; induction xs as [|x xs IH]; intros w Hx Hw; [done|]. apply (IH (viewer_step env x w)).
  - intros y n Hy. apply Hx. by right.
  - apply rate_step_ok; [|done]. intros n. apply Hx. by left.
Qed.
End Invariant.

(** C31: the client's demands are bounded.  In every run: each rate told to the host, or
    about to be, is one that the user chose (the rate set by hand, as it is, or the 30
    that goes with a quality) or is between 1 and 120 frames a second; no display has
    been refreshed by [fps_control] more than twenty times; and from a choice of the
    user to the next, either no rate has been told and the client remembers what it
    did, or the last rate told is the one the client remembers as set.  The rate that
    goes with the login is not among those told. *)
Theorem demands_bounded xs ys marked custom w :
  w = viewer_run env (xs ++ ys) (viewer_new marked custom) →
  (∀ n, n ∈ rates w → (∃ x, x ∈ (xs ++ ys)%list ∧ user_rate x = Some n) ∨ (1 <= n <= 120)%Z)
  ∧ (∀ d t, vw_threads w !! d = Some t → (0 <= refresh_times (vt_ctl t) <= 20)%Z)
  ∧ (forallb (λ y, bool_decide (user_rate y = None)) ys = true →
      let w0 := viewer_run env xs (viewer_new marked custom) in
      rates w = rates w0 ∧ last_auto_fps (vw_lc w) = last_auto_fps (vw_lc w0)
      ∨ last (rates w) = last_auto_fps (vw_lc w) ∧ last_auto_fps (vw_lc w) ≠ None).
Proof.
  intros ->. set (U n := ∃ x, x ∈ (xs ++ ys)%list ∧ user_rate x = Some n).
  assert (∀ L zs, L [] None → (∀ l o, L l o) → (∀ z, z ∈ zs → z ∈ (xs ++ ys)%list) →
    rate_ok U L (viewer_run env zs (viewer_new marked custom))) as Hany.
  { intros L zs HL HL' Hz. apply (rate_run_ok U L (λ l fps, HL' _ _)).
    - intros x n Hx Hn. split; [|done]. exists x. split; [by apply Hz|done].
    - split; [constructor|done|]. cbn. by intros d t ?%lookup_empty_Some. }
  destruct (Hany (λ _ _, True) (xs ++ ys)%list I (λ _ _, I) (λ _ H, H)) as [H1 _ H3].
  split_and!; [intros n Hn; rewrite Forall_forall in H1; by apply H1|done|]. intros Hy. cbv zeta.
  set (w0 := viewer_run env xs (viewer_new marked custom)).
  set (L l o := l = rates w0 ∧ o = last_auto_fps (vw_lc w0) ∨ last l = o ∧ o ≠ None).
  assert (rate_ok U L w0) as [B1 B2 B3].
  { destruct (Hany (λ _ _, True) xs I (λ _ _, I)) as [A1 _ A3]; [intros z Hz; apply elem_of_app; by left|]. split; [done|by left|done]. }
  replace (viewer_run env (xs ++ ys) _) with (viewer_run env ys w0) by (unfold w0, viewer_run; by rewrite foldl_app).
  apply (ra_last U L). apply (rate_run_ok U L); [intros l fps; right; by rewrite last_snoc| |by split].
  intros x n Hx Hn. rewrite forallb_forall in Hy. apply list_elem_of_In, Hy, bool_decide_eq_true in Hx. congruence.
Qed.
End Rate.

(** Twenty frames of ten milliseconds: the client asks for what the user would like at
    most; then frames pile up and it asks for less. *)
Definition tick (n : Z) : ViewerStep := VwStatus (n * 10 ^ 9) 1000 true.
Definition quick_frames : list ViewerStep := (see_all VP9 1 20 ++ looks 20 ++ [tick 1%Z; VwUi])%list.
Definition slow_frames : list ViewerStep :=
  (((λ k, see VP9 1 (20 + k)) <$> seq 0 70) ++ replicate 30 (VwThread 0 (10 ^ 8) true) ++ [tick 2%Z])%list.

Lemma demands_bounded_witness :
  let w := viewer_run sample_client (quick_frames ++ slow_frames) (viewer_new [] (Some 60%Z)) in
  rates w = [60; 4]%Z ∧ last_auto_fps (vw_lc w) = Some 4%Z ∧ ∀ d t, vw_threads w !! d = Some t → (0 <= refresh_times (vt_ctl t) <= 20)%Z.
Proof.
  intros w. assert (rates w = [60; 4]%Z) as E by (vm_compute; reflexivity).
  destruct (demands_bounded sample_client (λ m, reflexivity _) quick_frames slow_frames [] (Some 60%Z) w eq_refl) as (_ & H2 & H3).
  split; [exact E|]. split; [|exact H2]. destruct (H3 ltac:(vm_compute; reflexivity)) as [[F _]|[F _]].
  - exfalso. revert F. rewrite E. vm_compute. discriminate.
  - rewrite <- F, E. reflexivity.
Defined.

(** *** What goes wrong *)

(** What the user sets is told to the host but not remembered as set: the client, whose
    decoder manages 9 frames a second with 7 more waiting, had asked for 9; the user
    asks for 100; the client sees that 9 is the rate to ask for, believes that it has,
    and says nothing. *)
Lemma user_rate_not_remembered :
  let xs := (quick_frames ++ slow_frames ++ replicate 33 (VwThread 0 (10 ^ 8) true)
             ++ [tick 3%Z; VwCustomFps 100; tick 4%Z; tick 5%Z])%list in
  let w := viewer_run sample_client xs (viewer_new [] (Some 60%Z)) in
  rates w = [60; 4; 9; 100]%Z ∧ last_auto_fps (vw_lc w) = Some 9%Z
  ∧ (λ t, (length (vt_queue t), vt_decode_fps t)) <$> vw_threads w !! 0%Z = Some (7%nat, Some 10%Z).
Proof. vm_compute. done. Qed.
